(* ===== verification/_CoqProject ===== *)
-Q . S2P
Prelude.v
Effects.v
GoStrings.v
StrFacts.v
Json.v
JsonFacts.v
Sha256.v
AesGcm.v
Timestamp.v
GoTime.v
Identity.v
Topology.v
GoNet.v
Model.v
Proxy.v
ProxyFacts.v
Dns.v
DnsFacts.v
Collate.v
RProxy.v
Nginx.v
Coredns.v
RenderFacts.v
Kek.v
SecretBox.v
Snapshot.v
Transfer.v
SnapshotFacts.v
JsonText.v
Jobs.v
Store.v
StoreFacts.v
Scrub.v
ScrubFacts.v
JsonRead.v
SnapshotText.v
SnapshotTrip.v
Credentials.v
SnapshotClient.v
SnapshotClientFacts.v
NodeSync.v
NodeSyncFacts.v
HostFiles.v
Tar.v
Candidate.v
JsonCompact.v
Control.v
ControlServer.v
ControlFacts.v
Docker.v
DockerFacts.v
DockerZones.v
Revisions.v
NodeSyncStore.v
NodeSyncStoreFacts.v
Installation.v
InstallationFacts.v
InstallationStore.v
InstallationStoreFacts.v
ClusterKeys.v
ClusterKeysFacts.v
InstallationWitnesses.v
PrimaryStore.v
Publication.v
Acknowledgement.v
Canonical.v
PrimaryFacts.v
Publisher.v
Render.v
ConfigText.v
Producer.v
PublisherFacts.v
Bootstrap.v
Enrollment.v
EnrollmentFacts.v
WorkerFacts.v
Apply.v
ApplyFacts.v
Witnesses.v
SyncWitnesses.v
