(* ===== verification/Prelude.v ===== *)
(** * ProxyCore: verification library (root file, shared prelude)

    ProxyCore manages DNS zones, reverse proxies and streams. An API process keeps
    the configuration in SQLite and turns each change into a revision and an apply
    job; a worker renders the revision to nginx and CoreDNS files and promotes them
    through a control server; a primary publishes its configuration as a signed
    snapshot, which nodes pull, verify, apply and acknowledge. All paths below are
    under src/apps/api/internal/.

    ** Parts, from the data upwards

    Shared: Prelude (results, ordering, lists), Effects (programs against an
    environment and their weakest preconditions), GoStrings and StrFacts (Go's strings
    package on byte strings), Json, JsonFacts, JsonText, JsonRead (dynamic values,
    stable serialization of domain/snapshot.go, the encoding/json reader and writer),
    Sha256 and AesGcm (computed, for hashes and the cluster key), GoNet (netip), GoTime
    (RFC 3339 times), JsonCompact (a compact text is read as itself).

    Domain rules (domain/): Identity (identity.go), Model (model.go, errors.go), Dns
    with DnsFacts (dns.go), Proxy with ProxyFacts (proxy.go), Topology
    (cluster/state.go), Timestamp (sqlitedb/timestamp.go).

    Rendering: Collate, RProxy, Nginx, Coredns with RenderFacts (renderers/),
    Render with WorkerFacts (worker/materialize, worker/render).

    Worker: Jobs, Store with StoreFacts (worker/jobs, worker/store, sqlitedb/write.go),
    Revisions (worker/revisions), Candidate (worker/apply: candidate.go, desired.go), Scrub with ScrubFacts (worker/apply/scrub.go,
    secrets/secrets.go), Apply with ApplyFacts (worker/apply/apply.go). Apply calls the
    other worker parts as the source does: it claims from Store, renders with Render,
    writes with Candidate and stamps with Revisions. Its requests travel through Control
    (worker/control: the client) to ControlServer (worker/controlserver: lines, dispatch,
    connections, and where encoding/json gives up on a line), with ControlFacts; the handlers behind it are Docker (worker/controldocker)
    over HostFiles (Go's os package on a tree of files) and Tar; DockerFacts and DockerZones
    prove promotion and rollback.

    Replication: Kek (cluster/kek.go), Snapshot with SnapshotFacts (snapshot/schema.go,
    validate.go, compat.go, serialize.go), Transfer (snapshot/export.go, import.go,
    retention.go), SnapshotText and SnapshotTrip (reading an envelope back),
    Credentials (sync/credentials.go), SnapshotClient with SnapshotClientFacts
    (sync/snapshot_client.go), NodeSync with NodeSyncFacts
    (sync/node_sync.go), NodeSyncStore with NodeSyncStoreFacts
    (configuration/sqlite_node_sync_state.go), which implements the store the loop uses
    and runs the loop on it. NodeSync decodes with SnapshotText and verifies
    with Snapshot.

    Identity of an installation (identity/): Installation (types.go, service.go,
    topology.go, enrollment.go over the interface of store.go, a class with its laws)
    with InstallationFacts; InstallationStore (sqlite_store.go, sqlite_topology.go, which
    discharges those laws) with InstallationStoreFacts. Its keys:
    SecretBox (secrets/secrets.go), ClusterKeys with ClusterKeysFacts (cluster/store.go,
    sqlite_store.go, sqlite_import.go, local_loader.go); InstallationWitnesses.

    What a primary keeps for its nodes (configuration/): PrimaryStore (the tables,
    sqlite_enrollment_tokens.go, sqlite_node_unlink.go), Publication
    (sqlite_snapshot_publication.go, the candidates), Acknowledgement
    (sqlite_snapshot_acknowledgement.go), Canonical (sqlite_phase2_store.go: the producer's
    transaction), ConfigText (the configuration as JSON text, which Render takes decoded).
    PrimaryFacts proves their properties. On top of them Producer (sync/publication_producer.go)
    turns applied jobs into published snapshots, and Publisher (sync/publisher.go,
    httpserver/enrollment_publication.go) answers the pulls of nodes, with PublisherFacts,
    which joins them to the SnapshotClient of the node.

    How a node joins (enrollment/): Bootstrap (bootstrap.go, bootstrap_secrets.go,
    bootstrap_wire.go: the sealed envelope of a credential and a cluster key), Enrollment
    (token.go, url.go, primary.go, bootstrap_accept.go, with the primary's transaction of
    configuration/sqlite_primary_grant.go and the issuer of cmd/server) with EnrollmentFacts,
    which follows a grant from the token to the node's own store and back to Publisher.

    Witnesses and SyncWitnesses apply the properties at concrete inputs.

    ** State and operations

    A database is a record of tables, a table a list of rows in the engine's order; a
    transaction is a function to a result whose error leaves the tables unchanged. The
    schema's constraints are part of it. Where a component talks to other processes
    (control server, network, clock, filesystem, other writers) a program carries the
    history of its events and every answer is a function of that history, so a theorem
    over all such functions covers every interleaving with the environment.

    ** What is shown

    Apply: the control requests follow one protocol; nothing is promoted before every
    candidate is validated; applied means every candidate was promoted, reloaded and
    healthy; a rolled back run undid its promotions in reverse order. Store: the schema
    invariant, final states stay final, claims are exclusive and take the oldest job,
    stale claims are requeued, patches change what they name. Replication: what a node
    applies it fetched, decoded and verified in the same cycle; it acknowledges what it
    applied and was offered; it believes itself unlinked on the primary's word only;
    a healthy cycle converges; delays and retries are bounded; envelopes, credentials
    and stable texts are read back as written; the hash binds the replicated content.
    Control: a request that is sent is the one handled and its answer the one returned;
    a connection answers its lines in order; a closed server keeps no connection; whatever
    call fails, a failed promotion of CoreDNS is undone and a rollback of nginx restores
    what was active; archives are read back as built.
    Identity: the identity a service answers with is the one its store holds, whatever
    fails; a promotion outranks every generation the installation acknowledged, and leaves
    no credential, binding or lease of the former cluster; first boots agree on one row.
    Keys: concurrent creators of a cluster key converge on one; an imported key loads as
    sent; secrets decrypt to what was encrypted, the empty one excepted.
    Primary: a token that was redeemed or revoked opens nothing; producing the newest
    apply publishes it, and a published row is never bound to an older one; what is served
    is the newest row with its proof, to the holder of a live credential; an acknowledgement
    is read back as recorded; an unlinked node, and nobody else, is told so and believes it.
    Enrollment: a minted token opens until it expires; it serves one attempt, whose repeated
    request gets the same answer and issues nothing again; what the primary seals the
    node's key opens, and a node that accepts it holds the issued credential and the
    primary's cluster key, with which it authenticates at the primary.
    Domain and rendering: the validators are equivalent to declarative
    specifications, renderers quote reversibly and write complete secret files.

    ** Fuel and bounds

    The JSON reader takes fuel one above the length of its input and refuses nesting
    beyond 10000, as the library does; the retry loop recurses on its attempts;
    [NodeSync.Run] takes the number of cycles to observe, since the loop of the source
    ends only with its context. Machine integers are [Z] with the wrap-around written
    out where the code can overflow (backoff, timestamps, tokens of numbers).

    ** Not modelled

    HTTP handlers but the snapshot publication, process wiring, identity proofs, X.509 and ACME, the Docker SDK client, zip archives,
    the PostgreSQL converter, the updater, and the SQL of the configuration stores; the
    manifest lists each with its reason. Parameters stand for code outside the repository:
    uuid parsing, nearest floats, [fmt.Sprint], HTTP, addresses and certificates of TLS,
    PEM and X.509, X25519, the Docker daemon. *)

From Stdlib Require Export Ascii.
From stdpp Require Export base tactics list strings pretty gmap sorting.
From stdpp Require Import options.

(** ** Results

    Go functions that return [(T, error)], and validators that panic with a
    validation error and recover it, are modelled by [result E T]. *)
Inductive result (E A : Type) : Type :=
| Ok (a : A)
| Err (e : E).
Arguments Ok {E A} a.
Arguments Err {E A} e.

Section result_monad.
Context {E : Type}.

#[global] Instance result_ret : MRet (result E) := fun A a => Ok a.
#[global] Instance result_bind : MBind (result E) := fun A B f m =>
  match m with Ok a => f a | Err e => Err e end.
#[global] Instance result_fmap : FMap (result E) := fun A B f m =>
  match m with Ok a => Ok (f a) | Err e => Err e end.

(** [ensure b e] is Go's early return of [e] when [b] is false. *)
Definition ensure (b : bool) (e : E) : result E unit :=
  if b then Ok tt else Err e.

(** A loop that threads a state and may return an error early. *)
Fixpoint foldlM {A S : Type} (f : S -> A -> result E S) (s : S) (l : list A) : result E S :=
  match l with
  | [] => Ok s
  | a :: l => s' ← f s a; foldlM f s' l
  end.

Lemma bind_Ok {A B} (m : result E A) (f : A -> result E B) b :
  m ≫= f = Ok b <-> exists a, m = Ok a /\ f a = Ok b.
Proof. destruct m; cbv; naive_solver. Qed.

Lemma bind_Err {A B} (m : result E A) (f : A -> result E B) e :
  m ≫= f = Err e <-> m = Err e \/ exists a, m = Ok a /\ f a = Err e.
Proof. destruct m; cbv; naive_solver. Qed.

Lemma ensure_Ok b e u : ensure b e = Ok u <-> b = true.
Proof. destruct b, u; cbv; naive_solver. Qed.

Lemma ensure_true b e : b = true -> ensure b e = Ok tt.
Proof. by intros ->. Qed.

Lemma ret_Ok {A} (a b : A) : (mret a : result E A) = Ok b <-> a = b.
Proof. cbv; naive_solver. Qed.

Lemma fmap_Ok {A B} (f : A -> B) (m : result E A) b :
  f <$> m = Ok b <-> exists a, m = Ok a /\ f a = b.
Proof. destruct m; cbv; naive_solver. Qed.

Lemma mapM_res_Ok {A B} (f : A -> result E B) l k :
  mapM f l = Ok k <-> Forall2 (fun x y => f x = Ok y) l k.
Proof.
  split.
  - revert k; induction l as [|x l IH]; intros k H; simpl in H.
    + injection H as <-. constructor.
    + apply bind_Ok in H as (y & Hy & H). apply bind_Ok in H as (k' & Hk & H).
      injection H as <-. constructor; eauto.
  - induction 1 as [|x y l k Hx _ IH]; [done|]. simpl. by rewrite Hx, IH.
Qed.

Lemma foldlM_app {A S} (f : S -> A -> result E S) s l1 l2 :
  foldlM f s (l1 ++ l2) = (s' ← foldlM f s l1; foldlM f s' l2).
Proof.
  revert s; induction l1 as [|a l1 IH]; intros s; simpl; [done|].
  destruct (f s a); simpl; [apply IH | done].
Qed.

(** Loop rule: an invariant on the state and the elements consumed so far. *)
Lemma foldlM_inv {A S} (I : list A -> S -> Prop) (f : S -> A -> result E S) s l s' :
  I [] s ->
  (forall done a s1 s2, I done s1 -> f s1 a = Ok s2 -> I (done ++ [a]) s2) ->
  foldlM f s l = Ok s' -> I l s'.
Proof.
  intros H0 Hstep. cut (forall done s, I done s -> foldlM f s l = Ok s' -> I (done ++ l) s').
  { intros H ?. by apply (H [] s). }
  clear s H0. induction l as [|a l IH]; intros done s HI; simpl.
  - intros [= ->]. by rewrite app_nil_r.
  - intros (s1 & H1 & H2)%bind_Ok. rewrite cons_middle, app_assoc.
    eapply IH; eauto.
Qed.
End result_monad.

#[global] Instance result_eq_dec {E A} `{EqDecision E, EqDecision A} : EqDecision (result E A).
Proof. solve_decision. Defined.

Definition is_ok {E A} (r : result E A) : bool :=
  match r with Ok _ => true | Err _ => false end.

(** ** Automation

    [inv_res] takes a hypothesis [m = Ok x] apart along binds, guards and
    returns; [bsimp] turns boolean hypotheses into propositions. *)
Ltac inv_res_step :=
  match goal with
  | H : mbind _ _ = Ok _ |- _ =>
      let a := fresh "a" in let Ha := fresh "Hm" in
      apply bind_Ok in H as (a & Ha & H)
  | H : fmap _ _ = Ok _ |- _ =>
      let a := fresh "a" in let Ha := fresh "Hm" in
      apply fmap_Ok in H as (a & Ha & H)
  | H : mret _ = Ok _ |- _ => apply (proj1 (ret_Ok _ _)) in H
  | H : ensure _ _ = Ok ?u |- _ => apply ensure_Ok in H; try clear u
  | H : Ok _ = Ok _ |- _ => injection H as H
  | H : Err _ = Ok _ |- _ => discriminate H
  | H : Ok _ = Err _ |- _ => discriminate H
  end.
Ltac inv_res := repeat (inv_res_step; simplify_eq).

Ltac bsimp_step :=
  match goal with
  | H : (_ && _)%bool = true |- _ => apply andb_true_iff in H; destruct H
  | H : (_ || _)%bool = false |- _ => apply orb_false_iff in H; destruct H
  | H : negb _ = true |- _ => apply negb_true_iff in H
  | H : negb _ = false |- _ => apply negb_false_iff in H
  | H : bool_decide _ = true |- _ => apply bool_decide_eq_true in H
  | H : bool_decide _ = false |- _ => apply bool_decide_eq_false in H
  | H : String.eqb _ _ = true |- _ => apply String.eqb_eq in H
  | H : String.eqb _ _ = false |- _ => apply String.eqb_neq in H
  | H : Z.leb _ _ = true |- _ => apply Z.leb_le in H
  | H : Z.leb _ _ = false |- _ => apply Z.leb_gt in H
  | H : Z.ltb _ _ = true |- _ => apply Z.ltb_lt in H
  | H : Z.ltb _ _ = false |- _ => apply Z.ltb_ge in H
  | H : Z.eqb _ _ = true |- _ => apply Z.eqb_eq in H
  | H : Z.eqb _ _ = false |- _ => apply Z.eqb_neq in H
  | H : Nat.eqb _ _ = true |- _ => apply Nat.eqb_eq in H
  | H : Nat.leb _ _ = true |- _ => apply Nat.leb_le in H
  | H : Nat.leb _ _ = false |- _ => apply Nat.leb_gt in H
  | H : Nat.ltb _ _ = true |- _ => apply Nat.ltb_lt in H
  | H : Nat.ltb _ _ = false |- _ => apply Nat.ltb_ge in H
  end.
Ltac bsimp := repeat bsimp_step.

(** Split on the scrutinee of a match in a hypothesis or in the goal. *)
Ltac case_on H :=
  match type of H with
  | context [match ?x with _ => _ end] => destruct x eqn:?
  end.
Ltac case_goal :=
  match goal with
  | |- context [match ?x with _ => _ end] => destruct x eqn:?
  end.

(** ** Lists *)

(** [find_first p l]: the first element satisfying [p], Go's search loop with [break]. *)
Fixpoint find_first {A} (p : A -> bool) (l : list A) : option A :=
  match l with
  | [] => None
  | a :: l => if p a then Some a else find_first p l
  end.

Lemma find_first_Some {A} (p : A -> bool) l a :
  find_first p l = Some a -> a ∈ l /\ p a = true.
Proof.
  induction l as [|b l IH]; simpl; [done|].
  destruct (p b) eqn:Hb; [intros [= ->]; set_solver|].
  intros [??]%IH. set_solver.
Qed.

Lemma find_first_None {A} (p : A -> bool) l :
  find_first p l = None <-> Forall (fun a => p a = false) l.
Proof.
  induction l as [|b l IH]; simpl; [done|].
  rewrite Forall_cons. destruct (p b); naive_solver.
Qed.

Lemma existsb_elem {A} (p : A -> bool) l :
  existsb p l = true <-> exists a, a ∈ l /\ p a = true.
Proof.
  rewrite existsb_exists. by setoid_rewrite <- list_elem_of_In.
Qed.

Lemma existsb_false_Forall {A} (p : A -> bool) l :
  existsb p l = false <-> Forall (fun a => p a = false) l.
Proof.
  induction l as [|b l IH]; simpl; [done|].
  rewrite orb_false_iff, Forall_cons. naive_solver.
Qed.

Lemma forallb_Forall {A} (p : A -> bool) l :
  forallb p l = true <-> Forall (fun a => p a = true) l.
Proof.
  induction l as [|b l IH]; simpl; [done|].
  rewrite andb_true_iff, Forall_cons. naive_solver.
Qed.

(** ** Loops that refuse a key seen before

    Validators keep the keys of the elements they have accepted and refuse an
    element whose key is among them. *)
Section seen_loop.
Context {E A K : Type} (good : A -> K -> Prop) (step : list K -> A -> result E (list K)).
Context (step_Ok : forall seen a s',
  step seen a = Ok s' <-> exists k, good a k /\ (k ∉ seen) /\ s' = k :: seen).

Lemma seen_loop seen l s' :
  foldlM step seen l = Ok s' <->
  exists ks, Forall2 good l ks /\ NoDup ks /\ Forall (fun k => k ∉ seen) ks /\ s' = rev ks ++ seen.
Proof using step_Ok.
  revert seen. induction l as [|a l IH]; intros seen; simpl.
  - split.
    + intros [= <-]. exists []. repeat split; constructor.
    + intros (ks&H&_&_&->). by apply Forall2_nil_inv_l in H as ->.
  - rewrite bind_Ok. setoid_rewrite step_Ok. setoid_rewrite IH. split.
    + intros (?&(k&Hk&Hn&->)&ks&Hks&Hnd&Hf&->). exists (k :: ks).
      rewrite Forall_forall in Hf.
      repeat split; [by constructor| constructor; [|done] | |simpl; by rewrite <- app_assoc].
      * intros Hin%Hf. set_solver.
      * constructor; [done|]. apply Forall_forall. intros x Hx%Hf. set_solver.
    + intros (ks&H&Hnd&Hf&->). apply Forall2_cons_inv_l in H as (k&ks'&Hk&Hks&->).
      apply NoDup_cons in Hnd as [Hn Hnd]. apply Forall_cons in Hf as [Hkf Hf].
      exists (k :: seen). split; [eauto|]. exists ks'. repeat split; try done.
      * apply Forall_forall. intros x Hx. rewrite Forall_forall in Hf. specialize (Hf x Hx). set_solver.
      * simpl. by rewrite <- app_assoc.
Qed.

Lemma seen_loop_ok l :
  (exists s', foldlM step [] l = Ok s') <->
    exists ks, Forall2 good l ks /\ NoDup ks.
Proof using step_Ok.
  setoid_rewrite seen_loop. split; [naive_solver|].
  intros (ks&?&?). exists (rev ks ++ []), ks. repeat split; try done.
  apply Forall_forall. set_solver.
Qed.
End seen_loop.

(** A key that identifies the rows of a table. *)
Lemma NoDup_map_unique {A B} (f : A -> B) l x y : NoDup (map f l) -> x ∈ l -> y ∈ l -> f x = f y -> x = y.
Proof.
  induction l as [|a l IH]; [by intros _ ?%elem_of_nil|]. cbn [map]. intros [Ha Hl]%NoDup_cons Hx Hy He.
  apply elem_of_cons in Hx as [-> |Hx], Hy as [-> |Hy]; try done; [..|auto]; exfalso; apply Ha, list_elem_of_fmap; eauto.
Qed.

Lemma Forall2_fun {A B} (good : A -> Prop) (key : A -> B) l ks :
  Forall2 (fun a k => good a /\ k = key a) l ks <-> Forall good l /\ ks = map key l.
Proof.
  split.
  - induction 1 as [|a k l ks [Ha ->] _ [IH ->]]; [split; constructor|]. split; [by constructor|done].
  - intros [H ->]. induction H; simpl; constructor; auto.
Qed.

(** ** Stable sorting

    Go's [sort.SliceStable] with a strict "less" function: insertion keeps
    equal elements in their input order. *)
Section stable_sort.
Context {A : Type} (less : A -> A -> bool).

Fixpoint stable_insert (a : A) (l : list A) : list A :=
  match l with
  | [] => [a]
  | b :: l' => if less b a then b :: stable_insert a l' else a :: l
  end.

Definition SliceStable (l : list A) : list A := foldr stable_insert [] l.

Lemma stable_insert_perm a l : stable_insert a l ≡ₚ a :: l.
Proof.
  induction l as [|b l IH]; simpl; [done|].
  destruct (less b a); [|done]. rewrite IH. by apply Permutation_swap.
Qed.

Lemma SliceStable_perm l : SliceStable l ≡ₚ l.
Proof.
  induction l as [|a l IH]; simpl; [done|]. by rewrite stable_insert_perm, IH.
Qed.

Lemma elem_of_SliceStable a l : a ∈ SliceStable l <-> a ∈ l.
Proof. by rewrite SliceStable_perm. Qed.

(** No later element of the result is "less" than an earlier one, when
    [less] is a strict weak order. *)
Definition in_order (a b : A) : Prop := less b a = false.

Context (less_asym : forall a b, less a b = true -> less b a = false).
Context (ge_trans : forall a b c, less b a = false -> less c b = false -> less c a = false).

Lemma stable_insert_sorted a l :
  StronglySorted in_order l -> StronglySorted in_order (stable_insert a l).
Proof using less_asym ge_trans.
  induction 1 as [|b l Hl IH Hb]; simpl; [repeat constructor|].
  destruct (less b a) eqn:Hba.
  - constructor; [done|]. rewrite Forall_forall in *. intros x.
    rewrite stable_insert_perm, elem_of_cons. intros [->|?]; [by apply less_asym|auto].
  - constructor; [by constructor|]. constructor; [done|].
    eapply Forall_impl; [exact Hb|]. intros x Hx. by apply (ge_trans a b x).
Qed.

Lemma SliceStable_sorted l : StronglySorted in_order (SliceStable l).
Proof using less_asym ge_trans.
  induction l; simpl; [constructor|]. by apply stable_insert_sorted.
Qed.

(** The head of the sorted list is a least element. *)
Lemma SliceStable_head_Some l a : head (SliceStable l) = Some a -> a ∈ l /\ Forall (fun x => less x a = false) l.
Proof using less_asym ge_trans.
  intros H. pose proof (SliceStable_perm l) as Hp. pose proof (SliceStable_sorted l) as Hs.
  destruct (SliceStable l) as [|x k]; [done|]. injection H as ->. split; [rewrite <- Hp; set_solver|].
  apply StronglySorted_inv in Hs as [_ Hk]. rewrite <- Hp. constructor; [|done].
  destruct (less a a) eqn:E; [|done]. pose proof (less_asym _ _ E). congruence.
Qed.
Lemma SliceStable_head_None l : head (SliceStable l) = None -> l = [].
Proof.
  intros H. pose proof (SliceStable_perm l) as Hp.
  destruct (SliceStable l); [by apply Permutation_nil_l in Hp|done].
Qed.

(** A list already in order is left alone. *)
Lemma SliceStable_id l : StronglySorted in_order l -> SliceStable l = l.
Proof.
  induction 1 as [|a l _ IH Ha]; simpl; [done|]. rewrite IH.
  destruct l as [|b l]; simpl; [done|].
  apply Forall_cons in Ha as [Hb _]. by rewrite Hb.
Qed.
End stable_sort.

Create HintDb pc discriminated.
#[export] Hint Resolve SliceStable_perm stable_insert_perm : pc.
