(* ===== verification/Effects.v ===== *)
(** * Programs against an environment

    A program extends a history of events, oldest first; what the environment
    (network, clock, other processes) answers is a function of the history so
    far. [from m h Q] is the weakest precondition: run from [h], [m] appends
    events [X] and returns [a] with [Q X a]. *)

From S2P Require Import Prelude.
From stdpp Require Import options.

Definition prog (E A : Type) : Type := list E -> list E * A.
#[global] Instance prog_ret {E} : MRet (prog E) := fun A a h => (h, a).
#[global] Instance prog_bind {E} : MBind (prog E) := fun A B f m h => let '(h', a) := m h in f a h'.

Definition note {E} (e : E) : prog E unit := fun h => (h ++ [e], tt).
Definition observe {E A} (answer : list E -> A) : prog E A := fun h => (h, answer h).
(** A call whose event records the answer. *)
Definition call {E A} (answer : list E -> A) (event : A -> E) : prog E A := fun h => (h ++ [event (answer h)], answer h).

Definition from {E A} (m : prog E A) (h : list E) (Q : list E -> A -> Prop) : Prop :=
  exists X, (m h).1 = h ++ X /\ Q X (m h).2.

Section rules.
Context {E : Type}.
Implicit Types h X Y : list E.

Lemma from_ret {A} (a : A) h Q : Q [] a -> from (mret a) h Q.
Proof. intros. exists []. by rewrite app_nil_r. Qed.
Lemma from_bind {A B} (m : prog E A) (f : A -> prog E B) h Q :
  from m h (fun X a => from (f a) (h ++ X) (fun Y b => Q (X ++ Y) b)) -> from (m ≫= f) h Q.
Proof.
  intros (X&HX&Y&HY&HQ). exists (X ++ Y). unfold mbind, prog_bind.
  destruct (m h) as [h' a]; cbn in *. subst h'. by rewrite app_assoc.
Qed.
Lemma from_note e h Q : Q [e] tt -> from (note e) h Q.
Proof. intros. by exists [e]. Qed.
Lemma from_observe {A} (answer : list E -> A) h Q : Q [] (answer h) -> from (observe answer) h Q.
Proof. intros. exists []. by rewrite app_nil_r. Qed.
Lemma from_call {A} (answer : list E -> A) ev h Q : Q [ev (answer h)] (answer h) -> from (call answer ev) h Q.
Proof. intros. by eexists [_]. Qed.
Lemma from_mono {A} (m : prog E A) h (P Q : list E -> A -> Prop) :
  from m h P -> (forall X a, P X a -> Q X a) -> from m h Q.
Proof. intros (X&HX&HP) H. exists X. auto. Qed.
Lemma from_run {A} (m : prog E A) h Q X a : from m h Q -> m h = (h ++ X, a) -> Q X a.
Proof. intros (Y&HY&HQ) Hm. rewrite Hm in *. cbn in HY. by apply app_inv_head in HY as ->. Qed.
Lemma from_extends {A} (m : prog E A) h Q : from m h Q -> exists X, m h = (h ++ X, (m h).2) /\ Q X (m h).2.
Proof. intros (X&HX&HQ). exists X. split; [|done]. rewrite <- HX. by destruct (m h). Qed.
(** Every event of a history, seen with what came before it. *)
Definition guarded (P : list E -> E -> Prop) X : Prop := forall X1 ev X2, X = X1 ++ ev :: X2 -> P X1 ev.
Lemma guarded_nil P : guarded P [].
Proof. intros [|] ? ?; discriminate. Qed.
Lemma guarded_app P X Y : guarded P (X ++ Y) <-> guarded P X /\ guarded (fun Y1 => P (X ++ Y1)) Y.
Proof.
  split.
  - intros H. split.
    + intros X1 ev X2 ->. apply (H X1 ev (X2 ++ Y)). by rewrite <- app_assoc.
    + intros Y1 ev Y2 ->. apply (H _ ev Y2). by rewrite app_assoc.
  - intros [HX HY] X1 ev X2 He. apply app_eq_app in He as (l&[[-> Hl]|[-> Hl]]).
    + destruct l as [|e l].
      * specialize (HY [] ev X2). rewrite !app_nil_r in HY. by apply HY.
      * cbn in Hl. injection Hl as -> ->. by apply (HX X1 e l).
    + apply (HY l ev X2). done.
Qed.
Lemma guarded_one (P : list E -> E -> Prop) ev : guarded P [ev] <-> P [] ev.
Proof.
  split; [intros H; by apply (H [] ev [])|]. intros H [|e X1] ev' X2 He; cbn in He; [by injection He as <- _|].
  injection He as _ He. by destruct X1.
Qed.
Lemma guarded_cons P ev X : guarded P (ev :: X) <-> P [] ev /\ guarded (fun X1 => P (ev :: X1)) X.
Proof. rewrite (guarded_app P [ev] X), guarded_one. done. Qed.
Lemma guarded_mono (P Q : list E -> E -> Prop) X : guarded P X -> (forall X1 ev, P X1 ev -> Q X1 ev) -> guarded Q X.
Proof. intros H HPQ X1 ev X2 He. eapply HPQ, H, He. Qed.
Lemma from_and {A} (m : prog E A) h (P Q : list E -> A -> Prop) :
  from m h P -> from m h Q -> from m h (fun X a => P X a /\ Q X a).
Proof.
  intros (X&HX&HP) (Y&HY&HQ). exists X. split; [done|]. rewrite HX in HY. apply app_inv_head in HY as <-. done.
Qed.
Lemma guarded_and (P Q : list E -> E -> Prop) X : guarded P X -> guarded Q X -> guarded (fun X1 ev => P X1 ev /\ Q X1 ev) X.
Proof. intros HP HQ X1 ev X2 He. split; [by apply (HP X1 ev X2)|by apply (HQ X1 ev X2)]. Qed.

(** A condition on every event a program adds, wherever it starts. *)
Definition always {A} (P : list E -> E -> Prop) (m : prog E A) : Prop :=
  forall h, from m h (fun X _ => guarded (fun X1 => P (h ++ X1)) X).
Lemma always_ret {A} P (a : A) : always P (mret a).
Proof. intros h. apply from_ret, guarded_nil. Qed.
Lemma always_bind {A B} P (m : prog E A) (f : A -> prog E B) : always P m -> (forall a, always P (f a)) -> always P (m ≫= f).
Proof.
  intros Hm Hf h. apply from_bind. eapply from_mono; [apply Hm|]. intros X a HX. eapply from_mono; [apply Hf|].
  intros Y b HY. apply guarded_app. split; [done|]. eapply guarded_mono; [exact HY|]. cbn. intros Y1 ev. by rewrite app_assoc.
Qed.
Lemma always_note (P : list E -> E -> Prop) e : (forall h, P h e) -> always P (note e).
Proof. intros He h. apply from_note, guarded_one. rewrite app_nil_r. apply He. Qed.
Lemma always_observe {A} P (f : list E -> A) : always P (observe f).
Proof. intros h. apply from_observe, guarded_nil. Qed.
Lemma always_call {A} (P : list E -> E -> Prop) (f : list E -> A) ev : (forall h, P h (ev (f h))) -> always P (call f ev).
Proof. intros He h. apply from_call, guarded_one. rewrite app_nil_r. apply He. Qed.
End rules.

(** One step of a proof of [always]: the events that are not settled at once are left. *)
Ltac always_step :=
  match goal with
  | |- always _ (mret _) => apply always_ret
  | |- always _ (_ ≫= _) => apply always_bind; [|intros]
  | |- always _ (note _) => by apply always_note
  | |- always _ (observe _) => apply always_observe
  | |- always _ (call _ _) => by apply always_call
  | |- always _ (match ?x with _ => _ end) => destruct x
  | |- always _ (let '_ := ?x in _) => destruct x
  end.

(** One step of a program, by its rule. *)
Ltac from_step :=
  match goal with
  | |- from (_ ≫= _) _ _ => apply from_bind
  | |- from (mret _) _ _ => apply from_ret
  | |- from (note _) _ _ => apply from_note
  | |- from (observe _) _ _ => apply from_observe
  | |- from (call _ _) _ _ => apply from_call
  end.
