(* ===== verification/GoStrings.v ===== *)
(** * Go strings

    Go strings are byte strings: [String.string]. This file models the
    functions of Go's [strings] package the components use, and character
    classes of anchored regular expressions.

    [TrimSpace] removes every Unicode white space, by its UTF-8 encoding.
    [ToLower] lowers ASCII letters and the two non-ASCII letters whose lower
    case is ASCII (U+0130 and U+212A); other non-ASCII letters are kept, so
    statements about lower-casing speak of ASCII results only. *)

From S2P Require Import Prelude.
From stdpp Require Import options.

#[global] Arguments String.append !_ _ / : simpl nomatch.

Declare Scope go_scope.
Delimit Scope go_scope with go.
Notation "s =? t" := (String.eqb s t) : go_scope.
Open Scope go_scope.

(** ** Bytes *)
Definition byte_of (z : Z) : ascii := Ascii.ascii_of_N (Z.to_N z).
Definition code (c : ascii) : Z := Z.of_N (Ascii.N_of_ascii c).
Definition in_range (lo hi : Z) (c : ascii) : bool := (lo <=? code c)%Z && (code c <=? hi)%Z.
Definition ascii_eqb (a b : ascii) : bool := bool_decide (a = b).
Definition char (c : ascii) : string := String c EmptyString.

Definition is_digit : ascii -> bool := in_range 48 57.
Definition is_upper : ascii -> bool := in_range 65 90.
Definition is_lower : ascii -> bool := in_range 97 122.
Definition is_alnum (c : ascii) : bool := is_digit c || is_upper c || is_lower c.
(** [one_of l c]: a regular expression class given by its characters. *)
Fixpoint one_of (l : string) (c : ascii) : bool :=
  match l with EmptyString => false | String x l => ascii_eqb x c || one_of l c end.

Definition LF : ascii := byte_of 10.
Definition CR : ascii := byte_of 13.
Definition DQ : ascii := byte_of 34.
Definition SQ : ascii := byte_of 39.
Definition BS : ascii := byte_of 92.
Definition NUL : ascii := byte_of 0.
Definition nl : string := char LF.

(** ** Predicates over all bytes *)
Fixpoint sall (p : ascii -> bool) (s : string) : bool :=
  match s with EmptyString => true | String c s => p c && sall p s end.
Definition sexists (p : ascii -> bool) (s : string) : bool := negb (sall (fun c => negb (p c)) s).

Lemma sall_app p s t : sall p (s +:+ t) = sall p s && sall p t.
Proof. induction s as [|c s IH]; simpl; [done|]. by rewrite IH, andb_assoc. Qed.

Lemma sall_impl (p q : ascii -> bool) s :
  (forall c, p c = true -> q c = true) -> sall p s = true -> sall q s = true.
Proof. intros H. induction s as [|c s IH]; simpl; [done|]. intros; bsimp. rewrite (H c), IH; done. Qed.

Lemma sexists_app p s t : sexists p (s +:+ t) = sexists p s || sexists p t.
Proof. unfold sexists. by rewrite sall_app, negb_andb. Qed.

(** ** Append *)
Lemma app_nil_r_s (s : string) : s +:+ "" = s.
Proof. induction s as [|c s IH]; simpl; [done|]. by rewrite IH. Qed.
Lemma app_assoc_s (s t u : string) : (s +:+ t) +:+ u = s +:+ (t +:+ u).
Proof. induction s as [|c s IH]; simpl; [done|]. by rewrite IH. Qed.
Lemma length_app_s (s t : string) : String.length (s +:+ t) = String.length s + String.length t.
Proof. induction s as [|c s IH]; simpl; [done|]. by rewrite IH. Qed.
Lemma app_inj_l (s t u : string) : s +:+ t = s +:+ u -> t = u.
Proof. induction s as [|c s IH]; simpl; [done|]. intros [= ?]; auto. Qed.
Lemma app_inj_r (s t u : string) : s +:+ u = t +:+ u -> s = t.
Proof.
  revert t; induction s as [|c s IH]; intros [|d t] H; simpl in *; [done|..].
  - apply (f_equal String.length) in H. simpl in H. rewrite length_app_s in H. lia.
  - apply (f_equal String.length) in H. simpl in H. rewrite length_app_s in H. lia.
  - injection H as -> H. by rewrite (IH t).
Qed.

(** ** Prefix, suffix, search *)
Fixpoint HasPrefix (s p : string) : bool :=
  match p, s with
  | EmptyString, _ => true
  | String _ _, EmptyString => false
  | String c p, String d s => ascii_eqb c d && HasPrefix s p
  end.
(** Go's [len]. *)
Definition slen (s : string) : Z := Z.of_nat (String.length s).
(** [drop n s] is the Go slice [s[n:]], [take_s n s] is [s[:n]]. *)
Fixpoint drop_s (n : nat) (s : string) : string :=
  match n, s with S n, String _ s => drop_s n s | _, _ => s end.
Fixpoint take_s (n : nat) (s : string) : string :=
  match n, s with S n, String c s => String c (take_s n s) | _, _ => EmptyString end.
Definition HasSuffix (s p : string) : bool :=
  (String.length p <=? String.length s)%nat &&
  (drop_s (String.length s - String.length p) s =? p).
Fixpoint Contains (s sub : string) : bool :=
  HasPrefix s sub || match s with EmptyString => false | String _ s => Contains s sub end.
Definition ContainsChar (s : string) (c : ascii) : bool := sexists (ascii_eqb c) s.

Lemma ascii_eqb_eq a b : ascii_eqb a b = true <-> a = b.
Proof. apply bool_decide_eq_true. Qed.
Lemma ascii_eqb_refl a : ascii_eqb a a = true.
Proof. by apply ascii_eqb_eq. Qed.

Lemma HasPrefix_spec s p : HasPrefix s p = true <-> exists t, s = p +:+ t.
Proof.
  revert s; induction p as [|c p IH]; intros s; simpl.
  - destruct s; naive_solver.
  - destruct s as [|d s]; simpl; [naive_solver|].
    rewrite andb_true_iff, ascii_eqb_eq, IH. naive_solver.
Qed.

Lemma drop_s_app s t : drop_s (String.length s) (s +:+ t) = t.
Proof. induction s; simpl; done. Qed.
Lemma take_s_app s t : take_s (String.length s) (s +:+ t) = s.
Proof. induction s as [|c s IH]; simpl; [by destruct t|]. by rewrite IH. Qed.
Lemma take_drop_s n s : take_s n s +:+ drop_s n s = s.
Proof. revert s; induction n as [|n IH]; intros [|c s]; simpl; f_equal/=; auto. Qed.
Lemma length_drop_s n s : String.length (drop_s n s) = String.length s - n.
Proof. revert s; induction n as [|n IH]; intros [|c s]; simpl; auto. Qed.

Lemma HasSuffix_spec s p : HasSuffix s p = true <-> exists t, s = t +:+ p.
Proof.
  unfold HasSuffix. rewrite andb_true_iff, Nat.leb_le, String.eqb_eq. split.
  - intros [Hl Hd]. exists (take_s (String.length s - String.length p) s).
    rewrite <- (take_drop_s (String.length s - String.length p) s) at 1. by rewrite Hd.
  - intros [t ->]. rewrite length_app_s. split; [lia|].
    replace (_ + _ - _) with (String.length t) by lia. apply drop_s_app.
Qed.

Lemma Contains_spec s sub : Contains s sub = true <-> exists a b, s = a +:+ sub +:+ b.
Proof.
  induction s as [|c s IH]; cbn [Contains]; rewrite orb_true_iff, HasPrefix_spec.
  - split; [|intros ([|??]&b&H); [eauto|done]].
    intros [[t Ht]|?]; [by exists "", t|done].
  - rewrite IH. split.
    + intros [[t Ht]|(a&b&->)]; [by exists "", t | by exists (String c a), b].
    + intros ([|c' a]&b&H); [left; eauto|]. injection H as -> ->. right; eauto.
Qed.

(** ** Trimming *)
Definition ascii_space (c : ascii) : bool := (code c =? 32)%Z || in_range 9 13 c.
Fixpoint TrimRight (p : ascii -> bool) (s : string) : string :=
  match s with
  | EmptyString => EmptyString
  | String c s =>
      match TrimRight p s with
      | EmptyString => if p c then EmptyString else char c
      | t => String c t
      end
  end.
(** [strings.TrimRight(s, cutset)] for a one-character cutset. *)
Definition TrimRightChar (s : string) (c : ascii) : string := TrimRight (ascii_eqb c) s.

Fixpoint srev_app (s acc : string) : string :=
  match s with EmptyString => acc | String c s => srev_app s (String c acc) end.
Definition srev (s : string) : string := srev_app s EmptyString.

(** Non-ASCII white space, by UTF-8 encoding (forward and reversed). *)
Definition space2 (a b : ascii) : bool :=
  (code a =? 194)%Z && ((code b =? 133)%Z || (code b =? 160)%Z).
Definition space3 (a b c : ascii) : bool :=
  let x := code a in let y := code b in let z := code c in
  ((x =? 225) && (y =? 154) && (z =? 128)
  || (x =? 226) && (y =? 128) && ((128 <=? z) && (z <=? 138) || (z =? 168) || (z =? 169) || (z =? 175))
  || (x =? 226) && (y =? 129) && (z =? 159)
  || (x =? 227) && (y =? 128) && (z =? 128))%Z.
Fixpoint TrimLeftSpace (s : string) : string :=
  match s with
  | String a s1 =>
      if ascii_space a then TrimLeftSpace s1 else
      match s1 with
      | String b s2 =>
          if space2 a b then TrimLeftSpace s2 else
          match s2 with
          | String c s3 => if space3 a b c then TrimLeftSpace s3 else s
          | EmptyString => s
          end
      | EmptyString => s
      end
  | EmptyString => EmptyString
  end.
Fixpoint trim_left_space_rev (s : string) : string :=
  match s with
  | String a s1 =>
      if ascii_space a then trim_left_space_rev s1 else
      match s1 with
      | String b s2 =>
          if space2 b a then trim_left_space_rev s2 else
          match s2 with
          | String c s3 => if space3 c b a then trim_left_space_rev s3 else s
          | EmptyString => s
          end
      | EmptyString => s
      end
  | EmptyString => EmptyString
  end.
Definition TrimRightSpace (s : string) : string := srev (trim_left_space_rev (srev s)).
Definition TrimSpace (s : string) : string := TrimRightSpace (TrimLeftSpace s).

(** ** Case *)
Definition lower_char (c : ascii) : ascii :=
  if is_upper c then byte_of (code c + 32) else c.
Fixpoint ToLower (s : string) : string :=
  match s with
  | String a s1 =>
      match s1 with
      | String b s2 =>
          if (code a =? 196)%Z && (code b =? 176)%Z then String "i" (ToLower s2) else
          match s2 with
          | String c s3 =>
              if (code a =? 226)%Z && (code b =? 132)%Z && (code c =? 170)%Z
              then String "k" (ToLower s3) else String (lower_char a) (ToLower s1)
          | EmptyString => String (lower_char a) (ToLower s1)
          end
      | EmptyString => String (lower_char a) EmptyString
      end
  | EmptyString => EmptyString
  end.

(** ** Splitting, joining, replacing *)
Fixpoint Split (sep : ascii) (s : string) : list string :=
  match s with
  | EmptyString => [""]
  | String c s =>
      if ascii_eqb sep c then "" :: Split sep s else
      match Split sep s with
      | [] => [char c]
      | w :: ws => String c w :: ws
      end
  end.
Fixpoint Join (l : list string) (sep : string) : string :=
  match l with
  | [] => ""
  | [w] => w
  | w :: ws => w +:+ sep +:+ Join ws sep
  end.
Fixpoint replace_aux (skip : nat) (s old new : string) : string :=
  match s with
  | EmptyString => EmptyString
  | String c s' =>
      match skip with
      | S k => replace_aux k s' old new
      | O => if HasPrefix s old then new +:+ replace_aux (String.length old - 1) s' old new
             else String c (replace_aux 0 s' old new)
      end
  end.
(** [strings.ReplaceAll] for a non-empty [old]. *)
Definition ReplaceAll (s old new : string) : string := replace_aux 0 s old new.

(** ** Comparison: Go's [<] on strings is byte-wise *)
Fixpoint Compare (s t : string) : comparison :=
  match s, t with
  | EmptyString, EmptyString => Eq
  | EmptyString, _ => Lt
  | _, EmptyString => Gt
  | String c s, String d t =>
      match (code c ?= code d)%Z with Eq => Compare s t | r => r end
  end.
Definition less_s (s t : string) : bool := match Compare s t with Lt => true | _ => false end.

(** [strconv.Itoa]. *)
Definition itoa (z : Z) : string := pretty z.

(** ** The order on strings is total *)
Lemma code_inj a b : code a = code b -> a = b.
Proof.
  intros H. rewrite <- (ascii_N_embedding a), <- (ascii_N_embedding b).
  f_equal. unfold code in H. lia.
Qed.
Lemma code_range c : (0 <= code c < 256)%Z.
Proof. unfold code. pose proof (N_ascii_bounded c). lia. Qed.
Lemma code_byte_of z : (0 <= z < 256)%Z -> code (byte_of z) = z.
Proof. intros. unfold code, byte_of. rewrite N_ascii_embedding; lia. Qed.

Lemma Compare_refl s : Compare s s = Eq.
Proof. induction s; simpl; [done|]. by rewrite Z.compare_refl. Qed.
Lemma Compare_Eq s t : Compare s t = Eq -> s = t.
Proof.
  revert t; induction s as [|c s IH]; intros [|d t]; simpl; try done.
  destruct (Z.compare_spec (code c) (code d)) as [H%code_inj| |]; try done.
  intros ?%IH. by subst.
Qed.
Lemma Compare_opp s t : Compare t s = CompOpp (Compare s t).
Proof.
  revert t; induction s as [|c s IH]; intros [|d t]; simpl; try done.
  rewrite (Z.compare_antisym (code c) (code d)). destruct (code c ?= code d)%Z; simpl; auto.
Qed.
Lemma Compare_Lt_trans s t u : Compare s t = Lt -> Compare t u = Lt -> Compare s u = Lt.
Proof.
  revert t u; induction s as [|c s IH]; intros [|d t] [|e u]; simpl; try done.
  destruct (Z.compare_spec (code c) (code d)), (Z.compare_spec (code d) (code e)),
    (Z.compare_spec (code c) (code e)); try done; try lia. eauto.
Qed.

Lemma less_s_asym s t : less_s s t = true -> less_s t s = false.
Proof. unfold less_s. rewrite (Compare_opp s t). by destruct (Compare s t). Qed.
Lemma less_s_trans s t u : less_s s t = true -> less_s t u = true -> less_s s u = true.
Proof.
  unfold less_s. destruct (Compare s t) eqn:?, (Compare t u) eqn:?; try done.
  by rewrite (Compare_Lt_trans s t u).
Qed.
Lemma less_s_antisym s t : less_s s t = false -> less_s t s = false -> s = t.
Proof.
  unfold less_s. rewrite (Compare_opp s t). destruct (Compare s t) eqn:H; try done.
  by apply Compare_Eq in H.
Qed.
Lemma less_s_ge_trans s t u : less_s t s = false -> less_s u t = false -> less_s u s = false.
Proof.
  intros H1 H2. destruct (less_s u s) eqn:Hus; [|done].
  destruct (less_s s t) eqn:Hst.
  - pose proof (less_s_trans u s t). naive_solver congruence.
  - rewrite (less_s_antisym s t) in Hus; congruence.
Qed.
(** [sort.Strings]. *)
Definition SortStrings (l : list string) : list string := SliceStable less_s l.

(** ** Splitting a text at a separator it does not contain on one side *)
Definition free_of (c : ascii) (s : string) : Prop := sall (fun d => negb (ascii_eqb c d)) s = true.
Lemma free_of_app c s t : free_of c (s +:+ t) <-> free_of c s /\ free_of c t.
Proof. unfold free_of. by rewrite sall_app, andb_true_iff. Qed.
Lemma free_of_cons c d s : free_of c (String d s) <-> c <> d /\ free_of c s.
Proof.
  unfold free_of; simpl. rewrite andb_true_iff, negb_true_iff. unfold ascii_eqb.
  by rewrite bool_decide_eq_false.
Qed.
Lemma ContainsChar_free s c : ContainsChar s c = false <-> free_of c s.
Proof.
  unfold ContainsChar, sexists, free_of. by rewrite negb_false_iff.
Qed.

Lemma sep_first c a1 a2 b1 b2 : free_of c a1 -> free_of c a2 ->
  a1 +:+ String c b1 = a2 +:+ String c b2 -> a1 = a2 /\ b1 = b2.
Proof.
  revert a2; induction a1 as [|x a1 IH]; intros [|y a2]; rewrite ?free_of_cons; simpl.
  - intros _ _ [= ->]. done.
  - intros _ [? _] [= ??]. done.
  - intros [? _] _ [= ??]. done.
  - intros [_ H1] [_ H2] [= -> H]. by destruct (IH a2 H1 H2 H) as [-> ->].
Qed.
Lemma sep_last c a1 a2 b1 b2 : free_of c b1 -> free_of c b2 ->
  a1 +:+ String c b1 = a2 +:+ String c b2 -> a1 = a2 /\ b1 = b2.
Proof.
  intros H1 H2. revert a2; induction a1 as [|x a1 IH]; intros [|y a2]; simpl.
  - intros [= ->]. done.
  - intros [= -> ->]. by apply free_of_app in H1 as [_ [? _]%free_of_cons].
  - intros [= -> <-]. by apply free_of_app in H2 as [_ [? _]%free_of_cons].
  - intros [= -> H]. by destruct (IH a2 H) as [-> ->].
Qed.
Lemma sall_free_of (p : ascii -> bool) c s : p c = false -> sall p s = true -> free_of c s.
Proof.
  intros Hc. apply sall_impl. intros d Hd. destruct (ascii_eqb c d) eqn:E; [|done].
  apply ascii_eqb_eq in E as ->. congruence.
Qed.
