(* ===== verification/StrFacts.v ===== *)
(** * Facts about the string functions

    When trimming and lower-casing leave a text alone; splitting and joining. *)

From S2P Require Import Prelude GoStrings.
From stdpp Require Import options.

(** ** Reversal *)
Lemma srev_app_spec s t acc : srev_app (s +:+ t) acc = srev_app t (srev_app s acc).
Proof. revert acc; induction s as [|c s IH]; intros acc; simpl; [done|]. apply IH. Qed.
Lemma srev_app_acc s acc : srev_app s acc = srev s +:+ acc.
Proof.
  unfold srev. revert acc; induction s as [|c s IH]; intros acc; simpl; [done|].
  rewrite IH, (IH (String c "")). by rewrite app_assoc_s.
Qed.
Lemma srev_cons c s : srev (String c s) = srev s +:+ char c.
Proof. unfold srev at 1. simpl. apply srev_app_acc. Qed.
Lemma srev_snoc s c : srev (s +:+ char c) = String c (srev s).
Proof. unfold srev. by rewrite srev_app_spec. Qed.
Lemma srev_involutive s : srev (srev s) = s.
Proof. induction s as [|c s IH]; [done|]. by rewrite srev_cons, srev_snoc, IH. Qed.
Lemma sall_srev p s : sall p (srev s) = sall p s.
Proof.
  induction s as [|c s IH]; [done|]. rewrite srev_cons, sall_app, IH. simpl.
  destruct (p c), (sall p s); done.
Qed.

(** ** Trimming and lower case leave plain text alone *)
Definition plain (c : ascii) : bool := (code c <? 128)%Z && negb (ascii_space c).
Lemma TrimLeftSpace_plain s : sall plain s = true -> TrimLeftSpace s = s.
Proof.
  destruct s as [|a s]; [done|]. cbn [sall]. unfold plain at 1. intros [[H1%Z.ltb_lt H2]%andb_true_iff _]%andb_true_iff.
  apply negb_true_iff in H2. cbn [TrimLeftSpace]. rewrite H2. unfold space2, space3.
  assert ((code a =? 194) = false /\ (code a =? 225) = false /\ (code a =? 226) = false /\ (code a =? 227) = false)%Z
    as (E1&E2&E3&E4) by (repeat split; apply Z.eqb_neq; lia).
  cbv zeta. rewrite E1, E2, E3, E4. by destruct s as [|b [|]].
Qed.
Lemma space_tail b a c : (code a <? 128)%Z = true -> space2 b a = false /\ space3 c b a = false.
Proof.
  intros H%Z.ltb_lt. unfold space2, space3.
  assert (forall z, (128 <= z)%Z -> (code a =? z)%Z = false) as E by (intros; apply Z.eqb_neq; lia).
  cbv zeta. rewrite !E by lia. rewrite (proj2 (Z.leb_gt 128 (code a))) by lia.
  rewrite ?andb_false_r; cbn. rewrite ?andb_false_r. done.
Qed.
Lemma trim_left_space_rev_plain s : sall plain s = true -> trim_left_space_rev s = s.
Proof.
  destruct s as [|a s]; [done|]. cbn [sall]. unfold plain at 1. intros [[H1 H2]%andb_true_iff _]%andb_true_iff.
  apply negb_true_iff in H2. cbn [trim_left_space_rev]. rewrite H2.
  destruct s as [|b [|c s]]; [done|..];
    destruct (space_tail b a b H1) as [-> _]; [done|]. by destruct (space_tail b a c H1) as [_ ->].
Qed.
Lemma TrimSpace_plain s : sall plain s = true -> TrimSpace s = s.
Proof.
  intros H. unfold TrimSpace, TrimRightSpace. rewrite TrimLeftSpace_plain by done.
  rewrite trim_left_space_rev_plain by (by rewrite sall_srev). apply srev_involutive.
Qed.

Definition not_upper (c : ascii) : bool := (code c <? 128)%Z && negb (is_upper c).
Lemma ToLower_id s : sall not_upper s = true -> ToLower s = s.
Proof.
  induction s as [|a s IH]; [done|]. cbn [sall]. intros [H Hs]%andb_true_iff. specialize (IH Hs).
  unfold not_upper in H. apply andb_true_iff in H as [Ha Hu]. apply Z.ltb_lt in Ha. apply negb_true_iff in Hu.
  assert (ToLower (String a s) = String (lower_char a) (ToLower s)) as ->.
  { destruct s as [|b [|c s]]; cbn [ToLower]; [done|..].
    - destruct (Z.eqb_spec (code a) 196); [lia|done].
    - destruct (Z.eqb_spec (code a) 196); [lia|]. destruct (Z.eqb_spec (code a) 226); [lia|done]. }
  unfold lower_char. by rewrite Hu, IH.
Qed.

(** ** Trimming on the right *)
Lemma TrimRight_snoc p s c : TrimRight p (s +:+ char c) = if p c then TrimRight p s else s +:+ char c.
Proof.
  induction s as [|a s IH]; cbn [String.append TrimRight].
  - unfold char. cbn [TrimRight]. by destruct (p c).
  - rewrite IH. destruct (p c); [done|]. by destruct s.
Qed.
Lemma string_snoc_ind (P : string -> Prop) : P "" -> (forall s c, P s -> P (s +:+ char c)) -> forall s, P s.
Proof.
  intros H0 Hs s. rewrite <- (srev_involutive s). induction (srev s) as [|c t IH]; [done|].
  rewrite srev_cons. auto.
Qed.
(** The last byte of a non-empty text satisfies [p]. *)
Fixpoint ends_with (p : ascii -> bool) (s : string) : bool :=
  match s with
  | EmptyString => false
  | String c EmptyString => p c
  | String _ s => ends_with p s
  end.
Lemma TrimRight_ends p s : ends_with (fun c => negb (p c)) s = true -> TrimRight p s = s.
Proof.
  induction s as [|c s IH]; [done|]. destruct s as [|d s].
  - simpl. by destruct (p c).
  - intros H. change (ends_with (fun c => negb (p c)) (String c (String d s)))
      with (ends_with (fun c => negb (p c)) (String d s)) in H.
    cbn [TrimRight] in *. by rewrite (IH H).
Qed.
Lemma ends_with_snoc p s c : ends_with p (s +:+ char c) = p c.
Proof.
  induction s as [|d s IH]; [done|]. cbn [String.append]. destruct s as [|e s]; [done|].
  cbn [String.append] in *. exact IH.
Qed.
Lemma ends_with_app p s t : t <> "" -> ends_with p (s +:+ t) = ends_with p t.
Proof.
  revert s. induction t as [|t c _] using string_snoc_ind; intros s Ht; [done|].
  by rewrite <- app_assoc_s, !ends_with_snoc.
Qed.
Lemma ends_with_impl (p q : ascii -> bool) s : (forall c, p c = true -> q c = true) ->
  ends_with p s = true -> ends_with q s = true.
Proof. intros H. induction s as [|s c _] using string_snoc_ind; [done|]. rewrite !ends_with_snoc. auto. Qed.

(** The trimmed text is empty or ends with a kept byte. *)
Lemma TrimRight_result p s : TrimRight p s = "" \/ ends_with (fun c => negb (p c)) (TrimRight p s) = true.
Proof.
  induction s as [|s c IH] using string_snoc_ind; [by left|].
  rewrite TrimRight_snoc. destruct (p c) eqn:Hc; [done|]. right. rewrite ends_with_snoc. by rewrite Hc.
Qed.
Lemma TrimRight_idemp p s : TrimRight p (TrimRight p s) = TrimRight p s.
Proof. destruct (TrimRight_result p s) as [-> | H]; [done|]. by apply TrimRight_ends. Qed.

(** ** Splitting and joining *)
Lemma Split_cons c s : exists w ws, Split c s = w :: ws.
Proof. destruct s as [|d s]; simpl; [eauto|]. destruct (ascii_eqb c d); [eauto|]. destruct (Split c s); eauto. Qed.
Lemma Join_cons w l sep : l <> [] -> Join (w :: l) sep = w +:+ sep +:+ Join l sep.
Proof. by destruct l. Qed.
Lemma Join_Split c s : Join (Split c s) (char c) = s.
Proof.
  induction s as [|d s IH]; [done|]. cbn [Split].
  destruct (Split_cons c s) as (w&ws&E). rewrite E in *.
  destruct (ascii_eqb c d) eqn:Hc.
  - apply ascii_eqb_eq in Hc as ->. rewrite Join_cons by done. by rewrite IH.
  - destruct ws; cbn [Join] in *; by rewrite <- IH.
Qed.
Lemma Split_free c s : Forall (free_of c) (Split c s).
Proof.
  induction s as [|d s IH]; cbn [Split]; [by repeat constructor|].
  destruct (ascii_eqb c d) eqn:Hc; [by constructor|].
  destruct (Split c s) as [|w ws]; [repeat constructor|].
  - apply free_of_cons. split; [intros ->; by rewrite ascii_eqb_refl in Hc|done].
  - apply Forall_cons in IH as [Hw Hws]. constructor; [|done]. apply free_of_cons.
    split; [intros ->; by rewrite ascii_eqb_refl in Hc|done].
Qed.
Lemma Split_single c s : free_of c s -> Split c s = [s].
Proof.
  induction s as [|d s IH]; [done|]. intros [Hd Hs]%free_of_cons. cbn [Split].
  destruct (ascii_eqb c d) eqn:Hc; [by apply ascii_eqb_eq in Hc|]. by rewrite IH.
Qed.
Lemma Split_app c s t : Split c (s +:+ String c t) = Split c s ++ Split c t.
Proof.
  induction s as [|d s IH]; cbn [Split String.append]; [by rewrite ascii_eqb_refl|].
  rewrite IH. destruct (ascii_eqb c d); [done|].
  by destruct (Split_cons c s) as (w&ws&->).
Qed.
Lemma Split_sall p c s : sall p s = true -> Forall (fun w => sall p w = true) (Split c s).
Proof.
  induction s as [|d s IH]; cbn [Split sall]; [by repeat constructor|].
  intros [Hd Hs]%andb_true_iff. specialize (IH Hs). destruct (ascii_eqb c d); [by constructor|].
  destruct (Split c s) as [|w ws]; [constructor; [cbn; by rewrite Hd|constructor]|].
  apply Forall_cons in IH as [Hw Hws]. constructor; [|done]. cbn [sall]. by rewrite Hd, Hw.
Qed.
Lemma sall_Join p c l : p c = true -> Forall (fun w => sall p w = true) l -> sall p (Join l (char c)) = true.
Proof.
  intros Hc. induction 1 as [|w l Hw Hl IH]; [done|]. destruct l as [|w' l]; [done|].
  rewrite Join_cons by done. rewrite !sall_app, Hw, IH. cbn. by rewrite Hc.
Qed.
Lemma length_Split_app c s t : length (Split c (s +:+ String c t)) = length (Split c s) + length (Split c t).
Proof. by rewrite Split_app, length_app. Qed.
Lemma Split_length_1 c s : length (Split c s) = 1 -> free_of c s.
Proof.
  intros H. pose proof (Split_free c s) as Hf. pose proof (Join_Split c s) as Hj.
  destruct (Split c s) as [|w [|]]; try done. cbn in Hj. subst w. by apply Forall_cons in Hf as [? _].
Qed.
Lemma Split_Join c l : Forall (free_of c) l -> l <> [] -> Split c (Join l (char c)) = l.
Proof.
  induction 1 as [|w l Hw Hl IH]; [done|]. intros _. destruct l as [|v l]; [by apply Split_single|].
  rewrite Join_cons by done. change (char c +:+ Join (v :: l) (char c)) with (String c (Join (v :: l) (char c))).
  rewrite Split_app, IH, Split_single; done.
Qed.
