(* ===== verification/Json.v ===== *)
(** * JSON trees and stable serialization (domain/snapshot.go)

    [json] is the dynamic value ([any]) produced by [encoding/json]: an object
    is the list of its fields in map iteration order (keys are unique, see
    [wf_json]), so two trees that differ only in that order are different Rocq
    values and the same Go value; [json_equiv] is that equality.

    Numbers are [float64] in Go. [JNum z] is a float holding the integer [z]
    with |z| <= 2^53; [JFloat t] is a finite non-integral float, represented by
    its canonical shortest decimal text [t]. Infinities and NaN do not occur
    in decoded JSON. *)

From S2P Require Import Prelude GoStrings.
From stdpp Require Import options.

Inductive json : Type :=
| JNull
| JBool (b : bool)
| JNum (z : Z)
| JFloat (text : string)
| JStr (s : string)
| JArr (l : list json)
| JObj (fs : list (string * json)).

(** Go's [map[string]any]. *)
Abbreviation gomap := (list (string * json)).

Section json_ind.
Context (P : json -> Prop).
Context (Pnull : P JNull) (Pbool : forall b, P (JBool b)) (Pnum : forall z, P (JNum z)).
Context (Pfloat : forall t, P (JFloat t)) (Pstr : forall s, P (JStr s)).
Context (Parr : forall l, Forall P l -> P (JArr l)).
Context (Pobj : forall fs, Forall (fun f => P f.2) fs -> P (JObj fs)).

Fixpoint json_ind' (v : json) : P v :=
  match v with
  | JNull => Pnull | JBool b => Pbool b | JNum z => Pnum z
  | JFloat t => Pfloat t | JStr s => Pstr s
  | JArr l => Parr l ((fix go l : Forall P l :=
      match l with [] => Forall_nil_2 P | x :: l => Forall_cons_2 P x l (json_ind' x) (go l) end) l)
  | JObj fs => Pobj fs ((fix go l : Forall (fun f => P f.2) l :=
      match l with
      | [] => Forall_nil_2 (fun f => P f.2)
      | x :: l => Forall_cons_2 (fun f => P f.2) x l (json_ind' x.2) (go l)
      end) fs)
  end.
End json_ind.

Fixpoint json_eqb (a b : json) : bool :=
  match a, b with
  | JNull, JNull => true
  | JBool x, JBool y => Bool.eqb x y
  | JNum x, JNum y => (x =? y)%Z
  | JFloat x, JFloat y | JStr x, JStr y => x =? y
  | JArr l, JArr k => (fix go l k := match l, k with
      | [], [] => true | x :: l, y :: k => json_eqb x y && go l k | _, _ => false end) l k
  | JObj l, JObj k => (fix go l k := match l, k with
      | [], [] => true
      | x :: l, y :: k => (x.1 =? y.1) && json_eqb x.2 y.2 && go l k
      | _, _ => false end) l k
  | _, _ => false
  end.

Lemma json_eqb_eq a b : json_eqb a b = true <-> a = b.
Proof.
  revert b. induction a as [|x|x|x|x|l IH|l IH] using json_ind'; intros []; simpl;
    try (naive_solver || (rewrite ?Bool.eqb_true_iff, ?Z.eqb_eq, ?String.eqb_eq; naive_solver)).
  - revert l0. induction IH as [|x l Hx _ IH]; intros [|y k]; try naive_solver.
    rewrite andb_true_iff, Hx, IH. naive_solver.
  - revert fs. induction IH as [|[i x] l Hx _ IH]; intros [|[j y] k]; try naive_solver.
    simpl in *. rewrite !andb_true_iff, String.eqb_eq, Hx, IH. naive_solver.
Qed.

#[global] Instance json_eq_dec : EqDecision json.
Proof. intros a b. destruct (json_eqb a b) eqn:E; [left|right]; rewrite <- json_eqb_eq; congruence. Defined.

(** ** Map access: a missing key reads as the nil value *)
Fixpoint mget (m : gomap) (k : string) : json :=
  match m with
  | [] => JNull
  | (k', v) :: m => if k =? k' then v else mget m k
  end.
Fixpoint mhas (m : gomap) (k : string) : bool :=
  match m with [] => false | (k', _) :: m => (k =? k') || mhas m k end.
(** [delete(m, k)]. *)
Definition mdel (m : gomap) (k : string) : gomap := List.filter (fun f => negb (k =? f.1)) m.
(** [m[k] = v]. *)
Fixpoint mset (m : gomap) (k : string) (v : json) : gomap :=
  match m with
  | [] => [(k, v)]
  | (k', v') :: m => if k =? k' then (k, v) :: m else (k', v') :: mset m k v
  end.

(** Type assertions [v.(T)] with the "comma ok" form. *)
Definition as_bool (v : json) : option bool := match v with JBool b => Some b | _ => None end.
Definition as_string (v : json) : option string := match v with JStr s => Some s | _ => None end.
Definition as_map (v : json) : option gomap := match v with JObj m => Some m | _ => None end.
Definition as_slice (v : json) : option (list json) := match v with JArr l => Some l | _ => None end.
(** [toInt] of domain/dns.go: an integral number. *)
Definition toInt (v : json) : option Z := match v with JNum z => Some z | _ => None end.

(** ** UTF-8: the runes of a string, [None] for an invalid byte *)
Definition cont (c : ascii) : bool := in_range 128 191 c.
Definition ok2 (a b : ascii) : bool := in_range 194 223 a && cont b.
Definition ok3 (a b c : ascii) : bool :=
  cont c && ((code a =? 224)%Z && in_range 160 191 b
             || (in_range 225 236 a || in_range 238 239 a) && cont b
             || (code a =? 237)%Z && in_range 128 159 b).
Definition ok4 (a b c d : ascii) : bool :=
  cont c && cont d && ((code a =? 240)%Z && in_range 144 191 b
                       || in_range 241 243 a && cont b
                       || (code a =? 244)%Z && in_range 128 143 b).
Fixpoint runes (s : string) : list (option string) :=
  match s with
  | EmptyString => []
  | String a s1 =>
      if (code a <? 128)%Z then Some (char a) :: runes s1 else
      match s1 with
      | EmptyString => [None]
      | String b s2 =>
          if ok2 a b then Some (String a (char b)) :: runes s2 else
          match s2 with
          | EmptyString => None :: runes s1
          | String c s3 =>
              if ok3 a b c then Some (String a (String b (char c))) :: runes s3 else
              match s3 with
              | EmptyString => None :: runes s1
              | String d s4 =>
                  if ok4 a b c d then Some (String a (String b (String c (char d)))) :: runes s4
                  else None :: runes s1
              end
          end
      end
  end.

(** ** JSON strings: [json.Marshal] of a string, HTML escaping included *)
Definition hex_digit (z : Z) : ascii := if (z <? 10)%Z then byte_of (48 + z) else byte_of (87 + z).
Definition esc_u (c : ascii) : string :=
  String BS ("u00" +:+ String (hex_digit (code c / 16)) (char (hex_digit (code c mod 16)))).
Definition esc_ascii (html : bool) (c : ascii) : string :=
  if ascii_eqb c DQ || ascii_eqb c BS then String BS (char c)
  else if (code c =? 8)%Z then String BS "b"
  else if (code c =? 12)%Z then String BS "f"
  else if (code c =? 10)%Z then String BS "n"
  else if (code c =? 13)%Z then String BS "r"
  else if (code c =? 9)%Z then String BS "t"
  else if (code c <? 32)%Z || html && one_of "<>&" c then esc_u c
  else char c.
Definition LS : string := String (byte_of 226) (String (byte_of 128) (char (byte_of 168))).
Definition PS : string := String (byte_of 226) (String (byte_of 128) (char (byte_of 169))).
Definition esc_rune (html : bool) (r : option string) : string :=
  match r with
  | None => String BS "ufffd"
  | Some (String c EmptyString) => esc_ascii html c
  | Some t => if t =? LS then String BS "u2028" else if t =? PS then String BS "u2029" else t
  end.
Definition json_text (html : bool) (s : string) : string :=
  foldr (fun r acc => esc_rune html r +:+ acc) "" (runes s).
Definition json_string (s : string) : string := String DQ (json_text true s +:+ char DQ).

(** ** Stable stringification *)
Definition key_less {A} (f g : string * A) : bool := less_s f.1 g.1.

(** [formatNumber]: integral floats in plain decimal, others in their canonical text. *)
Definition formatNumber (v : json) : string :=
  match v with JNum z => itoa z | JFloat t => t | _ => "null" end.

(** [writeStable]: object keys are written in sorted order. *)
Fixpoint writeStable (v : json) : string :=
  match v with
  | JNull => "null"
  | JBool b => if b then "true" else "false"
  | JNum _ | JFloat _ => formatNumber v
  | JStr s => json_string s
  | JArr l => "[" +:+ Join (map writeStable l) "," +:+ "]"
  | JObj fs =>
      "{" +:+ Join (map snd (SliceStable key_less
        (map (fun f => (f.1, json_string f.1 +:+ ":" +:+ writeStable f.2)) fs))) "," +:+ "}"
  end.

(** Decoding a marshalled string replaces every invalid byte by U+FFFD. *)
Definition RuneError : string := String (byte_of 239) (String (byte_of 191) (char (byte_of 189))).
Definition valid_utf8 (s : string) : string :=
  foldr (fun r acc => default RuneError r +:+ acc) "" (runes s).
Fixpoint roundtrip_json (v : json) : json :=
  match v with
  | JStr s => JStr (valid_utf8 s)
  | JArr l => JArr (map roundtrip_json l)
  | JObj fs => JObj (map (fun f => (valid_utf8 f.1, roundtrip_json f.2)) fs)
  | _ => v
  end.

(** [StableStringify]: marshal and decode once, then write with sorted keys. *)
Definition StableStringify (v : json) : string := writeStable (roundtrip_json v).
(** [NormalizeSnapshot]: the tree the stable text decodes to. *)
Definition NormalizeSnapshot (v : json) : json := roundtrip_json v.
