(* ===== verification/JsonFacts.v ===== *)
(** * Facts about stable serialization

    [canon] sorts every object by key; [writeStable] does not see the order of
    fields and is injective up to that order. *)

From S2P Require Import Prelude GoStrings Json.
From stdpp Require Import options.

(** ** Canonical trees *)
Fixpoint canon (v : json) : json :=
  match v with
  | JArr l => JArr (map canon l)
  | JObj fs => JObj (SliceStable key_less (map (fun f => (f.1, canon f.2)) fs))
  | _ => v
  end.

(** Two trees denote the same Go value: equal up to the order of object fields. *)
Definition json_equiv (a b : json) : Prop := canon a = canon b.
#[global] Instance json_equiv_equivalence : Equivalence json_equiv.
Proof. split; unfold json_equiv; repeat intro; congruence. Qed.

Section sort_keys.
Context {A : Type}.
Implicit Types l k : list (string * A).

Lemma key_less_asym (f g : string * A) : key_less f g = true -> key_less g f = false.
Proof. apply less_s_asym. Qed.
Lemma key_ge_trans (f g h : string * A) :
  key_less g f = false -> key_less h g = false -> key_less h f = false.
Proof. apply less_s_ge_trans. Qed.

Lemma sort_keys_sorted l : StronglySorted (in_order key_less) (SliceStable key_less l).
Proof. apply SliceStable_sorted; [apply key_less_asym | apply key_ge_trans]. Qed.

Lemma sorted_keys_unique l k :
  NoDup l.*1 -> l ≡ₚ k -> StronglySorted (in_order key_less) l ->
  StronglySorted (in_order key_less) k -> l = k.
Proof.
  intros Hnd Hp Hl. revert k Hp; induction Hl as [|f l _ IH Hf]; intros k Hp Hk.
  { by apply Permutation_nil_l in Hp as ->. }
  destruct Hk as [|g k Hk Hg]; [by apply Permutation_nil_r in Hp|].
  assert (f = g) as ->.
  { assert (g ∈ f :: l) as Hgl by (rewrite Hp; set_solver).
    assert (f ∈ g :: k) as Hfk by (rewrite <- Hp; set_solver).
    apply elem_of_cons in Hgl as [?|Hgl]; [done|]. apply elem_of_cons in Hfk as [?|Hfk]; [done|].
    rewrite Forall_forall in Hf, Hg. specialize (Hf g Hgl). specialize (Hg f Hfk).
    assert (f.1 = g.1) as He by (apply less_s_antisym; done).
    apply NoDup_cons in Hnd as [Hn _]. destruct Hn. rewrite He. by apply list_elem_of_fmap_2. }
  f_equal. apply NoDup_cons in Hnd as [_ Hnd].
  apply IH; [done| by apply Permutation_cons_inv in Hp | done].
Qed.

Lemma sort_keys_perm l k :
  NoDup l.*1 -> l ≡ₚ k -> SliceStable key_less l = SliceStable key_less k.
Proof.
  intros Hnd Hp. apply sorted_keys_unique; try apply sort_keys_sorted.
  - by rewrite SliceStable_perm.
  - by rewrite !SliceStable_perm.
Qed.

Lemma sort_keys_idemp l : SliceStable key_less (SliceStable key_less l) = SliceStable key_less l.
Proof. apply SliceStable_id, sort_keys_sorted. Qed.
End sort_keys.

(** Sorting by key commutes with a map that keeps the keys. *)
Lemma sort_keys_map {A B} (h : string * A -> B) (l : list (string * A)) :
  SliceStable key_less (map (fun f => (f.1, h f)) l) =
  map (fun f => (f.1, h f)) (SliceStable key_less l).
Proof.
  unfold SliceStable. induction l as [|f l IH]; [done|]. simpl. rewrite IH. clear IH.
  generalize (foldr (stable_insert key_less) [] l).
  intros k; induction k as [|g k IH]; [done|]. simpl.
  unfold key_less in *; simpl. destruct (less_s g.1 f.1); simpl; by rewrite ?IH.
Qed.

Lemma canon_idemp v : canon (canon v) = canon v.
Proof.
  induction v as [|x|x|x|x|l IH|l IH] using json_ind'; simpl; try done.
  - f_equal. rewrite map_map. by apply map_ext_Forall.
  - f_equal. rewrite (sort_keys_map (fun f => canon f.2) l), map_map. simpl.
    rewrite (sort_keys_map (fun f => canon (canon f.2))), sort_keys_idemp.
    apply map_ext_Forall. rewrite Forall_forall in *. intros f Hf.
    rewrite elem_of_SliceStable in Hf. by rewrite IH.
Qed.

(** Writing a tree and writing its canonical form give the same text. *)
Lemma writeStable_canon v : writeStable (canon v) = writeStable v.
Proof.
  induction v as [|x|x|x|x|l IH|l IH] using json_ind'; simpl; try done.
  - do 3 f_equal. rewrite map_map. by apply map_ext_Forall.
  - f_equal. f_equal. f_equal.
    rewrite (sort_keys_map (fun f => canon f.2) l), map_map. simpl.
    rewrite (sort_keys_map (fun f => json_string f.1 +:+ ":" +:+ writeStable (canon f.2))).
    rewrite sort_keys_idemp.
    rewrite (sort_keys_map (fun f => json_string f.1 +:+ ":" +:+ writeStable f.2)), !map_map. simpl.
    apply map_ext_Forall. rewrite Forall_forall in *. intros f Hf.
    rewrite elem_of_SliceStable in Hf. by rewrite IH.
Qed.

(** ** Injectivity

    The text of a value can be read back unambiguously when what follows it
    cannot extend a number. *)
Definition num_char (c : ascii) : bool := is_digit c || one_of "-+.eE" c.
Definition delim (r : string) : Prop := match r with String c _ => num_char c = false | _ => True end.
Definition float_text (t : string) : bool := sall num_char t && sexists (one_of ".e") t.
Definition utf8 (s : string) : Prop := Forall is_Some (runes s).
Definition utf8b (s : string) : bool := forallb (fun r => bool_decide (is_Some r)) (runes s).
Lemma utf8b_utf8 s : utf8b s = true <-> utf8 s.
Proof.
  unfold utf8b, utf8. rewrite forallb_Forall. apply Forall_iff. intros r. apply bool_decide_eq_true.
Qed.

(** Trees as decoding produces them: valid text, canonical floats. *)
Fixpoint wf_json (v : json) : bool :=
  match v with
  | JFloat t => float_text t
  | JStr s => utf8b s
  | JArr l => forallb wf_json l
  | JObj fs => forallb (fun f => utf8b f.1 && wf_json f.2) fs
  | _ => true
  end.

(** Concatenating the runes of a string gives it back. *)
Definition unrunes (l : list (option string)) : string :=
  foldr (fun r acc => default RuneError r +:+ acc) "" l.

Lemma string_len_ind (P : string -> Prop) :
  (forall s, (forall t, String.length t < String.length s -> P t) -> P s) -> forall s, P s.
Proof.
  intros H. cut (forall n s, String.length s < n -> P s); [eauto|].
  induction n as [|n IH]; [lia|]. intros s Hs. apply H. intros t Ht. apply IH. lia.
Qed.

Lemma utf8_unrunes s : utf8 s -> unrunes (runes s) = s.
Proof.
  unfold utf8. induction s as [s IH] using string_len_ind. destruct s as [|a s1]; simpl; [done|].
  destruct (code a <? 128)%Z.
  { intros [_ H]%Forall_cons. simpl. rewrite IH; [done|simpl;lia|done]. }
  destruct s1 as [|b s2]; [intros [[? [=]] _]%Forall_cons|].
  destruct (ok2 a b).
  { intros [_ H]%Forall_cons. simpl. rewrite IH; [done|simpl;lia|done]. }
  destruct s2 as [|c s3]; [intros [[? [=]] _]%Forall_cons|].
  destruct (ok3 a b c).
  { intros [_ H]%Forall_cons. simpl. rewrite IH; [done|simpl;lia|done]. }
  destruct s3 as [|d s4]; [intros [[? [=]] _]%Forall_cons|].
  destruct (ok4 a b c d); [|intros [[? [=]] _]%Forall_cons].
  intros [_ H]%Forall_cons. simpl. rewrite IH; [done|simpl;lia|done].
Qed.

(** A decoder for one escaped rune. *)
Definition unhex (c : ascii) : Z := if is_digit c then code c - 48 else code c - 87.
Definition read_rune (s : string) : option (string * string) :=
  match s with
  | EmptyString => None
  | String a s1 =>
      if ascii_eqb a BS then
        match s1 with
        | String b s2 =>
            if ascii_eqb b "b" then Some (char (byte_of 8), s2)
            else if ascii_eqb b "f" then Some (char (byte_of 12), s2)
            else if ascii_eqb b "n" then Some (nl, s2)
            else if ascii_eqb b "r" then Some (char CR, s2)
            else if ascii_eqb b "t" then Some (char (byte_of 9), s2)
            else if ascii_eqb b "u" then
              match s2 with
              | String x (String y (String p (String q s3))) =>
                  if ascii_eqb x "2" then Some (if ascii_eqb q "8" then LS else PS, s3)
                  else Some (char (byte_of (unhex p * 16 + unhex q)), s3)
              | _ => None
              end
            else Some (char b, s2)
        | _ => None
        end
      else if (code a <? 128)%Z then Some (char a, s1)
      else match s1 with
      | String b s2 =>
          if ok2 a b then Some (String a (char b), s2) else
          match s2 with
          | String c s3 =>
              if ok3 a b c then Some (String a (String b (char c)), s3) else
              match s3 with
              | String d s4 => Some (String a (String b (String c (char d))), s4)
              | _ => None
              end
          | _ => None
          end
      | _ => None
      end
  end.

(** The encodings of runes, by byte length. *)
Definition rune_shape (t : string) : Prop :=
  match t with
  | String a EmptyString => (code a < 128)%Z
  | String a (String b EmptyString) => (128 <= code a)%Z /\ ok2 a b = true
  | String a (String b (String c EmptyString)) => (128 <= code a)%Z /\ ok2 a b = false /\ ok3 a b c = true
  | String a (String b (String c (String d EmptyString))) =>
      (128 <= code a)%Z /\ ok2 a b = false /\ ok3 a b c = false
  | _ => False
  end.

Lemma runes_shape s t : Some t ∈ runes s -> rune_shape t.
Proof.
  induction s as [s IH] using string_len_ind. destruct s as [|a s1]; simpl; [set_solver|].
  destruct (code a <? 128)%Z eqn:Ha.
  { bsimp. intros [[= ->]|H]%elem_of_cons; [done|]. eapply IH; [|done]. simpl; lia. }
  bsimp. destruct s1 as [|b s2]; [set_solver|].
  destruct (ok2 a b) eqn:H2.
  { intros [[= ->]|H]%elem_of_cons; [done|]. eapply IH; [|done]. simpl; lia. }
  destruct s2 as [|c s3].
  { intros [[=]|H]%elem_of_cons. eapply IH; [|done]. simpl; lia. }
  destruct (ok3 a b c) eqn:H3.
  { intros [[= ->]|H]%elem_of_cons; [done|]. eapply IH; [|done]. simpl; lia. }
  destruct s3 as [|d s4].
  { intros [[=]|H]%elem_of_cons. eapply IH; [|done]. simpl; lia. }
  destruct (ok4 a b c d).
  { intros [[= ->]|H]%elem_of_cons; [done|]. eapply IH; [|done]. simpl; lia. }
  intros [[=]|H]%elem_of_cons. eapply IH; [|done]. simpl; lia.
Qed.

Lemma read_esc_ascii c x :
  (code c < 128)%Z -> read_rune (esc_ascii true c +:+ x) = Some (char c, x).
Proof. destruct c as [[] [] [] [] [] [] [] []]; (reflexivity || (intros H; vm_compute in H; done)). Qed.

Lemma esc_ascii_head c x :
  (code c < 128)%Z -> forall r, esc_ascii true c +:+ x <> String DQ r.
Proof. destruct c as [[] [] [] [] [] [] [] []]; (discriminate || (intros H; vm_compute in H; done)). Qed.

Lemma high_not_BS a : (128 <= code a)%Z -> ascii_eqb a BS = false /\ (code a <? 128)%Z = false.
Proof.
  intros H. split; [|by apply Z.ltb_ge]. apply bool_decide_eq_false. intros ->. by compute in H.
Qed.

Lemma esc_rune_high t :
  rune_shape t -> (forall c, t <> char c) ->
  esc_rune true (Some t) = (if t =? LS then String BS "u2028" else if t =? PS then String BS "u2029" else t)
  /\ forall x, read_rune (t +:+ x) = Some (t, x) /\ forall r, t +:+ x <> String DQ r.
Proof.
  intros Hs Hc. split; [destruct t as [|a [|b t]]; try done; by destruct (Hc a)|].
  intros x. assert (exists a, (exists t', t = String a t') /\ (128 <= code a)%Z) as (a&[t' Ht]&Ha).
  { destruct t as [|a [|b [|c [|d [|]]]]]; simpl in Hs; try done; [by destruct (Hc a)|naive_solver..]. }
  destruct (high_not_BS a Ha) as [HB Hlt]. split.
  - destruct t as [|a0 [|b [|c [|d [|]]]]]; simplify_eq; simpl in Hs; try done; simpl;
      rewrite HB, Hlt; [by destruct (Hc a)|..].
    + destruct Hs as [_ ->]. done.
    + destruct Hs as (_ & -> & ->). done.
    + destruct Hs as (_ & -> & ->). done.
  - subst. simpl. intros r [= -> _]. by compute in Ha.
Qed.

Lemma read_esc_rune t x : rune_shape t ->
  read_rune (esc_rune true (Some t) +:+ x) = Some (t, x) /\
  forall r, esc_rune true (Some t) +:+ x <> String DQ r.
Proof.
  intros Hs. assert ((exists c, t = char c) \/ forall c, t <> char c) as [[c ->]|Hc].
  { destruct t as [|a [|]]; [right; done|left; by exists a|right; done]. }
  - by split; [apply read_esc_ascii|apply esc_ascii_head].
  - destruct (esc_rune_high t Hs Hc) as [-> Hr].
    destruct (String.eqb_spec t LS) as [->|]; [split; [done|discriminate]|].
    destruct (String.eqb_spec t PS) as [->|]; [split; [done|discriminate]|].
    apply Hr.
Qed.

Lemma json_text_inj l k r1 r2 :
  Forall (fun o => exists t, o = Some t /\ rune_shape t) l ->
  Forall (fun o => exists t, o = Some t /\ rune_shape t) k ->
  foldr (fun r acc => esc_rune true r +:+ acc) "" l +:+ String DQ r1 =
  foldr (fun r acc => esc_rune true r +:+ acc) "" k +:+ String DQ r2 ->
  l = k /\ r1 = r2.
Proof.
  intros Hl. revert k; induction Hl as [|o l (t&->&Ht) _ IH]; intros k Hk; cbn -[esc_rune];
    destruct Hk as [|o' k (t'&->&Ht') Hk]; cbn -[esc_rune]; rewrite ?app_assoc_s; intros H.
  - by simplify_eq.
  - by destruct (proj2 (read_esc_rune t' _ Ht') _ (eq_sym H)).
  - by destruct (proj2 (read_esc_rune t _ Ht) _ H).
  - apply (f_equal read_rune) in H.
    rewrite (proj1 (read_esc_rune t _ Ht)), (proj1 (read_esc_rune t' _ Ht')) in H.
    injection H as -> H. destruct (IH k Hk H) as [-> ->]. done.
Qed.

Lemma json_string_inj s t r1 r2 :
  utf8 s -> utf8 t -> json_string s +:+ r1 = json_string t +:+ r2 -> s = t /\ r1 = r2.
Proof.
  intros Hs Ht. unfold json_string, json_text. simpl. rewrite !app_assoc_s. simpl.
  intros [= H]. apply json_text_inj in H as [Hr ->].
  - split; [|done]. rewrite <- (utf8_unrunes s Hs), <- (utf8_unrunes t Ht). by rewrite Hr.
  - apply Forall_forall. intros o Ho. unfold utf8 in Hs. rewrite Forall_forall in Hs.
    destruct (Hs o Ho) as [u ->]. eauto using runes_shape.
  - apply Forall_forall. intros o Ho. unfold utf8 in Ht. rewrite Forall_forall in Ht.
    destruct (Ht o Ho) as [u ->]. eauto using runes_shape.
Qed.

(** Numbers: maximal munch. *)
Lemma num_span s t r1 r2 :
  sall num_char s = true -> sall num_char t = true -> delim r1 -> delim r2 ->
  s +:+ r1 = t +:+ r2 -> s = t /\ r1 = r2.
Proof.
  revert t; induction s as [|c s IH]; intros [|d t] Hs Ht H1 H2 H; simpl in *; bsimp; subst.
  - done.
  - simpl in H1. congruence.
  - simpl in H2. congruence.
  - injection H as -> H. destruct (IH t) as [-> ->]; done.
Qed.

Definition int_char (c : ascii) : bool := is_digit c || ascii_eqb c "-".

Lemma pretty_N_go_digits n s :
  sall int_char s = true -> sall int_char (pretty_N_go n s) = true.
Proof.
  revert s; induction (N.lt_wf_0 n) as [n _ IH]; intros s Hs.
  destruct (decide (0 < n)%N) as [Hn|Hn].
  - rewrite pretty_N_go_step by done. apply IH; [apply N.div_lt; lia|]. simpl. rewrite Hs, andb_true_r.
    assert (n `mod` 10 < 10)%N as Hm by (apply N.mod_lt; lia).
    revert Hm. generalize (n `mod` 10)%N. intros m ?.
    assert (m = 0 \/ m = 1 \/ m = 2 \/ m = 3 \/ m = 4 \/ m = 5 \/ m = 6 \/ m = 7 \/ m = 8 \/ m = 9)%N as Hd by lia.
    by repeat (destruct Hd as [->|Hd]; [reflexivity|]); subst.
  - assert (n = 0%N) as -> by lia. done.
Qed.

Lemma itoa_chars z : sall int_char (itoa z) = true.
Proof.
  assert (forall n : N, sall int_char (pretty n) = true) as Hn.
  { intros n. unfold pretty, pretty_N. destruct (decide _); [done|]. by apply pretty_N_go_digits. }
  destruct z as [|p|p]; [done|apply Hn|]. unfold itoa, pretty, pretty_Z. simpl. apply Hn.
Qed.

Lemma int_num_char c : int_char c = true -> num_char c = true.
Proof.
  unfold int_char, num_char. intros H. apply orb_true_iff in H as [-> | ->%ascii_eqb_eq]; [done|].
  apply orb_true_r.
Qed.
Lemma itoa_num z : sall num_char (itoa z) = true.
Proof. eapply sall_impl; [apply int_num_char|apply itoa_chars]. Qed.
Lemma float_not_int t z : float_text t = true -> t <> itoa z.
Proof.
  unfold float_text. intros H ->. bsimp. unfold sexists in *. bsimp.
  assert (sall (fun c => negb (one_of ".e" c)) (itoa z) = true) as E; [|congruence].
  eapply sall_impl; [|apply itoa_chars].
  intros c. unfold int_char. rewrite orb_true_iff, ascii_eqb_eq. intros [Hd| ->]; [|done].
  destruct c as [[] [] [] [] [] [] [] []]; vm_compute in Hd |- *; congruence.
Qed.

(** Sequences [x,y,z] closed by a bracket. *)
Section join.
Context {A B : Type} (w : A -> string) (c : A -> B) (close : ascii).
Context (Hclose : num_char close = false) (Hcomma : close <> ","%char).

Definition reads_back (x y : A) : Prop := forall r1 r2,
  delim r1 -> delim r2 -> w x +:+ r1 = w y +:+ r2 -> c x = c y /\ r1 = r2.

Lemma join_tail (l : list A) r : delim (match l with [] => String close r | _ => String "," (Join (map w l) "," +:+ String close r) end).
Proof using Hclose. by destruct l. Qed.

Lemma join_cons (x : A) (l : list A) r :
  Join (map w (x :: l)) "," +:+ String close r =
  w x +:+ match l with [] => String close r | _ => String "," (Join (map w l) "," +:+ String close r) end.
Proof. destruct l; simpl; [done|]. by rewrite !app_assoc_s. Qed.

Lemma join_inj (l k : list A) r1 r2 :
  (forall x y, x ∈ l -> y ∈ k -> reads_back x y) ->
  (forall x r r', x ∈ l \/ x ∈ k -> w x +:+ r <> String close r') ->
  Join (map w l) "," +:+ String close r1 = Join (map w k) "," +:+ String close r2 ->
  map c l = map c k /\ r1 = r2.
Proof using Hclose Hcomma.
  revert k; induction l as [|x l IH]; intros [|y k] Hrb Hh.
  - intros [= ->]. done.
  - rewrite join_cons. intros H. edestruct Hh; [|symmetry; exact H]. set_solver.
  - rewrite join_cons. intros H. edestruct Hh; [|exact H]. set_solver.
  - rewrite !join_cons. intros H. apply Hrb in H as [Hc H]; [|set_solver|set_solver|apply join_tail..].
    simpl. rewrite Hc. destruct l as [|x' l], k as [|y' k]; simplify_eq; try done.
    destruct (IH (y' :: k)) as [-> ->]; [set_solver| |exact H|done].
    intros z r r' [?|?]; apply Hh; set_solver.
Qed.
End join.

(** What a value's text starts with. *)
Definition head_char (v : json) : ascii -> bool := fun c =>
  match v with
  | JNull => ascii_eqb c "n"
  | JBool b => ascii_eqb c (if b then "t" else "f")
  | JNum _ | JFloat _ => num_char c
  | JStr _ => ascii_eqb c DQ
  | JArr _ => ascii_eqb c "["
  | JObj _ => ascii_eqb c "{"
  end.

Lemma num_text_head t : t <> "" -> sall num_char t = true -> exists c s, t = String c s /\ num_char c = true.
Proof. destruct t as [|c s]; [done|]. simpl. intros _ H. bsimp. eauto. Qed.
Lemma itoa_nonempty z : itoa z <> "".
Proof.
  assert (forall n : N, pretty n <> "") as Hn.
  { intros n H. assert (pretty n = pretty 0%N \/ String.length (pretty n) = 0) as [E|E] by (rewrite H; auto).
    - by rewrite H in E.
    - destruct (decide (n = 0)%N) as [->|Hn]; [done|]. unfold pretty, pretty_N in H.
      rewrite decide_False in H by done.
      rewrite pretty_N_go_step in H by lia.
      assert (forall m s, s <> "" -> pretty_N_go m s <> "") as Hgo; [|eapply Hgo; [|exact H]; done].
      clear. intros m; induction (N.lt_wf_0 m) as [m _ IH]; intros s Hs.
      destruct (decide (0 < m)%N); [|by replace m with 0%N by lia].
      rewrite pretty_N_go_step by done. apply IH; [apply N.div_lt; lia|done]. }
  destruct z; [done|apply Hn|]. by unfold itoa, pretty, pretty_Z.
Qed.

Lemma writeStable_head v : wf_json v = true ->
  exists c s, writeStable v = String c s /\ head_char v c = true.
Proof.
  destruct v as [|[]|z|t|s|l|fs]; cbn -[itoa json_string Join]; intros Hw;
    try (unfold json_string; eauto; fail).
  - apply num_text_head; [apply itoa_nonempty|apply itoa_num].
  - unfold float_text in Hw. bsimp. apply num_text_head; [|done]. by intros ->.
Qed.

Definition kind (v : json) : nat :=
  match v with
  | JNull => 0 | JBool true => 1 | JBool false => 2 | JNum _ | JFloat _ => 3
  | JStr _ => 4 | JArr _ => 5 | JObj _ => 6
  end.
Lemma head_kind v w c : head_char v c = true -> head_char w c = true -> kind v = kind w.
Proof.
  destruct v as [|[]| | | | |], w as [|[]| | | | |]; simpl; try done;
    rewrite ?ascii_eqb_eq; intros; subst; try done;
    match goal with H : _ = true |- _ => by compute in H end.
Qed.
Lemma same_kind v w r1 r2 : wf_json v = true -> wf_json w = true ->
  writeStable v +:+ r1 = writeStable w +:+ r2 -> kind v = kind w.
Proof.
  intros (c&s&Hs&Hc)%writeStable_head (d&t&Ht&Hd)%writeStable_head H.
  rewrite Hs, Ht in H. injection H as -> _. by eapply head_kind.
Qed.
Lemma head_not_close v r r' c : wf_json v = true -> (forall w, head_char w c = false) ->
  writeStable v +:+ r <> String c r'.
Proof.
  intros (d&s&Hs&Hd)%writeStable_head Hc H. rewrite Hs in H. injection H as -> _.
  by rewrite Hc in Hd.
Qed.
Lemma no_close_head w : head_char w "]"%char = false /\ head_char w "}"%char = false.
Proof. by destruct w as [|[]| | | | |]. Qed.

Lemma writeStable_obj fs : writeStable (JObj fs) =
  "{" +:+ Join (map (fun f => json_string f.1 +:+ ":" +:+ writeStable f.2) (SliceStable key_less fs)) "," +:+ "}".
Proof.
  cbn -[Join json_string].
  by rewrite (sort_keys_map (fun f => json_string f.1 +:+ ":" +:+ writeStable f.2)), map_map.
Qed.
Lemma canon_obj fs : canon (JObj fs) = JObj (map (fun f => (f.1, canon f.2)) (SliceStable key_less fs)).
Proof. simpl. by rewrite (sort_keys_map (fun f => canon f.2)). Qed.

Definition inj_at (v : json) : Prop := forall w r1 r2,
  wf_json v = true -> wf_json w = true -> delim r1 -> delim r2 ->
  writeStable v +:+ r1 = writeStable w +:+ r2 -> canon v = canon w /\ r1 = r2.

Lemma inj_at_number v : kind v = 3 -> inj_at v.
Proof.
  intros Hk w r1 r2 Hv Hw H1 H2 H. pose proof (same_kind _ _ _ _ Hv Hw H) as Hkw.
  destruct v as [|[]|z|t| | |]; try done; destruct w as [|[]|z'|t'| | |]; try done;
    simpl in *; unfold float_text in *; bsimp; apply num_span in H as [He ->]; auto using itoa_num.
  - unfold itoa in He. by simplify_eq.
  - exfalso. eapply (float_not_int t' z); unfold float_text; by rewrite ?H0, ?H3.
  - exfalso. eapply (float_not_int t z'); unfold float_text; by rewrite ?H0, ?H3.
  - by subst.
Qed.

Lemma inj_at_array l : Forall inj_at l -> inj_at (JArr l).
Proof.
  intros IH w r1 r2 Hv Hw H1 H2 H. pose proof (same_kind _ _ _ _ Hv Hw H) as Hkw.
  destruct w as [|[]| | | |k|]; try done. simpl in *.
  rewrite forallb_Forall, Forall_forall in Hv, Hw. rewrite Forall_forall in IH.
  rewrite !app_assoc_s in H. injection H as H.
  apply (join_inj writeStable canon "]"%char) in H as [Hc ->]; try done.
  - by rewrite Hc.
  - intros x y Hx Hy s1 s2 Hs1 Hs2. apply IH; auto.
  - intros x r r' Hx. apply head_not_close; [naive_solver|apply no_close_head].
Qed.

Lemma inj_at_object fs : Forall (fun f => inj_at f.2) fs -> inj_at (JObj fs).
Proof.
  intros IH w r1 r2 Hv Hw H1 H2 H. pose proof (same_kind _ _ _ _ Hv Hw H) as Hkw.
  destruct w as [|[]| | | | |gs]; try done.
  rewrite !writeStable_obj in H. cbn [wf_json] in Hv, Hw.
  rewrite forallb_Forall, Forall_forall in Hv, Hw. rewrite Forall_forall in IH.
  rewrite !app_assoc_s in H. injection H as H.
  apply (join_inj (fun f => json_string f.1 +:+ ":" +:+ writeStable f.2) (fun f => (f.1, canon f.2)) "}"%char)
    in H as [Hc ->]; try done.
  - by rewrite !canon_obj, Hc.
  - intros [k x] [k' y] Hx%elem_of_SliceStable Hy%elem_of_SliceStable s1 s2 Hs1 Hs2.
    specialize (Hv _ Hx). specialize (Hw _ Hy). specialize (IH _ Hx). cbn [fst snd] in *. bsimp.
    rewrite !app_assoc_s. intros [-> Hxy]%json_string_inj; try by apply utf8b_utf8.
    simpl in Hxy. injection Hxy as Hxy. apply IH in Hxy as [-> ->]; done.
Qed.

Lemma inj_at_all v : inj_at v.
Proof.
  induction v as [|x|x|x|x|l IH|l IH] using json_ind';
    try (by apply inj_at_number); try (by apply inj_at_array); try (by apply inj_at_object);
    intros w r1 r2 Hv Hw H1 H2 H; pose proof (same_kind _ _ _ _ Hv Hw H) as Hkw.
  - destruct w as [|[]| | | | |]; try done. simpl in *. by simplify_eq.
  - destruct x, w as [|[]| | | | |]; try done; simpl in *; by simplify_eq.
  - destruct w as [|[]| | |s| |]; try done. simpl in Hv, Hw, H |- *.
    apply json_string_inj in H as [-> ->]; [done|by apply utf8b_utf8..].
Qed.

(** C36: Equal text, equal value: the stable text determines the tree up to the
    order of object fields, and nothing else. *)
Theorem writeStable_iff_equiv v w :
  wf_json v = true -> wf_json w = true ->
  writeStable v = writeStable w <-> json_equiv v w.
Proof.
  intros Hv Hw. split.
  - intros H. apply (inj_at_all v w "" ""); try done. by rewrite !app_nil_r_s.
  - intros H. rewrite <- (writeStable_canon v), <- (writeStable_canon w). by rewrite H.
Qed.
