(* ===== verification/Sha256.v ===== *)
(** * SHA-256 and its hexadecimal digest

    [crypto/sha256] and [encoding/hex] as the code uses them: the checksum of
    a text, sixty-four lower-case hex digits (FIPS 180-4, 32-bit words as [Z]). *)

From S2P Require Import Prelude GoStrings Json.
From stdpp Require Import options.
#[local] Open Scope Z_scope.

Definition w32 (z : Z) : Z := Z.land z 4294967295.
Definition add32 (a b : Z) : Z := w32 (a + b).
Definition rotr (n x : Z) : Z := Z.lor (Z.shiftr x n) (w32 (Z.shiftl x (32 - n))).
Definition not32 (x : Z) : Z := Z.lxor x 4294967295.
Definition Ch (x y z : Z) : Z := Z.lxor (Z.land x y) (Z.land (not32 x) z).
Definition Maj (x y z : Z) : Z := Z.lxor (Z.lxor (Z.land x y) (Z.land x z)) (Z.land y z).
Definition Sigma0 (x : Z) : Z := Z.lxor (Z.lxor (rotr 2 x) (rotr 13 x)) (rotr 22 x).
Definition Sigma1 (x : Z) : Z := Z.lxor (Z.lxor (rotr 6 x) (rotr 11 x)) (rotr 25 x).
Definition sigma0 (x : Z) : Z := Z.lxor (Z.lxor (rotr 7 x) (rotr 18 x)) (Z.shiftr x 3).
Definition sigma1 (x : Z) : Z := Z.lxor (Z.lxor (rotr 17 x) (rotr 19 x)) (Z.shiftr x 10).

(** The constants are computed from their definition: the first 32 bits of the
    fractional parts of the cube (square) roots of the first primes. [root k n] is
    the integer [k]-th root of [n], found bit by bit from the top. *)
Definition root (k n : Z) : Z :=
  foldr (fun i acc => if (acc + 2 ^ i) ^ k <=? n then acc + 2 ^ i else acc) 0 (seqZ 0 48).
Definition prime (n : Z) : bool := forallb (fun d => negb (n mod d =? 0)) (seqZ 2 (root 2 n - 1)).
Definition primes : list Z := List.filter prime (seqZ 2 310).
Definition fractional (k p : Z) : Z := w32 (root k (Z.shiftl p (32 * k))).
Definition round_constants : list Z := Eval vm_compute in map (fractional 3) primes.

Record digest := mkDigest { dA : Z; dB : Z; dC : Z; dD : Z; dE : Z; dF : Z; dG : Z; dH : Z }.
Definition initial : digest := Eval vm_compute in
  let h i := fractional 2 (nth i primes 0) in
  mkDigest (h 0%nat) (h 1%nat) (h 2%nat) (h 3%nat) (h 4%nat) (h 5%nat) (h 6%nat) (h 7%nat).

(** The schedule is kept newest first: [w] holds the words before the next one. *)
Fixpoint extend (n : nat) (w : list Z) : list Z :=
  match n with
  | O => w
  | S n =>
      let at_ i := nth i w 0 in
      extend n (add32 (add32 (sigma1 (at_ 1%nat)) (at_ 6%nat)) (add32 (sigma0 (at_ 14%nat)) (at_ 15%nat)) :: w)
  end.
Definition round (d : digest) (kw : Z * Z) : digest :=
  let t1 := add32 (add32 (dH d) (Sigma1 (dE d))) (add32 (Ch (dE d) (dF d) (dG d)) (add32 kw.1 kw.2)) in
  let t2 := add32 (Sigma0 (dA d)) (Maj (dA d) (dB d) (dC d)) in
  mkDigest (add32 t1 t2) (dA d) (dB d) (dC d) (add32 (dD d) t1) (dE d) (dF d) (dG d).
Definition compress (d : digest) (block : list Z) : digest :=
  let w := rev (extend 48 (rev block)) in
  let r := foldl round d (zip round_constants w) in
  mkDigest (add32 (dA d) (dA r)) (add32 (dB d) (dB r)) (add32 (dC d) (dC r)) (add32 (dD d) (dD r))
           (add32 (dE d) (dE r)) (add32 (dF d) (dF r)) (add32 (dG d) (dG r)) (add32 (dH d) (dH r)).

Fixpoint bytes_of (s : string) : list Z :=
  match s with EmptyString => [] | String c s => code c :: bytes_of s end.
Definition be_bytes (n : nat) (z : Z) : list Z :=
  map (fun i => Z.land (Z.shiftr z (8 * Z.of_nat (n - 1 - i))) 255) (seq 0 n).
(** Padding to a multiple of 64 bytes: 0x80, zeros, the bit length. *)
Definition pad (l : list Z) : list Z :=
  let n := Z.of_nat (length l) in
  l ++ [128] ++ repeat 0 (Z.to_nat ((55 - n) mod 64)) ++ be_bytes 8 (8 * n).
Fixpoint words (l : list Z) : list Z :=
  match l with
  | a :: b :: c :: d :: l => (Z.lor (Z.lor (Z.shiftl a 24) (Z.shiftl b 16)) (Z.lor (Z.shiftl c 8) d)) :: words l
  | _ => []
  end.
Fixpoint blocks (fuel : nat) (d : digest) (l : list Z) : digest :=
  match fuel with
  | O => d
  | S fuel => match l with [] => d | _ => blocks fuel (compress d (take 16 l)) (drop 16 l) end
  end.
(** Each block consumes sixteen words, so the number of words bounds the rounds. *)
Definition sha256_digest (s : string) : digest :=
  let l := words (pad (bytes_of s)) in blocks (length l) initial l.
Definition hex_encode (l : list Z) : string :=
  foldr (fun b acc => String (hex_digit (b / 16)) (String (hex_digit (b mod 16)) acc)) "" l.
(** [hex.EncodeToString] of [sha256.Sum256]. *)
Definition sha256_hex (s : string) : string :=
  let d := sha256_digest s in
  hex_encode (concat (map (be_bytes 4) [dA d; dB d; dC d; dD d; dE d; dF d; dG d; dH d])).

Example sha256_empty :
  sha256_hex "" = "e3b0c44298fc1c149afbf4c8996fb92427ae41e4649b934ca495991b7852b855".
Proof. by vm_compute. Qed.
Example sha256_abc :
  sha256_hex "abc" = "ba7816bf8f01cfea414140de5dae2223b00361a396177a9cb410ff61f20015ad".
Proof. by vm_compute. Qed.
Example sha256_two_blocks :
  sha256_hex "abcdbcdecdefdefgefghfghighijhijkijkljklmklmnlmnomnopnopq"
  = "248d6a61d20638b8e5c026930c3e6039a33ce45964ff2167f6ecedd419db06c1".
Proof. by vm_compute. Qed.

(** A digest is 64 lower-case hex digits. *)
Definition hex64 (s : string) : bool :=
  (String.length s =? 64)%nat && sall (fun c => is_digit c || in_range 97 102 c) s.

Lemma hex_digit_ok z : 0 <= z < 16 -> (is_digit (hex_digit z) || in_range 97 102 (hex_digit z)) = true.
Proof. intros. assert (z ∈ seqZ 0 16) as Hz by (apply elem_of_seqZ; lia). revert z H Hz.
  assert (forallb (fun z => is_digit (hex_digit z) || in_range 97 102 (hex_digit z)) (seqZ 0 16) = true) as H by (by vm_compute).
  apply forallb_Forall in H. rewrite Forall_forall in H. intros z _. apply H.
Qed.
Lemma byte_land z : 0 <= Z.land z 255 < 256.
Proof. change 255 with (Z.ones 8). rewrite Z.land_ones by lia. change 256 with (2 ^ 8). apply Z.mod_pos_bound. lia. Qed.

Lemma hex_encode_ok l : Forall (fun b => 0 <= b < 256) l ->
  String.length (hex_encode l) = (2 * length l)%nat
  /\ sall (fun c => is_digit c || in_range 97 102 c) (hex_encode l) = true.
Proof.
  induction 1 as [|b l Hb _ [IH1 IH2]]; [done|].
  change (hex_encode (b :: l)) with (String (hex_digit (b / 16)) (String (hex_digit (b mod 16)) (hex_encode l))).
  cbn [String.length sall length]. rewrite IH1, IH2. split; [lia|].
  rewrite !hex_digit_ok; [done|apply Z.mod_pos_bound; lia|].
  split; [apply Z.div_pos; lia|apply Z.div_lt_upper_bound; lia].
Qed.
Lemma be_bytes_ok n z : Forall (fun b => 0 <= b < 256) (be_bytes n z) /\ length (be_bytes n z) = n.
Proof.
  unfold be_bytes. split; [|by rewrite length_map, length_seq].
  apply Forall_forall. intros b (i&->&_)%list_elem_of_fmap. apply byte_land.
Qed.

Lemma sha256_hex_hex64 s : hex64 (sha256_hex s) = true.
Proof.
  unfold sha256_hex, hex64. set (d := sha256_digest s).
  set (l := concat _). assert (Forall (fun b => 0 <= b < 256) l /\ length l = 32%nat) as [Hf Hl].
  { subst l. cbn [map concat]. rewrite !Forall_app, !length_app.
    pose proof (fun z => proj1 (be_bytes_ok 4 z)) as H1. pose proof (fun z => proj2 (be_bytes_ok 4 z)) as H2.
    rewrite !H2. repeat split; auto. }
  destruct (hex_encode_ok l Hf) as [H1 H2]. by rewrite H1, H2, Hl.
Qed.
