(* ===== verification/AesGcm.v ===== *)
(** * AES-256-GCM

    [crypto/aes] and [cipher.NewGCM] as cluster/kek.go uses them: sealing and
    opening with a 32-byte key, a 12-byte nonce and a 16-byte tag (FIPS 197,
    NIST SP 800-38D). Bytes are [Z] values below 256, blocks 128-bit integers. *)

From S2P Require Import Prelude.
From stdpp Require Import options.
#[local] Open Scope Z_scope.

(** ** The block cipher *)
Definition sbox_table : list Z := [
  99; 124; 119; 123; 242; 107; 111; 197; 48; 1; 103; 43; 254; 215; 171; 118;
  202; 130; 201; 125; 250; 89; 71; 240; 173; 212; 162; 175; 156; 164; 114; 192;
  183; 253; 147; 38; 54; 63; 247; 204; 52; 165; 229; 241; 113; 216; 49; 21;
  4; 199; 35; 195; 24; 150; 5; 154; 7; 18; 128; 226; 235; 39; 178; 117;
  9; 131; 44; 26; 27; 110; 90; 160; 82; 59; 214; 179; 41; 227; 47; 132;
  83; 209; 0; 237; 32; 252; 177; 91; 106; 203; 190; 57; 74; 76; 88; 207;
  208; 239; 170; 251; 67; 77; 51; 133; 69; 249; 2; 127; 80; 60; 159; 168;
  81; 163; 64; 143; 146; 157; 56; 245; 188; 182; 218; 33; 16; 255; 243; 210;
  205; 12; 19; 236; 95; 151; 68; 23; 196; 167; 126; 61; 100; 93; 25; 115;
  96; 129; 79; 220; 34; 42; 144; 136; 70; 238; 184; 20; 222; 94; 11; 219;
  224; 50; 58; 10; 73; 6; 36; 92; 194; 211; 172; 98; 145; 149; 228; 121;
  231; 200; 55; 109; 141; 213; 78; 169; 108; 86; 244; 234; 101; 122; 174; 8;
  186; 120; 37; 46; 28; 166; 180; 198; 232; 221; 116; 31; 75; 189; 139; 138;
  112; 62; 181; 102; 72; 3; 246; 14; 97; 53; 87; 185; 134; 193; 29; 158;
  225; 248; 152; 17; 105; 217; 142; 148; 155; 30; 135; 233; 206; 85; 40; 223;
  140; 161; 137; 13; 191; 230; 66; 104; 65; 153; 45; 15; 176; 84; 187; 22].
Definition sbox (b : Z) : Z := nth (Z.to_nat b) sbox_table 0.
Definition xtime (b : Z) : Z :=
  let d := 2 * b in if 256 <=? d then Z.lxor (d - 256) 27 else d.
Definition xor_bytes (a b : list Z) : list Z := zip_with Z.lxor a b.

Definition shift_rows (s : list Z) : list Z :=
  map (fun i => nth i s 0) [0; 5; 10; 15; 4; 9; 14; 3; 8; 13; 2; 7; 12; 1; 6; 11]%nat.
Definition mix_column (a b c d : Z) : list Z :=
  [Z.lxor (Z.lxor (xtime a) (Z.lxor (xtime b) b)) (Z.lxor c d);
   Z.lxor (Z.lxor a (xtime b)) (Z.lxor (Z.lxor (xtime c) c) d);
   Z.lxor (Z.lxor a b) (Z.lxor (xtime c) (Z.lxor (xtime d) d));
   Z.lxor (Z.lxor (Z.lxor (xtime a) a) b) (Z.lxor c (xtime d))].
Fixpoint mix_columns (s : list Z) : list Z :=
  match s with
  | a :: b :: c :: d :: s => mix_column a b c d ++ mix_columns s
  | _ => []
  end.

(** Key expansion: sixty words of four bytes, newest first. *)
Fixpoint expand (n : nat) (i : nat) (rcon : Z) (w : list (list Z)) : list (list Z) :=
  match n with
  | O => w
  | S n =>
      let prev := nth 0 w [] in
      let back := nth 7 w [] in
      if (i mod 8 =? 0)%nat then
        let rotated := map sbox (drop 1 prev ++ take 1 prev) in
        expand n (S i) (xtime rcon) (xor_bytes back (xor_bytes rotated [rcon; 0; 0; 0]) :: w)
      else if (i mod 8 =? 4)%nat then expand n (S i) rcon (xor_bytes back (map sbox prev) :: w)
      else expand n (S i) rcon (xor_bytes back prev :: w)
  end.
Fixpoint chunks (n : nat) (fuel : nat) (l : list Z) : list (list Z) :=
  match fuel with
  | O => []
  | S fuel => match l with [] => [] | _ => take n l :: chunks n fuel (drop n l) end
  end.
Definition round_keys (key : list Z) : list (list Z) :=
  chunks 16 15 (concat (rev (expand 52 8 1 (rev (chunks 4 8 key))))).
Definition aes_round (s k : list Z) : list Z := xor_bytes (mix_columns (shift_rows (map sbox s))) k.
Definition encrypt_with (keys : list (list Z)) (block : list Z) : list Z :=
  let s := xor_bytes block (nth 0 keys []) in
  let s := foldl aes_round s (take 13 (drop 1 keys)) in
  xor_bytes (shift_rows (map sbox s)) (nth 14 keys []).

(** ** GHASH *)
Definition of_bytes (l : list Z) : Z := foldl (fun acc b => acc * 256 + b) 0 l.
Definition to_bytes (n : nat) (z : Z) : list Z :=
  map (fun i => Z.land (Z.shiftr z (8 * Z.of_nat (n - 1 - i))) 255) (seq 0 n).
Definition ghash_poly : Z := Z.shiftl 225 120.
Fixpoint gf_mult_aux (i : nat) (x z v : Z) : Z :=
  match i with
  | O => z
  | S i =>
      let z := if Z.testbit x (Z.of_nat i) then Z.lxor z v else z in
      let v := if Z.testbit v 0 then Z.lxor (Z.shiftr v 1) ghash_poly else Z.shiftr v 1 in
      gf_mult_aux i x z v
  end.
Definition gf_mult (x y : Z) : Z := gf_mult_aux 128 x 0 y.
Definition pad16 (l : list Z) : list Z := l ++ repeat 0 (Z.to_nat (- Z.of_nat (length l) mod 16)).
Definition ghash (h : Z) (l : list Z) : Z :=
  foldl (fun y b => gf_mult (Z.lxor y (of_bytes b)) h) 0 (chunks 16 (length l) l).

(** ** GCM *)
(** The key stream of [n] bytes from counter block [nonce, ctr]. *)
Fixpoint key_stream (fuel : nat) (keys : list (list Z)) (nonce : list Z) (ctr : Z) : list Z :=
  match fuel with
  | O => []
  | S fuel => encrypt_with keys (nonce ++ to_bytes 4 ctr) ++ key_stream fuel keys nonce (ctr + 1)
  end.
Definition ctr_crypt (keys : list (list Z)) (nonce data : list Z) : list Z :=
  xor_bytes data (take (length data) (key_stream (length data / 16 + 1) keys nonce 2)).
Definition gcm_tag (keys : list (list Z)) (nonce ciphertext aad : list Z) : list Z :=
  let h := of_bytes (encrypt_with keys (repeat 0 16)) in
  let lengths := to_bytes 8 (8 * Z.of_nat (length aad)) ++ to_bytes 8 (8 * Z.of_nat (length ciphertext)) in
  let s := ghash h (pad16 aad ++ pad16 ciphertext ++ lengths) in
  xor_bytes (to_bytes 16 s) (encrypt_with keys (nonce ++ to_bytes 4 1)).
(** [Seal] appends the tag to the ciphertext; [Open] splits it off and checks it. *)
Definition Seal (key nonce plaintext aad : list Z) : list Z :=
  let keys := round_keys key in
  let c := ctr_crypt keys nonce plaintext in c ++ gcm_tag keys nonce c aad.
Definition Open (key nonce sealed aad : list Z) : option (list Z) :=
  let keys := round_keys key in
  if (length sealed <? 16)%nat then None else
  let c := take (length sealed - 16) sealed in
  let tag := drop (length sealed - 16) sealed in
  if bool_decide (tag = gcm_tag keys nonce c aad) then Some (ctr_crypt keys nonce c) else None.

Example gcm_test_13 : Seal (repeat 0 32) (repeat 0 12) [] []
  = to_bytes 16 0x530f8afbc74536b9a963b4f1c4cb738b.
Proof. by vm_compute. Qed.
Example gcm_test_14 : Seal (repeat 0 32) (repeat 0 12) (repeat 0 16) []
  = to_bytes 16 0xcea7403d4d606b6e074ec5d3baf39d18 ++ to_bytes 16 0xd0d1c8a799996bf0265b98b5d48ab919.
Proof. by vm_compute. Qed.
Example gcm_test_aad :
  let key := to_bytes 32 0xfeffe9928665731c6d6a8f9467308308feffe9928665731c6d6a8f9467308308 in
  let pt := to_bytes 60 0xd9313225f88406e5a55909c5aff5269a86a7a9531534f7da2e4c303d8a318a721c3c0c95956809532fcf0e2449a6b525b16aedf5aa0de657ba637b39 in
  drop 60 (Seal key (to_bytes 12 0xcafebabefacedbaddecaf888) pt (to_bytes 20 0xfeedfacedeadbeeffeedfacedeadbeefabaddad2))
  = to_bytes 16 0x76fc6ece0f4e1768cddf8853bb2d551b.
Proof. by vm_compute. Qed.

(** ** Lengths *)
Lemma length_xor_bytes a b : length (xor_bytes a b) = Nat.min (length a) (length b).
Proof. apply length_zip_with. Qed.
Lemma xor_bytes_involutive a k : (length a <= length k)%nat -> xor_bytes (xor_bytes a k) k = a.
Proof.
  revert k; induction a as [|x a IH]; intros [|y k]; simpl; intros Hl; try done; [lia|].
  change (xor_bytes (Z.lxor x y :: xor_bytes a k) (y :: k) = x :: a).
  change (Z.lxor (Z.lxor x y) y :: xor_bytes (xor_bytes a k) k = x :: a).
  rewrite IH by lia. by rewrite Z.lxor_assoc, Z.lxor_nilpotent, Z.lxor_0_r.
Qed.

Definition word4 (w : list Z) : Prop := length w = 4%nat.
Lemma expand_length n i rcon w : Forall word4 w -> (8 <= length w)%nat ->
  Forall word4 (expand n i rcon w) /\ length (expand n i rcon w) = (n + length w)%nat.
Proof.
  revert i rcon w; induction n as [|n IH]; intros i rcon w Hw Hl; [done|].
  assert (word4 (nth 0 w []) /\ word4 (nth 7 w [])) as [H0 H7].
  { rewrite Forall_forall in Hw. split; apply Hw, list_elem_of_In, nth_In; lia. }
  unfold word4 in H0, H7. cbn [expand].
  repeat case_match; (edestruct IH as [Hi1 Hi2]; [..|split; [exact Hi1|rewrite Hi2; cbn [length]; lia]]);
    try (cbn [length]; lia); constructor; try done; unfold word4.
  - rewrite !length_xor_bytes, length_map, length_app, length_drop, length_take, H0, H7. done.
  - by rewrite length_xor_bytes, length_map, H0, H7.
  - by rewrite length_xor_bytes, H0, H7.
Qed.
Lemma length_concat_words w : Forall word4 w -> length (concat w) = (4 * length w)%nat.
Proof. induction 1 as [|x w Hx _ IH]; [done|]. cbn [concat length]. rewrite length_app, IH, Hx. lia. Qed.
Lemma chunks_exact n k l : length l = (n * k)%nat -> (0 < n)%nat ->
  length (chunks n k l) = k /\ Forall (fun c => length c = n) (chunks n k l).
Proof.
  intros H Hn. revert l H; induction k as [|k IH]; intros l H; [done|]. cbn [chunks].
  destruct l as [|x l']; [cbn [length] in H; lia|]. set (l := x :: l') in *.
  destruct (IH (drop n l)) as [H1 H2]; [rewrite length_drop; lia|].
  split; [cbn [length]; lia|]. constructor; [rewrite length_take; lia|done].
Qed.
Lemma round_keys_length key : length key = 32%nat ->
  length (round_keys key) = 15%nat /\ Forall (fun c => length c = 16%nat) (round_keys key).
Proof.
  intros Hk. unfold round_keys. apply chunks_exact; [|lia].
  destruct (chunks_exact 4 8 key Hk ltac:(lia)) as [Hc Hcf].
  assert (Forall word4 (rev (chunks 4 8 key))) as Hr.
  { rewrite Forall_forall in *. intros w. rewrite list_elem_of_In, <- in_rev, <- list_elem_of_In. apply Hcf. }
  destruct (expand_length 52 8 1 (rev (chunks 4 8 key)) Hr) as [H1 H2]; [rewrite length_rev; lia|].
  rewrite length_concat_words.
  - rewrite length_rev, H2, length_rev, Hc. done.
  - rewrite Forall_forall in *. intros w. rewrite list_elem_of_In, <- in_rev, <- list_elem_of_In. apply H1.
Qed.
Lemma encrypt_with_length key block : length key = 32%nat -> length (encrypt_with (round_keys key) block) = 16%nat.
Proof.
  intros Hk. destruct (round_keys_length key Hk) as [Hl Hf]. unfold encrypt_with. cbv zeta.
  rewrite length_xor_bytes. unfold shift_rows. rewrite length_map. cbn [length].
  rewrite Forall_forall in Hf. rewrite (Hf (nth 14 _ [])); [done|]. apply list_elem_of_In, nth_In. lia.
Qed.
Lemma key_stream_length n key nonce ctr : length key = 32%nat ->
  length (key_stream n (round_keys key) nonce ctr) = (16 * n)%nat.
Proof.
  intros Hk. revert ctr; induction n as [|n IH]; intros ctr; [done|]. cbn [key_stream].
  rewrite length_app, encrypt_with_length, IH by done. lia.
Qed.
Lemma ctr_crypt_length key nonce data : length key = 32%nat ->
  length (ctr_crypt (round_keys key) nonce data) = length data.
Proof.
  intros Hk. unfold ctr_crypt. rewrite length_xor_bytes, length_take, key_stream_length by done.
  pose proof (Nat.div_mod (length data) 16). pose proof (Nat.mod_upper_bound (length data) 16). lia.
Qed.
Lemma ctr_crypt_involutive key nonce data : length key = 32%nat ->
  ctr_crypt (round_keys key) nonce (ctr_crypt (round_keys key) nonce data) = data.
Proof.
  intros Hk. unfold ctr_crypt at 1. rewrite ctr_crypt_length by done. unfold ctr_crypt.
  apply xor_bytes_involutive. rewrite length_take, key_stream_length by done.
  pose proof (Nat.div_mod (length data) 16). pose proof (Nat.mod_upper_bound (length data) 16). lia.
Qed.
Lemma gcm_tag_length key nonce c aad : length key = 32%nat -> length (gcm_tag (round_keys key) nonce c aad) = 16%nat.
Proof.
  intros Hk. unfold gcm_tag. cbv zeta. rewrite length_xor_bytes, encrypt_with_length by done.
  unfold to_bytes. by rewrite length_map, length_seq.
Qed.
Lemma Seal_length key nonce p aad : length key = 32%nat -> length (Seal key nonce p aad) = (length p + 16)%nat.
Proof. intros Hk. unfold Seal. cbv zeta. by rewrite length_app, ctr_crypt_length, gcm_tag_length. Qed.

(** What is sealed is opened under the same key, nonce and additional data. *)
Lemma Open_Seal key nonce plaintext aad : length key = 32%nat ->
  Open key nonce (Seal key nonce plaintext aad) aad = Some plaintext.
Proof.
  intros Hk. unfold Open. cbv zeta. rewrite Seal_length by done.
  rewrite (proj2 (Nat.ltb_ge _ _)) by lia. replace (length plaintext + 16 - 16)%nat with (length plaintext) by lia.
  unfold Seal. cbv zeta. set (c := ctr_crypt (round_keys key) nonce plaintext).
  assert (length c = length plaintext) as Hc by (by apply ctr_crypt_length). rewrite <- Hc.
  rewrite take_app_length, drop_app_length, bool_decide_eq_true_2 by done. subst c.
  by rewrite ctr_crypt_involutive.
Qed.

(** ** Sealed bytes are bytes *)
Definition is_byte (b : Z) : Prop := 0 <= b < 256.
Lemma is_byte_land b : is_byte b <-> Z.land b 255 = b.
Proof.
  unfold is_byte. change 255 with (Z.ones 8). rewrite Z.land_ones by lia. change 256 with (2 ^ 8). split.
  - intros. by apply Z.mod_small.
  - intros <-. apply Z.mod_pos_bound. lia.
Qed.
Lemma is_byte_lxor a b : is_byte a -> is_byte b -> is_byte (Z.lxor a b).
Proof. rewrite !is_byte_land. intros Ha Hb.
  transitivity (Z.lxor (Z.land a 255) (Z.land b 255)); [|by rewrite Ha, Hb].
  apply Z.bits_inj'. intros n Hn. rewrite !Z.land_spec, !Z.lxor_spec, !Z.land_spec.
  by destruct (Z.testbit a n), (Z.testbit b n), (Z.testbit 255 n).
Qed.
Lemma xor_bytes_byte a b : Forall is_byte a -> Forall is_byte b -> Forall is_byte (xor_bytes a b).
Proof.
  intros Ha. revert b; induction Ha as [|x a Hx _ IH]; intros b Hb; [constructor|].
  destruct Hb as [|y b Hy Hb]; [constructor|]. constructor; [by apply is_byte_lxor|by apply IH].
Qed.
Lemma sbox_byte b : is_byte (sbox b).
Proof.
  unfold sbox. assert (Forall is_byte sbox_table) as H.
  { apply (Forall_impl (fun b => is_true ((0 <=? b) && (b <? 256)))).
    - apply forallb_Forall. by vm_compute.
    - intros x Hx. apply andb_true_iff in Hx as [??]. bsimp. unfold is_byte. lia. }
  destruct (nth_in_or_default (Z.to_nat b) sbox_table 0) as [Hin| ->]; [|unfold is_byte; lia].
  rewrite Forall_forall in H. by apply H, list_elem_of_In.
Qed.
Lemma map_sbox_byte l : Forall is_byte (map sbox l).
Proof. apply Forall_forall. intros x (y&->&_)%list_elem_of_fmap. apply sbox_byte. Qed.
Lemma xtime_byte b : is_byte b -> is_byte (xtime b).
Proof.
  intros H. unfold xtime. cbv zeta. destruct (Z.leb_spec 256 (2 * b)); unfold is_byte in *; [|lia].
  apply is_byte_lxor; unfold is_byte; lia.
Qed.
Lemma nth_byte_list n w : Forall (Forall is_byte) w -> Forall is_byte (nth n w []).
Proof.
  intros H. destruct (nth_in_or_default n w []) as [Hin| ->]; [|constructor].
  rewrite Forall_forall in H. by apply H, list_elem_of_In.
Qed.
Lemma expand_byte n i rcon w : is_byte rcon -> Forall (Forall is_byte) w -> Forall (Forall is_byte) (expand n i rcon w).
Proof.
  revert i rcon w; induction n as [|n IH]; intros i rcon w Hr Hw; [done|]. cbn [expand].
  pose proof (nth_byte_list 7 w Hw) as H7.
  repeat case_match; apply IH; try done; try (by apply xtime_byte); constructor; try done; apply xor_bytes_byte; try done.
  - apply xor_bytes_byte; [apply map_sbox_byte|]. repeat constructor; unfold is_byte in *; lia.
  - apply map_sbox_byte.
  - by apply nth_byte_list.
Qed.
Lemma chunks_byte n k l : Forall is_byte l -> Forall (Forall is_byte) (chunks n k l).
Proof.
  revert l; induction k as [|k IH]; intros l Hl; [constructor|]. cbn [chunks]. destruct l as [|x l']; [constructor|].
  constructor; [by apply Forall_take|]. apply IH. by apply Forall_drop.
Qed.
Lemma Forall_rev_iff {A} (P : A -> Prop) l : Forall P (rev l) <-> Forall P l.
Proof. rewrite !Forall_forall. setoid_rewrite list_elem_of_In. setoid_rewrite <- in_rev. done. Qed.
Lemma round_keys_byte key : Forall is_byte key -> Forall (Forall is_byte) (round_keys key).
Proof.
  intros Hk. unfold round_keys. apply chunks_byte.
  assert (Forall (Forall is_byte) (rev (expand 52 8 1 (rev (chunks 4 8 key))))) as H.
  { apply Forall_rev_iff, expand_byte; [unfold is_byte; lia|]. by apply Forall_rev_iff, chunks_byte. }
  clear -H. induction H as [|x l Hx _ IH]; [constructor|]. cbn [concat]. by apply Forall_app.
Qed.
Lemma encrypt_with_byte keys block : Forall (Forall is_byte) keys -> Forall is_byte (encrypt_with keys block).
Proof.
  intros Hk. unfold encrypt_with. cbv zeta. apply xor_bytes_byte; [|by apply nth_byte_list].
  unfold shift_rows. apply Forall_forall. intros x (i&->&_)%list_elem_of_fmap.
  match goal with |- is_byte (nth i ?l 0) => destruct (nth_in_or_default i l 0) as [Hin| ->] end; [|unfold is_byte; lia].
  apply list_elem_of_In in Hin. pose proof (map_sbox_byte) as H. setoid_rewrite Forall_forall in H. by eapply H.
Qed.
Lemma to_bytes_byte n z : Forall is_byte (to_bytes n z).
Proof.
  apply Forall_forall. intros x (i&->&_)%list_elem_of_fmap. apply is_byte_land.
  by rewrite <- Z.land_assoc, Z.land_diag.
Qed.
Lemma key_stream_byte n keys nonce ctr : Forall (Forall is_byte) keys -> Forall is_byte (key_stream n keys nonce ctr).
Proof.
  intros Hk. revert ctr; induction n as [|n IH]; intros ctr; [constructor|]. cbn [key_stream].
  apply Forall_app. split; [by apply encrypt_with_byte|done].
Qed.
Lemma Seal_byte key nonce plaintext aad : Forall is_byte key -> Forall is_byte plaintext ->
  Forall is_byte (Seal key nonce plaintext aad).
Proof.
  intros Hk%round_keys_byte Hp. unfold Seal. cbv zeta. apply Forall_app. split.
  - unfold ctr_crypt. apply xor_bytes_byte; [done|]. by apply Forall_take, key_stream_byte.
  - unfold gcm_tag. cbv zeta. apply xor_bytes_byte; [apply to_bytes_byte|by apply encrypt_with_byte].
Qed.
(** What is sealed is a text as long as the plaintext and a 16-byte tag, which open together. *)
Lemma Seal_parts key nonce plaintext aad : length key = 32%nat -> Forall is_byte key -> Forall is_byte plaintext ->
  exists c t, take (length (Seal key nonce plaintext aad) - 16) (Seal key nonce plaintext aad) = c
    /\ drop (length (Seal key nonce plaintext aad) - 16) (Seal key nonce plaintext aad) = t
    /\ Forall is_byte c /\ Forall is_byte t /\ length c = length plaintext /\ length t = 16%nat
    /\ Open key nonce (c ++ t) aad = Some plaintext.
Proof.
  intros Hk Hb Hp. pose proof (Seal_byte key nonce plaintext aad Hb Hp) as Hs.
  pose proof (Seal_length key nonce plaintext aad Hk) as Hl. pose proof (Open_Seal key nonce plaintext aad Hk) as Ho.
  set (sealed := Seal _ _ _ _) in *. clearbody sealed. do 2 eexists. split; [done|]. split; [done|].
  rewrite <- (take_drop (length sealed - 16) sealed), Forall_app in Hs. destruct Hs as [Hc Ht].
  do 2 (split; [done|]). rewrite length_take, length_drop, Hl, take_drop. repeat split; [lia..|done].
Qed.
