(* ===== verification/Timestamp.v ===== *)
(** * Timestamp keys (sqlitedb/timestamp.go)

    SQLite stores instants as text and compares them bytewise; [EncodeTimestamp]
    must therefore be an order embedding. Seconds are an [int64], nanoseconds an
    [int32]. *)

From S2P Require Import Prelude GoStrings.
From stdpp Require Import options.
#[local] Open Scope Z_scope.

Inductive Timestamp : Type :=
| NullTimestamp
| NegativeInfinity
| PositiveInfinity
| FiniteTimestamp (Seconds Nanos : Z).

#[global] Instance Timestamp_eq_dec : EqDecision Timestamp.
Proof. solve_decision. Defined.

(** The Go types [int64] and [int32] of the two fields. *)
Definition in_types (t : Timestamp) : Prop :=
  match t with
  | FiniteTimestamp s n => - 2 ^ 63 <= s < 2 ^ 63 /\ - 2 ^ 31 <= n < 2 ^ 31
  | _ => True
  end.

Definition timestampBias : Z := 2 ^ 63.
(** Conversions [uint64(v)] and [int64(v)]. *)
Definition uint64_of (z : Z) : Z := z mod 2 ^ 64.
Definition int64_of (z : Z) : Z :=
  let u := z mod 2 ^ 64 in if u <? 2 ^ 63 then u else u - 2 ^ 64.

Definition digit (z : Z) : ascii := byte_of (48 + z).
(** [%0wd] of a value below [10^w]. *)
Fixpoint fmt_0d (w : nat) (z : Z) : string :=
  match w with
  | O => EmptyString
  | S w => String (digit (z / 10 ^ Z.of_nat w)) (fmt_0d w (z mod 10 ^ Z.of_nat w))
  end.
(** The value of a string of decimal digits, [None] on any other byte. *)
Fixpoint parse_dec_from (acc : Z) (s : string) : option Z :=
  match s with
  | EmptyString => Some acc
  | String c s => if is_digit c then parse_dec_from (acc * 10 + (code c - 48)) s else None
  end.
Definition ParseUint (s : string) (bits : Z) : option Z :=
  v ← parse_dec_from 0 s; if v <? 2 ^ bits then Some v else None.

Inductive ts_error : Type := ErrNanos | ErrNoncanonical | ErrBiasedSeconds.
#[global] Instance ts_error_eq_dec : EqDecision ts_error.
Proof. solve_decision. Defined.

(** [None] is SQL NULL. *)
Definition EncodeTimestamp (value : Timestamp) : result ts_error (option string) :=
  match value with
  | NullTimestamp => Ok None
  | NegativeInfinity => Ok (Some "0")
  | PositiveInfinity => Ok (Some "2")
  | FiniteTimestamp s n =>
      if (n <? 0) || (999999999 <? n) then Err ErrNanos
      else Ok (Some ("1" +:+ fmt_0d 20 (Z.lxor (uint64_of s) timestampBias) +:+ "." +:+ fmt_0d 9 n))
  end.

(** The groups of [^1([0-9]{20})\.([0-9]{9})$]. *)
Definition finiteTimestampKey (key : string) : option (string * string) :=
  let secs := take_s 20 (drop_s 1 key) in
  let nanos := drop_s 22 key in
  if HasPrefix key "1" && (String.length secs =? 20)%nat && sall is_digit secs
     && HasPrefix (drop_s 21 key) "." && (String.length nanos =? 9)%nat && sall is_digit nanos
  then Some (secs, nanos) else None.

Definition DecodeTimestamp (key : option string) : result ts_error Timestamp :=
  match key with
  | None => Ok NullTimestamp
  | Some key =>
      if (key =? "0")%go then Ok NegativeInfinity
      else if (key =? "2")%go then Ok PositiveInfinity
      else match finiteTimestampKey key with
      | None => Err ErrNoncanonical
      | Some (p1, p2) =>
          if negb (String.length key =? 31)%nat then Err ErrNoncanonical else
          match ParseUint p1 64 with
          | None => Err ErrBiasedSeconds
          | Some biased =>
              match ParseUint p2 32 with
              | None => Err ErrNoncanonical
              | Some nanos => Ok (FiniteTimestamp (int64_of (Z.lxor biased timestampBias)) nanos)
              end
          end
      end
  end.

(** ** Decimal digits *)
Lemma code_digit z : 0 <= z < 10 -> code (digit z) = 48 + z.
Proof. intros. unfold digit. apply code_byte_of. lia. Qed.

Lemma pow10_pos w : 0 < 10 ^ Z.of_nat w.
Proof. apply Z.pow_pos_nonneg; lia. Qed.
Lemma pow10_S w : 10 ^ Z.of_nat (S w) = 10 * 10 ^ Z.of_nat w.
Proof. rewrite Nat2Z.inj_succ, Z.pow_succ_r by lia. done. Qed.
Lemma digit_bound w z : 0 <= z < 10 ^ Z.of_nat (S w) -> 0 <= z / 10 ^ Z.of_nat w < 10.
Proof.
  rewrite pow10_S. pose proof (pow10_pos w). intros. split; [by apply Z.div_pos; lia|].
  apply Z.div_lt_upper_bound; lia.
Qed.
Lemma mod_bound w z : 0 <= z mod 10 ^ Z.of_nat w < 10 ^ Z.of_nat w.
Proof. apply Z.mod_pos_bound, pow10_pos. Qed.

Lemma length_fmt_0d w z : String.length (fmt_0d w z) = w.
Proof. revert z; induction w; intros; simpl; auto. Qed.

Lemma is_digit_digit z : 0 <= z < 10 -> is_digit (digit z) = true.
Proof. intros. unfold is_digit, in_range. rewrite code_digit by done. apply andb_true_iff. lia. Qed.

Lemma fmt_0d_digits w z : 0 <= z < 10 ^ Z.of_nat w -> sall is_digit (fmt_0d w z) = true.
Proof.
  revert z; induction w as [|w IH]; intros z Hz; [done|]. cbn [fmt_0d sall].
  rewrite is_digit_digit by (by apply digit_bound). by rewrite IH by apply mod_bound.
Qed.

Lemma parse_fmt_0d w z acc : 0 <= z < 10 ^ Z.of_nat w ->
  parse_dec_from acc (fmt_0d w z) = Some (acc * 10 ^ Z.of_nat w + z).
Proof.
  revert z acc; induction w as [|w IH]; intros z acc Hz.
  - cbn in *. f_equal. lia.
  - cbn [fmt_0d parse_dec_from]. pose proof (digit_bound w z Hz).
    rewrite is_digit_digit, code_digit, IH by (done || apply mod_bound). f_equal.
    rewrite pow10_S. pose proof (pow10_pos w).
    rewrite (Z.div_mod z (10 ^ Z.of_nat w)) at 3 by lia. ring.
Qed.

(** Fixed-width decimals compare like the numbers they print. *)
Lemma Compare_fmt_0d w a b s t :
  0 <= a < 10 ^ Z.of_nat w -> 0 <= b < 10 ^ Z.of_nat w ->
  Compare (fmt_0d w a +:+ s) (fmt_0d w b +:+ t) =
  match a ?= b with Eq => Compare s t | c => c end.
Proof.
  revert a b; induction w as [|w IH]; intros a b Ha Hb.
  - simpl in Ha, Hb. assert (a = 0 /\ b = 0) as [-> ->] by lia. done.
  - cbn [fmt_0d]. simpl String.append. cbn [Compare].
    pose proof (digit_bound w a Ha). pose proof (digit_bound w b Hb).
    rewrite !code_digit by done. rewrite IH by apply mod_bound.
    pose proof (pow10_pos w) as Hp.
    pose proof (Z.div_mod a (10 ^ Z.of_nat w) ltac:(lia)) as Hda.
    pose proof (Z.div_mod b (10 ^ Z.of_nat w) ltac:(lia)) as Hdb.
    pose proof (mod_bound w a). pose proof (mod_bound w b).
    set (p := 10 ^ Z.of_nat w) in *. clearbody p.
    generalize dependent (a / p). generalize dependent (a mod p).
    generalize dependent (b / p). generalize dependent (b mod p). intros rb Hrb qb ? ? ra Hra qa ? ?.
    subst a b.
    destruct (Z.compare_spec (48 + qa) (48 + qb)) as [Hq|Hq|Hq].
    + assert (qa = qb) as -> by lia. destruct (Z.compare_spec ra rb), (Z.compare_spec (p * qb + ra) (p * qb + rb));
        try done; lia.
    + symmetry. destruct (Z.compare_spec (p * qa + ra) (p * qb + rb)); try done; nia.
    + symmetry. destruct (Z.compare_spec (p * qa + ra) (p * qb + rb)); try done; nia.
Qed.

(** ** The sign bias *)
Lemma land_bias v : 0 <= v < 2 ^ 63 -> Z.land v timestampBias = 0.
Proof.
  intros Hv. apply Z.bits_inj'. intros n Hn. rewrite Z.land_spec, Z.bits_0.
  unfold timestampBias. rewrite Z.pow2_bits_eqb by lia.
  destruct (Z.eqb_spec 63 n) as [<-|]; [|by rewrite andb_false_r].
  destruct (decide (v = 0)) as [->|]; [by rewrite Z.bits_0|].
  rewrite Z.bits_above_log2; [done|lia|]. apply Z.log2_lt_pow2; lia.
Qed.
Lemma lxor_bias_low v : 0 <= v < 2 ^ 63 -> Z.lxor v timestampBias = v + 2 ^ 63.
Proof. intros. rewrite <- Z.add_nocarry_lxor by (by apply land_bias). done. Qed.
Lemma lxor_bias_high v : 0 <= v < 2 ^ 63 -> Z.lxor (v + 2 ^ 63) timestampBias = v.
Proof.
  intros. rewrite <- lxor_bias_low by done.
  by rewrite Z.lxor_assoc, Z.lxor_nilpotent, Z.lxor_0_r.
Qed.

Lemma biased_seconds s : - 2 ^ 63 <= s < 2 ^ 63 -> Z.lxor (uint64_of s) timestampBias = s + 2 ^ 63.
Proof.
  intros. unfold uint64_of. destruct (decide (s < 0)).
  - replace (s mod 2 ^ 64) with ((s + 2 ^ 63) + 2 ^ 63).
    + rewrite lxor_bias_high; lia.
    + replace (s + 2 ^ 63 + 2 ^ 63) with (s + 1 * 2 ^ 64) by lia.
      rewrite <- (Z_mod_plus_full s 1). symmetry. apply Z.mod_small. lia.
  - rewrite Z.mod_small by lia. apply lxor_bias_low. lia.
Qed.
Lemma unbiased_seconds b : 0 <= b < 2 ^ 64 -> int64_of (Z.lxor b timestampBias) = b - 2 ^ 63.
Proof.
  intros. unfold int64_of. destruct (decide (b < 2 ^ 63)).
  - rewrite lxor_bias_low by lia. rewrite Z.mod_small by lia.
    destruct (Z.ltb_spec (b + 2 ^ 63) (2 ^ 63)); lia.
  - assert (Z.lxor b timestampBias = b - 2 ^ 63) as ->.
    { rewrite <- (lxor_bias_high (b - 2 ^ 63)) by lia. f_equal. lia. }
    rewrite Z.mod_small by lia. destruct (Z.ltb_spec (b - 2 ^ 63) (2 ^ 63)); lia.
Qed.

(** ** The key of a finite instant *)
Definition finite_key (b n : Z) : string := "1" +:+ fmt_0d 20 b +:+ "." +:+ fmt_0d 9 n.

Lemma sep_take (w : nat) b (rest : string) : take_s w (fmt_0d w b +:+ rest) = fmt_0d w b.
Proof. pose proof (take_s_app (fmt_0d w b) rest) as H. by rewrite length_fmt_0d in H. Qed.
Lemma sep_drop (w : nat) b (rest : string) : drop_s w (fmt_0d w b +:+ rest) = rest.
Proof. pose proof (drop_s_app (fmt_0d w b) rest) as H. by rewrite length_fmt_0d in H. Qed.

Lemma finite_key_groups b n :
  0 <= b < 10 ^ 20 -> 0 <= n < 10 ^ 9 ->
  finiteTimestampKey (finite_key b n) = Some (fmt_0d 20 b, fmt_0d 9 n).
Proof.
  intros Hb Hn. unfold finiteTimestampKey, finite_key.
  change (drop_s 1 ("1" +:+ fmt_0d 20 b +:+ "." +:+ fmt_0d 9 n)) with (fmt_0d 20 b +:+ "." +:+ fmt_0d 9 n).
  change (drop_s 21 ("1" +:+ fmt_0d 20 b +:+ "." +:+ fmt_0d 9 n)) with (drop_s 20 (fmt_0d 20 b +:+ "." +:+ fmt_0d 9 n)).
  change (drop_s 22 ("1" +:+ fmt_0d 20 b +:+ "." +:+ fmt_0d 9 n)) with (drop_s 21 (fmt_0d 20 b +:+ "." +:+ fmt_0d 9 n)).
  rewrite sep_take, sep_drop.
  replace (fmt_0d 20 b +:+ "." +:+ fmt_0d 9 n) with ((fmt_0d 20 b +:+ ".") +:+ fmt_0d 9 n) by apply app_assoc_s.
  pose proof (drop_s_app (fmt_0d 20 b +:+ ".") (fmt_0d 9 n)) as Hd.
  rewrite length_app_s, length_fmt_0d in Hd. change (20 + String.length ".")%nat with 21%nat in Hd. rewrite Hd.
  rewrite !length_fmt_0d. rewrite (fmt_0d_digits 20 b) by exact Hb. rewrite (fmt_0d_digits 9 n) by exact Hn. done.
Qed.

Definition ts_valid (t : Timestamp) : bool :=
  match t with FiniteTimestamp _ n => (0 <=? n) && (n <=? 999999999) | _ => true end.

Lemma Encode_finite s n : 0 <= n <= 999999999 -> - 2 ^ 63 <= s < 2 ^ 63 ->
  EncodeTimestamp (FiniteTimestamp s n) = Ok (Some (finite_key (s + 2 ^ 63) n)).
Proof.
  intros Hn Hs. unfold EncodeTimestamp.
  destruct (Z.ltb_spec n 0); [lia|]. destruct (Z.ltb_spec 999999999 n); [lia|]. simpl orb. cbv iota.
  by rewrite biased_seconds.
Qed.

Lemma ParseUint_fmt w z bits : 0 <= z < 10 ^ Z.of_nat w -> z < 2 ^ bits ->
  ParseUint (fmt_0d w z) bits = Some z.
Proof.
  intros. unfold ParseUint. rewrite parse_fmt_0d by done. simpl. rewrite Z.mul_0_l, Z.add_0_l.
  by destruct (Z.ltb_spec z (2 ^ bits)); [|lia].
Qed.

Lemma Decode_finite_key b n : 0 <= b < 2 ^ 64 -> 0 <= n <= 999999999 ->
  DecodeTimestamp (Some (finite_key b n)) = Ok (FiniteTimestamp (b - 2 ^ 63) n).
Proof.
  intros Hb Hn. unfold DecodeTimestamp.
  assert (String.length (finite_key b n) = 31%nat) as Hl.
  { unfold finite_key. rewrite !length_app_s, !length_fmt_0d. done. }
  destruct (String.eqb_spec (finite_key b n) "0") as [H|]; [by rewrite H in Hl|].
  destruct (String.eqb_spec (finite_key b n) "2") as [H|]; [by rewrite H in Hl|].
  rewrite finite_key_groups, Hl by lia. simpl negb. cbv iota.
  rewrite (ParseUint_fmt 20 b) by (simpl Z.of_nat; lia).
  rewrite (ParseUint_fmt 9 n) by (simpl Z.of_nat; lia). by rewrite unbiased_seconds.
Qed.

(** ** Reading a key back *)
Lemma parse_dec_from_spec acc s v : sall is_digit s = true -> 0 <= acc ->
  parse_dec_from acc s = Some v ->
  exists z, 0 <= z < 10 ^ Z.of_nat (String.length s) /\
            v = acc * 10 ^ Z.of_nat (String.length s) + z /\ fmt_0d (String.length s) z = s.
Proof.
  revert acc v; induction s as [|c s IH]; intros acc v Hd Hacc H; simpl in Hd, H.
  - injection H as <-. exists 0. repeat split; simpl; lia.
  - bsimp. destruct (is_digit c) eqn:Hc; [|done].
    assert (48 <= code c <= 57) as Hr by (unfold is_digit, in_range in Hc; bsimp; lia).
    apply IH in H as (z&Hz&->&Hs); [|done|lia].
    exists ((code c - 48) * 10 ^ Z.of_nat (String.length s) + z).
    pose proof (pow10_pos (String.length s)) as Hp. cbn [String.length fmt_0d]. rewrite pow10_S.
    set (p := 10 ^ Z.of_nat (String.length s)) in *. split; [nia|]. split; [ring|].
    rewrite Z.div_add_l, Z.div_small by lia. rewrite Z.add_0_r.
    rewrite Z.add_comm, Z_mod_plus_full, Z.mod_small by done. rewrite Hs. f_equal.
    apply code_inj. rewrite code_digit by lia. lia.
Qed.

Lemma ParseUint_spec s bits v : sall is_digit s = true -> ParseUint s bits = Some v ->
  0 <= v < 2 ^ bits /\ v < 10 ^ Z.of_nat (String.length s) /\ fmt_0d (String.length s) v = s.
Proof.
  unfold ParseUint. intros Hs H. destruct (parse_dec_from 0 s) as [w|] eqn:Hp; [|done].
  simpl in H. destruct (Z.ltb_spec w (2 ^ bits)); [|done]. injection H as ->.
  apply parse_dec_from_spec in Hp as (z&Hz&->&He); [|done..]. repeat split; [lia..|exact He].
Qed.

Lemma finiteTimestampKey_spec key p1 p2 : finiteTimestampKey key = Some (p1, p2) ->
  key = "1" +:+ p1 +:+ "." +:+ p2 /\ String.length p1 = 20%nat /\ String.length p2 = 9%nat /\
  sall is_digit p1 = true /\ sall is_digit p2 = true.
Proof.
  unfold finiteTimestampKey. case_match eqn:Hg; [|done]. intros E.
  assert (p1 = take_s 20 (drop_s 1 key) /\ p2 = drop_s 22 key) as [-> ->] by (split; congruence). clear E.
  rewrite !andb_true_iff, !Nat.eqb_eq in Hg. destruct Hg as (((((Hp&H20)&Hd1)&Hdot)&H9)&Hd2).
  repeat split; try done.
  apply HasPrefix_spec in Hp as [t ->].
  change (drop_s 1 ("1" +:+ t)) with t in *. change (drop_s 21 ("1" +:+ t)) with (drop_s 20 t) in *.
  change (drop_s 22 ("1" +:+ t)) with (drop_s 21 t) in *.
  apply HasPrefix_spec in Hdot as [u Hu].
  assert (drop_s 21 t = drop_s 1 (drop_s 20 t)) as ->.
  { clear. generalize 20%nat. intros n. revert t.
    induction n as [|n IH]; intros [|c t]; try done. exact (IH t). }
  rewrite <- (take_drop_s 20 t) at 1. by rewrite Hu.
Qed.

(** ** Properties *)

(** Instants before all others, in time order, after all others. *)
Definition ts_compare (a b : Timestamp) : comparison :=
  match a, b with
  | FiniteTimestamp s n, FiniteTimestamp s' n' => match s ?= s' with Eq => n ?= n' | c => c end
  | NegativeInfinity, NegativeInfinity | PositiveInfinity, PositiveInfinity => Eq
  | NegativeInfinity, _ | _, PositiveInfinity => Lt
  | _, _ => Gt
  end.

Lemma Decode_Encode t key : in_types t -> EncodeTimestamp t = Ok key -> DecodeTimestamp key = Ok t.
Proof.
  destruct t as [| | |s n]; simpl in_types; intros Ht H; try (injection H as <-; reflexivity).
  unfold EncodeTimestamp in H. case_match eqn:Hn; [done|]. bsimp.
  rewrite biased_seconds in H by lia.
  assert (key = Some (finite_key (s + 2 ^ 63) n)) as -> by (unfold finite_key; congruence). rewrite Decode_finite_key by lia. do 2 f_equal. lia.
Qed.

Lemma Encode_Decode key t : DecodeTimestamp key = Ok t -> in_types t /\ EncodeTimestamp t = Ok key.
Proof.
  destruct key as [key|]; [|by intros [= <-]]. unfold DecodeTimestamp.
  destruct (String.eqb_spec key "0") as [->|]; [by intros [= <-]|].
  destruct (String.eqb_spec key "2") as [->|]; [by intros [= <-]|].
  destruct (finiteTimestampKey key) as [[p1 p2]|] eqn:Hk; [|done].
  destruct (negb _); [done|]. apply finiteTimestampKey_spec in Hk as (->&Hl1&Hl2&Hd1&Hd2).
  destruct (ParseUint p1 64) as [b|] eqn:Hb; [|done].
  destruct (ParseUint p2 32) as [ns|] eqn:Hn; [|done]. intros [= <-].
  apply ParseUint_spec in Hb as (Hb&_&He1); [|done].
  apply ParseUint_spec in Hn as (Hn&Hn9&He2); [|done].
  rewrite Hl1 in He1. rewrite Hl2 in He2, Hn9. change (10 ^ Z.of_nat 9) with 1000000000 in Hn9.
  rewrite unbiased_seconds by done. split; [simpl; lia|].
  rewrite Encode_finite by lia. unfold finite_key.
  replace (b - 2 ^ 63 + 2 ^ 63) with b by lia. by rewrite He1, He2.
Qed.

Lemma Encode_order a b ka kb : in_types a -> in_types b ->
  EncodeTimestamp a = Ok (Some ka) -> EncodeTimestamp b = Ok (Some kb) ->
  Compare ka kb = ts_compare a b.
Proof.
  assert (forall t k, in_types t -> EncodeTimestamp t = Ok (Some k) ->
    match t with
    | NullTimestamp => False | NegativeInfinity => k = "0" | PositiveInfinity => k = "2"
    | FiniteTimestamp s n => k = finite_key (s + 2 ^ 63) n /\ 0 <= n <= 999999999 /\ - 2 ^ 63 <= s < 2 ^ 63
    end) as Hk.
  { intros [| | |s n] k Ht H; cbn [in_types EncodeTimestamp] in Ht, H; try congruence.
    case_match eqn:E; [done|]. bsimp. rewrite biased_seconds in H by lia.
    split; [unfold finite_key; congruence|lia]. }
  intros Ha Hb Hka%Hk Hkb%Hk; [|done..].
  destruct a as [| | |s n], b as [| | |s' n']; try done; subst; try done;
    try (destruct Hka as (->&?&?)); try (destruct Hkb as (->&?&?)); try done.
  unfold finite_key. change (Compare ("1" +:+ ?x) ("1" +:+ ?y)) with (Compare x y).
  rewrite Compare_fmt_0d by (simpl Z.of_nat; lia). simpl ts_compare.
  rewrite (Z.add_comm s), (Z.add_comm s'), Z.add_compare_mono_l.
  destruct (s ?= s'); try done.
  change (Compare ("." +:+ ?x) ("." +:+ ?y)) with (Compare x y).
  rewrite <- (app_nil_r_s (fmt_0d 9 n)), <- (app_nil_r_s (fmt_0d 9 n')).
  rewrite Compare_fmt_0d by (simpl Z.of_nat; lia). by destruct (n ?= n').
Qed.

(** Encoding and decoding are inverse to each other: a timestamp reads back as
    itself, and every accepted key is the encoding of what it decodes to. *)
Theorem timestamp_roundtrip :
  (forall t key, in_types t -> EncodeTimestamp t = Ok key -> DecodeTimestamp key = Ok t)
  /\ (forall key t, DecodeTimestamp key = Ok t -> in_types t /\ EncodeTimestamp t = Ok key).
Proof. split; [apply Decode_Encode|apply Encode_Decode]. Qed.

(** The bytewise order of two keys is the order of the instants they encode. *)
Theorem timestamp_order a b ka kb : in_types a -> in_types b ->
  EncodeTimestamp a = Ok (Some ka) -> EncodeTimestamp b = Ok (Some kb) -> Compare ka kb = ts_compare a b.
Proof. apply Encode_order. Qed.
