(* ===== verification/GoTime.v ===== *)
(** * Instants and their RFC 3339 texts

    [time.Time] in UTC as its Unix time in nanoseconds, [Format] and [Parse] of Go's
    [time] package for the layout RFC3339Nano. [Parse] is the library's general
    reader: an hour may have one digit, the fraction follows a point or a comma and
    is cut after nine digits, an offset may be of 24 hours or 60 minutes.
    What is formatted in the years 0 to 9999 is read back. *)

From S2P Require Import Prelude GoStrings StrFacts Timestamp.
From stdpp Require Import options.

Definition instant := Z.
Definition zero_instant : instant := (- 62135596800 * 10 ^ 9)%Z.
Definition Nanos : Z := 10 ^ 9.

(** ** The Gregorian calendar *)
(** The date of a day number (day 0 is 1970-01-01), and the day number of a date. *)
Definition civil (days : Z) : Z * Z * Z :=
  (let z := days + 719468 in
   let era := z / 146097 in
   let doe := z mod 146097 in
   let yoe := (doe - doe / 1460 + doe / 36524 - doe / 146096) / 365 in
   let doy := doe - (365 * yoe + yoe / 4 - yoe / 100) in
   let mp := (5 * doy + 2) / 153 in
   let d := doy - (153 * mp + 2) / 5 + 1 in
   let m := if mp <? 10 then mp + 3 else mp - 9 in
   (yoe + era * 400 + (if m <=? 2 then 1 else 0), m, d))%Z.
Definition days_of (y m d : Z) : Z :=
  (let y := if m <=? 2 then y - 1 else y in
   let era := y / 400 in
   let yoe := y mod 400 in
   let mp := if m <=? 2 then m + 9 else m - 3 in
   let doy := (153 * mp + 2) / 5 + d - 1 in
   era * 146097 + (yoe * 365 + yoe / 4 - yoe / 100 + doy) - 719468)%Z.
Definition leap (y : Z) : bool := ((y mod 4 =? 0) && (negb (y mod 100 =? 0) || (y mod 400 =? 0)))%Z.
Definition daysIn (m y : Z) : Z :=
  (if m =? 2 then if leap y then 29 else 28
   else if (m =? 4) || (m =? 6) || (m =? 9) || (m =? 11) then 30 else 31)%Z.

Definition year_of (t : instant) : Z := (civil (t / (86400 * 10 ^ 9))).1.1.

(** ** Formatting: trailing zeros of the fraction are dropped *)
Definition rfc3339nano (t : instant) : string :=
  let '(y, m, d) := civil (t / (86400 * 10 ^ 9))%Z in
  let ns := (t mod (86400 * 10 ^ 9))%Z in
  let sec := (ns / 10 ^ 9)%Z in
  let frac := (ns mod 10 ^ 9)%Z in
  fmt_0d 4 y +:+ "-" +:+ fmt_0d 2 m +:+ "-" +:+ fmt_0d 2 d +:+ "T"
  +:+ fmt_0d 2 (sec / 3600) +:+ ":" +:+ fmt_0d 2 (sec / 60 mod 60) +:+ ":" +:+ fmt_0d 2 (sec mod 60)
  +:+ (if (frac =? 0)%Z then "" else "." +:+ TrimRightChar (fmt_0d 9 frac) "0") +:+ "Z".

(** ** Reading *)
Definition skip (p v : string) : option string := if HasPrefix v p then Some (drop_s (String.length p) v) else None.
(** [n] decimal digits. *)
Definition getdigits (n : nat) (v : string) : option (Z * string) :=
  if (String.length v <? n)%nat then None else
  x ← parse_dec_from 0 (take_s n v); Some (x, drop_s n v).
(** [getnum]: two digits, or one when [fixed] is false. *)
Definition getnum (fixed : bool) (v : string) : option (Z * string) :=
  match getdigits 2 v with
  | Some r => Some r
  | None => if fixed then None else getdigits 1 v
  end.
Fixpoint span_digits (v : string) : string * string :=
  match v with
  | String c r => if is_digit c then let '(a, b) := span_digits r in (String c a, b) else ("", v)
  | "" => ("", "")
  end.
Definition pad_nanos (digits : string) : string := take_s 9 (digits +:+ "000000000").
Definition read_fraction (v : string) : option (Z * string) :=
  match v with
  | String c (String d _ as r) =>
      if (ascii_eqb c "." || ascii_eqb c ",") && is_digit d then
        let '(digits, rest) := span_digits r in
        ns ← parse_dec_from 0 (pad_nanos digits);
        Some (ns, rest)
      else Some (0%Z, v)
  | _ => Some (0%Z, v)
  end.
(** The offset east of UTC, in seconds. *)
Definition read_zone (v : string) : option (Z * string) :=
  match v with
  | String "Z" v => Some (0%Z, v)
  | String s v =>
      if negb (ascii_eqb s "+" || ascii_eqb s "-") then None else
      '(hr, v) ← getnum true v;
      v ← skip ":" v;
      '(mm, v) ← getnum true v;
      if (24 <? hr)%Z || (60 <? mm)%Z then None else
      let offset := ((hr * 60 + mm) * 60)%Z in
      Some (if ascii_eqb s "-" then (- offset)%Z else offset, v)
  | "" => None
  end.
Definition time_Parse (value : string) : option instant :=
  '(year, v) ← getdigits 4 value;
  v ← skip "-" v;
  '(month, v) ← getnum true v;
  if (month <=? 0)%Z || (12 <? month)%Z then None else
  v ← skip "-" v;
  '(day, v) ← getnum true v;
  v ← skip "T" v;
  '(hour, v) ← getnum false v;
  if (24 <=? hour)%Z then None else
  v ← skip ":" v;
  '(minute, v) ← getnum true v;
  if (60 <=? minute)%Z then None else
  v ← skip ":" v;
  '(second, v) ← getnum true v;
  if (60 <=? second)%Z then None else
  '(nanos, v) ← read_fraction v;
  '(offset, v) ← read_zone v;
  if negb (v =? "") then None else
  if (day <? 1)%Z || (daysIn month year <? day)%Z then None else
  Some (((days_of year month day * 86400 + hour * 3600 + minute * 60 + second - offset) * 10 ^ 9 + nanos)%Z).

Example parse_examples :
  map time_Parse ["2026-01-02T03:04:05Z"; "2026-01-02T3:04:05,1234567891Z"; "2024-02-29T00:00:00-24:60"; "2023-02-29T00:00:00Z";
                  "1970-01-01T00:00:00.5+01:00"; "2026-01-02T03:04:05"; "0001-01-01T00:00:00Z"]
  = [Some 1767323045000000000%Z; Some 1767323045123456789%Z; Some 1709254800000000000%Z; None;
     Some (-3599500000000)%Z; None; Some zero_instant].
Proof. by vm_compute. Qed.

(** ** The calendar round trip *)
Lemma yoe_bounds doe : (0 <= doe < 146097)%Z ->
  let yoe := ((doe - doe / 1460 + doe / 36524 - doe / 146096) / 365)%Z in
  let doy := (doe - (365 * yoe + yoe / 4 - yoe / 100))%Z in
  (0 <= yoe <= 399 /\ 0 <= doy <= 365
   /\ (doy = 365 -> yoe = 399 \/ (yoe + 1) mod 4 = 0 /\ (yoe + 1) mod 100 <> 0))%Z.
Proof. cbv zeta. intros H. Z.to_euclidean_division_equations. lia. Qed.
Lemma civil_back days : let '(y, m, d) := civil days in
  days_of y m d = days /\ (1 <= m <= 12 /\ 1 <= d <= daysIn m y)%Z.
Proof.
  unfold civil. set (z := (days + 719468)%Z). set (doe := (z mod 146097)%Z). set (era := (z / 146097)%Z).
  assert (0 <= doe < 146097)%Z as Hdoe by (apply Z.mod_pos_bound; lia).
  assert (z = era * 146097 + doe)%Z as Hz by (subst doe era; pose proof (Z.div_mod z 146097); lia).
  destruct (yoe_bounds doe Hdoe) as (Hy&Hd&Hl). revert Hy Hd Hl. cbv zeta.
  set (yoe := ((doe - doe / 1460 + doe / 36524 - doe / 146096) / 365)%Z).
  set (doy := (doe - (365 * yoe + yoe / 4 - yoe / 100))%Z). intros Hy Hd Hl.
  assert (doe = yoe * 365 + yoe / 4 - yoe / 100 + doy)%Z as Hdec by (subst doy; lia).
  clearbody doe era doy. clearbody yoe. set (mp := ((5 * doy + 2) / 153)%Z).
  assert (0 <= mp <= 11 /\ (153 * mp + 2) / 5 <= doy)%Z as [Hmp Hmd]
    by (subst mp; Z.to_euclidean_division_equations; lia).
  assert (mp = 11 -> doy - 337 <= 28)%Z as Hfeb by lia.
  assert (mp <= 10 -> doy - (153 * mp + 2) / 5 <= 30)%Z as Hlong by (subst mp; Z.to_euclidean_division_equations; lia).
  assert (mp = 1 \/ mp = 3 \/ mp = 6 \/ mp = 8 -> doy - (153 * mp + 2) / 5 <= 29)%Z as Hshort
    by (subst mp; Z.to_euclidean_division_equations; lia).
  clearbody mp. split.
  - unfold days_of. destruct (Z.ltb_spec mp 10); destruct (Z.leb_spec (if true then mp + 3 else 0) 2)%Z; try lia.
    all: try replace (mp + 3 <=? 2)%Z with false by lia; try replace (mp - 9 <=? 2)%Z with true by lia; cbv zeta.
    + replace (yoe + era * 400 + 0)%Z with (yoe + era * 400)%Z by lia.
      rewrite Z.div_add, Z.mod_add, Z.div_small, Z.mod_small by lia. replace (mp + 3 - 3)%Z with mp by lia. lia.
    + replace (yoe + era * 400 + 1 - 1)%Z with (yoe + era * 400)%Z by lia.
      rewrite Z.div_add, Z.mod_add, Z.div_small, Z.mod_small by lia. replace (mp - 9 + 9)%Z with mp by lia. lia.
  - split; [destruct (Z.ltb_spec mp 10); lia|]. split; [lia|]. unfold daysIn.
    assert (mp = 11 -> doy = 365 -> leap (yoe + era * 400 + 1) = true)%Z as Hleap.
    { intros _ E. unfold leap. destruct (Hl E) as [E1|[E1 E2]].
      - subst yoe. replace (399 + era * 400 + 1)%Z with ((era + 1) * 400)%Z by lia. rewrite (Z.mod_mul (era + 1) 400) by lia.
        replace ((era + 1) * 400)%Z with ((era + 1) * 100 * 4)%Z by lia. by rewrite Z.mod_mul, orb_true_r.
      - replace (yoe + era * 400 + 1)%Z with (yoe + 1 + (era * 100) * 4)%Z by lia. rewrite Z.mod_add, E1 by lia.
        replace (yoe + 1 + (era * 100) * 4)%Z with (yoe + 1 + (era * 4) * 100)%Z by lia. rewrite Z.mod_add by lia.
        by rewrite (proj2 (Z.eqb_neq _ _) E2). }
    destruct (Z.ltb_spec mp 10); match goal with |- context [(?a <=? 2)%Z] => destruct (Z.leb_spec a 2) end; try lia.
    all: repeat match goal with |- context [(?a =? ?b)%Z] => destruct (Z.eqb_spec a b) end; cbn [orb]; try lia.
    assert (mp = 11)%Z as -> by lia. change ((153 * 11 + 2) / 5)%Z with 337%Z.
    destruct (leap _) eqn:E; [lia|]. destruct (Z.eq_dec doy 365%Z) as [Hd'|]; [|lia].
    by specialize (Hleap eq_refl Hd').
Qed.

(** ** Texts are read back *)
Fixpoint rep (n : nat) (c : ascii) : string := match n with O => "" | S n => String c (rep n c) end.
Lemma rep_app n m c : rep (n + m) c = rep n c +:+ rep m c.
Proof. induction n as [|n IH]; [done|]. cbn. by rewrite IH. Qed.
Lemma length_rep n c : String.length (rep n c) = n.
Proof. induction n as [|n IH]; [done|]. cbn. by rewrite IH. Qed.
Lemma trim_rep c s : exists n, s = TrimRightChar s c +:+ rep n c.
Proof.
  induction s as [|s d [n IH]] using string_snoc_ind; [by exists 0|]. unfold TrimRightChar in *. rewrite TrimRight_snoc.
  destruct (ascii_eqb c d) eqn:E; [|exists 0; by rewrite app_nil_r_s].
  apply ascii_eqb_eq in E as <-. exists (n + 1). by rewrite rep_app, <- app_assoc_s, <- IH.
Qed.
Lemma pad_trim w z : w = 9 -> pad_nanos (TrimRightChar (fmt_0d w z) "0") = fmt_0d w z.
Proof.
  intros Hw. destruct (trim_rep "0" (fmt_0d w z)) as [n Hn]. set (t := TrimRightChar (fmt_0d w z) "0") in *.
  assert (String.length t + n = 9) as Hl by (by rewrite <- Hw, <- (length_fmt_0d w z), Hn, length_app_s, length_rep).
  unfold pad_nanos. change "000000000" with (rep 9 "0"). rewrite <- Hl at 2. rewrite (Nat.add_comm (String.length t)), rep_app.
  rewrite <- app_assoc_s, <- Hn. pose proof (take_s_app (fmt_0d w z) (rep (String.length t) "0")) as E.
  rewrite length_fmt_0d in E. rewrite <- E at 2. by rewrite Hw.
Qed.
Lemma skip_app p s : skip p (p +:+ s) = Some s.
Proof. unfold skip. by rewrite (proj2 (HasPrefix_spec _ p) (ex_intro _ s eq_refl)), drop_s_app. Qed.
Lemma getdigits_fmt w z s : (0 <= z < 10 ^ Z.of_nat w)%Z -> getdigits w (fmt_0d w z +:+ s) = Some (z, s).
Proof.
  intros Hz. unfold getdigits. rewrite length_app_s, length_fmt_0d.
  destruct (Nat.ltb_spec (w + String.length s) w); [lia|].
  pose proof (take_s_app (fmt_0d w z) s) as E1. pose proof (drop_s_app (fmt_0d w z) s) as E2.
  rewrite length_fmt_0d in E1, E2. by rewrite E1, E2, parse_fmt_0d.
Qed.
Lemma getnum_fmt f z s : (0 <= z < 100)%Z -> getnum f (fmt_0d 2 z +:+ s) = Some (z, s).
Proof. intros Hz. unfold getnum. by rewrite (getdigits_fmt 2 z s Hz). Qed.
Lemma span_digits_app ds c s : sall is_digit ds = true -> is_digit c = false -> span_digits (ds +:+ String c s) = (ds, String c s).
Proof.
  intros H Hc. induction ds as [|d ds IH]; cbn in *; [by rewrite Hc|]. apply andb_true_iff in H as [-> H]. by rewrite IH.
Qed.
Lemma sall_trim p c s : sall p s = true -> sall p (TrimRightChar s c) = true.
Proof. destruct (trim_rep c s) as [n Hn]. rewrite Hn at 1. rewrite sall_app. by intros [? _]%andb_true_iff. Qed.
Lemma read_fraction_back frac : (0 <= frac < 10 ^ 9)%Z ->
  read_fraction ((if (frac =? 0)%Z then "" else "." +:+ TrimRightChar (fmt_0d 9 frac) "0") +:+ "Z") = Some (frac, "Z").
Proof.
  intros Hf. destruct (Z.eqb_spec frac 0) as [->|Hne]; [done|]. pose proof (pad_trim 9 frac eq_refl) as Hp.
  pose proof (sall_trim is_digit "0" (fmt_0d 9 frac) (fmt_0d_digits 9 frac Hf)) as Hd.
  destruct (TrimRightChar (fmt_0d 9 frac) "0") as [|d t] eqn:Et.
  { exfalso. apply Hne. apply (f_equal (parse_dec_from 0)) in Hp. rewrite parse_fmt_0d in Hp by done. vm_compute in Hp. injection Hp. lia. }
  cbn [String.append read_fraction]. assert (Hd' := Hd). cbn in Hd'. apply andb_true_iff in Hd' as [-> _].
  rewrite ascii_eqb_refl. cbn [orb andb]. change (String d (t +:+ "Z")) with (String d t +:+ "Z").
  rewrite (span_digits_app (String d t) "Z" "") by done. rewrite Hp, parse_fmt_0d by done. cbn. do 2 f_equal.
Qed.

(** The text of an instant of the years 0 to 9999, and its parts. *)
Definition date_text (y m d h mi s frac : Z) : string :=
  fmt_0d 4 y +:+ "-" +:+ fmt_0d 2 m +:+ "-" +:+ fmt_0d 2 d +:+ "T"
  +:+ fmt_0d 2 h +:+ ":" +:+ fmt_0d 2 mi +:+ ":" +:+ fmt_0d 2 s
  +:+ (if (frac =? 0)%Z then "" else "." +:+ TrimRightChar (fmt_0d 9 frac) "0") +:+ "Z".
Record date_parts (t y m d h mi s frac : Z) : Prop := mkParts {
  dp_year : (0 <= y <= 9999)%Z; dp_month : (1 <= m <= 12)%Z; dp_day : (1 <= d <= daysIn m y)%Z; dp_hour : (0 <= h < 24)%Z;
  dp_minute : (0 <= mi < 60)%Z; dp_second : (0 <= s < 60)%Z; dp_nanos : (0 <= frac < 10 ^ 9)%Z;
  dp_value : t = ((days_of y m d * 86400 + h * 3600 + mi * 60 + s) * 10 ^ 9 + frac)%Z;
  dp_text : rfc3339nano t = date_text y m d h mi s frac }.
Lemma rfc3339_parts t : (0 <= year_of t <= 9999)%Z -> exists y m d h mi s frac, date_parts t y m d h mi s frac.
Proof.
  unfold year_of. set (D := (86400 * 10 ^ 9)%Z). pose proof (civil_back (t / D)) as Hb.
  destruct (civil (t / D)) as [[y m] d] eqn:Eciv. destruct Hb as (Hday&Hm&Hd). cbn [fst]. intros Hy.
  assert (0 <= t mod D < D)%Z as Hns by (apply Z.mod_pos_bound; done). pose proof (Z.div_mod t D ltac:(done)) as Ht.
  set (ns := (t mod D)%Z) in *. set (sec := (ns / 10 ^ 9)%Z). set (frac := (ns mod 10 ^ 9)%Z).
  assert (0 <= frac < 10 ^ 9)%Z as Hfrac by (apply Z.mod_pos_bound; done).
  assert (ns = sec * 10 ^ 9 + frac)%Z as Hsplit by (subst sec frac; pose proof (Z.div_mod ns (10 ^ 9)); lia).
  assert (0 <= sec < 86400)%Z as Hsec by (subst D; lia).
  assert (0 <= sec / 3600 < 24 /\ 0 <= sec / 60 mod 60 < 60 /\ 0 <= sec mod 60 < 60
    /\ sec = sec / 3600 * 3600 + sec / 60 mod 60 * 60 + sec mod 60)%Z as (Hh&Hmi&Hs&Hclock)
    by (clearbody sec; Z.to_euclidean_division_equations; lia).
  exists y, m, d, (sec / 3600)%Z, (sec / 60 mod 60)%Z, (sec mod 60)%Z, frac. constructor; try done.
  - rewrite Hday. subst D. lia.
  - unfold rfc3339nano, date_text. change (86400 * 10 ^ 9)%Z with D. by rewrite Eciv.
Qed.

(** An instant of the years 0 to 9999 is read back from its text. *)
Theorem time_Parse_format t : (0 <= year_of t <= 9999)%Z -> time_Parse (rfc3339nano t) = Some t.
Proof.
  intros (y&m&d&h&mi&s&frac&[Hy Hm Hd Hh Hmi Hs Hf Hv Ht])%rfc3339_parts. rewrite Ht. clear Ht.
  assert (daysIn m y <= 31)%Z as Hd31 by (unfold daysIn; repeat case_match; lia).
  unfold time_Parse, date_text. rewrite getdigits_fmt by (cbn; lia).
  repeat first [ progress cbn [mbind option_bind] | rewrite skip_app | rewrite getnum_fmt by lia
    | rewrite (proj2 (Z.leb_gt _ _)) by lia | rewrite (proj2 (Z.ltb_ge _ _)) by lia | progress cbn [orb]
    | rewrite read_fraction_back by done ].
  cbn [read_zone mbind option_bind negb String.eqb]. f_equal. lia.
Qed.
(** Its characters are ASCII, and it is not empty. *)
Lemma date_text_ascii y m d h mi s frac t : date_parts t y m d h mi s frac ->
  sall (in_range 32 126) (date_text y m d h mi s frac) = true.
Proof.
  intros [Hy Hm Hd Hh Hmi Hs Hf _ _]. assert (daysIn m y <= 31)%Z as Hd31 by (unfold daysIn; repeat case_match; lia).
  assert (forall w z, (0 <= z < 10 ^ Z.of_nat w)%Z -> sall (in_range 32 126) (fmt_0d w z) = true) as Hfmt.
  { intros w z Hz. eapply sall_impl; [|by apply fmt_0d_digits]. intros c. unfold is_digit, in_range. rewrite !andb_true_iff. lia. }
  unfold date_text. rewrite !sall_app, !Hfmt by (cbn; lia). destruct (Z.eqb_spec frac 0); [done|].
  rewrite !sall_app, sall_trim by (by apply Hfmt). done.
Qed.
