(* ===== verification/Identity.v ===== *)
(** * Installation identity (domain/identity.go, sqlitedb/write.go NewUUID)

    Roles, installation and node identifiers, leadership generations and
    snapshot versions. Go's string types are strings: any text can be stored in
    them, and [IsValid] says which are meant. *)

From S2P Require Import Prelude GoStrings Json.
From stdpp Require Import options.

(** ** Topology roles *)
Definition TopologyRole := string.
Definition TopologyRoleStandalone : TopologyRole := "standalone-primary".
Definition TopologyRolePrimary : TopologyRole := "primary".
Definition TopologyRolePrimaryWithNodes : TopologyRole := "primary-with-nodes".
Definition TopologyRoleNode : TopologyRole := "node".
Definition TopologyRoleStalePrimary : TopologyRole := "stale-primary".

Definition knownTopologyRoles : list TopologyRole :=
  [TopologyRoleStandalone; TopologyRolePrimary; TopologyRolePrimaryWithNodes;
   TopologyRoleNode; TopologyRoleStalePrimary].
Definition TopologyRole_IsValid (r : TopologyRole) : bool := existsb (String.eqb r) knownTopologyRoles.

(** ** Identifiers *)
Definition hex_byte (b : Z) : string := String (hex_digit (b / 16)) (char (hex_digit (b mod 16))).
Definition hex_bytes (l : list Z) : string := foldr (fun b acc => hex_byte b +:+ acc) "" l.

(** RFC 4122 version 4 layout of 16 random bytes. *)
Definition v4_layout (b : list Z) : list Z :=
  alter (fun x => Z.lor (Z.land x 63) 128) 8 (alter (fun x => Z.lor (Z.land x 15) 64) 6 b).
Definition slice (lo hi : nat) (b : list Z) : list Z := take (hi - lo) (drop lo b).
Definition format_uuid (b : list Z) : string :=
  hex_bytes (slice 0 4 b) +:+ "-" +:+ hex_bytes (slice 4 6 b) +:+ "-" +:+ hex_bytes (slice 6 8 b) +:+ "-"
  +:+ hex_bytes (slice 8 10 b) +:+ "-" +:+ hex_bytes (slice 10 16 b).

(** The argument is what [rand.Read] filled in. *)
Definition NewInstallationID (b : list Z) : string := ToLower (format_uuid (v4_layout b)).
Definition NewNodeID (b : list Z) : string := NewInstallationID b.
Definition NewUUID (b : list Z) : string := format_uuid (v4_layout b).

Definition lower_hex (c : ascii) : bool := is_digit c || in_range 97 102 c.
Definition char_at (s : string) (i : nat) (c : ascii) : bool :=
  match drop_s i s with String d _ => ascii_eqb d c | _ => false end.
Definition hyphen_at (i : nat) : bool := (i =? 8)%nat || (i =? 13)%nat || (i =? 18)%nat || (i =? 23)%nat.
Fixpoint hex_outside_hyphens (i : nat) (s : string) : bool :=
  match s with
  | EmptyString => true
  | String c s => (hyphen_at i || lower_hex c) && hex_outside_hyphens (S i) s
  end.
Definition InstallationID_IsValid (s : string) : bool :=
  (String.length s =? 36)%nat
  && (char_at s 8 "-" && char_at s 13 "-" && char_at s 18 "-" && char_at s 23 "-")
  && hex_outside_hyphens 0 s
  && char_at s 14 "4"
  && (char_at s 19 "8" || char_at s 19 "9" || char_at s 19 "a" || char_at s 19 "b").
Definition NodeID_IsValid (s : string) : bool := InstallationID_IsValid s.

(** [uuidPattern] of the worker stores: any lower-case UUID. *)
Definition uuidPattern (s : string) : bool :=
  (String.length s =? 36)%nat
  && (char_at s 8 "-" && char_at s 13 "-" && char_at s 18 "-" && char_at s 23 "-")
  && hex_outside_hyphens 0 s.

(** ** Generations and versions *)
Definition MaxUint64 : Z := 2 ^ 64 - 1.
(** [Next] panics on overflow: [None]. *)
Definition LeadershipGeneration_Next (g : Z) : option Z :=
  if (g =? MaxUint64)%Z then None else Some (g + 1)%Z.
Definition SnapshotVersionV1 : Z := 1.
Definition ReplicationVersionV1 : Z := 1.
Definition SnapshotVersion_IsValid (v : Z) : bool := negb (v =? 0)%Z.
Definition ReplicationVersion_IsValid (v : Z) : bool := negb (v =? 0)%Z.

(** ** Generated identifiers are valid *)
Definition byte (b : Z) : Prop := (0 <= b < 256)%Z.
Definition all_bytes : list Z := seqZ 0 256.

(** A boolean fact about bytes, checked on all of them. *)
Lemma byte_forallb (P : Z -> bool) : forallb P all_bytes = true -> forall b, byte b -> P b = true.
Proof.
  rewrite forallb_Forall, Forall_forall. intros H b Hb. apply H, elem_of_seqZ. unfold byte in Hb. lia.
Qed.

Definition hex2 (b : Z) : bool := lower_hex (hex_digit (b / 16)) && lower_hex (hex_digit (b mod 16)).
Lemma hex_byte_ok b : byte b -> hex2 b = true.
Proof. revert b. apply byte_forallb. by vm_compute. Qed.
Lemma hex_byte_parts b : byte b ->
  lower_hex (hex_digit (b / 16)) = true /\ lower_hex (hex_digit (b mod 16)) = true.
Proof. intros H%hex_byte_ok. unfold hex2 in H. by bsimp. Qed.

Definition version_ok (x : Z) : bool :=
  let b := Z.lor (Z.land x 15) 64 in ascii_eqb (hex_digit (b / 16)) "4" && bool_decide (0 <= b < 256)%Z.
Definition variant_ok (x : Z) : bool :=
  let b := Z.lor (Z.land x 63) 128 in
  (ascii_eqb (hex_digit (b / 16)) "8" || ascii_eqb (hex_digit (b / 16)) "9"
   || ascii_eqb (hex_digit (b / 16)) "a" || ascii_eqb (hex_digit (b / 16)) "b")
  && bool_decide (0 <= b < 256)%Z.
Lemma version_bits x : byte x -> version_ok x = true.
Proof. revert x. apply byte_forallb. by vm_compute. Qed.
Lemma variant_bits x : byte x -> variant_ok x = true.
Proof. revert x. apply byte_forallb. by vm_compute. Qed.

Lemma lower_hex_ToLower s : sall (fun c => lower_hex c || ascii_eqb c "-") s = true -> ToLower s = s.
Proof.
  assert (forall c, lower_hex c || ascii_eqb c "-" = true -> lower_char c = c /\ (code c <? 128)%Z = true) as Hc.
  { intros c. destruct c as [[] [] [] [] [] [] [] []]; vm_compute; (done || intros [=]). }
  induction s as [|a s IH]; [done|]. cbn [sall]. intros H. bsimp.
  apply Hc in H as [Hl Ha]. bsimp. specialize (IH H0).
  assert (ToLower (String a s) = String (lower_char a) (ToLower s)) as ->; [|by rewrite Hl, IH].
  destruct s as [|b [|c s]]; cbn [ToLower].
  - done.
  - destruct (Z.eqb_spec (code a) 196); [lia|done].
  - destruct (Z.eqb_spec (code a) 196); [lia|]. destruct (Z.eqb_spec (code a) 226); [lia|done].
Qed.

Ltac by_hex_facts :=
  repeat match goal with
    | H : lower_hex ?d = true |- context [lower_hex ?d] => rewrite H
    | |- context [hyphen_at ?n] => let b := eval compute in (hyphen_at n) in change (hyphen_at n) with b
    end;
  cbn [andb orb].

Lemma NewUUID_shape b : length b = 16 -> Forall byte b ->
  InstallationID_IsValid (NewUUID b) = true /\ ToLower (NewUUID b) = NewUUID b.
Proof.
  intros Hl Hb.
  do 16 (destruct b as [|? b]; [done|]). destruct b as [|]; [|done]. clear Hl.
  repeat match goal with H : Forall _ (_ :: _) |- _ => apply Forall_cons in H as [? H] end.
  unfold NewUUID, format_uuid, v4_layout.
  cbn -[hex_digit Z.div Z.modulo Z.lor Z.land InstallationID_IsValid ToLower].
  match goal with |- context [hex_digit (Z.lor (Z.land ?x 15) 64 / 16)] =>
    pose proof (version_bits x ltac:(assumption)) as Hver end.
  match goal with |- context [hex_digit (Z.lor (Z.land ?x 63) 128 / 16)] =>
    pose proof (variant_bits x ltac:(assumption)) as Hvar end.
  unfold version_ok, variant_ok in Hver, Hvar. cbv zeta in Hver, Hvar.
  apply andb_true_iff in Hver as [Hver Hb6%bool_decide_eq_true].
  apply andb_true_iff in Hvar as [Hvar Hb8%bool_decide_eq_true].
  change (byte (Z.lor (Z.land z5 15) 64)) in Hb6. change (byte (Z.lor (Z.land z7 63) 128)) in Hb8.
  set (v6 := Z.lor (Z.land z5 15) 64) in *. set (v8 := Z.lor (Z.land z7 63) 128) in *.
  repeat match goal with H : byte _ |- _ => apply hex_byte_parts in H as [? ?] end.
  split.
  - unfold InstallationID_IsValid. cbn -[hex_digit Z.div Z.modulo lower_hex ascii_eqb].
    by_hex_facts. by rewrite Hver, Hvar.
  - apply lower_hex_ToLower. cbn -[hex_digit Z.div Z.modulo lower_hex ascii_eqb]. by_hex_facts. done.
Qed.

Theorem NewInstallationID_valid b : length b = 16 -> Forall byte b ->
  InstallationID_IsValid (NewInstallationID b) = true /\ uuidPattern (NewUUID b) = true.
Proof.
  intros Hl Hb. destruct (NewUUID_shape b Hl Hb) as [Hv Ht]. change (NewInstallationID b) with (ToLower (NewUUID b)).
  rewrite Ht. split; [done|]. unfold InstallationID_IsValid in Hv. 
  apply andb_true_iff in Hv as [Hv _]. by apply andb_true_iff in Hv as [Hv _].
Qed.
