(* ===== verification/Topology.v ===== *)
(** * Topology state machine (cluster/state.go)

    [Transition] judges a proposed role change; it does not perform it. *)

From S2P Require Import Prelude GoStrings Identity.
From stdpp Require Import options.

Inductive topology_error : Type := ErrInvalidStateTransition | ErrLeadershipRegression.
#[global] Instance topology_error_eq_dec : EqDecision topology_error.
Proof. solve_decision. Defined.

Record TransitionInput := mkTransition {
  From : TopologyRole; To : TopologyRole; FromGeneration : Z; ToGeneration : Z }.

(** The transition matrix. *)
Definition isAllowedTransition (from to : TopologyRole) : bool :=
  if from =? TopologyRoleStandalone then to =? TopologyRoleNode
  else if from =? TopologyRolePrimary then
    (to =? TopologyRolePrimaryWithNodes) || (to =? TopologyRoleStalePrimary) || (to =? TopologyRoleNode)
  else if from =? TopologyRolePrimaryWithNodes then
    (to =? TopologyRolePrimary) || (to =? TopologyRoleStalePrimary) || (to =? TopologyRoleNode)
  else if from =? TopologyRoleNode then to =? TopologyRolePrimary
  else if from =? TopologyRoleStalePrimary then
    (to =? TopologyRolePrimary) || (to =? TopologyRoleNode)
  else false.

Definition Transition (i : TransitionInput) : result topology_error unit :=
  if negb (TopologyRole_IsValid (From i)) then Err ErrInvalidStateTransition
  else if negb (TopologyRole_IsValid (To i)) then Err ErrInvalidStateTransition
  else if From i =? To i then Ok tt
  else if (ToGeneration i <? FromGeneration i)%Z then Err ErrLeadershipRegression
  else if negb (isAllowedTransition (From i) (To i)) then Err ErrInvalidStateTransition
  else Ok tt.

Definition AllowedTransitions (from : TopologyRole) : list TopologyRole :=
  if negb (TopologyRole_IsValid from) then [] else
  List.filter (fun role => negb (role =? from) && isAllowedTransition from role)
    [TopologyRoleStandalone; TopologyRolePrimary; TopologyRolePrimaryWithNodes;
     TopologyRoleNode; TopologyRoleStalePrimary].

(** An installation whose role and generation change by accepted transitions. *)
Record topology := { t_role : TopologyRole; t_gen : Z }.
Inductive topology_step : topology -> topology -> Prop :=
| step_transition r g r' g' :
    Transition (mkTransition r r' g g') = Ok tt ->
    topology_step {| t_role := r; t_gen := g |} {| t_role := r'; t_gen := g' |}.

(** ** Lemmas *)
Lemma valid_role_cases r : TopologyRole_IsValid r = true ->
  r ∈ knownTopologyRoles.
Proof.
  unfold TopologyRole_IsValid. rewrite existsb_elem.
  intros (x&Hx&Hr). apply String.eqb_eq in Hr. by subst.
Qed.

Ltac known_role r :=
  match goal with H : TopologyRole_IsValid r = true |- _ =>
    apply valid_role_cases in H; unfold knownTopologyRoles in H;
    rewrite ?elem_of_cons, ?elem_of_nil in H; destruct H as [-> | [-> | [-> | [-> | [-> | []]]]]]
  end.

Lemma Transition_Ok i : Transition i = Ok tt <->
  TopologyRole_IsValid (From i) = true /\ TopologyRole_IsValid (To i) = true /\
  (From i = To i \/
   (FromGeneration i <= ToGeneration i)%Z /\ isAllowedTransition (From i) (To i) = true).
Proof.
  destruct i as [f t g g']. unfold Transition; simpl.
  destruct (TopologyRole_IsValid f); simpl; [|naive_solver].
  destruct (TopologyRole_IsValid t); simpl; [|naive_solver].
  destruct (String.eqb_spec f t); [naive_solver|].
  destruct (Z.ltb_spec g' g); [split; [done|]; intros (_&_&[?|[??]]); [done|lia]|].
  destruct (isAllowedTransition f t); simpl; naive_solver.
Qed.

Lemma allowed_valid from to : isAllowedTransition from to = true ->
  TopologyRole_IsValid from = true /\ TopologyRole_IsValid to = true.
Proof.
  unfold isAllowedTransition. intros H.
  repeat match type of H with
    | (if ?s =? ?t then _ else _) = true => destruct (String.eqb_spec s t) as [-> |]
    end; try done; repeat (apply orb_true_iff in H as [H|H]); apply String.eqb_eq in H as ->; done.
Qed.

(** ** Properties *)

(** The advertised roles are the roles a request at the same generation may move to. *)
Theorem AllowedTransitions_spec from to g : from <> to ->
  to ∈ AllowedTransitions from <-> Transition (mkTransition from to g g) = Ok tt.
Proof.
  intros Hne. rewrite Transition_Ok; simpl. unfold AllowedTransitions.
  destruct (TopologyRole_IsValid from) eqn:Hf; simpl negb; cbv iota; [|set_solver].
  rewrite list_elem_of_In, filter_In, <- list_elem_of_In, andb_true_iff, negb_true_iff, String.eqb_neq.
  split.
  - intros (_&_&Ha). pose proof (allowed_valid _ _ Ha). naive_solver lia.
  - intros (_&Ht&[?|[_ Ha]]); [done|]. split; [|naive_solver].
    by apply valid_role_cases in Ht.
Qed.

(** Leaving the standalone role is final. *)
Lemma standalone_left s s' : rtc topology_step s s' ->
  t_role s <> TopologyRoleStandalone -> t_role s' <> TopologyRoleStandalone.
Proof.
  induction 1 as [s|s m s' [r g r' g' Hs] _ IH]; [done|]; simpl in *.
  apply Transition_Ok in Hs as (Hr&_&Hc); simpl in *. intros Hn. apply IH. destruct Hc as [<-|[_ Ha]]; [done|]. intros ->.
  unfold isAllowedTransition in Ha. known_role r; done.
Qed.
Lemma standalone_origin s s' : rtc topology_step s s' -> t_role s' = TopologyRoleStandalone -> t_role s = TopologyRoleStandalone.
Proof.
  intros H Hs. destruct (String.eqb_spec (t_role s) TopologyRoleStandalone) as [|Hn]; [done|].
  by apply (standalone_left _ _ H) in Hn.
Qed.
Lemma to_node r g : TopologyRole_IsValid r = true ->
  rtc topology_step {| t_role := r; t_gen := g |} {| t_role := TopologyRoleNode; t_gen := g |}.
Proof.
  intros Hr. apply rtc_once. constructor. apply Transition_Ok; cbn. split; [done|]. split; [done|].
  known_role r; try (right; split; [lia|done]). by left.
Qed.
Lemma from_node r g : r <> TopologyRoleStandalone -> TopologyRole_IsValid r = true ->
  rtc topology_step {| t_role := TopologyRoleNode; t_gen := g |} {| t_role := r; t_gen := g |}.
Proof.
  intros Hn Hr. assert (topology_step {| t_role := TopologyRoleNode; t_gen := g |} {| t_role := TopologyRolePrimary; t_gen := g |}) as Hp.
  { constructor. apply Transition_Ok; cbn. split; [done|]. split; [done|]. right. split; [lia|done]. }
  known_role r; [done|by apply rtc_once| |by apply rtc_refl|];
    (eapply rtc_l; [exact Hp|apply rtc_once; constructor; apply Transition_Ok; cbn; split; [done|]; split; [done|]; right; split; [lia|done]]).
Qed.

(** The roles an installation can come to have: its own, and every role but
    standalone, which nothing returns to; no change of generation is needed. *)
Theorem topology_reachable r r' g : TopologyRole_IsValid r = true -> TopologyRole_IsValid r' = true ->
  (exists g', rtc topology_step {| t_role := r; t_gen := g |} {| t_role := r'; t_gen := g' |})
  <-> (r = r' \/ r' <> TopologyRoleStandalone).
Proof.
  intros Hr Hr'. split.
  - intros [g' H]. destruct (String.eqb_spec r' TopologyRoleStandalone) as [-> |]; [|by right]. left.
    exact (standalone_origin _ _ H eq_refl).
  - intros [<-|Hn]; exists g; [done|]. etransitivity; [by apply to_node|by apply from_node].
Qed.

Theorem Transition_monotonic r r' g g' : r <> r' ->
  Transition (mkTransition r r' g g') = Ok tt -> (g <= g')%Z.
Proof. rewrite Transition_Ok; simpl. naive_solver. Qed.

(** A same-role request is accepted whatever the generations are, a lower one included. *)
Theorem same_role_regression r g g' : TopologyRole_IsValid r = true ->
  Transition (mkTransition r r g g') = Ok tt.
Proof. intros. apply Transition_Ok; simpl. auto. Qed.
