(* ===== verification/GoNet.v ===== *)
(** * Literal IP addresses

    The acceptance condition of Go's [net.ParseIP] ([netip.ParseAddr] without a
    zone) and [ipVersion] of domain/dns.go on top of it. *)

From S2P Require Import Prelude GoStrings.
From stdpp Require Import options.

(** [parseIPv4Fields]: [first] holds at the start of a field. *)
Fixpoint ipv4_fields (first : bool) (val digLen : Z) (pos : nat) (s : string) : bool :=
  match s with
  | EmptyString => (pos =? 3)%nat
  | String c s =>
      if is_digit c then
        if (digLen =? 1)%Z && (val =? 0)%Z then false else
        let val := (val * 10 + (code c - 48))%Z in
        if (255 <? val)%Z then false else ipv4_fields false val (digLen + 1) pos s
      else if ascii_eqb c "." then
        if first || (s =? "") then false
        else if (pos =? 3)%nat then false
        else ipv4_fields true 0 0 (S pos) s
      else false
  end.
(** An empty text has no dot and is rejected before this point ([ParseIP]). *)
Definition ipv4_ok (s : string) : bool := ipv4_fields true 0 0 0 s.

Definition is_hex (c : ascii) : bool := is_digit c || in_range 97 102 c || in_range 65 70 c.
(** Hex digits at the front of a group and the rest of the text. *)
Fixpoint hex_prefix (s : string) : nat * string :=
  match s with
  | String c s' => if is_hex c then let '(n, r) := hex_prefix s' in (S n, r) else (0, s)
  | EmptyString => (0, EmptyString)
  end.

(** The end of [parseIPv6]: [i] bytes parsed, [ellipsis] seen. *)
Definition ipv6_end (i : nat) (ellipsis : bool) : bool :=
  if (i <? 16)%nat then ellipsis else negb ellipsis.
Fixpoint ipv6_groups (fuel i : nat) (ellipsis : bool) (s : string) : bool :=
  match fuel with
  | O => (s =? "") && ipv6_end i ellipsis
  | S fuel =>
      let '(off, r) := hex_prefix s in
      if (4 <? off)%nat || (off =? 0)%nat then false else
      match r with
      | EmptyString => ipv6_end (i + 2) ellipsis
      | String c r' =>
          if ascii_eqb c "." then
            if negb ellipsis && negb (i =? 12)%nat then false
            else if (16 <? i + 4)%nat then false
            else ipv4_fields true 0 0 0 s && ipv6_end (i + 4) ellipsis
          else if negb (ascii_eqb c ":") then false
          else match r' with
          | EmptyString => false
          | String d r'' =>
              if ascii_eqb d ":" then
                if ellipsis then false
                else if r'' =? "" then ipv6_end (i + 2) true
                else ipv6_groups fuel (i + 2) true r''
              else ipv6_groups fuel (i + 2) ellipsis r'
          end
      end
  end.
(** Each group takes two of the sixteen bytes, so eight rounds are enough. *)
Definition ipv6_ok (s : string) : bool :=
  if HasPrefix s "::" then
    let r := drop_s 2 s in (r =? "") || ipv6_groups 8 0 true r
  else ipv6_groups 8 0 false s.

Fixpoint parse_addr (s rest : string) : bool :=
  match rest with
  | EmptyString => false
  | String c rest =>
      if ascii_eqb c "." then ipv4_ok s
      else if ascii_eqb c ":" then negb (ContainsChar s "%") && ipv6_ok s
      else if ascii_eqb c "%" then false
      else parse_addr s rest
  end.
Definition ParseIP (s : string) : bool := parse_addr s s.

(** [ipVersion] mirrors node's [isIP]: 4, 6 or 0. *)
Definition ipVersion (value : string) : Z :=
  if negb (ParseIP value) then 0 else if ContainsChar value ":" then 6 else 4.

(** ** Lemmas *)
Definition ip_char (c : ascii) : bool := is_hex c || one_of ":." c.

Lemma ipv4_fields_chars f v d p s : ipv4_fields f v d p s = true -> sall ip_char s = true.
Proof.
  revert f v d p. induction s as [|c s IH]; intros f v d p; [done|]. cbn [ipv4_fields sall].
  unfold ip_char at 1, is_hex.
  destruct (is_digit c) eqn:Hd; cbn [orb andb].
  - destruct (_ && _)%bool; [done|]. destruct (255 <? _)%Z; [done|]. apply IH.
  - destruct (ascii_eqb c ".") eqn:Hc; [|done]. apply ascii_eqb_eq in Hc as ->.
    destruct (_ || _)%bool; [done|]. destruct (p =? 3)%nat; [done|]. intros ?%IH. done.
Qed.

Lemma hex_prefix_chars s n r : hex_prefix s = (n, r) ->
  sall ip_char r = true -> sall ip_char s = true.
Proof.
  revert n r. induction s as [|c s IH]; intros n r; cbn [hex_prefix]; [by intros [= <- <-]|].
  destruct (is_hex c) eqn:Hc; [|by intros [= <- <-]].
  destruct (hex_prefix s) as [n' r'] eqn:Hs. intros [= <- <-] Hr.
  cbn [sall]. unfold ip_char at 1. rewrite Hc. eauto.
Qed.

Lemma ipv6_groups_chars n i e s : ipv6_groups n i e s = true -> sall ip_char s = true.
Proof.
  revert i e s. induction n as [|n IH]; intros i e s; cbn [ipv6_groups].
  - destruct (String.eqb_spec s ""); [by subst|done].
  - destruct (hex_prefix s) as [off r] eqn:Hp. destruct (_ || _)%bool; [done|].
    destruct r as [|c r']; [intros _; by eapply hex_prefix_chars|].
    destruct (ascii_eqb c ".") eqn:Hc.
    + destruct (_ && _)%bool; [done|]. destruct (16 <? _)%nat; [done|].
      intros [H _]%andb_true_iff. by eapply ipv4_fields_chars.
    + destruct (ascii_eqb c ":") eqn:Hc'; cbn [negb]; [|done]. apply ascii_eqb_eq in Hc' as ->.
      destruct r' as [|d r'']; [done|].
      intros H. eapply hex_prefix_chars; [exact Hp|]. cbn [sall]. change (ip_char ":") with true.
      destruct (ascii_eqb d ":") eqn:Hd.
      * apply ascii_eqb_eq in Hd as ->. destruct e; [done|].
        destruct (String.eqb_spec r'' ""); [by subst|]. by apply IH in H.
      * by apply IH in H.
Qed.

Lemma parse_addr_chars s r : parse_addr s r = true -> sall ip_char s = true.
Proof.
  induction r as [|c r IH]; cbn [parse_addr]; [done|].
  destruct (ascii_eqb c "."); [apply ipv4_fields_chars|].
  destruct (ascii_eqb c ":"); [|destruct (ascii_eqb c "%"); [done|exact IH]].
  intros [_ H]%andb_true_iff. unfold ipv6_ok in H.
  destruct (HasPrefix s "::") eqn:Hp; [|by eapply ipv6_groups_chars].
  apply HasPrefix_spec in Hp as [t ->]. cbn [String.append drop_s] in *.
  apply orb_true_iff in H as [->%String.eqb_eq|H]; [done|].
  apply ipv6_groups_chars in H. by cbn [sall].
Qed.

(** An accepted address is made of hex digits, colons and dots. *)
Lemma ipVersion_chars s : (0 < ipVersion s)%Z -> sall ip_char s = true.
Proof.
  unfold ipVersion. destruct (ParseIP s) eqn:H; cbn [negb]; [|lia].
  intros _. by eapply parse_addr_chars.
Qed.

Lemma ipVersion_cases s : ipVersion s = 0%Z \/ ipVersion s = 4%Z \/ ipVersion s = 6%Z.
Proof. unfold ipVersion. repeat case_goal; auto. Qed.

Lemma ipVersion_4 s : ipVersion s = 4%Z <-> ParseIP s = true /\ ContainsChar s ":" = false.
Proof. unfold ipVersion. destruct (ParseIP s), (ContainsChar s ":"); naive_solver. Qed.
Lemma ipVersion_6 s : ipVersion s = 6%Z <-> ParseIP s = true /\ ContainsChar s ":" = true.
Proof. unfold ipVersion. destruct (ParseIP s), (ContainsChar s ":"); naive_solver. Qed.

Example ip_examples :
  map ipVersion ["10.0.0.1"; "256.0.0.1"; "01.2.3.4"; "1.2.3"; "::"; "::1"; "fe80::1%eth0"; "2001:db8::ff";
    "1:2:3:4:5:6:7:8"; "1:2:3:4:5:6:7:8::"; "::ffff:1.2.3.4"; "1:2:3:4:5:6:7:1.2.3.4"; "12345::"; ""; "abc"; "1:2:3:4:5:6:1.2.3.4"]
  = [4; 0; 0; 0; 6; 6; 0; 6; 6; 0; 6; 0; 0; 0; 0; 6]%Z.
Proof. by vm_compute. Qed.
