(* ===== verification/Model.v ===== *)
(** * The domain model (domain/model.go, errors.go, certificate.go)

    Values the validators, the renderers and the snapshots share. An absent
    optional field is [None]; a record's value and proxy settings are the
    dynamic JSON values of Json.v. *)

From S2P Require Import Prelude Timestamp GoStrings Json.
From stdpp Require Import options.

(** ** Errors *)
Record ValidationError := mkValidationError { Message : string; Code : string }.
#[global] Instance ValidationError_eq_dec : EqDecision ValidationError.
Proof. solve_decision. Defined.
Definition newValidationError (message code : string) : ValidationError :=
  mkValidationError message (if code =? "" then "DOMAIN_VALIDATION" else code).
(** A panic raised here is recovered by the public entry points: [Err]. *)
Abbreviation validated := (result ValidationError).
Definition assertDomain (condition : bool) (message code : string) : validated unit :=
  ensure condition (newValidationError message code).

(** ** Data *)
Record Ingress := mkIngress { IPv4 : string; IPv6 : string }.
Record ResolverEndpoint := mkEndpoint { Host : string; EPort : Z }.
Record ResolverPool := mkPool { PoolID : string; Endpoints : list ResolverEndpoint }.
Record ForwardingRule := mkForwarding { Suffix : string; Pool : ResolverPool }.
Record Settings := mkSettings {
  SIngress : Ingress; DefaultPool : option ResolverPool; ForwardingRules : list ForwardingRule;
  RetentionMaxAgeDays : Z; RetentionMaxSizeMb : Z }.
Record DNSRecord := mkRecord {
  ID : string; Name : string; Type_ : string; Value : json; TTL : Z; Enabled : bool;
  Comment : option string; Proxied : bool; Proxy : option gomap }.
Record UpstreamTarget := mkUpstream { UIP : string; UPort : Z; UProtocol : string }.
Record StreamRoute := mkStream {
  SRID : string; SREnabled : bool; Protocol : string; ListenAddress : string; ListenPort : Z;
  Upstream : UpstreamTarget }.
Record ZoneState := mkZone { ZID : string; ZName : string; ZEnabled : bool; Records : list DNSRecord }.
Record CertificateStatus := mkCertificate {
  CID : string; Hostnames : list string; Issuer : string; Challenge : string; Environment : string;
  Status : string; ExpiresAt : option Timestamp; RenewAfter : option Timestamp; SecretID : string;
  CertificatePEM : string; FailureReason : string }.

#[global] Instance Ingress_eq_dec : EqDecision Ingress. Proof. solve_decision. Defined.
#[global] Instance ResolverEndpoint_eq_dec : EqDecision ResolverEndpoint. Proof. solve_decision. Defined.
#[global] Instance ResolverPool_eq_dec : EqDecision ResolverPool. Proof. solve_decision. Defined.
#[global] Instance ForwardingRule_eq_dec : EqDecision ForwardingRule. Proof. solve_decision. Defined.
#[global] Instance Settings_eq_dec : EqDecision Settings. Proof. solve_decision. Defined.
#[global] Instance DNSRecord_eq_dec : EqDecision DNSRecord. Proof. solve_decision. Defined.
#[global] Instance UpstreamTarget_eq_dec : EqDecision UpstreamTarget. Proof. solve_decision. Defined.
#[global] Instance StreamRoute_eq_dec : EqDecision StreamRoute. Proof. solve_decision. Defined.
#[global] Instance ZoneState_eq_dec : EqDecision ZoneState. Proof. solve_decision. Defined.

Definition contains (values : list string) (target : string) : bool := existsb (String.eqb target) values.

Lemma contains_elem values target : contains values target = true <-> target ∈ values.
Proof.
  unfold contains. rewrite existsb_elem. split.
  - intros (x&Hx&->%String.eqb_eq). done.
  - intros. exists target. by rewrite String.eqb_refl.
Qed.
Lemma contains_false values target : contains values target = false <-> target ∉ values.
Proof. rewrite <- contains_elem. by destruct (contains values target). Qed.

Lemma assertDomain_Ok b m c u : assertDomain b m c = Ok u <-> b = true.
Proof. apply ensure_Ok. Qed.

(** [inv_ok]: [inv_res] through [assertDomain]. *)
Ltac inv_ok := inv_res; repeat (match goal with
  | H : assertDomain _ _ _ = Ok ?u |- _ => apply assertDomain_Ok in H; try clear u
  end; inv_res).

Lemma assert_step {A} b m c (k : validated A) x :
  (assertDomain b m c;; k) = Ok x <-> b = true /\ k = Ok x.
Proof. unfold assertDomain. destruct b; cbv; naive_solver. Qed.
Lemma assert_true {A} b m c (k : validated A) : b = true -> (assertDomain b m c;; k) = k.
Proof. by intros ->. Qed.
