(* ===== verification/Proxy.v ===== *)
(** * Proxy and stream validation (domain/proxy.go)

    A proxy settings object is a dynamic map; the validators read it through
    type assertions and return an error on the first rule it breaks. *)

From S2P Require Import Prelude GoStrings Json GoNet Model.
From stdpp Require Import options.

(** ** Access *)
Definition proxyBool (proxy : gomap) (key : string) : bool := default false (as_bool (mget proxy key)).
Definition proxyString (proxy : gomap) (key : string) : string := default "" (as_string (mget proxy key)).
Definition sliceOf (value : json) : list json := default [] (as_slice value).

(** ** Patterns *)
Definition crlfPattern (s : string) : bool := sexists (fun c => ascii_eqb c CR || ascii_eqb c LF) s.
Definition length_in (lo hi : nat) (s : string) : bool :=
  (lo <=? String.length s)%nat && (String.length s <=? hi)%nat.
Definition basicAuthUsernamePattern (s : string) : bool :=
  length_in 1 64 s && sall (fun c => is_alnum c || one_of "._@+=-" c) s.
Definition basicAuthSecretPattern (s : string) : bool :=
  length_in 8 128 s && sall (fun c => is_alnum c || one_of "_-" c) s.
Definition header_char (c : ascii) : bool := is_alnum c || one_of "!#$%&'*+-.^_`|~" c.
Definition headerNamePattern (s : string) : bool := negb (s =? "") && sall header_char s.

(** [nginxBlockContextPattern]: a block keyword at the start of a line, after
    white space, in any case, and ending at an ASCII word boundary. Under case
    folding [s] also matches U+017F, which is not a word character. *)
Definition is_word (c : ascii) : bool := is_alnum c || ascii_eqb c "_".
Definition re_space (c : ascii) : bool := one_of (String (byte_of 9) (String (byte_of 12) (char " "))) c
                                          || ascii_eqb c CR || ascii_eqb c LF.
(** The rest of the text after [kw], and whether the last character read is a word character. *)
Fixpoint match_fold (kw s : string) (last : bool) : option (bool * string) :=
  match kw with
  | EmptyString => Some (last, s)
  | String k kw =>
      match s with
      | EmptyString => None
      | String c s1 =>
          if ascii_eqb k (lower_char c) then match_fold kw s1 true
          else match s1 with
          | String d s2 =>
              if ascii_eqb k "s" && (code c =? 197)%Z && (code d =? 191)%Z then match_fold kw s2 false else None
          | EmptyString => None
          end
      end
  end.
Definition word_boundary (last : bool) (rest : string) : bool :=
  xorb last (match rest with String c _ => is_word c | EmptyString => false end).
Definition block_keywords : list string := ["events"; "http"; "server"; "stream"; "location"].
Fixpoint skip_spaces (s : string) : string :=
  match s with String c s' => if re_space c then skip_spaces s' else s | EmptyString => s end.
Definition block_here (s : string) : bool :=
  existsb (fun kw => match match_fold kw (skip_spaces s) true with
                     | Some (last, rest) => word_boundary last rest | None => false end) block_keywords.
Fixpoint block_at (line_start : bool) (s : string) : bool :=
  line_start && block_here s ||
  match s with EmptyString => false | String c s => block_at (ascii_eqb c LF) s end.
Definition nginxBlockContextPattern (s : string) : bool := block_at true s.

(** ** Custom directives *)
(** The loop of [containsUnquotedBrace]; [quote] is [None] for Go's rune 0. *)
Fixpoint unquoted_brace (quote : option ascii) (escaped : bool) (l : list (option string)) : bool :=
  match l with
  | [] => false
  | r :: l =>
      let char_is c := bool_decide (r = Some (char c)) in
      if escaped then unquoted_brace quote false l else
      match quote with
      | Some q =>
          if char_is BS then unquoted_brace quote true l
          else if char_is q then unquoted_brace None false l
          else unquoted_brace quote false l
      | None =>
          if char_is DQ then unquoted_brace (Some DQ) false l
          else if char_is SQ then unquoted_brace (Some SQ) false l
          else if char_is "{"%char || char_is "}"%char then true
          else unquoted_brace None false l
      end
  end.
Definition containsUnquotedBrace (value : string) : bool := unquoted_brace None false (runes value).

Definition normalize_newlines (s : string) : string :=
  ReplaceAll (ReplaceAll s (String CR nl) nl) (char CR) nl.
Definition validateNginxDirectives (value : json) : validated unit :=
  match value with
  | JNull => mret tt
  | JStr directives =>
      let normalized := TrimSpace (normalize_newlines directives) in
      if normalized =? "" then mret tt else
      assertDomain (slen normalized <=? 32000)%Z "Nginx directives are too long" "NGINX_DIRECTIVES_LENGTH";;
      assertDomain (negb (ContainsChar normalized NUL)) "Nginx directives contain an invalid character" "NGINX_DIRECTIVES_CHARACTERS";;
      assertDomain (negb (containsUnquotedBrace normalized)) "Nginx directives cannot contain configuration blocks" "NGINX_DIRECTIVES_BLOCK";;
      assertDomain (negb (nginxBlockContextPattern normalized)) "Nginx block directives are not allowed here" "NGINX_DIRECTIVES_CONTEXT"
  | _ => assertDomain false "Nginx directives must be text" "NGINX_DIRECTIVES_TYPE"
  end.

(** ** Paths, headers *)
Definition path_bad_char (c : ascii) : bool := ascii_eqb c CR || ascii_eqb c LF || one_of "?#[]" c.
Definition validateDNSPath (path : string) : validated string :=
  let normalized := TrimSpace path in
  assertDomain (HasPrefix normalized "/") "Path must start with /" "PATH_START";;
  assertDomain (negb (sexists path_bad_char normalized)) "Path contains unsupported characters" "PATH_CHARACTERS";;
  assertDomain (slen normalized <=? 2048)%Z "Path is too long" "PATH_LENGTH";;
  mret (if (1 <? slen normalized)%Z then TrimRightChar normalized "/" else normalized).

Definition validate_path_action (action : option gomap) : validated unit :=
  match action with
  | None => mret tt
  | Some action =>
      if proxyString action "type" =? "redirect" then
        let status := default 0%Z (toInt (mget action "status")) in
        assertDomain ((status =? 301) || (status =? 302) || (status =? 307) || (status =? 308))%Z
          "Redirect status is not allowed" "REDIRECT_STATUS";;
        let location := proxyString action "location" in
        assertDomain ((location =? "") || negb (crlfPattern location))
          "Redirect location cannot contain newlines" "REDIRECT_LOCATION"
      else
        let rewrite := proxyString action "rewrite" in
        if negb (rewrite =? "") then validateDNSPath rewrite;; mret tt else mret tt
  end.

(** The state is ([seen] keys, patterns); both lists grow by one per rule. *)
Definition validate_path_rule (st : list string * list string) (raw : json) : validated (list string * list string) :=
  let '(seen, patterns) := st in
  assertDomain (bool_decide (is_Some (as_map raw))) "Path rule must be an object" "PATH_RULE";;
  let rule := default [] (as_map raw) in
  pattern ← validateDNSPath (proxyString rule "pattern");
  let key := proxyString rule "kind" +:+ ":" +:+ pattern in
  assertDomain (negb (contains seen key)) ("Duplicate path rule: " +:+ pattern) "PATH_DUPLICATE";;
  assertDomain (forallb (fun existing => negb (existing =? pattern)) patterns) ("Ambiguous path rule: " +:+ pattern) "PATH_AMBIGUOUS";;
  validate_path_action (as_map (mget rule "action"));;
  mret (key :: seen, patterns ++ [pattern]).
Definition validatePathRules (rules : list json) : validated unit :=
  foldlM validate_path_rule ([], []) rules;; mret tt.

Definition validate_header_rule (seen : list string) (raw : json) : validated (list string) :=
  assertDomain (bool_decide (is_Some (as_map raw))) "Header rule must be an object" "HEADER_RULE";;
  let header := default [] (as_map raw) in
  let name := proxyString header "name" in
  assertDomain (headerNamePattern name) ("Invalid header name: " +:+ name) "HEADER_NAME";;
  assertDomain (negb (crlfPattern (proxyString header "value"))) "Header value cannot contain newlines" "HEADER_VALUE";;
  let lower := ToLower name in
  assertDomain (negb (contains seen lower)) ("Duplicate header: " +:+ name) "HEADER_DUPLICATE";;
  mret (lower :: seen).
Definition validateHeaderRules (headers : list json) : validated unit :=
  foldlM validate_header_rule [] headers;; mret tt.

(** ** Proxy settings *)
Definition timeoutOrDefault (timeouts : option gomap) (key : string) (fallback : Z) : Z :=
  match timeouts with
  | None => fallback
  | Some t => default fallback (toInt (mget t key))
  end.
Definition port_ok (p : Z) : bool := (1 <=? p)%Z && (p <=? 65535)%Z.
Definition within (hi v : Z) : bool := (0 <? v)%Z && (v <=? hi)%Z.

Definition validate_origin (proxy : gomap) : validated unit :=
  assertDomain (bool_decide (is_Some (as_map (mget proxy "origin")))) "Proxy origin must be a literal IP" "ORIGIN_IP";;
  let origin := default [] (as_map (mget proxy "origin")) in
  assertDomain (0 <? ipVersion (proxyString origin "ip"))%Z "Proxy origin must be a literal IP" "ORIGIN_IP";;
  assertDomain (match toInt (mget origin "port") with Some p => port_ok p | None => false end) "Port is invalid" "ORIGIN_PORT";;
  let protocol := proxyString origin "protocol" in
  assertDomain ((protocol =? "http") || (protocol =? "https")) "Proxy origin protocol must be http or https" "ORIGIN_PROTOCOL".

Definition validate_basic_auth (proxy : gomap) (tlsEnabled : bool) : validated unit :=
  match as_map (mget proxy "basicAuth") with
  | None => mret tt
  | Some basicAuth =>
      assertDomain tlsEnabled "Basic Auth requires client TLS" "BASIC_AUTH_TLS";;
      assertDomain (basicAuthUsernamePattern (proxyString basicAuth "username")) "Basic Auth username is invalid" "BASIC_AUTH_USERNAME";;
      assertDomain (basicAuthSecretPattern (proxyString basicAuth "passwordSecretId")) "Basic Auth secret reference is invalid" "BASIC_AUTH_SECRET"
  end.

(** [capabilities] is Go's [map[string]bool], [None] when nil. *)
Definition validate_http3 (proxy : gomap) (capabilities : option (string -> bool)) (tlsEnabled : bool) : validated unit :=
  if proxyBool proxy "http3" then
    assertDomain (match capabilities with
                  | Some cap => cap "http3Module" && cap "tcp443Published" && cap "udp443Published"
                  | None => false end)
      "HTTP/3 requires binary support and published TCP/UDP 443" "HTTP3_UNAVAILABLE";;
    assertDomain tlsEnabled "HTTP/3 requires client TLS" "HTTP3_TLS"
  else mret tt.

Definition validate_cache (proxy : gomap) : validated unit :=
  match as_map (mget proxy "cache") with
  | Some cache =>
      if proxyBool cache "enabled" then
        assertDomain (negb (bool_decide (is_Some (as_map (mget proxy "basicAuth"))))) "Authenticated routes cannot enable cache" "CACHE_AUTH";;
        assertDomain (negb (proxyBool proxy "websocket")) "WebSocket routes cannot enable cache" "CACHE_WEBSOCKET"
      else mret tt
  | None => mret tt
  end.

Definition validate_timeouts (proxy : gomap) : validated unit :=
  let timeouts := as_map (mget proxy "timeouts") in
  assertDomain (within 300 (timeoutOrDefault timeouts "connectSeconds" 5)) "Connect timeout is invalid" "";;
  assertDomain (within 3600 (timeoutOrDefault timeouts "sendReadSeconds" 60)) "Send/read timeout is invalid" "";;
  assertDomain (within 300 (timeoutOrDefault timeouts "clientHeaderSeconds" 15)) "Client timeout is invalid" "";;
  assertDomain (within 1024 (timeoutOrDefault timeouts "bodyLimitMb" 10)) "Body limit is invalid" "".

Definition validateProxySettings (proxy : gomap) (capabilities : option (string -> bool)) : validated gomap :=
  validate_origin proxy;;
  assertDomain (bool_decide (is_Some (as_bool (mget proxy "tlsEnabled")))) "TLS setting is required" "TLS_REQUIRED";;
  let tlsEnabled := proxyBool proxy "tlsEnabled" in
  validate_basic_auth proxy tlsEnabled;;
  validate_http3 proxy capabilities tlsEnabled;;
  validatePathRules (sliceOf (mget proxy "pathRules"));;
  validateHeaderRules (sliceOf (mget proxy "headers"));;
  validateNginxDirectives (mget proxy "nginxDirectives");;
  validate_cache proxy;;
  validate_timeouts proxy;;
  mret proxy.

(** ** Stream routes *)
Definition listener_key (route : StreamRoute) : string :=
  Protocol route +:+ ":" +:+ ListenAddress route +:+ ":" +:+ itoa (ListenPort route).
Definition validate_stream_route (listeners : list string) (route : StreamRoute) : validated (list string) :=
  assertDomain (0 <? ipVersion (ListenAddress route))%Z "Stream listen address must be a literal IP" "STREAM_LISTEN_IP";;
  assertDomain (port_ok (ListenPort route)) "Port is invalid" "STREAM_LISTEN_PORT";;
  assertDomain (UProtocol (Upstream route) =? Protocol route) "Stream protocol and upstream protocol must match" "STREAM_PROTOCOL";;
  assertDomain (0 <? ipVersion (UIP (Upstream route)))%Z "Stream upstream must be a literal IP" "STREAM_UPSTREAM_IP";;
  assertDomain (port_ok (UPort (Upstream route))) "Port is invalid" "STREAM_UPSTREAM_PORT";;
  let key := listener_key route in
  assertDomain (negb (contains listeners key)) ("Stream listener conflict: " +:+ key) "STREAM_CONFLICT";;
  mret (key :: listeners).
Definition validateStreamRoutes (routes : list StreamRoute) : validated (list StreamRoute) :=
  foldlM validate_stream_route [] routes;; mret routes.

Example proxy_nested :
  validateNginxDirectives (JStr "client_max_body_size 1m;") = Ok tt
  /\ is_ok (validateNginxDirectives (JStr "if ($a) { return 1; }")) = false
  /\ is_ok (validateNginxDirectives (JStr (" Server" +:+ nl))) = false
  /\ is_ok (validateNginxDirectives (JStr "server_tokens off;")) = true
  /\ is_ok (validateNginxDirectives (JStr (String "#" (char SQ) +:+ nl +:+ "if ($a) { return 1; }"))) = true.
Proof. vm_compute. auto. Qed.
Example path_examples :
  validateDNSPath " /a/b/ " = Ok "/a/b" /\ validateDNSPath "//" = Ok "" /\ validateDNSPath "/" = Ok "/"
  /\ is_ok (validateDNSPath "a") = false.
Proof. by vm_compute. Qed.
