(* ===== verification/ProxyFacts.v ===== *)
(** * Facts about proxy and stream validation

    What an accepted proxy configuration looks like: block-free directives,
    distinct path patterns and header names, distinct stream listeners. *)

From S2P Require Import Prelude GoStrings Json JsonFacts GoNet Model Proxy.
From stdpp Require Import options.

(** ** Directives: a reference grammar for quoting *)
Abbreviation rune := (option string).
Definition is_quote (q : ascii) : Prop := q = DQ \/ q = SQ.
(** The inside of a quoted text: a backslash takes the next rune with it. *)
Inductive quoted (q : ascii) : list rune -> Prop :=
| quoted_nil : quoted q []
| quoted_char r l : r <> Some (char q) -> r <> Some (char BS) -> quoted q l -> quoted q (r :: l)
| quoted_escape r l : quoted q l -> quoted q (Some (char BS) :: r :: l).
(** A text without a brace outside quotes; the last quote may be left open. *)
Inductive block_free : list rune -> Prop :=
| bf_nil : block_free []
| bf_char r l : r <> Some (char DQ) -> r <> Some (char SQ) -> r <> Some "{" -> r <> Some "}" ->
    block_free l -> block_free (r :: l)
| bf_quoted q body l : is_quote q -> quoted q body -> block_free l ->
    block_free (Some (char q) :: body ++ Some (char q) :: l)
| bf_open q body : is_quote q -> quoted q body -> block_free (Some (char q) :: body)
| bf_open_escape q body : is_quote q -> quoted q body ->
    block_free (Some (char q) :: body ++ [Some (char BS)]).

Lemma quote_not_bs q : is_quote q -> Some (char q) <> Some (char BS).
Proof. by intros [-> | ->]. Qed.

Lemma unquoted_brace_quoted q body l : is_quote q -> quoted q body ->
  unquoted_brace (Some q) false (body ++ l) = unquoted_brace (Some q) false l.
Proof.
  intros Hq. induction 1 as [|r body Hr Hb _ IH|r body _ IH]; cbn; [done|..].
  - rewrite (bool_decide_eq_false_2 (r = Some (char BS))), (bool_decide_eq_false_2 (r = Some (char q))) by done. done.
  - done.
Qed.
Lemma unquoted_brace_close q l : is_quote q ->
  unquoted_brace (Some q) false (Some (char q) :: l) = unquoted_brace None false l.
Proof. by intros [-> | ->]. Qed.
Lemma unquoted_brace_open q l : is_quote q ->
  unquoted_brace None false (Some (char q) :: l) = unquoted_brace (Some q) false l.
Proof. by intros [-> | ->]. Qed.

(** Inside a quote, the text either stays inside to the end or closes. *)
Lemma quoted_split q l : is_quote q ->
  quoted q l \/ (exists b, quoted q b /\ l = b ++ [Some (char BS)])
  \/ exists b l', quoted q b /\ l = b ++ Some (char q) :: l'.
Proof.
  intros Hq. induction l as [l IH] using (induction_ltof1 _ length). unfold ltof in IH.
  destruct l as [|r l]; [left; constructor|].
  destruct (decide (r = Some (char q))) as [-> |Hrq].
  { right; right. exists [], l. split; [constructor|done]. }
  destruct (decide (r = Some (char BS))) as [-> |Hrb].
  - destruct l as [|r2 l]; [right; left; exists []; split; [constructor|done]|].
    destruct (IH l) as [H|[(b&Hb&->)|(b&l'&Hb&->)]]; [simpl; lia|..].
    + left. by constructor.
    + right; left. exists (Some (char BS) :: r2 :: b). split; [by constructor|done].
    + right; right. exists (Some (char BS) :: r2 :: b), l'. split; [by constructor|done].
  - destruct (IH l) as [H|[(b&Hb&->)|(b&l'&Hb&->)]]; [simpl; lia|..].
    + left. by constructor.
    + right; left. exists (r :: b). split; [by constructor|done].
    + right; right. exists (r :: b), l'. split; [by constructor|done].
Qed.

Lemma unquoted_brace_spec l : unquoted_brace None false l = false <-> block_free l.
Proof.
  split.
  - induction l as [l IH] using (induction_ltof1 _ length). unfold ltof in IH.
    destruct l as [|r l]; [constructor|].
    destruct (decide (r = Some (char DQ) \/ r = Some (char SQ))) as [Hq|Hnq].
    + assert (exists q, is_quote q /\ r = Some (char q)) as (q&Hq'&->).
      { destruct Hq as [-> | ->]; [exists DQ|exists SQ]; unfold is_quote; auto. }
      rewrite unquoted_brace_open by done. intros H.
      destruct (quoted_split q l Hq') as [Hl|[(b&Hb&->)|(b&l'&Hb&->)]].
      * by constructor.
      * by apply bf_open_escape.
      * rewrite unquoted_brace_quoted, unquoted_brace_close in H by done.
        apply bf_quoted; [done..|]. apply IH; [|done]. simpl. rewrite length_app. simpl. lia.
    + cbn. rewrite (bool_decide_eq_false_2 (r = Some (char DQ))), (bool_decide_eq_false_2 (r = Some (char SQ))) by tauto.
      case_bool_decide; [done|]. case_bool_decide; [done|]. cbn. intros Hu.
      constructor; try tauto. by apply IH; [simpl; lia|].
  - induction 1 as [|r l H1 H2 H3 H4 _ IH|q b l Hq Hb _ IH|q b Hq Hb|q b Hq Hb].
    + done.
    + cbn. rewrite !bool_decide_eq_false_2 by done. done.
    + rewrite unquoted_brace_open, unquoted_brace_quoted, unquoted_brace_close; done.
    + rewrite unquoted_brace_open by done. rewrite <- (app_nil_r b). by rewrite unquoted_brace_quoted.
    + rewrite unquoted_brace_open by done. rewrite unquoted_brace_quoted by done.
      cbn. done.
Qed.

(** The directive check reports no brace exactly when every brace of the text is
    inside a quoted string (escapes in quotes honoured, the last quote possibly left
    open). *)
Theorem containsUnquotedBrace_iff value :
  containsUnquotedBrace value = false <-> block_free (runes value).
Proof. apply unquoted_brace_spec. Qed.

(** ** Path rules *)
Definition path_rule_of (raw : json) : gomap := default [] (as_map raw).
Definition path_rule_kind (raw : json) : string := proxyString (path_rule_of raw) "kind".
(** [raw] is an object whose pattern normalizes to [p] and whose action is allowed. *)
Definition path_rule_good (raw : json) (p : string) : Prop :=
  is_Some (as_map raw) /\ validateDNSPath (proxyString (path_rule_of raw) "pattern") = Ok p
  /\ validate_path_action (as_map (mget (path_rule_of raw) "action")) = Ok tt.

Lemma forallb_neq (l : list string) p :
  forallb (fun existing => negb (existing =? p)) l = true <-> p ∉ l.
Proof.
  rewrite forallb_Forall, Forall_forall. setoid_rewrite negb_true_iff. setoid_rewrite String.eqb_neq.
  split; [intros H Hin; by apply (H p Hin)|intros H x Hx ->; done].
Qed.

(** Both checks of a duplicate: the pattern alone, and its key with the kind. *)
Definition seen_patterns (seen patterns : list string) : Prop :=
  forall k p, free_of ":" k -> k +:+ ":" +:+ p ∈ seen -> p ∈ patterns.

Lemma validate_path_rule_Ok seen patterns raw s' :
  validate_path_rule (seen, patterns) raw = Ok s' -> exists p,
  path_rule_good raw p /\ (p ∉ patterns) /\
  s' = ((path_rule_kind raw +:+ ":" +:+ p) :: seen, patterns ++ [p]).
Proof.
  unfold validate_path_rule. intros H. inv_ok. bsimp. destruct a3.
  rename a0 into p. exists p. unfold path_rule_good, path_rule_of. apply forallb_neq in Hm2.
  repeat split; done.
Qed.

Lemma validate_path_rule_complete seen patterns raw p :
  path_rule_good raw p -> p ∉ patterns -> path_rule_kind raw +:+ ":" +:+ p ∉ seen ->
  validate_path_rule (seen, patterns) raw = Ok ((path_rule_kind raw +:+ ":" +:+ p) :: seen, patterns ++ [p]).
Proof.
  intros (Hm&Hp&Ha) Hn Hk. unfold validate_path_rule, path_rule_kind, path_rule_of in *.
  rewrite (bool_decide_eq_true_2 _ Hm). cbn [assertDomain ensure mbind result_bind]. rewrite Hp. cbn [mbind result_bind].
  apply contains_false in Hk. rewrite Hk. apply forallb_neq in Hn. rewrite Hn. cbn. by rewrite Ha.
Qed.

Lemma path_rules_sound l seen patterns s' : NoDup patterns ->
  foldlM validate_path_rule (seen, patterns) l = Ok s' ->
  exists ps, Forall2 path_rule_good l ps /\ NoDup (patterns ++ ps).
Proof.
  revert seen patterns. induction l as [|raw l IH]; intros seen patterns Hnd H; cbn [foldlM] in H.
  - exists []. rewrite app_nil_r. by split.
  - inv_res. apply validate_path_rule_Ok in Hm as (p&Hg&Hn&->).
    apply IH in H as (ps&Hps&Hnd').
    + exists (p :: ps). rewrite cons_middle, app_assoc. split; [by constructor|done].
    + apply NoDup_app. split; [done|]. split; [set_solver|apply NoDup_singleton].
Qed.

Lemma path_rules_complete l seen patterns ps : seen_patterns seen patterns ->
  Forall (fun raw => free_of ":" (path_rule_kind raw)) l ->
  Forall2 path_rule_good l ps -> NoDup (patterns ++ ps) ->
  exists s', foldlM validate_path_rule (seen, patterns) l = Ok s'.
Proof.
  intros Hs Hk H. revert seen patterns Hs. induction H as [|raw p l ps Hg _ IH]; intros seen patterns Hs Hnd.
  - by eexists.
  - apply Forall_cons in Hk as [Hk Hkl]. cbn [foldlM].
    assert (p ∉ patterns) as Hn. { apply NoDup_app in Hnd as (_&H&_). intros Hin. apply (H p Hin). set_solver. }
    rewrite validate_path_rule_complete with (p := p); [|done|done|by intros ?%Hs].
    cbn. apply IH; [done| |by rewrite <- app_assoc].
    intros k q Hkf. rewrite elem_of_cons. intros [He|?]; [|apply elem_of_app; left; by apply (Hs k)].
    apply sep_first in He as [-> ->]; [set_solver|done|done].
Qed.

(** Accepted path rules have pairwise different patterns; when no [kind] holds
    a colon, every list of rules that are good on their own and have different
    patterns is accepted. *)
Theorem validatePathRules_distinct rules :
  (validatePathRules rules = Ok tt -> exists ps, Forall2 path_rule_good rules ps /\ NoDup ps)
  /\ (Forall (fun raw => free_of ":" (path_rule_kind raw)) rules ->
      (exists ps, Forall2 path_rule_good rules ps /\ NoDup ps) -> validatePathRules rules = Ok tt).
Proof.
  split; unfold validatePathRules.
  - intros H. inv_res. by apply path_rules_sound in Hm; [|constructor].
  - intros Hk (ps&Hps&Hnd). destruct (path_rules_complete rules [] [] ps) as [s' ->]; try done.
    intros k p _. set_solver.
Qed.

(** ** Headers *)
Definition header_name (raw : json) : string := proxyString (default [] (as_map raw)) "name".
Definition header_good (raw : json) : Prop :=
  is_Some (as_map raw) /\ headerNamePattern (header_name raw) = true
  /\ crlfPattern (proxyString (default [] (as_map raw)) "value") = false.

Lemma validate_header_rule_Ok seen raw s' :
  validate_header_rule seen raw = Ok s' <->
  exists k, (header_good raw /\ k = ToLower (header_name raw)) /\ (k ∉ seen) /\ s' = k :: seen.
Proof.
  unfold validate_header_rule, header_good, header_name. cbv zeta.
  rewrite !assert_step, bool_decide_eq_true, !negb_true_iff, contains_false, ret_Ok. naive_solver.
Qed.

(** ** Streams *)
Definition stream_good (r : StreamRoute) : Prop :=
  (0 < ipVersion (ListenAddress r))%Z /\ (1 <= ListenPort r <= 65535)%Z
  /\ UProtocol (Upstream r) = Protocol r
  /\ (0 < ipVersion (UIP (Upstream r)))%Z /\ (1 <= UPort (Upstream r) <= 65535)%Z.
Definition listener (r : StreamRoute) : string * string * Z := (Protocol r, ListenAddress r, ListenPort r).

Lemma port_ok_spec p : port_ok p = true <-> (1 <= p <= 65535)%Z.
Proof. unfold port_ok. rewrite andb_true_iff. lia. Qed.

Lemma validate_stream_route_Ok seen r s' :
  validate_stream_route seen r = Ok s' <->
  exists k, (stream_good r /\ k = listener_key r) /\ (k ∉ seen) /\ s' = k :: seen.
Proof.
  unfold validate_stream_route, stream_good. cbv zeta.
  rewrite !assert_step, negb_true_iff, contains_false, ret_Ok, !port_ok_spec, !Z.ltb_lt, String.eqb_eq.
  naive_solver.
Qed.

Lemma itoa_free_colon z : free_of ":" (itoa z).
Proof. apply (sall_free_of int_char); [done|apply itoa_chars]. Qed.

Lemma listener_key_inj r1 r2 : free_of ":" (Protocol r1) -> free_of ":" (Protocol r2) ->
  listener_key r1 = listener_key r2 <-> listener r1 = listener r2.
Proof.
  intros Hp1 Hp2. unfold listener_key, listener. split; [|by intros [= -> -> ->]].
  intros H. apply sep_first in H as [-> H]; [|done..].
  apply sep_last in H as [-> H]; [|apply itoa_free_colon..].
  unfold itoa in H. by apply (inj _) in H as ->.
Qed.

Lemma NoDup_map_iff {A B C} (f : A -> B) (g : A -> C) l :
  (forall a b, a ∈ l -> b ∈ l -> f a = f b <-> g a = g b) -> NoDup (map f l) <-> NoDup (map g l).
Proof.
  induction l as [|a l IH]; intros H; simpl; [split; constructor|].
  rewrite !NoDup_cons, IH by set_solver. apply and_iff_compat_r. rewrite !list_elem_of_fmap.
  apply not_iff_compat. split; intros (b&?&?); exists b; (split; [|done]); apply H; set_solver.
Qed.

(** Accepted stream routes are the well-formed ones on pairwise different
    listeners (protocol, address, port), for protocols without a colon. *)
Theorem validateStreamRoutes_iff routes :
  Forall (fun r => free_of ":" (Protocol r)) routes ->
  validateStreamRoutes routes = Ok routes <-> Forall stream_good routes /\ NoDup (map listener routes).
Proof.
  intros Hp. unfold validateStreamRoutes. transitivity (exists s', foldlM validate_stream_route [] routes = Ok s').
  { split; [intros H; inv_res; eauto|]. by intros [s' ->]. }
  rewrite seen_loop_ok by (intros; apply validate_stream_route_Ok).
  setoid_rewrite Forall2_fun.
  rewrite <- (NoDup_map_iff listener_key listener); [naive_solver|].
  rewrite Forall_forall in Hp. intros a b ??. apply listener_key_inj; auto.
Qed.

(** ** Whole settings *)
Record proxy_safe (proxy : gomap) : Prop := {
  safe_origin : exists origin p, as_map (mget proxy "origin") = Some origin
    /\ (0 < ipVersion (proxyString origin "ip"))%Z
    /\ toInt (mget origin "port") = Some p /\ (1 <= p <= 65535)%Z
    /\ (proxyString origin "protocol" = "http" \/ proxyString origin "protocol" = "https");
  safe_tls : exists b, mget proxy "tlsEnabled" = JBool b;
  safe_auth : is_Some (as_map (mget proxy "basicAuth")) ->
    proxyBool proxy "tlsEnabled" = true
    /\ (forall cache, as_map (mget proxy "cache") = Some cache -> proxyBool cache "enabled" = false);
  safe_http3 : proxyBool proxy "http3" = false;
  safe_paths : exists ps, Forall2 path_rule_good (sliceOf (mget proxy "pathRules")) ps /\ NoDup ps;
  safe_headers : Forall header_good (sliceOf (mget proxy "headers"))
    /\ NoDup (map (fun raw => ToLower (header_name raw)) (sliceOf (mget proxy "headers")));
  safe_directives : forall d, mget proxy "nginxDirectives" = JStr d ->
    block_free (runes (TrimSpace (normalize_newlines d)))
    /\ nginxBlockContextPattern (TrimSpace (normalize_newlines d)) = false
    /\ ContainsChar (TrimSpace (normalize_newlines d)) NUL = false }.

Lemma validatePathRules_sound rules : validatePathRules rules = Ok tt ->
  exists ps, Forall2 path_rule_good rules ps /\ NoDup ps.
Proof. intros H. unfold validatePathRules in H. inv_res. by apply path_rules_sound in Hm; [|constructor]. Qed.

Lemma validateHeaderRules_Ok headers : validateHeaderRules headers = Ok tt <->
  Forall header_good headers /\ NoDup (map (fun raw => ToLower (header_name raw)) headers).
Proof.
  unfold validateHeaderRules. transitivity (exists s', foldlM validate_header_rule [] headers = Ok s').
  { split; [intros H; inv_res; eauto|]. by intros [s' ->]. }
  rewrite seen_loop_ok by (intros; apply validate_header_rule_Ok).
  setoid_rewrite Forall2_fun. naive_solver.
Qed.

Lemma validate_origin_Ok proxy : validate_origin proxy = Ok tt ->
  exists origin p, as_map (mget proxy "origin") = Some origin
    /\ (0 < ipVersion (proxyString origin "ip"))%Z
    /\ toInt (mget origin "port") = Some p /\ (1 <= p <= 65535)%Z
    /\ (proxyString origin "protocol" = "http" \/ proxyString origin "protocol" = "https").
Proof.
  unfold validate_origin. cbv zeta. rewrite !assert_step, assertDomain_Ok, bool_decide_eq_true, Z.ltb_lt, orb_true_iff, !String.eqb_eq.
  intros ([o Ho]&Hip&Hport&Hproto). rewrite Ho in *. cbn [default] in *. unfold default, id in *. cbn in *.
  destruct (toInt _) as [p|] eqn:Hp; [|done]. apply port_ok_spec in Hport. eauto 10.
Qed.

Lemma validateNginxDirectives_Ok d : validateNginxDirectives (JStr d) = Ok tt ->
  block_free (runes (TrimSpace (normalize_newlines d)))
  /\ nginxBlockContextPattern (TrimSpace (normalize_newlines d)) = false
  /\ ContainsChar (TrimSpace (normalize_newlines d)) NUL = false.
Proof.
  unfold validateNginxDirectives. cbv zeta. set (n := TrimSpace _).
  destruct (String.eqb_spec n "") as [->|_].
  - intros _. repeat split. constructor.
  - rewrite !assert_step, assertDomain_Ok, !negb_true_iff. unfold containsUnquotedBrace.
    rewrite unquoted_brace_spec. tauto.
Qed.

Lemma result_unit {E} (r : result E unit) u : r = Ok u -> r = Ok tt.
Proof. by destruct u. Qed.

(** Accepted settings are safe to render, with no HTTP/3 capability (the code's
    callers pass none): a literal origin address and port, Basic Auth only over TLS,
    no cache on authenticated routes, distinct headers and paths without line breaks,
    directives without blocks, and no HTTP/3; and they are returned unchanged. *)
Theorem validateProxySettings_safe proxy proxy' :
  validateProxySettings proxy None = Ok proxy' -> proxy' = proxy /\ proxy_safe proxy.
Proof.
  unfold validateProxySettings. intros H. inv_ok. split; [done|].
  repeat match goal with H : _ = Ok ?u |- _ => is_var u; apply result_unit in H end.
  apply validate_origin_Ok in Hm. apply bool_decide_eq_true in Hm0.
  apply validatePathRules_sound in Hm3. apply validateHeaderRules_Ok in Hm4.
  constructor; try done.
  - destruct Hm0 as [b Hb]. exists b. by destruct (mget proxy' "tlsEnabled"); inversion Hb.
  - intros [auth Ha]. unfold validate_basic_auth in Hm1. rewrite Ha in Hm1.
    apply assert_step in Hm1 as [Htls _]. split; [done|].
    intros cache Hc. unfold validate_cache in Hm6. rewrite Hc in Hm6.
    destruct (proxyBool cache "enabled"); [|done]. apply assert_step in Hm6 as [Hn _].
    rewrite Ha in Hn. by rewrite bool_decide_eq_true_2 in Hn.
  - unfold validate_http3 in Hm2. destruct (proxyBool proxy' "http3"); [|done].
    by apply assert_step in Hm2 as [? _].
  - intros d Hd. rewrite Hd in Hm5. by apply validateNginxDirectives_Ok.
Qed.
