(* ===== verification/Dns.v ===== *)
(** * DNS validation (domain/dns.go)

    Names, records, record sets, resolver pools and forwarding rules. *)

From S2P Require Import Prelude GoStrings StrFacts Json GoNet Model Proxy.
From stdpp Require Import options.

Definition MinTTL : Z := 30.
Definition MaxTTL : Z := 86400.
Definition DefaultTTL : Z := 300.
Definition recordTypeSet (t : string) : bool := contains ["A"; "AAAA"; "CNAME"; "TXT"; "MX"; "SRV"] t.

(** ** Names *)
Definition label_edge (c : ascii) : bool := is_lower c || is_digit c.
Definition label_char (c : ascii) : bool := label_edge c || ascii_eqb c "-".
(** [^[a-z0-9](?:[a-z0-9-]{0,61}[a-z0-9])?$] *)
Definition dnsLabelPattern (l : string) : bool :=
  match l with
  | EmptyString => false
  | String c r =>
      label_edge c &&
      ((r =? "") || (slen r <=? 62)%Z && sall label_char r && ends_with label_edge r)
  end.
Definition label_valid (l : string) : bool := (slen l <=? 63)%Z && dnsLabelPattern l.

Fixpoint check_labels (allowWildcard first : bool) (labels : list string) : validated unit :=
  match labels with
  | [] => mret tt
  | label :: rest =>
      if allowWildcard && first && (label =? "*") then check_labels allowWildcard false rest else
      assertDomain (label_valid label) ("Invalid DNS label: " +:+ label) "DNS_LABEL_INVALID";;
      check_labels allowWildcard false rest
  end.
Definition normalizeDNSName (value : string) (allowWildcard : bool) : validated string :=
  let withoutRoot := ToLower (TrimRightChar (TrimSpace value) ".") in
  assertDomain (0 <? slen withoutRoot)%Z "DNS name cannot be empty" "DNS_NAME_EMPTY";;
  let labels := Split "." withoutRoot in
  assertDomain (length labels <=? 127)%nat "DNS name has too many labels" "DNS_NAME_LABELS";;
  check_labels allowWildcard true labels;;
  assertDomain (slen withoutRoot <=? 253)%Z "DNS name is too long" "DNS_NAME_LENGTH";;
  mret withoutRoot.

Definition canonicalRecordName (name zoneName : string) : validated string :=
  zone ← normalizeDNSName zoneName false;
  let value := TrimSpace name in
  if (value =? "") || (value =? "@") then mret zone else
  normalized ← normalizeDNSName value true;
  if (normalized =? zone) || HasSuffix normalized ("." +:+ zone) then mret normalized
  else mret (normalized +:+ "." +:+ zone).

(** ** Record values *)
Definition objectGet (object : option gomap) (key : string) : json :=
  match object with None => JNull | Some o => mget o key end.
Definition uint16_ok (v : option Z) : bool :=
  match v with Some p => (0 <=? p)%Z && (p <=? 65535)%Z | None => false end.
Definition assertMxValue (value : json) (name : string) : validated unit :=
  let object := as_map value in
  let priority := toInt (objectGet object "priority") in
  let exchange := as_string (objectGet object "exchange") in
  assertDomain (bool_decide (is_Some object) && uint16_ok priority && bool_decide (is_Some exchange))
    ("Invalid MX value for " +:+ name) "MX_VALUE";;
  normalizeDNSName (default "" exchange) true;; mret tt.
Definition assertSrvValue (value : json) (name : string) : validated unit :=
  let object := as_map value in
  let priority := toInt (objectGet object "priority") in
  let weight := toInt (objectGet object "weight") in
  let port := toInt (objectGet object "port") in
  let target := as_string (objectGet object "target") in
  assertDomain (bool_decide (is_Some object) && uint16_ok priority && uint16_ok weight && uint16_ok port
                && bool_decide (is_Some target))
    ("Invalid SRV value for " +:+ name) "SRV_VALUE";;
  normalizeDNSName (default "" target) true;; mret tt.
Definition validateRecordValue (recordType : string) (value : json) (name : string) : validated unit :=
  let str := as_string value in
  if recordType =? "A" then
    assertDomain (match str with Some s => (ipVersion s =? 4)%Z | None => false end) ("Invalid A value for " +:+ name) "A_VALUE"
  else if recordType =? "AAAA" then
    assertDomain (match str with Some s => (ipVersion s =? 6)%Z | None => false end) ("Invalid AAAA value for " +:+ name) "AAAA_VALUE"
  else if recordType =? "CNAME" then
    assertDomain (bool_decide (is_Some str)) ("Invalid CNAME value for " +:+ name) "CNAME_VALUE";;
    normalizeDNSName (default "" str) true;; mret tt
  else if recordType =? "TXT" then
    assertDomain (match str with
                  | Some s => (0 <? slen s)%Z && (slen s <=? 255)%Z && negb (crlfPattern s)
                  | None => false end) ("Invalid TXT value for " +:+ name) "TXT_VALUE"
  else if recordType =? "MX" then assertMxValue value name
  else if recordType =? "SRV" then assertSrvValue value name
  else mret tt.

Definition validateIngressForRecord (recordType : string) (ingress : option Ingress) : validated unit :=
  assertDomain (bool_decide (is_Some ingress)) "Proxy ingress addresses are required" "INGRESS_REQUIRED";;
  let ingress := default (mkIngress "" "") ingress in
  if recordType =? "A" then
    assertDomain (ipVersion (IPv4 ingress) =? 4)%Z "IPv4 proxy ingress is required" "INGRESS_IPV4_REQUIRED"
  else if recordType =? "AAAA" then
    assertDomain (ipVersion (IPv6 ingress) =? 6)%Z "IPv6 proxy ingress is required" "INGRESS_IPV6_REQUIRED"
  else assertDomain ((ipVersion (IPv4 ingress) =? 4)%Z || (ipVersion (IPv6 ingress) =? 6)%Z)
         "At least one proxy ingress address is required" "INGRESS_REQUIRED".

(** ** Certificates *)
Definition fold_host (h : string) : string := TrimRightChar (ToLower h) ".".
Definition host_covered (normalizedHostname candidate : string) : bool :=
  let normalizedCandidate := fold_host candidate in
  (normalizedCandidate =? normalizedHostname)
  || HasPrefix normalizedCandidate "*."
     && HasSuffix normalizedHostname (drop_s 1 normalizedCandidate)
     && (length (Split "." normalizedHostname) =? length (Split "." normalizedCandidate))%nat.
Definition validateProxyCertificate (hostname : string) (tlsEnabled : bool) (certificateID : string)
    (certificates : option (list CertificateStatus)) : validated unit :=
  if negb tlsEnabled then mret tt else
  assertDomain (negb (certificateID =? "")) ("Proxied TLS record " +:+ hostname +:+ " requires a certificate") "CERTIFICATE_REQUIRED";;
  match certificates with
  | None => mret tt
  | Some certificates =>
      match find_first (fun c => CID c =? certificateID) certificates with
      | None => assertDomain false ("Certificate not found: " +:+ certificateID) "CERTIFICATE_NOT_FOUND"
      | Some certificate =>
          assertDomain ((Status certificate =? "active") || (Status certificate =? "issued"))
            ("Certificate is not active: " +:+ certificateID) "CERTIFICATE_NOT_ACTIVE";;
          assertDomain (existsb (host_covered (fold_host hostname)) (Hostnames certificate))
            ("Certificate does not cover " +:+ hostname) "CERTIFICATE_HOSTNAME"
      end
  end.

(** ** Record sets *)
Record RecordSetOptions := mkRecordSetOptions {
  ZoneName : string; OIngress : option Ingress; Certificates : option (list CertificateStatus) }.

Definition validate_record_proxy (options : RecordSetOptions) (name : string) (record : DNSRecord) : validated unit :=
  if Proxied record then
    assertDomain (contains ["A"; "AAAA"; "CNAME"] (Type_ record)) (Type_ record +:+ " records cannot be proxied") "PROXY_RECORD_TYPE";;
    assertDomain (bool_decide (is_Some (Proxy record))) "Proxied records require proxy settings" "PROXY_SETTINGS_REQUIRED";;
    validateIngressForRecord (Type_ record) (OIngress options);;
    proxy ← validateProxySettings (default [] (Proxy record)) None;
    match Certificates options with
    | Some _ => validateProxyCertificate name (proxyBool proxy "tlsEnabled") (proxyString proxy "certificateId") (Certificates options)
    | None => mret tt
    end
  else match Proxy record with
  | Some p => validateProxySettings p None;; mret tt
  | None => mret tt
  end.

Definition set_name_ttl (record : DNSRecord) (name : string) (ttl : Z) : DNSRecord :=
  mkRecord (ID record) name (Type_ record) (Value record) ttl (Enabled record) (Comment record)
    (Proxied record) (Proxy record).
Definition effective_ttl (record : DNSRecord) : Z := if (TTL record =? 0)%Z then DefaultTTL else TTL record.

(** One round of the first loop: what it appends for [record]. *)
Definition validate_record (options : RecordSetOptions) (zoneName : string) (record : DNSRecord) : validated DNSRecord :=
  assertDomain (recordTypeSet (Type_ record)) ("Unsupported record type: " +:+ Type_ record) "RECORD_TYPE";;
  name ← canonicalRecordName (Name record) zoneName;
  let ttl := effective_ttl record in
  assertDomain ((MinTTL <=? ttl) && (ttl <=? MaxTTL))%Z "TTL must be between 30 and 86400" "TTL_INVALID";;
  validateRecordValue (Type_ record) (Value record) name;;
  validate_record_proxy options name record;;
  mret (set_name_ttl record name ttl).
Definition record_step (options : RecordSetOptions) (zoneName : string)
    (st : list string * list DNSRecord) (record : DNSRecord) : validated (list string * list DNSRecord) :=
  let '(seenIDs, normalized) := st in
  assertDomain (0 <? slen (TrimSpace (ID record)))%Z "Record id is required" "RECORD_ID_REQUIRED";;
  assertDomain (negb (contains seenIDs (ID record))) ("Duplicate record id: " +:+ ID record) "RECORD_ID_DUPLICATE";;
  next ← validate_record options zoneName record;
  mret (ID record :: seenIDs, normalized ++ [next]).

Definition group_add (m : gmap string (list DNSRecord)) (record : DNSRecord) : gmap string (list DNSRecord) :=
  if Enabled record then <[Name record := default [] (m !! Name record) ++ [record]]> m else m.
Definition enabledByName (records : list DNSRecord) : gmap string (list DNSRecord) := foldl group_add ∅ records.

Definition check_group (g : string * list DNSRecord) : validated unit :=
  let '(name, group) := g in
  let hasCNAME := existsb (fun r => Type_ r =? "CNAME") group in
  let proxied := length (List.filter Proxied group) in
  assertDomain (negb hasCNAME || (length group <=? 1)%nat) ("CNAME cannot coexist with other records for " +:+ name) "CNAME_COEXISTENCE";;
  assertDomain (proxied <=? 1)%nat ("Only one record may be proxied for " +:+ name) "PROXY_HOST_CONFLICT".

(** Go visits a map in an order of its own choosing. *)
Definition map_order := list (string * list DNSRecord) -> list (string * list DNSRecord).
Definition validateRecordSet (order : map_order) (records : list DNSRecord) (options : RecordSetOptions)
  : validated (list DNSRecord) :=
  zoneName ← normalizeDNSName (ZoneName options) false;
  st ← foldlM (record_step options zoneName) ([], []) records;
  let normalized := st.2 in
  foldlM (fun _ g => check_group g) tt (order (map_to_list (enabledByName normalized)));;
  mret normalized.

(** ** Resolvers *)
Definition validateResolverEndpoint (endpoint : ResolverEndpoint) : validated ResolverEndpoint :=
  assertDomain (0 <? ipVersion (Host endpoint))%Z "Resolver endpoint must be a literal IP" "RESOLVER_IP";;
  assertDomain (port_ok (EPort endpoint)) "Resolver endpoint port is invalid" "RESOLVER_PORT";;
  mret endpoint.
Definition validateResolverPool (pool : ResolverPool) : validated ResolverPool :=
  assertDomain (0 <? slen (TrimSpace (PoolID pool)))%Z "Resolver pool id is required" "POOL_ID";;
  assertDomain (negb (bool_decide (Endpoints pool = []))) "Resolver pool needs an endpoint" "POOL_EMPTY";;
  endpoints ← mapM validateResolverEndpoint (Endpoints pool);
  mret (mkPool (PoolID pool) endpoints).
Definition forwarding_step (st : list string * list ForwardingRule) (rule : ForwardingRule)
  : validated (list string * list ForwardingRule) :=
  let '(seen, out) := st in
  suffix ← normalizeDNSName (Suffix rule) false;
  assertDomain (negb (contains seen suffix)) ("Duplicate forwarding suffix: " +:+ suffix) "FORWARD_SUFFIX_DUPLICATE";;
  pool ← validateResolverPool (Pool rule);
  mret (suffix :: seen, out ++ [mkForwarding suffix pool]).
Definition validateForwardingRules (rules : list ForwardingRule) : validated (list ForwardingRule) :=
  st ← foldlM forwarding_step ([], []) rules; mret st.2.
