(* ===== verification/DnsFacts.v ===== *)
(** * Facts about DNS validation

    Accepted names are canonical; accepted record sets are characterised
    declaratively; certificates cover a host exactly or by one wildcard label. *)

From S2P Require Import Prelude GoStrings StrFacts Json GoNet Model Proxy ProxyFacts Dns.
From stdpp Require Import options.

(** ** Canonical names *)
Definition labels_ok (wild : bool) (labels : list string) : bool :=
  match labels with
  | [] => true
  | l :: ls => (label_valid l || wild && (l =? "*")) && forallb label_valid ls
  end.
(** The names [normalizeDNSName] returns. *)
Definition canonical_name (wild : bool) (r : string) : Prop :=
  (0 < slen r <= 253)%Z /\ length (Split "." r) <= 127 /\ labels_ok wild (Split "." r) = true.

Lemma check_labels_rest w ls : check_labels w false ls = Ok tt <-> forallb label_valid ls = true.
Proof.
  induction ls as [|l ls IH]; cbn [check_labels forallb]; [done|].
  rewrite andb_false_r. cbn [andb]. rewrite assert_step, IH. by rewrite andb_true_iff.
Qed.
Lemma check_labels_Ok w ls : check_labels w true ls = Ok tt <-> labels_ok w ls = true.
Proof.
  destruct ls as [|l ls]; cbn [check_labels labels_ok]; [done|]. rewrite andb_true_r.
  destruct (w && (l =? "*")) eqn:E.
  - by rewrite orb_true_r, check_labels_rest.
  - by rewrite orb_false_r, assert_step, check_labels_rest, andb_true_iff.
Qed.

Lemma normalizeDNSName_Ok v w r : normalizeDNSName v w = Ok r <->
  r = ToLower (TrimRightChar (TrimSpace v) ".") /\ canonical_name w r.
Proof.
  unfold normalizeDNSName, canonical_name. cbv zeta. rewrite !assert_step, Z.ltb_lt, Nat.leb_le.
  rewrite bind_Ok. setoid_rewrite assert_step. setoid_rewrite ret_Ok. setoid_rewrite Z.leb_le.
  split.
  - intros (?&?&[]&Hl&?&<-). apply check_labels_Ok in Hl. repeat split; try done; lia.
  - intros (->&?&?&Hl). apply check_labels_Ok in Hl. repeat split; try lia. exists tt. naive_solver lia.
Qed.

(** A canonical name is made of lower-case letters, digits, hyphens, dots and stars. *)
Definition name_char (c : ascii) : bool := label_char c || one_of ".*" c.

Lemma label_edge_char c : label_edge c = true -> label_char c = true.
Proof. unfold label_char. by intros ->. Qed.
Lemma label_valid_chars l : label_valid l = true -> sall label_char l = true.
Proof.
  unfold label_valid, dnsLabelPattern. intros [_ H]%andb_true_iff. destruct l as [|c l]; [done|].
  apply andb_true_iff in H as [Hc H]. cbn [sall]. rewrite (label_edge_char _ Hc). cbn.
  apply orb_true_iff in H as [->%String.eqb_eq|H]; [done|]. by bsimp.
Qed.
Lemma label_valid_ends l : label_valid l = true -> ends_with label_edge l = true.
Proof.
  unfold label_valid, dnsLabelPattern. intros [_ H]%andb_true_iff. destruct l as [|c l]; [done|].
  apply andb_true_iff in H as [Hc H].
  apply orb_true_iff in H as [->%String.eqb_eq|H]; [done|].
  apply andb_true_iff in H as [_ H]. by destruct l.
Qed.
Lemma label_valid_nonempty l : label_valid l = true -> l <> "".
Proof. by intros H ->. Qed.

Lemma labels_ok_chars w r : labels_ok w (Split "." r) = true -> sall name_char r = true.
Proof.
  intros H. rewrite <- (Join_Split "." r). apply sall_Join; [done|].
  assert (forall l, label_valid l = true -> sall name_char l = true) as Hlab.
  { intros l Hl%label_valid_chars. eapply sall_impl; [|exact Hl]. unfold name_char. by intros c ->. }
  destruct (Split "." r) as [|l ls]; [constructor|]. apply andb_true_iff in H as [H Hls]. constructor.
  - apply orb_true_iff in H as [H|H]; [by apply Hlab|]. apply andb_true_iff in H as [_ ->%String.eqb_eq]. done.
  - apply forallb_Forall in Hls. eapply Forall_impl; eauto.
Qed.

Lemma name_char_plain c : name_char c = true -> plain c = true /\ not_upper c = true.
Proof. destruct c as [[] [] [] [] [] [] [] []]; vm_compute; (done || intros [=]). Qed.

Lemma ends_with_Join p c l : Forall (fun w => w <> "") l -> l <> [] ->
  ends_with p (Join l (char c)) = ends_with p (List.last l "").
Proof.
  induction 1 as [|w l Hw Hl IH]; [done|]. intros _. destruct l as [|w' l]; [done|].
  rewrite Join_cons by done. rewrite !ends_with_app; [by apply IH|..].
  - apply Forall_cons in Hl as [Hw' _]. destruct l; cbn [Join]; [done|]. by destruct w'.
  - done.
Qed.

Lemma last_elem_of {A} (l : A) ls d : List.last (l :: ls) d ∈ l :: ls.
Proof.
  revert l. induction ls as [|m ls IH]; intros l; [simpl; set_solver|].
  change (List.last (l :: m :: ls) d) with (List.last (m :: ls) d). specialize (IH m). set_solver.
Qed.

Lemma canonical_no_dot_end w r : canonical_name w r -> ends_with (fun c => negb (ascii_eqb "." c)) r = true.
Proof.
  intros (_&_&H). rewrite <- (Join_Split "." r).
  assert (Forall (fun l => ends_with (fun c => negb (ascii_eqb "." c)) l = true) (Split "." r)) as Hf.
  { assert (forall l, label_valid l = true -> ends_with (fun c => negb (ascii_eqb "." c)) l = true) as Hlab.
    { intros l Hl%label_valid_ends. eapply ends_with_impl; [|exact Hl].
      intros c Hc. destruct (ascii_eqb "." c) eqn:E; [|done]. apply ascii_eqb_eq in E as <-. done. }
    destruct (Split "." r) as [|l ls]; [constructor|]. apply andb_true_iff in H as [H Hls]. constructor.
    - apply orb_true_iff in H as [H|H]; [by apply Hlab|]. apply andb_true_iff in H as [_ ->%String.eqb_eq]. done.
    - apply forallb_Forall in Hls. eapply Forall_impl; eauto. }
  destruct (Split_cons "." r) as (l&ls&E). rewrite E in *.
  assert (Forall (fun w => w <> "") (l :: ls)) as Hne.
  { eapply Forall_impl; [exact Hf|]. intros x Hx Hnil. rewrite Hnil in Hx. done. }
  rewrite ends_with_Join by done.
  rewrite Forall_forall in Hf. apply Hf, last_elem_of.
Qed.

Lemma canonical_fixed w r : canonical_name w r -> ToLower (TrimRightChar (TrimSpace r) ".") = r /\ TrimSpace r = r.
Proof.
  intros H. pose proof (canonical_no_dot_end w r H) as He. destruct H as (_&_&Hl).
  apply labels_ok_chars in Hl.
  assert (TrimSpace r = r) as Ht.
  { apply TrimSpace_plain. eapply sall_impl; [|exact Hl]. intros c Hc. by destruct (name_char_plain c Hc). }
  split; [|done]. rewrite Ht. unfold TrimRightChar. rewrite TrimRight_ends by done.
  apply ToLower_id. eapply sall_impl; [|exact Hl]. intros c Hc. by destruct (name_char_plain c Hc).
Qed.

Lemma normalize_canonical w r : canonical_name w r -> normalizeDNSName r w = Ok r.
Proof. intros H. apply normalizeDNSName_Ok. split; [|done]. by destruct (canonical_fixed w r H). Qed.
Lemma canonical_weaken r : canonical_name false r -> canonical_name true r.
Proof.
  intros (?&?&Hl). repeat split; try lia. destruct (Split "." r); [done|]. cbn [labels_ok] in *.
  rewrite orb_false_r in Hl. apply andb_true_iff in Hl as [-> ->]. done.
Qed.

(** A normalized name is canonical, and normalizing it again changes nothing. *)
Theorem normalizeDNSName_idempotent value allowWildcard r :
  normalizeDNSName value allowWildcard = Ok r ->
  canonical_name allowWildcard r /\ normalizeDNSName r allowWildcard = Ok r.
Proof. intros [_ H]%normalizeDNSName_Ok. split; [done|]. by apply normalize_canonical. Qed.

(** ** Record names *)
Lemma labels_ok_app w l1 l2 : l1 <> [] -> labels_ok w (l1 ++ l2) = labels_ok w l1 && forallb label_valid l2.
Proof. destruct l1 as [|l l1]; [done|]. intros _. cbn [app labels_ok]. by rewrite forallb_app, andb_assoc. Qed.

Definition in_zone (zone r : string) : Prop := r = zone \/ exists p, r = p +:+ "." +:+ zone.
Definition name_fits (r : string) : Prop := (slen r <= 253)%Z /\ length (Split "." r) <= 127.

Lemma canonicalRecordName_Ok name zoneName r : canonicalRecordName name zoneName = Ok r ->
  exists zone, normalizeDNSName zoneName false = Ok zone /\ in_zone zone r
  /\ labels_ok true (Split "." r) = true /\ (0 < slen r)%Z.
Proof.
  unfold canonicalRecordName. intros H. apply bind_Ok in H as (zone&Hz&H). exists zone. split; [done|].
  apply normalizeDNSName_Ok in Hz as [_ Hz]. cbv zeta in H.
  destruct ((TrimSpace name =? "") || (TrimSpace name =? "@")).
  - inv_res. apply canonical_weaken in Hz as (?&?&?). repeat split; [by left|done|lia].
  - apply bind_Ok in H as (n&Hn&H). apply normalizeDNSName_Ok in Hn as [_ (?&?&Hl)].
    destruct ((n =? zone) || HasSuffix n ("." +:+ zone)) eqn:E; inv_res.
    + repeat split; [|done|lia]. apply orb_true_iff in E as [E|E].
      * left. by apply String.eqb_eq.
      * right. by apply HasSuffix_spec.
    + repeat split; [right; by exists n| |].
      * cbn [String.append]. rewrite Split_app, labels_ok_app, Hl by (by destruct (Split_cons "." n) as (?&?&->)).
        destruct Hz as (_&_&Hz). destruct (Split_cons "." zone) as (?&?&E'). rewrite E' in *. cbn [labels_ok] in Hz.
        by rewrite orb_false_r in Hz.
      * unfold slen in *. rewrite length_app_s. lia.
Qed.

Lemma canonicalRecordName_fixed zone zoneName r : normalizeDNSName zoneName false = Ok zone ->
  in_zone zone r -> labels_ok true (Split "." r) = true -> (0 < slen r)%Z -> name_fits r ->
  canonicalRecordName r zoneName = Ok r.
Proof.
  intros Hz Hin Hl Hs [Hf1 Hf2]. assert (canonical_name true r) as Hc by (repeat split; [lia..|done]).
  unfold canonicalRecordName. rewrite Hz. cbn [mbind result_bind]. cbv zeta.
  destruct (canonical_fixed true r Hc) as [_ Ht]. rewrite Ht.
  assert ((r =? "") || (r =? "@") = false) as ->.
  { apply orb_false_iff. split; apply String.eqb_neq; intros ->; done. }
  rewrite normalize_canonical by done. cbn [mbind result_bind].
  assert ((r =? zone) || HasSuffix r ("." +:+ zone) = true) as ->; [|done].
  apply orb_true_iff. destruct Hin as [-> |Hp]; [left; apply String.eqb_refl|right; by apply HasSuffix_spec].
Qed.

Theorem canonicalRecordName_in_zone name zoneName r : canonicalRecordName name zoneName = Ok r ->
  exists zone, normalizeDNSName zoneName false = Ok zone /\ in_zone zone r
  /\ (name_fits r -> canonicalRecordName r zone = Ok r /\ canonicalRecordName r zoneName = Ok r).
Proof.
  intros H. apply canonicalRecordName_Ok in H as (zone&Hz&Hin&Hl&Hs). exists zone. repeat split; try done.
  - apply (canonicalRecordName_fixed zone); try done. apply normalizeDNSName_Ok in Hz as [_ Hz].
    by apply normalize_canonical.
  - by apply (canonicalRecordName_fixed zone).
Qed.

(** ** Record sets *)
Definition compat (a b : DNSRecord) : Prop :=
  Enabled a = true -> Enabled b = true -> Name a = Name b ->
  Type_ a <> "CNAME" /\ Type_ b <> "CNAME" /\ ~ (Proxied a = true /\ Proxied b = true).

Lemma FOP_cons {A} (R : A -> A -> Prop) a l :
  ForallOrdPairs R (a :: l) <-> Forall (R a) l /\ ForallOrdPairs R l.
Proof. split; [by inversion 1|intros [??]; by constructor]. Qed.
Lemma FOP_and {A} (R S : A -> A -> Prop) l :
  ForallOrdPairs R l /\ ForallOrdPairs S l <-> ForallOrdPairs (fun a b => R a b /\ S a b) l.
Proof.
  induction l as [|a l IH]; [split; [constructor|split; constructor]|].
  rewrite !FOP_cons, <- IH, Forall_and. tauto.
Qed.
Lemma FOP_iff {A} (R S : A -> A -> Prop) l : (forall a b, R a b <-> S a b) ->
  ForallOrdPairs R l <-> ForallOrdPairs S l.
Proof.
  intros H. induction l as [|a l IH]; [split; constructor|]. rewrite !FOP_cons, IH.
  rewrite (Forall_iff (R a) _ (S a)); [done|auto].
Qed.
Lemma Forall_filter_iff {A} (f : A -> bool) (P : A -> Prop) l :
  Forall P (List.filter f l) <-> Forall (fun a => f a = true -> P a) l.
Proof.
  induction l as [|a l IH]; simpl; [split; constructor|]. rewrite Forall_cons, <- IH.
  destruct (f a); [rewrite Forall_cons|]; naive_solver.
Qed.
Lemma FOP_filter {A} (f : A -> bool) (R : A -> A -> Prop) l :
  ForallOrdPairs R (List.filter f l) <-> ForallOrdPairs (fun a b => f a = true -> f b = true -> R a b) l.
Proof.
  induction l as [|a l IH]; simpl; [split; constructor|]. rewrite FOP_cons, <- IH.
  destruct (f a).
  - rewrite FOP_cons, Forall_filter_iff. rewrite (Forall_iff (fun b => true = true -> f b = true -> R a b) _ (fun b => f b = true -> R a b)); [done|naive_solver].
  - split; [|tauto]. intros H. split; [|done]. apply Forall_forall. done.
Qed.
Lemma FOP_forall {A K} (R : K -> A -> A -> Prop) l :
  (forall k, ForallOrdPairs (R k) l) <-> ForallOrdPairs (fun a b => forall k, R k a b) l.
Proof.
  induction l as [|a l IH]; [split; [constructor|intros; constructor]|]. rewrite FOP_cons, <- IH.
  setoid_rewrite FOP_cons. setoid_rewrite Forall_forall. naive_solver.
Qed.

Lemma at_most_one {A} (f : A -> bool) l :
  length (List.filter f l) <= 1 <-> ForallOrdPairs (fun a b => ~ (f a = true /\ f b = true)) l.
Proof.
  induction l as [|a l IH]; simpl; [split; [constructor|lia]|]. rewrite FOP_cons, <- IH.
  destruct (f a); simpl.
  - rewrite (Forall_iff _ _ (fun b => f b = false)) by (intros b; destruct (f b); naive_solver).
    rewrite <- existsb_false_Forall. split.
    + intros H. destruct (List.filter f l) as [|b k] eqn:E; simpl in *; [|lia]. split; [|lia].
      apply existsb_false_Forall, Forall_forall. intros x Hx. destruct (f x) eqn:Hfx; [|done].
      assert (In x (List.filter f l)) as Hin by (apply filter_In; by rewrite <- list_elem_of_In).
      by rewrite E in Hin.
    + intros [H _]. apply existsb_false_Forall in H.
      clear IH. assert (List.filter f l = []) as ->; [|simpl; lia].
      induction H as [|x l Hx _ IHl]; simpl; [done|]. by rewrite Hx, IHl.
  - split; [|tauto]. split; [|done]. apply Forall_forall. naive_solver.
Qed.
Lemma exclusive {A} (f : A -> bool) l :
  negb (existsb f l) || (length l <=? 1)%nat = true <-> ForallOrdPairs (fun a b => f a = false /\ f b = false) l.
Proof.
  rewrite orb_true_iff, negb_true_iff, Nat.leb_le. split.
  - intros [H|H].
    + apply existsb_false_Forall in H. induction H as [|a l Ha Hl IH]; constructor; [|done].
      eapply Forall_impl; eauto.
    + destruct l as [|a [|]]; simpl in *; [constructor|repeat constructor|lia].
  - intros H. destruct l as [|a [|b l]]; [right; simpl; lia..|]. left.
    apply FOP_cons in H as [H _]. apply existsb_false_Forall.
    apply Forall_cons. split; [by apply Forall_cons in H as [[??] _]|].
    eapply Forall_impl; [exact H|naive_solver].
Qed.

Definition in_group (name : string) (r : DNSRecord) : bool := Enabled r && (Name r =? name).
Lemma enabledByName_lookup l name : enabledByName l !! name =
  match List.filter (in_group name) l with [] => None | g => Some g end.
Proof.
  unfold enabledByName. induction l as [|r l IH] using rev_ind; [done|].
  rewrite foldl_app, List.filter_app. cbn [foldl List.filter].
  set (m := foldl group_add ∅ l) in *. unfold group_add, in_group at 2.
  destruct (Enabled r); cbn [andb]; [|by rewrite app_nil_r].
  destruct (String.eqb_spec (Name r) name) as [<-|Hne].
  - rewrite lookup_insert_eq, IH. by destruct (List.filter _ l).
  - rewrite lookup_insert_ne, IH, app_nil_r by done. done.
Qed.

Lemma foldlM_unit {E A} (f : A -> result E unit) l :
  foldlM (fun _ a => f a) tt l = Ok tt <-> Forall (fun a => f a = Ok tt) l.
Proof.
  induction l as [|a l IH]; cbn [foldlM]; [done|]. rewrite Forall_cons, bind_Ok, <- IH.
  split; [by intros ([]&?&?)|naive_solver].
Qed.

Lemma check_group_Ok name g : check_group (name, g) = Ok tt <->
  ForallOrdPairs (fun a b => Type_ a <> "CNAME" /\ Type_ b <> "CNAME" /\ ~ (Proxied a = true /\ Proxied b = true)) g.
Proof.
  unfold check_group. cbv zeta. rewrite assert_step, assertDomain_Ok, exclusive, Nat.leb_le, at_most_one, FOP_and.
  apply FOP_iff. intros a b. rewrite !String.eqb_neq. tauto.
Qed.

Lemma groups_Ok order l : (forall g, order g ≡ₚ g) ->
  foldlM (fun _ g => check_group g) tt (order (map_to_list (enabledByName l))) = Ok tt
  <-> ForallOrdPairs compat l.
Proof.
  intros Hperm. rewrite foldlM_unit, Hperm. transitivity (forall name, check_group (name, List.filter (in_group name) l) = Ok tt).
  - rewrite Forall_forall. split.
    + intros H name. pose proof (enabledByName_lookup l name) as Hl.
      destruct (List.filter (in_group name) l) eqn:E; [done|]. apply H, elem_of_map_to_list. done.
    + intros H [name g] Hg%elem_of_map_to_list. rewrite enabledByName_lookup in Hg.
      specialize (H name). destruct (List.filter (in_group name) l); [done|]. by injection Hg as <-.
  - setoid_rewrite check_group_Ok. setoid_rewrite FOP_filter. rewrite FOP_forall. apply FOP_iff.
    intros a b. unfold compat, in_group. setoid_rewrite andb_true_iff. setoid_rewrite String.eqb_eq. split.
    + intros H ???. apply (H (Name a)); auto.
    + intros H name [? <-] [? ?]. apply H; auto.
Qed.

Lemma record_step_Ok options zone ids out r st :
  record_step options zone (ids, out) r = Ok st <->
  (0 < slen (TrimSpace (ID r)))%Z /\ (ID r ∉ ids) /\
  exists o, validate_record options zone r = Ok o /\ st = (ID r :: ids, out ++ [o]).
Proof.
  unfold record_step. rewrite !assert_step, Z.ltb_lt, negb_true_iff, contains_false, bind_Ok.
  setoid_rewrite ret_Ok. naive_solver.
Qed.

Lemma record_loop options zone l ids out st :
  foldlM (record_step options zone) (ids, out) l = Ok st <->
  exists new, Forall2 (fun r o => validate_record options zone r = Ok o) l new
    /\ Forall (fun r => (0 < slen (TrimSpace (ID r)))%Z) l
    /\ NoDup (map ID l) /\ Forall (fun i => i ∉ ids) (map ID l)
    /\ st = (rev (map ID l) ++ ids, out ++ new).
Proof.
  revert ids out. induction l as [|r l IH]; intros ids out; cbn [foldlM map rev].
  - split.
    + intros [= <-]. exists []. rewrite app_nil_r. repeat split; constructor.
    + intros (new&H&_&_&_&->). apply Forall2_nil_inv_l in H as ->. by rewrite app_nil_r.
  - rewrite bind_Ok. setoid_rewrite record_step_Ok. split.
    + intros (st1&(Hs&Hn&o&Ho&->)&H). apply IH in H as (new&Hnew&Hids&Hnd&Hf&->). exists (o :: new).
      rewrite Forall_forall in Hf. repeat split.
      * by constructor.
      * by constructor.
      * constructor; [|done]. intros Hin%Hf. set_solver.
      * constructor; [done|]. apply Forall_forall. intros i Hi%Hf. set_solver.
      * by rewrite <- !app_assoc.
    + intros (new&Hnew&Hids&Hnd&Hf&->). apply Forall2_cons_inv_l in Hnew as (o&new'&Ho&Hnew&->).
      apply Forall_cons in Hids as [Hid Hids]. apply NoDup_cons in Hnd as [Hn Hnd]. apply Forall_cons in Hf as [Hnf Hf].
      exists (ID r :: ids, out ++ [o]). split; [eauto|]. apply IH. exists new'. repeat split; try done.
      * rewrite Forall_forall in *. intros i Hi. specialize (Hf i Hi). set_solver.
      * by rewrite <- !app_assoc.
Qed.

(** The accepted record sets: every record is valid on its own, identifiers
    are different, and enabled records of one name do not conflict. *)
Definition record_set_spec (records : list DNSRecord) (options : RecordSetOptions) (out : list DNSRecord) : Prop :=
  exists zone, normalizeDNSName (ZoneName options) false = Ok zone
  /\ Forall2 (fun r o => validate_record options zone r = Ok o) records out
  /\ Forall (fun r => (0 < slen (TrimSpace (ID r)))%Z) records
  /\ NoDup (map ID records) /\ ForallOrdPairs compat out.

Lemma validateRecordSet_Ok order records options out : (forall g, order g ≡ₚ g) ->
  validateRecordSet order records options = Ok out <-> record_set_spec records options out.
Proof.
  intros Hperm. unfold validateRecordSet, record_set_spec. rewrite bind_Ok.
  split.
  - intros (zone&Hz&H). apply bind_Ok in H as (st&Hst&H).
    apply record_loop in Hst as (new&Hnew&Hids&Hnd&_&->). cbn [snd app] in H.
    apply bind_Ok in H as ([]&Hg&H). apply (proj1 (ret_Ok _ _)) in H as <-.
    apply groups_Ok in Hg; [|done]. eauto 10.
  - intros (zone&Hz&Hnew&Hids&Hnd&Hc). exists zone. split; [done|].
    apply bind_Ok. exists (rev (map ID records) ++ [], [] ++ out). split.
    + apply record_loop. exists out. repeat split; try done. apply Forall_forall. set_solver.
    + cbn [snd app]. apply bind_Ok. exists tt. split; [|done]. by apply groups_Ok.
Qed.

(** C35: A record set is accepted exactly when the zone name is one, every record is
    valid in it, the identifiers are present and distinct, and no two enabled records
    of one name conflict; what is returned are the records with their canonical
    names and effective TTLs. *)
Theorem validateRecordSet_iff order records options out : (forall g, order g ≡ₚ g) ->
  validateRecordSet order records options = Ok out <-> record_set_spec records options out.
Proof. apply validateRecordSet_Ok. Qed.

(** Go's map order is not observable in what is accepted and returned. *)
Theorem validateRecordSet_order order1 order2 records options out :
  (forall g, order1 g ≡ₚ g) -> (forall g, order2 g ≡ₚ g) ->
  validateRecordSet order1 records options = Ok out <-> validateRecordSet order2 records options = Ok out.
Proof. intros. by rewrite !validateRecordSet_Ok. Qed.

Lemma validate_record_shape options zone r o : validate_record options zone r = Ok o ->
  exists name, o = set_name_ttl r name (effective_ttl r) /\ canonicalRecordName (Name r) zone = Ok name
  /\ (30 <= effective_ttl r <= 86400)%Z.
Proof.
  unfold validate_record. cbv zeta. rewrite assert_step. intros [_ H]. apply bind_Ok in H as (name&Hn&H).
  apply assert_step in H as [Ht H]. inv_ok. eexists. split; [reflexivity|]. split; [done|].
  unfold MinTTL, MaxTTL in Ht. apply andb_true_iff in Ht as [??]. bsimp. lia.
Qed.

Lemma validate_record_again options zone r o : normalizeDNSName (ZoneName options) false = Ok zone ->
  name_fits (Name o) -> validate_record options zone r = Ok o -> validate_record options zone o = Ok o.
Proof.
  intros Hz Hfit H. destruct (validate_record_shape _ _ _ _ H) as (name&->&Hn&Httl).
  cbn [Name set_name_ttl] in Hfit. pose proof Hn as Hn'.
  apply canonicalRecordName_Ok in Hn as (z&Hz2&Hin&Hl&Hs).
  pose proof (canonicalRecordName_fixed z zone name Hz2 Hin Hl Hs Hfit) as Hfix.
  assert (effective_ttl (set_name_ttl r name (effective_ttl r)) = effective_ttl r) as He.
  { unfold effective_ttl at 1; cbn [set_name_ttl TTL]. destruct (Z.eqb_spec (effective_ttl r) 0); [lia|done]. }
  unfold validate_record in H |- *. rewrite He.
  cbn [set_name_ttl ID Name Type_ Value Enabled Comment Proxied Proxy]. 
  cbv zeta in H |- *. rewrite Hn' in H. rewrite Hfix. exact H.
Qed.

(** A record set that was accepted, with names that fit in 253 bytes and 127
    labels, is accepted again and unchanged. *)
Theorem validateRecordSet_idempotent order records options out : (forall g, order g ≡ₚ g) ->
  validateRecordSet order records options = Ok out -> Forall (fun o => name_fits (Name o)) out ->
  validateRecordSet order out options = Ok out.
Proof.
  intros Hperm. rewrite !validateRecordSet_Ok by done.
  intros (zone&Hz&Hf&Hids&Hnd&Hc) Hfit. exists zone.
  assert (map ID out = map ID records) as HID.
  { clear -Hf. induction Hf as [|r o l k H _ IH]; [done|]. cbn [map]. rewrite IH.
    destruct (validate_record_shape _ _ _ _ H) as (?&->&_). done. }
  repeat split; try done.
  - clear -Hf Hfit Hz. induction Hf as [|r o l k H _ IH]; [constructor|].
    apply Forall_cons in Hfit as [??]. constructor; [by eapply validate_record_again|auto].
  - apply (List.Forall_map ID (fun i => (0 < slen (TrimSpace i))%Z)). rewrite HID.
    by apply (List.Forall_map ID (fun i => (0 < slen (TrimSpace i))%Z)).
  - by rewrite HID.
Qed.

(** ** Certificates *)
(** A name covers itself; ["*.rest"] covers one more label in front of [rest]. *)
Definition covers (candidate host : string) : Prop :=
  host = candidate \/ exists label rest, candidate = "*." +:+ rest /\ free_of "." label /\ host = label +:+ "." +:+ rest.

Lemma or_iff_both (A B C D : Prop) : (A <-> B) -> (C <-> D) -> A \/ C <-> B \/ D.
Proof. tauto. Qed.

Lemma host_covered_spec host candidate : host_covered host candidate = true <-> covers (fold_host candidate) host.
Proof.
  unfold host_covered, covers. cbv zeta. set (c := fold_host candidate).
  rewrite orb_true_iff, !andb_true_iff, String.eqb_eq, HasPrefix_spec, HasSuffix_spec, Nat.eqb_eq.
  apply or_iff_both; [split; congruence|]. split.
  - intros [[[rest ->] [label ->]] Hlen]. cbn [String.append drop_s] in *.
    exists label, rest. repeat split. apply Split_length_1. rewrite length_Split_app in Hlen.
    change (String "*" (String "." rest)) with ("*" +:+ String "." rest) in Hlen.
    rewrite length_Split_app in Hlen. change (length (Split "." "*")) with 1 in Hlen. lia.
  - intros (label&rest&->&Hf&->). cbn [String.append drop_s]. repeat split; [eauto..|].
    change (String "*" (String "." rest)) with ("*" +:+ String "." rest).
    rewrite !length_Split_app. by rewrite (Split_single _ _ Hf).
Qed.

Definition certificate_for (host id : string) (c : CertificateStatus) : Prop :=
  CID c = id /\ (Status c = "active" \/ Status c = "issued")
  /\ exists candidate, candidate ∈ Hostnames c /\ covers (fold_host candidate) (fold_host host).

Lemma find_first_unique {A} (p : A -> bool) (key : A -> string) k l a :
  (forall b, p b = true <-> key b = k) -> NoDup (map key l) -> a ∈ l -> key a = k -> find_first p l = Some a.
Proof.
  intros Hp. induction l as [|b l IH]; [set_solver|]. cbn [map find_first]. intros [Hn Hnd]%NoDup_cons Ha Hk.
  apply elem_of_cons in Ha as [-> |Ha]; [by rewrite (proj2 (Hp b) Hk)|].
  destruct (p b) eqn:Hb; [|auto]. apply Hp in Hb. exfalso. apply Hn. apply list_elem_of_fmap.
  exists a. split; [congruence|done].
Qed.

(** With distinct certificate ids: a TLS host is accepted exactly when the
    named certificate is usable and covers it. *)
Theorem validateProxyCertificate_iff host id certificates : NoDup (map CID certificates) ->
  validateProxyCertificate host true id (Some certificates) = Ok tt
  <-> id <> "" /\ exists c, c ∈ certificates /\ certificate_for host id c.
Proof.
  intros Hnd. unfold validateProxyCertificate. cbn [negb]. rewrite assert_step, negb_true_iff, String.eqb_neq.
  apply and_iff_compat_l. split.
  - destruct (find_first _ certificates) as [c|] eqn:Hf; [|done].
    apply find_first_Some in Hf as [Hc Hid%String.eqb_eq].
    rewrite assert_step, assertDomain_Ok, orb_true_iff, !String.eqb_eq, existsb_elem.
    setoid_rewrite host_covered_spec. intros [Hs Hcov]. exists c. repeat split; done.
  - intros (c&Hc&Hid&Hs&Hcov).
    rewrite (find_first_unique _ CID id certificates c) by (try done; intros; apply String.eqb_eq).
    rewrite assert_step, assertDomain_Ok, orb_true_iff, !String.eqb_eq, existsb_elem.
    setoid_rewrite host_covered_spec. done.
Qed.

(** ** Resolver pools and forwarding rules *)
Definition endpoint_good (e : ResolverEndpoint) : Prop := (0 < ipVersion (Host e))%Z /\ (1 <= EPort e <= 65535)%Z.
Definition pool_good (p : ResolverPool) : Prop :=
  (0 < slen (TrimSpace (PoolID p)))%Z /\ Endpoints p <> [] /\ Forall endpoint_good (Endpoints p).

Lemma validateResolverEndpoint_Ok e e' : validateResolverEndpoint e = Ok e' <-> endpoint_good e /\ e = e'.
Proof. unfold validateResolverEndpoint, endpoint_good. rewrite !assert_step, ret_Ok, Z.ltb_lt, port_ok_spec. tauto. Qed.
Lemma validateResolverPool_Ok p p' : validateResolverPool p = Ok p' <-> pool_good p /\ p' = p.
Proof.
  unfold validateResolverPool, pool_good. rewrite !assert_step, Z.ltb_lt, negb_true_iff, bool_decide_eq_false.
  rewrite bind_Ok. setoid_rewrite mapM_res_Ok. setoid_rewrite ret_Ok. destruct p as [id es]; cbn [PoolID Endpoints].
  assert (forall k, Forall2 (fun x y => validateResolverEndpoint x = Ok y) es k <-> Forall endpoint_good es /\ k = es) as H.
  { intros k. split.
    - induction 1 as [|e e' l k He _ [IH ->]]; [split; constructor|].
      apply validateResolverEndpoint_Ok in He as [? <-]. split; [by constructor|done].
    - intros [Hf ->]. induction Hf; constructor; [by apply validateResolverEndpoint_Ok|done]. }
  setoid_rewrite H. naive_solver.
Qed.

Definition forwarding_good (r o : ForwardingRule) : Prop :=
  normalizeDNSName (Suffix r) false = Ok (Suffix o) /\ pool_good (Pool r) /\ Pool o = Pool r.

Lemma forwarding_step_Ok seen out r st : forwarding_step (seen, out) r = Ok st <->
  exists o, forwarding_good r o /\ (Suffix o ∉ seen) /\ st = (Suffix o :: seen, out ++ [o]).
Proof.
  unfold forwarding_step, forwarding_good. rewrite bind_Ok. setoid_rewrite assert_step. setoid_rewrite negb_true_iff.
  setoid_rewrite contains_false. setoid_rewrite bind_Ok. setoid_rewrite ret_Ok. setoid_rewrite validateResolverPool_Ok.
  split.
  - intros (s&Hs&Hn&p&[Hp ->]&<-). by exists (mkForwarding s (Pool r)).
  - intros ([s p]&(Hs&Hp&Hpe)&Hn&->). cbn [Suffix Pool] in *. subst p. eauto 10.
Qed.

Lemma forwarding_loop l seen out st : foldlM forwarding_step (seen, out) l = Ok st <->
  exists new, Forall2 forwarding_good l new /\ NoDup (map Suffix new)
    /\ Forall (fun s => s ∉ seen) (map Suffix new) /\ st = (rev (map Suffix new) ++ seen, out ++ new).
Proof.
  revert seen out. induction l as [|r l IH]; intros seen out; cbn [foldlM].
  - split.
    + intros [= <-]. exists []. rewrite app_nil_r. repeat split; constructor.
    + intros (new&H&_&_&->). apply Forall2_nil_inv_l in H as ->. by rewrite app_nil_r.
  - rewrite bind_Ok. setoid_rewrite forwarding_step_Ok. split.
    + intros (st1&(o&Hg&Hn&->)&H). apply IH in H as (new&Hnew&Hnd&Hf&->). exists (o :: new).
      rewrite Forall_forall in Hf. cbn [map rev]. repeat split.
      * by constructor.
      * constructor; [|done]. intros Hin%Hf. set_solver.
      * constructor; [done|]. apply Forall_forall. intros i Hi%Hf. set_solver.
      * by rewrite <- !app_assoc.
    + intros (new&Hnew&Hnd&Hf&->). apply Forall2_cons_inv_l in Hnew as (o&new'&Ho&Hnew&->).
      cbn [map rev] in *. apply NoDup_cons in Hnd as [Hn Hnd]. apply Forall_cons in Hf as [Hnf Hf].
      exists (Suffix o :: seen, out ++ [o]). split; [eauto|]. apply IH. exists new'. repeat split; try done.
      * rewrite Forall_forall in *. intros i Hi. specialize (Hf i Hi). set_solver.
      * by rewrite <- !app_assoc.
Qed.

Lemma validateForwardingRules_Ok rules out : validateForwardingRules rules = Ok out <->
  Forall2 forwarding_good rules out /\ NoDup (map Suffix out).
Proof.
  unfold validateForwardingRules. rewrite bind_Ok. setoid_rewrite ret_Ok. split.
  - intros (st&H&<-). apply forwarding_loop in H as (new&?&?&_&->). done.
  - intros [H Hnd]. eexists. split; [apply forwarding_loop; exists out; repeat split; try done; apply Forall_forall; set_solver|done].
Qed.

(** Accepted rules have canonical, pairwise different suffixes and literal
    resolvers; accepting them again changes nothing. *)
Theorem validateForwardingRules_canonical rules out : validateForwardingRules rules = Ok out ->
  Forall2 forwarding_good rules out /\ NoDup (map Suffix out)
  /\ Forall (fun o => canonical_name false (Suffix o)) out /\ validateForwardingRules out = Ok out.
Proof.
  intros H. apply validateForwardingRules_Ok in H as [Hf Hnd]. repeat split; try done.
  - clear Hnd. induction Hf as [|r o l k [Hs _] _ IH]; constructor; [|done]. by apply normalizeDNSName_Ok in Hs as [_ ?].
  - apply validateForwardingRules_Ok. split; [|done]. clear Hnd.
    induction Hf as [|r o l k (Hs&Hp&He) _ IH]; constructor; [|done].
    unfold forwarding_good. rewrite He. split; [|done]. apply normalizeDNSName_Ok in Hs as [_ Hs]. by apply normalize_canonical.
Qed.

(** ** The length limit is not enforced on the name with its zone appended *)
Fixpoint repeat_s (n : nat) (s : string) : string := match n with O => "" | S n => s +:+ repeat_s n s end.
Definition long_name : string := repeat_s 120 "a." +:+ "a".
Theorem canonicalRecordName_too_long : exists r,
  canonicalRecordName long_name long_name = Ok long_name
  /\ canonicalRecordName long_name ("b." +:+ long_name) = Ok r /\ (slen r = 485)%Z
  /\ is_ok (normalizeDNSName r true) = false.
Proof. eexists. split; [vm_compute; reflexivity|]. split; [vm_compute; reflexivity|]. split; by vm_compute. Qed.
