(* ===== verification/Collate.v ===== *)
(** * Name ordering (renderers/collate.go)

    [localeCompare] orders texts case-insensitively first and puts the lower
    case letter first on a tie. *)

From S2P Require Import Prelude GoStrings StrFacts Json.
From stdpp Require Import options.
#[local] Open Scope Z_scope.

Definition cmp_int (c : comparison) : Z := match c with Lt => -1 | Eq => 0 | Gt => 1 end.
(** A rune's code point order is the byte order of its UTF-8 text; an invalid
    byte decodes to U+FFFD. *)
Definition rune_text (r : option string) : string := default RuneError r.
(** The texts are equal up to case, so neither list ends before the other. *)
Fixpoint first_difference (l k : list (option string)) : Z :=
  match l, k with
  | x :: l, y :: k =>
      match Compare (rune_text x) (rune_text y) with
      | Eq => first_difference l k | Gt => -1 | Lt => 1
      end
  | _, _ => 0
  end.
Definition localeCompare (left right : string) : Z :=
  let primary := cmp_int (Compare (ToLower left) (ToLower right)) in
  if negb (primary =? 0) then primary else first_difference (runes left) (runes right).

(** ** On ASCII texts it is a total order *)
Definition ascii_text (s : string) : bool := sall (fun c => code c <? 128)%Z s.

Fixpoint ascii_diff (s t : string) : Z :=
  match s, t with
  | String x s, String y t =>
      match (code x ?= code y)%Z with Eq => ascii_diff s t | Gt => -1 | Lt => 1 end
  | _, _ => 0
  end.

Fixpoint lower_all (s : string) : string :=
  match s with EmptyString => EmptyString | String c s => String (lower_char c) (lower_all s) end.
Lemma ToLower_ascii s : ascii_text s = true -> ToLower s = lower_all s.
Proof.
  unfold ascii_text. induction s as [|a s IH]; [done|]. cbn [sall]. intros [Ha Hs]%andb_true_iff.
  specialize (IH Hs). apply Z.ltb_lt in Ha. cbn [lower_all]. rewrite <- IH.
  destruct s as [|b [|c s]]; cbn [ToLower]; [done|..].
  - destruct (Z.eqb_spec (code a) 196); [lia|done].
  - destruct (Z.eqb_spec (code a) 196); [lia|]. destruct (Z.eqb_spec (code a) 226); [lia|done].
Qed.

Lemma runes_ascii_cons a s : (code a <? 128) = true -> runes (String a s) = Some (char a) :: runes s.
Proof. intros H. cbn [runes]. by rewrite H. Qed.
Lemma first_difference_ascii s t : ascii_text s = true -> ascii_text t = true ->
  first_difference (runes s) (runes t) = ascii_diff s t.
Proof.
  unfold ascii_text. revert t; induction s as [|x s IH]; intros [|y t]; cbn [sall].
  - done.
  - intros _ [Hy _]%andb_true_iff. by rewrite (runes_ascii_cons _ _ Hy).
  - intros [Hx _]%andb_true_iff _. by rewrite (runes_ascii_cons _ _ Hx).
  - intros [Hx Hs]%andb_true_iff [Hy Ht]%andb_true_iff.
    rewrite (runes_ascii_cons _ _ Hx), (runes_ascii_cons _ _ Hy). cbn [first_difference ascii_diff].
    unfold rune_text, char. cbn [default from_option id Compare]. unfold default, id. cbn [Compare].
    destruct (code x ?= code y); [by apply IH|done|done].
Qed.

Lemma localeCompare_ascii s t : ascii_text s = true -> ascii_text t = true ->
  localeCompare s t =
  match Compare (lower_all s) (lower_all t) with Eq => ascii_diff s t | Lt => -1 | Gt => 1 end.
Proof.
  intros Hs Ht. unfold localeCompare. rewrite !ToLower_ascii, first_difference_ascii by done.
  by destruct (Compare (lower_all s) (lower_all t)).
Qed.

Lemma ascii_diff_opp s t : ascii_diff t s = - ascii_diff s t.
Proof.
  revert t; induction s as [|x s IH]; intros [|y t]; cbn [ascii_diff]; try done.
  rewrite (Z.compare_antisym (code x) (code y)). destruct (code x ?= code y); cbn; auto.
Qed.
Lemma ascii_diff_zero s t : lower_all s = lower_all t -> ascii_diff s t = 0 -> s = t.
Proof.
  revert t; induction s as [|x s IH]; intros [|y t]; cbn [ascii_diff lower_all]; try done.
  intros [= _ H]. destruct (Z.compare_spec (code x) (code y)) as [E%code_inj| |]; try done.
  intros. subst. f_equal. auto.
Qed.
Lemma ascii_diff_trans s t u : lower_all s = lower_all t -> lower_all t = lower_all u ->
  ascii_diff s t <= 0 -> ascii_diff t u <= 0 -> ascii_diff s u <= 0.
Proof.
  revert t u; induction s as [|x s IH]; intros [|y t] [|z u]; cbn [ascii_diff lower_all]; try done; try lia.
  intros [= _ H1] [= _ H2].
  destruct (Z.compare_spec (code x) (code y)), (Z.compare_spec (code y) (code z)),
    (Z.compare_spec (code x) (code z)); try lia. intros. eapply IH; eauto.
Qed.

Lemma localeCompare_opp s t : ascii_text s = true -> ascii_text t = true ->
  localeCompare t s = - localeCompare s t.
Proof.
  intros Hs Ht. rewrite !localeCompare_ascii by done. rewrite (Compare_opp (lower_all s)).
  destruct (Compare (lower_all s) (lower_all t)); cbn; [apply ascii_diff_opp|done|done].
Qed.
Lemma localeCompare_zero s t : ascii_text s = true -> ascii_text t = true ->
  localeCompare s t = 0 <-> s = t.
Proof.
  intros Hs Ht. rewrite localeCompare_ascii by done. split.
  - destruct (Compare (lower_all s) (lower_all t)) eqn:E; try done.
    apply Compare_Eq in E. by apply ascii_diff_zero.
  - intros ->. rewrite Compare_refl. pose proof (ascii_diff_opp t t). lia.
Qed.
Lemma localeCompare_trans s t u : ascii_text s = true -> ascii_text t = true -> ascii_text u = true ->
  localeCompare s t <= 0 -> localeCompare t u <= 0 -> localeCompare s u <= 0.
Proof.
  intros Hs Ht Hu. rewrite !localeCompare_ascii by done.
  destruct (Compare (lower_all s) (lower_all t)) eqn:E1, (Compare (lower_all t) (lower_all u)) eqn:E2; try lia.
  - apply Compare_Eq in E1, E2. rewrite E1, E2, Compare_refl. by apply ascii_diff_trans.
  - apply Compare_Eq in E1. rewrite E1, E2. lia.
  - apply Compare_Eq in E2. rewrite <- E2, E1. lia.
  - rewrite (Compare_Lt_trans _ _ _ E1 E2). lia.
Qed.

(** On ASCII texts [localeCompare] is a total order: antisymmetric, zero only
    on equal texts, transitive. *)
Theorem localeCompare_total_order s t u :
  ascii_text s = true -> ascii_text t = true -> ascii_text u = true ->
  localeCompare t s = - localeCompare s t
  /\ (localeCompare s t = 0 <-> s = t)
  /\ (localeCompare s t <= 0 -> localeCompare t u <= 0 -> localeCompare s u <= 0).
Proof.
  intros. split; [by apply localeCompare_opp|]. split; [by apply localeCompare_zero|by apply localeCompare_trans].
Qed.

(** Sorting by an ASCII key: the two facts stable sorting needs. *)
Definition locale_less {A} (key : A -> string) (a b : A) : bool := (localeCompare (key a) (key b) <? 0).
