(* ===== verification/RProxy.v ===== *)
(** * Proxy settings as the nginx renderer sees them (renderers/proxy.go)

    The settings map is validated, marshalled and decoded into a typed record.
    [json.Unmarshal] matches object keys to field names without regard to case
    and visits the fields in key order, a later match overriding an earlier one. *)

From S2P Require Import Prelude GoStrings StrFacts Json Model Proxy.
From stdpp Require Import options.

Record Http3Capabilities := mkHttp3 { Http3Module : bool; TCP443Published : bool; UDP443Published : bool }.

Record originSettings := mkOrigin { OIP : string; OPort : Z; OProtocol : string }.
Record basicAuthSettings := mkBasicAuth { Username : string; PasswordSecretID : string }.
Record timeoutSettings := mkTimeouts {
  ConnectSeconds : option Z; SendReadSeconds : option Z; ClientHeaderSeconds : option Z; BodyLimitMb : option Z }.
Record headerRule := mkHeader { HName : string; HValue : string }.
Record pathAction := mkAction { AType : string; AStatus : Z; ALocation : option string; ARewrite : string }.
Record pathRule := mkPathRule { Kind : string; Pattern : string; Action : pathAction }.
Record proxySettings := mkProxySettings {
  Origin : originSettings; TLSEnabled : bool; CertificateID : string; HTTP2 : option bool; HTTP3 : bool;
  RedirectHTTPToHTTPS : option bool; BackendTLSVerify : bool; Websocket : bool; Cache : option bool;
  BasicAuth : option basicAuthSettings; Timeouts : timeoutSettings; Headers : list headerRule;
  PathRules : list pathRule; NginxDirectives : string }.

Definition http2 (s : proxySettings) : bool := default (TLSEnabled s) (HTTP2 s).
Definition redirectHTTPToHTTPS (s : proxySettings) : bool := default true (RedirectHTTPToHTTPS s).
Definition cacheEnabled (s : proxySettings) : bool := default false (Cache s).
Definition intOr (value : option Z) (fallback : Z) : Z := default fallback value.

(** ** Decoding: [None] is a type mismatch

    A decoder reads a value into a variable that holds [cur]. *)
Definition decoder A := json -> A -> option A.
(** [foldName]: ASCII letters in upper case; U+017F folds to S, U+212A to K. *)
Definition upper_char (c : ascii) : ascii := if is_lower c then byte_of (code c - 32) else c.
Fixpoint foldName (s : string) : string :=
  match s with
  | String a s1 =>
      match s1 with
      | String b s2 =>
          if (code a =? 197)%Z && (code b =? 191)%Z then String "S" (foldName s2) else
          match s2 with
          | String c s3 =>
              if (code a =? 226)%Z && (code b =? 132)%Z && (code c =? 170)%Z
              then String "K" (foldName s3) else String (upper_char a) (foldName s1)
          | EmptyString => String (upper_char a) (foldName s1)
          end
      | EmptyString => String (upper_char a) EmptyString
      end
  | EmptyString => EmptyString
  end.
(** One field of a struct: every key that matches its name is decoded in turn. *)
Definition field {A} (m : gomap) (name : string) (dec : decoder A) (cur : A) : option A :=
  foldl (fun acc f => a ← acc; if foldName f.1 =? foldName name then dec f.2 a else Some a)
    (Some cur) (SliceStable key_less m).

Definition dec_string : decoder string := fun v cur =>
  match v with JNull => Some cur | JStr s => Some (valid_utf8 s) | _ => None end.
Definition dec_bool : decoder bool := fun v cur =>
  match v with JNull => Some cur | JBool b => Some b | _ => None end.
Definition dec_int : decoder Z := fun v cur =>
  match v with JNull => Some cur | JNum z => Some z | _ => None end.
Definition dec_ptr {A} (zero : A) (dec : decoder A) : decoder (option A) := fun v cur =>
  match v with JNull => Some None | _ => Some <$> dec v (default zero cur) end.
Definition dec_struct {A} (dec : gomap -> A -> option A) : decoder A := fun v cur =>
  match v with JNull => Some cur | JObj m => dec m cur | _ => None end.
Definition dec_slice {A} (zero : A) (dec : decoder A) : decoder (list A) := fun v cur =>
  match v with JNull => Some [] | JArr l => mapM (fun x => dec x zero) l | _ => None end.

Definition dec_origin : decoder originSettings := dec_struct (fun m cur =>
  ip ← field m "ip" dec_string (OIP cur);
  port ← field m "port" dec_int (OPort cur);
  protocol ← field m "protocol" dec_string (OProtocol cur);
  Some (mkOrigin ip port protocol)).
Definition dec_basic_auth : decoder basicAuthSettings := dec_struct (fun m cur =>
  username ← field m "username" dec_string (Username cur);
  secret ← field m "passwordSecretId" dec_string (PasswordSecretID cur);
  Some (mkBasicAuth username secret)).
Definition dec_timeouts : decoder timeoutSettings := dec_struct (fun m cur =>
  connect ← field m "connectSeconds" (dec_ptr 0%Z dec_int) (ConnectSeconds cur);
  sendRead ← field m "sendReadSeconds" (dec_ptr 0%Z dec_int) (SendReadSeconds cur);
  client ← field m "clientHeaderSeconds" (dec_ptr 0%Z dec_int) (ClientHeaderSeconds cur);
  body ← field m "bodyLimitMb" (dec_ptr 0%Z dec_int) (BodyLimitMb cur);
  Some (mkTimeouts connect sendRead client body)).
Definition dec_cache : decoder bool := dec_struct (fun m cur => field m "enabled" dec_bool cur).
Definition dec_header : decoder headerRule := dec_struct (fun m cur =>
  name ← field m "name" dec_string (HName cur);
  value ← field m "value" dec_string (HValue cur);
  Some (mkHeader name value)).
Definition dec_action : decoder pathAction := dec_struct (fun m cur =>
  type ← field m "type" dec_string (AType cur);
  status ← field m "status" dec_int (AStatus cur);
  location ← field m "location" (dec_ptr "" dec_string) (ALocation cur);
  rewrite ← field m "rewrite" dec_string (ARewrite cur);
  Some (mkAction type status location rewrite)).
Definition dec_path_rule : decoder pathRule := dec_struct (fun m cur =>
  kind ← field m "kind" dec_string (Kind cur);
  pattern ← field m "pattern" dec_string (Pattern cur);
  action ← field m "action" dec_action (Action cur);
  Some (mkPathRule kind pattern action)).

Definition zero_origin := mkOrigin "" 0 "".
Definition zero_basic_auth := mkBasicAuth "" "".
Definition zero_timeouts := mkTimeouts None None None None.
Definition zero_action := mkAction "" 0 None "".
Definition zero_path_rule := mkPathRule "" "" zero_action.
Definition zero_header := mkHeader "" "".

Definition dec_settings (m : gomap) : option proxySettings :=
  origin ← field m "origin" dec_origin zero_origin;
  tls ← field m "tlsEnabled" dec_bool false;
  certificate ← field m "certificateId" dec_string "";
  http2 ← field m "http2" (dec_ptr false dec_bool) None;
  http3 ← field m "http3" dec_bool false;
  redirect ← field m "redirectHttpToHttps" (dec_ptr false dec_bool) None;
  verify ← field m "backendTlsVerify" dec_bool false;
  websocket ← field m "websocket" dec_bool false;
  cache ← field m "cache" (dec_ptr false dec_cache) None;
  auth ← field m "basicAuth" (dec_ptr zero_basic_auth dec_basic_auth) None;
  timeouts ← field m "timeouts" dec_timeouts zero_timeouts;
  headers ← field m "headers" (dec_slice zero_header dec_header) [];
  rules ← field m "pathRules" (dec_slice zero_path_rule dec_path_rule) [];
  directives ← field m "nginxDirectives" dec_string "";
  Some (mkProxySettings origin tls certificate http2 http3 redirect verify websocket cache auth timeouts
    headers rules directives).

(** ** Normalization *)
(** [\r\n?] replaced by a line feed. *)
Fixpoint line_breaks (s : string) : string :=
  match s with
  | String c s' =>
      if ascii_eqb c CR then
        String LF (match s' with
                   | String d s'' => if ascii_eqb d LF then line_breaks s'' else line_breaks s'
                   | EmptyString => EmptyString
                   end)
      else String c (line_breaks s')
  | EmptyString => EmptyString
  end.
Definition normalizeDirectives (directives : string) : string := TrimSpace (line_breaks directives).
Definition normalizePath (path : string) : string :=
  let normalized := TrimSpace path in
  if (1 <? slen normalized)%Z then TrimRightChar normalized "/" else normalized.

Inductive render_error : Type :=
| ErrValidation (e : ValidationError)
| ErrDecode
| ErrNoProxy (name : string)
| ErrCertificate (name : string)
| ErrACMEUpstream (value : string).
#[global] Instance render_error_eq_dec : EqDecision render_error.
Proof. solve_decision. Defined.
Abbreviation rendered := (result render_error).
(** A domain error passed on to the caller. *)
Definition lift_validation {A} (r : validated A) : rendered A :=
  match r with Ok a => Ok a | Err e => Err (ErrValidation e) end.

Definition lower_header (h : headerRule) : headerRule := mkHeader (ToLower (HName h)) (HValue h).
Definition normalize_rule (r : pathRule) : pathRule := mkPathRule (Kind r) (normalizePath (Pattern r)) (Action r).
Definition normalize_settings (s : proxySettings) : proxySettings :=
  mkProxySettings (Origin s) (TLSEnabled s) (CertificateID s) (HTTP2 s) (HTTP3 s) (RedirectHTTPToHTTPS s)
    (BackendTLSVerify s) (Websocket s) (Cache s) (BasicAuth s) (Timeouts s)
    (map lower_header (Headers s)) (map normalize_rule (PathRules s)) (normalizeDirectives (NginxDirectives s)).

Definition normalizeProxySettings (proxy : gomap) (capabilities : Http3Capabilities) : rendered proxySettings :=
  let forDomain := mdel proxy "http3" in
  let http3 := proxyBool proxy "http3" in
  lift_validation (validateProxySettings forDomain None);;
  let tlsEnabled := proxyBool proxy "tlsEnabled" in
  (if http3 then
     ensure (Http3Module capabilities && TCP443Published capabilities && UDP443Published capabilities)
       (ErrValidation (mkValidationError "HTTP/3 requires binary support and published TCP/UDP 443" "HTTP3_UNAVAILABLE"));;
     ensure tlsEnabled (ErrValidation (mkValidationError "HTTP/3 requires client TLS" "HTTP3_TLS"))
   else mret tt);;
  match dec_settings proxy with
  | None => Err ErrDecode
  | Some settings => mret (normalize_settings settings)
  end.
