(* ===== verification/Nginx.v ===== *)
(** * The nginx renderer (renderers/nginx.go)

    One candidate configuration from the enabled, proxied records and the
    stream routes, and its checksum. *)

From S2P Require Import Prelude GoStrings StrFacts Json Sha256 Model Proxy Collate RProxy.
From stdpp Require Import options.

Definition dq (s : string) : string := String DQ (s +:+ char DQ).

(** ** Values and paths *)
Definition plain_value_char (c : ascii) : bool := is_alnum c || one_of "_./:$-" c.
Definition plainValuePattern (s : string) : bool := negb (s =? "") && sall plain_value_char s.
Definition nginxValue (value : string) : string :=
  if plainValuePattern value then value else
  let escaped := ReplaceAll value (char BS) (String BS (char BS)) in
  let escaped := ReplaceAll escaped (char DQ) (String BS (char DQ)) in
  dq escaped.
Definition formatHost (host : string) : string :=
  if ContainsChar host ":" then "[" +:+ host +:+ "]" else host.
Definition certificateFilePath (certificateID candidatePath extension : string) : string :=
  if candidatePath =? "" then "/etc/nginx/certs/" +:+ certificateID +:+ "." +:+ extension
  else candidatePath +:+ "/certs/" +:+ certificateID +:+ "." +:+ extension.
Definition basicAuthFilePath (secretID candidatePath : string) : string :=
  if candidatePath =? "" then "/run/proxycore/basic-auth/" +:+ secretID
  else candidatePath +:+ "/basic-auth/" +:+ secretID.

(** ** ACME *)
Definition defaultACMEUpstream : string := "http://127.0.0.1:3000".
Definition acme_host (s : string) : bool :=
  negb (s =? "") && sall (fun c => negb (ascii_eqb c "/" || re_space c)) s.
(** [(?i)^https?://[^/\s]+$] *)
Definition acmeUpstreamPattern (s : string) : bool :=
  existsb (fun scheme => match match_fold scheme s true with Some (_, rest) => acme_host rest | None => false end)
    ["https://"; "http://"].
Definition normalizeACMEUpstream (value : string) : rendered string :=
  let value := if value =? "" then defaultACMEUpstream else value in
  let upstream := TrimRightChar (TrimSpace value) "/" in
  if negb (acmeUpstreamPattern upstream) then Err (ErrACMEUpstream value) else mret upstream.
Definition renderACMEChallengeLocation (acmeUpstream : string) : list string :=
  ["    location ^~ /.well-known/acme-challenge/ {";
   "        proxy_pass " +:+ acmeUpstream +:+ "/api/acme-challenge/;";
   "        proxy_set_header Host $host;";
   "        proxy_set_header X-Forwarded-Proto $scheme;";
   "        proxy_set_header X-Real-IP $remote_addr;";
   "    }"].
Definition renderACMEDefaultServer (acmeUpstream : string) : string :=
  Join (["server {"; "    listen 80 default_server;"; "    listen [::]:80 default_server;"; "    server_name _;"]
        ++ renderACMEChallengeLocation acmeUpstream
        ++ ["    location ^~ / {"; "        return 404;"; "    }"; "}"]) nl.

(** ** Custom directives *)
Fixpoint cut_comment (s : string) : string :=
  match s with String c s => if ascii_eqb c "#" then EmptyString else String c (cut_comment s) | EmptyString => EmptyString end.
Definition directive_char (c : ascii) : bool := is_alnum c || one_of "_-" c.
(** The longest extension of a name that ends at a word boundary. *)
Fixpoint name_ext (last : bool) (s : string) : option string :=
  match match s with
        | String c s' => if directive_char c then String c <$> name_ext (is_word c) s' else None
        | EmptyString => None
        end with
  | Some t => Some t
  | None => if word_boundary last s then Some "" else None
  end.
(** A letter or underscore, then letters, digits, underscores and hyphens up to a word boundary: the submatch. *)
Definition directiveNamePattern (s : string) : option string :=
  match s with
  | String c s => if is_upper c || is_lower c || ascii_eqb c "_" then String c <$> name_ext true s else None
  | EmptyString => None
  end.
Definition nginxDirectiveNames (directives : string) : list string :=
  omap (fun line => directiveNamePattern (TrimSpace (cut_comment line))) (Split LF directives).
Definition renderNginxDirectives (directives : string) : list string :=
  omap (fun line : string => let trimmed := TrimSpace line in
                    if trimmed =? "" then None else Some ("    " +:+ trimmed)) (Split LF directives).

Definition seconds (name : string) (v : Z) : string := "    " +:+ name +:+ " " +:+ itoa v +:+ "s;".
Definition renderCommonProxyDirectives (settings : proxySettings) : list string :=
  let custom := nginxDirectiveNames (NginxDirectives settings) in
  let addDefault name line := if contains custom name then [] else [line : string] in
  let t := Timeouts settings in
  addDefault "proxy_set_header" "    proxy_set_header Host $host;"
  ++ addDefault "proxy_set_header" "    proxy_set_header X-Real-IP $remote_addr;"
  ++ addDefault "proxy_set_header" "    proxy_set_header X-Forwarded-For $proxy_add_x_forwarded_for;"
  ++ addDefault "proxy_set_header" "    proxy_set_header X-Forwarded-Proto $scheme;"
  ++ addDefault "proxy_http_version" "    proxy_http_version 1.1;"
  ++ addDefault "proxy_connect_timeout" (seconds "proxy_connect_timeout" (intOr (ConnectSeconds t) 5))
  ++ addDefault "proxy_send_timeout" (seconds "proxy_send_timeout" (intOr (SendReadSeconds t) 60))
  ++ addDefault "proxy_read_timeout" (seconds "proxy_read_timeout" (intOr (SendReadSeconds t) 60))
  ++ addDefault "client_header_timeout" (seconds "client_header_timeout" (intOr (ClientHeaderSeconds t) 15))
  ++ addDefault "client_max_body_size" ("    client_max_body_size " +:+ itoa (intOr (BodyLimitMb t) 10) +:+ "m;")
  ++ (if OProtocol (Origin settings) =? "https" then
        addDefault "proxy_ssl_verify" ("    proxy_ssl_verify " +:+ (if BackendTLSVerify settings then "on" else "off") +:+ ";")
      else [])
  ++ (if Websocket settings then
        addDefault "proxy_set_header" "    proxy_set_header Upgrade $http_upgrade;"
        ++ addDefault "proxy_set_header" "    proxy_set_header Connection $connection_upgrade;"
        ++ addDefault "proxy_buffering" "    proxy_buffering off;"
      else [])
  ++ (if cacheEnabled settings then addDefault "proxy_cache" "    proxy_cache proxycore_cache;" else [])
  ++ (if contains custom "proxy_set_header" then [] else
        map (fun h => "    proxy_set_header " +:+ HName h +:+ " " +:+ nginxValue (HValue h) +:+ ";") (Headers settings))
  ++ renderNginxDirectives (NginxDirectives settings).

(** ** Locations *)
Definition location_less (left right : pathRule) : bool :=
  if negb (Kind left =? Kind right) then Kind left =? "exact"
  else (slen (Pattern right) <? slen (Pattern left))%Z.
Definition is_root_prefix (r : pathRule) : bool := (Kind r =? "prefix") && (Pattern r =? "/").
Definition root_rule : pathRule := mkPathRule "prefix" "/" (mkAction "proxy" 0 None "").
(** The rules in the order their blocks are written. *)
Definition ordered_locations (rules : list pathRule) : list pathRule :=
  let locations := SliceStable location_less rules in
  if existsb is_root_prefix locations then locations else locations ++ [root_rule].
Definition location_block (origin : string) (settings : proxySettings) (rule : pathRule) : string :=
  let location := if Kind rule =? "exact" then "    location = " +:+ Pattern rule +:+ " {"
                  else "    location " +:+ Pattern rule +:+ " {" in
  if AType (Action rule) =? "redirect" then
    let target := default "/" (ALocation (Action rule)) in
    Join [location; "        return " +:+ itoa (AStatus (Action rule)) +:+ " " +:+ nginxValue target +:+ ";"; "    }"] nl
  else
    let passTarget := if negb (ARewrite (Action rule) =? "") then origin +:+ ARewrite (Action rule) else origin in
    Join ([location; "        proxy_pass " +:+ passTarget +:+ ";"]
          ++ (if Websocket settings then ["        proxy_buffering off;"] else []) ++ ["    }"]) nl.
Definition renderPathLocations (rules : list pathRule) (origin : string) (settings : proxySettings) : list string :=
  map (location_block origin settings) (ordered_locations rules).

(** ** Streams *)
Definition stream_block (stream : StreamRoute) : string :=
  let udp := Protocol stream =? "udp" in
  let suffix := if udp then " udp" else "" in
  Join (["    server {";
         "        listen " +:+ formatHost (ListenAddress stream) +:+ ":" +:+ itoa (ListenPort stream) +:+ suffix +:+ ";";
         "        proxy_pass " +:+ formatHost (UIP (Upstream stream)) +:+ ":" +:+ itoa (UPort (Upstream stream)) +:+ ";"]
        ++ (if udp then ["        proxy_timeout 60s;"] else []) ++ ["    }"]) nl.
Definition renderStreams (streams : list StreamRoute) : string :=
  "stream {" +:+ nl +:+ Join (map stream_block (List.filter SREnabled streams)) (nl +:+ nl) +:+ nl +:+ "}".

(** ** Servers *)
Definition renderServer (record : DNSRecord) (capabilities : Http3Capabilities) (candidatePath acmeUpstream : string)
  : rendered string :=
  match Model.Proxy record with
  | None => Err (ErrNoProxy (Name record))
  | Some proxy =>
      settings ← normalizeProxySettings proxy capabilities;
      ensure (negb (TLSEnabled settings && (CertificateID settings =? ""))) (ErrCertificate (Name record));;
      let o := Origin settings in
      let origin := OProtocol o +:+ "://" +:+ formatHost (OIP o) +:+ ":" +:+ itoa (OPort o) in
      let http2 := if http2 settings then " http2" else "" in
      let lines :=
        ["server {"]
        ++ (if TLSEnabled settings then
              ["    listen 443 ssl" +:+ http2 +:+ ";"; "    listen [::]:443 ssl" +:+ http2 +:+ ";"]
            else ["    listen 80;"; "    listen [::]:80;"])
        ++ (if HTTP3 settings then
              ["    listen 443 quic reuseport;"; "    listen [::]:443 quic reuseport;";
               "    add_header Alt-Svc 'h3=" +:+ dq ":443" +:+ "; ma=86400' always;"]
            else [])
        ++ ["    server_name " +:+ Name record +:+ ";"]
        ++ renderACMEChallengeLocation acmeUpstream
        ++ (if TLSEnabled settings then
              ["    ssl_certificate " +:+ certificateFilePath (CertificateID settings) candidatePath "crt" +:+ ";";
               "    ssl_certificate_key " +:+ certificateFilePath (CertificateID settings) candidatePath "key" +:+ ";";
               "    ssl_protocols TLSv1.2 TLSv1.3;"]
            else [])
        ++ (match BasicAuth settings with
            | Some auth =>
                ["    auth_basic " +:+ dq "ProxyCore" +:+ ";";
                 "    auth_basic_user_file " +:+ basicAuthFilePath (PasswordSecretID auth) candidatePath +:+ ";"]
            | None => []
            end)
        ++ renderCommonProxyDirectives settings
        ++ renderPathLocations (PathRules settings) origin settings
        ++ ["}"] in
      let server := Join lines nl in
      if TLSEnabled settings && redirectHTTPToHTTPS settings then
        let redirect :=
          ["server {"; "    listen 80;"; "    listen [::]:80;"; "    server_name " +:+ Name record +:+ ";"]
          ++ renderACMEChallengeLocation acmeUpstream
          ++ ["    return 308 https://$host$request_uri;"; "}"; ""] in
        mret (Join redirect nl +:+ nl +:+ server)
      else mret server
  end.

(** ** Candidates *)
Record NginxRenderInput := mkNginxInput {
  NRecords : list DNSRecord; NStreams : list StreamRoute; Capabilities : Http3Capabilities;
  CandidatePath : string; ACMEUpstream : string; ExtraFiles : gmap string string }.
Record NginxCandidate := mkNginxCandidate { Config : string; NChecksum : string; NFiles : gmap string string }.

Definition indent_line (line : string) : string := if line =? "" then line else "    " +:+ line.
Definition nginx_sections (serverBlocks : list string) (streams : list StreamRoute) : list string :=
  let servers := Join serverBlocks (nl +:+ nl) in
  ["events {}"; ""; "http {"; "    include /etc/nginx/mime.types;"; "    default_type application/octet-stream;";
   "    sendfile on;"; "    map $http_upgrade $connection_upgrade {"; "        default upgrade;";
   "        " +:+ dq "" +:+ " close;"; "    }";
   Join (map indent_line (Split LF servers)) nl; "}";
   match streams with [] => "" | _ => renderStreams streams end].
Definition nginx_config (serverBlocks : list string) (streams : list StreamRoute) : string :=
  let kept := List.filter (fun s => negb (s =? "")) (nginx_sections serverBlocks streams) in
  let joined := ReplaceAll (Join kept (nl +:+ nl)) (nl +:+ nl +:+ nl) (nl +:+ nl) in
  TrimRightSpace joined +:+ nl.
(** The text the checksum covers: every path and its content, in path order. *)
Definition files_text (files : gmap string string) : string :=
  Join (map (fun f => f.1 +:+ nl +:+ f.2) (SliceStable key_less (map_to_list files))) nl.

Definition server_records (records : list DNSRecord) : list DNSRecord :=
  SliceStable (locale_less Name) (List.filter (fun r => Enabled r && Proxied r) records).
Definition RenderNginxCandidate (input : NginxRenderInput) : rendered NginxCandidate :=
  streams ← lift_validation (validateStreamRoutes (NStreams input));
  let records := server_records (NRecords input) in
  let candidatePath := TrimRightChar (CandidatePath input) "/" in
  acmeUpstream ← normalizeACMEUpstream (ACMEUpstream input);
  blocks ← mapM (fun record => renderServer record (Capabilities input) candidatePath acmeUpstream) records;
  let config := nginx_config (renderACMEDefaultServer acmeUpstream :: blocks) streams in
  let files := ExtraFiles input ∪ {["nginx.conf" := config]} in
  mret (mkNginxCandidate config (sha256_hex (files_text files)) files).
