(* ===== verification/Coredns.v ===== *)
(** * The CoreDNS renderer (renderers/coredns.go)

    The Corefile, one zone file per managed zone, and their checksum.
    [Sprint] stands for [fmt.Sprint] of a composite value, which no validated
    record value reaches. *)

From S2P Require Import Prelude GoStrings StrFacts Json Sha256 Model Proxy Dns Collate RProxy.
From stdpp Require Import options.

Record CoreDNSZoneInput := mkZoneInput { ZoneInputName : string; ZoneRecords : list DNSRecord }.
Record CoreDNSRenderInput := mkCoreDNSInput {
  Zones : list CoreDNSZoneInput; CIngress : Ingress; CDefaultPool : ResolverPool;
  CForwardingRules : list ForwardingRule }.
Record CoreDNSCandidate := mkCoreDNSCandidate { Corefile : string; CFiles : gmap string string; CChecksum : string }.

(** [jsonStringify]: compact, sorted keys, no HTML escaping. *)
Definition plain_json_string (s : string) : string := String DQ (json_text false s +:+ char DQ).
Fixpoint jsonStringify (v : json) : string :=
  match v with
  | JNull => "null"
  | JBool b => if b then "true" else "false"
  | JNum _ | JFloat _ => formatNumber v
  | JStr s => plain_json_string s
  | JArr l => "[" +:+ Join (map jsonStringify l) "," +:+ "]"
  | JObj fs =>
      "{" +:+ Join (map snd (SliceStable key_less
        (map (fun f => (f.1, plain_json_string f.1 +:+ ":" +:+ jsonStringify f.2)) fs))) "," +:+ "}"
  end.

Definition objectValue (value : json) : gomap := default [] (as_map value).
Definition ensureFQDN (value : string) : string := if HasSuffix value "." then value else value +:+ ".".
Definition formatIP (ip : string) : string := if ContainsChar ip ":" then "[" +:+ ip +:+ "]" else ip.
Definition ownerName (name zone : string) : string :=
  if name =? zone then "@"
  else if HasSuffix name ("." +:+ zone) then take_s (String.length name - (String.length zone + 1)) name
  else name.

Section coredns.
Context (Sprint : json -> string).

Definition stringValue (value : json) : string :=
  match value with
  | JNull => "null" | JStr s => s | JNum z => itoa z | JFloat t => t | v => Sprint v
  end.
Definition numberValue (value : json) : string := stringValue value.

Definition renderValue (record : DNSRecord) : string :=
  let v := Value record in
  let t := Type_ record in
  if t =? "TXT" then
    let escaped := ReplaceAll (stringValue v) (char BS) (String BS (char BS)) in
    String DQ (ReplaceAll escaped (char DQ) (String BS (char DQ)) +:+ char DQ)
  else if t =? "MX" then
    let value := objectValue v in
    numberValue (mget value "priority") +:+ " " +:+ ensureFQDN (stringValue (mget value "exchange"))
  else if t =? "SRV" then
    let value := objectValue v in
    numberValue (mget value "priority") +:+ " " +:+ numberValue (mget value "weight") +:+ " "
    +:+ numberValue (mget value "port") +:+ " " +:+ ensureFQDN (stringValue (mget value "target"))
  else if t =? "CNAME" then ensureFQDN (stringValue v)
  else stringValue v.

Definition answer (owner : string) (ttl : Z) (type value : string) : string :=
  owner +:+ " " +:+ itoa ttl +:+ " IN " +:+ type +:+ " " +:+ value.
Definition proxiedAnswers (owner : string) (record : DNSRecord) (ingress : Ingress) : list string :=
  let t := Type_ record in
  (if ((t =? "A") || (t =? "CNAME")) && negb (IPv4 ingress =? "")
   then [answer owner (TTL record) "A" (IPv4 ingress)] else [])
  ++ (if ((t =? "AAAA") || (t =? "CNAME")) && negb (IPv6 ingress =? "")
      then [answer owner (TTL record) "AAAA" (IPv6 ingress)] else []).

(** The sort keys are looked up by record id, the last record of an id deciding. *)
Definition sort_keys (enabled : list DNSRecord) : gmap string string :=
  foldl (fun m r => <[ID r := jsonStringify (Value r)]> m) ∅ enabled.
Definition zone_less (keys : gmap string string) (left right : DNSRecord) : bool :=
  let byName := localeCompare (Name left) (Name right) in
  if negb (byName =? 0)%Z then (byName <? 0)%Z else
  let byType := localeCompare (Type_ left) (Type_ right) in
  if negb (byType =? 0)%Z then (byType <? 0)%Z else
  (localeCompare (default "" (keys !! ID left)) (default "" (keys !! ID right)) <? 0)%Z.
Definition zone_records (records : list DNSRecord) : list DNSRecord :=
  let enabled := List.filter Enabled records in
  SliceStable (zone_less (sort_keys enabled)) enabled.
Definition record_lines (zone : string) (ingress : Ingress) (record : DNSRecord) : list string :=
  let owner := ownerName (Name record) zone in
  if Proxied record then proxiedAnswers owner record ingress
  else [answer owner (TTL record) (Type_ record) (renderValue record)].
Definition zone_header (zone : string) : list string :=
  ["$ORIGIN " +:+ zone +:+ "."; "$TTL 300";
   "@ 300 IN SOA ns1." +:+ zone +:+ ". hostmaster." +:+ zone +:+ ". 1 60 300 3600 60";
   "@ 300 IN NS ns1." +:+ zone +:+ "."].
Definition renderZoneFile (zone : string) (records : list DNSRecord) (ingress : Ingress) : string :=
  Join (zone_header zone ++ concat (map (record_lines zone ingress) (zone_records records))) nl +:+ nl.

Definition renderForwardBlock (pool : ResolverPool) : string :=
  let endpoints := map (fun e => formatIP (Host e) +:+ ":" +:+ itoa (EPort e)) (Endpoints pool) in
  "    forward . " +:+ Join endpoints " " +:+ " {" +:+ nl +:+ "        policy sequential" +:+ nl +:+ "    }".

Definition zone_path (zone : string) : string := "zones/" +:+ zone +:+ ".zone".
Definition zone_block (zone : string) : string :=
  zone +:+ ":53 {" +:+ nl +:+ "    file /etc/coredns/" +:+ zone_path zone +:+ nl +:+ "}".
Definition rule_block (rule : ForwardingRule) : string :=
  Suffix rule +:+ ":53 {" +:+ nl +:+ renderForwardBlock (Pool rule) +:+ nl +:+ "}".
Definition default_block (pool : ResolverPool) : string :=
  Join [".:53 {"; "    errors"; "    health"; "    ready"; "    loop"; "    reload"; "    cache 30";
        renderForwardBlock pool; "}"] nl.

(** One round over the zones: the state is the files and the blocks written. *)
Definition zone_step (order : map_order) (ingress : Ingress) (st : gmap string string * list string)
    (zone : CoreDNSZoneInput) : rendered (gmap string string * list string) :=
  let '(files, zoneBlocks) := st in
  normalizedZone ← lift_validation (normalizeDNSName (ZoneInputName zone) false);
  records ← lift_validation (validateRecordSet order (ZoneRecords zone)
              (mkRecordSetOptions normalizedZone (Some ingress) None));
  mret (<[zone_path normalizedZone := renderZoneFile normalizedZone records ingress]> files,
        zoneBlocks ++ [zone_block normalizedZone]).
Definition longer_suffix (l r : ForwardingRule) : bool := (slen (Suffix r) <? slen (Suffix l))%Z.
Definition files_parts (files : gmap string string) : list string :=
  map (fun f => f.1 +:+ nl +:+ f.2) (SliceStable key_less (map_to_list files)).

Definition RenderCoreDNSCandidate (order : map_order) (input : CoreDNSRenderInput) : rendered CoreDNSCandidate :=
  defaultPool ← lift_validation (validateResolverPool (CDefaultPool input));
  rules ← lift_validation (validateForwardingRules (CForwardingRules input));
  let zones := SliceStable (locale_less ZoneInputName) (Zones input) in
  st ← foldlM (zone_step order (CIngress input)) (∅, []) zones;
  let '(files, zoneBlocks) := st in
  let rules := SliceStable longer_suffix rules in
  let blocks := zoneBlocks ++ map rule_block rules ++ [default_block defaultPool] in
  let corefile := Join blocks (nl +:+ nl) +:+ nl in
  mret (mkCoreDNSCandidate corefile files (sha256_hex (corefile +:+ Join (files_parts files) nl))).
End coredns.
