(* ===== verification/RenderFacts.v ===== *)
(** * Facts about the renderers

    Quoting round trips, the order of locations, independence of the input
    order, and what a zone file says about proxied records. *)

From S2P Require Import Prelude GoStrings StrFacts Json JsonFacts Sha256 Model Proxy Dns DnsFacts Collate RProxy Nginx Coredns.
From stdpp Require Import options.

(** ** Quoting *)
Fixpoint escape (s : string) : string :=
  match s with
  | EmptyString => EmptyString
  | String c s =>
      if ascii_eqb c BS || ascii_eqb c DQ then String BS (String c (escape s)) else String c (escape s)
  end.
Fixpoint replace_char (a : ascii) (new s : string) : string :=
  match s with
  | EmptyString => EmptyString
  | String c s => if ascii_eqb a c then new +:+ replace_char a new s else String c (replace_char a new s)
  end.
Lemma ReplaceAll_char a new s : ReplaceAll s (char a) new = replace_char a new s.
Proof.
  unfold ReplaceAll. induction s as [|c s IH]; [done|]. cbn [replace_aux replace_char].
  change (HasPrefix (String c s) (char a)) with (ascii_eqb a c && HasPrefix s "").
  destruct (ascii_eqb a c); cbn [andb].
  - change (String.length (char a) - 1) with 0. destruct s; cbn [HasPrefix]; by rewrite <- IH.
  - by rewrite IH.
Qed.
Lemma ReplaceAll_escape s :
  ReplaceAll (ReplaceAll s (char BS) (String BS (char BS))) (char DQ) (String BS (char DQ)) = escape s.
Proof.
  rewrite !ReplaceAll_char. induction s as [|c s IH]; [done|]. cbn [replace_char escape].
  destruct (ascii_eqb BS c) eqn:Hb.
  - apply ascii_eqb_eq in Hb as <-. cbn. by rewrite <- IH.
  - assert (ascii_eqb c BS = false) as ->.
    { destruct (ascii_eqb c BS) eqn:E; [|done]. apply ascii_eqb_eq in E as ->. by rewrite ascii_eqb_refl in Hb. }
    cbn [orb replace_char]. destruct (ascii_eqb DQ c) eqn:Hd.
    + apply ascii_eqb_eq in Hd as <-. cbn. by rewrite <- IH.
    + assert (ascii_eqb c DQ = false) as ->.
      { destruct (ascii_eqb c DQ) eqn:E; [|done]. apply ascii_eqb_eq in E as ->. by rewrite ascii_eqb_refl in Hd. }
      by rewrite <- IH.
Qed.

(** A reader of quoted text: a backslash takes the next quote or backslash
    literally; the first bare quote ends the text. *)
Fixpoint read_quoted (s : string) : option (string * string) :=
  match s with
  | EmptyString => None
  | String c s1 =>
      if ascii_eqb c DQ then Some ("", s1)
      else if ascii_eqb c BS then
        match s1 with
        | String d s2 =>
            if ascii_eqb d BS || ascii_eqb d DQ then '(t, r) ← read_quoted s2; Some (String d t, r)
            else '(t, r) ← read_quoted s1; Some (String c t, r)
        | EmptyString => None
        end
      else '(t, r) ← read_quoted s1; Some (String c t, r)
  end.
Lemma read_quoted_escape s rest : read_quoted (escape s +:+ String DQ rest) = Some (s, rest).
Proof.
  induction s as [|c s IH]; [done|]. cbn [escape].
  destruct (ascii_eqb c BS || ascii_eqb c DQ) eqn:E.
  - cbn [String.append read_quoted]. change (ascii_eqb BS DQ) with false. cbn iota.
    change (ascii_eqb BS BS) with true. cbn iota. rewrite E, IH. done.
  - apply orb_false_iff in E as [E1 E2]. cbn [String.append read_quoted]. by rewrite E1, E2, IH.
Qed.

(** One nginx parameter: quoted, or plain up to white space or a semicolon. *)
Definition token_end (c : ascii) : bool := re_space c || one_of ";{" c.
Fixpoint read_plain (s : string) : string * string :=
  match s with
  | String c s' => if token_end c then ("", s) else let '(t, r) := read_plain s' in (String c t, r)
  | EmptyString => ("", "")
  end.
Definition read_parameter (s : string) : option (string * string) :=
  match s with
  | String c s' => if ascii_eqb c DQ then read_quoted s' else Some (read_plain s)
  | EmptyString => None
  end.
Lemma plain_value_not_end c : plain_value_char c = true -> token_end c = false /\ ascii_eqb c DQ = false.
Proof. destruct c as [[] [] [] [] [] [] [] []]; vm_compute; (done || intros [=]). Qed.
Lemma read_plain_value v rest : sall plain_value_char v = true ->
  read_plain (v +:+ String ";" rest) = (v, String ";" rest).
Proof.
  induction v as [|c v IH]; [done|]. cbn [sall String.append read_plain]. intros [Hc Hv]%andb_true_iff.
  apply plain_value_not_end in Hc as [-> _]. by rewrite IH.
Qed.

(** A value written into the configuration is one nginx parameter: reading a
    parameter there gives the value back, whatever it is, and stops right after it. *)
Theorem nginxValue_roundtrip value rest :
  read_parameter (nginxValue value +:+ String ";" rest) = Some (value, String ";" rest).
Proof.
  unfold nginxValue. destruct (plainValuePattern value) eqn:Hp.
  - unfold plainValuePattern in Hp. apply andb_true_iff in Hp as [Hn Hp].
    destruct value as [|c v]; [done|]. pose proof Hp as Hp'. cbn [sall] in Hp. apply andb_true_iff in Hp as [Hc _].
    apply plain_value_not_end in Hc as [_ Hc]. cbn [String.append read_parameter]. rewrite Hc.
    f_equal. by apply (read_plain_value (String c v)).
  - cbv zeta. rewrite ReplaceAll_escape. unfold dq. cbn [String.append read_parameter].
    change (ascii_eqb DQ DQ) with true. cbn iota. rewrite app_assoc_s. apply read_quoted_escape.
Qed.

(** A TXT answer reads back as the record's text. *)
Theorem renderValue_txt_roundtrip Sprint r s : Type_ r = "TXT" -> Value r = JStr s ->
  exists body, renderValue Sprint r = String DQ body /\ read_quoted body = Some (s, "").
Proof.
  intros Ht Hv. unfold renderValue. rewrite Ht, Hv. eexists. split; [reflexivity|].
  change (stringValue Sprint (JStr s)) with s. rewrite ReplaceAll_escape. apply read_quoted_escape.
Qed.

(** ** Locations *)
Definition known_kind (r : pathRule) : Prop := Kind r = "exact" \/ Kind r = "prefix".
(** nginx order: exact matches first, then longer patterns before shorter. *)
Definition location_order (a b : pathRule) : Prop :=
  (Kind a = "exact" /\ Kind b <> "exact") \/ (Kind a = Kind b /\ (slen (Pattern b) <= slen (Pattern a))%Z).

Lemma stable_insert_sorted_on {A} (less : A -> A -> bool) (D : A -> Prop) a l :
  (forall a b, D a -> D b -> less a b = true -> less b a = false) ->
  (forall a b c, D a -> D b -> D c -> less b a = false -> less c b = false -> less c a = false) ->
  D a -> Forall D l -> StronglySorted (in_order less) l -> StronglySorted (in_order less) (stable_insert less a l).
Proof.
  intros Hasym Htrans Ha HD Hs. induction Hs as [|b l Hl IH Hb]; simpl; [repeat constructor|].
  apply Forall_cons in HD as [HDb HDl]. specialize (IH HDl).
  destruct (less b a) eqn:Hba.
  - constructor; [done|]. rewrite Forall_forall in *. intros x.
    rewrite stable_insert_perm, elem_of_cons. intros [-> |?]; [by apply Hasym|auto].
  - constructor; [by constructor|]. constructor; [done|]. rewrite Forall_forall in *.
    intros x Hx. apply (Htrans a b x); auto. by apply Hb.
Qed.
Lemma SliceStable_sorted_on {A} (less : A -> A -> bool) (D : A -> Prop) l :
  (forall a b, D a -> D b -> less a b = true -> less b a = false) ->
  (forall a b c, D a -> D b -> D c -> less b a = false -> less c b = false -> less c a = false) ->
  Forall D l -> StronglySorted (in_order less) (SliceStable less l).
Proof.
  intros Hasym Htrans HD. induction HD as [|a l Ha HD IH]; simpl; [constructor|].
  apply (stable_insert_sorted_on less D); try done. by rewrite SliceStable_perm.
Qed.

Lemma location_less_false a b : known_kind a -> known_kind b ->
  location_less b a = false <-> location_order a b.
Proof.
  unfold known_kind, location_less, location_order. intros Ha Hb.
  destruct (String.eqb_spec (Kind b) (Kind a)) as [E|E]; cbn [negb].
  - rewrite Z.ltb_ge, E. split; [by right|]. intros [[? Hn]|[_ ?]]; [by destruct Hn|done].
  - rewrite String.eqb_neq. split.
    + intros Hn. left. split; [|done]. destruct Ha as [?|Ha], Hb as [?|Hb]; congruence.
    + intros [[_ ?]|[? _]]; congruence.
Qed.

Lemma locations_sorted rules : Forall known_kind rules ->
  StronglySorted location_order (SliceStable location_less rules).
Proof.
  intros HD. assert (Forall known_kind (SliceStable location_less rules)) as HD' by (by rewrite SliceStable_perm).
  assert (StronglySorted (in_order location_less) (SliceStable location_less rules)) as Hs.
  { apply (SliceStable_sorted_on _ known_kind); [| |done].
    - intros a b Ha Hb H. rewrite (location_less_false a b) by done. unfold location_less, location_order in *.
      unfold known_kind in *.
      destruct (String.eqb_spec (Kind a) (Kind b)) as [E|E]; cbn [negb] in H; bsimp.
      + right. split; [done|lia].
      + left. split; congruence.
    - intros a b c Ha Hb Hc. rewrite !location_less_false by done. unfold location_order.
      intros [[Hae Hbe]|[Hab Hl1]] [[Hbe' Hce]|[Hbc Hl2]].
      + by left.
      + left. split; [done|congruence].
      + left. split; congruence.
      + right. split; [congruence|lia]. }
  clear HD. induction Hs as [|a l Hl IH Ha]; [constructor|]. apply Forall_cons in HD' as [Hka HD']. constructor; [auto|].
  rewrite Forall_forall in *. intros x Hx. apply location_less_false; [done|auto|by apply Ha].
Qed.

(** The written locations are the rules, once each, exact ones first and longer
    patterns before shorter, with a catch-all ["/"] added when missing. *)
Theorem ordered_locations_spec rules : Forall known_kind rules -> Forall (fun r => (1 <= slen (Pattern r))%Z) rules ->
  StronglySorted location_order (ordered_locations rules)
  /\ Exists (fun r => is_root_prefix r = true) (ordered_locations rules)
  /\ (ordered_locations rules ≡ₚ rules
      \/ Forall (fun r => is_root_prefix r = false) rules /\ ordered_locations rules ≡ₚ root_rule :: rules).
Proof.
  intros HD Hlen. pose proof (locations_sorted rules HD) as Hs. unfold ordered_locations. cbv zeta.
  assert (SliceStable location_less rules ≡ₚ rules) as Hp by apply SliceStable_perm.
  destruct (existsb is_root_prefix (SliceStable location_less rules)) eqn:E.
  - split; [done|]. split; [|by left].
    apply existsb_elem in E as (r&Hr&?). apply Exists_exists. eauto.
  - apply existsb_false_Forall in E. split; [|split].
    + assert (Forall (fun r => location_order r root_rule) (SliceStable location_less rules)) as Hroot.
      { rewrite Hp. rewrite Forall_forall in *. intros r Hr. specialize (HD r Hr). specialize (Hlen r Hr).
        unfold location_order, root_rule. cbn [Kind Pattern]. change (slen "/") with 1%Z.
        destruct HD as [-> | ->]; [by left|by right]. }
      clear -Hs Hroot. induction Hs as [|a l Hl IH Ha]; [repeat constructor|].
      apply Forall_cons in Hroot as [? ?]. cbn [app]. constructor; [auto|]. apply Forall_app. split; [done|]. by constructor.
    + apply Exists_app. right. by constructor.
    + right. split; [by rewrite <- Hp|]. by rewrite Hp, Permutation_app_comm.
Qed.

(** ** Candidates do not depend on the order of their inputs *)
Lemma sorted_perm_eq {A} (key : A -> string) l k :
  l ≡ₚ k -> NoDup (map key l) -> Forall (fun a => ascii_text (key a) = true) l ->
  SliceStable (locale_less key) l = SliceStable (locale_less key) k.
Proof.
  intros Hp Hnd HD.
  assert (Forall (fun a => ascii_text (key a) = true) k) as HD' by (by rewrite <- Hp).
  assert (forall l, Forall (fun a => ascii_text (key a) = true) l ->
    StronglySorted (in_order (locale_less key)) (SliceStable (locale_less key) l)) as Hs.
  { intros l' Hl'. apply (SliceStable_sorted_on _ (fun a => ascii_text (key a) = true)); [| |done].
    - intros a b Ha Hb. unfold locale_less. rewrite (localeCompare_opp (key a) (key b)) by done.
      rewrite Z.ltb_lt, Z.ltb_ge. lia.
    - intros a b c Ha Hb Hc. unfold locale_less. rewrite !Z.ltb_ge.
      rewrite (localeCompare_opp (key a) (key b)), (localeCompare_opp (key b) (key c)), (localeCompare_opp (key a) (key c)) by done.
      pose proof (localeCompare_trans (key a) (key b) (key c) Ha Hb Hc). lia. }
  apply (StronglySorted_unique_strong (in_order (locale_less key))); [|by apply Hs..|].
  - intros a b Ha Hb. unfold in_order, locale_less. rewrite !Z.ltb_ge.
    rewrite elem_of_SliceStable in Ha, Hb. rewrite <- Hp in Hb.
    rewrite Forall_forall in HD. pose proof (HD a Ha) as Hka. pose proof (HD b Hb) as Hkb.
    rewrite (localeCompare_opp (key a) (key b)) by done. intros H1 H2.
    assert (localeCompare (key a) (key b) = 0%Z) as H0 by lia. apply localeCompare_zero in H0; [|done..].
    clear -Hnd Ha Hb H0. induction l as [|x l IH]; [set_solver|]. cbn [map] in Hnd. apply NoDup_cons in Hnd as [Hx Hnd].
    apply elem_of_cons in Ha as [-> |Ha], Hb as [-> |Hb]; try done; [..|auto];
      exfalso; apply Hx; apply list_elem_of_fmap; eauto.
  - by rewrite !SliceStable_perm.
Qed.

Definition served (r : DNSRecord) : bool := Enabled r && Proxied r.
(** Records that are not both enabled and proxied have no effect, nor has the order. *)
Theorem RenderNginxCandidate_records input records :
  List.filter served (NRecords input) ≡ₚ List.filter served records ->
  NoDup (map Name (List.filter served records)) ->
  Forall (fun r => served r = true -> ascii_text (Name r) = true) records ->
  RenderNginxCandidate input =
  RenderNginxCandidate (mkNginxInput records (NStreams input) (Capabilities input) (CandidatePath input)
    (ACMEUpstream input) (ExtraFiles input)).
Proof.
  intros Hp Hnd Ha. unfold RenderNginxCandidate. cbn [NRecords NStreams Capabilities CandidatePath ACMEUpstream ExtraFiles].
  assert (server_records (NRecords input) = server_records records) as ->; [|done].
  unfold server_records. symmetry. apply sorted_perm_eq; [by symmetry|done|].
  by apply Forall_filter_iff.
Qed.

(** ** Zone files *)
(** The answers of a proxied record name the ingress only: its own value never appears. *)
Theorem proxied_record_hides_value Sprint zone ingress r v : Proxied r = true ->
  record_lines Sprint zone ingress r =
  record_lines Sprint zone ingress (mkRecord (ID r) (Name r) (Type_ r) v (TTL r) (Enabled r) (Comment r) true (Model.Proxy r))
  /\ (forall line, line ∈ record_lines Sprint zone ingress r ->
      exists t ip, (t = "A" /\ ip = IPv4 ingress \/ t = "AAAA" /\ ip = IPv6 ingress)
      /\ line = answer (ownerName (Name r) zone) (TTL r) t ip).
Proof.
  intros Hp. unfold record_lines. rewrite Hp. cbn [Proxied Name]. split; [done|].
  intros line. unfold proxiedAnswers. cbv zeta.
  rewrite elem_of_app. intros [H|H]; destruct (_ && _)%bool; set_solver.
Qed.

(** A disabled record leaves no trace in the zone file. *)
Theorem renderZoneFile_disabled Sprint zone records ingress r : Enabled r = false ->
  renderZoneFile Sprint zone (records ++ [r]) ingress = renderZoneFile Sprint zone records ingress.
Proof.
  intros Hd. unfold renderZoneFile, zone_records. rewrite List.filter_app. cbn [List.filter]. by rewrite Hd, app_nil_r.
Qed.

(** The owner of a name in the zone, read back relative to the zone, is the name. *)
Definition absolute (owner zone : string) : string := if owner =? "@" then zone else owner +:+ "." +:+ zone.
Theorem ownerName_roundtrip name zone : in_zone zone name -> labels_ok true (Split "." name) = true ->
  absolute (ownerName name zone) zone = name.
Proof.
  intros Hin Hl. unfold ownerName, absolute. destruct (String.eqb_spec name zone) as [-> |Hne]; [done|].
  destruct Hin as [?|[p ->]]; [done|].
  rewrite (proj2 (HasSuffix_spec (p +:+ "." +:+ zone) ("." +:+ zone))) by eauto.
  rewrite !length_app_s. cbn [String.append String.length].
  replace (_ + _ - _) with (String.length p) by lia.
  rewrite take_s_app. destruct (String.eqb_spec p "@") as [-> |]; [|done].
  exfalso. apply labels_ok_chars in Hl. done.
Qed.

(** ** Decoding agrees with reading the map when keys are spelled exactly *)
Definition exact_key (name : string) (m : gomap) : Prop :=
  Forall (fun f => foldName f.1 = foldName name -> f.1 = name) m /\ NoDup (map fst m).

Lemma mget_elem (m : gomap) k v : NoDup (map fst m) ->
  (k, v) ∈ m <-> mhas m k = true /\ mget m k = v.
Proof.
  induction m as [|[k' v'] m IH]; cbn [map fst mhas mget]; [set_solver|].
  intros [Hn Hnd]%NoDup_cons. rewrite elem_of_cons, IH by done.
  destruct (String.eqb_spec k k') as [-> |Hne]; cbn [orb].
  - split; [|intros [_ ->]; by left]. intros [[= ->]|[Hh Hv]]; [done|]. exfalso. apply Hn.
    apply list_elem_of_fmap. exists (k', v). split; [done|]. by apply IH.
  - naive_solver.
Qed.
Lemma mget_perm (m m' : gomap) k : NoDup (map fst m) -> m ≡ₚ m' -> mhas m k = mhas m' k /\ mget m k = mget m' k.
Proof.
  intros Hnd Hp. assert (NoDup (map fst m')) as Hnd' by (by rewrite <- Hp).
  assert (forall k m, mhas m k = false -> mget m k = JNull) as Hno.
  { intros k0 m0. induction m0 as [|[k1 v1] m0 IH]; [done|]. cbn [mhas mget].
    by destruct (k0 =? k1). }
  destruct (mhas m k) eqn:Hh.
  - assert ((k, mget m k) ∈ m') as Hin by (rewrite <- Hp; by apply mget_elem). apply mget_elem in Hin as [??]; [|done]. auto.
  - destruct (mhas m' k) eqn:Hh'; [|by rewrite !Hno].
    assert ((k, mget m' k) ∈ m) as Hin by (rewrite Hp; by apply mget_elem). apply mget_elem in Hin as [??]; [|done]. congruence.
Qed.

Definition field_step {A} (name : string) (dec : decoder A) (acc : option A) (f : string * json) : option A :=
  a ← acc; if foldName f.1 =? foldName name then dec f.2 a else Some a.
Lemma field_absent {A} name (dec : decoder A) acc (l : gomap) :
  Forall (fun f => foldName f.1 <> foldName name) l -> foldl (field_step name dec) acc l = acc.
Proof.
  intros H. revert acc. induction H as [|f l Hf _ IH]; intros acc; [done|]. cbn [foldl]. rewrite IH.
  unfold field_step. rewrite (proj2 (String.eqb_neq _ _) Hf). by destruct acc.
Qed.
Lemma field_present {A} name (dec : decoder A) cur (l : gomap) : exact_key name l ->
  foldl (field_step name dec) (Some cur) l = if mhas l name then dec (mget l name) cur else Some cur.
Proof.
  intros [HD Hnd]. induction l as [|[k v] l IH]; [done|]. apply Forall_cons in HD as [Hk HD].
  cbn [map fst] in Hnd. apply NoDup_cons in Hnd as [Hn Hnd]. cbn [foldl mhas mget]. unfold field_step at 2.
  cbn [mbind option_bind fst snd] in *. destruct (String.eqb_spec (foldName k) (foldName name)) as [E|E].
  - specialize (Hk E) as ->. rewrite String.eqb_refl. cbn [orb]. rewrite field_absent; [done|].
    rewrite Forall_forall in *. intros [k v'] Hin E'. cbn in E'. pose proof (HD _ Hin E') as Hkn. cbn in Hkn. subst k.
    apply Hn, list_elem_of_fmap. by exists (name, v').
  - destruct (String.eqb_spec name k) as [-> |]; [done|]. cbn [orb]. by apply IH.
Qed.
Lemma field_exact {A} m name (dec : decoder A) cur : exact_key name m ->
  field m name dec cur = if mhas m name then dec (mget m name) cur else Some cur.
Proof.
  intros [HD Hnd]. unfold field. assert (SliceStable key_less m ≡ₚ m) as Hp by apply SliceStable_perm.
  change (foldl _ (Some cur)) with (foldl (field_step name dec) (Some cur)).
  rewrite field_present by (split; by rewrite Hp).
  destruct (mget_perm m (SliceStable key_less m) name) as [-> ->]; [done|by rewrite Hp|done].
Qed.

Lemma field_bool m name b : exact_key name m -> field m name dec_bool false = Some b ->
  proxyBool m name = b.
Proof.
  intros He. rewrite field_exact by done. unfold proxyBool.
  assert (mhas m name = false -> mget m name = JNull) as Hno.
  { clear. induction m as [|[k1 v1] m IH]; [done|]. cbn [mhas mget]. by destruct (name =? k1). }
  destruct (mhas m name); [|rewrite Hno by done; by intros [= <-]].
  destruct (mget m name); cbn; try done; by intros [= <-].
Qed.

Lemma dec_settings_bools m s : dec_settings m = Some s ->
  field m "http3" dec_bool false = Some (HTTP3 s) /\ field m "tlsEnabled" dec_bool false = Some (TLSEnabled s).
Proof.
  unfold dec_settings. intros H.
  repeat (apply bind_Some in H as (?&?&H)). injection H as <-. done.
Qed.

(** HTTP/3 is rendered only where the installation supports it and TLS is on,
    for settings whose keys are spelled as the interface documents them. *)
Theorem http3_gated proxy capabilities s : exact_key "http3" proxy -> exact_key "tlsEnabled" proxy ->
  normalizeProxySettings proxy capabilities = Ok s -> HTTP3 s = true ->
  TLSEnabled s = true /\ Http3Module capabilities = true
  /\ TCP443Published capabilities = true /\ UDP443Published capabilities = true.
Proof.
  intros He1 He2 H H3. unfold normalizeProxySettings in H. cbv zeta in H.
  apply bind_Ok in H as (_&_&H). apply bind_Ok in H as (u&Hg&H).
  destruct (dec_settings proxy) as [s0|] eqn:Hd; [|done]. apply (proj1 (ret_Ok _ _)) in H as <-.
  apply dec_settings_bools in Hd as [Hh Ht]. apply field_bool in Hh, Ht; [|done..].
  cbn [HTTP3 TLSEnabled normalize_settings] in *. rewrite H3 in Hh. rewrite Hh in Hg.
  apply bind_Ok in Hg as (u1&Hc&Hg). apply ensure_Ok in Hc, Hg. apply andb_true_iff in Hc as [Hc ?].
  apply andb_true_iff in Hc as [??]. rewrite <- Ht. done.
Qed.
