(* ===== verification/Kek.v ===== *)
(** * The cluster key-encryption key (cluster/kek.go)

    Wrapping, unwrapping and digesting replicated secrets. A key is a list of
    bytes, destroyed when empty; byte strings are Go strings of Rocq. The nonce
    that [rand.Reader] supplies is an argument of [Wrap]. *)

From S2P Require Import Prelude GoStrings StrFacts Json Sha256 AesGcm.
From stdpp Require Import options.

Definition KEKLength : Z := 32.
Definition envelopePrefix : string := "v1.kek".
Definition secretDigestLabel : string := "proxycore/snapshot/secret-digest/v1".

Fixpoint string_of (l : list Z) : string :=
  match l with [] => EmptyString | b :: l => String (byte_of b) (string_of l) end.

(** ** base64, URL alphabet, no padding *)
Definition b64_char (v : Z) : ascii :=
  if (v <? 26)%Z then byte_of (65 + v) else if (v <? 52)%Z then byte_of (71 + v)
  else if (v <? 62)%Z then byte_of (v - 4) else if (v =? 62)%Z then "-"%char else "_"%char.
Definition b64_value (c : ascii) : option Z :=
  if is_upper c then Some (code c - 65)%Z else if is_lower c then Some (code c - 71)%Z
  else if is_digit c then Some (code c + 4)%Z else if ascii_eqb c "-" then Some 62%Z
  else if ascii_eqb c "_" then Some 63%Z else None.
Fixpoint EncodeToString (l : list Z) : string :=
  match l with
  | [] => ""
  | [a] => let n := (a * 16)%Z in String (b64_char (n / 64)) (char (b64_char (n mod 64)))
  | [a; b] =>
      let n := ((a * 256 + b) * 4)%Z in
      String (b64_char (n / 4096)) (String (b64_char (n / 64 mod 64)) (char (b64_char (n mod 64))))
  | a :: b :: c :: l =>
      let n := ((a * 256 + b) * 256 + c)%Z in
      String (b64_char (n / 262144)) (String (b64_char (n / 4096 mod 64))
        (String (b64_char (n / 64 mod 64)) (String (b64_char (n mod 64)) (EncodeToString l))))
  end.
Fixpoint decode_quads (l : list Z) : option (list Z) :=
  match l with
  | [] => Some []
  | [_] => None
  | [p; q] => Some [((p * 64 + q) / 16)%Z]
  | [p; q; r] => let n := (((p * 64 + q) * 64 + r) / 4)%Z in Some [(n / 256)%Z; (n mod 256)%Z]
  | p :: q :: r :: s :: l =>
      let n := (((p * 64 + q) * 64 + r) * 64 + s)%Z in
      rest ← decode_quads l; Some ((n / 65536)%Z :: (n / 256 mod 256)%Z :: (n mod 256)%Z :: rest)
  end.
Fixpoint b64_values (s : string) : option (list Z) :=
  match s with
  | EmptyString => Some []
  | String c s => v ← b64_value c; l ← b64_values s; Some (v :: l)
  end.
(** Carriage returns and line feeds in the input are skipped. *)
Fixpoint skip_newlines (s : string) : string :=
  match s with
  | String c s => if ascii_eqb c CR || ascii_eqb c LF then skip_newlines s else String c (skip_newlines s)
  | EmptyString => EmptyString
  end.
Definition DecodeString (s : string) : option (list Z) := l ← b64_values (skip_newlines s); decode_quads l.

(** ** HMAC-SHA256 on byte strings *)
Definition digest_bytes (d : digest) : list Z :=
  concat (map (be_bytes 4) [dA d; dB d; dC d; dD d; dE d; dF d; dG d; dH d]).
Definition Sum256 (s : string) : list Z := digest_bytes (sha256_digest s).
Definition hmac_key (key : list Z) : list Z :=
  let k := if (64 <? length key)%nat then Sum256 (string_of key) else key in k ++ repeat 0%Z (64 - length k).
Definition hmac_sha256 (key : list Z) (message : string) : list Z :=
  let k := hmac_key key in
  let inner := Sum256 (string_of (map (Z.lxor 54) k) +:+ message) in
  Sum256 (string_of (map (Z.lxor 92) k ++ inner)).

(** ** The envelope *)
Inductive kek_error : Type :=
| ErrKeyLength | ErrDestroyed | ErrCipher | ErrNotEnvelope | ErrDecodeIV | ErrDecodeTag | ErrDecodeCiphertext
| ErrIVLength | ErrTagLength | ErrAuthentication.
#[global] Instance kek_error_eq_dec : EqDecision kek_error.
Proof. solve_decision. Defined.

Record KEK := mkKEK { key : list Z }.
Definition NewKEK (k : list Z) : result kek_error KEK :=
  if negb (Z.of_nat (length k) =? KEKLength)%Z then Err ErrKeyLength else Ok (mkKEK k).
Definition Destroy (k : KEK) : KEK := mkKEK [].

(** [None] is a nil receiver. *)
Definition SecretDigest (k : option KEK) (id purpose plaintext : string) : result kek_error string :=
  match k with
  | Some k =>
      if negb (Z.of_nat (length (key k)) =? KEKLength)%Z then Err ErrDestroyed else
      let derived := hmac_sha256 (key k) secretDigestLabel in
      Ok (hex_encode (hmac_sha256 derived (id +:+ char NUL +:+ purpose +:+ char NUL +:+ plaintext)))
  | None => Err ErrDestroyed
  end.

(** [aes.NewCipher]: AES-128 and AES-192 keys are not made by [NewKEK]. *)
Definition cipher_key (k : KEK) : result kek_error (list Z) :=
  if (length (key k) =? 32)%nat then Ok (key k) else Err ErrCipher.
Definition Wrap (k : KEK) (iv : list Z) (plaintext : string) : result kek_error string :=
  ck ← cipher_key k;
  let sealed := Seal ck iv (bytes_of plaintext) (bytes_of envelopePrefix) in
  let tagOffset := length sealed - 16 in
  let ciphertext := take tagOffset sealed in
  let tag := drop tagOffset sealed in
  mret (Join [envelopePrefix; EncodeToString iv; EncodeToString tag; EncodeToString ciphertext] ":").
Definition decoded (s : string) (e : kek_error) : result kek_error (list Z) :=
  match DecodeString s with Some l => Ok l | None => Err e end.
Definition Unwrap (k : KEK) (envelope : string) : result kek_error string :=
  match Split ":" envelope with
  | [prefix; s1; s2; s3] =>
      if negb (prefix =? envelopePrefix) then Err ErrNotEnvelope else
      iv ← decoded s1 ErrDecodeIV;
      tag ← decoded s2 ErrDecodeTag;
      ciphertext ← decoded s3 ErrDecodeCiphertext;
      ck ← cipher_key k;
      ensure (length iv =? 12)%nat ErrIVLength;;
      ensure (length tag =? 16)%nat ErrTagLength;;
      match Open ck iv (ciphertext ++ tag) (bytes_of envelopePrefix) with
      | Some p => mret (string_of p)
      | None => Err ErrAuthentication
      end
  | _ => Err ErrNotEnvelope
  end.
Definition IsKEKEnvelope (value : string) : bool := HasPrefix value (envelopePrefix +:+ ":").

(** RFC 4231, test case 2. *)
Example hmac_vector : hex_encode (hmac_sha256 (bytes_of "Jefe") "what do ya want for nothing?")
  = "5bdcc146bf60754e6a042426089575c75a003f089d2739839dec58b964ec3843".
Proof. by vm_compute. Qed.
Example b64_vector : EncodeToString (bytes_of "foob?>") = "Zm9vYj8-" /\ DecodeString "Zm9vYj8-" = Some (bytes_of "foob?>").
Proof. by vm_compute. Qed.

(** ** Round trips *)
Lemma string_of_bytes s : string_of (bytes_of s) = s.
Proof.
  induction s as [|c s IH]; [done|]. cbn [bytes_of string_of]. rewrite IH. f_equal.
  apply code_inj. rewrite code_byte_of; [done|apply code_range].
Qed.
Lemma bytes_of_byte s : Forall is_byte (bytes_of s).
Proof. induction s as [|c s IH]; constructor; [apply code_range|done]. Qed.

Definition sextet_ok (v : Z) : bool :=
  bool_decide (b64_value (b64_char v) = Some v) && (is_alnum (b64_char v) || one_of "-_" (b64_char v)).
Lemma sextet v : (0 <= v < 64)%Z -> b64_value (b64_char v) = Some v /\ (is_alnum (b64_char v) || one_of "-_" (b64_char v)) = true.
Proof.
  intros Hv. assert (sextet_ok v = true) as H.
  { assert (forallb sextet_ok (seqZ 0 64) = true) as Hf by (by vm_compute). apply forallb_Forall in Hf.
    rewrite Forall_forall in Hf. apply Hf, elem_of_seqZ. lia. }
  unfold sextet_ok in H. apply andb_true_iff in H as [H ?]. by apply bool_decide_eq_true in H.
Qed.

(** The sextets of an encoding. *)
Fixpoint sextets (l : list Z) : list Z :=
  match l with
  | [] => []
  | [a] => [(a * 16 / 64)%Z; (a * 16 mod 64)%Z]
  | [a; b] => let n := ((a * 256 + b) * 4)%Z in [(n / 4096)%Z; (n / 64 mod 64)%Z; (n mod 64)%Z]
  | a :: b :: c :: l =>
      let n := ((a * 256 + b) * 256 + c)%Z in
      (n / 262144)%Z :: (n / 4096 mod 64)%Z :: (n / 64 mod 64)%Z :: (n mod 64)%Z :: sextets l
  end.
Fixpoint chars_of (l : list Z) : string :=
  match l with [] => EmptyString | v :: l => String (b64_char v) (chars_of l) end.

Lemma triple_ind (P : list Z -> Prop) : P [] -> (forall a, P [a]) -> (forall a b, P [a; b]) ->
  (forall a b c l, P l -> P (a :: b :: c :: l)) -> forall l, P l.
Proof.
  intros H0 H1 H2 H3. fix IH 1. intros [|a [|b [|c l]]]; [done|apply H1|apply H2|apply H3, IH].
Qed.
Lemma EncodeToString_sextets l : EncodeToString l = chars_of (sextets l).
Proof. induction l as [|a|a b|a b c l IH] using triple_ind; [done..|]. cbn [EncodeToString sextets chars_of]. by rewrite IH. Qed.
Lemma sextets_range l : Forall is_byte l -> Forall (fun v => 0 <= v < 64)%Z (sextets l).
Proof.
  unfold is_byte. induction l as [|a|a b|a b c l IH] using triple_ind; rewrite ?Forall_cons; cbn [sextets]; cbv zeta; intros H.
  - constructor.
  - repeat constructor; Z.div_mod_to_equations; lia.
  - repeat constructor; Z.div_mod_to_equations; lia.
  - destruct H as (?&?&?&Hl). repeat (constructor; [Z.div_mod_to_equations; lia|]). auto.
Qed.
Lemma decode_sextets l : Forall is_byte l -> decode_quads (sextets l) = Some l.
Proof.
  unfold is_byte. induction l as [|a|a b|a b c l IH] using triple_ind; rewrite ?Forall_cons; intros H.
  - done.
  - cbn [sextets decode_quads]. repeat f_equal. Z.div_mod_to_equations; lia.
  - cbn [sextets decode_quads]. cbv zeta. repeat f_equal; Z.div_mod_to_equations; lia.
  - destruct H as (?&?&?&Hl). cbn [sextets decode_quads]. cbv zeta. rewrite (IH Hl). cbn [mbind option_bind].
    repeat f_equal; Z.div_mod_to_equations; lia.
Qed.
Lemma chars_of_ok l : Forall (fun v => 0 <= v < 64)%Z l ->
  b64_values (chars_of l) = Some l /\ sall (fun c => is_alnum c || one_of "-_" c) (chars_of l) = true.
Proof.
  induction 1 as [|v l Hv _ [IH1 IH2]]; [done|]. cbn [chars_of b64_values sall].
  destruct (sextet v Hv) as [-> ->]. by rewrite IH1, IH2.
Qed.
Lemma skip_newlines_id s : sall (fun c => is_alnum c || one_of "-_" c) s = true -> skip_newlines s = s.
Proof.
  induction s as [|c s IH]; [done|]. cbn [sall skip_newlines]. intros [Hc Hs]%andb_true_iff. rewrite (IH Hs).
  destruct (ascii_eqb c CR) eqn:E1; [apply ascii_eqb_eq in E1 as ->; done|].
  by destruct (ascii_eqb c LF) eqn:E2; [apply ascii_eqb_eq in E2 as ->; done|].
Qed.
Lemma Encode_chars l : Forall is_byte l -> sall (fun c => is_alnum c || one_of "-_" c) (EncodeToString l) = true.
Proof. intros H. rewrite EncodeToString_sextets. by apply chars_of_ok, sextets_range. Qed.

Lemma Decode_Encode_b64 l : Forall is_byte l -> DecodeString (EncodeToString l) = Some l.
Proof.
  intros H. unfold DecodeString. rewrite skip_newlines_id by (by apply Encode_chars).
  rewrite EncodeToString_sextets. destruct (chars_of_ok (sextets l)) as [-> _]; [by apply sextets_range|].
  by apply decode_sextets.
Qed.

(** [RawURLEncoding]: decoding an encoding gives the bytes back. *)
Theorem base64_roundtrip l : Forall is_byte l -> DecodeString (EncodeToString l) = Some l.
Proof. apply Decode_Encode_b64. Qed.

Lemma Wrap_Unwrap k iv plaintext env : Forall is_byte (key k) -> Forall is_byte iv -> length iv = 12 ->
  Wrap k iv plaintext = Ok env -> Unwrap k env = Ok plaintext /\ IsKEKEnvelope env = true.
Proof.
  intros Hk Hiv Hl H. unfold Wrap, cipher_key in H. destruct (length (key k) =? 32)%nat eqn:E; [|done].
  apply Nat.eqb_eq in E. cbn [mbind result_bind] in H. cbv zeta in H. apply (proj1 (ret_Ok _ _)) in H.
  destruct (Seal_parts (key k) iv (bytes_of plaintext) (bytes_of envelopePrefix) E Hk (bytes_of_byte _)) as (c&t&Hct&Htt&Hc&Ht&_&Htl&Hopen).
  rewrite Hct, Htt in H.
  assert (forall l, Forall is_byte l -> free_of ":" (EncodeToString l)) as Hfree.
  { intros l Hl'. eapply sall_free_of; [|by apply Encode_chars]. done. }
  subst env. cbn [Join]. split; [|unfold IsKEKEnvelope; apply HasPrefix_spec; rewrite <- app_assoc_s; eauto].
  unfold Unwrap. pose proof (Split_Join ":" [envelopePrefix; EncodeToString iv; EncodeToString t; EncodeToString c]) as Hsp.
  cbn [Join] in Hsp. change (char ":") with (":" : string) in Hsp. rewrite Hsp by (repeat constructor; auto). rewrite String.eqb_refl. cbn [negb].
  unfold decoded. rewrite !Decode_Encode_b64 by done. cbn [mbind result_bind]. unfold cipher_key. rewrite E. cbn [Nat.eqb].
  rewrite Hl, Htl. cbn [mbind result_bind ensure Nat.eqb]. rewrite Hopen. by rewrite string_of_bytes.
Qed.

(** A wrapped secret unwraps to the plaintext under the same key, whatever the
    nonce, and its envelope is recognised. *)
Theorem kek_roundtrip raw k iv plaintext : Forall is_byte raw -> NewKEK raw = Ok k ->
  Forall is_byte iv -> length iv = 12 ->
  exists env, Wrap k iv plaintext = Ok env /\ Unwrap k env = Ok plaintext /\ IsKEKEnvelope env = true.
Proof.
  intros Hr Hk Hiv Hl. unfold NewKEK in Hk. destruct (Z.eqb_spec (Z.of_nat (length raw)) KEKLength) as [E|]; [|done].
  injection Hk as <-. unfold KEKLength in E. assert (length raw = 32) as E' by lia.
  destruct (Wrap (mkKEK raw) iv plaintext) as [env|e] eqn:Hw.
  - exists env. split; [done|]. by apply (Wrap_Unwrap _ iv).
  - exfalso. unfold Wrap, cipher_key in Hw. cbn [key] in Hw. rewrite E' in Hw. done.
Qed.

(** A destroyed key wraps, unwraps and digests nothing. *)
Theorem destroyed_key k iv id purpose value :
  is_ok (Wrap (Destroy k) iv value) = false /\ is_ok (Unwrap (Destroy k) value) = false
  /\ SecretDigest (Some (Destroy k)) id purpose value = Err ErrDestroyed /\ Destroy (Destroy k) = Destroy k.
Proof.
  split; [done|]. split; [|done]. unfold Unwrap.
  destruct (Split ":" value) as [|p [|s1 [|s2 [|s3 [|]]]]]; try done.
  destruct (negb _); [done|]. unfold decoded.
  destruct (DecodeString s1); [|done]. destruct (DecodeString s2); [|done]. by destruct (DecodeString s3).
Qed.

Lemma Sum256_bytes s : Forall (fun b => 0 <= b < 256)%Z (Sum256 s) /\ length (Sum256 s) = 32.
Proof.
  unfold Sum256, digest_bytes. set (d := sha256_digest s).
  cbn [map concat]. rewrite !Forall_app, !length_app.
  pose proof (fun z => proj1 (be_bytes_ok 4 z)) as H1. pose proof (fun z => proj2 (be_bytes_ok 4 z)) as H2.
  rewrite !H2. repeat split; auto.
Qed.
Lemma Ok_inj {E A} (a b : A) : (Ok a : result E A) = Ok b -> a = b.
Proof. congruence. Qed.
(** A digest is 64 lower-case hex digits, so it is never empty. *)
Lemma SecretDigest_hex64 k id purpose p d : SecretDigest (Some k) id purpose p = Ok d -> hex64 d = true.
Proof.
  unfold SecretDigest. destruct (negb _); [done|]. cbv zeta. intros H. apply Ok_inj in H as <-.
  unfold hmac_sha256 at 1. cbv zeta. set (m := string_of _ : string). clearbody m.
  destruct (Sum256_bytes m) as [Hf Hl]. destruct (hex_encode_ok _ Hf) as [H1 H2].
  unfold hex64. by rewrite H1, H2, Hl.
Qed.
