(* ===== verification/SecretBox.v ===== *)
(** * Secrets under the installation's master key (secrets/secrets.go)

    The text [EncryptSecret] stores and [DecryptSecret] reads back, the master key of
    the environment, and the htpasswd hash of a basic-auth password. The nonce that
    [rand.Read] supplies is an argument. *)

From S2P Require Import Prelude GoStrings StrFacts Sha256 AesGcm Kek.
From stdpp Require Import options.

(** ** base64, standard alphabet, padded *)
Definition std_char (v : Z) : ascii :=
  if (v =? 62)%Z then "+"%char else if (v =? 63)%Z then "/"%char else b64_char v.
Definition std_value (c : ascii) : option Z :=
  if ascii_eqb c "+" then Some 62%Z else if ascii_eqb c "/" then Some 63%Z
  else if is_alnum c then b64_value c else None.
(** Padding closes the last quantum; the bits it leaves over are not looked at. *)
Fixpoint decode_padded (s : string) : option (list Z) :=
  match s with
  | EmptyString => Some []
  | String a (String b (String c (String d s))) =>
      p ← std_value a; q ← std_value b;
      if ascii_eqb c "=" then
        if ascii_eqb d "=" && (s =? "") then decode_quads [p; q] else None
      else
        r ← std_value c;
        if ascii_eqb d "=" then if s =? "" then decode_quads [p; q; r] else None
        else v ← std_value d; head ← decode_quads [p; q; r; v]; rest ← decode_padded s; Some (head ++ rest)
  | _ => None
  end.
Definition StdDecodeString (s : string) : option (list Z) := decode_padded (skip_newlines s).
Fixpoint std_chars (l : list Z) : string :=
  match l with [] => EmptyString | v :: l => String (std_char v) (std_chars l) end.
Definition StdEncodeToString (l : list Z) : string :=
  let text := std_chars (sextets l) in
  text +:+ match (length l mod 3)%nat with 1 => "==" | 2 => "=" | _ => "" end.

(** ** SHA-1 *)
Definition rotl (n x : Z) : Z := rotr (32 - n) x.
Fixpoint extend1 (n : nat) (w : list Z) : list Z :=
  match n with
  | O => w
  | S n => extend1 n (rotl 1 (Z.lxor (Z.lxor (nth 2 w 0%Z) (nth 7 w 0%Z)) (Z.lxor (nth 13 w 0%Z) (nth 15 w 0%Z))) :: w)
  end.
Definition sha1_f (i : nat) (b c d : Z) : Z :=
  if (i <? 20)%nat then Ch b c d else if (i <? 40)%nat then Z.lxor (Z.lxor b c) d
  else if (i <? 60)%nat then Maj b c d else Z.lxor (Z.lxor b c) d.
Definition sha1_k (i : nat) : Z :=
  if (i <? 20)%nat then 0x5a827999 else if (i <? 40)%nat then 0x6ed9eba1 else if (i <? 60)%nat then 0x8f1bbcdc else 0xca62c1d6.
Definition sha1_round (s : Z * Z * Z * Z * Z) (iw : nat * Z) : Z * Z * Z * Z * Z :=
  let '(a, b, c, d, e) := s in
  (add32 (add32 (add32 (rotl 5 a) (sha1_f iw.1 b c d)) (add32 e (sha1_k iw.1))) iw.2, a, rotl 30 b, c, d).
Fixpoint sha1_blocks (fuel : nat) (s : Z * Z * Z * Z * Z) (l : list Z) : Z * Z * Z * Z * Z :=
  match fuel, l with
  | S fuel, _ :: _ =>
      let w := rev (extend1 64 (rev (take 16 l))) in
      let '(a, b, c, d, e) := s in
      let '(a', b', c', d', e') := foldl sha1_round s (zip (seq 0 80) w) in
      sha1_blocks fuel (add32 a a', add32 b b', add32 c c', add32 d d', add32 e e') (drop 16 l)
  | _, _ => s
  end.
Definition sha1_Sum (s : string) : list Z :=
  let l := words (pad (bytes_of s)) in
  let '(a, b, c, d, e) := sha1_blocks (length l) (0x67452301, 0xefcdab89, 0x98badcfe, 0x10325476, 0xc3d2e1f0)%Z l in
  concat (map (be_bytes 4) [a; b; c; d; e]).
(** FIPS 180, and RFC 4648. *)
Example sha1_abc : hex_encode (sha1_Sum "abc") = "a9993e364706816aba3e25717850c26c9cd0d89d".
Proof. by vm_compute. Qed.
Example std_vectors : map (fun s => StdEncodeToString (bytes_of s)) [""; "f"; "fo"; "foo"; "foob"] = [""; "Zg=="; "Zm8="; "Zm9v"; "Zm9vYg=="]
  /\ StdDecodeString "Zm9vYg==" = Some (bytes_of "foob") /\ StdDecodeString "Zm9vYg" = None /\ StdDecodeString "Zg=" = None.
Proof. by vm_compute. Qed.

(** ** Secrets *)
Inductive secret_error : Type :=
| ErrMasterKey | ErrSecretFormat | ErrSecretBase64 | ErrSecretCipher | ErrSecretOpen | ErrSecretPanic
| ErrPasswordShort | ErrPasswordNewline.
#[global] Instance secret_error_eq_dec : EqDecision secret_error.
Proof. solve_decision. Defined.
Abbreviation sealed := (result secret_error).
Definition masterKeyLength : nat := 32.

Definition DecodeMasterKey (masterKeyBase64 : string) : sealed (list Z) :=
  match StdDecodeString (TrimSpace masterKeyBase64) with
  | Some key => if negb (length key =? masterKeyLength)%nat then Err ErrMasterKey else Ok key
  | None => Err ErrMasterKey
  end.
Definition EncryptSecret (iv : list Z) (plaintext masterKeyBase64 : string) : sealed string :=
  key ← DecodeMasterKey masterKeyBase64;
  let sealed := Seal key iv (bytes_of plaintext) [] in
  let tagStart := length sealed - 16 in
  let ciphertext := take tagStart sealed in
  let tag := drop tagStart sealed in
  mret (Join ["v1"; EncodeToString iv; EncodeToString tag; EncodeToString ciphertext] ":").
Definition raw_part (s : string) : sealed (list Z) :=
  match DecodeString s with Some l => Ok l | None => Err ErrSecretBase64 end.
(** [Open] panics on a nonce that is not 12 bytes long. *)
Definition DecryptSecret (encoded masterKeyBase64 : string) : sealed string :=
  match Split ":" encoded with
  | [version; s1; s2; s3] =>
      if negb (version =? "v1") || (s1 =? "") || (s2 =? "") || (s3 =? "") then Err ErrSecretFormat else
      key ← DecodeMasterKey masterKeyBase64;
      iv ← raw_part s1; tag ← raw_part s2; ciphertext ← raw_part s3;
      ensure (length iv =? 12)%nat ErrSecretPanic;;
      match Open key iv (ciphertext ++ tag) [] with
      | Some plaintext => mret (string_of plaintext)
      | None => Err ErrSecretOpen
      end
  | _ => Err ErrSecretFormat
  end.
Definition HashBasicAuthPassword (password : string) : sealed string :=
  ensure (negb (String.length password <? 8)%nat) ErrPasswordShort;;
  ensure (negb (sexists (fun c => ascii_eqb c CR || ascii_eqb c LF) password)) ErrPasswordNewline;;
  mret ("{SHA}" +:+ StdEncodeToString (sha1_Sum password)).

Example hash_example : HashBasicAuthPassword "password" = Ok "{SHA}W6ph5Mm5Pz8GgiULbPgzG37mj9g=".
Proof. by vm_compute. Qed.

(** ** Round trip *)
Lemma decode_quads_bytes l bytes : Forall (fun v => 0 <= v < 64)%Z l -> decode_quads l = Some bytes -> Forall is_byte bytes.
Proof.
  revert bytes. unfold is_byte. assert (forall n l bytes, length l <= n -> Forall (fun v => 0 <= v < 64)%Z l ->
    decode_quads l = Some bytes -> Forall (fun b => 0 <= b < 256)%Z bytes) as H; [|eauto].
  clear. induction n as [|n IH]; intros [|p [|q [|r [|s l]]]] bytes; cbn [length decode_quads]; rewrite ?Forall_cons; cbv zeta;
    intros Hn Hl Hd; try lia; try done; try (injection Hd as <-; repeat constructor; Z.div_mod_to_equations; lia).
  destruct (decode_quads l) as [rest|] eqn:Hr; [|done]. cbn [mbind option_bind] in Hd. injection Hd as <-.
  repeat (constructor; [Z.div_mod_to_equations; lia|]). apply (IH l); [lia|tauto|done].
Qed.
Lemma std_value_range c v : std_value c = Some v -> (0 <= v < 64)%Z.
Proof.
  unfold std_value, b64_value, is_alnum, is_upper, is_lower, is_digit, in_range.
  destruct (ascii_eqb c "+"); [intros [= <-]; lia|]. destruct (ascii_eqb c "/"); [intros [= <-]; lia|].
  repeat case_match; intros [= <-]; bsimp; lia.
Qed.
Lemma decode_padded_bytes s bytes : decode_padded s = Some bytes -> Forall is_byte bytes.
Proof.
  assert (forall n s bytes, String.length s <= n -> decode_padded s = Some bytes -> Forall is_byte bytes) as H; [|eauto].
  clear. induction n as [|n IH]; intros [|a [|b [|c [|d s]]]] bytes; cbn [String.length decode_padded]; intros Hn Hd;
    try lia; try done; try (injection Hd as <-; constructor).
  destruct (std_value a) as [p|] eqn:Ea; [|done]. destruct (std_value b) as [q|] eqn:Eb; [|done]. cbn [mbind option_bind] in Hd.
  apply std_value_range in Ea, Eb.
  destruct (ascii_eqb c "="); [destruct (_ && _); [|done]; by apply (decode_quads_bytes [p; q]); [repeat constructor; lia|]|].
  destruct (std_value c) as [r|] eqn:Ec; [|done]. cbn [mbind option_bind] in Hd. apply std_value_range in Ec.
  destruct (ascii_eqb d "="); [destruct (s =? ""); [|done]; by apply (decode_quads_bytes [p; q; r]); [repeat constructor; lia|]|].
  destruct (std_value d) as [v|] eqn:Ed; [|done]. cbn [mbind option_bind] in Hd. apply std_value_range in Ed.
  destruct (decode_quads [p; q; r; v]) as [hd|] eqn:Eh; [|done]. destruct (decode_padded s) as [rest|] eqn:Er; [|done].
  injection Hd as <-. apply Forall_app. split; [|apply (IH s); [lia|done]].
  by apply (decode_quads_bytes [p; q; r; v]); [repeat constructor; lia|].
Qed.
Lemma DecodeMasterKey_Ok m k : DecodeMasterKey m = Ok k -> length k = 32 /\ Forall is_byte k.
Proof.
  unfold DecodeMasterKey. destruct (StdDecodeString _) as [l|] eqn:E; [|done].
  destruct (Nat.eqb_spec (length l) masterKeyLength); [|done]. intros [= <-]. split; [done|]. by apply decode_padded_bytes in E.
Qed.

(** An empty list alone encodes to nothing. *)
Lemma EncodeToString_empty l : EncodeToString l = "" <-> l = [].
Proof. destruct l as [|a [|b [|c l]]]; done. Qed.

Lemma Encrypt_Decrypt master key iv plaintext : DecodeMasterKey master = Ok key -> Forall is_byte iv -> length iv = 12 ->
  exists text, EncryptSecret iv plaintext master = Ok text
    /\ DecryptSecret text master = (if plaintext =? "" then Err ErrSecretFormat else Ok plaintext).
Proof.
  intros Hm Hiv Hl. destruct (DecodeMasterKey_Ok _ _ Hm) as [Hk Hb]. unfold EncryptSecret. rewrite Hm. cbn [mbind result_bind].
  destruct (Seal_parts key iv (bytes_of plaintext) [] Hk Hb (bytes_of_byte _)) as (c&t&Hct&Htt&Hc&Ht&Hcl&Htl&Hopen).
  rewrite Hct, Htt. eexists. split; [done|]. unfold DecryptSecret.
  assert (forall l, Forall is_byte l -> free_of ":" (EncodeToString l)) as Hfree.
  { intros l Hl'. eapply sall_free_of; [|by apply Encode_chars]. done. }
  pose proof (Split_Join ":" ["v1"; EncodeToString iv; EncodeToString t; EncodeToString c]) as Hsp.
  cbn [Join] in Hsp |- *. change (char ":") with (":" : string) in Hsp. rewrite Hsp by (repeat constructor; auto).
  assert (EncodeToString iv <> "" /\ EncodeToString t <> "") as [Hni Hnt].
  { rewrite !EncodeToString_empty. split; intros ->; discriminate. }
  apply String.eqb_neq in Hni, Hnt. rewrite Hni, Hnt. cbn [negb orb String.eqb Ascii.eqb Bool.eqb].
  destruct plaintext as [|x p]; [destruct c; done|]. cbn [String.eqb].
  assert (EncodeToString c <> "") as Hnc by (rewrite EncodeToString_empty; by intros ->).
  apply String.eqb_neq in Hnc. rewrite Hnc. cbn [orb]. rewrite Hm. cbn [mbind result_bind].
  unfold raw_part. rewrite !Decode_Encode_b64 by done. cbn [mbind result_bind]. rewrite Hl. cbn [Nat.eqb ensure].
  cbn [mbind result_bind]. rewrite Hopen. by rewrite string_of_bytes.
Qed.

(** Under any valid master key and any nonce, [EncryptSecret] succeeds and [DecryptSecret]
    reads the plaintext back, unless it is empty: that text is refused as malformed. *)
Theorem secret_roundtrip master key iv plaintext : DecodeMasterKey master = Ok key -> Forall is_byte iv -> length iv = 12 ->
  exists text, EncryptSecret iv plaintext master = Ok text
    /\ DecryptSecret text master = (if plaintext =? "" then Err ErrSecretFormat else Ok plaintext).
Proof. apply Encrypt_Decrypt. Qed.
