(* ===== verification/Snapshot.v ===== *)
(** * Replication snapshots (internal/snapshot)

    The envelope a primary publishes and a node imports: its canonical content
    hash, validation, compatibility, export and import.

    A UUID is its canonical text (the package google/uuid prints lower case);
    an instant is its Unix time in nanoseconds, in UTC. The configuration, of
    type [any] in the source, is the JSON tree it marshals to. Texts of error
    messages are left out: an error says which check failed and on what. *)

From S2P Require Import Prelude Timestamp GoTime GoStrings Json Sha256 Model Identity Kek.
From stdpp Require Import options.

(** ** Schema (schema.go) *)
Definition uuid := string.
Definition uuid_Nil : uuid := "00000000-0000-0000-0000-000000000000".

Record ReplicatedSecret := mkSecret { RSID : uuid; Purpose : string; EnvelopeText : string; Digest : string }.
Record ReplicatedOwner := mkOwner { UserID : uuid; OwnerName : string; PasswordHash : string; OwnerRole : string }.
(** A nil slice ([None]) marshals as null, an empty one as []. *)
Record ReplicatedFields := mkReplicated {
  Configuration : json; Secrets : option (list ReplicatedSecret); Owners : option (list ReplicatedOwner) }.
Record NodeLocalFields := mkNodeLocal {
  NLIngress : Ingress; NodeID : string; Role : TopologyRole; NLGeneration : Z; ClusterKeyRef : option uuid }.
Record TransientFields := mkTransient {
  SnapshotVersion : Z; ReplicationVersion : Z; SourcePrimaryID : uuid; TGeneration : Z; CapturedAt : instant }.
Record Envelope := mkEnvelope {
  Transient : TransientFields; NodeLocal : NodeLocalFields; Replicated : ReplicatedFields;
  ContentHash : string; HashVersion : Z }.

Definition HashVersionLegacy : Z := 1.
Definition HashVersionIngressExcluded : Z := 2.
Definition HashVersionStableSecrets : Z := 3.
Definition HashVersionCurrent : Z := HashVersionStableSecrets.

Inductive snapshot_error : Type :=
| ErrClassification (field : string)
| ErrSecretDigestMissing (id : uuid)
| ErrUnsupportedHashVersion (v : Z)
| ErrContentHashMismatch (declared computed : string)
| ErrSnapshotVersion | ErrReplicationVersion | ErrCapturedAt.
#[global] Instance snapshot_error_eq_dec : EqDecision snapshot_error.
Proof. solve_decision. Defined.
Abbreviation checked := (result snapshot_error).

Definition secrets_of (r : ReplicatedFields) : list ReplicatedSecret := default [] (Secrets r).
Definition owners_of (r : ReplicatedFields) : list ReplicatedOwner := default [] (Owners r).

Definition omitempty (key value : string) : gomap := if value =? "" then [] else [(key, JStr value)].
Definition secret_tree (s : ReplicatedSecret) : json :=
  JObj ([("id", JStr (RSID s)); ("purpose", JStr (Purpose s)); ("envelope", JStr (EnvelopeText s))]
        ++ omitempty "digest" (Digest s)).
Definition owner_tree (o : ReplicatedOwner) : json :=
  JObj [("userId", JStr (UserID o)); ("username", JStr (OwnerName o)); ("passwordHash", JStr (PasswordHash o));
        ("role", JStr (OwnerRole o))].
Definition slice_tree {A} (f : A -> json) (l : option (list A)) : json :=
  match l with None => JNull | Some l => JArr (map f l) end.
Definition replicated_tree (r : ReplicatedFields) : json :=
  JObj [("configuration", Configuration r); ("secrets", slice_tree secret_tree (Secrets r));
        ("owners", slice_tree owner_tree (Owners r))].

Definition canonicalizeReplicated (r : ReplicatedFields) : string := StableStringify (replicated_tree r).
(** [if v, ok := m[key].(map[string]any); ok { change v in place }] *)
Definition update_map (m : gomap) (key : string) (f : gomap -> gomap) : gomap :=
  match as_map (mget m key) with Some v => mset m key (JObj (f v)) | None => m end.
Definition drop_ingress (tree : gomap) : gomap :=
  update_map tree "configuration" (fun cfg => update_map cfg "settings" (fun settings => mdel settings "ingress")).
Definition drop_envelope (item : json) : json :=
  match item with JObj secret => JObj (mdel secret "envelope") | v => v end.
Definition drop_envelopes (tree : gomap) : gomap :=
  match as_slice (mget tree "secrets") with
  | Some l => mset tree "secrets" (JArr (map drop_envelope l))
  | None => tree
  end.
(** The marshalled and decoded tree, without what the definition leaves out. *)
Definition hashed_tree (r : ReplicatedFields) (stableSecrets : bool) : json :=
  match roundtrip_json (replicated_tree r) with
  | JObj tree =>
      let tree := drop_ingress tree in
      JObj (if stableSecrets then drop_envelopes tree else tree)
  | v => v
  end.
Definition canonicalizeReplicatedTree (r : ReplicatedFields) (stableSecrets : bool) : string :=
  StableStringify (hashed_tree r stableSecrets).
Definition canonicalizeReplicatedWithoutIngress (r : ReplicatedFields) : string := canonicalizeReplicatedTree r false.
Definition canonicalizeReplicatedStableSecrets (r : ReplicatedFields) : string := canonicalizeReplicatedTree r true.

Definition validateClassification (e : Envelope) : checked unit :=
  ensure (negb (SourcePrimaryID (Transient e) =? uuid_Nil)) (ErrClassification "transient.sourcePrimaryId");;
  ensure (negb (NodeID (NodeLocal e) =? "")) (ErrClassification "nodeLocal.nodeId");;
  ensure (TopologyRole_IsValid (Role (NodeLocal e))) (ErrClassification "nodeLocal.role");;
  ensure (negb (bool_decide (Configuration (Replicated e) = JNull))) (ErrClassification "replicated.configuration").

(** The text [ExpectedHash] hashes, by hash version. *)
Definition canonical_text (r : ReplicatedFields) (version : Z) : checked string :=
  if (version =? 0)%Z || (version =? HashVersionLegacy)%Z then mret (canonicalizeReplicated r)
  else if (version =? HashVersionIngressExcluded)%Z then mret (canonicalizeReplicatedWithoutIngress r)
  else if (version =? HashVersionStableSecrets)%Z then
    match find_first (fun s => Digest s =? "") (secrets_of r) with
    | Some secret => Err (ErrSecretDigestMissing (RSID secret))
    | None => mret (canonicalizeReplicatedStableSecrets r)
    end
  else Err (ErrUnsupportedHashVersion version).
Definition ExpectedHash (e : Envelope) : checked string :=
  validateClassification e;;
  canonical ← canonical_text (Replicated e) (HashVersion e);
  mret (sha256_hex canonical).
Definition VerifyHash (e : Envelope) : checked unit :=
  got ← ExpectedHash e;
  ensure (got =? ContentHash e) (ErrContentHashMismatch (ContentHash e) got).
Definition Envelope_Validate (e : Envelope) : checked unit :=
  validateClassification e;;
  ensure (SnapshotVersion_IsValid (SnapshotVersion (Transient e))) ErrSnapshotVersion;;
  ensure (ReplicationVersion_IsValid (ReplicationVersion (Transient e))) ErrReplicationVersion;;
  ensure (negb (CapturedAt (Transient e) =? zero_instant)%Z) ErrCapturedAt;;
  VerifyHash e.

(** ** Compatibility (compat.go): the accept-lists are package state *)
Record accept_lists := mkAccept { SupportedSnapshotVersions : list Z; SupportedReplicationVersions : list Z }.
Definition initial_accept : accept_lists := mkAccept [SnapshotVersionV1] [ReplicationVersionV1].
Definition containsVersion (l : list Z) (v : Z) : bool := existsb (Z.eqb v) l.
Record CompatibilityError := mkCompatibilityError { CField : string; Declared : Z; Supported : list Z }.
Definition CheckCompatibility (a : accept_lists) (env : Envelope) : result CompatibilityError unit :=
  let t := Transient env in
  ensure (containsVersion (SupportedSnapshotVersions a) (SnapshotVersion t))
    (mkCompatibilityError "transient.snapshotVersion" (SnapshotVersion t) (SupportedSnapshotVersions a));;
  ensure (containsVersion (SupportedReplicationVersions a) (ReplicationVersion t))
    (mkCompatibilityError "transient.replicationVersion" (ReplicationVersion t) (SupportedReplicationVersions a)).
Definition AddSnapshotVersion (a : accept_lists) (v : Z) : result unit accept_lists :=
  if negb (SnapshotVersion_IsValid v) then Err tt
  else if containsVersion (SupportedSnapshotVersions a) v then Ok a
  else Ok (mkAccept (SupportedSnapshotVersions a ++ [v]) (SupportedReplicationVersions a)).
Definition AddReplicationVersion (a : accept_lists) (v : Z) : result unit accept_lists :=
  if negb (ReplicationVersion_IsValid v) then Err tt
  else if containsVersion (SupportedReplicationVersions a) v then Ok a
  else Ok (mkAccept (SupportedSnapshotVersions a) (SupportedReplicationVersions a ++ [v])).

(** ** Validation (validate.go) *)
Record ValidationIssue := mkIssue { ICode : string; IField : string }.
Record ValidationResult := mkValidationResult { OK : bool; Issues : list ValidationIssue }.
Definition HasIssues (r : ValidationResult) : bool := match Issues r with [] => false | _ => true end.
Definition add (r : ValidationResult) (code field : string) : ValidationResult :=
  mkValidationResult false (Issues r ++ [mkIssue code field]).
Record Validator := mkValidator { vkek : option KEK; unwrap : KEK -> string -> result kek_error string }.
Definition NewValidator (kek : option KEK) : Validator := mkValidator kek Unwrap.

Definition validateSecret (v : Validator) (kek : KEK) (result : ValidationResult) (secret : ReplicatedSecret) : ValidationResult :=
  if RSID secret =? uuid_Nil then add result "SECRET_ID" "replicated.secrets[].id" else
  let result := if TrimSpace (Purpose secret) =? "" then add result "SECRET_PURPOSE" "replicated.secrets[].purpose" else result in
  if negb (IsKEKEnvelope (EnvelopeText secret)) then add result "SECRET_ENVELOPE" "replicated.secrets[].envelope"
  else match unwrap v kek (EnvelopeText secret) with
  | Ok _ => result
  | Err _ => add result "SECRET_DECRYPT" "replicated.secrets[].envelope"
  end.
Definition validateSecrets (v : Validator) (env : Envelope) (result : ValidationResult) : ValidationResult :=
  match secrets_of (Replicated env) with
  | [] => result
  | secrets =>
      match vkek v with
      | None => add result "NO_KEY" "kek"
      | Some kek => foldl (validateSecret v kek) result secrets
      end
  end.
Definition validateOwner (result : ValidationResult) (owner : ReplicatedOwner) : ValidationResult :=
  if UserID owner =? uuid_Nil then add result "OWNER_ID" "replicated.owners[].userId" else
  let result := if TrimSpace (OwnerName owner) =? "" then add result "OWNER_USERNAME" "replicated.owners[].username" else result in
  let result := if negb (HasPrefix (PasswordHash owner) "scrypt$") then add result "OWNER_HASH" "replicated.owners[].passwordHash" else result in
  if negb (OwnerRole owner =? "owner") && negb (OwnerRole owner =? "operator")
  then add result "OWNER_ROLE" "replicated.owners[].role" else result.
Definition validateOwners (env : Envelope) (result : ValidationResult) : ValidationResult :=
  foldl validateOwner result (owners_of (Replicated env)).
Definition Validator_Validate (v : Validator) (a : accept_lists) (env : Envelope) : ValidationResult :=
  let result := mkValidationResult true [] in
  match Envelope_Validate env with
  | Err _ => add result "STRUCTURE" ""
  | Ok _ =>
      match CheckCompatibility a env with
      | Err e => add result "COMPATIBILITY" (CField e)
      | Ok _ => validateOwners env (validateSecrets v env result)
      end
  end.

(** ** Serialization (serialize.go): Marshal *)
(** A uint64 decoded into a float64 is exact up to 2^53, the numbers [JNum] stands for. *)
Definition uint64_json (z : Z) : json := JNum z.

Definition ingress_tree (i : Ingress) : json := JObj (omitempty "ipv4" (IPv4 i) ++ omitempty "ipv6" (IPv6 i)).
Definition nodelocal_tree (n : NodeLocalFields) : json :=
  JObj ([("ingress", ingress_tree (NLIngress n)); ("nodeId", JStr (NodeID n)); ("role", JStr (Role n));
         ("leadershipGeneration", uint64_json (NLGeneration n))]
        ++ match ClusterKeyRef n with Some u => [("clusterKeyRef", JStr u)] | None => [] end).
Definition transient_tree (t : TransientFields) : json :=
  JObj [("snapshotVersion", JNum (SnapshotVersion t)); ("replicationVersion", JNum (ReplicationVersion t));
        ("sourcePrimaryId", JStr (SourcePrimaryID t)); ("leadershipGeneration", uint64_json (TGeneration t));
        ("capturedAt", JStr (rfc3339nano (CapturedAt t)))].
Definition envelope_tree (e : Envelope) : json :=
  JObj ([("transient", transient_tree (Transient e)); ("nodeLocal", nodelocal_tree (NodeLocal e));
         ("replicated", replicated_tree (Replicated e)); ("contentHash", JStr (ContentHash e))]
        ++ if (HashVersion e =? 0)%Z then [] else [("hashVersion", JNum (HashVersion e))]).
(** A year outside [0, 9999] does not marshal, and the text is then null. *)
Definition Marshal (e : Envelope) : string :=
  let y := year_of (CapturedAt (Transient e)) in
  if ((0 <=? y) && (y <=? 9999))%Z then StableStringify (NormalizeSnapshot (envelope_tree e)) else "null".
