(* ===== verification/Transfer.v ===== *)
(** * Export, import and retention (snapshot/export.go, import.go, retention.go)

    The exporter reads its sources and seals an envelope; the importer rewrites
    the node-local fields, archives and enqueues. The ports it calls are
    functions of the calls made so far, so every call is in the trace. *)

From S2P Require Import Prelude GoStrings GoTime Json Sha256 Model Identity Kek Snapshot.
From stdpp Require Import options.

(** ** Export *)
(** [SNonce] is what [rand.Reader] supplies when this secret is wrapped. *)
Record PlainSecret := mkPlain { SID : uuid; SPurpose : string; SValue : string; SNonce : list Z }.
Record ExporterInput := mkExporterInput {
  InstallationID : string; ENodeID : string; ERole : TopologyRole; EIngress : Ingress; EGeneration : Z;
  ClusterKEK : option KEK; EClusterKeyRef : option uuid }.
(** The sources; [Err] is the error a port returns. *)
Record Exporter := mkExporter {
  config_Snapshot : result string json;
  secrets_List : result string (list PlainSecret);
  owners_List : result string (list ReplicatedOwner) }.
Inductive export_error : Type :=
| ErrNoKEK | ErrInstallationID | ErrExportNodeID | ErrExportRole
| ErrReadConfiguration (e : string) | ErrListSecrets (e : string) | ErrWrap (id : uuid) (e : kek_error)
| ErrDigest (id : uuid) (e : kek_error) | ErrListOwners (e : string) | ErrHash (e : snapshot_error).
#[global] Instance export_error_eq_dec : EqDecision export_error.
Proof. solve_decision. Defined.

Definition map_err {E F A} (f : E -> F) (r : result E A) : result F A :=
  match r with Ok a => Ok a | Err e => Err (f e) end.
Definition replicate_secret (kek : KEK) (s : PlainSecret) : result export_error ReplicatedSecret :=
  envelope ← map_err (ErrWrap (SID s)) (Wrap kek (SNonce s) (SValue s));
  digest ← map_err (ErrDigest (SID s)) (SecretDigest (Some kek) (SID s) (SPurpose s) (SValue s));
  mret (mkSecret (SID s) (SPurpose s) envelope digest).
Definition Export (e : Exporter) (now : instant) (i : ExporterInput) : result export_error Envelope :=
  match ClusterKEK i with
  | None => Err ErrNoKEK
  | Some kek =>
      ensure (InstallationID_IsValid (InstallationID i)) ErrInstallationID;;
      ensure (NodeID_IsValid (ENodeID i)) ErrExportNodeID;;
      ensure (TopologyRole_IsValid (ERole i)) ErrExportRole;;
      configuration ← map_err ErrReadConfiguration (config_Snapshot e);
      plainSecrets ← map_err ErrListSecrets (secrets_List e);
      replicatedSecrets ← mapM (replicate_secret kek) plainSecrets;
      owners ← map_err ErrListOwners (owners_List e);
      let env h := mkEnvelope
        (mkTransient SnapshotVersionV1 ReplicationVersionV1 (InstallationID i) (EGeneration i) now)
        (mkNodeLocal (EIngress i) (ENodeID i) (ERole i) (EGeneration i) (EClusterKeyRef i))
        (mkReplicated configuration (Some replicatedSecrets) (Some owners)) h HashVersionCurrent in
      hash ← map_err ErrHash (ExpectedHash (env ""));
      mret (env hash)
  end.

(** ** Import *)
Definition ArchiveTTLDefault : Z := (30 * 24 * 3600 * 10 ^ 9)%Z.
Record StandaloneArchive := mkArchive {
  AID : uuid; ACapturedAt : instant; ExpiresAt : instant; Reason : string; SnapshotData : string }.
Record ImporterInput := mkImporterInput {
  LocalInstallationID : string; LocalNodeID : string; LocalIngress : Ingress; ArchiveTTL : Z; ArchiveReason : string }.
Record ImporterResult := mkImporterResult { ArchiveID : uuid; ApplyJobID : uuid }.
Inductive import_error : Type :=
| ErrImportNodeID | ErrImportRewrite (e : snapshot_error) | ErrImportArchive (e : string) | ErrImportEnqueue (e : string).
Inductive port_call : Type :=
| CallSaveArchive (archive : StandaloneArchive)
| CallCreateApplyJob (sourceLabel snapshotBytes : string).

(** What the archive store and the enqueuer answer. *)
Class ImportPorts := {
  SaveStandaloneArchive : StandaloneArchive -> result string unit;
  CreateApplyJobFromSnapshot : string -> string -> result string uuid }.

Definition replaceNodeLocalFields (env : Envelope) (i : ImporterInput) : result import_error Envelope :=
  if negb (NodeID_IsValid (LocalNodeID i)) then Err ErrImportNodeID else
  let n := NodeLocal env in
  let role := if TopologyRole_IsValid (Role n) then Role n else TopologyRoleNode in
  let env := mkEnvelope (Transient env)
    (mkNodeLocal (LocalIngress i) (LocalNodeID i) role (NLGeneration n) (ClusterKeyRef n))
    (Replicated env) (ContentHash env) (HashVersion env) in
  map_err ErrImportRewrite (VerifyHash env);;
  mret env.

(** [Import] returns the calls it made and its result. [now] and [newID] are
    what the clock and [uuid.New] supply. *)
Definition Import {P : ImportPorts} (now : instant) (newID : uuid) (env : Envelope) (i : ImporterInput)
  : list port_call * result import_error (Envelope * ImporterResult) :=
  let ttl := if (ArchiveTTL i =? 0)%Z then ArchiveTTLDefault else ArchiveTTL i in
  let reason := if ArchiveReason i =? "" then "transition-to-node" else ArchiveReason i in
  match replaceNodeLocalFields env i with
  | Err e => ([], Err e)
  | Ok env =>
      let archive := mkArchive newID now (now + ttl)%Z reason (Marshal env) in
      match SaveStandaloneArchive archive with
      | Err e => ([CallSaveArchive archive], Err (ErrImportArchive e))
      | Ok _ =>
          let calls := [CallSaveArchive archive; CallCreateApplyJob "import" (SnapshotData archive)] in
          match CreateApplyJobFromSnapshot "import" (SnapshotData archive) with
          | Err e => (calls, Err (ErrImportEnqueue e))
          | Ok jobID => (calls, Ok (env, mkImporterResult (AID archive) jobID))
          end
      end
  end.

(** ** Retention *)
(** The period in nanoseconds; zero or negative means one hour. *)
Definition NewRetentionWorker (period : Z) : Z := if (period <=? 0)%Z then (3600 * 10 ^ 9)%Z else period.
