(* ===== verification/SnapshotFacts.v ===== *)
(** * Facts about replication snapshots

    What the content hash covers and what it leaves out, what the validator
    accepts, and that an exported envelope survives validation and import. *)

From S2P Require Import Prelude GoStrings GoTime StrFacts Json JsonFacts Sha256 AesGcm Model Identity Kek Snapshot Transfer.
From stdpp Require Import options.

(** ** Trees *)
Lemma roundtrip_wf v : wf_json v = true -> roundtrip_json v = v.
Proof.
  induction v as [| | | |s|l IH|l IH] using json_ind'; intros H; simpl in *; try done.
  - f_equal. by apply utf8_unrunes, utf8b_utf8.
  - f_equal. induction IH as [|x l Hx _ IHl]; [done|]. simpl in *. apply andb_true_iff in H as [??].
    rewrite Hx, IHl; done.
  - f_equal. induction IH as [|[k x] l Hx _ IHl]; [done|]. simpl in *.
    apply andb_true_iff in H as [[Hk Hv]%andb_true_iff Hl]. rewrite Hx, IHl by done.
    do 2 f_equal. by apply utf8_unrunes, utf8b_utf8.
Qed.

Lemma mdel_mset m k v : mdel (mset m k v) k = mdel m k.
Proof.
  unfold mdel. induction m as [|[k' v'] m IH]; simpl; [by rewrite String.eqb_refl|].
  destruct (String.eqb_spec k k') as [<-|Hne]; simpl.
  - by rewrite String.eqb_refl.
  - rewrite (proj2 (String.eqb_neq k k')) by done. simpl. by rewrite IH.
Qed.
Lemma mget_mset m k v : mget (mset m k v) k = v.
Proof.
  induction m as [|[k' v'] m IH]; simpl; [by rewrite String.eqb_refl|].
  destruct (String.eqb_spec k k') as [<-|Hne]; simpl; [by rewrite String.eqb_refl|].
  by rewrite (proj2 (String.eqb_neq k k')).
Qed.
Lemma mset_mset m k v w : mset (mset m k v) k w = mset m k w.
Proof.
  induction m as [|[k' v'] m IH]; simpl; [by rewrite String.eqb_refl|].
  destruct (String.eqb_spec k k') as [<-|Hne]; simpl; [by rewrite String.eqb_refl|].
  rewrite (proj2 (String.eqb_neq k k')) by done. by rewrite IH.
Qed.
Lemma update_map_update m k f g : update_map (update_map m k f) k g = update_map m k (fun v => g (f v)).
Proof.
  unfold update_map. destruct (mget m k) eqn:E; cbn [as_map]; try (rewrite E; done).
  rewrite mget_mset. cbn [as_map]. by rewrite mset_mset.
Qed.
Lemma update_map_ext m k f g : (forall v, f v = g v) -> update_map m k f = update_map m k g.
Proof. intros H. unfold update_map. destruct (as_map _); by rewrite ?H. Qed.

Definition fields_wf (m : gomap) : bool := forallb (fun f => utf8b f.1 && wf_json f.2) m.
Lemma wf_mset m k v : utf8b k = true -> wf_json v = true -> fields_wf m = true -> fields_wf (mset m k v) = true.
Proof.
  unfold fields_wf. intros Hk Hv. induction m as [|[k' v'] m IH]; simpl; [by rewrite Hk, Hv|].
  intros H. apply andb_true_iff in H as [H Hm]. destruct (k =? k'); simpl; [by rewrite Hk, Hv, Hm|].
  by rewrite H, IH.
Qed.
Lemma wf_mget m k : fields_wf m = true -> wf_json (mget m k) = true.
Proof.
  unfold fields_wf. induction m as [|[k' v'] m IH]; simpl; [done|]. intros [[_ Hv]%andb_true_iff Hm]%andb_true_iff.
  destruct (k =? k'); auto.
Qed.
Lemma wf_mdel m k : fields_wf m = true -> fields_wf (mdel m k) = true.
Proof.
  unfold fields_wf, mdel. intros H. apply forallb_forall. intros f Hf. rewrite forallb_forall in H.
  apply filter_In in Hf as [Hf _]. auto.
Qed.
Lemma wf_update_map m k f : utf8b k = true -> (forall v, fields_wf v = true -> fields_wf (f v) = true) ->
  fields_wf m = true -> fields_wf (update_map m k f) = true.
Proof.
  intros Hk Hf Hm. unfold update_map. destruct (mget m k) eqn:E; try done. cbn [as_map].
  apply wf_mset; [done| |done]. apply Hf. pose proof (wf_mget m k Hm) as H. by rewrite E in H.
Qed.

(** ** What the hash leaves out *)
Definition wf_replicated (r : ReplicatedFields) : Prop := wf_json (replicated_tree r) = true.
Definition replicated_fields (cfg secrets owners : json) : gomap :=
  [("configuration", cfg); ("secrets", secrets); ("owners", owners)].

(** The tree that is hashed, for well-formed fields. *)
Definition stripped (r : ReplicatedFields) (stable : bool) : json :=
  let tree := drop_ingress (replicated_fields (Configuration r) (slice_tree secret_tree (Secrets r))
                (slice_tree owner_tree (Owners r))) in
  JObj (if stable then drop_envelopes tree else tree).
Lemma hashed_tree_wf r stable : wf_replicated r -> hashed_tree r stable = stripped r stable.
Proof. intros H. unfold hashed_tree. by rewrite (roundtrip_wf _ H). Qed.

(** A configuration with another ingress in its settings. *)
Definition with_ingress (v : json) (r : ReplicatedFields) : ReplicatedFields :=
  match Configuration r with
  | JObj cfg => mkReplicated (JObj (update_map cfg "settings" (fun s => mset s "ingress" v))) (Secrets r) (Owners r)
  | _ => r
  end.

Lemma drop_ingress_fields cfg secrets owners :
  drop_ingress (replicated_fields cfg secrets owners) =
  match cfg with
  | JObj cfg => replicated_fields (JObj (update_map cfg "settings" (fun settings => mdel settings "ingress"))) secrets owners
  | _ => replicated_fields cfg secrets owners
  end.
Proof. by destruct cfg. Qed.

Lemma wf_with_ingress v r : wf_json v = true -> wf_replicated r -> wf_replicated (with_ingress v r).
Proof.
  unfold wf_replicated, with_ingress. intros Hv H. destruct (Configuration r) as [| | | | | |cfg] eqn:E; try done.
  unfold replicated_tree in *. rewrite E in H. cbn [Configuration Secrets Owners].
  cbn [wf_json forallb fst snd] in *. apply andb_true_iff in H as [Hc H]. rewrite H, andb_true_r.
  apply andb_true_iff in Hc as [_ Hc]. apply andb_true_iff. split; [done|].
  apply wf_update_map; [done| |done]. intros s Hs. by apply wf_mset.
Qed.

(** The version 2 and 3 definitions do not see the ingress address, so
    installations that differ only in it share a hash. *)
Theorem canonical_ignores_ingress r v stable : wf_replicated r -> wf_json v = true ->
  canonicalizeReplicatedTree (with_ingress v r) stable = canonicalizeReplicatedTree r stable.
Proof.
  intros Hr Hv. unfold canonicalizeReplicatedTree. rewrite !hashed_tree_wf by (by try apply wf_with_ingress).
  f_equal. unfold stripped. rewrite !drop_ingress_fields. unfold with_ingress.
  destruct (Configuration r) as [| | | | | |cfg] eqn:E; rewrite ?E; try done. cbn [Configuration Secrets Owners].
  rewrite update_map_update. rewrite (update_map_ext _ _ _ (fun s => mdel s "ingress")); [done|].
  intros s. apply mdel_mset.
Qed.

(** Two secrets with the same identity, purpose and digest: a re-wrapped secret. *)
Definition same_secret (a b : ReplicatedSecret) : Prop :=
  RSID a = RSID b /\ Purpose a = Purpose b /\ Digest a = Digest b.
Lemma drop_envelope_same a b : same_secret a b -> drop_envelope (secret_tree a) = drop_envelope (secret_tree b).
Proof.
  intros (Hi&Hp&Hd). unfold secret_tree, drop_envelope. rewrite Hi, Hp, Hd. unfold mdel. by rewrite !List.filter_app.
Qed.

(** The version 3 definition does not see the envelopes, whose random nonce
    changes on every export. *)
Theorem canonical_ignores_envelopes r secrets secrets' :
  Secrets r = Some secrets -> Forall2 same_secret secrets secrets' ->
  wf_replicated r -> wf_replicated (mkReplicated (Configuration r) (Some secrets') (Owners r)) ->
  canonicalizeReplicatedStableSecrets (mkReplicated (Configuration r) (Some secrets') (Owners r))
  = canonicalizeReplicatedStableSecrets r.
Proof.
  intros Hs Hf Hw Hw'. unfold canonicalizeReplicatedStableSecrets, canonicalizeReplicatedTree.
  rewrite !hashed_tree_wf by done. f_equal. unfold stripped. rewrite !drop_ingress_fields.
  cbn [Configuration Secrets Owners]. rewrite Hs. cbn [slice_tree].
  assert (map drop_envelope (map secret_tree secrets') = map drop_envelope (map secret_tree secrets)) as He.
  { clear -Hf. induction Hf as [|a b l k Hab _ IH]; [done|]. cbn [map]. by rewrite IH, (drop_envelope_same a b). }
  assert (forall cfg o s, drop_envelopes (replicated_fields cfg (JArr s) o)
            = replicated_fields cfg (JArr (map drop_envelope s)) o) as Hd by done.
  destruct (Configuration r); rewrite !Hd, He; done.
Qed.

(** ** The hash covers the replicated fields only *)
Lemma ensure_step {E A} b (e : E) (k : result E A) x : (ensure b e;; k) = Ok x <-> b = true /\ k = Ok x.
Proof. destruct b; cbv; naive_solver. Qed.
Definition classification_ok (e : Envelope) : Prop :=
  SourcePrimaryID (Transient e) <> uuid_Nil /\ NodeID (NodeLocal e) <> ""
  /\ TopologyRole_IsValid (Role (NodeLocal e)) = true /\ Configuration (Replicated e) <> JNull.
Lemma validateClassification_Ok e : validateClassification e = Ok tt <-> classification_ok e.
Proof.
  unfold validateClassification, classification_ok. rewrite !ensure_step, ensure_Ok, !negb_true_iff, bool_decide_eq_false.
  by rewrite !String.eqb_neq.
Qed.
Lemma ExpectedHash_Ok e h : ExpectedHash e = Ok h <->
  classification_ok e /\ exists t, canonical_text (Replicated e) (HashVersion e) = Ok t /\ h = sha256_hex t.
Proof.
  unfold ExpectedHash. rewrite bind_Ok, <- validateClassification_Ok. split.
  - intros ([]&Hc&H). apply bind_Ok in H as (t&Ht&H). apply (proj1 (ret_Ok _ _)) in H as <-. eauto.
  - intros (Hc&t&Ht&->). exists tt. split; [done|]. apply bind_Ok. eauto.
Qed.
Lemma VerifyHash_Ok e : VerifyHash e = Ok tt <->
  classification_ok e /\ exists t, canonical_text (Replicated e) (HashVersion e) = Ok t /\ ContentHash e = sha256_hex t.
Proof.
  unfold VerifyHash. rewrite bind_Ok. split.
  - intros (h&Hh&H). apply ensure_Ok, String.eqb_eq in H. apply ExpectedHash_Ok in Hh as (?&t&?&->). eauto.
  - intros (Hc&t&Ht&Hh). exists (sha256_hex t). split; [apply ExpectedHash_Ok; eauto|]. apply ensure_Ok. by rewrite Hh, String.eqb_refl.
Qed.

(** Re-anchoring the node-local and transient metadata does not change the hash. *)
Theorem hash_covers_replicated_only e e' :
  Replicated e' = Replicated e -> HashVersion e' = HashVersion e ->
  classification_ok e -> classification_ok e' -> ExpectedHash e' = ExpectedHash e.
Proof.
  intros Hr Hv Hc Hc'. unfold ExpectedHash. apply validateClassification_Ok in Hc, Hc'.
  by rewrite Hc, Hc', Hr, Hv.
Qed.

(** A verified hash pins the hashed content, as far as SHA-256 has no collision
    on the two texts: the trees are the same Go value. *)
Definition hashed_value (r : ReplicatedFields) (version : Z) : json :=
  if (version =? HashVersionStableSecrets)%Z then stripped r true
  else if (version =? HashVersionIngressExcluded)%Z then stripped r false else replicated_tree r.
Lemma canonical_text_value r v t : wf_replicated r -> canonical_text r v = Ok t -> t = writeStable (roundtrip_json (hashed_value r v)).
Proof.
  intros Hr. unfold canonical_text, hashed_value, HashVersionLegacy, HashVersionStableSecrets, HashVersionIngressExcluded.
  destruct (Z.eqb_spec v 0) as [->|]; cbn [orb]; [intros H; by apply Ok_inj in H as <-|].
  destruct (Z.eqb_spec v 1) as [->|]; [intros H; by apply Ok_inj in H as <-|].
  destruct (Z.eqb_spec v 2) as [->|]; cbn [Z.eqb Pos.eqb].
  { intros H. apply Ok_inj in H as <-. unfold canonicalizeReplicatedWithoutIngress, canonicalizeReplicatedTree.
    by rewrite hashed_tree_wf. }
  destruct (Z.eqb_spec v 3) as [->|]; [|done]. destruct (find_first _ _); [done|].
  intros H. apply Ok_inj in H as <-. unfold canonicalizeReplicatedStableSecrets, canonicalizeReplicatedTree.
  by rewrite hashed_tree_wf.
Qed.

Lemma wf_drop_ingress m : fields_wf m = true -> fields_wf (drop_ingress m) = true.
Proof.
  intros H. apply wf_update_map; [done| |done]. intros cfg Hc. apply wf_update_map; [done| |done].
  intros s Hs. by apply wf_mdel.
Qed.
Lemma wf_drop_envelopes m : fields_wf m = true -> fields_wf (drop_envelopes m) = true.
Proof.
  intros H. unfold drop_envelopes. destruct (mget m "secrets") eqn:E; try done. cbn [as_slice].
  apply wf_mset; [done| |done]. pose proof (wf_mget m "secrets" H) as Hs. rewrite E in Hs. cbn [wf_json] in *.
  rewrite forallb_forall in Hs |- *. intros x (y&<-&Hy)%in_map_iff. specialize (Hs y Hy).
  destruct y; try done. by apply wf_mdel.
Qed.
Lemma hashed_value_wf r v : wf_replicated r -> wf_json (hashed_value r v) = true.
Proof.
  intros H. unfold hashed_value, stripped. repeat case_match; try done.
  - by apply wf_drop_envelopes, wf_drop_ingress.
  - by apply wf_drop_ingress.
Qed.

(** C37: Two envelopes that verify with the same content hash and the same hash version
    carry the same hashed value, up to the order of object fields, when SHA-256 does
    not collide on their two canonical texts. *)
Theorem verified_hash_binds e e' :
  wf_replicated (Replicated e) -> wf_replicated (Replicated e') ->
  VerifyHash e = Ok tt -> VerifyHash e' = Ok tt ->
  ContentHash e = ContentHash e' -> HashVersion e = HashVersion e' ->
  (forall t t', canonical_text (Replicated e) (HashVersion e) = Ok t ->
     canonical_text (Replicated e') (HashVersion e') = Ok t' -> sha256_hex t = sha256_hex t' -> t = t') ->
  json_equiv (hashed_value (Replicated e) (HashVersion e)) (hashed_value (Replicated e') (HashVersion e')).
Proof.
  intros Hw Hw' Hv Hv' Hh HV Hinj.
  apply VerifyHash_Ok in Hv as (_&t&Ht&E). apply VerifyHash_Ok in Hv' as (_&t'&Ht'&E').
  assert (t = t') as Htt by (apply (Hinj t t' Ht Ht'); congruence).
  apply canonical_text_value in Ht, Ht'; [|done..].
  pose proof (hashed_value_wf (Replicated e) (HashVersion e) Hw) as W.
  pose proof (hashed_value_wf (Replicated e') (HashVersion e') Hw') as W'.
  rewrite (roundtrip_wf _ W) in Ht. rewrite (roundtrip_wf _ W') in Ht'.
  apply (inj_at_all _ _ "" ""); try done. rewrite !app_nil_r_s. congruence.
Qed.

(** ** Validation *)
Definition secret_good (v : Validator) (kek : KEK) (s : ReplicatedSecret) : Prop :=
  RSID s <> uuid_Nil /\ TrimSpace (Purpose s) <> "" /\ IsKEKEnvelope (EnvelopeText s) = true
  /\ exists p, unwrap v kek (EnvelopeText s) = Ok p.
Definition owner_good (o : ReplicatedOwner) : Prop :=
  UserID o <> uuid_Nil /\ TrimSpace (OwnerName o) <> "" /\ HasPrefix (PasswordHash o) "scrypt$" = true
  /\ (OwnerRole o = "owner" \/ OwnerRole o = "operator").

(** A result is consistent when it is OK exactly without issues; a step keeps
    an OK result or makes it not OK for good. *)
Definition consistent (r : ValidationResult) : Prop := OK r = negb (HasIssues r).
Lemma add_consistent r c f : consistent (add r c f).
Proof. unfold consistent, HasIssues, add. cbn. by destruct (Issues r). Qed.

Lemma validateSecret_spec v kek r s : consistent r ->
  consistent (validateSecret v kek r s)
  /\ (OK (validateSecret v kek r s) = true <-> OK r = true /\ secret_good v kek s).
Proof.
  intros Hc. unfold validateSecret, secret_good. cbv zeta.
  destruct (String.eqb_spec (RSID s) uuid_Nil).
  { split; [apply add_consistent|]. cbn. naive_solver. }
  destruct (String.eqb_spec (TrimSpace (Purpose s)) "") as [Hp|Hp].
  { repeat case_match; (split; [apply add_consistent|]); cbn; naive_solver. }
  destruct (IsKEKEnvelope (EnvelopeText s)); cbn [negb].
  - destruct (unwrap v kek (EnvelopeText s)) as [p|].
    + split; [done|]. naive_solver.
    + split; [apply add_consistent|]. cbn. naive_solver.
  - split; [apply add_consistent|]. cbn. naive_solver.
Qed.
Lemma validateOwner_spec r o : consistent r ->
  consistent (validateOwner r o) /\ (OK (validateOwner r o) = true <-> OK r = true /\ owner_good o).
Proof.
  intros Hc. unfold validateOwner, owner_good. cbv zeta.
  destruct (String.eqb_spec (UserID o) uuid_Nil).
  { split; [apply add_consistent|]. cbn. naive_solver. }
  destruct (String.eqb_spec (TrimSpace (OwnerName o)) ""), (HasPrefix (PasswordHash o) "scrypt$"),
    (String.eqb_spec (OwnerRole o) "owner"), (String.eqb_spec (OwnerRole o) "operator"); cbn;
    (split; [first [apply add_consistent|exact Hc]|]); cbn; naive_solver.
Qed.
Lemma fold_checks {A} (step : ValidationResult -> A -> ValidationResult) (good : A -> Prop) r l :
  (forall r a, consistent r -> consistent (step r a) /\ (OK (step r a) = true <-> OK r = true /\ good a)) ->
  consistent r -> consistent (foldl step r l) /\ (OK (foldl step r l) = true <-> OK r = true /\ Forall good l).
Proof.
  intros Hs. revert r; induction l as [|a l IH]; intros r Hc; cbn [foldl]; [split; [done|]; rewrite Forall_nil; tauto|].
  destruct (Hs r a Hc) as [Hc' Hok]. destruct (IH _ Hc') as [Hc'' Hok']. split; [done|].
  rewrite Hok', Hok, Forall_cons. tauto.
Qed.

Definition secrets_good (v : Validator) (env : Envelope) : Prop :=
  secrets_of (Replicated env) = [] \/ exists kek, vkek v = Some kek /\ Forall (secret_good v kek) (secrets_of (Replicated env)).
Lemma validateSecrets_spec v env r : consistent r ->
  consistent (validateSecrets v env r) /\ (OK (validateSecrets v env r) = true <-> OK r = true /\ secrets_good v env).
Proof.
  intros Hc. unfold validateSecrets, secrets_good. destruct (secrets_of (Replicated env)) as [|s l] eqn:E; [naive_solver|].
  destruct (vkek v) as [kek|].
  - destruct (fold_checks (validateSecret v kek) (secret_good v kek) r (s :: l)) as [H1 H2]; [|done|].
    { intros. by apply validateSecret_spec. }
    split; [done|]. rewrite H2. naive_solver.
  - split; [apply add_consistent|]. cbn. naive_solver.
Qed.

Definition compatible (a : accept_lists) (env : Envelope) : Prop :=
  SnapshotVersion (Transient env) ∈ SupportedSnapshotVersions a
  /\ ReplicationVersion (Transient env) ∈ SupportedReplicationVersions a.
Lemma containsVersion_elem l v : containsVersion l v = true <-> v ∈ l.
Proof.
  unfold containsVersion. rewrite existsb_elem. split; [intros (x&?&->%Z.eqb_eq); done|].
  intros. exists v. by rewrite Z.eqb_refl.
Qed.
Lemma CheckCompatibility_Ok a env : CheckCompatibility a env = Ok tt <-> compatible a env.
Proof. unfold CheckCompatibility, compatible. cbv zeta. by rewrite ensure_step, ensure_Ok, !containsVersion_elem. Qed.

Lemma Validator_Validate_spec v a env :
  consistent (Validator_Validate v a env)
  /\ (OK (Validator_Validate v a env) = true <->
      Envelope_Validate env = Ok tt /\ compatible a env /\ secrets_good v env
      /\ Forall owner_good (owners_of (Replicated env))).
Proof.
  unfold Validator_Validate. cbv zeta.
  destruct (Envelope_Validate env) as [[]|] eqn:He; [|split; [apply add_consistent|]; cbn; naive_solver].
  rewrite <- CheckCompatibility_Ok.
  destruct (CheckCompatibility a env) as [[]|]; [|split; [apply add_consistent|]; cbn; naive_solver].
  destruct (validateSecrets_spec v env (mkValidationResult true [])) as [H1 H2]; [done|].
  destruct (fold_checks validateOwner owner_good (validateSecrets v env (mkValidationResult true []))
    (owners_of (Replicated env)) validateOwner_spec H1) as [H3 H4].
  split; [done|]. unfold validateOwners. rewrite H4, H2. cbn. tauto.
Qed.

(** The validator reports OK exactly when it reports no issue, and exactly when
    the structure, the versions, every secret and every owner are in order. *)
Theorem Validator_Validate_iff v a env :
  OK (Validator_Validate v a env) = negb (HasIssues (Validator_Validate v a env))
  /\ (OK (Validator_Validate v a env) = true <->
      Envelope_Validate env = Ok tt /\ compatible a env /\ secrets_good v env
      /\ Forall owner_good (owners_of (Replicated env))).
Proof. apply Validator_Validate_spec. Qed.

Lemma validated_exactly r : consistent r -> OK r = true -> r = mkValidationResult true [].
Proof. destruct r as [ok [|x l]]; unfold consistent; cbn; intros Hc Ho; congruence. Qed.

(** ** Export *)
Definition plain_good (s : PlainSecret) : Prop :=
  SID s <> uuid_Nil /\ TrimSpace (SPurpose s) <> "" /\ Forall is_byte (SNonce s) /\ length (SNonce s) = 12.
Definition wrapped (kek : KEK) (s : PlainSecret) (r : ReplicatedSecret) : Prop :=
  RSID r = SID s /\ Purpose r = SPurpose s /\ Unwrap kek (EnvelopeText r) = Ok (SValue s)
  /\ IsKEKEnvelope (EnvelopeText r) = true /\ hex64 (Digest r) = true.

Lemma replicate_secret_Ok raw kek s : Forall is_byte raw -> NewKEK raw = Ok kek -> plain_good s ->
  exists r, replicate_secret kek s = Ok r /\ wrapped kek s r.
Proof.
  intros Hb Hk (_&_&Hn&Hl). unfold NewKEK in Hk.
  destruct (Z.eqb_spec (Z.of_nat (length raw)) KEKLength) as [E|]; [|done].
  apply Ok_inj in Hk as <-.
  assert (exists env, Wrap (mkKEK raw) (SNonce s) (SValue s) = Ok env) as [env He].
  { unfold Wrap, cipher_key. cbn [key]. unfold KEKLength in E. assert (length raw = 32) as -> by lia. eexists. reflexivity. }
  destruct (Wrap_Unwrap (mkKEK raw) (SNonce s) (SValue s) env Hb Hn Hl He) as [Hu Hp].
  assert (exists d, SecretDigest (Some (mkKEK raw)) (SID s) (SPurpose s) (SValue s) = Ok d) as [d Hd].
  { unfold SecretDigest. cbn [key]. rewrite E. eexists. reflexivity. }
  exists (mkSecret (SID s) (SPurpose s) env d). unfold replicate_secret. rewrite He, Hd. split; [done|].
  repeat split; try done. by apply SecretDigest_hex64 in Hd.
Qed.

Lemma hex64_nonempty d : hex64 d = true -> d <> "".
Proof. by intros H ->. Qed.
Lemma digests_present secrets : Forall (fun s => hex64 (Digest s) = true) secrets ->
  find_first (fun s => Digest s =? "") secrets = None.
Proof.
  intros H. apply find_first_None. eapply Forall_impl; [exact H|]. intros s Hs.
  apply String.eqb_neq. by apply hex64_nonempty.
Qed.

(** With readable sources, a 32-byte key and well-formed input, the exporter
    succeeds; the validator accepts the envelope under the same key, and every
    secret in it unwraps to its plaintext. *)
Theorem Export_validates e now i raw kek configuration secrets owners :
  Forall is_byte raw -> NewKEK raw = Ok kek -> ClusterKEK i = Some kek ->
  InstallationID_IsValid (InstallationID i) = true -> NodeID_IsValid (ENodeID i) = true ->
  TopologyRole_IsValid (ERole i) = true -> now <> zero_instant ->
  config_Snapshot e = Ok configuration -> configuration <> JNull ->
  secrets_List e = Ok secrets -> Forall plain_good secrets ->
  owners_List e = Ok owners -> Forall owner_good owners ->
  exists env, Export e now i = Ok env
  /\ Validator_Validate (NewValidator (Some kek)) initial_accept env = mkValidationResult true []
  /\ Forall2 (wrapped kek) secrets (secrets_of (Replicated env)).
Proof.
  intros Hb Hk Hik Hid Hnode Hrole Hnow Hcfg Hnn Hsec Hgood Hown Hog.
  assert (exists rs, mapM (replicate_secret kek) secrets = Ok rs /\ Forall2 (wrapped kek) secrets rs) as (rs&Hrs&Hw).
  { clear Hsec. induction Hgood as [|s l Hs _ (rs&Hrs&Hw)]; [exists []; split; [done|constructor]|].
    destruct (replicate_secret_Ok raw kek s Hb Hk Hs) as (r&Hr&Hwr). exists (r :: rs).
    split; [|by constructor]. cbn [mapM]. by rewrite Hr, Hrs. }
  set (env h := mkEnvelope
        (mkTransient SnapshotVersionV1 ReplicationVersionV1 (InstallationID i) (EGeneration i) now)
        (mkNodeLocal (EIngress i) (ENodeID i) (ERole i) (EGeneration i) (EClusterKeyRef i))
        (mkReplicated configuration (Some rs) (Some owners)) h HashVersionCurrent).
  assert (forall h, classification_ok (env h)) as Hclass.
  { intros h. split; [|split; [|split; [exact Hrole|exact Hnn]]].
    - cbn. intros Heq. by rewrite Heq in Hid.
    - cbn. intros Heq. by rewrite Heq in Hnode. }
  assert (forall h, exists t, canonical_text (Replicated (env h)) (HashVersion (env h)) = Ok t) as Htext.
  { intros h. cbn. rewrite digests_present; [eexists; reflexivity|].
    clear -Hw. induction Hw as [|s r l k (_&_&_&_&?) _ IH]; by constructor. }
  destruct (Htext "") as [t Ht].
  assert (ExpectedHash (env "") = Ok (sha256_hex t)) as Hh by (apply ExpectedHash_Ok; eauto).
  exists (env (sha256_hex t)). split; [|split; [|exact Hw]].
  - unfold Export. rewrite Hik, Hid, Hnode, Hrole, Hcfg, Hsec. cbn [ensure mbind result_bind map_err].
    rewrite Hrs. cbn [mbind result_bind]. rewrite Hown. cbn [mbind result_bind map_err]. cbv zeta.
    change (mkEnvelope _ _ _ "" _) with (env ""). by rewrite Hh.
  - assert (OK (Validator_Validate (NewValidator (Some kek)) initial_accept (env (sha256_hex t))) = true) as Hok.
    { apply Validator_Validate_spec. split; [|split; [|split]].
      - unfold Envelope_Validate. rewrite (proj2 (validateClassification_Ok _) (Hclass _)). cbn -[zero_instant VerifyHash].
        rewrite (proj2 (Z.eqb_neq _ _) Hnow). cbn [negb ensure]. cbn -[VerifyHash].
        apply VerifyHash_Ok. split; [apply Hclass|]. exists t. split; [exact Ht|done].
      - split; cbn; set_solver.
      - right. exists kek. split; [done|]. cbn [secrets_of Replicated Secrets env]. unfold secrets_of. cbn.
        clear -Hw Hgood. induction Hw as [|s r l k Hr _ IH]; [constructor|]. apply Forall_cons in Hgood as [(Hs1&Hs2&_) Hgood].
        destruct Hr as (Hr1&Hr2&Hr3&Hr4&_). constructor; [|by apply IH]. unfold secret_good. cbn [unwrap NewValidator].
        rewrite Hr1, Hr2. eauto.
      - exact Hog. }
    apply validated_exactly; [apply Validator_Validate_spec|done].
Qed.

(** ** Import *)
Definition rewritten (env : Envelope) (i : ImporterInput) : Envelope :=
  mkEnvelope (Transient env)
    (mkNodeLocal (LocalIngress i) (LocalNodeID i)
      (if TopologyRole_IsValid (Role (NodeLocal env)) then Role (NodeLocal env) else TopologyRoleNode)
      (NLGeneration (NodeLocal env)) (ClusterKeyRef (NodeLocal env)))
    (Replicated env) (ContentHash env) (HashVersion env).

Lemma replaceNodeLocalFields_Ok env i env' : replaceNodeLocalFields env i = Ok env' <->
  NodeID_IsValid (LocalNodeID i) = true /\ env' = rewritten env i /\ VerifyHash (rewritten env i) = Ok tt.
Proof.
  unfold replaceNodeLocalFields. cbv zeta. fold (rewritten env i).
  destruct (NodeID_IsValid (LocalNodeID i)); cbn [negb]; [|naive_solver].
  rewrite bind_Ok. destruct (VerifyHash (rewritten env i)) as [[]|] eqn:E; cbn [map_err]; split.
  - intros (u&_&H). by apply Ok_inj in H as <-.
  - intros (_&->&_). by exists tt.
  - by intros (u&?&_).
  - by intros (_&_&?).
Qed.

Lemma rewritten_verifies env i : NodeID_IsValid (LocalNodeID i) = true ->
  VerifyHash env = Ok tt -> VerifyHash (rewritten env i) = Ok tt.
Proof.
  intros Hn. rewrite !VerifyHash_Ok. intros [(Hs&_&_&Hc) Ht]. split; [|exact Ht].
  split; [exact Hs|]. split; [|split; [|exact Hc]].
  - cbn. intros Heq. by rewrite Heq in Hn.
  - cbn [rewritten NodeLocal Role]. destruct (TopologyRole_IsValid (Role (NodeLocal env))) eqn:E; [exact E|done].
Qed.

(** Importing a verified envelope gives it the node's own identity and ingress,
    keeps the primary's content and hash, and the result verifies again; the
    archive is saved before the job is created. *)
Theorem Import_keeps_hash (P : ImportPorts) now newID env i jobID :
  VerifyHash env = Ok tt -> NodeID_IsValid (LocalNodeID i) = true ->
  (forall a, SaveStandaloneArchive a = Ok tt) ->
  (forall data, CreateApplyJobFromSnapshot "import" data = Ok jobID) ->
  exists env' archive,
  Import now newID env i
    = ([CallSaveArchive archive; CallCreateApplyJob "import" (Marshal env')], Ok (env', mkImporterResult newID jobID))
  /\ Replicated env' = Replicated env /\ ContentHash env' = ContentHash env /\ Transient env' = Transient env
  /\ NLIngress (NodeLocal env') = LocalIngress i /\ NodeID (NodeLocal env') = LocalNodeID i
  /\ VerifyHash env' = Ok tt /\ SnapshotData archive = Marshal env'
  /\ (ArchiveTTL i = 0 -> ExpiresAt archive = now + 2592000 * 10 ^ 9)%Z.
Proof.
  intros Hv Hn Ha Hj. pose proof (rewritten_verifies env i Hn Hv) as Hr.
  pose proof (proj2 (replaceNodeLocalFields_Ok env i _) (conj Hn (conj eq_refl Hr))) as He.
  exists (rewritten env i). eexists. unfold Import. cbv zeta. rewrite He, Ha. cbn [SnapshotData]. rewrite Hj.
  split; [reflexivity|]. repeat split; [exact Hr|]. cbn [ExpiresAt]. by intros ->.
Qed.

(** No port is called for an envelope whose hash does not verify, and no apply
    job is created unless the archive was saved. *)
Theorem Import_calls (P : ImportPorts) now newID env i calls r :
  Import now newID env i = (calls, r) ->
  (calls <> [] -> VerifyHash (rewritten env i) = Ok tt)
  /\ (forall l d, CallCreateApplyJob l d ∈ calls ->
      exists a, calls = [CallSaveArchive a; CallCreateApplyJob l d] /\ SaveStandaloneArchive a = Ok tt /\ SnapshotData a = d)
  /\ (is_ok r = true -> length calls = 2).
Proof.
  unfold Import. cbv zeta. destruct (replaceNodeLocalFields env i) as [env'|e] eqn:He.
  - apply replaceNodeLocalFields_Ok in He as (_&->&Hv).
    set (a := mkArchive _ _ _ _ _). destruct (SaveStandaloneArchive a) as [[]|e] eqn:Hs.
    + destruct (CreateApplyJobFromSnapshot "import" (SnapshotData a)); intros H; injection H as <- <-;
        (split; [done|]); (split; [|done]); intros l d Hin; exists a;
        apply elem_of_cons in Hin as [?|Hin]; try done; apply list_elem_of_singleton in Hin as H; by injection H as -> ->.
    + intros H; injection H as <- <-. split; [done|]. split; [|done]. intros l d Hin. by apply list_elem_of_singleton in Hin.
  - intros H; injection H as <- <-. split; [done|]. split; [|done]. intros l d Hin. by apply elem_of_nil in Hin.
Qed.
