(* ===== verification/JsonText.v ===== *)
(** * JSON texts

    [json.Valid], [json.Compact] and [json.Unmarshal], as one recursive-descent
    reader: it returns the tree as it stands in the text (members in order, a
    repeated key as often as it occurs), the compact text and the rest of the
    input. A non-integral or large number keeps its text.
    Fuel bounds the nesting; [read_json] gives enough for any input, and like
    the library it refuses nesting deeper than 10000. *)

From S2P Require Import Prelude GoStrings Json.
From stdpp Require Import options.

Definition json_space (c : ascii) : bool :=
  (code c =? 32)%Z || (code c =? 9)%Z || (code c =? 10)%Z || (code c =? 13)%Z.
Fixpoint skip_ws (s : string) : string :=
  match s with String c s' => if json_space c then skip_ws s' else s | EmptyString => s end.

(** ** Strings *)
Definition hex_value (c : ascii) : option Z :=
  if is_digit c then Some (code c - 48)%Z else if in_range 97 102 c then Some (code c - 87)%Z
  else if in_range 65 70 c then Some (code c - 55)%Z else None.
Definition hex4 (s : string) : option (Z * string) :=
  match s with
  | String a (String b (String c (String d r))) =>
      x ← hex_value a; y ← hex_value b; z ← hex_value c; w ← hex_value d;
      Some (((x * 16 + y) * 16 + z) * 16 + w, r)%Z
  | _ => None
  end.
Definition utf8_encode (r : Z) : string :=
  (if r <? 128 then char (byte_of r)
   else if r <? 2048 then String (byte_of (192 + r / 64)) (char (byte_of (128 + r mod 64)))
   else if r <? 65536 then
     if (55296 <=? r) && (r <=? 57343) then RuneError
     else String (byte_of (224 + r / 4096)) (String (byte_of (128 + r / 64 mod 64)) (char (byte_of (128 + r mod 64))))
   else String (byte_of (240 + r / 262144)) (String (byte_of (128 + r / 4096 mod 64))
     (String (byte_of (128 + r / 64 mod 64)) (char (byte_of (128 + r mod 64))))))%Z.
Definition simple_escape (c : ascii) : option ascii :=
  if ascii_eqb c DQ || ascii_eqb c BS || ascii_eqb c "/" then Some c
  else if ascii_eqb c "b" then Some (byte_of 8) else if ascii_eqb c "f" then Some (byte_of 12)
  else if ascii_eqb c "n" then Some LF else if ascii_eqb c "r" then Some CR
  else if ascii_eqb c "t" then Some (byte_of 9) else None.
(** A trailing [\uDC00..\uDFFF] after a high surrogate. *)
Definition low_surrogate (s : string) : option (Z * string) :=
  match s with
  | String a (String b r) =>
      if ascii_eqb a BS && ascii_eqb b "u" then
        '(lo, r) ← hex4 r;
        if ((56320 <=? lo) && (lo <=? 57343))%Z then Some (lo, r) else None
      else None
  | _ => None
  end.
(** The text after an opening quote: the decoded string, the raw text up to
    the closing quote, and the rest. *)
Fixpoint read_string (fuel : nat) (s : string) : option (string * string * string) :=
  match fuel with
  | O => None
  | S fuel =>
  match s with
  | EmptyString => None
  | String c s1 =>
      if ascii_eqb c DQ then Some ("", "", s1)
      else if (code c <? 32)%Z then None
      else if ascii_eqb c BS then
        match s1 with
        | EmptyString => None
        | String d s2 =>
            if ascii_eqb d "u" then
              '(r, s3) ← hex4 s2;
              let raw := String BS (String "u" (take_s 4 s2)) in
              match (if (55296 <=? r) && (r <=? 56319) then low_surrogate s3 else None)%Z with
              | Some (lo, s4) =>
                  '(v, t, rest) ← read_string fuel s4;
                  Some (utf8_encode ((r - 55296) * 1024 + (lo - 56320) + 65536)%Z +:+ v,
                        raw +:+ take_s 6 s3 +:+ t, rest)
              | None =>
                  '(v, t, rest) ← read_string fuel s3; Some (utf8_encode r +:+ v, raw +:+ t, rest)
              end
            else
              e ← simple_escape d;
              '(v, t, rest) ← read_string fuel s2;
              Some (String e v, String BS (String d t), rest)
        end
      else '(v, t, rest) ← read_string fuel s1; Some (String c v, String c t, rest)
  end end.

(** ** Numbers *)
Fixpoint digits (s : string) : string * string :=
  match s with
  | String c s' => if is_digit c then let '(d, r) := digits s' in (String c d, r) else ("", s)
  | EmptyString => ("", "")
  end.
Fixpoint dec_value (acc : Z) (s : string) : Z :=
  match s with EmptyString => acc | String c s => dec_value (acc * 10 + (code c - 48)) s end.
(** Fraction and exponent parts: the text and the rest, [None] when malformed. *)
Definition read_frac (s : string) : option (string * string) :=
  match s with
  | String c s' =>
      if ascii_eqb c "." then
        let '(d, r) := digits s' in if d =? "" then None else Some (String "." d, r)
      else Some ("", s)
  | EmptyString => Some ("", s)
  end.
Definition read_exp (s : string) : option (string * string) :=
  match s with
  | String c s' =>
      if ascii_eqb c "e" || ascii_eqb c "E" then
        let '(sign, s2) := match s' with
          | String d s2 => if ascii_eqb d "+" || ascii_eqb d "-" then (char d, s2) else ("", s')
          | EmptyString => ("", s') end in
        let '(d, r) := digits s2 in if d =? "" then None else Some (String c (sign +:+ d), r)
      else Some ("", s)
  | EmptyString => Some ("", s)
  end.
Definition number_value (sign : bool) (int text : string) (plain : bool) : json :=
  let z := dec_value 0 int in
  if plain && (z <=? 2 ^ 53)%Z && negb (sign && (z =? 0)%Z) then JNum (if sign then - z else z) else JFloat text.
Definition read_number (s : string) : option (json * string * string) :=
  let '(sign, s1) := match s with
    | String c s1 => if ascii_eqb c "-" then (true, s1) else (false, s)
    | EmptyString => (false, s) end in
  let '(int, s2) := digits s1 in
  if (int =? "") || (1 <? slen int)%Z && HasPrefix int "0" then None else
  '(frac, s3) ← read_frac s2;
  '(exp, s4) ← read_exp s3;
  let text := (if sign then "-" else "") +:+ int +:+ frac +:+ exp in
  Some (number_value sign int text ((frac =? "") && (exp =? "")), text, s4).

(** ** Values *)
Definition read_literal (s : string) : option (json * string * string) :=
  if HasPrefix s "true" then Some (JBool true, "true", drop_s 4 s)
  else if HasPrefix s "false" then Some (JBool false, "false", drop_s 5 s)
  else if HasPrefix s "null" then Some (JNull, "null", drop_s 4 s)
  else None.
Definition quote_raw (t : string) : string := String DQ (t +:+ char DQ).
(** Unmarshalling into a map keeps the last value of a repeated key. *)
Definition add_member (m : gomap) (k : string) (v : json) : gomap := if mhas m k then m else (k, v) :: m.
Fixpoint last_wins (v : json) : json :=
  match v with
  | JArr l => JArr (map last_wins l)
  | JObj fs => JObj (foldr (fun f m => add_member m f.1 (last_wins f.2)) [] fs)
  | _ => v
  end.

Fixpoint read_value (fuel : nat) (s : string) : option (json * string * string) :=
  match fuel with
  | O => None
  | S fuel =>
      match skip_ws s with
      | EmptyString => None
      | String c s1 =>
          if ascii_eqb c DQ then
            '(v, t, r) ← read_string (S (String.length s1)) s1; Some (JStr (valid_utf8 v), quote_raw t, r)
          else if ascii_eqb c "[" then
            match skip_ws s1 with
            | String d s2 =>
                if ascii_eqb d "]" then Some (JArr [], "[]", s2)
                else '(l, t, r) ← read_elements fuel s1; Some (JArr l, "[" +:+ t +:+ "]", r)
            | EmptyString => None
            end
          else if ascii_eqb c "{" then
            match skip_ws s1 with
            | String d s2 =>
                if ascii_eqb d "}" then Some (JObj [], "{}", s2)
                else '(m, t, r) ← read_members fuel s1; Some (JObj m, "{" +:+ t +:+ "}", r)
            | EmptyString => None
            end
          else if is_digit c || ascii_eqb c "-" then read_number (String c s1)
          else read_literal (String c s1)
      end
  end
with read_elements (fuel : nat) (s : string) : option (list json * string * string) :=
  match fuel with
  | O => None
  | S fuel =>
      '(v, t, r) ← read_value fuel s;
      match skip_ws r with
      | String c r' =>
          if ascii_eqb c "]" then Some ([v], t, r')
          else if ascii_eqb c "," then
            '(l, t', r'') ← read_elements fuel r'; Some (v :: l, t +:+ "," +:+ t', r'')
          else None
      | EmptyString => None
      end
  end
with read_members (fuel : nat) (s : string) : option (gomap * string * string) :=
  match fuel with
  | O => None
  | S fuel =>
      match skip_ws s with
      | String c s1 =>
          if ascii_eqb c DQ then
            '(k, kt, r) ← read_string (S (String.length s1)) s1;
            match skip_ws r with
            | String c r1 =>
                if ascii_eqb c ":" then
                  '(v, vt, r2) ← read_value fuel r1;
                  let text := quote_raw kt +:+ ":" +:+ vt in
                  match skip_ws r2 with
                  | String c r3 =>
                      if ascii_eqb c "}" then Some ([(valid_utf8 k, v)], text, r3)
                      else if ascii_eqb c "," then
                        '(m, t', r4) ← read_members fuel r3;
                        Some ((valid_utf8 k, v) :: m, text +:+ "," +:+ t', r4)
                      else None
                  | EmptyString => None
                  end
                else None
            | EmptyString => None
            end
          else None
      | EmptyString => None
      end
  end.

(** Nesting depth of the brackets outside strings. *)
Fixpoint max_depth (inside esc : bool) (d m : Z) (s : string) : Z :=
  match s with
  | EmptyString => m
  | String c s =>
      if inside then
        if esc then max_depth true false d m s
        else if ascii_eqb c BS then max_depth true true d m s
        else max_depth (negb (ascii_eqb c DQ)) false d m s
      else if ascii_eqb c DQ then max_depth true false d m s
      else if one_of "[{" c then max_depth false false (d + 1) (Z.max m (d + 1)) s
      else if one_of "]}" c then max_depth false false (d - 1) m s
      else max_depth false false d m s
  end.
Definition read_json (s : string) : option (json * string) :=
  if (10000 <? max_depth false false 0 0 s)%Z then None else
  '(v, t, r) ← read_value (2 * String.length s + 2) s;
  if skip_ws r =? "" then Some (v, t) else None.
Definition json_Valid (s : string) : bool := bool_decide (is_Some (read_json s)).
Definition json_Compact (s : string) : option string := snd <$> read_json s.
(** The members in document order, as decoding into a struct meets them. *)
Definition json_decode (s : string) : option json := fst <$> read_json s.
(** Decoding into [any]. *)
Definition json_Unmarshal (s : string) : option json := last_wins <$> json_decode s.

Definition q (s : string) : string := quote_raw s.
Example read_example :
  read_json (" { " +:+ q "a\n" +:+ " : [1 , -2.50e+1,true ] , " +:+ q "b\u00e9\ud83d\ude00" +:+ ":{ }}" )
  = Some (JObj [(String "a" nl, JArr [JNum 1; JFloat "-2.50e+1"; JBool true]);
                ("b" +:+ utf8_encode 233 +:+ utf8_encode 128512, JObj [])],
          "{" +:+ q "a\n" +:+ ":[1,-2.50e+1,true]," +:+ q "b\u00e9\ud83d\ude00" +:+ ":{}}").
Proof. by vm_compute. Qed.
Example read_repeated :
  json_Unmarshal ("{" +:+ q "a" +:+ ":1," +:+ q "a" +:+ ":[{" +:+ q "b" +:+ ":1," +:+ q "b" +:+ ":2}]}")
  = Some (JObj [("a", JArr [JObj [("b", JNum 2)]])]).
Proof. by vm_compute. Qed.
Example read_invalid : map json_Valid ["01"; "[1,]"; "{}x"; ""; "nul"; "1."; q (char LF); "[[]"] = repeat false 8.
Proof. by vm_compute. Qed.
