(* ===== verification/Jobs.v ===== *)
(** * The apply-job state machine (worker/jobs/jobs.go) *)

From S2P Require Import Prelude GoStrings Json Model.
From stdpp Require Import options.

Definition Status := string.
Definition Queued : Status := "queued".
Definition Validating : Status := "validating".
Definition Applying : Status := "applying".
Definition Applied : Status := "applied".
Definition Failed : Status := "failed".
Definition RolledBack : Status := "rolled-back".
Definition all_statuses : list Status := [Queued; Validating; Applying; Applied; Failed; RolledBack].

Definition transitions (s : Status) : list Status :=
  if s =? Queued then [Validating]
  else if s =? Validating then [Applying; Failed]
  else if s =? Applying then [Applied; Failed; RolledBack]
  else if s =? Applied then []
  else if s =? Failed then [Queued]
  else if s =? RolledBack then [Queued]
  else [].
Definition Transition (current next : Status) : validated Status :=
  if contains (transitions current) next then Ok next
  else Err (mkValidationError ("Invalid job transition: " +:+ current +:+ " -> " +:+ next) "JOB_TRANSITION").
Definition IsTerminal (status : Status) : bool := (status =? Applied) || (status =? Failed) || (status =? RolledBack).

(** ** The machine *)
Inductive job_step : Status -> Status -> Prop :=
| job_transition s s' : Transition s s' = Ok s' -> job_step s s'.

Lemma job_transition_Ok s s' n : Transition s s' = Ok n <-> n = s' /\ s' ∈ transitions s.
Proof.
  unfold Transition. destruct (contains (transitions s) s') eqn:E.
  - apply contains_elem in E. split; [intros H; split; [congruence|done]|by intros [-> _]].
  - apply contains_false in E. split; [done|naive_solver].
Qed.
Lemma transitions_known s s' : s' ∈ transitions s -> s ∈ all_statuses /\ s' ∈ all_statuses.
Proof.
  unfold transitions, all_statuses. intros H.
  repeat match type of H with
    | _ ∈ (if ?a =? ?b then _ else _) => destruct (String.eqb_spec a b) as [-> |]
    end; set_solver.
Qed.

(** Applied is final; a terminal job is only ever requeued, and a job reaches
    applied or rolled-back from applying only. *)
Theorem job_machine s s' : job_step s s' ->
  (s <> Applied)
  /\ (IsTerminal s = true -> s' = Queued)
  /\ (s' = Applied \/ s' = RolledBack -> s = Applying)
  /\ (s' = Queued -> s = Failed \/ s = RolledBack).
Proof.
  intros [? ? [_ H]%job_transition_Ok]. unfold transitions in H.
  repeat match type of H with
    | _ ∈ (if ?a =? ?b then _ else _) => destruct (String.eqb_spec a b) as [-> |]
    end; rewrite ?elem_of_cons, ?elem_of_nil in H; destruct_or?; subst; try done; repeat split; try done;
    try (by intros [|]); auto.
Qed.
