(* ===== verification/Store.v ===== *)
(** * The job store (worker/store, sqlitedb/write.go)

    The tables the worker reads and writes, as lists of rows in the order the
    engine visits them. [Write] is a transaction: an error leaves the database
    as it was. The schema's CHECK constraints, its primary key and its foreign
    keys are part of the model; text is compared bytewise (COLLATE BINARY). *)

From S2P Require Import Prelude GoStrings Json JsonText Timestamp Model Identity Jobs.
From stdpp Require Import options.


(** ** Rows *)
Record JobRow := mkJobRow {
  j_id : string; j_revision : string; j_correlation : string; j_created : string; j_target : string;
  j_status : string; j_source : string;
  j_actor : option string; j_primary : option string; j_node : option string; j_source_revision : option string;
  j_hash : option string; j_validation : option string; j_apply : option string; j_health : option string;
  j_error : option string; j_claimed : option string; j_started : option string; j_finished : option string;
  j_snapshot_version : option Z; j_replication_version : option Z; j_leadership : option Z }.
Record RevisionRow := mkRevisionRow {
  v_id : string; v_number : Z; v_checksum : string; v_snapshot : string; v_actor : option string; v_created : string;
  v_applied : option string; v_source : string; v_primary : option string; v_node : option string;
  v_source_revision : option string; v_hash : option string; v_snapshot_version : option Z;
  v_replication_version : option Z; v_leadership : option Z }.
Record SettingsRow := mkSettingsRow {
  s_current : option string; s_forwarding : string; s_pool : option string; s_created : string; s_updated : string }.
(** [settings] is the installation_settings row of id 'default'. *)
Record database := mkDatabase {
  apply_jobs : list JobRow; config_revisions : list RevisionRow; users : list string; settings : option SettingsRow }.
#[global] Instance JobRow_eq_dec : EqDecision JobRow. Proof. solve_decision. Defined.
#[global] Instance RevisionRow_eq_dec : EqDecision RevisionRow. Proof. solve_decision. Defined.
#[global] Instance SettingsRow_eq_dec : EqDecision SettingsRow. Proof. solve_decision. Defined.

Definition with_jobs (db : database) (l : list JobRow) : database :=
  mkDatabase l (config_revisions db) (users db) (settings db).

Inductive store_error : Type :=
| ErrJobDomain | ErrJobUUID | ErrJobField | ErrJobTarget | ErrMissingReference | ErrLostRow | ErrConstraint
| ErrJobNotFound (id : string) | ErrJobTransition (e : ValidationError) | ErrNoValues | ErrJobJSON
| ErrTimestamp (e : ts_error) | ErrRevisionNotFound (id : string) | ErrStored.
#[global] Instance store_error_eq_dec : EqDecision store_error.
Proof. solve_decision. Defined.
Abbreviation stored := (result store_error).

(** ** Time: seconds and nanoseconds *)
Definition time := (Z * Z)%type.
Definition zero_time : time := (-62135596800, 0)%Z.
Definition encodeTime (at_ : time) : stored string :=
  match EncodeTimestamp (FiniteTimestamp at_.1 at_.2) with
  | Ok (Some k) => Ok k
  | Ok None => Err ErrStored
  | Err e => Err (ErrTimestamp e)
  end.
Definition decode_key (key : string) : stored time :=
  match DecodeTimestamp (Some key) with
  | Ok (FiniteTimestamp s n) => Ok (s, n)
  | Ok _ => Ok zero_time
  | Err e => Err (ErrTimestamp e)
  end.
Definition has_nul (s : string) : bool := ContainsChar s NUL.
Definition decodeTime (key : string) : stored time := if has_nul key then Err ErrJobField else decode_key key.

(** ** Jobs *)
Definition Target := string.
Definition TargetCoreDNS : Target := "coredns".
Definition TargetNginx : Target := "nginx".
Definition TargetCombined : Target := "combined".
Definition TargetCertificate : Target := "certificate".
Definition SourceOrdinary : string := "ordinary".
Definition validTarget (t : Target) : bool := contains [TargetCoreDNS; TargetNginx; TargetCombined; TargetCertificate] t.
Definition validSource (s : string) : bool := contains ["ordinary"; "import"; "sync"] s.
Definition validStatus (s : Status) : bool := contains all_statuses s.

Record Job := mkJob {
  JobID : string; RevisionID : string; ActorUserID : option string; JTarget : Target; JStatus : Status;
  JSource : string; JPrimary : option string; JNode : option string; JSourceRevision : option string;
  JHash : option string; JSnapshotVersion : option Z; JReplicationVersion : option Z; JLeadership : option Z;
  CorrelationID : string; JCreatedAt : time; JClaimedAt : option time; JStartedAt : option time;
  JFinishedAt : option time; ValidationOutput : option string; ApplyOutput : option string;
  HealthOutput : option string; ErrorMessage : option string }.
#[global] Instance Job_eq_dec : EqDecision Job. Proof. solve_decision. Defined.

Definition opt_all (p : string -> bool) (o : option string) : bool := match o with Some s => p s | None => true end.
Definition int32_ok (o : option Z) : bool :=
  match o with Some v => (- 2 ^ 31 <=? v)%Z && (v <=? 2 ^ 31 - 1)%Z | None => true end.
Definition json_column (s : string) : bool := negb (has_nul s) && json_Valid s.
(** A stored JSON null projects to nil. *)
Definition output_of (o : option string) : option string :=
  match o with Some t => if TrimSpace t =? "null" then None else Some t | None => None end.
Definition decode_opt (o : option string) : stored (option time) :=
  match o with Some k => t ← decodeTime k; mret (Some t) | None => mret None end.

Definition scanJob (r : JobRow) : stored Job :=
  ensure (validTarget (j_target r) && validStatus (j_status r) && validSource (j_source r)) ErrJobDomain;;
  ensure (uuidPattern (j_id r) && uuidPattern (j_revision r)) ErrJobUUID;;
  ensure (negb (has_nul (j_correlation r))) ErrJobField;;
  created ← decodeTime (j_created r);
  ensure (opt_all uuidPattern (j_actor r) && opt_all uuidPattern (j_primary r) && opt_all uuidPattern (j_node r)
          && opt_all uuidPattern (j_source_revision r)) ErrJobUUID;;
  ensure (opt_all (fun s => negb (has_nul s)) (j_hash r) && opt_all (fun s => negb (has_nul s)) (j_error r)) ErrJobField;;
  ensure (opt_all json_column (j_validation r) && opt_all json_column (j_apply r) && opt_all json_column (j_health r)) ErrJobField;;
  claimed ← decode_opt (j_claimed r);
  started ← decode_opt (j_started r);
  finished ← decode_opt (j_finished r);
  ensure (int32_ok (j_snapshot_version r) && int32_ok (j_replication_version r)) ErrJobField;;
  mret (mkJob (j_id r) (j_revision r) (j_actor r) (j_target r) (j_status r) (j_source r) (j_primary r) (j_node r)
    (j_source_revision r) (j_hash r) (j_snapshot_version r) (j_replication_version r) (j_leadership r)
    (j_correlation r) created claimed started finished (output_of (j_validation r)) (output_of (j_apply r))
    (output_of (j_health r)) (j_error r)).

(** ** Schema constraints (migrations/004_operational_product.sql) *)
Definition timestamp_column (s : string) : bool :=
  (s =? "0") || (s =? "2")
  || (slen s =? 31)%Z && HasPrefix s "1" && char_at s 21 "." && sall is_digit (take_s 20 (drop_s 1 s))
     && sall is_digit (drop_s 22 s)
     && negb (less_s "18446744073709551615" (take_s 20 (drop_s 1 s))).
Definition job_row_ok (r : JobRow) : bool :=
  uuidPattern (j_id r) && uuidPattern (j_revision r) && opt_all uuidPattern (j_actor r)
  && validTarget (j_target r) && validStatus (j_status r) && validSource (j_source r)
  && negb (has_nul (j_correlation r))
  && opt_all json_column (j_validation r) && opt_all json_column (j_apply r) && opt_all json_column (j_health r)
  && opt_all (fun s => negb (has_nul s)) (j_error r)
  && opt_all timestamp_column (j_claimed r) && opt_all timestamp_column (j_started r) && opt_all timestamp_column (j_finished r)
  && timestamp_column (j_created r)
  && opt_all uuidPattern (j_primary r) && opt_all uuidPattern (j_node r) && opt_all uuidPattern (j_source_revision r)
  && opt_all (fun s => negb (has_nul s)) (j_hash r) && int32_ok (j_snapshot_version r) && int32_ok (j_replication_version r).
Definition revision_exists (db : database) (id : string) : bool := existsb (fun v => v_id v =? id) (config_revisions db).
Definition references_ok (db : database) (r : JobRow) : bool :=
  revision_exists db (j_revision r) && opt_all (contains (users db)) (j_actor r).

(** ** Transactions *)
(** The error type of a store, which a failure of the database layer enters. *)
Class StoreFailure (E : Type) := store_failure : store_error -> E.
#[global] Instance store_failure_id : StoreFailure store_error := fun e => e.
(** [Write]: [now] is the clock; the callback sees its encoded stamp. *)
Definition Write {D E A} `{StoreFailure E} (db : D) (now : time) (callback : string -> D -> result E (D * A)) : D * result E A :=
  match encodeTime now with
  | Err e => (db, Err (store_failure e))
  | Ok stamp => match callback stamp db with Ok (db', a) => (db', Ok a) | Err e => (db, Err e) end
  end.

(** [UPDATE ... SET f WHERE p RETURNING *]: the changed rows must satisfy the
    schema. The foreign keys are checked in [references_ok] on insertion; no
    update here touches them. *)
Definition update_rows (p : JobRow -> bool) (f : JobRow -> JobRow) (l : list JobRow) : stored (list JobRow * list JobRow) :=
  ensure (forallb (fun r => job_row_ok (f r)) (List.filter p l)) ErrConstraint;;
  mret (map (fun r => if p r then f r else r) l, map f (List.filter p l)).

(** ** Reading *)
Definition Get (db : database) (id : string) : stored (option Job) :=
  match find_first (fun r => j_id r =? id) (apply_jobs db) with
  | None => mret None
  | Some r => job ← scanJob r; mret (Some job)
  end.
Definition newer (a b : JobRow) : bool := less_s (j_created b) (j_created a).
Definition List_ (db : database) : stored (list Job) := mapM scanJob (SliceStable newer (apply_jobs db)).

(** ** Claiming *)
Definition older (a b : JobRow) : bool := less_s (j_created a) (j_created b).
(** [ORDER BY created_at ASC LIMIT 1] *)
Definition oldest (l : list JobRow) : option JobRow := head (SliceStable older l).
Definition claimable (target : Target) (r : JobRow) : bool :=
  (j_status r =? Queued) && ((target =? "") || (j_target r =? target)).
Definition references (db : database) (job : Job) : stored unit :=
  ensure (revision_exists db (RevisionID job)) ErrMissingReference;;
  ensure (opt_all (contains (users db)) (ActorUserID job)) ErrMissingReference.
Definition claim_row (stamp : string) (r : JobRow) : JobRow :=
  mkJobRow (j_id r) (j_revision r) (j_correlation r) (j_created r) (j_target r) Validating (j_source r) (j_actor r)
    (j_primary r) (j_node r) (j_source_revision r) (j_hash r) (j_validation r) (j_apply r) (j_health r) (j_error r)
    (Some stamp) (Some (default stamp (j_started r))) (j_finished r) (j_snapshot_version r) (j_replication_version r) (j_leadership r).
Definition ClaimNext (db : database) (now : time) (target : Target) : database * stored (option Job) :=
  if negb (target =? "") && negb (validTarget target) then (db, Err ErrJobTarget) else
  Write db now (fun stamp db =>
    match oldest (List.filter (claimable target) (apply_jobs db)) with
    | None => mret (db, None)
    | Some r =>
        selected ← scanJob r;
        references db selected;;
        '(rows, changed) ← update_rows (fun r => (j_id r =? JobID selected) && (j_status r =? Queued)) (claim_row stamp) (apply_jobs db);
        match changed with
        | [] => Err ErrLostRow
        | r' :: _ =>
            job ← scanJob r';
            references db job;;
            mret (with_jobs db rows, Some job)
        end
    end).

(** ** Recovery *)
Definition recoveredMessage : string := "Recovered after worker lease expiration".
Definition stale (cutoff : string) (r : JobRow) : bool :=
  contains [Validating; Applying] (j_status r)
  && match j_claimed r with Some c => less_s c cutoff | None => false end.
Definition requeue_row (r : JobRow) : JobRow :=
  mkJobRow (j_id r) (j_revision r) (j_correlation r) (j_created r) (j_target r) Queued (j_source r) (j_actor r)
    (j_primary r) (j_node r) (j_source_revision r) (j_hash r) (j_validation r) (j_apply r) (j_health r)
    (Some recoveredMessage) None None (j_finished r) (j_snapshot_version r) (j_replication_version r) (j_leadership r).
(** [UnixMilli]: floored milliseconds of a time with non-negative nanoseconds. *)
Definition UnixMilli (t : time) : Z := (t.1 * 1000 + t.2 / 1000000)%Z.
(** [((cutoffMs % 1000) + 1000) % 1000] with Go's truncated remainder. *)
Definition cutoff_time (cutoffMs : Z) : time :=
  let remainder := Z.rem (Z.rem cutoffMs 1000 + 1000) 1000 in
  (Z.quot (cutoffMs - remainder) 1000, remainder * 1000000)%Z.
Definition RecoverStale (db : database) (now : time) (leaseMs : Z) : database * stored Z :=
  match encodeTime (cutoff_time (UnixMilli now - leaseMs)) with
  | Err e => (db, Err e)
  | Ok cutoff =>
      Write db now (fun _ db =>
        '(rows, changed) ← update_rows (stale cutoff) requeue_row (apply_jobs db);
        mret (with_jobs db rows, Z.of_nat (length changed)))
  end.

(** ** Patching *)
Inductive Nullable (A : Type) : Type := Keep | Clear | Set_ (value : A).
Arguments Keep {A}. Arguments Clear {A}. Arguments Set_ {A} value.
Record JobPatch := mkPatch {
  PStatus : option Status; PValidation : Nullable string; PApply : Nullable string; PHealth : Nullable string;
  PError : Nullable string; PClaimed : Nullable time; PStarted : Nullable time; PFinished : Nullable time }.
Definition empty_patch : JobPatch := mkPatch None Keep Keep Keep Keep Keep Keep Keep.

(** The column's new value: [None] leaves it alone. *)
Definition nullable {A} (f : A -> stored string) (p : Nullable A) : stored (option (option string)) :=
  match p with
  | Keep => mret None
  | Clear => mret (Some None)
  | Set_ v => s ← f v; mret (Some (Some s))
  end.
Definition compactOutput (raw : string) : stored string :=
  match json_Compact raw with Some t => Ok t | None => Err ErrJobJSON end.
Record assignments := mkAssignments {
  as_status : option Status; as_validation : option (option string); as_apply : option (option string);
  as_health : option (option string); as_error : option (option string); as_claimed : option (option string);
  as_started : option (option string); as_finished : option (option string) }.
Definition patch_assignments (p : JobPatch) : stored assignments :=
  validation ← nullable compactOutput (PValidation p);
  apply ← nullable compactOutput (PApply p);
  health ← nullable compactOutput (PHealth p);
  error ← nullable mret (PError p);
  claimed ← nullable encodeTime (PClaimed p);
  started ← nullable encodeTime (PStarted p);
  finished ← nullable encodeTime (PFinished p);
  mret (mkAssignments (PStatus p) validation apply health error claimed started finished).
Definition no_assignments (a : assignments) : bool :=
  match a with mkAssignments None None None None None None None None => true | _ => false end.
Definition assign (a : assignments) (r : JobRow) : JobRow :=
  mkJobRow (j_id r) (j_revision r) (j_correlation r) (j_created r) (j_target r) (default (j_status r) (as_status a))
    (j_source r) (j_actor r) (j_primary r) (j_node r) (j_source_revision r) (j_hash r)
    (default (j_validation r) (as_validation a)) (default (j_apply r) (as_apply a)) (default (j_health r) (as_health a))
    (default (j_error r) (as_error a)) (default (j_claimed r) (as_claimed a)) (default (j_started r) (as_started a))
    (default (j_finished r) (as_finished a)) (j_snapshot_version r) (j_replication_version r) (j_leadership r).
Definition check_transition (rows : list JobRow) (id : string) (status : option Status) : stored unit :=
  match status with
  | None => mret tt
  | Some next =>
      match find_first (fun r => j_id r =? id) rows with
      | None => Err (ErrJobNotFound id)
      | Some r => match Transition (j_status r) next with Ok _ => mret tt | Err e => Err (ErrJobTransition e) end
      end
  end.
Definition Update (db : database) (now : time) (id : string) (patch : JobPatch) : database * stored Job :=
  match patch_assignments patch with
  | Err e => (db, Err e)
  | Ok a =>
      if no_assignments a then (db, Err ErrNoValues) else
      Write db now (fun _ db =>
        check_transition (apply_jobs db) id (PStatus patch);;
        '(rows, changed) ← update_rows (fun r => j_id r =? id) (assign a) (apply_jobs db);
        match changed with
        | [] => Err (ErrJobNotFound id)
        | r :: _ => job ← scanJob r; mret (with_jobs db rows, job)
        end)
  end.

(** ** Enqueueing (enqueue.go) *)
Record EnqueueInput := mkEnqueue {
  EnRevision : string; EnActor : option string; EnTarget : Target; EnStatus : Status; EnSource : string;
  EnPrimary : option string; EnNode : option string; EnSourceRevision : option string; EnHash : option string;
  EnSnapshotVersion : option Z; EnReplicationVersion : option Z; EnLeadership : option Z; EnCorrelation : string;
  EnValidation : option string; EnApply : option string; EnHealth : option string; EnError : option string;
  EnClaimed : option time; EnStarted : option time; EnFinished : option time }.
Definition opt_stored {A} (f : A -> stored string) (o : option A) : stored (option string) :=
  match o with None => mret None | Some a => s ← f a; mret (Some s) end.
(** [random] is what [rand.Read] supplies for the identifier. *)
Definition insertJob (stamp : string) (random : list Z) (db : database) (i : EnqueueInput) : stored (database * Job) :=
  let id := NewUUID random in
  let status := if EnStatus i =? "" then Queued else EnStatus i in
  let source := if EnSource i =? "" then SourceOrdinary else EnSource i in
  validation ← opt_stored compactOutput (EnValidation i);
  apply ← opt_stored compactOutput (EnApply i);
  health ← opt_stored compactOutput (EnHealth i);
  claimed ← opt_stored encodeTime (EnClaimed i);
  started ← opt_stored encodeTime (EnStarted i);
  finished ← opt_stored encodeTime (EnFinished i);
  let row := mkJobRow id (EnRevision i) (EnCorrelation i) stamp (EnTarget i) status source (EnActor i) (EnPrimary i)
    (EnNode i) (EnSourceRevision i) (EnHash i) validation apply health (EnError i) claimed started finished
    (EnSnapshotVersion i) (EnReplicationVersion i) (EnLeadership i) in
  ensure (job_row_ok row && references_ok db row && forallb (fun r => negb (j_id r =? id)) (apply_jobs db)) ErrConstraint;;
  job ← scanJob row;
  mret (with_jobs db (apply_jobs db ++ [row]), job).
Definition Enqueue (db : database) (now : time) (random : list Z) (input : EnqueueInput) : database * stored Job :=
  Write db now (fun stamp db => insertJob stamp random db input).
Definition active (r : JobRow) : bool := contains [Queued; Validating; Applying] (j_status r).
Definition EnqueueIfNotActive (db : database) (now : time) (random : list Z) (input : EnqueueInput) : database * stored (option Job) :=
  Write db now (fun stamp db =>
    match find_first active (apply_jobs db) with
    | Some _ => mret (db, None)
    | None => '(db', job) ← insertJob stamp random db input; mret (db', Some job)
    end).
