(* ===== verification/StoreFacts.v ===== *)
(** * Facts about the job store

    The schema's rows are what the reader accepts; claiming, recovery, patching
    and guarded enqueueing as functions of the table. *)

From S2P Require Import Prelude Timestamp GoStrings StrFacts Json JsonText Model Identity Jobs Store.
From stdpp Require Import options.

(** ** Transactions *)
Lemma Write_Ok {D E A} `{StoreFailure E} (db : D) now (cb : string -> D -> result E (D * A)) db' a :
  Write db now cb = (db', Ok a) <-> exists stamp, encodeTime now = Ok stamp /\ cb stamp db = Ok (db', a).
Proof.
  unfold Write. destruct (encodeTime now) as [stamp|e]; [|split; [done|by intros (?&?&_)]].
  destruct (cb stamp db) as [[db1 a1]|e] eqn:Ecb; split.
  - intros Heq. injection Heq as -> ->. eauto.
  - intros (s&Hs&Heq). injection Hs as <-. rewrite Ecb in Heq. by injection Heq as -> ->.
  - done.
  - intros (s&Hs&Heq). injection Hs as <-. by rewrite Ecb in Heq.
Qed.
Lemma Write_Err {D E A} `{StoreFailure E} (db : D) now (cb : string -> D -> result E (D * A)) db' e :
  Write db now cb = (db', Err e) -> db' = db.
Proof. unfold Write. destruct (encodeTime now); [destruct (cb _ _) as [[? ?]|]|]; congruence. Qed.

(** An operation that returns an error leaves the database as it was. *)
Theorem errors_change_nothing db now :
  (forall target db' e, ClaimNext db now target = (db', Err e) -> db' = db)
  /\ (forall lease db' e, RecoverStale db now lease = (db', Err e) -> db' = db)
  /\ (forall id patch db' e, Update db now id patch = (db', Err e) -> db' = db)
  /\ (forall random i db' e, EnqueueIfNotActive db now random i = (db', Err e) -> db' = db)
  /\ (forall random i db' e, Enqueue db now random i = (db', Err e) -> db' = db).
Proof.
  repeat split.
  - intros target db' e. unfold ClaimNext. destruct (_ && _); [by intros [= ->]|apply Write_Err].
  - intros lease db' e. unfold RecoverStale. destruct (encodeTime _); [apply Write_Err|by intros [= ->]].
  - intros id patch db' e. unfold Update. destruct (patch_assignments patch) as [a|]; [|by intros [= ->]].
    destruct (no_assignments a); [by intros [= ->]|apply Write_Err].
  - intros random i db' e. apply Write_Err.
  - intros random i db' e. apply Write_Err.
Qed.

(** ** The schema and the reader *)
Lemma less_s_false a b : less_s a b = false <-> Compare a b <> Lt.
Proof. unfold less_s. destruct (Compare a b); naive_solver. Qed.

Lemma ParseUint_digits s w bits : sall is_digit s = true -> String.length s = w ->
  exists v, (0 <= v < 10 ^ Z.of_nat w)%Z /\ s = fmt_0d w v /\ ((v < 2 ^ bits)%Z -> ParseUint s bits = Some v).
Proof.
  intros Hd Hl. assert (exists v, parse_dec_from 0 s = Some v) as [v Hv].
  { clear -Hd. generalize 0%Z. induction s as [|c s IH]; intros acc; [by eexists|].
    cbn [sall] in Hd. apply andb_true_iff in Hd as [Hc Hs]. cbn [parse_dec_from]. rewrite Hc. eauto. }
  pose proof Hv as Hv'. apply parse_dec_from_spec in Hv as (z&Hz&->&Hf); [|done|lia].
  rewrite Hl in *. exists z. rewrite Z.mul_0_l, Z.add_0_l in Hv'. repeat split; try lia; [done|].
  intros Hb. unfold ParseUint. rewrite Hv'. cbn [mbind option_bind]. by rewrite (proj2 (Z.ltb_lt _ _)).
Qed.

Lemma length_take_s n s : (n <= String.length s)%nat -> String.length (take_s n s) = n.
Proof. revert s; induction n as [|n IH]; intros [|c s] H; simpl in *; try lia. rewrite IH; lia. Qed.

Lemma timestamp_column_decodes k : timestamp_column k = true -> exists t, decode_key k = Ok t.
Proof.
  unfold timestamp_column, decode_key, DecodeTimestamp. intros H.
  destruct (String.eqb_spec k "0"); [by eexists|]. destruct (String.eqb_spec k "2"); [by eexists|].
  cbn [orb] in H. repeat (apply andb_true_iff in H as [H ?]).
  match goal with Hl : (slen k =? 31)%Z = true |- _ => apply Z.eqb_eq in Hl; rename Hl into Hlen end.
  assert (String.length k = 31) as Hlk by (unfold slen in Hlen; lia).
  set (secs := take_s 20 (drop_s 1 k)) in *. set (nanos := drop_s 22 k) in *.
  assert (String.length secs = 20) as Hls by (apply length_take_s; rewrite length_drop_s; lia).
  assert (String.length nanos = 9) as Hln by (subst nanos; rewrite length_drop_s; lia).
  assert (HasPrefix (drop_s 21 k) "." = true) as Hdot.
  { match goal with Hc : char_at k 21 "." = true |- _ => unfold char_at in Hc; destruct (drop_s 21 k) as [|d r]; [done|];
      apply ascii_eqb_eq in Hc as ->; by destruct r end. }
  unfold finiteTimestampKey. fold secs nanos. rewrite Hls, Hln, Hdot, Hlk.
  repeat match goal with Hx : sall is_digit _ = true |- _ => rewrite Hx; revert Hx end. intros Hd1 Hd2.
  match goal with Hp : HasPrefix k "1" = true |- _ => rewrite Hp end. cbn [andb Nat.eqb negb].
  match goal with Hm : negb (less_s _ secs) = true |- _ => apply negb_true_iff, less_s_false in Hm; rename Hm into Hmax end.
  destruct (ParseUint_digits secs 20 64 Hd1 Hls) as (v&Hv&He&Hpv).
  destruct (ParseUint_digits nanos 9 32 Hd2 Hln) as (ns&Hns&_&Hpn).
  rewrite Hpv; [rewrite Hpn; [by eexists|]|].
  - change (10 ^ Z.of_nat 9)%Z with 1000000000%Z in Hns. lia.
  - rewrite He in Hmax. change "18446744073709551615" with (fmt_0d 20 (2 ^ 64 - 1)) in Hmax.
    rewrite <- (app_nil_r_s (fmt_0d 20 v)), <- (app_nil_r_s (fmt_0d 20 (2 ^ 64 - 1))) in Hmax.
    rewrite Compare_fmt_0d in Hmax by (change (10 ^ Z.of_nat 20)%Z with (10 ^ 20)%Z in *; lia).
    destruct (Z.compare_spec (2 ^ 64 - 1) v); try lia. done.
Qed.
Lemma digits_no_nul s : sall is_digit s = true -> free_of NUL s.
Proof. by apply sall_free_of. Qed.
Lemma decoded_no_nul k t : DecodeTimestamp (Some k) = Ok t -> has_nul k = false.
Proof.
  unfold DecodeTimestamp, has_nul. destruct (String.eqb_spec k "0") as [-> |]; [done|].
  destruct (String.eqb_spec k "2") as [-> |]; [done|].
  destruct (finiteTimestampKey k) as [[p1 p2]|] eqn:E; [|done]. intros _.
  apply finiteTimestampKey_spec in E as (->&_&_&Hd1&Hd2). apply ContainsChar_free.
  rewrite !free_of_app. repeat split; by apply digits_no_nul.
Qed.
Lemma timestamp_column_ok k : timestamp_column k = true -> exists t, decodeTime k = Ok t.
Proof.
  intros H. destruct (timestamp_column_decodes k H) as [t Ht]. exists t. unfold decodeTime.
  assert (has_nul k = false) as ->; [|done]. unfold decode_key in Ht.
  destruct (DecodeTimestamp (Some k)) as [d|] eqn:E; [|done]. by apply decoded_no_nul in E.
Qed.
Lemma decode_opt_ok o : opt_all timestamp_column o = true -> exists t, decode_opt o = Ok t.
Proof.
  destruct o as [k|]; cbn; [|by eexists]. intros [t Ht]%timestamp_column_ok. rewrite Ht. by eexists.
Qed.

Lemma scanJob_fields r job : scanJob r = Ok job ->
  JobID job = j_id r /\ RevisionID job = j_revision r /\ JStatus job = j_status r /\ JTarget job = j_target r
  /\ ActorUserID job = j_actor r /\ JSource job = j_source r /\ CorrelationID job = j_correlation r.
Proof.
  unfold scanJob. intros H. inv_res. done.
Qed.

(** Every row the schema admits is read: no stored job can make the reader fail. *)
Lemma scanJob_ok r : job_row_ok r = true -> exists job, scanJob r = Ok job.
Proof.
  unfold job_row_ok, scanJob. intros H. rewrite !andb_true_iff in H. destruct_and!.
  repeat match goal with
    | Hx : timestamp_column (j_created r) = true |- _ => apply timestamp_column_ok in Hx as [? Hx]; rewrite Hx
    | Hx : opt_all timestamp_column (j_claimed r) = true |- _ => apply decode_opt_ok in Hx as [? Hx]; rewrite Hx
    | Hx : opt_all timestamp_column (j_started r) = true |- _ => apply decode_opt_ok in Hx as [? Hx]; rewrite Hx
    | Hx : opt_all timestamp_column (j_finished r) = true |- _ => apply decode_opt_ok in Hx as [? Hx]; rewrite Hx
    end.
  rewrite !ensure_true; [cbn; eexists; reflexivity|..]; rewrite ?andb_true_iff; repeat split; done.
Qed.

(** ** Row updates *)
Lemma update_rows_Ok p f l rows changed : update_rows p f l = Ok (rows, changed) <->
  Forall (fun r => p r = true -> job_row_ok (f r) = true) l
  /\ rows = map (fun r => if p r then f r else r) l /\ changed = map f (List.filter p l).
Proof.
  unfold update_rows. rewrite bind_Ok. split.
  - intros (u&Hu&H). apply ensure_Ok in Hu. apply (proj1 (ret_Ok _ _)) in H. injection H as <- <-.
    split; [|done]. apply forallb_Forall in Hu. rewrite Forall_forall in *. intros r Hr Hp. apply Hu.
    apply list_elem_of_In, filter_In. by rewrite <- list_elem_of_In.
  - intros (H&->&->). exists tt. split; [|done]. apply ensure_Ok, forallb_Forall.
    rewrite Forall_forall in *. intros r Hr. apply list_elem_of_In, filter_In in Hr as [Hr Hp]. apply H; [|done].
    by apply list_elem_of_In.
Qed.

(** ** Claiming *)
Lemma older_asym a b : older a b = true -> older b a = false.
Proof. apply less_s_asym. Qed.
Lemma older_ge_trans a b c : older b a = false -> older c b = false -> older c a = false.
Proof. apply less_s_ge_trans. Qed.
Lemma oldest_Some l r : oldest l = Some r -> r ∈ l /\ Forall (fun x => older x r = false) l.
Proof. apply (SliceStable_head_Some older older_asym older_ge_trans). Qed.
Lemma oldest_None l : oldest l = None -> l = [].
Proof. apply SliceStable_head_None. Qed.

Definition unique_ids (db : database) : Prop := NoDup (map j_id (apply_jobs db)).
Lemma unique_row db r r' : unique_ids db -> r ∈ apply_jobs db -> r' ∈ apply_jobs db -> j_id r = j_id r' -> r = r'.
Proof.
  apply NoDup_map_unique.
Qed.

(** The table after a claim of [r]. *)
Definition claimed_table (stamp : string) (r : JobRow) (l : list JobRow) : list JobRow :=
  map (fun x => if j_id x =? j_id r then claim_row stamp x else x) l.

Lemma ClaimNext_Ok db now target db' o : ClaimNext db now target = (db', Ok o) -> unique_ids db ->
  exists stamp, encodeTime now = Ok stamp /\
  match o with
  | None => (db' = db) /\ Forall (fun r => claimable target r = false) (apply_jobs db)
  | Some job => exists r, r ∈ apply_jobs db /\ claimable target r = true
      /\ Forall (fun x => claimable target x = true -> older x r = false) (apply_jobs db)
      /\ db' = with_jobs db (claimed_table stamp r (apply_jobs db))
      /\ scanJob (claim_row stamp r) = Ok job
  end.
Proof.
  unfold ClaimNext. intros H Hu. destruct (_ && _); [done|]. apply Write_Ok in H as (stamp&Hs&H).
  exists stamp. split; [done|]. destruct (oldest _) as [r|] eqn:Ho.
  - apply oldest_Some in Ho as [Hr Hold]. apply list_elem_of_In, filter_In in Hr as [Hr Hc]. apply list_elem_of_In in Hr.
    apply bind_Ok in H as (sel&Hsel&H). apply bind_Ok in H as (u&_&H). apply bind_Ok in H as ([rows changed]&Hup&H).
    apply update_rows_Ok in Hup as (_&Hrows&Hch).
    apply scanJob_fields in Hsel as (Hid&_). rewrite Hid in *.
    assert (j_status r =? Queued = true) as Hq by (unfold claimable in Hc; by apply andb_true_iff in Hc as [? _]).
    assert (rows = claimed_table stamp r (apply_jobs db)) as Hrows'.
    { rewrite Hrows. unfold claimed_table. apply list_fmap_ext. intros i x Hx. apply list_elem_of_lookup_2 in Hx.
      destruct (String.eqb_spec (j_id x) (j_id r)) as [E|]; [|done].
      apply (unique_row db x r) in E as ->; [|done..]. by rewrite Hq. }
    assert (Forall (fun x => x = claim_row stamp r) changed) as Hall.
    { rewrite Hch. apply Forall_forall. intros x (y&->&Hy)%list_elem_of_fmap.
      apply list_elem_of_In, filter_In in Hy as [Hy Hp]. apply list_elem_of_In in Hy.
      apply andb_true_iff in Hp as [E%String.eqb_eq _]. by apply (unique_row db y r) in E as ->. }
    destruct changed as [|r' ?]; [done|]. apply Forall_cons in Hall as [-> _].
    apply bind_Ok in H as (job&Hj&H). apply bind_Ok in H as (u'&_&H). apply (proj1 (ret_Ok _ _)) in H.
    injection H as <- <-. exists r. repeat split; try done; [|by rewrite Hrows'].
    rewrite Forall_forall in *. intros x Hx Hcx. apply Hold. apply list_elem_of_In, filter_In. by rewrite <- list_elem_of_In.
  - apply oldest_None in Ho. apply (proj1 (ret_Ok _ _)) in H. injection H as <- <-. split; [done|].
    apply Forall_forall. intros r Hr. destruct (claimable target r) eqn:E; [|done].
    assert (In r (List.filter (claimable target) (apply_jobs db))) as Hin by (apply filter_In; by rewrite <- list_elem_of_In).
    by rewrite Ho in Hin.
Qed.

(** ** The table's invariant *)
(** The schema holds of every row: its CHECKs, its foreign keys, its primary key. *)
Definition db_ok (db : database) : Prop :=
  Forall (fun r => job_row_ok r = true) (apply_jobs db)
  /\ Forall (fun r => references_ok db r = true) (apply_jobs db)
  /\ unique_ids db.

Lemma references_with_jobs db l r : references_ok (with_jobs db l) r = references_ok db r.
Proof. done. Qed.

(** An update that keeps a row's identity, revision and actor keeps the invariant. *)
Lemma update_rows_db_ok db p f rows changed :
  (forall r, j_id (f r) = j_id r /\ j_revision (f r) = j_revision r /\ j_actor (f r) = j_actor r) ->
  db_ok db -> update_rows p f (apply_jobs db) = Ok (rows, changed) -> db_ok (with_jobs db rows).
Proof.
  intros Hf (Hrow&Href&Hid) (Hp&->&_)%update_rows_Ok. repeat split.
  - apply List.Forall_map. rewrite Forall_forall in *. intros r Hr. specialize (Hp r Hr). specialize (Hrow r Hr).
    destruct (p r); auto.
  - apply List.Forall_map. rewrite Forall_forall in *. intros r Hr. specialize (Href r Hr). destruct (Hf r) as (_&H1&H2).
    destruct (p r); [|done]. unfold references_ok in *. by rewrite H1, H2.
  - unfold unique_ids in *. cbn [apply_jobs with_jobs]. rewrite map_map.
    erewrite map_ext; [exact Hid|]. intros r. cbn. destruct (p r); [apply (Hf r)|done].
Qed.

(** ** The operations as steps *)
Inductive store_step : database -> database -> Prop :=
| step_claim db now target db' o : ClaimNext db now target = (db', Ok o) -> store_step db db'
| step_recover db now lease db' n : RecoverStale db now lease = (db', Ok n) -> store_step db db'
| step_update db now id patch db' job : Update db now id patch = (db', Ok job) -> store_step db db'
| step_enqueue db now random i db' job : Enqueue db now random i = (db', Ok job) -> store_step db db'
| step_guarded db now random i db' o : EnqueueIfNotActive db now random i = (db', Ok o) -> store_step db db'.

Lemma insertJob_Ok stamp random db i db' job : insertJob stamp random db i = Ok (db', job) ->
  exists row, db' = with_jobs db (apply_jobs db ++ [row])
  /\ job_row_ok row = true /\ references_ok db row = true /\ j_id row ∉ map j_id (apply_jobs db)
  /\ j_created row = stamp /\ j_id row = NewUUID random /\ j_revision row = EnRevision i
  /\ j_status row = (if EnStatus i =? "" then Queued else EnStatus i) /\ j_target row = EnTarget i
  /\ scanJob row = Ok job.
Proof.
  unfold insertJob. set (st := if EnStatus i =? "" then Queued else EnStatus i). intros H.
  do 6 (apply bind_Ok in H as (?&_&H)). apply bind_Ok in H as (u&Hu&H). apply ensure_Ok in Hu.
  apply bind_Ok in H as (j&Hj&H). apply (proj1 (ret_Ok _ _)) in H. injection H as <- <-.
  rewrite !andb_true_iff in Hu. destruct Hu as [[Hrow Href] Hid].
  eexists. split; [reflexivity|]. split; [exact Hrow|]. split; [exact Href|]. split; [|by repeat split].
  intros (r&E&Hr)%list_elem_of_fmap. rewrite forallb_forall in Hid.
  specialize (Hid r (proj1 (list_elem_of_In _ _) Hr)). cbn [j_id] in E. rewrite <- E, String.eqb_refl in Hid. done.
Qed.

Lemma insert_db_ok db row : db_ok db -> job_row_ok row = true -> references_ok db row = true ->
  j_id row ∉ map j_id (apply_jobs db) -> db_ok (with_jobs db (apply_jobs db ++ [row])).
Proof.
  intros (Hrow&Href&Hid) H1 H2 H3. split_and!; [by apply Forall_app_2; auto..|].
  unfold unique_ids in *. cbn [apply_jobs with_jobs]. rewrite map_app. apply NoDup_app. split_and!; [done| |apply NoDup_singleton].
  intros x Hx [-> |[]%elem_of_nil]%elem_of_cons. done.
Qed.

(** How a step changes the table: it updates rows in place, keeping what
    identifies them, or appends one row. *)
Inductive step_shape (db db' : database) : Prop :=
| shape_same : db' = db -> step_shape db db'
| shape_update p f rows changed :
    (forall r, j_id (f r) = j_id r /\ j_revision (f r) = j_revision r /\ j_actor (f r) = j_actor r) ->
    (unique_ids db -> forall r, r ∈ apply_jobs db -> p r = true -> j_status r = Applied -> j_status (f r) = Applied) ->
    update_rows p f (apply_jobs db) = Ok (rows, changed) -> db' = with_jobs db rows -> step_shape db db'
| shape_insert row :
    db' = with_jobs db (apply_jobs db ++ [row]) -> job_row_ok row = true -> references_ok db row = true ->
    j_id row ∉ map j_id (apply_jobs db) -> step_shape db db'.

Lemma Transition_from_Applied next n : Transition Applied next = Ok n -> False.
Proof. intros [_ H]%job_transition_Ok. by apply elem_of_nil in H. Qed.

Lemma store_step_shape db db' : store_step db db' -> step_shape db db'.
Proof.
  intros [db0 now target db0' o H|db0 now lease db0' n H|db0 now id patch db0' job H|db0 now random i db0' job H|db0 now random i db0' o H].
  - unfold ClaimNext in H. destruct (_ && _); [done|]. apply Write_Ok in H as (stamp&_&H).
    destruct (oldest _) as [r|]; [|apply (proj1 (ret_Ok _ _)) in H; injection H as <- _; by apply shape_same].
    apply bind_Ok in H as (sel&_&H). apply bind_Ok in H as (u&_&H). apply bind_Ok in H as ([rows changed]&Hup&H).
    destruct changed as [|r' ch]; [done|]. apply bind_Ok in H as (job&_&H). apply bind_Ok in H as (u'&_&H).
    apply (proj1 (ret_Ok _ _)) in H. injection H as <- _. eapply shape_update; [| |exact Hup|done]; [done|].
    intros _ x _ [_ Hq%String.eqb_eq]%andb_true_iff Ha. by rewrite Ha in Hq.
  - unfold RecoverStale in H. destruct (encodeTime _) as [cutoff|]; [|done]. apply Write_Ok in H as (_&_&H).
    apply bind_Ok in H as ([rows changed]&Hup&H). apply (proj1 (ret_Ok _ _)) in H. injection H as <- _.
    eapply shape_update; [| |exact Hup|done]; [done|].
    intros _ x _ Hp Ha. unfold stale in Hp. by rewrite Ha in Hp.
  - unfold Update in H. destruct (patch_assignments patch) as [a|] eqn:Ea; [|done].
    destruct (no_assignments a); [done|]. apply Write_Ok in H as (_&_&H).
    apply bind_Ok in H as (u&Hc&H). apply bind_Ok in H as ([rows changed]&Hup&H).
    destruct changed as [|r' ch]; [done|]. apply bind_Ok in H as (j&_&H). apply (proj1 (ret_Ok _ _)) in H. injection H as <- _.
    eapply shape_update; [| |exact Hup|done]; [done|].
    intros Hu x Hx Hp%String.eqb_eq Ha. cbn [assign j_status].
    assert (as_status a = PStatus patch) as -> by (unfold patch_assignments in Ea; by inv_res).
    unfold check_transition in Hc. destruct (PStatus patch) as [next|]; [|done].
    destruct (find_first _ _) as [r0|] eqn:Ef; [|done]. apply find_first_Some in Ef as [Hr0 Hid%String.eqb_eq].
    assert (r0 = x) as -> by (eapply (unique_row db0); congruence).
    rewrite Ha in Hc. destruct (Transition Applied next) eqn:E; [|done]. by apply Transition_from_Applied in E.
  - apply Write_Ok in H as (stamp&_&H). apply insertJob_Ok in H as (row&?&?&?&?&_). by eapply shape_insert.
  - apply Write_Ok in H as (stamp&_&H). destruct (find_first active _).
    + apply (proj1 (ret_Ok _ _)) in H. injection H as <- _. by apply shape_same.
    + apply bind_Ok in H as ([db1 j]&H&H'). apply (proj1 (ret_Ok _ _)) in H'. injection H' as <- _.
      apply insertJob_Ok in H as (row&?&?&?&?&_). by eapply shape_insert.
Qed.

Lemma store_step_ok db db' : store_step db db' -> db_ok db -> db_ok db'.
Proof.
  intros [-> |p f rows changed Hf _ Hup -> |row -> ???]%store_step_shape Hdb; [done| |by apply insert_db_ok].
  by eapply update_rows_db_ok.
Qed.


Lemma store_step_applied db db' id : store_step db db' -> db_ok db ->
  (exists r, r ∈ apply_jobs db /\ j_id r = id /\ j_status r = Applied) ->
  exists r, r ∈ apply_jobs db' /\ j_id r = id /\ j_status r = Applied.
Proof.
  intros [-> |p f rows changed Hf Hst Hup -> |row -> _ _ _]%store_step_shape (_&_&Hu) (r&Hr&Hid&Ha).
  - eauto.
  - apply update_rows_Ok in Hup as (_&->&_). exists (if p r then f r else r). split_and!.
    + apply list_elem_of_fmap. eauto.
    + destruct (p r); [|done]. destruct (Hf r) as (->&_). done.
    + destruct (p r) eqn:Hp; [|done]. by apply Hst.
  - exists r. split; [|done]. apply elem_of_app. by left.
Qed.

(** C6: Once a job is applied, no sequence of store operations makes it anything
    else: claiming, recovery, patches and enqueueing leave its status alone. *)
Theorem applied_is_final db db' id : rtc store_step db db' -> db_ok db ->
  (exists r, r ∈ apply_jobs db /\ j_id r = id /\ j_status r = Applied) ->
  exists r, r ∈ apply_jobs db' /\ j_id r = id /\ j_status r = Applied.
Proof.
  induction 1 as [|db1 db2 db3 Hs _ IH]; [done|]. intros Hok H.
  apply IH; [by eapply store_step_ok|by eapply store_step_applied].
Qed.

(** C32: A claim takes the oldest queued job of the target, marks that row alone
    validating, stamps the claim and the first start, and returns it; it returns
    nothing only when no job is claimable. *)
Theorem ClaimNext_spec db now target db' o : ClaimNext db now target = (db', Ok o) -> db_ok db ->
  exists stamp, encodeTime now = Ok stamp /\
  match o with
  | None => (db' = db) /\ Forall (fun r => claimable target r = false) (apply_jobs db)
  | Some job => exists r, r ∈ apply_jobs db /\ claimable target r = true
      /\ Forall (fun x => claimable target x = true -> older x r = false) (apply_jobs db)
      /\ db' = with_jobs db (claimed_table stamp r (apply_jobs db))
      /\ JobID job = j_id r /\ JStatus job = Validating
      /\ Get db' (j_id r) = Ok (Some job)
  end.
Proof.
  intros H (_&_&Hu). pose proof (ClaimNext_Ok _ _ _ _ _ H Hu) as (stamp&Hs&Ho). exists stamp. split; [done|].
  destruct o as [job|]; [|done]. destruct Ho as (r&Hr&Hc&Hold&Hdb&Hj). exists r.
  pose proof (scanJob_fields _ _ Hj) as (Hjid&_&Hjst&_). split_and!; try done.
  unfold Get. subst db'. cbn [apply_jobs with_jobs].
  destruct (find_first _ _) as [x|] eqn:Ef.
  - apply find_first_Some in Ef as [Hx Hid%String.eqb_eq]. apply list_elem_of_fmap in Hx as (y&->&Hy).
    destruct (String.eqb_spec (j_id y) (j_id r)) as [E|E]; [|done].
    apply (unique_row db) in E as ->; [|done..]. by rewrite Hj.
  - apply find_first_None in Ef. rewrite Forall_forall in Ef. specialize (Ef (claim_row stamp r)).
    assert (j_id (claim_row stamp r) =? j_id r = false) as E; [|by cbn in E; rewrite String.eqb_refl in E].
    apply Ef. apply list_elem_of_fmap. exists r. by rewrite String.eqb_refl.
Qed.

Lemma claimed_not_claimable stamp target r : claimable target (claim_row stamp r) = false.
Proof. done. Qed.

(** Two claims in a row never hand out the same job, whatever the targets and
    whatever workers make them: the write transactions are serial. *)
Theorem claims_are_exclusive db now1 now2 t1 t2 db1 db2 job1 job2 : db_ok db ->
  ClaimNext db now1 t1 = (db1, Ok (Some job1)) -> ClaimNext db1 now2 t2 = (db2, Ok (Some job2)) ->
  JobID job1 <> JobID job2.
Proof.
  intros Hok H1 H2. assert (db_ok db1) as Hok1 by (eapply store_step_ok; [by eapply step_claim|done]).
  destruct Hok as (_&_&Hu), Hok1 as (_&_&Hu1).
  apply ClaimNext_Ok in H1 as (s1&_&r1&Hr1&_&_&Hdb1&Hj1); [|done].
  apply ClaimNext_Ok in H2 as (s2&_&r2&Hr2&Hc2&_&_&Hj2); [|done].
  apply scanJob_fields in Hj1 as (->&_), Hj2 as (->&_). cbn [j_id claim_row]. intros E.
  subst db1. cbn in Hr2. apply list_elem_of_fmap in Hr2 as (x&->&Hx).
  destruct (String.eqb_spec (j_id x) (j_id r1)) as [Ex|Ex]; [done|]. congruence.
Qed.

(** ** Recovery *)
(** The cut-off is the floored millisecond, whatever the sign of the instant. *)
Lemma cutoff_time_floor m : (- 2 ^ 62 <= m < 2 ^ 62)%Z ->
  cutoff_time m = (m / 1000, (m mod 1000) * 1000000)%Z.
Proof.
  intros Hm. unfold cutoff_time. assert (Z.rem (Z.rem m 1000 + 1000) 1000 = m mod 1000)%Z as ->.
  { pose proof (Z.rem_bound_abs m 1000). rewrite (Z.rem_mod_nonneg (Z.rem m 1000 + 1000)); [|lia|lia].
    rewrite <- Z.add_mod_idemp_r, Z.mod_same, Z.add_0_r by lia.
    pose proof (Z.quot_rem m 1000 ltac:(lia)). symmetry. replace (m mod 1000)%Z with ((Z.rem m 1000 + (Z.quot m 1000) * 1000) mod 1000)%Z.
    - by rewrite Z_mod_plus_full.
    - f_equal. lia. }
  f_equal. pose proof (Z.div_mod m 1000 ltac:(lia)) as H.
  replace (m - m mod 1000)%Z with ((m / 1000) * 1000)%Z by lia. by rewrite Z.quot_mul.
Qed.

(** The instant of milliseconds [m] after the epoch, and a lease lost before it. *)
Definition instant_ms (m : Z) : Timestamp.Timestamp := FiniteTimestamp (m / 1000)%Z ((m mod 1000) * 1000000)%Z.
Definition lost_lease (m : Z) (r : JobRow) : Prop :=
  (j_status r = Validating \/ j_status r = Applying)
  /\ exists c t, j_claimed r = Some c /\ DecodeTimestamp (Some c) = Ok t /\ ts_compare t (instant_ms m) = Lt.

Lemma claimed_decodes r c : job_row_ok r = true -> j_claimed r = Some c -> exists t, DecodeTimestamp (Some c) = Ok t.
Proof.
  unfold job_row_ok. intros H Hc. rewrite !andb_true_iff in H. destruct_and!.
  match goal with Hx : opt_all timestamp_column (j_claimed r) = true |- _ => rewrite Hc in Hx; cbn in Hx;
    apply timestamp_column_decodes in Hx as [t Ht] end.
  unfold decode_key in Ht. destruct (DecodeTimestamp (Some c)) as [d|]; [by exists d|done].
Qed.

Lemma stale_iff m cutoff r : (- 2 ^ 62 <= m < 2 ^ 62)%Z -> encodeTime (cutoff_time m) = Ok cutoff ->
  job_row_ok r = true -> stale cutoff r = true <-> lost_lease m r.
Proof.
  intros Hm He Hr. rewrite cutoff_time_floor in He by done. unfold encodeTime in He. cbn [fst snd] in He.
  fold (instant_ms m) in He. destruct (EncodeTimestamp (instant_ms m)) as [[k|]|] eqn:Ek; try done.
  injection He as ->.
  assert (in_types (instant_ms m)) as Hin.
  { cbn. pose proof (Z.mod_pos_bound m 1000 ltac:(lia)). split; [|lia].
    split; [apply Z.div_le_lower_bound|apply Z.div_lt_upper_bound]; lia. }
  unfold stale, lost_lease. rewrite andb_true_iff, contains_elem, !elem_of_cons, elem_of_nil.
  assert ((j_status r = Validating \/ j_status r = Applying \/ False) <-> (j_status r = Validating \/ j_status r = Applying)) as -> by tauto.
  apply and_iff_compat_l. destruct (j_claimed r) as [c|] eqn:Hc; [|split; [done|by intros (?&?&?&_)]].
  destruct (claimed_decodes r c Hr Hc) as [t Ht]. pose proof (Encode_Decode _ _ Ht) as [Htin Htenc].
  pose proof (Encode_order _ _ _ _ Htin Hin Htenc Ek) as Hord. unfold less_s. rewrite Hord. split.
  - intros H. exists c, t. split_and!; [done..|]. by destruct (ts_compare _ _).
  - intros (c'&t'&[= <-]&Ht'&Hlt). assert (t' = t) as -> by congruence. by rewrite Hlt.
Qed.

(** Recovery requeues exactly the jobs in progress whose claim is older than the
    lease, to the millisecond, and reports how many; every other row, and every
    other column than the ones a requeue resets, is as before. *)
Theorem RecoverStale_spec db now lease db' n :
  (- 2 ^ 62 <= UnixMilli now - lease < 2 ^ 62)%Z -> db_ok db -> RecoverStale db now lease = (db', Ok n) ->
  exists lost, Forall (fun r => lost r = true <-> lost_lease (UnixMilli now - lease) r) (apply_jobs db)
  /\ db' = with_jobs db (map (fun r => if lost r then requeue_row r else r) (apply_jobs db))
  /\ n = Z.of_nat (length (List.filter lost (apply_jobs db))).
Proof.
  intros Hm (Hrow&_&_) H. unfold RecoverStale in H. destruct (encodeTime _) as [cutoff|] eqn:Hc; [|done].
  apply Write_Ok in H as (_&_&H). apply bind_Ok in H as ([rows changed]&Hup&H).
  apply update_rows_Ok in Hup as (_&->&->). apply (proj1 (ret_Ok _ _)) in H. injection H as <- <-.
  exists (stale cutoff). split_and!; [|done|by rewrite length_map].
  rewrite Forall_forall in *. intros r Hr. apply stale_iff; auto.
Qed.

(** ** Patching *)
(** A successful patch moves the job along the status machine, writes the given
    columns of that row and touches no other row. *)
Theorem Update_spec db now id patch db' job : db_ok db -> Update db now id patch = (db', Ok job) ->
  exists r a, r ∈ apply_jobs db /\ j_id r = id /\ patch_assignments patch = Ok a
  /\ (forall next, PStatus patch = Some next -> job_step (j_status r) next)
  /\ db' = with_jobs db (map (fun x => if j_id x =? id then assign a x else x) (apply_jobs db))
  /\ scanJob (assign a r) = Ok job /\ JStatus job = default (j_status r) (PStatus patch).
Proof.
  intros (_&_&Hu) H. unfold Update in H. destruct (patch_assignments patch) as [a|] eqn:Ea; [|done].
  destruct (no_assignments a); [done|]. apply Write_Ok in H as (_&_&H).
  apply bind_Ok in H as (u&Hc&H). apply bind_Ok in H as ([rows changed]&Hup&H).
  apply update_rows_Ok in Hup as (_&->&Hch). destruct changed as [|x ch]; [done|].
  apply bind_Ok in H as (j&Hj&H). apply (proj1 (ret_Ok _ _)) in H. injection H as <- <-.
  assert (x ∈ map (assign a) (List.filter (fun r => j_id r =? id) (apply_jobs db))) as Hx by (rewrite <- Hch; set_solver).
  apply list_elem_of_fmap in Hx as (r&->&Hr). apply list_elem_of_In, filter_In in Hr as [Hr Hid%String.eqb_eq].
  apply list_elem_of_In in Hr. exists r, a.
  assert (as_status a = PStatus patch) as Has by (unfold patch_assignments in Ea; by inv_res).
  split_and!; try done.
  - intros next Hn. unfold check_transition in Hc. rewrite Hn in Hc.
    destruct (find_first _ _) as [r0|] eqn:Ef; [|done]. apply find_first_Some in Ef as [Hr0 Hid0%String.eqb_eq].
    assert (r0 = r) as -> by (eapply (unique_row db); congruence).
    constructor. destruct (Transition (j_status r) next) as [n|] eqn:Et; [|done].
    apply job_transition_Ok in Et as Et'. by destruct Et' as [-> _].
  - apply scanJob_fields in Hj as (_&_&->&_). cbn. by rewrite Has.
Qed.

(** ** Enqueueing *)
(** Guarded enqueueing adds nothing while a job is queued, validating or
    applying; otherwise the new job is the only active one. *)
Theorem EnqueueIfNotActive_guard db now random i db' o : EnqueueIfNotActive db now random i = (db', Ok o) ->
  match o with
  | None => (db' = db) /\ Exists (fun r => active r = true) (apply_jobs db)
  | Some job => Forall (fun r => active r = false) (apply_jobs db)
      /\ exists row, db' = with_jobs db (apply_jobs db ++ [row])
         /\ scanJob row = Ok job /\ JobID job = NewUUID random /\ RevisionID job = EnRevision i
         /\ JStatus job = (if EnStatus i =? "" then Queued else EnStatus i)
         /\ (length (List.filter active (apply_jobs db')) <= 1)%nat
  end.
Proof.
  intros (stamp&_&H)%Write_Ok. destruct (find_first active _) as [r|] eqn:Ef.
  - apply (proj1 (ret_Ok _ _)) in H. injection H as <- <-. split; [done|]. apply find_first_Some in Ef as [Hr Ha].
    apply Exists_exists. eauto.
  - apply find_first_None in Ef. apply bind_Ok in H as ([db1 j]&H&H'). apply (proj1 (ret_Ok _ _)) in H'.
    injection H' as <- <-. split; [done|]. apply insertJob_Ok in H as (row&->&_&_&_&_&Hid&Hrev&Hst&_&Hj).
    exists row. pose proof (scanJob_fields _ _ Hj) as (->&->&->&_). split_and!; try done.
    cbn [apply_jobs with_jobs]. rewrite List.filter_app. assert (List.filter active (apply_jobs db) = []) as ->.
    { clear -Ef. induction Ef as [|r l Hr _ IH]; [done|]. cbn [List.filter]. by rewrite Hr. }
    cbn [List.filter app]. destruct (active row); cbn; lia.
Qed.
