(* ===== verification/Scrub.v ===== *)
(** * Secrets in messages (secrets/secrets.go, worker/apply/scrub.go)

    Redaction of sensitive keys in a JSON document and of sensitive key=value
    pairs in free text. The two regular expressions are read as RE2 does:
    leftmost match, first alternative, ASCII classes for [\w] and [\s], and
    Unicode case folding of the literals. *)

From S2P Require Import Prelude GoStrings StrFacts Json JsonText.
From stdpp Require Import options.

(** ** Case-insensitive literals *)
(** U+017F folds to s, U+212A to k. *)
Definition long_s : string := String (byte_of 197) (char (byte_of 191)).
Definition kelvin : string := String (byte_of 226) (String (byte_of 132) (char (byte_of 170))).
Definition fold_char (l : ascii) (s : string) : option string :=
  match s with
  | EmptyString => None
  | String c r =>
      if ascii_eqb (lower_char c) l then Some r
      else if ascii_eqb l "s" && HasPrefix s long_s then Some (drop_s 2 s)
      else if ascii_eqb l "k" && HasPrefix s kelvin then Some (drop_s 3 s)
      else None
  end.
Fixpoint fold_lit (lit s : string) : option string :=
  match lit with EmptyString => Some s | String l lit => r ← fold_char l s; fold_lit lit r end.
(** [lit1 sep? lit2]; the separator never starts [lit2]. *)
Definition private_key (sep : string -> option string) (s : string) : option string :=
  r ← fold_lit "private" s;
  match (r' ← sep r; fold_lit "key" r') with Some r'' => Some r'' | None => fold_lit "key" r end.
Fixpoint first_lit (lits : list string) (s : string) : option string :=
  match lits with
  | [] => None
  | l :: lits => match fold_lit l s with Some r => Some r | None => first_lit lits s end
  end.
Definition sensitive_words : list string := ["pass"; "secret"; "token"; "ciphertext"; "authorization"].

(** ** Keys (redactPattern): a sensitive word anywhere *)
(** [.]: one rune, not a line feed. *)
Definition any_rune (s : string) : option string :=
  match s with
  | EmptyString => None
  | String c r =>
      if ascii_eqb c LF then None else
      Some (match runes s with Some t :: _ => drop_s (String.length t) s | _ => r end)
  end.
Definition sensitive_at (s : string) : bool :=
  match first_lit sensitive_words s with Some _ => true | None => bool_decide (is_Some (private_key any_rune s)) end.
Fixpoint redactPattern (s : string) : bool :=
  sensitive_at s || match s with String _ s' => redactPattern s' | EmptyString => false end.

Definition REDACTED : string := "[REDACTED]".
Fixpoint RedactSecrets (value : json) : json :=
  match value with
  | JArr l => JArr (map RedactSecrets l)
  | JObj m => JObj (map (fun f => (f.1, if redactPattern f.1 then JStr REDACTED else RedactSecrets f.2)) m)
  | v => v
  end.

(** ** Free text (inlineSecret) *)
Definition word_char (c : ascii) : bool := is_alnum c || ascii_eqb c "_".
Definition re_space (c : ascii) : bool := one_of " " c || in_range 9 10 c || in_range 12 13 c.
Fixpoint skip_while (p : ascii -> bool) (s : string) : string :=
  match s with String c s' => if p c then skip_while p s' else s | EmptyString => s end.
Definition skip_quote (s : string) : string :=
  match s with String c s' => if ascii_eqb c DQ || ascii_eqb c SQ then s' else s | EmptyString => s end.
Definition one_sep (s : string) : option string :=
  match s with String c s' => if one_of " _.-" c then Some s' else None | EmptyString => None end.
Definition keyword (s : string) : option string :=
  match first_lit sensitive_words s with Some r => Some r | None => private_key one_sep s end.
(** The text after the next [q]. *)
Fixpoint after_quote (q : ascii) (s : string) : option string :=
  match s with String c s' => if ascii_eqb c q then Some s' else after_quote q s' | EmptyString => None end.
(** The value, at a character that is not a space: quoted, or up to a space. *)
Definition after_value (s : string) : option string :=
  match s with
  | EmptyString => None
  | String c s' =>
      let plain := skip_while (fun c => negb (re_space c)) s in
      if ascii_eqb c DQ || ascii_eqb c SQ
      then Some (default plain (after_quote c s')) else Some plain
  end.
(** A match at the start: the first group and what follows the match. *)
Definition inlineSecret (s : string) : option (string * string) :=
  r ← keyword s;
  match skip_while re_space (skip_quote (skip_while word_char r)) with
  | String c r' =>
      if one_of ":=" c then
        let value := skip_while re_space r' in
        rest ← after_value value;
        Some (take_s (String.length s - String.length value) s, rest)
      else None
  | EmptyString => None
  end.
(** [ReplaceAllString(message, "${1}[REDACTED]")]; the fuel is the text's length. *)
Fixpoint scrub_text (fuel : nat) (s : string) : string :=
  match fuel, s with
  | S fuel, String c s' =>
      match inlineSecret s with
      | Some (group, rest) => group +:+ REDACTED +:+ scrub_text fuel rest
      | None => String c (scrub_text fuel s')
      end
  | _, _ => EmptyString
  end.
Definition scrub_inline (s : string) : string := scrub_text (String.length s) s.

(** ** Encoding decoded values, without HTML escaping *)
Section encode.
(** [float_text] is the float64 nearest to a decimal text, printed shortest;
    [None] when it is out of range. *)
Context (float_text : string -> option string).

Definition json_plain (s : string) : string := String DQ (json_text false s +:+ char DQ).
Fixpoint encode_any (v : json) : string :=
  match v with
  | JNull => "null"
  | JBool b => if b then "true" else "false"
  | JNum z => itoa z
  | JFloat t => t
  | JStr s => json_plain s
  | JArr l => "[" +:+ Join (map encode_any l) "," +:+ "]"
  | JObj fs => "{" +:+ Join (map snd (SliceStable key_less
      (map (fun f => (f.1, json_plain f.1 +:+ ":" +:+ encode_any f.2)) fs))) "," +:+ "}"
  end.
(** [json.Unmarshal] into [any]: the numbers become floats. *)
Fixpoint decode_numbers (v : json) : option json :=
  match v with
  | JFloat t => t' ← float_text t; Some (JFloat t')
  | JArr l => l' ← mapM decode_numbers l; Some (JArr l')
  | JObj fs => fs' ← mapM (fun f => v' ← decode_numbers f.2; Some (f.1, v')) fs; Some (JObj fs')
  | v => Some v
  end.
Definition unmarshal_any (s : string) : option json := v ← json_Unmarshal s; decode_numbers v.

Definition scrubMessage (message : string) : string :=
  let trimmed := TrimSpace message in
  if HasPrefix trimmed "{" || HasPrefix trimmed "[" then
    match unmarshal_any trimmed with
    | Some decoded => encode_any (RedactSecrets decoded)
    | None => scrub_inline message
    end
  else scrub_inline message.
End encode.

Definition test_floats : string -> option string := Some.
Example scrub_examples :
  map (scrubMessage test_floats)
    ["login failed: password=hunter2 for bob"; "TOKEN : '" +:+ "a b' left"; "private_key=x secret=y"; "no keyword = here";
     "{" +:+ q "k" +:+ ":1," +:+ q "apiToken" +:+ ":{}}"; "Authorization: Bearer abc"; "tokens"]
  = ["login failed: password=[REDACTED] for bob"; "TOKEN : [REDACTED] left"; "private_key=[REDACTED] secret=[REDACTED]";
     "no keyword = here"; "{" +:+ q "apiToken" +:+ ":" +:+ q REDACTED +:+ "," +:+ q "k" +:+ ":1}";
     "Authorization: [REDACTED] abc"; "tokens"].
Proof. by vm_compute. Qed.
