(* ===== verification/ScrubFacts.v ===== *)
(** * Facts about redaction

    Redaction of a document removes the values of the sensitive keys and nothing
    else; in free text, the value of a sensitive pair does not reach the result. *)

From S2P Require Import Prelude GoStrings StrFacts Json JsonText Scrub.
From stdpp Require Import options.

(** ** Documents *)
(** Two documents that differ at most below sensitive keys. *)
Inductive same_public : json -> json -> Prop :=
| sp_refl v : same_public v v
| sp_arr l k : Forall2 same_public l k -> same_public (JArr l) (JArr k)
| sp_obj fs gs :
    Forall2 (fun f g => f.1 = g.1 /\ (redactPattern f.1 = true \/ same_public f.2 g.2)) fs gs ->
    same_public (JObj fs) (JObj gs).

Lemma map_eq_Forall2 {A B} (f : A -> B) l k : map f l = map f k <-> Forall2 (fun a b => f a = f b) l k.
Proof.
  split.
  - revert k. induction l as [|a l IH]; intros [|b k]; try done. intros [= H1 H2]. constructor; auto.
  - induction 1 as [|a b l k H _ IH]; [done|]. cbn. by rewrite H, IH.
Qed.
Lemma redact_arr l k : RedactSecrets (JArr l) = RedactSecrets (JArr k) <-> Forall2 (fun a b => RedactSecrets a = RedactSecrets b) l k.
Proof. cbn [RedactSecrets]. rewrite <- map_eq_Forall2. split; [by intros [= ->]|by intros ->]. Qed.
Definition redact_field (f : string * json) : string * json :=
  (f.1, if redactPattern f.1 then JStr REDACTED else RedactSecrets f.2).
Lemma redact_obj fs gs : RedactSecrets (JObj fs) = RedactSecrets (JObj gs) <-> Forall2 (fun f g => redact_field f = redact_field g) fs gs.
Proof. cbn [RedactSecrets]. rewrite <- map_eq_Forall2. split; [by intros [=]|by unfold redact_field; intros ->]. Qed.
Lemma redact_field_eq f g : redact_field f = redact_field g <->
  f.1 = g.1 /\ (redactPattern f.1 = true \/ RedactSecrets f.2 = RedactSecrets g.2).
Proof.
  unfold redact_field. split.
  - intros H. pose proof (f_equal fst H) as H1. pose proof (f_equal snd H) as H2. cbn [fst snd] in H1, H2. split; [done|].
    rewrite <- H1 in H2. destruct (redactPattern f.1); auto.
  - intros [<- H]. destruct (redactPattern f.1); [done|]. by destruct H as [|<-].
Qed.

Lemma redact_complete a b : RedactSecrets a = RedactSecrets b -> same_public a b.
Proof.
  revert b. induction a as [| | | | |l IH|fs IH] using json_ind'; intros [| | | | |k|gs] H;
    try discriminate H; try apply sp_refl; try (cbn in H; rewrite H; apply sp_refl).
  - constructor. apply redact_arr in H. induction H as [|x y l k Hxy _ IHl]; [constructor|].
    apply Forall_cons in IH as [Hx IH]. constructor; auto.
  - constructor. apply redact_obj in H. induction H as [|x y l k Hxy _ IHl]; [constructor|].
    apply Forall_cons in IH as [Hx IH]. apply redact_field_eq in Hxy as [He Hor]. constructor; [|auto].
    split; [done|]. destruct Hor; auto.
Qed.
Lemma redact_sound a b : same_public a b -> RedactSecrets a = RedactSecrets b.
Proof.
  revert b. induction a as [| | | | |l IH|fs IH] using json_ind'; intros w H; inversion H; subst; try done.
  - apply redact_arr. match goal with HF : Forall2 _ _ _ |- _ => induction HF as [|x y l k Hxy Htl IHl] end; [constructor|].
    apply Forall_cons in IH as [Hx IH]. constructor; [auto|]. apply IHl; [done|]. by apply sp_arr.
  - apply redact_obj. match goal with HF : Forall2 _ _ _ |- _ => induction HF as [|x y l k Hxy Htl IHl] end; [constructor|].
    apply Forall_cons in IH as [Hx IH]. constructor.
    + apply redact_field_eq. destruct Hxy as [He Hor]. split; [done|]. destruct Hor; auto.
    + apply IHl; [done|]. by apply sp_obj.
Qed.

(** Redaction forgets the values of the sensitive keys, at any depth, and only
    those: two documents have the same redaction exactly when they agree
    everywhere else. *)
Theorem RedactSecrets_exact a b : RedactSecrets a = RedactSecrets b <-> same_public a b.
Proof. split; [apply redact_complete|apply redact_sound]. Qed.

Lemma RedactSecrets_idemp v : RedactSecrets (RedactSecrets v) = RedactSecrets v.
Proof.
  induction v as [| | | | |l IH|fs IH] using json_ind'; try done; cbn [RedactSecrets]; f_equal; rewrite map_map;
    apply map_ext_Forall; (eapply Forall_impl; [exact IH|]); intros x Hx; [done|]. cbn [fst snd].
  destruct (redactPattern x.1); [done|]. by rewrite Hx.
Qed.

(** ** Free text *)
Lemma skip_while_le p s : (String.length (skip_while p s) <= String.length s)%nat.
Proof. induction s as [|c s IH]; [done|]. cbn. destruct (p c); cbn; lia. Qed.
Lemma skip_quote_le s : (String.length (skip_quote s) <= String.length s)%nat.
Proof. destruct s as [|c s]; [done|]. cbn. destruct (_ || _); cbn; lia. Qed.
Lemma drop_s_le n s : (String.length (drop_s n s) <= String.length s)%nat.
Proof. rewrite length_drop_s. lia. Qed.
Lemma fold_char_lt l s r : fold_char l s = Some r -> (String.length r < String.length s)%nat.
Proof.
  destruct s as [|c s]; [done|]. unfold fold_char.
  repeat case_match; intros Heq; try done; apply Some_inj in Heq; subst r; rewrite ?length_drop_s; cbn [String.length]; lia.
Qed.
Lemma fold_lit_le lit s r : fold_lit lit s = Some r -> (String.length r + Nat.min 1 (String.length lit) <= String.length s)%nat.
Proof.
  revert s. induction lit as [|l lit IH]; intros s; cbn; [intros [= <-]; lia|].
  destruct (fold_char l s) as [t|] eqn:E; [|done]. cbn. intros H%IH. apply fold_char_lt in E. lia.
Qed.
Lemma first_lit_lt lits s r : Forall (fun l => l <> "") lits -> first_lit lits s = Some r -> (String.length r < String.length s)%nat.
Proof.
  induction 1 as [|l lits Hl _ IH]; [done|]. cbn. destruct (fold_lit l s) eqn:E; [|done]. intros [= <-].
  apply fold_lit_le in E. destruct l; [done|]. cbn in E. lia.
Qed.
Lemma keyword_lt s r : keyword s = Some r -> (String.length r < String.length s)%nat.
Proof.
  unfold keyword. destruct (first_lit _ s) eqn:E; [intros [= <-]; apply (first_lit_lt sensitive_words s); [|done]; by repeat constructor|].
  unfold private_key. destruct (fold_lit "private" s) as [t|] eqn:E1; [|done]. apply fold_lit_le in E1. cbn in E1. cbn [mbind option_bind].
  destruct (one_sep t) as [u|] eqn:Es; cbn [mbind option_bind].
  - assert (String.length u < String.length t)%nat.
    { destruct t as [|c t]; [done|]. cbn in Es. case_match; [|done]. injection Es as <-. cbn. lia. }
    destruct (fold_lit "key" u) eqn:E2; [intros [= <-]; apply fold_lit_le in E2; lia|]. intros Hk%fold_lit_le. lia.
  - intros H%fold_lit_le. lia.
Qed.
Lemma after_quote_lt q s r : after_quote q s = Some r -> (String.length r < String.length s)%nat.
Proof.
  induction s as [|c s IH]; [done|]. cbn. destruct (ascii_eqb c q); [intros [= <-]; lia|]. intros H%IH. lia.
Qed.
Lemma after_value_le s r : after_value s = Some r -> (String.length r <= String.length s)%nat.
Proof.
  destruct s as [|c s]; [done|]. unfold after_value. cbv zeta. pose proof (skip_while_le (fun c => negb (re_space c)) (String c s)).
  destruct (_ || _); intros [= <-]; [|done]. destruct (after_quote c s) eqn:E; [|done]. apply after_quote_lt in E. cbn. lia.
Qed.
Lemma inlineSecret_lt s g r : inlineSecret s = Some (g, r) -> (String.length r < String.length s)%nat.
Proof.
  unfold inlineSecret. destruct (keyword s) as [t|] eqn:E; [|done]. cbn [mbind option_bind]. apply keyword_lt in E.
  pose proof (skip_while_le word_char t). pose proof (skip_quote_le (skip_while word_char t)).
  pose proof (skip_while_le re_space (skip_quote (skip_while word_char t))) as Hs.
  destruct (skip_while re_space (skip_quote _)) as [|c u]; [done|]. destruct (one_of _ c); [|done]. cbv zeta.
  pose proof (skip_while_le re_space u). cbn in Hs. destruct (after_value (skip_while re_space u)) as [w|] eqn:Ew; [|done]. cbn.
  intros [= _ <-]. apply after_value_le in Ew. lia.
Qed.
Lemma scrub_text_any n k s : (String.length s <= n)%nat -> (String.length s <= k)%nat -> scrub_text n s = scrub_text k s.
Proof.
  revert k s. induction n as [|n IH]; intros k [|c s] Hn Hk; cbn in Hn; try lia; [by destruct k|by destruct k|].
  destruct k as [|k]; [cbn in Hk; lia|]. cbn in Hk. cbn [scrub_text]. destruct (inlineSecret (String c s)) as [[g r]|] eqn:E.
  - apply inlineSecret_lt in E. cbn in E. rewrite (IH k r); [done|lia..].
  - rewrite (IH k s); [done|lia..].
Qed.
Lemma scrub_text_fuel n s : (String.length s <= n)%nat -> scrub_text n s = scrub_inline s.
Proof. intros H. by apply scrub_text_any. Qed.
Lemma scrub_step s : s <> "" -> scrub_inline s =
  match inlineSecret s with
  | Some (g, r) => g +:+ REDACTED +:+ scrub_inline r
  | None => match s with String c s' => String c (scrub_inline s') | EmptyString => "" end
  end.
Proof.
  destruct s as [|c s]; [done|]. intros _. unfold scrub_inline at 1. cbn [String.length scrub_text].
  destruct (inlineSecret (String c s)) as [[g r]|] eqn:E; [|done].
  apply inlineSecret_lt in E. cbn in E. rewrite scrub_text_fuel; [done|lia].
Qed.

(** The characters of an unquoted value. *)
Definition plain_value (v : string) : Prop :=
  v <> "" /\ sall (fun c => negb (re_space c)) v = true
  /\ match v with String c _ => ascii_eqb c DQ || ascii_eqb c SQ = false | EmptyString => True end.
(** A text that does not go on with the value. *)
Definition ends_value (rest : string) : Prop :=
  match rest with String c _ => re_space c = true | EmptyString => True end.

Lemma skip_while_app p v rest : sall p v = true -> match rest with String c _ => p c = false | EmptyString => True end ->
  skip_while p (v +:+ rest) = rest.
Proof.
  induction v as [|c v IH]; cbn.
  - intros _ H. destruct rest as [|d rest]; [done|]. cbn. by rewrite H.
  - intros [-> Hv]%andb_true_iff H. auto.
Qed.
Lemma after_value_plain v rest : plain_value v -> ends_value rest -> after_value (v +:+ rest) = Some rest.
Proof.
  intros (Hne&Hv&Hq) Hr. destruct v as [|c v]; [done|]. unfold after_value. change (String c v +:+ rest) with (String c (v +:+ rest)).
  cbv beta iota zeta. rewrite Hq. change (String c (v +:+ rest)) with (String c v +:+ rest). rewrite skip_while_app; [done..|].
  destruct rest as [|d rest]; [done|]. cbn in Hr. by rewrite Hr.
Qed.

(** ** Sensitive words in any case *)
Fixpoint lower_all (s : string) : string :=
  match s with String c s => String (lower_char c) (lower_all s) | EmptyString => EmptyString end.
Definition inline_words : list string :=
  ["pass"; "secret"; "token"; "ciphertext"; "authorization"; "privatekey"; "private key"; "private_key"; "private.key"; "private-key"].

Lemma ascii_eqb_neq a b : a <> b -> ascii_eqb a b = false.
Proof. intros H. unfold ascii_eqb. by apply bool_decide_eq_false. Qed.
Lemma fold_char_hit c s : fold_char (lower_char c) (String c s) = Some s.
Proof. unfold fold_char. by rewrite ascii_eqb_refl. Qed.
Lemma fold_char_miss l c s : lower_char c <> l -> (code (lower_char c) < 128)%Z -> fold_char l (String c s) = None.
Proof.
  intros Hl Hc. unfold fold_char. rewrite (ascii_eqb_neq _ l) by done.
  assert (forall p, (code p >= 128)%Z -> c <> p) as Hp.
  { intros p Hp ->. revert Hp Hc. by destruct p as [[] [] [] [] [] [] [] []]. }
  assert (HasPrefix (String c s) long_s = false) as ->
    by (cbn; rewrite ascii_eqb_neq; [done|intros E; by refine (Hp _ _ (eq_sym E))]).
  assert (HasPrefix (String c s) kelvin = false) as ->
    by (cbn; rewrite ascii_eqb_neq; [done|intros E; by refine (Hp _ _ (eq_sym E))]).
  by rewrite !andb_false_r.
Qed.
Lemma fold_lit_hit kw x : fold_lit (lower_all kw) (kw +:+ x) = Some x.
Proof. induction kw as [|c kw IH]; [done|]. cbn [lower_all fold_lit]. change (String c kw +:+ x) with (String c (kw +:+ x)). by rewrite fold_char_hit. Qed.

Lemma fold_char_hit' c l s : lower_char c = l -> fold_char l (String c s) = Some s.
Proof. intros <-. apply fold_char_hit. Qed.
Lemma one_sep_lower c s : one_sep (String c s) = if one_of " _.-" (lower_char c) then Some s else None.
Proof. cbn [one_sep]. by destruct c as [[] [] [] [] [] [] [] []]. Qed.

Ltac fold_step :=
  match goal with
  | H : lower_char ?c = ?l |- context [fold_char ?l (String ?c ?r)] => rewrite (fold_char_hit' c l r H)
  | H : lower_char ?c = ?m |- context [fold_char ?l (String ?c ?r)] =>
      rewrite (fold_char_miss l c r) by (rewrite H; done)
  | H : lower_char ?c = ?m |- context [one_sep (String ?c ?r)] => rewrite one_sep_lower, H;
      let b := eval vm_compute in (one_of " _.-" m) in change (one_of " _.-" m) with b; cbv iota
  end; cbn [mbind option_bind].
Ltac split_word :=
  repeat match goal with
    | H : String _ _ = lower_all ?k |- _ => destruct k; [discriminate H|]; cbn [lower_all] in H; injection H as ? H
    | H : EmptyString = lower_all ?k |- _ => destruct k; [clear H|discriminate H]
    | H : ?l = lower_char ?c |- _ => apply eq_sym in H
    end.
Lemma keyword_word kw x : lower_all kw ∈ inline_words -> keyword (kw +:+ x) = Some x.
Proof.
  unfold inline_words. rewrite !elem_of_cons, elem_of_nil. intros H.
  destruct_or?; try done; apply eq_sym in H; split_word; unfold keyword, sensitive_words;
    cbn [String.append first_lit fold_lit]; repeat fold_step; try done;
    unfold private_key; cbn [fold_lit]; repeat fold_step; done.
Qed.

Lemma take_app_s s t : take_s (String.length (s +:+ t) - String.length t) (s +:+ t) = s.
Proof.
  rewrite length_app_s, Nat.add_sub. induction s as [|c s IH]; [by destruct t|]. cbn. by f_equal.
Qed.
Definition is_quote (c : ascii) : bool := ascii_eqb c DQ || ascii_eqb c SQ.
Lemma space_chars d : re_space d = true -> word_char d = false /\ is_quote d = false.
Proof. by destruct d as [[] [] [] [] [] [] [] []]. Qed.
Lemma sep_chars d : one_of ":=" d = true -> word_char d = false /\ is_quote d = false /\ re_space d = false.
Proof. by destruct d as [[] [] [] [] [] [] [] []]. Qed.
Lemma skip_to_value t qt sp1 c z : sall word_char t = true -> qt ∈ [""; char DQ; char SQ] -> sall re_space sp1 = true ->
  one_of ":=" c = true ->
  skip_while re_space (skip_quote (skip_while word_char (t +:+ qt +:+ sp1 +:+ String c z))) = String c z.
Proof.
  intros Ht Hqt H1 (Hw&Hq&Hs)%sep_chars.
  assert (skip_while re_space (sp1 +:+ String c z) = String c z) as E by by apply skip_while_app.
  assert (exists d r, sp1 +:+ String c z = String d r /\ word_char d = false /\ is_quote d = false) as (d&r&Ed&Hdw&Hdq).
  { destruct sp1 as [|d sp1]; [by exists c, z|]. cbn in H1. apply andb_true_iff in H1 as [Hd _].
    apply space_chars in Hd as []. by exists d, (sp1 +:+ String c z). }
  rewrite Ed in *. rewrite !elem_of_cons, elem_of_nil in Hqt. destruct_or?; subst; try done; rewrite skip_while_app by done.
  - cbn [String.append skip_quote]. fold (is_quote d). by rewrite Hdq.
  - done.
  - done.
Qed.
Lemma inlineSecret_pair kw t qt sp1 c sp2 v rest :
  lower_all kw ∈ inline_words -> sall word_char t = true -> qt ∈ [""; char DQ; char SQ] ->
  sall re_space sp1 = true -> sall re_space sp2 = true -> one_of ":=" c = true -> plain_value v -> ends_value rest ->
  let prefix := kw +:+ t +:+ qt +:+ sp1 +:+ char c +:+ sp2 in
  inlineSecret (prefix +:+ v +:+ rest) = Some (prefix, rest).
Proof.
  intros Hw Ht Hqt H1 H2 Hc Hv Hrest prefix. pose proof (after_value_plain v rest Hv Hrest) as Ha.
  assert (prefix +:+ v +:+ rest = kw +:+ t +:+ qt +:+ sp1 +:+ String c (sp2 +:+ v +:+ rest)) as E
    by (subst prefix; by rewrite !app_assoc_s).
  assert (skip_while re_space (sp2 +:+ v +:+ rest) = v +:+ rest) as E2.
  { apply skip_while_app; [done|]. destruct Hv as (Hne&Hns&_). destruct v as [|d v]; [done|]. cbn in Hns |- *.
    apply andb_true_iff in Hns as [Hd _]. by apply negb_true_iff in Hd. }
  unfold inlineSecret. rewrite E at 1. rewrite keyword_word by done. cbn [mbind option_bind].
  rewrite skip_to_value by done. rewrite Hc. cbv zeta. rewrite E2, Ha. cbn [mbind option_bind]. by rewrite take_app_s.
Qed.

(** The value of a sensitive pair never reaches the scrubbed text. For a
    sensitive word in any case, with any word characters after it, an optional
    closing quote, [=] or [:] and any spaces around it, an unquoted value is
    replaced whole by [REDACTED], and scrubbing goes on after it. *)
Theorem scrub_inline_hides kw t qt sp1 c sp2 v rest :
  lower_all kw ∈ inline_words -> sall word_char t = true -> qt ∈ [""; char DQ; char SQ] ->
  sall re_space sp1 = true -> sall re_space sp2 = true -> one_of ":=" c = true -> plain_value v -> ends_value rest ->
  let prefix := kw +:+ t +:+ qt +:+ sp1 +:+ char c +:+ sp2 in
  scrub_inline (prefix +:+ v +:+ rest) = prefix +:+ REDACTED +:+ scrub_inline rest.
Proof.
  intros Hw Ht Hqt H1 H2 Hc Hv Hrest prefix. rewrite scrub_step.
  - subst prefix. by rewrite inlineSecret_pair.
  - subst prefix. destruct kw; [|done]. unfold inline_words in Hw. rewrite !elem_of_cons, elem_of_nil in Hw. by destruct_or?.
Qed.
