(* ===== verification/JsonRead.v ===== *)
(** * Reading back written JSON

    [wire html v] is the compact text of [v], members in order; both writers of
    the program ([writeStable] and the encoder without HTML escaping) produce it
    on the tree with sorted keys. Read with any text that cannot extend a number
    behind it, it gives the tree and the text back. *)

From S2P Require Import Prelude GoStrings StrFacts Json JsonFacts JsonText Scrub.
From stdpp Require Import options.

Definition json_quote (html : bool) (s : string) : string := String DQ (json_text html s +:+ char DQ).
Fixpoint wire (html : bool) (v : json) : string :=
  match v with
  | JNull => "null"
  | JBool b => if b then "true" else "false"
  | JNum z => itoa z
  | JFloat t => t
  | JStr s => json_quote html s
  | JArr l => "[" +:+ Join (map (wire html) l) "," +:+ "]"
  | JObj fs => "{" +:+ Join (map (fun f => json_quote html f.1 +:+ ":" +:+ wire html f.2) fs) "," +:+ "}"
  end.
Fixpoint depth (v : json) : Z :=
  (match v with
   | JArr l => 1 + foldr (fun x m => Z.max (depth x) m) 0 l
   | JObj fs => 1 + foldr (fun f m => Z.max (depth f.2) m) 0 fs
   | _ => 0
   end)%Z.
(** Numbers a reader takes for the same value, and keys that stay distinct. *)
Fixpoint readable (v : json) : bool :=
  match v with
  | JNum z => (Z.abs z <=? 2 ^ 53)%Z
  | JFloat t => match t with String c _ => is_digit c || ascii_eqb c "-" | EmptyString => false end
                && bool_decide (read_number t = Some (JFloat t, t, ""))
  | JArr l => forallb readable l
  | JObj fs => bool_decide (NoDup (map (fun f => valid_utf8 f.1) fs)) && forallb (fun f => readable f.2) fs
  | _ => true
  end.

Lemma wire_writeStable v : writeStable v = wire true (canon v).
Proof.
  induction v as [|x|x|x|x|l IH|l IH] using json_ind'; try done.
  - cbn -[Join]. do 3 f_equal. rewrite map_map. by apply map_ext_Forall.
  - rewrite writeStable_obj, canon_obj. cbn -[Join json_string json_quote]. rewrite map_map.
    do 3 f_equal. apply map_ext_Forall. rewrite Forall_forall in *. intros f Hf%elem_of_SliceStable.
    simpl. by rewrite IH.
Qed.
Lemma wire_encode_any v : encode_any v = wire false (canon v).
Proof.
  induction v as [|x|x|x|x|l IH|l IH] using json_ind'; try done.
  - cbn -[Join]. do 3 f_equal. rewrite map_map. by apply map_ext_Forall.
  - rewrite canon_obj. cbn -[Join json_plain json_quote].
    rewrite (sort_keys_map (fun f => json_plain f.1 +:+ ":" +:+ encode_any f.2)), !map_map.
    do 3 f_equal. apply map_ext_Forall. rewrite Forall_forall in *. intros f Hf%elem_of_SliceStable.
    cbn [fst snd]. by rewrite IH.
Qed.

(** ** Strings *)
Definition reads_chunk (e u : string) : Prop := forall fuel rest,
  String.length (e +:+ rest) < fuel -> exists fuel', String.length rest < fuel' /\
  read_string fuel (e +:+ rest) = ('(v, t, r) ← read_string fuel' rest; Some (u +:+ v, e +:+ t, r)).
Lemma chunk_app e1 u1 e2 u2 : reads_chunk e1 u1 -> reads_chunk e2 u2 -> reads_chunk (e1 +:+ e2) (u1 +:+ u2).
Proof.
  intros H1 H2 fuel rest Hf. rewrite app_assoc_s in *.
  destruct (H1 _ _ Hf) as (f1&Hf1&->). destruct (H2 _ _ Hf1) as (f2&Hf2&->).
  exists f2. split; [done|]. destruct (read_string f2 rest) as [[[v t] r]|]; simpl; [|done].
  by rewrite !app_assoc_s.
Qed.
Lemma chunk_high c : (128 <= code c)%Z -> reads_chunk (char c) (char c).
Proof.
  intros Hc [|fuel] rest Hf; [lia|]. exists fuel. split; [simpl in Hf; lia|].
  destruct (high_not_BS c Hc) as [HB _]. simpl. rewrite HB.
  destruct (ascii_eqb c DQ) eqn:E; [apply ascii_eqb_eq in E; subst; by compute in Hc|].
  assert ((code c <? 32)%Z = false) as -> by (apply Z.ltb_ge; lia).
  by destruct (read_string fuel rest) as [[[v t] r]|].
Qed.
Lemma chunk_ascii html c : (code c < 128)%Z -> reads_chunk (esc_ascii html c) (char c).
Proof.
  intros Hc [|fuel] rest Hf; [lia|]. exists fuel. split; [rewrite length_app_s in Hf|].
  { assert (String.length (esc_ascii html c) <> 0); [|lia].
    unfold esc_ascii. repeat case_match; simpl; lia. }
  destruct html, c as [[] [] [] [] [] [] [] []]; (reflexivity || (vm_compute in Hc; done)).
Qed.
(** A rune of a string is an ASCII character or bytes above it. *)
Definition high (c : ascii) : bool := (128 <=? code c)%Z.
Lemma runes_bytes s t : Some t ∈ runes s -> (exists c, t = char c /\ (code c < 128)%Z) \/ (sall high t = true /\ String.length t <> 1).
Proof.
  assert (forall c, cont c = true -> high c = true) as Hcont.
  { unfold cont, high, in_range. intros c H. bsimp. apply Z.leb_le. lia. }
  induction s as [s IH] using string_len_ind. destruct s as [|a s1]; cbn [runes]; [set_solver|].
  destruct (code a <? 128)%Z eqn:Ha; bsimp.
  { intros [[= ->]|H]%elem_of_cons; [eauto|]. eapply IH; [|done]. simpl; lia. }
  assert (high a = true) as Hha by (unfold high; apply Z.leb_le; lia).
  destruct s1 as [|b s2]; [set_solver|]. cbn [runes].
  assert (Hsub : forall s' x, Some t ∈ x :: runes s' -> (x = Some t -> sall high t = true /\ String.length t <> 1) ->
    String.length s' < String.length (String a (String b s2)) ->
    (exists c, t = char c /\ (code c < 128)%Z) \/ (sall high t = true /\ String.length t <> 1)).
  { intros s' x [<-|H]%elem_of_cons Hx Hl; [by right; apply Hx|]. by eapply IH. }
  destruct (ok2 a b) eqn:H2.
  { intros H. apply (Hsub s2 _ H); [|simpl; lia]. intros [= <-]. unfold ok2 in H2. bsimp. simpl.
    by rewrite Hha, Hcont. }
  destruct s2 as [|c s3]; [intros H; apply (Hsub (String b "") _ H); [done|simpl; lia]|].
  destruct (ok3 a b c) eqn:H3.
  { intros H. apply (Hsub s3 _ H); [|simpl; lia]. intros [= <-]. unfold ok3 in H3. bsimp. simpl.
    rewrite Hha, (Hcont c) by done. split; [|done]. rewrite !andb_true_r. simpl.
    unfold high, cont, in_range in *. apply Z.leb_le.
    repeat match goal with H : (_ || _)%bool = true |- _ => apply orb_true_iff in H as [H|H] end; bsimp; lia. }
  destruct s3 as [|d s4]; [intros H; apply (Hsub (String b (char c)) _ H); [done|simpl; lia]|].
  destruct (ok4 a b c d) eqn:H4.
  { intros H. apply (Hsub s4 _ H); [|simpl; lia]. intros [= <-]. unfold ok4 in H4. bsimp. simpl.
    rewrite Hha, (Hcont c), (Hcont d) by done. split; [|done]. rewrite !andb_true_r. simpl.
    unfold high, cont, in_range in *. apply Z.leb_le.
    repeat match goal with H : (_ || _)%bool = true |- _ => apply orb_true_iff in H as [H|H] end; bsimp; lia. }
  intros H; apply (Hsub (String b (String c (String d s4))) _ H); [done|simpl; lia].
Qed.

(** A rune at the front of a text is read as that rune. *)
Lemma runes_app s t x : Some t ∈ runes s -> runes (t +:+ x) = Some t :: runes x.
Proof.
  induction s as [s IH] using string_len_ind. destruct s as [|a s1]; cbn [runes]; [set_solver|].
  destruct (code a <? 128)%Z eqn:Ha.
  { intros [[= ->]|H]%elem_of_cons; [simpl; by rewrite Ha|]. eapply IH; [|done]. simpl; lia. }
  destruct s1 as [|b s2]; [set_solver|].
  assert (Hsub : forall s' o, Some t ∈ o :: runes s' -> (o = Some t -> runes (t +:+ x) = Some t :: runes x) ->
    String.length s' < String.length (String a (String b s2)) -> runes (t +:+ x) = Some t :: runes x).
  { intros s' o [<-|H]%elem_of_cons Ho Hl; [by apply Ho|]. by eapply IH. }
  destruct (ok2 a b) eqn:H2.
  { intros H. apply (Hsub s2 _ H); [|simpl; lia]. intros [= <-]. simpl. by rewrite Ha, H2. }
  destruct s2 as [|c s3]; [intros H; apply (Hsub (String b "") _ H); [done|simpl; lia]|].
  destruct (ok3 a b c) eqn:H3.
  { intros H. apply (Hsub s3 _ H); [|simpl; lia]. intros [= <-]. simpl. by rewrite Ha, H2, H3. }
  destruct s3 as [|d s4]; [intros H; apply (Hsub (String b (char c)) _ H); [done|simpl; lia]|].
  destruct (ok4 a b c d) eqn:H4.
  { intros H. apply (Hsub s4 _ H); [|simpl; lia]. intros [= <-]. simpl. by rewrite Ha, H2, H3, H4. }
  intros H; apply (Hsub (String b (String c (String d s4))) _ H); [done|simpl; lia].
Qed.
Lemma runes_valid s : runes (valid_utf8 s) = map (fun r => Some (default RuneError r)) (runes s).
Proof.
  unfold valid_utf8. assert (Forall (fun r => forall t x, r = Some t -> runes (t +:+ x) = Some t :: runes x) (runes s)) as H.
  { apply Forall_forall. intros r Hr t x ->. by eapply runes_app. }
  induction H as [|[t|] l Ht _ IH]; simpl; [done| |by rewrite <- IH]. by rewrite Ht, IH.
Qed.
Lemma valid_utf8_idemp s : valid_utf8 (valid_utf8 s) = valid_utf8 s.
Proof.
  unfold valid_utf8 at 1. rewrite runes_valid. unfold valid_utf8.
  induction (runes s) as [|r l IH]; simpl; [done|]. by rewrite IH.
Qed.
Lemma utf8_valid s : utf8 (valid_utf8 s).
Proof. unfold utf8. rewrite runes_valid. apply Forall_forall. intros r (?&->&_)%list_elem_of_fmap. eauto. Qed.
Lemma valid_utf8_id s : utf8 s -> valid_utf8 s = s.
Proof. apply utf8_unrunes. Qed.

Lemma chunk_highs t : sall high t = true -> reads_chunk t t.
Proof.
  induction t as [|c t IH]; simpl.
  - intros _ fuel rest Hf. exists fuel. split; [done|]. simpl. by destruct (read_string fuel rest) as [[[v t] r]|].
  - intros H. bsimp. apply (chunk_app (char c) (char c)); [|auto]. apply chunk_high. unfold high in *. by bsimp.
Qed.
Lemma chunk_u x y z w u : (forall rest, hex4 (String x (String y (String z (String w rest)))) = Some (u, rest)) ->
  (55296 <=? u)%Z && (u <=? 56319)%Z = false ->
  reads_chunk (String BS (String "u" (String x (String y (String z (char w)))))) (utf8_encode u).
Proof.
  intros H1 H2 [|fuel] rest Hf; [lia|]. exists fuel. split; [simpl in Hf; lia|].
  cbn -[hex4 utf8_encode low_surrogate Z.leb take_s]. rewrite H1.
  cbn -[utf8_encode low_surrogate Z.leb take_s]. rewrite H2. done.
Qed.
Lemma chunk_rune html s r : r ∈ runes s -> reads_chunk (esc_rune html r) (default RuneError r).
Proof.
  intros Hr. destruct r as [t|]; [|by apply (chunk_u "f" "f" "f" "d" 65533)].
  apply runes_bytes in Hr as [(c&->&Hc)|[Ht Hl]]; [by apply chunk_ascii|].
  replace (esc_rune html (Some t)) with (if t =? LS then String BS "u2028" else if t =? PS then String BS "u2029" else t)
    by (by destruct t as [|a [|b t]]).
  destruct (String.eqb_spec t LS) as [->|]; [by apply (chunk_u "2" "0" "2" "8" 8232)|].
  destruct (String.eqb_spec t PS) as [->|]; [by apply (chunk_u "2" "0" "2" "9" 8233)|]. by apply chunk_highs.
Qed.
Lemma chunk_text html s : reads_chunk (json_text html s) (valid_utf8 s).
Proof.
  unfold json_text, valid_utf8. pose proof (chunk_rune html s) as H.
  induction (runes s) as [|r l IH]; simpl.
  - intros fuel rest Hf. exists fuel. split; [done|]. simpl. by destruct (read_string fuel rest) as [[[v t] r]|].
  - apply chunk_app; [apply H; set_solver|]. apply IH. intros r' Hr'. apply H. set_solver.
Qed.
Lemma read_string_text html s rest fuel : String.length (json_text html s +:+ String DQ rest) < fuel ->
  read_string fuel (json_text html s +:+ String DQ rest) = Some (valid_utf8 s, json_text html s, rest).
Proof.
  intros Hf. destruct (chunk_text html s _ _ Hf) as ([|fuel']&Hf'&->); [lia|].
  simpl. by rewrite !app_nil_r_s.
Qed.

(** ** Numbers *)
Definition digit_head (s : string) : bool := match s with String c _ => is_digit c | _ => false end.
Lemma digits_app s d r x : digits s = (d, r) -> digit_head x = false -> digits (s +:+ x) = (d, r +:+ x).
Proof.
  revert d. induction s as [|c s IH]; intros d; cbn [digits String.append].
  - intros [= <- <-] Hx. destruct x as [|c x]; [done|]. simpl in *. by rewrite Hx.
  - destruct (is_digit c); [|by intros [= <- <-]].
    destruct (digits s) as [d' r']. intros [= <- <-] Hx. by rewrite (IH d').
Qed.
Lemma delim_digit x : delim x -> digit_head x = false.
Proof. destruct x as [|c x]; [done|]. unfold delim, num_char. simpl. by intros [? _]%orb_false_iff. Qed.
Lemma delim_not c x r : delim x -> num_char c = true -> x <> String c r.
Proof. intros H Hc ->. simpl in H. congruence. Qed.
Lemma read_frac_app s f r x : read_frac s = Some (f, r) -> delim x -> read_frac (s +:+ x) = Some (f, r +:+ x).
Proof.
  intros H Hx. destruct s as [|c s]; simpl in H.
  - injection H as <- <-. simpl. destruct x as [|c x]; [done|]. simpl.
    destruct (ascii_eqb c ".") eqn:E; [|done]. apply ascii_eqb_eq in E as ->. by destruct (delim_not "." _ x Hx).
  - simpl. destruct (ascii_eqb c "."); [|by injection H as <- <-].
    destruct (digits s) as [d r'] eqn:Ed. rewrite (digits_app _ _ _ _ Ed) by by apply delim_digit.
    destruct (d =? "")%string; [done|]. by injection H as <- <-.
Qed.
Lemma read_exp_app s f r x : read_exp s = Some (f, r) -> delim x -> read_exp (s +:+ x) = Some (f, r +:+ x).
Proof.
  intros H Hx. destruct s as [|c s]; simpl in H.
  - injection H as <- <-. simpl. destruct x as [|c x]; [done|]. cbn [read_exp].
    destruct (ascii_eqb c "e" || ascii_eqb c "E") eqn:E; [|done].
    destruct (delim_not c _ x Hx); [|done]. apply orb_true_iff in E as [->%ascii_eqb_eq| ->%ascii_eqb_eq]; done.
  - cbn [read_exp String.append]. destruct (ascii_eqb c "e" || ascii_eqb c "E"); [|by injection H as <- <-].
    destruct s as [|d s]; [done|]. cbn [String.append].
    destruct (ascii_eqb d "+" || ascii_eqb d "-").
    + destruct (digits s) as [e r'] eqn:Ed. rewrite (digits_app _ _ _ _ Ed) by by apply delim_digit.
      destruct (e =? "")%string; [done|]. by injection H as <- <-.
    + destruct (digits (String d s)) as [e r'] eqn:Ed.
      pose proof (digits_app _ _ _ x Ed (delim_digit _ Hx)) as He. cbn [String.append] in He. rewrite He.
      destruct (e =? "")%string; [done|]. by injection H as <- <-.
Qed.
Lemma read_number_app s v t r x : read_number s = Some (v, t, r) -> delim x ->
  read_number (s +:+ x) = Some (v, t, r +:+ x).
Proof.
  unfold read_number. intros H Hx.
  assert (Hs : (match s +:+ x with
    | String c s1 => if ascii_eqb c "-" then (true, s1) else (false, s +:+ x)
    | EmptyString => (false, s +:+ x) end) =
    let '(sign, s1) := match s with
      | String c s1 => if ascii_eqb c "-" then (true, s1) else (false, s)
      | EmptyString => (false, s) end in (sign, s1 +:+ x)).
  { destruct s as [|c s]; [done|]. cbn [String.append]. by destruct (ascii_eqb c "-"). }
  rewrite Hs. clear Hs.
  destruct (match s with String c s1 => _ | EmptyString => _ end) as [sign s1].
  destruct (digits s1) as [int s2] eqn:Ed. rewrite (digits_app _ _ _ _ Ed) by by apply delim_digit.
  destruct ((int =? "")%string || (1 <? slen int)%Z && HasPrefix int "0"); [done|].
  destruct (read_frac s2) as [[frac s3]|] eqn:Ef; [|done]. cbn in H.
  rewrite (read_frac_app _ _ _ _ Ef Hx). cbn.
  destruct (read_exp s3) as [[exp s4]|] eqn:Ee; [|done]. cbn in H.
  rewrite (read_exp_app _ _ _ _ Ee Hx). cbn. by injection H as <- <- <-.
Qed.

Lemma dec_digit n : (n < 10)%N -> is_digit (pretty_N_char n) = true /\ code (pretty_N_char n) = (48 + Z.of_N n)%Z.
Proof.
  intros Hn. assert (n ∈ [0;1;2;3;4;5;6;7;8;9]%N) as H.
  { rewrite !elem_of_cons. lia. }
  repeat (apply elem_of_cons in H as [->|H]; [done|]). by apply elem_of_nil in H.
Qed.
Lemma pretty_go_read n : forall s, exists p, pretty_N_go n s = p +:+ s /\ sall is_digit p = true
  /\ dec_value 0 p = Z.of_N n /\ ((n = 0%N /\ p = "") \/ exists c p', p = String c p' /\ c <> "0"%char).
Proof.
  induction (N.lt_wf_0 n) as [n _ IH]. intros s.
  destruct (decide (0 < n)%N) as [Hn|Hn].
  2:{ assert (n = 0%N) as -> by lia. exists "". rewrite pretty_N_go_0. repeat split; auto. }
  rewrite pretty_N_go_step by done.
  destruct (IH (n / 10)%N ltac:(apply N.div_lt; lia) (String (pretty_N_char (n mod 10)) s)) as (p&->&Hp&Hv&Hh).
  assert (n mod 10 < 10)%N as Hm by (apply N.mod_lt; lia).
  destruct (dec_digit _ Hm) as [Hd Hc].
  exists (p +:+ char (pretty_N_char (n mod 10))). repeat split.
  - by rewrite app_assoc_s.
  - rewrite sall_app, Hp. simpl. by rewrite Hd.
  - assert (forall a s c, dec_value a (s +:+ char c) = dec_value a s * 10 + (code c - 48))%Z as Hdv.
    { intros a u; revert a. induction u as [|d u IHu]; intros a c; simpl; [done|]. by rewrite IHu. }
    rewrite Hdv, Hv, Hc. pose proof (N.div_mod' n 10). lia.
  - right. destruct Hh as [[H0 ->]|(c&p'&->&Hc0)]; [|eauto].
    exists (pretty_N_char (n mod 10)), "". split; [done|]. intros E.
    pose proof (f_equal code E) as E'. rewrite Hc in E'. change (code "0") with 48%Z in E'.
    pose proof (N.div_mod' n 10). lia.
Qed.
Lemma read_itoa z x : (Z.abs z <=? 2 ^ 53)%Z = true -> delim x -> read_number (itoa z +:+ x) = Some (JNum z, itoa z, x).
Proof.
  intros Hz Hx. apply (read_number_app _ _ _ ""); [|done].
  assert (Hpos : forall n, exists p, pretty n = p /\ digits p = (p, "") /\ p <> "" /\ dec_value 0 p = Z.of_N n
    /\ (1 <? slen p)%Z && HasPrefix p "0" = false /\ sall is_digit p = true).
  { intros n. unfold pretty, pretty_N. destruct (decide (n = 0%N)) as [->|Hn]; [by exists "0"|].
    destruct (pretty_go_read n "") as (p&->&Hp&Hv&[[? _]|(c&p'&->&Hc)]); [done|].
    rewrite app_nil_r_s. exists (String c p'). repeat split; try done.
    - assert (forall s, sall is_digit s = true -> digits s = (s, "")) as Hd.
      { induction s as [|d s IHs]; simpl; [done|]. intros H. bsimp. rewrite H. by rewrite IHs. }
      by apply Hd.
    - apply andb_false_iff. right. cbn [HasPrefix]. destruct (ascii_eqb _ _) eqn:E; [|done].
      apply ascii_eqb_eq in E. congruence. }
  unfold itoa. bsimp. destruct z as [|n|n].
  - done.
  - change (pretty (Z.pos n)) with (pretty (N.pos n)).
    destruct (Hpos (N.pos n)) as (p&->&Hd&Hne&Hv&Hz0&Hp). unfold read_number.
    destruct p as [|c p]; [done|].
    assert (ascii_eqb c "-" = false) as ->.
    { simpl in Hp. bsimp. unfold ascii_eqb. apply bool_decide_eq_false. by intros ->. }
    rewrite Hd. cbn [String.eqb orb] in Hz0 |- *. rewrite Hz0. simpl. unfold number_value. rewrite Hv. simpl.
    assert ((Z.pos n <=? 2 ^ 53)%Z = true) as -> by (apply Z.leb_le; lia). simpl. by rewrite app_nil_r_s.
  - change (pretty (Z.neg n)) with ("-" +:+ pretty (N.pos n)).
    destruct (Hpos (N.pos n)) as (p&->&Hd&Hne&Hv&Hz0&Hp). unfold read_number.
    cbn [String.append]. rewrite (ascii_eqb_refl "-"). rewrite Hd.
    assert ((p =? "")%string = false) as -> by (by apply String.eqb_neq).
    cbn [orb]. rewrite Hz0. simpl. unfold number_value. rewrite Hv. simpl.
    assert ((Z.pos n <=? 2 ^ 53)%Z = true) as -> by (apply Z.leb_le; lia). simpl. by rewrite app_nil_r_s.
Qed.

(** ** Values *)
Definition starts (v : json) (c : ascii) : bool :=
  match v with JNum _ | JFloat _ => is_digit c || ascii_eqb c "-" | _ => head_char v c end.
Lemma wire_head html v : readable v = true -> exists c s, wire html v = String c s /\ starts v c = true.
Proof.
  destruct v as [|[]|z|t|s|l|fs]; cbn -[itoa json_quote Join]; intros H; try (unfold json_quote; eauto; fail).
  - pose proof (itoa_nonempty z) as Hn. pose proof (itoa_chars z) as Hc. destruct (itoa z) as [|c s]; [done|].
    exists c, s. split; [done|]. simpl in Hc. bsimp. done.
  - destruct t as [|c s]; [done|]. bsimp. eauto.
Qed.
Lemma starts_facts v c : starts v c = true -> json_space c = false /\ ascii_eqb c "]" = false /\ ascii_eqb c "}" = false.
Proof.
  intros H. destruct c as [[] [] [] [] [] [] [] []];
    (repeat split; reflexivity) || (exfalso; destruct v as [|[]| | | | |]; vm_compute in H; discriminate).
Qed.
Lemma skip_ws_head c s : json_space c = false -> skip_ws (String c s) = String c s.
Proof. intros H. simpl. by rewrite H. Qed.

Section values.
Context (html : bool).
Definition reads_at (v : json) : Prop := readable v = true -> forall fuel rest,
  String.length (wire html v) <= fuel -> delim rest ->
  read_value fuel (wire html v +:+ rest) = Some (roundtrip_json v, wire html v, rest).

Lemma reads_elements l : Forall reads_at l -> forallb readable l = true -> l <> [] -> forall fuel rest,
  String.length (Join (map (wire html) l) ",") < fuel ->
  read_elements fuel (Join (map (wire html) l) "," +:+ String "]" rest)
  = Some (map roundtrip_json l, Join (map (wire html) l) ",", rest).
Proof.
  induction 1 as [|v l Hv _ IH]; [done|]. intros Hr _ [|fuel] rest Hf; [lia|]. simpl in Hr. bsimp.
  destruct l as [|w l].
  - cbn [map Join] in *. cbn [read_elements]. rewrite Hv by (done || lia). done.
  - remember (w :: l) as k eqn:Hk. cbn [map]. rewrite Join_cons by by subst.
    rewrite !app_assoc_s. cbn [read_elements]. cbn [map] in Hf. rewrite Join_cons in Hf by by subst.
    rewrite !length_app_s in Hf. simpl in Hf.
    rewrite Hv by (done || lia). cbn -[read_elements Join skip_ws].
    rewrite (skip_ws_head ",") by done. cbn -[read_elements Join].
    rewrite IH by ((by subst) || lia). done.
Qed.
Lemma length_quote s : String.length (json_quote html s) = S (S (String.length (json_text html s))).
Proof. unfold json_quote. simpl. rewrite length_app_s. simpl. lia. Qed.
Lemma read_quote s rest : exists s1, json_quote html s +:+ rest = String DQ s1
  /\ read_string (S (String.length s1)) s1 = Some (valid_utf8 s, json_text html s, rest).
Proof.
  eexists. split; [reflexivity|]. rewrite app_assoc_s. apply read_string_text. simpl. lia.
Qed.

Definition member_text (f : string * json) : string := json_quote html f.1 +:+ ":" +:+ wire html f.2.
Lemma reads_members fs : Forall (fun f => reads_at f.2) fs -> forallb (fun f => readable f.2) fs = true ->
  fs <> [] -> forall fuel rest,
  String.length (Join (map member_text fs) ",") < fuel ->
  read_members fuel (Join (map member_text fs) "," +:+ String "}" rest)
  = Some (map (fun f => (valid_utf8 f.1, roundtrip_json f.2)) fs, Join (map member_text fs) ",", rest).
Proof.
  induction 1 as [|f fs Hv _ IH]; [done|]. intros Hr _ [|fuel] rest Hf; [lia|].
  simpl in Hr. bsimp.
  assert (Hone : forall x, String.length (member_text f) < S fuel -> delim x ->
    read_members (S fuel) (member_text f +:+ x) =
    match skip_ws x with
    | String c r3 =>
        if ascii_eqb c "}" then Some ([(valid_utf8 f.1, roundtrip_json f.2)], member_text f, r3)
        else if ascii_eqb c "," then
          '(m, t', r4) ← read_members fuel r3;
          Some ((valid_utf8 f.1, roundtrip_json f.2) :: m, member_text f +:+ "," +:+ t', r4)
        else None
    | EmptyString => None
    end).
  { intros x Hl Hx. unfold member_text in *. rewrite !app_assoc_s. cbn [read_members].
    destruct (read_quote f.1 (":" +:+ wire html f.2 +:+ x)) as (s1&->&Hs).
    rewrite skip_ws_head by done. rewrite ascii_eqb_refl, Hs. cbn -[read_value skip_ws read_members String.append].
    cbn [String.append]. rewrite (skip_ws_head ":") by done. rewrite ascii_eqb_refl.
    rewrite !length_app_s, length_quote in Hl. simpl in Hl.
    rewrite Hv by (done || lia). cbn -[skip_ws read_members String.append]. rewrite valid_utf8_idemp. done. }
  destruct fs as [|g fs].
  - cbn [map Join] in *. by rewrite Hone.
  - remember (g :: fs) as k eqn:Hk. cbn [map] in *. rewrite Join_cons in Hf |- * by by subst.
    rewrite length_app_s in Hf. cbn [String.append String.length] in Hf. rewrite app_assoc_s, Hone by (done || lia).
    cbn [String.append]. rewrite (skip_ws_head ",") by done.
    cbn -[read_members Join]. rewrite IH by ((by subst) || lia). done.
Qed.

Lemma reads_value v : reads_at v.
Proof.
  induction v as [|b|z|t|s|l IH|fs IH] using json_ind'; intros Hr [|fuel] rest Hf Hd;
    (destruct (wire_head html _ Hr) as (c0&s0&Hw&Hc0); try (rewrite Hw in Hf; simpl in Hf; lia)).
  - by destruct rest.
  - by destruct b, rest.
  - pose proof (read_itoa z rest Hr Hd) as Hz. cbn [wire] in *. rewrite Hw in *. cbn [String.append] in *.
    destruct (starts_facts _ _ Hc0) as (Hsp&_&_). cbn [starts] in Hc0. cbn [read_value].
    rewrite skip_ws_head by done. rewrite Hc0.
    assert (ascii_eqb c0 DQ = false /\ ascii_eqb c0 "[" = false /\ ascii_eqb c0 "{" = false) as (->&->&->); [|done].
    { clear -Hc0. destruct c0 as [[] [] [] [] [] [] [] []]; (repeat split; reflexivity) || (vm_compute in Hc0; discriminate). }
  - cbn [readable] in Hr. bsimp. match goal with H : read_number t = _ |- _ => pose proof (read_number_app _ _ _ _ rest H Hd) as Hz end.
    cbn [wire] in *. rewrite Hw in *. cbn [String.append] in *.
    destruct (starts_facts _ _ Hc0) as (Hsp&_&_). cbn [starts] in Hc0. cbn [read_value].
    rewrite skip_ws_head by done. rewrite Hc0.
    assert (ascii_eqb c0 DQ = false /\ ascii_eqb c0 "[" = false /\ ascii_eqb c0 "{" = false) as (->&->&->); [|done].
    { clear -Hc0. destruct c0 as [[] [] [] [] [] [] [] []]; (repeat split; reflexivity) || (vm_compute in Hc0; discriminate). }
  - cbn [wire]. destruct (read_quote s rest) as (s1&Hs1&Hs). cbn [read_value]. rewrite Hs1, skip_ws_head by done.
    rewrite ascii_eqb_refl, Hs. cbn -[valid_utf8]. by rewrite valid_utf8_idemp.
  - cbn [readable wire roundtrip_json] in *. destruct l as [|x l]; [done|]. rewrite !app_assoc_s.
    cbn [String.append read_value]. rewrite skip_ws_head by done. cbn -[read_elements Join skip_ws map].
    assert (Hx : exists c s, Join (map (wire html) (x :: l)) "," +:+ String "]" rest = String c s
      /\ json_space c = false /\ ascii_eqb c "]" = false).
    { simpl in Hr. bsimp. destruct (wire_head html x) as (c&s&Hx&Hc); [done|]. apply starts_facts in Hc as (?&?&?).
      destruct l; cbn [map]; [cbn [Join]|rewrite Join_cons by done]; rewrite Hx; cbn [String.append]; eauto. }
    destruct Hx as (c&s&Hx&Hsp&Hc). rewrite Hx, skip_ws_head, Hc by done. rewrite <- Hx.
    cbn [String.append String.length] in Hf. rewrite length_app_s in Hf. cbn [String.length] in Hf.
    rewrite reads_elements by (done || lia). done.
  - destruct fs as [|f fs]; [done|]. cbn [readable roundtrip_json] in *.
    change (wire html (JObj (f :: fs))) with ("{" +:+ Join (map member_text (f :: fs)) "," +:+ "}") in *.
    rewrite !app_assoc_s. bsimp. cbn [String.append read_value].
    rewrite skip_ws_head by done. cbn -[read_members Join skip_ws map].
    assert (Hx : exists c s, Join (map member_text (f :: fs)) "," +:+ String "}" rest = String c s
      /\ json_space c = false /\ ascii_eqb c "}" = false).
    { destruct fs; cbn [map]; [cbn [Join]|rewrite Join_cons by done]; unfold member_text at 1, json_quote;
        cbn [String.append]; eauto. }
    destruct Hx as (c&s&Hx&Hsp&Hc). rewrite Hx, skip_ws_head, Hc by done. rewrite <- Hx.
    cbn [String.append String.length] in Hf. rewrite length_app_s in Hf. cbn [String.length] in Hf.
    rewrite reads_members by (done || lia). done.
Qed.
End values.

(** ** Nesting *)
Definition flat (c : ascii) : bool := negb (ascii_eqb c DQ || one_of "[{" c || one_of "]}" c).
Lemma depth_flat t d m x : sall flat t = true -> max_depth false false d m (t +:+ x) = max_depth false false d m x.
Proof.
  induction t as [|c t IH]; [done|]. cbn [sall String.append max_depth]. unfold flat at 1.
  destruct (ascii_eqb c DQ), (one_of "[{" c), (one_of "]}" c); try done.
Qed.
Lemma depth_chunk html s r d m x : r ∈ runes s ->
  max_depth true false d m (esc_rune html r +:+ x) = max_depth true false d m x.
Proof.
  intros Hr. destruct r as [t|]; [|done]. apply runes_bytes in Hr as [(c&->&Hc)|[Ht Hl]].
  { destruct html, c as [[] [] [] [] [] [] [] []]; (reflexivity || (vm_compute in Hc; done)). }
  replace (esc_rune html (Some t)) with (if t =? LS then String BS "u2028" else if t =? PS then String BS "u2029" else t)
    by (by destruct t as [|a [|b t]]).
  destruct (String.eqb_spec t LS) as [->|]; [done|]. destruct (String.eqb_spec t PS) as [->|]; [done|].
  clear -Ht. induction t as [|c t IH]; [done|]. simpl in Ht |- *. bsimp. unfold high in *. bsimp.
  destruct (high_not_BS c) as [-> _]; [done|].
  destruct (ascii_eqb c DQ) eqn:E; [apply ascii_eqb_eq in E; subst; by compute in *|]. by apply IH.
Qed.
Lemma depth_quote html s d m x :
  max_depth false false d m (json_quote html s +:+ x) = max_depth false false d m x.
Proof.
  unfold json_quote. cbn [String.append]. rewrite app_assoc_s. change (max_depth true false d m (json_text html s +:+ String DQ x) = max_depth false false d m x).
  unfold json_text. pose proof (depth_chunk html s) as H. induction (runes s) as [|r l IH]; [done|].
  cbn [foldr]. rewrite app_assoc_s, H by set_solver. apply IH. intros r' d' m' x' Hr'. apply H. set_solver.
Qed.
Lemma num_flat t : sall num_char t = true -> sall flat t = true.
Proof. apply sall_impl. intros c H. destruct c as [[] [] [] [] [] [] [] []]; (reflexivity || (vm_compute in H; done)). Qed.

Lemma digits_sall s d r : digits s = (d, r) -> sall is_digit d = true.
Proof.
  revert d. induction s as [|c s IH]; intros d; cbn [digits]; [by intros [= <- _]|].
  destruct (is_digit c) eqn:E; [|by intros [= <- _]].
  destruct (digits s) as [d' r']. intros [= <- <-]. simpl. rewrite E. by apply IH.
Qed.
Lemma digits_num s d r : digits s = (d, r) -> sall num_char d = true.
Proof. intros H%digits_sall. eapply sall_impl; [|exact H]. unfold num_char. by intros c ->. Qed.
Lemma read_number_chars s v t r : read_number s = Some (v, t, r) -> sall num_char t = true.
Proof.
  unfold read_number. destruct (match s with String c s1 => _ | EmptyString => _ end) as [sign s1].
  destruct (digits s1) as [int s2] eqn:Ed. destruct (_ || _); [done|].
  destruct (read_frac s2) as [[frac s3]|] eqn:Ef; cbn; [|done].
  destruct (read_exp s3) as [[exp s4]|] eqn:Ee; cbn; [|done]. intros [= _ <- _]. rewrite !sall_app. rewrite (digits_num _ _ _ Ed).
  assert (sall num_char frac = true) as ->.
  { destruct s2 as [|c s2]; [by injection Ef as <- _|]. cbn in Ef. destruct (ascii_eqb c "."); [|by injection Ef as <- _].
    destruct (digits s2) as [d r'] eqn:E. destruct (d =? "")%string; [done|]. injection Ef as <- _.
    cbn. apply (digits_num _ _ _ E). }
  assert (sall num_char exp = true) as ->; [|by destruct sign].
  destruct s3 as [|c s3]; [by injection Ee as <- _|]. cbn in Ee.
  destruct (ascii_eqb c "e" || ascii_eqb c "E") eqn:Ec; [|by injection Ee as <- _].
  assert (num_char c = true) as Hc by (apply orb_true_iff in Ec as [->%ascii_eqb_eq| ->%ascii_eqb_eq]; done).
  destruct (match s3 with String d s2' => _ | EmptyString => _ end) as [sg s5] eqn:Es.
  destruct (digits s5) as [d r'] eqn:E. destruct (d =? "")%string; [done|]. injection Ee as <- _.
  cbn. rewrite Hc, sall_app, (digits_num _ _ _ E).
  destruct s3 as [|k s3]; [by injection Es as <- _|].
  destruct (ascii_eqb k "+" || ascii_eqb k "-") eqn:Ek; [|by injection Es as <- _]. injection Es as <- _.
  apply orb_true_iff in Ek as [->%ascii_eqb_eq| ->%ascii_eqb_eq]; done.
Qed.

Definition depth_at html (v : json) : Prop := readable v = true -> forall d m x, (0 <= d <= m)%Z ->
  max_depth false false d m (wire html v +:+ x) = max_depth false false d (Z.max m (d + depth v)) x.
Lemma foldr_max_nonneg {A} (dp : A -> Z) l : (0 <= foldr (fun a m => Z.max (dp a) m) 0 l)%Z.
Proof. induction l as [|x l IH]; simpl; lia. Qed.
Lemma depth_nonneg v : (0 <= depth v)%Z.
Proof.
  destruct v as [| | | | |l|fs]; cbn [depth]; try lia.
  - pose proof (foldr_max_nonneg depth l). lia.
  - pose proof (foldr_max_nonneg (fun f => depth f.2) fs). lia.
Qed.
Lemma depth_join {A} (w : A -> string) (dp : A -> Z) (l : list A) :
  Forall (fun a => (0 <= dp a)%Z /\ forall d m x, (0 <= d <= m)%Z ->
    max_depth false false d m (w a +:+ x) = max_depth false false d (Z.max m (d + dp a)) x) l ->
  forall d m x, (0 <= d <= m)%Z ->
    max_depth false false d m (Join (map w l) "," +:+ x)
    = max_depth false false d (Z.max m (d + foldr (fun a m => Z.max (dp a) m) 0 l)%Z) x.
Proof.
  induction 1 as [|a l [Hp Ha] Hl IH]; intros d m x Hd.
  - cbn. f_equal. lia.
  - destruct l as [|b l].
    + cbn [map Join]. rewrite Ha by done. cbn. f_equal. lia.
    + cbn [map]. rewrite Join_cons by done. rewrite !app_assoc_s, Ha by done.
      rewrite (depth_flat ",") by done. cbn [map] in IH. rewrite IH by lia. cbn. f_equal. lia.
Qed.
Lemma depth_all html v : depth_at html v.
Proof.
  induction v as [|b|z|t|s|l IH|fs IH] using json_ind'; intros Hr d m x Hd.
  - cbn [depth wire]. rewrite depth_flat by done. f_equal. lia.
  - cbn [depth wire]. rewrite depth_flat by (by destruct b). f_equal. lia.
  - cbn [depth wire]. rewrite depth_flat by (apply num_flat, itoa_num). f_equal. lia.
  - cbn [depth wire readable] in *. bsimp.
    match goal with H : read_number t = _ |- _ => apply read_number_chars in H end.
    rewrite depth_flat by (by apply num_flat). f_equal. lia.
  - cbn [depth wire]. rewrite depth_quote. f_equal. lia.
  - cbn [depth wire readable] in *. rewrite !app_assoc_s.
    rewrite forallb_Forall in Hr.
    match goal with |- max_depth _ _ _ _ ("[" +:+ ?s) = _ =>
      change (max_depth false false (d + 1) (Z.max m (d + 1)) s = max_depth false false d (Z.max m (d + depth (JArr l))) x) end.
    rewrite (depth_join (wire html) depth).
    2:{ rewrite Forall_forall in *. intros v Hv. split; [apply depth_nonneg|]. by apply IH, Hr. }
    2:{ lia. }
    pose proof (foldr_max_nonneg depth l). cbn. f_equal; lia.
  - cbn [depth wire readable] in *. rewrite !app_assoc_s. bsimp.
    match goal with H : forallb _ _ = true |- _ => rewrite forallb_Forall in H; rename H into Hf end.
    match goal with |- max_depth _ _ _ _ ("{" +:+ ?s) = _ =>
      change (max_depth false false (d + 1) (Z.max m (d + 1)) s = max_depth false false d (Z.max m (d + depth (JObj fs))) x) end.
    rewrite (depth_join (member_text html) (fun f => depth f.2)).
    2:{ rewrite Forall_forall in *. intros f Hfs. split; [apply depth_nonneg|]. intros d' m' x' Hd'.
        unfold member_text. rewrite !app_assoc_s, depth_quote, (depth_flat ":") by done. apply (IH f Hfs); [by apply Hf|done]. }
    2:{ lia. }
    pose proof (foldr_max_nonneg (fun f => depth f.2) fs). cbn. f_equal; lia.
Qed.

(** ** Documents *)
Lemma read_json_wire html v : readable v = true -> (depth v <= 10000)%Z ->
  read_json (wire html v) = Some (roundtrip_json v, wire html v).
Proof.
  intros Hr Hd. unfold read_json. rewrite <- (app_nil_r_s (wire html v)) at 1.
  rewrite (depth_all html v Hr) by lia. cbn [max_depth].
  assert ((10000 <? Z.max 0 (0 + depth v))%Z = false) as -> by (apply Z.ltb_ge; lia).
  rewrite <- (app_nil_r_s (wire html v)) at 2. rewrite reads_value by (done || lia). done.
Qed.
Lemma decode_wire html v : readable v = true -> (depth v <= 10000)%Z ->
  json_decode (wire html v) = Some (roundtrip_json v).
Proof. intros Hr Hd. unfold json_decode. by rewrite read_json_wire. Qed.
(** Without repeated keys there is nothing to overwrite. *)
Lemma mhas_keys m k : mhas m k = true <-> k ∈ m.*1.
Proof.
  induction m as [|[k1 v1] m IH]; cbn; [set_solver|]. rewrite orb_true_iff, String.eqb_eq, IH, elem_of_cons. done.
Qed.
Lemma last_wins_roundtrip v : readable v = true -> last_wins (roundtrip_json v) = roundtrip_json v.
Proof.
  induction v as [|x|x|x|x|l IH|l IH] using json_ind'; try done.
  - cbn. rewrite forallb_Forall. intros Hr. f_equal. rewrite map_map. apply map_ext_Forall.
    rewrite Forall_forall in *. auto.
  - cbn -[valid_utf8]. intros H. bsimp. f_equal. induction IH as [|f l Hf _ IH]; [done|]. cbn -[valid_utf8] in *. bsimp.
    match goal with H : NoDup (_ :: _) |- _ => apply NoDup_cons in H as [Hn Hnd] end.
    rewrite IH by done. unfold add_member.
    destruct (mhas _ _) eqn:E; [|by rewrite Hf]. destruct Hn. apply mhas_keys in E.
    apply list_elem_of_fmap in E as (g&Hg&Hin). apply list_elem_of_fmap in Hin as (h&->&Hh).
    apply list_elem_of_fmap. by exists h.
Qed.
Lemma unmarshal_wire html v : readable v = true -> (depth v <= 10000)%Z ->
  json_Unmarshal (wire html v) = Some (roundtrip_json v).
Proof. intros Hr Hd. unfold json_Unmarshal. rewrite decode_wire by done. cbn. by rewrite last_wins_roundtrip. Qed.
Lemma compact_wire html v : readable v = true -> (depth v <= 10000)%Z ->
  json_Compact (wire html v) = Some (wire html v).
Proof. intros Hr Hd. unfold json_Compact. by rewrite read_json_wire. Qed.

(** ** Stable texts *)
Lemma Forall_map_id {A} (f : A -> A) l : map f l = l <-> Forall (fun a => f a = a) l.
Proof.
  induction l as [|a l IH]; simpl; [by split|]. rewrite Forall_cons, <- IH. split; [by intros [= -> ->]|by intros [-> ->]].
Qed.
Lemma roundtrip_idemp v : roundtrip_json (roundtrip_json v) = roundtrip_json v.
Proof.
  induction v as [|x|x|x|x|l IH|l IH] using json_ind'; cbn -[valid_utf8]; try done.
  - by rewrite valid_utf8_idemp.
  - f_equal. rewrite map_map. by apply map_ext_Forall.
  - f_equal. rewrite map_map. apply map_ext_Forall. eapply Forall_impl; [exact IH|].
    intros f Hf. cbn -[valid_utf8]. by rewrite valid_utf8_idemp, Hf.
Qed.
(** Sorting keys keeps a tree of valid texts as it is for the decoder. *)
Lemma roundtrip_canon w : roundtrip_json w = w -> roundtrip_json (canon w) = canon w.
Proof.
  induction w as [|x|x|x|x|l IH|l IH] using json_ind'; try done.
  - cbn. intros [= Hl]. apply Forall_map_id in Hl. f_equal. rewrite map_map.
    apply map_ext_Forall. rewrite Forall_forall in *. auto.
  - rewrite canon_obj. cbn -[valid_utf8]. intros [= Hl]. apply Forall_map_id in Hl. f_equal. rewrite map_map.
    apply map_ext_Forall. rewrite Forall_forall in *. intros f Hf%elem_of_SliceStable. cbn -[valid_utf8].
    specialize (Hl f Hf). specialize (IH f Hf). destruct f as [k x]. cbn -[valid_utf8] in *.
    injection Hl as Hk Hx. by rewrite Hk, IH.
Qed.
Lemma readable_roundtrip v : readable v = true -> readable (roundtrip_json v) = true.
Proof.
  induction v as [|x|x|x|x|l IH|l IH] using json_ind'; try done.
  - cbn. rewrite !forallb_Forall, Forall_map, !Forall_forall. rewrite Forall_forall in IH. auto.
  - cbn -[valid_utf8]. intros H. bsimp. rewrite Forall_forall in IH.
    match goal with H : forallb _ _ = true |- _ => rewrite forallb_Forall, Forall_forall in H; rename H into Hf end.
    apply andb_true_iff. split.
    + apply bool_decide_eq_true. rewrite map_map. cbn -[valid_utf8].
      erewrite map_ext; [eassumption|]. intros f. cbn -[valid_utf8]. apply valid_utf8_idemp.
    + apply forallb_Forall, Forall_map, Forall_forall. intros f Hin. cbn. auto.
Qed.
Lemma readable_canon v : readable v = true -> readable (canon v) = true.
Proof.
  induction v as [|x|x|x|x|l IH|l IH] using json_ind'; try done.
  - cbn. rewrite !forallb_Forall, Forall_map, !Forall_forall. rewrite Forall_forall in IH. auto.
  - rewrite canon_obj. cbn [readable]. intros H. bsimp. rewrite Forall_forall in IH.
    match goal with H : forallb _ _ = true |- _ => rewrite forallb_Forall, Forall_forall in H; rename H into Hf end.
    apply andb_true_iff. split.
    + apply bool_decide_eq_true. rewrite map_map. cbn [fst].
      eapply NoDup_Permutation_proper; [|eassumption]. apply Permutation_map, SliceStable_perm.
    + apply forallb_Forall, Forall_map, Forall_forall. intros f Hin%elem_of_SliceStable. cbn. auto.
Qed.
Lemma foldr_max_perm {A} (dp : A -> Z) l k : l ≡ₚ k ->
  foldr (fun a m => Z.max (dp a) m) 0%Z l = foldr (fun a m => Z.max (dp a) m) 0%Z k.
Proof. induction 1; simpl; lia. Qed.
Lemma foldr_max_map {A B} (dp : B -> Z) (f : A -> B) (dq : A -> Z) l : Forall (fun a => dp (f a) = dq a) l ->
  foldr (fun a m => Z.max (dp a) m) 0%Z (map f l) = foldr (fun a m => Z.max (dq a) m) 0%Z l.
Proof. induction 1 as [|a l Ha _ IH]; simpl; [done|]. by rewrite Ha, IH. Qed.
Lemma depth_roundtrip v : depth (roundtrip_json v) = depth v.
Proof.
  induction v as [|x|x|x|x|l IH|l IH] using json_ind'; try done; cbn -[valid_utf8]; f_equal.
  - by apply (foldr_max_map depth).
  - by apply (foldr_max_map (fun f => depth f.2)).
Qed.
Lemma depth_canon v : depth (canon v) = depth v.
Proof.
  induction v as [|x|x|x|x|l IH|l IH] using json_ind'; try done.
  - cbn. f_equal. by apply (foldr_max_map depth).
  - rewrite canon_obj. cbn. f_equal. rewrite (foldr_max_map (fun f => depth f.2) _ (fun f => depth f.2)).
    + apply foldr_max_perm, SliceStable_perm.
    + rewrite Forall_forall in *. intros f Hf%elem_of_SliceStable. cbn. auto.
Qed.

(** A stable text decodes: to the tree it was written from with its keys
    sorted, the same value; and writing what was decoded gives the text again, so
    a checksum computed over a stored document is the one computed when it was
    written. *)
Theorem stable_text_roundtrip v : readable v = true -> (depth v <= 10000)%Z ->
  exists w, json_Unmarshal (StableStringify v) = Some w
    /\ json_equiv w (roundtrip_json v) /\ StableStringify w = StableStringify v
    /\ json_Compact (StableStringify v) = Some (StableStringify v).
Proof.
  intros Hr Hd. unfold StableStringify. rewrite wire_writeStable. set (w := canon (roundtrip_json v)).
  assert (readable w = true) as Hw by by apply readable_canon, readable_roundtrip.
  assert (depth w <= 10000)%Z as Hdw by (subst w; by rewrite depth_canon, depth_roundtrip).
  assert (roundtrip_json w = w) as Hrt by by apply roundtrip_canon, roundtrip_idemp.
  exists w. rewrite unmarshal_wire, compact_wire, Hrt by done. repeat split.
  - unfold json_equiv, w. apply canon_idemp.
  - unfold w. by rewrite wire_writeStable, canon_idemp.
Qed.
