(* ===== verification/SnapshotText.v ===== *)
(** * Reading a replication envelope (snapshot/serialize.go: Unmarshal)

    [json.Unmarshal] into the [Envelope] struct: keys match their fields without
    regard to case and are decoded in document order, a repeated key into the value
    the earlier one left. [uuid_text] is [uuid.UUID.UnmarshalText] of the google/uuid
    package, and [float_text] the float64 nearest to a decimal text. A time is read from
    the string's value; the library reads it between the quotes, so the two agree on
    strings written without escapes, the only ones [Marshal] writes for a time. *)

From S2P Require Import Prelude GoStrings Json JsonText Scrub RProxy Model Timestamp GoTime Identity Sha256 Snapshot.
From stdpp Require Import options.

Section unmarshal.
Context (uuid_text : string -> option uuid).
Context (float_text : string -> option string).

(** One field of a struct, its matching keys in document order. *)
Definition member {A} (m : gomap) (name : string) (dec : decoder A) (cur : A) : option A :=
  foldl (fun acc f => a ← acc; if foldName f.1 =? foldName name then dec f.2 a else Some a) (Some cur) m.

(** The digits of a number token; longer ones are kept as text by [read_number]. *)
Definition number_token (v : json) : option Z :=
  match v with
  | JNum z => Some z
  | JFloat t =>
      match t with
      | String c d => if ascii_eqb c "-" then if negb (d =? "") && sall is_digit d then Some (- dec_value 0 d)%Z else None
                      else if sall is_digit t then Some (dec_value 0 t) else None
      | EmptyString => None
      end
  | _ => None
  end.
(** [-0] is not an unsigned number. *)
Definition dec_uint (w : Z) : decoder Z := fun v cur =>
  match v with
  | JNull => Some cur
  | _ => z ← number_token v;
         if (0 <=? z)%Z && (z <? 2 ^ w)%Z && negb (bool_decide (v = JFloat "-0")) then Some z else None
  end.
Definition dec_int64 : decoder Z := fun v cur =>
  match v with
  | JNull => Some cur
  | _ => z ← number_token v; if (- 2 ^ 63 <=? z)%Z && (z <? 2 ^ 63)%Z then Some z else None
  end.
Definition dec_uuid : decoder uuid := fun v cur =>
  match v with JNull => Some cur | JStr s => uuid_text s | _ => None end.
Definition dec_time : decoder instant := fun v cur =>
  match v with JNull => Some cur | JStr s => time_Parse s | _ => None end.
Definition dec_any : decoder json := fun v _ => decode_numbers float_text (last_wins v).
(** A slice field: null is the nil slice. *)
Definition dec_list {A} (zero : A) (dec : decoder A) : decoder (option (list A)) := fun v _ =>
  match v with JNull => Some None | JArr l => l' ← mapM (fun x => dec x zero) l; Some (Some l') | _ => None end.

Definition dec_ingress : decoder Ingress := dec_struct (fun m cur =>
  v4 ← member m "ipv4" dec_string (IPv4 cur);
  v6 ← member m "ipv6" dec_string (IPv6 cur);
  Some (mkIngress v4 v6)).
Definition dec_secret : decoder ReplicatedSecret := dec_struct (fun m cur =>
  id ← member m "id" dec_uuid (RSID cur);
  purpose ← member m "purpose" dec_string (Purpose cur);
  envelope ← member m "envelope" dec_string (EnvelopeText cur);
  digest ← member m "digest" dec_string (Digest cur);
  Some (mkSecret id purpose envelope digest)).
Definition dec_owner : decoder ReplicatedOwner := dec_struct (fun m cur =>
  id ← member m "userId" dec_uuid (UserID cur);
  name ← member m "username" dec_string (OwnerName cur);
  hash ← member m "passwordHash" dec_string (PasswordHash cur);
  role ← member m "role" dec_string (OwnerRole cur);
  Some (mkOwner id name hash role)).
Definition zero_secret : ReplicatedSecret := mkSecret uuid_Nil "" "" "".
Definition zero_owner : ReplicatedOwner := mkOwner uuid_Nil "" "" "".
Definition dec_replicated : decoder ReplicatedFields := dec_struct (fun m cur =>
  configuration ← member m "configuration" dec_any (Configuration cur);
  secrets ← member m "secrets" (dec_list zero_secret dec_secret) (Secrets cur);
  owners ← member m "owners" (dec_list zero_owner dec_owner) (Owners cur);
  Some (mkReplicated configuration secrets owners)).
Definition dec_nodelocal : decoder NodeLocalFields := dec_struct (fun m cur =>
  ingress ← member m "ingress" dec_ingress (NLIngress cur);
  node ← member m "nodeId" dec_string (NodeID cur);
  role ← member m "role" dec_string (Role cur);
  generation ← member m "leadershipGeneration" (dec_uint 64) (NLGeneration cur);
  key ← member m "clusterKeyRef" (dec_ptr uuid_Nil dec_uuid) (ClusterKeyRef cur);
  Some (mkNodeLocal ingress node role generation key)).
Definition dec_transient : decoder TransientFields := dec_struct (fun m cur =>
  snapshot ← member m "snapshotVersion" (dec_uint 32) (SnapshotVersion cur);
  replication ← member m "replicationVersion" (dec_uint 32) (ReplicationVersion cur);
  source ← member m "sourcePrimaryId" dec_uuid (SourcePrimaryID cur);
  generation ← member m "leadershipGeneration" (dec_uint 64) (TGeneration cur);
  captured ← member m "capturedAt" dec_time (CapturedAt cur);
  Some (mkTransient snapshot replication source generation captured)).
Definition zero_envelope : Envelope :=
  mkEnvelope (mkTransient 0 0 uuid_Nil 0 zero_instant) (mkNodeLocal (mkIngress "" "") "" "" 0 None)
    (mkReplicated JNull None None) "" 0.
Definition dec_envelope : decoder Envelope := dec_struct (fun m cur =>
  transient ← member m "transient" dec_transient (Transient cur);
  nodelocal ← member m "nodeLocal" dec_nodelocal (NodeLocal cur);
  replicated ← member m "replicated" dec_replicated (Replicated cur);
  hash ← member m "contentHash" dec_string (ContentHash cur);
  version ← member m "hashVersion" dec_int64 (HashVersion cur);
  Some (mkEnvelope transient nodelocal replicated hash version)).

Inductive unmarshal_error : Type := ErrUnmarshal | ErrEnvelopeShape.
Definition Unmarshal (data : string) : result unmarshal_error Envelope :=
  match json_decode data with
  | None => Err ErrUnmarshal
  | Some v =>
      match dec_envelope v zero_envelope with
      | None => Err ErrUnmarshal
      | Some env =>
          if (SnapshotVersion (Transient env) =? 0)%Z && bool_decide (Configuration (Replicated env) = JNull)
          then Err ErrEnvelopeShape else Ok env
      end
  end.
End unmarshal.

(** An ISO-like stub of the two library parsers on the texts of the example. *)
Example unmarshal_example :
  Unmarshal Some Some
    ("{" +:+ q "transient" +:+ ":{" +:+ q "snapshotVersion" +:+ ":1," +:+ q "leadershipGeneration" +:+ ":18446744073709551615},"
     +:+ q "Replicated" +:+ ":{" +:+ q "configuration" +:+ ":{}," +:+ q "secrets" +:+ ":[]}," +:+ q "contentHash" +:+ ":" +:+ q "h" +:+ "}")
  = Ok (mkEnvelope (mkTransient 1 0 uuid_Nil (2 ^ 64 - 1) zero_instant) (mkNodeLocal (mkIngress "" "") "" "" 0 None)
          (mkReplicated (JObj []) (Some []) None) "h" 0).
Proof. by vm_compute. Qed.
Example unmarshal_shapes :
  map (Unmarshal Some Some)
    ["{}"; "[]"; "null"; "{" +:+ q "transient" +:+ ":{" +:+ q "snapshotVersion" +:+ ":1.0}}"]
  = [Err ErrEnvelopeShape; Err ErrUnmarshal; Err ErrEnvelopeShape; Err ErrUnmarshal].
Proof. by vm_compute. Qed.
