(* ===== verification/SnapshotTrip.v ===== *)
(** * An envelope over the wire

    What [Unmarshal] reads from a marshalled envelope is the envelope, its
    configuration up to the order of object fields, and its content hash still
    verifies: [VerifyHash] on the receiving side checks the primary's content and
    not an accident of serialization. *)

From S2P Require Import Prelude GoStrings GoTime StrFacts Json JsonFacts JsonText Scrub JsonRead RProxy Model Identity Kek Snapshot Transfer SnapshotFacts SnapshotText.
From stdpp Require Import options.

(** ** Objects up to the order of their fields *)
Definition cmap (m : gomap) : gomap := map (fun f => (f.1, canon f.2)) m.
Lemma cmap_keys m : (cmap m).*1 = m.*1.
Proof. unfold cmap. induction m as [|f m IH]; [done|]. simpl. by f_equal. Qed.
Lemma obj_equiv m m' : NoDup m.*1 -> json_equiv (JObj m) (JObj m') <-> cmap m ≡ₚ cmap m'.
Proof.
  intros Hn. unfold json_equiv. split.
  - cbn. intros [= H]. unfold cmap. rewrite <- (SliceStable_perm key_less), H. apply SliceStable_perm.
  - intros H. cbn. f_equal. apply sort_keys_perm; [|done]. change (NoDup (cmap m).*1). by rewrite cmap_keys.
Qed.

Section assoc.
Implicit Types m : gomap.
Lemma mget_nodup_perm m m' k : NoDup m.*1 -> m ≡ₚ m' -> mget m k = mget m' k.
Proof.
  intros Hn H. revert Hn. induction H as [|[k1 v1] m m' _ IH|[k1 v1] [k2 v2] m|m1 m2 m3 H1 IH1 H2 IH2]; intros Hn.
  - done.
  - cbn in *. apply NoDup_cons in Hn as [_ Hn]. by rewrite IH.
  - cbn in *. apply NoDup_cons in Hn as [Hn _]. destruct (String.eqb_spec k k1) as [->|]; [|done].
    destruct (String.eqb_spec k1 k2) as [->|]; [|done]. destruct Hn. left.
  - rewrite IH1 by done. apply IH2. by rewrite <- H1.
Qed.
Lemma mget_cmap m k : mget (cmap m) k = canon (mget m k).
Proof. induction m as [|[k' v] m IH]; [done|]. cbn. by destruct (k =? k'). Qed.
Lemma mdel_perm m m' k : m ≡ₚ m' -> mdel m k ≡ₚ mdel m' k.
Proof.
  unfold mdel. induction 1 as [|f m m' _ IH|f g m|m1 m2 m3 _ IH1 _ IH2]; simpl; [done| | |by rewrite IH1].
  - destruct (negb _); by rewrite IH.
  - destruct (negb (k =? f.1)), (negb (k =? g.1)); by try apply Permutation_swap.
Qed.
Lemma mdel_cmap m k : mdel (cmap m) k = cmap (mdel m k).
Proof. unfold mdel. induction m as [|[k' v] m IH]; [done|]. cbn. destruct (k =? k'); cbn; [done|by f_equal]. Qed.
Lemma mdel_id m k : k ∉ m.*1 -> mdel m k = m.
Proof.
  unfold mdel. induction m as [|[k' v] m IH]; [done|]. cbn. intros [Hk Hm]%not_elem_of_cons.
  rewrite (proj2 (String.eqb_neq k k')) by done. cbn. by rewrite IH.
Qed.
Lemma mset_del m k v : NoDup m.*1 -> mset m k v ≡ₚ (k, v) :: mdel m k.
Proof.
  induction m as [|[k' v'] m IH]; [done|]. cbn. intros [Hk Hm]%NoDup_cons.
  destruct (String.eqb_spec k k') as [<-|Hne]; cbn.
  - rewrite <- (mdel_id m k) at 1 by done. done.
  - rewrite IH by done. apply Permutation_swap.
Qed.
Lemma keys_mdel m k : NoDup m.*1 -> NoDup (mdel m k).*1.
Proof.
  unfold mdel. induction m as [|f m IH]; [done|]. cbn. intros [Hk Hm]%NoDup_cons.
  destruct (negb _); [|auto]. cbn. apply NoDup_cons. split; [|auto]. intros Hin. apply Hk.
  apply list_elem_of_fmap in Hin as (g&->&Hg). apply list_elem_of_fmap. exists g. split; [done|].
  apply list_elem_of_In in Hg. apply filter_In in Hg as [Hg _]. by apply list_elem_of_In.
Qed.
Lemma cmap_mset m k v : cmap (mset m k v) = mset (cmap m) k (canon v).
Proof. induction m as [|[k1 v1] m IH]; [done|]. cbn. destruct (k =? k1); cbn; [done|by f_equal]. Qed.
Lemma mset_keys m k v : NoDup m.*1 -> NoDup (mset m k v).*1.
Proof.
  intros H. rewrite mset_del by done. cbn. apply NoDup_cons. split; [|by apply keys_mdel].
  intros (f&Hf&Hin)%list_elem_of_fmap. apply list_elem_of_In in Hin. unfold mdel in Hin.
  apply filter_In in Hin as [_ Hin]. apply negb_true_iff, String.eqb_neq in Hin. done.
Qed.

(** Deleting and updating respect the equivalence. *)
Lemma mdel_equiv m m' k : NoDup m.*1 -> json_equiv (JObj m) (JObj m') -> json_equiv (JObj (mdel m k)) (JObj (mdel m' k)).
Proof.
  intros Hn H. apply obj_equiv in H; [|done]. apply obj_equiv; [by apply keys_mdel|].
  rewrite <- !mdel_cmap. by apply mdel_perm.
Qed.
Lemma equiv_obj m v : json_equiv (JObj m) v -> exists m', v = JObj m'.
Proof. destruct v; try discriminate. eauto. Qed.
Lemma mget_equiv m m' k : NoDup m.*1 -> json_equiv (JObj m) (JObj m') -> json_equiv (mget m k) (mget m' k).
Proof.
  intros Hn H. apply obj_equiv in H; [|done]. unfold json_equiv. rewrite <- !mget_cmap.
  apply mget_nodup_perm; [by rewrite cmap_keys|done].
Qed.
Lemma equiv_keys m m' : NoDup m.*1 -> json_equiv (JObj m) (JObj m') -> NoDup m'.*1.
Proof.
  intros Hn H. apply obj_equiv in H; [|done]. rewrite <- (cmap_keys m'), <- H. by rewrite cmap_keys.
Qed.
Lemma mset_equiv m m' k v v' : NoDup m.*1 -> json_equiv (JObj m) (JObj m') -> json_equiv v v' ->
  json_equiv (JObj (mset m k v)) (JObj (mset m' k v')).
Proof.
  intros Hn H Hv. pose proof (equiv_keys _ _ Hn H) as Hn'. apply obj_equiv in H; [|done].
  apply obj_equiv; [by apply mset_keys|]. rewrite !cmap_mset, !mset_del by (by rewrite cmap_keys).
  rewrite Hv. by rewrite (mdel_perm _ _ k H).
Qed.
Lemma update_map_equiv m m' k f : NoDup m.*1 -> json_equiv (JObj m) (JObj m') ->
  (forall s s', mget m k = JObj s -> json_equiv (JObj s) (JObj s') -> json_equiv (JObj (f s)) (JObj (f s'))) ->
  json_equiv (JObj (update_map m k f)) (JObj (update_map m' k f)).
Proof.
  intros Hn H Hf. unfold update_map. pose proof (mget_equiv _ _ k Hn H) as Hg.
  destruct (mget m k) as [| | | | | |s] eqn:E; cbn [as_map].
  7:{ destruct (equiv_obj _ _ Hg) as [s' E']. rewrite E' in *. cbn [as_map]. apply mset_equiv; auto. }
  all: destruct (mget m' k) as [| | | | | |s']; try done; by symmetry in Hg; apply equiv_obj in Hg as [??].
Qed.
End assoc.

(** ** The hashed text does not see the order of the configuration's fields *)
Lemma wf_keys m : wf_json (JObj m) = true -> readable (JObj m) = true -> NoDup m.*1.
Proof.
  cbn. intros Hw Hr. bsimp. match goal with H : NoDup _ |- _ => rename H into Hn end.
  assert (map (fun f => valid_utf8 f.1) m = m.*1) as He; [|by rewrite <- He].
  clear -Hw. induction m as [|f m IH]; [done|]. cbn in *. bsimp. f_equal; [|auto].
  by apply valid_utf8_id, utf8b_utf8.
Qed.
Lemma sub_mget (P : json -> bool) m k : P JNull = true -> forallb (fun f => P f.2) m = true -> P (mget m k) = true.
Proof. intros H0. induction m as [|[k1 v1] m IH]; [done|]. cbn. intros H. bsimp. destruct (k =? k1); auto. Qed.
Lemma sub_wf m : wf_json (JObj m) = true -> forallb (fun f => wf_json f.2) m = true.
Proof. cbn. induction m as [|f m IH]; [done|]. cbn. intros H. bsimp. by apply andb_true_iff; auto. Qed.
Lemma sub_readable m : readable (JObj m) = true -> forallb (fun f => readable f.2) m = true.
Proof. cbn. intros H. by bsimp. Qed.

Definition same_replicated (r r' : ReplicatedFields) : Prop :=
  json_equiv (Configuration r) (Configuration r') /\ Secrets r = Secrets r' /\ Owners r = Owners r'.
Definition without_ingress (cfg : json) : json :=
  match cfg with
  | JObj cfg => JObj (update_map cfg "settings" (fun settings => mdel settings "ingress"))
  | _ => cfg
  end.
Lemma without_ingress_equiv cfg cfg' : wf_json cfg = true -> readable cfg = true -> json_equiv cfg cfg' ->
  json_equiv (without_ingress cfg) (without_ingress cfg').
Proof.
  intros Hw Hr H. destruct cfg as [| | | | | |m].
  7:{ destruct (equiv_obj _ _ H) as [m' ->]. cbn [without_ingress].
      apply update_map_equiv; [by apply wf_keys|done|]. intros s s' E Hs. apply mdel_equiv; [|done].
      apply wf_keys; rewrite <- E; apply sub_mget; auto using sub_wf, sub_readable. }
  all: destruct cfg'; try done; by symmetry in H; apply equiv_obj in H as [??].
Qed.
Lemma fields_equiv cfg cfg' s o : json_equiv cfg cfg' ->
  json_equiv (JObj (replicated_fields cfg s o)) (JObj (replicated_fields cfg' s o)).
Proof. intros H. apply obj_equiv; [|cbn; by rewrite H]. apply (bool_decide_unpack _). by vm_compute. Qed.
Lemma drop_envelopes_fields cfg s o : drop_envelopes (replicated_fields cfg s o) =
  replicated_fields cfg (match s with JArr l => JArr (map drop_envelope l) | _ => s end) o.
Proof. by destruct s. Qed.
Lemma drop_ingress_without cfg s o : drop_ingress (replicated_fields cfg s o) = replicated_fields (without_ingress cfg) s o.
Proof. rewrite drop_ingress_fields. by destruct cfg. Qed.
Lemma hashed_value_equiv r r' v : wf_replicated r -> readable (Configuration r) = true -> same_replicated r r' ->
  json_equiv (hashed_value r v) (hashed_value r' v).
Proof.
  intros Hw Hr (Hc&Hs&Ho). assert (wf_json (Configuration r) = true) as Hwc.
  { unfold wf_replicated in Hw. cbn in Hw. by bsimp. }
  unfold hashed_value, stripped. rewrite !drop_ingress_without, !drop_envelopes_fields, <- Hs, <- Ho.
  repeat case_match; try (by apply fields_equiv, without_ingress_equiv).
  unfold replicated_tree. rewrite <- Hs, <- Ho. by apply (fields_equiv (Configuration r)).
Qed.
Lemma canonical_text_equiv r r' v t : wf_replicated r -> wf_replicated r' -> readable (Configuration r) = true ->
  same_replicated r r' -> canonical_text r v = Ok t -> canonical_text r' v = Ok t.
Proof.
  intros Hw Hw' Hr Hs Ht. assert (exists t', canonical_text r' v = Ok t') as [t' Ht'].
  { destruct Hs as (_&Hs&_). unfold canonical_text, secrets_of in *. rewrite <- Hs.
    repeat case_match; try done; eauto. }
  rewrite Ht'. apply canonical_text_value in Ht, Ht'; try done. subst. f_equal.
  rewrite !roundtrip_wf by (by apply hashed_value_wf).
  rewrite <- (writeStable_canon (hashed_value r' v)), <- (writeStable_canon (hashed_value r v)).
  f_equal. symmetry. by apply hashed_value_equiv.
Qed.

Lemma wf_canon v : wf_json v = true -> wf_json (canon v) = true.
Proof.
  induction v as [|x|x|x|x|l IH|l IH] using json_ind'; try done; [|rewrite canon_obj]; cbn;
    rewrite !forallb_Forall, Forall_map, !Forall_forall in *; intros H.
  - auto.
  - intros f Hf%elem_of_SliceStable. cbn. specialize (H f Hf). bsimp. apply andb_true_iff. auto.
Qed.

(** ** Reading the fields back *)
Section decode.
Context (uuid_text : string -> option uuid) (float_text : string -> option string).

Fixpoint floats_ok (v : json) : bool :=
  match v with
  | JFloat t => bool_decide (float_text t = Some t)
  | JArr l => forallb floats_ok l
  | JObj fs => forallb (fun f => floats_ok f.2) fs
  | _ => true
  end.
Lemma decode_numbers_id v : floats_ok v = true -> decode_numbers float_text v = Some v.
Proof.
  induction v as [|x|x|t|x|l IH|l IH] using json_ind'; try done; cbn.
  - intros H. bsimp. by rewrite H.
  - intros H. assert (mapM (decode_numbers float_text) l = Some l) as ->; [|done].
    induction IH as [|x l Hx _ IH]; [done|]. cbn in *. bsimp. by rewrite Hx, IH.
  - intros H. match goal with |- context [mapM ?g l] => assert (mapM g l = Some l) as ->; [|done] end.
    induction IH as [|[k x] l Hx _ IH]; [done|]. cbn in *. bsimp. rewrite Hx by done. cbn. by rewrite IH.
Qed.
Lemma floats_canon v : floats_ok v = true -> floats_ok (canon v) = true.
Proof.
  induction v as [|x|x|x|x|l IH|l IH] using json_ind'; try done; [|rewrite canon_obj]; cbn;
    rewrite !forallb_Forall, Forall_map, !Forall_forall in *; intros H.
  - auto.
  - intros f Hf%elem_of_SliceStable. cbn. auto.
Qed.

Lemma member_skip {A} m k v name (dec : decoder A) cur : (foldName k =? foldName name) = false ->
  member ((k, v) :: m) name dec cur = member m name dec cur.
Proof. intros H. unfold member. cbn [foldl fst snd mbind option_bind]. by rewrite H. Qed.
Lemma member_take {A} m k v name (dec : decoder A) cur a : (foldName k =? foldName name) = true -> dec v cur = Some a ->
  member ((k, v) :: m) name dec cur = member m name dec a.
Proof. intros H Hd. unfold member. cbn [foldl fst snd mbind option_bind]. by rewrite H, Hd. Qed.
Lemma member_nil {A} name (dec : decoder A) cur : member [] name dec cur = Some cur.
Proof. done. Qed.

Lemma dec_string_back s cur : utf8b s = true -> dec_string (JStr s) cur = Some s.
Proof. intros H%utf8b_utf8. cbn -[valid_utf8]. by rewrite valid_utf8_id. Qed.
Lemma dec_uint_back w z cur : (0 <= z < 2 ^ w)%Z -> dec_uint w (JNum z) cur = Some z.
Proof.
  intros H. cbn. rewrite (proj2 (Z.leb_le 0 z)), (proj2 (Z.ltb_lt z _)) by lia. done.
Qed.
Lemma dec_int64_back z cur : (- 2 ^ 63 <= z < 2 ^ 63)%Z -> dec_int64 (JNum z) cur = Some z.
Proof. intros H. cbn -[Z.pow]. rewrite (proj2 (Z.leb_le _ z)), (proj2 (Z.ltb_lt z _)) by lia. done. Qed.
Lemma dec_uuid_back u cur : uuid_text u = Some u -> dec_uuid uuid_text (JStr u) cur = Some u.
Proof. done. Qed.
Lemma dec_list_back {A} (zero : A) (dec : decoder A) (tree : A -> json) l cur :
  Forall (fun a => dec (canon (tree a)) zero = Some a) (default [] l) ->
  dec_list zero dec (canon (slice_tree tree l)) cur = Some l.
Proof.
  destruct l as [l|]; [|done]. cbn. intros H. rewrite map_map.
  assert (mapM (fun x => dec x zero) (map (fun x => canon (tree x)) l) = Some l) as ->; [|done].
  induction H as [|a l Ha _ IH]; [done|]. cbn. by rewrite Ha, IH.
Qed.

Ltac sort_step :=
  match goal with |- context [key_less (?k, ?x) (?l, ?y)] =>
    let r := eval vm_compute in (less_s k l) in change (key_less (k, x) (l, y)) with r; cbv iota; cbn [stable_insert]
  end.
Ltac dec_step :=
  first [ sort_step | rewrite member_nil | rewrite member_skip by (vm_compute; reflexivity)
        | erewrite member_take; [|vm_compute; reflexivity|
            first [ by apply dec_string_back | by apply dec_uuid_back | apply dec_uint_back; lia | apply dec_int64_back; lia
                  | eassumption ]]
        | progress cbn [mbind option_bind] ].

Lemma dec_ingress_back i : wf_json (ingress_tree i) = true ->
  dec_ingress (canon (ingress_tree i)) (mkIngress "" "") = Some i.
Proof.
  destruct i as [v4 v6]. unfold ingress_tree, omitempty. cbn [IPv4 IPv6].
  destruct (String.eqb_spec v4 ""), (String.eqb_spec v6 ""); subst; cbn -[utf8b member];
    intros H; bsimp; unfold dec_ingress, dec_struct; cbn [IPv4 IPv6]; repeat dec_step; done.
Qed.
Lemma dec_secret_back s : uuid_text (RSID s) = Some (RSID s) -> wf_json (secret_tree s) = true ->
  dec_secret uuid_text (canon (secret_tree s)) zero_secret = Some s.
Proof.
  destruct s as [id pu en di]. unfold secret_tree, omitempty. cbn [RSID Purpose EnvelopeText Digest]. intros Hid.
  destruct (String.eqb_spec di ""); subst; cbn -[utf8b member];
    intros H; bsimp; unfold dec_secret, dec_struct, zero_secret; cbn [RSID Purpose EnvelopeText Digest]; repeat dec_step; done.
Qed.
Lemma dec_owner_back o : uuid_text (UserID o) = Some (UserID o) -> wf_json (owner_tree o) = true ->
  dec_owner uuid_text (canon (owner_tree o)) zero_owner = Some o.
Proof.
  destruct o as [id na pw ro]. unfold owner_tree. cbn [UserID OwnerName PasswordHash OwnerRole]. intros Hid.
  cbn -[utf8b member]; intros H; bsimp; unfold dec_owner, dec_struct, zero_owner;
    cbn [UserID OwnerName PasswordHash OwnerRole]; repeat dec_step; done.
Qed.
Lemma dec_nodelocal_back n : wf_json (nodelocal_tree n) = true -> (0 <= NLGeneration n < 2 ^ 64)%Z ->
  match ClusterKeyRef n with Some u => uuid_text u = Some u | None => True end ->
  dec_nodelocal uuid_text (canon (nodelocal_tree n)) (NodeLocal zero_envelope) = Some n.
Proof.
  destruct n as [ing node role gen [key|]]; unfold nodelocal_tree; cbn [NLIngress NodeID Role NLGeneration ClusterKeyRef];
    intros H Hg Hk; assert (wf_json (ingress_tree ing) = true) as Hi by (cbn -[utf8b ingress_tree] in H; by bsimp);
    pose proof (dec_ingress_back ing Hi) as Hing; revert H;
    cbn -[utf8b member ingress_tree]; intros H; bsimp; unfold dec_nodelocal, dec_struct, zero_envelope;
    cbn [NodeLocal NLIngress NodeID Role NLGeneration ClusterKeyRef].
  - assert (dec_ptr uuid_Nil (dec_uuid uuid_text) (JStr key) None = Some (Some key)) as Hkey by (cbn; by rewrite Hk).
    repeat dec_step. done.
  - repeat dec_step. done.
Qed.
Lemma dec_transient_back t : wf_json (transient_tree t) = true ->
  (0 <= SnapshotVersion t < 2 ^ 32)%Z -> (0 <= ReplicationVersion t < 2 ^ 32)%Z -> (0 <= TGeneration t < 2 ^ 64)%Z ->
  uuid_text (SourcePrimaryID t) = Some (SourcePrimaryID t) ->
  (0 <= year_of (CapturedAt t) <= 9999)%Z ->
  dec_transient uuid_text (canon (transient_tree t)) (Transient zero_envelope) = Some t.
Proof.
  destruct t as [sv rv src gen cap]. unfold transient_tree.
  cbn [SnapshotVersion ReplicationVersion SourcePrimaryID TGeneration CapturedAt]. intros H Hs Hr Hg Hu Ht.
  assert (dec_time (JStr (rfc3339nano cap)) zero_instant = Some cap) as Hcap by (by apply time_Parse_format).
  revert H. cbn -[utf8b member rfc3339nano zero_instant]; intros H; bsimp. unfold dec_transient, dec_struct, zero_envelope;
    cbn [Transient SnapshotVersion ReplicationVersion SourcePrimaryID TGeneration CapturedAt]; repeat dec_step; done.
Qed.
Lemma dec_replicated_back r : wf_replicated r -> readable (Configuration r) = true -> floats_ok (Configuration r) = true ->
  Forall (fun s => uuid_text (RSID s) = Some (RSID s)) (secrets_of r) ->
  Forall (fun o => uuid_text (UserID o) = Some (UserID o)) (owners_of r) ->
  dec_replicated uuid_text float_text (canon (replicated_tree r)) (Replicated zero_envelope)
  = Some (mkReplicated (canon (Configuration r)) (Secrets r) (Owners r)).
Proof.
  destruct r as [cfg secrets owners]. unfold wf_replicated, replicated_tree, secrets_of, owners_of. cbn [Configuration Secrets Owners].
  intros H Hrd Hf Hs Ho.
  assert (wf_json (slice_tree secret_tree secrets) = true /\ wf_json (slice_tree owner_tree owners) = true) as [Hws Hwo].
  { cbn -[utf8b slice_tree] in H. by bsimp. }
  assert (dec_any float_text (canon cfg) JNull = Some (canon cfg)) as Hcfg.
  { unfold dec_any. rewrite <- (roundtrip_wf (canon cfg)) at 1 by (apply wf_canon; cbn -[utf8b slice_tree] in H; by bsimp).
    rewrite last_wins_roundtrip by (by apply readable_canon).
    rewrite roundtrip_wf by (apply wf_canon; cbn -[utf8b slice_tree] in H; by bsimp).
    apply decode_numbers_id. by apply floats_canon. }
  assert (dec_list zero_secret (dec_secret uuid_text) (canon (slice_tree secret_tree secrets)) None = Some secrets) as Hsec.
  { apply dec_list_back. destruct secrets as [l|]; [|constructor]. cbn -[wf_json] in *. cbn in Hws.
    rewrite forallb_Forall, Forall_map in Hws. rewrite Forall_forall in *. intros s Hin. apply dec_secret_back; auto. }
  assert (dec_list zero_owner (dec_owner uuid_text) (canon (slice_tree owner_tree owners)) None = Some owners) as Hown.
  { apply dec_list_back. destruct owners as [l|]; [|constructor]. cbn -[wf_json] in *. cbn in Hwo.
    rewrite forallb_Forall, Forall_map in Hwo. rewrite Forall_forall in *. intros s Hin. apply dec_owner_back; auto. }
  cbn -[utf8b member slice_tree dec_list]. unfold dec_replicated, dec_struct, zero_envelope;
    cbn [Replicated Configuration Secrets Owners]; repeat dec_step; done.
Qed.

(** What the three library parsers must do on the texts of an envelope. *)
Definition parses_back (e : Envelope) : Prop :=
  uuid_text (SourcePrimaryID (Transient e)) = Some (SourcePrimaryID (Transient e))
  /\ match ClusterKeyRef (NodeLocal e) with Some u => uuid_text u = Some u | None => True end
  /\ Forall (fun s => uuid_text (RSID s) = Some (RSID s)) (secrets_of (Replicated e))
  /\ Forall (fun o => uuid_text (UserID o) = Some (UserID o)) (owners_of (Replicated e))
  /\ floats_ok (Configuration (Replicated e)) = true.
Definition in_range_fields (e : Envelope) : Prop :=
  (0 <= SnapshotVersion (Transient e) < 2 ^ 32 /\ 0 <= ReplicationVersion (Transient e) < 2 ^ 32
   /\ 0 <= TGeneration (Transient e) < 2 ^ 64 /\ 0 <= NLGeneration (NodeLocal e) < 2 ^ 64
   /\ - 2 ^ 63 <= HashVersion e < 2 ^ 63 /\ 0 <= year_of (CapturedAt (Transient e)) <= 9999)%Z.
Definition received (e : Envelope) : Envelope :=
  mkEnvelope (Transient e) (NodeLocal e)
    (mkReplicated (canon (Configuration (Replicated e))) (Secrets (Replicated e)) (Owners (Replicated e)))
    (ContentHash e) (HashVersion e).

Lemma dec_envelope_back e : wf_json (envelope_tree e) = true -> readable (Configuration (Replicated e)) = true -> parses_back e -> in_range_fields e ->
  dec_envelope uuid_text float_text (canon (envelope_tree e)) zero_envelope = Some (received e).
Proof.
  intros Hw Hrd (Hu&Hk&Hs&Ho&Hf) (Hsv&Hrv&Htg&Hng&Hhv&Ht).
  assert (wf_json (transient_tree (Transient e)) = true /\ wf_json (nodelocal_tree (NodeLocal e)) = true
    /\ wf_replicated (Replicated e) /\ utf8b (ContentHash e) = true) as (Hwt&Hwn&Hwr&Hwh).
  { unfold wf_replicated. unfold envelope_tree in Hw.
    destruct (HashVersion e =? 0)%Z; cbn -[utf8b transient_tree nodelocal_tree replicated_tree] in Hw; by bsimp. }
  pose proof (dec_transient_back _ Hwt Hsv Hrv Htg Hu Ht) as Dt.
  pose proof (dec_nodelocal_back _ Hwn Hng Hk) as Dn.
  pose proof (dec_replicated_back _ Hwr Hrd Hf Hs Ho) as Dr.
  unfold envelope_tree, received. destruct (Z.eqb_spec (HashVersion e) 0) as [E|];
    cbn -[utf8b member transient_tree nodelocal_tree replicated_tree zero_envelope];
    unfold dec_envelope, dec_struct; change (ContentHash zero_envelope) with ""; change (HashVersion zero_envelope) with 0%Z;
    repeat dec_step; by rewrite ?E.
Qed.
End decode.

Lemma envelope_parts e : wf_json (envelope_tree e) = true -> readable (envelope_tree e) = true ->
  wf_replicated (Replicated e) /\ wf_replicated (Replicated (received e)) /\ readable (Configuration (Replicated e)) = true.
Proof.
  intros Hw Hr. assert (wf_replicated (Replicated e)) as Hwr.
  { unfold wf_replicated. unfold envelope_tree in Hw.
    destruct (HashVersion e =? 0)%Z; cbn -[utf8b transient_tree nodelocal_tree replicated_tree] in Hw; by bsimp. }
  split; [done|]. split.
  - clear Hr Hw. unfold wf_replicated, replicated_tree in *. cbn -[utf8b slice_tree] in *. bsimp.
    rewrite wf_canon by done. by repeat (apply andb_true_iff; split).
  - unfold envelope_tree in Hr. apply sub_readable in Hr. rewrite forallb_app in Hr. assert (readable (replicated_tree (Replicated e)) = true) as Hrr.
    { apply andb_true_iff in Hr as [Hr _]. cbn [forallb fst snd] in Hr. bsimp. assumption. }
    apply sub_readable in Hrr. cbn [forallb fst snd] in Hrr. bsimp. assumption.
Qed.
Lemma received_verifies e : wf_json (envelope_tree e) = true -> readable (envelope_tree e) = true ->
  same_replicated (Replicated e) (Replicated (received e)) -> classification_ok (received e) ->
  VerifyHash e = Ok tt -> VerifyHash (received e) = Ok tt.
Proof.
  intros Hw Hr Hs Hc (_&t&Ht&Hh)%VerifyHash_Ok. destruct (envelope_parts e Hw Hr) as (?&?&?).
  apply VerifyHash_Ok. split; [done|]. exists t. split; [|done]. by apply (canonical_text_equiv (Replicated e)).
Qed.

