(* ===== verification/Credentials.v ===== *)
(** * Node credentials (sync/credentials.go)

    The bearer a node presents to its primary: an identifier and 32 secret bytes in
    one canonical text. [uuid_Parse] is the google/uuid parser, giving the canonical
    text of what it accepts; the entropy is an argument of the generator. *)

From S2P Require Import Prelude GoStrings StrFacts Json JsonFacts JsonText JsonRead Sha256 AesGcm Kek GoTime Snapshot.
From stdpp Require Import options.

Definition NodeCredentialPrefix : string := "pcnode1".
Definition NodeCredentialSecretBytes : nat := 32.
Definition NodeCredentialSecretEncodedLen : nat := 43.
Definition NodeCredentialIDLen : nat := 36.
Definition NodeCredentialMaxBytes : nat :=
  String.length NodeCredentialPrefix + 1 + NodeCredentialIDLen + 1 + NodeCredentialSecretEncodedLen.
Definition NodeCredentialHashVersion : string := "sha256-node-v1".
Definition NodeCredentialHashDomain : string := "proxycore/node-credential/".
Definition nodeCredentialRedacted : string := "[node credential redacted]".

(** A destroyed credential has an empty secret. *)
Record NodeCredential := mkCredential { cid : string; secret : list Z }.
Record NodeCredentialRecord := mkCredentialRecord {
  CRID : string; CRNodeID : string; CRHash : string; CRHashVersion : string; CRRevokedAt : option instant }.
Record NodePrincipal := mkPrincipal { PNodeID : string; PCredentialID : string }.
Inductive credential_error : Type := ErrNodeCredentialDenied.
Abbreviation granted := (result credential_error).

(** [unicode.IsSpace] or [unicode.IsControl] of a rune, by its encoding. *)
Definition blank_rune (t : string) : bool :=
  match t with
  | String a EmptyString => ascii_space a || (code a <? 32)%Z || (code a =? 127)%Z
  | String a (String b EmptyString) => space2 a b || (code a =? 194)%Z && in_range 128 159 b
  | String a (String b (String c EmptyString)) => space3 a b c
  | _ => false
  end.
(** [utf8.ValidString], and no blank rune. *)
Definition printable_text (s : string) : bool :=
  forallb (fun r => match r with Some t => negb (blank_rune t) | None => false end) (runes s).
Definition isLowerHex (c : ascii) : bool := is_digit c || in_range 97 102 c.
(** [hex.DecodeString]. *)
Fixpoint hex_decode (s : string) : option (list Z) :=
  match s with
  | EmptyString => Some []
  | String a (String b s) => x ← hex_value a; y ← hex_value b; l ← hex_decode s; Some ((x * 16 + y)%Z :: l)
  | String _ EmptyString => None
  end.
Definition canonicalCredentialHash (value : string) : option (list Z) :=
  if negb (String.length value =? 64)%nat || negb (utf8b value) || negb (sall isLowerHex value) then None else
  decoded ← hex_decode value; if (length decoded =? 32)%nat then Some decoded else None.
Definition nodeCredentialDigest (secret : list Z) : list Z := Sum256 (NodeCredentialHashDomain +:+ string_of secret).

Definition intact (c : NodeCredential) : bool := (length (secret c) =? NodeCredentialSecretBytes)%nat.
Definition CopyBytes (c : NodeCredential) : option (list Z) := if intact c then Some (secret c) else None.
Definition BearerCopy (c : NodeCredential) : string :=
  if intact c then NodeCredentialPrefix +:+ "_" +:+ cid c +:+ "_" +:+ EncodeToString (secret c) else "".
Definition CredentialHash (c : NodeCredential) : string :=
  if intact c then hex_encode (nodeCredentialDigest (secret c)) else "".
Definition Destroy_credential (c : NodeCredential) : NodeCredential := mkCredential (cid c) [].

Section credentials.
Context (uuid_Parse : string -> option uuid).

Definition canonicalCredentialID (value : string) : option string :=
  if negb (String.length value =? NodeCredentialIDLen)%nat || negb (utf8b value) then None else
  parsed ← uuid_Parse value;
  if (parsed =? uuid_Nil) || negb (parsed =? value) then None else Some parsed.
Definition newNodeCredential (id : string) (secret : list Z) : granted NodeCredential :=
  match canonicalCredentialID id with
  | Some canonicalID =>
      if negb (length secret =? NodeCredentialSecretBytes)%nat then Err ErrNodeCredentialDenied
      else Ok (mkCredential canonicalID secret)
  | None => Err ErrNodeCredentialDenied
  end.
(** What the two reads of the entropy source give: an identifier, 32 bytes. *)
Definition generateNodeCredentialWithEntropy (id : option string) (random : option (list Z)) : granted NodeCredential :=
  match id, random with Some id, Some random => newNodeCredential id random | _, _ => Err ErrNodeCredentialDenied end.

Definition substring (lo hi : nat) (s : string) : string := take_s (hi - lo) (drop_s lo s).
Definition ParseNodeCredential (value : string) : granted NodeCredential :=
  if (NodeCredentialMaxBytes <? String.length value)%nat
     || negb (String.length value =? NodeCredentialMaxBytes)%nat || negb (utf8b value) then Err ErrNodeCredentialDenied
  else if negb (printable_text value) then Err ErrNodeCredentialDenied else
  let prefixEnd := String.length NodeCredentialPrefix in
  let idStart := prefixEnd + 1 in
  let idEnd := idStart + NodeCredentialIDLen in
  let secretStart := idEnd + 1 in
  if negb (take_s prefixEnd value =? NodeCredentialPrefix) || negb (substring prefixEnd idStart value =? "_")
     || negb (substring idEnd secretStart value =? "_") then Err ErrNodeCredentialDenied else
  match canonicalCredentialID (substring idStart idEnd value) with
  | None => Err ErrNodeCredentialDenied
  | Some canonicalID =>
      let encodedSecret := drop_s secretStart value in
      match DecodeString encodedSecret with
      | Some secret =>
          if negb (length secret =? NodeCredentialSecretBytes)%nat || negb (EncodeToString secret =? encodedSecret)
          then Err ErrNodeCredentialDenied else Ok (mkCredential canonicalID secret)
      | None => Err ErrNodeCredentialDenied
      end
  end.

(** [None] is a nil record. *)
Definition AuthenticateNodeCredential (presented : string) (record : option NodeCredentialRecord) : granted NodePrincipal :=
  match ParseNodeCredential presented, record with
  | Ok credential, Some record =>
      match canonicalCredentialID (CRID record) with
      | None => Err ErrNodeCredentialDenied
      | Some storedID =>
      if negb (storedID =? cid credential) then Err ErrNodeCredentialDenied else
      match canonicalCredentialID (CRNodeID record) with
      | None => Err ErrNodeCredentialDenied
      | Some storedNodeID =>
      if negb (CRHashVersion record =? NodeCredentialHashVersion) || bool_decide (is_Some (CRRevokedAt record))
      then Err ErrNodeCredentialDenied else
      match canonicalCredentialHash (CRHash record) with
      | None => Err ErrNodeCredentialDenied
      | Some storedHash =>
          if bool_decide (storedHash = nodeCredentialDigest (secret credential))
          then Ok (mkPrincipal storedNodeID (cid credential)) else Err ErrNodeCredentialDenied
      end end end
  | _, _ => Err ErrNodeCredentialDenied
  end.

(** ** One text per credential *)
Definition graphic (c : ascii) : bool := in_range 33 126 c.
(** An identifier the parser takes as it stands, 32 bytes. *)
Definition credential_ok (c : NodeCredential) : Prop :=
  length (secret c) = NodeCredentialSecretBytes /\ Forall is_byte (secret c) /\ canonicalCredentialID (cid c) = Some (cid c)
  /\ sall graphic (cid c) = true.

Lemma length_b64 l : String.length (EncodeToString l) = (length l * 4 + 2) / 3.
Proof.
  induction l as [|a|a b|a b c l IH] using triple_ind; [done..|]. cbn [EncodeToString String.length length]. rewrite IH.
  replace (S (S (S (length l))) * 4 + 2) with (length l * 4 + 2 + 4 * 3) by lia. rewrite Nat.div_add by lia. lia.
Qed.
Lemma substring_mid a b c : substring (String.length a) (String.length a + String.length b) (a +:+ b +:+ c) = b.
Proof.
  unfold substring. rewrite drop_s_app. replace (_ + _ - _) with (String.length b) by lia. apply take_s_app.
Qed.
Lemma take_s_length n s : n <= String.length s -> String.length (take_s n s) = n.
Proof. revert s. induction n as [|n IH]; intros [|c s]; cbn; try lia. intros H. by rewrite IH by lia. Qed.
Lemma drop_drop_s n m s : drop_s n (drop_s m s) = drop_s (m + n) s.
Proof. revert s. induction m as [|m IH]; intros [|c s]; cbn; try done. by destruct n. Qed.
Lemma drop_split n k s : drop_s n s = take_s k (drop_s n s) +:+ drop_s (n + k) s.
Proof. rewrite <- drop_drop_s. symmetry. apply take_drop_s. Qed.
Lemma split_text value :
  value = take_s 7 value +:+ substring 7 8 value +:+ substring 8 44 value +:+ substring 44 45 value +:+ drop_s 45 value.
Proof.
  rewrite <- (take_drop_s 7 value) at 1. f_equal. etransitivity; [apply (drop_split 7 1)|]. f_equal.
  etransitivity; [apply (drop_split 8 36)|]. f_equal. apply (drop_split 44 1).
Qed.
Lemma graphic_text s : sall graphic s = true -> utf8b s = true /\ printable_text s = true.
Proof.
  unfold utf8b, printable_text. induction s as [|c s IH]; [done|]. cbn [sall runes]. intros [Hc Hs]%andb_true_iff.
  unfold graphic, in_range in Hc. bsimp. rewrite (proj2 (Z.ltb_lt (code c) 128)) by lia. cbn [forallb].
  destruct (IH Hs) as [-> ->]. rewrite !andb_true_r. split; [done|]. apply negb_true_iff.
  unfold blank_rune, ascii_space, in_range, char.
  rewrite (proj2 (Z.eqb_neq _ 32)), (proj2 (Z.eqb_neq _ 127)), (proj2 (Z.ltb_ge _ 32)), (proj2 (Z.leb_gt _ 13)) by lia.
  by rewrite andb_false_r.
Qed.

(** An accepted text is the bearer of the credential it names. *)
Lemma Parse_Bearer value c : ParseNodeCredential value = Ok c -> intact c = true /\ value = BearerCopy c
  /\ canonicalCredentialID (cid c) = Some (cid c).
Proof.
  unfold ParseNodeCredential. destruct (_ || _ || _) eqn:E1; [done|]. destruct (negb (printable_text value)); [done|].
  cbv zeta. change (String.length NodeCredentialPrefix) with 7. unfold NodeCredentialIDLen. cbn [Nat.add].
  match goal with |- context [if ?b then _ else _] => destruct b eqn:E2; [done|] end.
  apply orb_false_iff in E2 as [[E2 E3]%orb_false_iff E4]. bsimp.
  destruct (canonicalCredentialID _) as [id|] eqn:Eid; [|done].
  destruct (DecodeString (drop_s 45 value)) as [sec|] eqn:Ed; [|done]. destruct (_ || _) eqn:E5; [done|].
  apply orb_false_iff in E5 as [E5 E6]. bsimp. intros [= <-]. unfold intact. cbn [secret cid]. unfold BearerCopy, intact. cbn [secret cid].
  rewrite E5. split; [done|].
  assert (id = substring 8 44 value) as Hid.
  { unfold canonicalCredentialID in Eid. destruct (_ || _); [done|]. destruct (uuid_Parse _) as [p|]; [|done]. cbn in Eid.
    destruct (_ || _) eqn:E7; [done|]. apply orb_false_iff in E7 as [_ E7]. bsimp. by injection Eid as <-. }
  subst id. split; [|done]. rewrite E6. rewrite (split_text value) at 1. by rewrite E2, E3, E4.
Qed.

(** The bearer text of a credential parses to it, and is the only text that does. *)
Theorem credential_roundtrip c value : credential_ok c ->
  ParseNodeCredential value = Ok c <-> value = BearerCopy c.
Proof.
  intros (Hl&Hb&Hid&Hp). split; [by intros (_&?&_)%Parse_Bearer|]. intros ->.
  assert (String.length (cid c) = 36) as Hcl.
  { unfold canonicalCredentialID in Hid. destruct (_ || _) eqn:E; [done|]. apply orb_false_iff in E as [E1 E2]. by bsimp. }
  assert (String.length (EncodeToString (secret c)) = 43) as Hel by (by rewrite length_b64, Hl).
  pose proof (Encode_chars _ Hb) as Hec. pose proof (Decode_Encode_b64 _ Hb) as Hdec.
  destruct c as [id sec]. cbn [cid secret] in *. unfold BearerCopy, intact. cbn [cid secret]. rewrite Hl.
  change (?n =? ?n)%nat with true. cbv iota. remember (EncodeToString sec) as enc eqn:Henc.
  set (v := NodeCredentialPrefix +:+ "_" +:+ id +:+ "_" +:+ enc).
  assert (String.length v = 88) as Hv by (subst v; rewrite !length_app_s, Hcl, Hel; done).
  assert (sall graphic v = true) as Hg.
  { subst v. rewrite !sall_app, Hp. cbn. eapply sall_impl; [|exact Hec]. intros ch H.
    destruct ch as [[] [] [] [] [] [] [] []]; (reflexivity || (vm_compute in H; done)). }
  destruct (graphic_text v Hg) as [Hu Hpt]. unfold ParseNodeCredential. rewrite Hv, Hu, Hpt. cbn [negb Nat.ltb Nat.leb orb Nat.eqb].
  cbv zeta. change (String.length NodeCredentialPrefix) with 7. unfold NodeCredentialIDLen. cbn [Nat.add].
  assert (take_s 7 v = NodeCredentialPrefix /\ substring 7 8 v = "_" /\ substring 44 45 v = "_" /\ substring 8 44 v = id
    /\ drop_s 45 v = enc) as (->&->&->&->&->).
  { subst v. repeat split.
    - pose proof (substring_mid (NodeCredentialPrefix +:+ "_" +:+ id) "_" enc) as H.
      rewrite !app_assoc_s, !length_app_s, Hcl in H. exact H.
    - pose proof (substring_mid (NodeCredentialPrefix +:+ "_") id ("_" +:+ enc)) as H.
      rewrite !app_assoc_s, Hcl in H. exact H.
    - pose proof (drop_s_app (NodeCredentialPrefix +:+ "_" +:+ id +:+ "_") enc) as H.
      rewrite !app_assoc_s, !length_app_s, Hcl in H. exact H. }
  rewrite Hid, Hdec, Hl, <- Henc, !String.eqb_refl. done.
Qed.

Lemma Authenticate_iff presented record p :
  AuthenticateNodeCredential presented (Some record) = Ok p <->
  exists c, ParseNodeCredential presented = Ok c /\ presented = BearerCopy c
  /\ canonicalCredentialID (CRID record) = Some (cid c) /\ canonicalCredentialID (CRNodeID record) = Some (PNodeID p)
  /\ PCredentialID p = cid c /\ CRHashVersion record = NodeCredentialHashVersion /\ CRRevokedAt record = None
  /\ canonicalCredentialHash (CRHash record) = Some (nodeCredentialDigest (secret c)).
Proof.
  unfold AuthenticateNodeCredential. split.
  - destruct (ParseNodeCredential presented) as [c|] eqn:Ep; [|done].
    destruct (canonicalCredentialID (CRID record)) as [i|] eqn:Ei; [|done]. destruct (negb (i =? cid c)) eqn:E1; [done|].
    destruct (canonicalCredentialID (CRNodeID record)) as [n|] eqn:En; [|done].
    destruct (_ || _) eqn:E2; [done|]. apply orb_false_iff in E2 as [E2 E3].
    destruct (canonicalCredentialHash (CRHash record)) as [h|] eqn:Eh; [|done].
    destruct (bool_decide (h = _)) eqn:E4; [|done]. intros [= <-]. bsimp. subst. exists c.
    pose proof (Parse_Bearer _ _ Ep) as (_&?&_). repeat split; try done.
    destruct (CRRevokedAt record); [by destruct E3|done].
  - intros (c&->&_&->&->&Hp&->&->&->). rewrite String.eqb_refl. cbn [negb orb].
    rewrite bool_decide_eq_false_2 by (by intros [? ?]). rewrite bool_decide_eq_true_2 by done.
    destruct p as [n i]. cbn in *. by subst.
Qed.

(** A request is authenticated exactly when it presents, for a record that is not
    revoked, the bearer of a credential with the record's identifier whose digest is the
    stored hash; the principal names the record's node. *)
Theorem AuthenticateNodeCredential_iff presented record p :
  AuthenticateNodeCredential presented (Some record) = Ok p <->
  exists c, ParseNodeCredential presented = Ok c /\ presented = BearerCopy c
  /\ canonicalCredentialID (CRID record) = Some (cid c) /\ canonicalCredentialID (CRNodeID record) = Some (PNodeID p)
  /\ PCredentialID p = cid c /\ CRHashVersion record = NodeCredentialHashVersion /\ CRRevokedAt record = None
  /\ canonicalCredentialHash (CRHash record) = Some (nodeCredentialDigest (secret c)).
Proof. apply Authenticate_iff. Qed.
End credentials.

(** The digest text a record stores decodes to the digest. *)
Lemma hex_decode_encode l : Forall is_byte l -> hex_decode (hex_encode l) = Some l.
Proof.
  assert (forall b, is_byte b -> (x ← hex_value (hex_digit (b / 16)); y ← hex_value (hex_digit (b mod 16)); Some (x * 16 + y)%Z) = Some b) as Hb.
  { intros b Hb. assert (b ∈ seqZ 0 256) as Hin by (apply elem_of_seqZ; unfold is_byte in Hb; lia). clear Hb. revert b Hin.
    apply Forall_forall. apply (bool_decide_unpack _). by vm_compute. }
  induction 1 as [|b l Hx _ IH]; [done|]. specialize (Hb b Hx). cbn [hex_encode foldr hex_decode].
  destruct (hex_value (hex_digit (b / 16))) as [x|]; [|done]. cbn [mbind option_bind] in *.
  destruct (hex_value (hex_digit (b mod 16))) as [y|]; [|done]. cbn [mbind option_bind] in *. injection Hb as Hb.
  change (foldr _ "" l) with (hex_encode l). by rewrite IH, <- Hb.
Qed.
Lemma lower_graphic c : is_digit c || in_range 97 102 c = true -> graphic c = true.
Proof. destruct c as [[] [] [] [] [] [] [] []]; vm_compute; done. Qed.
Lemma stored_hash c : intact c = true -> canonicalCredentialHash (CredentialHash c) = Some (nodeCredentialDigest (secret c)).
Proof.
  intros Hc. unfold CredentialHash. rewrite Hc. unfold nodeCredentialDigest, Sum256, digest_bytes.
  set (d := sha256_digest _). set (l := concat _).
  assert (Forall (fun b => 0 <= b < 256)%Z l /\ length l = 32) as [Hf Hl].
  { subst l. cbn [map concat]. rewrite !Forall_app, !length_app.
    pose proof (fun z => proj1 (be_bytes_ok 4 z)) as H1. pose proof (fun z => proj2 (be_bytes_ok 4 z)) as H2.
    rewrite !H2. repeat split; auto. }
  destruct (hex_encode_ok l Hf) as [H1 H2]. unfold canonicalCredentialHash.
  rewrite (hex_decode_encode l Hf). rewrite H1, Hl. unfold isLowerHex. rewrite H2.
  rewrite (proj1 (graphic_text (hex_encode l) ltac:(eapply sall_impl; [exact lower_graphic|exact H2]))). done.
Qed.
