(* ===== verification/SnapshotClient.v ===== *)
(** * The node's snapshot transport (sync/snapshot_client.go)

    A conditional GET with bounded retries, and the acknowledgement. The history
    records each exchange and each wait; what the network answers is a function of
    it. Of a transport error only its classification matters; a body is the bytes it
    delivers and whether reading then fails; of the header, the two fields read. *)

From S2P Require Import Prelude Effects GoStrings GoTime StrFacts Json JsonFacts JsonText Scrub RProxy SnapshotText Snapshot Kek Credentials.
From stdpp Require Import options.

Definition NodeUnlinkedSignalCode : string := "NODE_UNLINKED".
Definition maxUnlinkedBodyBytes : Z := 1024.

Inductive client_error : Type :=
| ErrSnapshotClientUnauthorized | ErrSnapshotClientGone | ErrSnapshotClientUnlinked | ErrSnapshotClientNotFound
| ErrSnapshotClientUnavailable | ErrSnapshotClientInvalid | ErrSnapshotClientUntrusted.
#[global] Instance client_error_eq_dec : EqDecision client_error.
Proof. solve_decision. Defined.
Abbreviation fetched := (result client_error).

Record body := mkBody { b_bytes : string; b_fails : bool }.
(** [io.ReadAll(io.LimitReader(body, n))]. *)
Definition ReadLimited (n : Z) (b : body) : option string :=
  if (n <=? slen (b_bytes b))%Z then Some (take_s (Z.to_nat n) (b_bytes b))
  else if b_fails b then None else Some (b_bytes b).
Record http_response := mkHTTPResponse {
  ProtoMajor : Z; StatusCode : Z; Body : option body; HashHeader : string; AppliedAtHeader : string }.
Record transport_error := mkTransportError { untrusted_certificate : bool; tls_failure : bool }.
Definition exchange := result transport_error http_response.

Inductive client_event : Type := EvDo (answer : exchange) | EvWait (delay : Z) (completed : bool).
Abbreviation client := (prog client_event).

Record SnapshotFetchResult := mkFetch { NotModified : bool; FBody : string; FContentHash : string; FAppliedAt : instant }.
Definition zero_fetch : SnapshotFetchResult := mkFetch false "" "" zero_instant.

(** [validSnapshotHash] of publisher.go. *)
Definition validSnapshotHash (value : string) : bool :=
  (slen value =? 64)%Z && (ToLower value =? value) && bool_decide (is_Some (hex_decode value)).

(** An attempt number past the first doubles the delay, up to the largest duration. *)
Definition MaxDuration : Z := 2 ^ 63 - 1.
Fixpoint doubled (n : nat) (d : Z) : Z :=
  match n with
  | O => d
  | S n => if (MaxDuration / 2 <? d)%Z then MaxDuration else doubled n (d * 2)%Z
  end.
Definition snapshotBackoff (initial attempt : Z) : Z :=
  if (attempt <=? 1)%Z then initial else doubled (Z.to_nat (attempt - 1)) initial.

Definition gonePrimaryError (b : option body) : client_error :=
  match b with
  | None => ErrSnapshotClientGone
  | Some b =>
      match ReadLimited (maxUnlinkedBodyBytes + 1) b with
      | Some raw =>
          if (raw =? "") || (maxUnlinkedBodyBytes <? slen raw)%Z then ErrSnapshotClientGone else
          match (v ← json_decode raw; dec_struct (fun m cur => member m "code" dec_string cur) v "") with
          | Some code => if code =? NodeUnlinkedSignalCode then ErrSnapshotClientUnlinked else ErrSnapshotClientGone
          | None => ErrSnapshotClientGone
          end
      | None => ErrSnapshotClientGone
      end
  end.

Section client.
(** What the network answers to the next request, and whether a wait completes. *)
Context (Do : list client_event -> exchange) (sleep : list client_event -> Z -> bool).
(** The client's settings, and whether the request has a body and can replay it. *)
Context (maxBodyBytes retryableErrors backoff : Z).

Definition snapshotResponseMetadata (hash appliedAt : string) : option SnapshotFetchResult :=
  if negb (validSnapshotHash hash) then None else
  t ← time_Parse appliedAt;
  if (t =? zero_instant)%Z then None else Some (mkFetch false "" hash t).

(** The result, and whether to try again. *)
Definition handleSnapshotResponse (response : option http_response) (allowNotModified : bool)
    : bool * fetched SnapshotFetchResult :=
  match response with
  | None => (true, Err ErrSnapshotClientUnavailable)
  | Some r =>
      let code := StatusCode r in
      if (ProtoMajor r =? 1)%Z || (negb (ProtoMajor r =? 0)%Z && negb (ProtoMajor r =? 2)%Z)
      then (false, Err ErrSnapshotClientInvalid)
      else if (500 <=? code)%Z && (code <=? 599)%Z then (true, Err ErrSnapshotClientUnavailable)
      else if (code =? 401)%Z || (code =? 403)%Z then (false, Err ErrSnapshotClientUnauthorized)
      else if (code =? 410)%Z then (false, Err (gonePrimaryError (Body r)))
      else if (code =? 404)%Z then (false, Err ErrSnapshotClientNotFound)
      else if (code =? 204)%Z then (false, Err ErrSnapshotClientUnavailable)
      else if (code =? 304)%Z && allowNotModified then
        match snapshotResponseMetadata (HashHeader r) (AppliedAtHeader r) with
        | Some meta => (false, Ok (mkFetch true (FBody meta) (FContentHash meta) (FAppliedAt meta)))
        | None => (false, Err ErrSnapshotClientInvalid)
        end
      else if negb (code =? 200)%Z then (false, Err ErrSnapshotClientInvalid)
      else match Body r with
      | None => (false, Err ErrSnapshotClientInvalid)
      | Some b =>
          match ReadLimited (maxBodyBytes + 1) b with
          | None => (true, Err ErrSnapshotClientUnavailable)
          | Some text =>
              if (maxBodyBytes <? slen text)%Z || (text =? "") then (false, Err ErrSnapshotClientInvalid)
              else if negb (HashHeader r =? "") || negb (AppliedAtHeader r =? "") then
                match snapshotResponseMetadata (HashHeader r) (AppliedAtHeader r) with
                | Some meta => (false, Ok (mkFetch false text (FContentHash meta) (FAppliedAt meta)))
                | None => (false, Err ErrSnapshotClientInvalid)
                end
              else (false, Ok (mkFetch false text "" zero_instant))
          end
      end
  end.

Definition wait (attempt : Z) : client bool :=
  if (backoff <=? 0)%Z then mret true
  else call (fun h => sleep h (snapshotBackoff backoff attempt)) (EvWait (snapshotBackoff backoff attempt)).

(** [remaining] counts the attempts from this one; [replayable] is false when the request
    has a body that [GetBody] cannot give again. *)
Fixpoint fetch_loop (replayable allowNotModified : bool) (attempts : Z) (remaining : nat) (attempt : Z)
    : client (fetched SnapshotFetchResult) :=
  match remaining with
  | O => mret (Err ErrSnapshotClientUnavailable)
  | S remaining =>
      if (1 <? attempt)%Z && negb replayable then mret (Err ErrSnapshotClientUnavailable) else
      response ← call Do EvDo;
      let again :=
        if (attempt =? attempts)%Z then mret (Err ErrSnapshotClientUnavailable) else
        completed ← wait attempt;
        if completed : bool then fetch_loop replayable allowNotModified attempts remaining (attempt + 1)
        else mret (Err ErrSnapshotClientUnavailable) in
      match response with
      | Err e =>
          if untrusted_certificate e then mret (Err ErrSnapshotClientUntrusted)
          else if tls_failure e then mret (Err ErrSnapshotClientInvalid) else again
      | Ok r => let '(retry, res) := handleSnapshotResponse (Some r) allowNotModified in if retry : bool then again else mret res
      end
  end.
Definition fetchWithRetries (replayable allowNotModified : bool) : client (fetched SnapshotFetchResult) :=
  let attempts := if (retryableErrors <=? 0)%Z then 1%Z else retryableErrors in
  fetch_loop replayable allowNotModified attempts (Z.to_nat attempts) 1.

(** The checks before the request: a cancelled context, the origin, the bearer. *)
Context (canonicalURL : string -> option string) (validSnapshotClientOrigin : string -> bool).
Context (uuid_Parse : string -> option uuid).
Definition snapshotBearer (value : string) : option string :=
  match ParseNodeCredential uuid_Parse value with
  | Ok credential => let bearer := BearerCopy credential in if bearer =? "" then None else Some bearer
  | Err _ => if (String.length value =? NodeCredentialSecretBytes)%nat
             then Some (EncodeToString (Sha256.bytes_of value)) else None
  end.
Definition request_ready (cancelled : bool) (primaryURL credential : string) : fetched (string * string) :=
  ensure (negb (credential =? "")) ErrSnapshotClientInvalid;;
  ensure (negb cancelled) ErrSnapshotClientUnavailable;;
  match canonicalURL primaryURL with
  | Some normalized =>
      ensure (validSnapshotClientOrigin normalized) ErrSnapshotClientInvalid;;
      match snapshotBearer credential with
      | Some bearer => mret (normalized, bearer)
      | None => Err ErrSnapshotClientInvalid
      end
  | None => Err ErrSnapshotClientInvalid
  end.
(** The request is the endpoint and the bearer; the network sees it through [Do]. *)
Definition snapshotPublicationHTTPPath : string := "/api/topology/sync/snapshot".
Definition snapshotAcknowledgementHTTPPath : string := "/api/topology/sync/acknowledge".
Definition fetch_endpoint (normalized after : string) : string :=
  TrimRightChar normalized "/" +:+ snapshotPublicationHTTPPath +:+ (if after =? "" then "" else "?after=" +:+ after).
Definition FetchSnapshotIfChanged (cancelled : bool) (primaryURL credential after : string)
    : client (fetched SnapshotFetchResult) :=
  if negb (after =? "") && negb (validSnapshotHash after) then mret (Err ErrSnapshotClientInvalid) else
  match request_ready cancelled primaryURL credential with
  | Err e => mret (Err e)
  | Ok _ => fetchWithRetries true (negb (after =? ""))
  end.
Definition FetchSnapshot (cancelled : bool) (primaryURL credential : string) : client (fetched string) :=
  match request_ready cancelled primaryURL credential with
  | Err e => mret (Err e)
  | Ok _ => r ← fetchWithRetries true false; mret (FBody <$> r)
  end.

Definition ack_status (r : http_response) : fetched unit :=
  let code := StatusCode r in
  if negb (ProtoMajor r =? 2)%Z then Err ErrSnapshotClientInvalid
  else if (code =? 410)%Z then Err (gonePrimaryError (Body r))
  else if (code =? 204)%Z || (code =? 200)%Z then Ok tt
  else if (code =? 401)%Z || (code =? 403)%Z then Err ErrSnapshotClientUnauthorized
  else if (500 <=? code)%Z && (code <=? 599)%Z then Err ErrSnapshotClientUnavailable
  else Err ErrSnapshotClientInvalid.
Definition AcknowledgeSnapshot (cancelled : bool) (primaryURL credential nodeID contentHash : string) (appliedAt : instant)
    : client (fetched unit) :=
  if (credential =? "") || (nodeID =? "") || negb (validSnapshotHash contentHash) || (appliedAt =? zero_instant)%Z
  then mret (Err ErrSnapshotClientInvalid) else
  match request_ready cancelled primaryURL credential with
  | Err e => mret (Err e)
  | Ok _ =>
      response ← call Do EvDo;
      mret (match response with
        | Err e => if tls_failure e then Err ErrSnapshotClientInvalid else Err ErrSnapshotClientUnavailable
        | Ok r => ack_status r
        end)
  end.
End client.
