(* ===== verification/SnapshotClientFacts.v ===== *)
(** * Facts about the snapshot transport

    Every fetch ends after a bounded number of exchanges, and what it returns is
    decided by the last of them. *)

From S2P Require Import Prelude Effects GoStrings GoTime StrFacts Json JsonText RProxy Snapshot SnapshotText Credentials SnapshotClient.
From stdpp Require Import options.

(** Follow a chain of early returns. *)
Ltac guards H :=
  repeat match type of H with
  | (if ?b then _ else _) = _ => destruct b eqn:?; [first [discriminate H|idtac]|]
  end.

(** ** Delays *)
Lemma doubled_spec n d : (0 <= d <= MaxDuration)%Z -> doubled n d = Z.min (d * 2 ^ Z.of_nat n) MaxDuration.
Proof.
  unfold MaxDuration. revert d. induction n as [|n IH]; intros d Hd; cbn [doubled]; [cbn; lia|].
  unfold MaxDuration in *. rewrite Nat2Z.inj_succ, Z.pow_succ_r by lia.
  assert (1 <= 2 ^ Z.of_nat n)%Z as Hp by (pose proof (Z.pow_pos_nonneg 2 (Z.of_nat n)); lia).
  destruct (Z.ltb_spec ((2 ^ 63 - 1) / 2) d) as [H|H]; Z.div_mod_to_equations; [nia|].
  rewrite IH by lia. f_equal. nia.
Qed.
(** The delay before attempt [n + 1] is the initial one doubled [n - 1] times, up to
    the largest duration: the multiplication never wraps. *)
Lemma snapshotBackoff_spec initial attempt : (0 <= initial <= MaxDuration)%Z -> (1 <= attempt)%Z ->
  snapshotBackoff initial attempt = Z.min (initial * 2 ^ (attempt - 1)) MaxDuration.
Proof.
  intros Hi Ha. unfold snapshotBackoff. destruct (Z.leb_spec attempt 1) as [H|H].
  - assert (attempt = 1%Z) as -> by lia. cbn. lia.
  - rewrite doubled_spec by done. by rewrite Z2Nat.id by lia.
Qed.

(** ** Retries *)
Section retries.
Context (Do : list client_event -> exchange) (sleep : list client_event -> Z -> bool).
Context (maxBodyBytes retryableErrors backoff : Z).

Definition exchanges (X : list client_event) : list exchange :=
  omap (fun e => match e with EvDo x => Some x | EvWait _ _ => None end) X.
(** Whether an exchange is tried again, and what it decides when it is not. *)
Definition transient (anm : bool) (x : exchange) : bool :=
  match x with
  | Err e => negb (untrusted_certificate e) && negb (tls_failure e)
  | Ok r => (handleSnapshotResponse maxBodyBytes (Some r) anm).1
  end.
Definition decided (anm : bool) (x : exchange) : fetched SnapshotFetchResult :=
  match x with
  | Err e => if untrusted_certificate e then Err ErrSnapshotClientUntrusted else Err ErrSnapshotClientInvalid
  | Ok r => (handleSnapshotResponse maxBodyBytes (Some r) anm).2
  end.

(** All but the last exchange were worth a retry; the last one decides, or the
    attempts, the context or the request's body gave out. *)
Definition fetch_post (replayable anm : bool) (budget : nat) (X : list client_event) (res : fetched SnapshotFetchResult) : Prop :=
  exists before last, exchanges X = before ++ [last] /\ Forall (fun x => transient anm x = true) before
  /\ length before < budget
  /\ (transient anm last = false /\ res = decided anm last
      \/ transient anm last = true /\ res = Err ErrSnapshotClientUnavailable
         /\ (S (length before) = budget \/ replayable = false \/ exists d, EvWait d false ∈ X)).

Lemma exchanges_app X Y : exchanges (X ++ Y) = exchanges X ++ exchanges Y.
Proof. apply omap_app. Qed.
Lemma wait_run attempt h : from (wait sleep backoff attempt) h (fun X b =>
  exchanges X = [] /\ (b = false -> exists d, EvWait d false ∈ X)).
Proof.
  unfold wait. destruct (backoff <=? 0)%Z; [by apply from_ret|].
  apply from_call. split; [done|]. intros ->. eexists. by left.
Qed.

Lemma fetch_loop_run replayable anm attempts : forall remaining attempt h, (1 <= attempt)%Z ->
  (attempt + Z.of_nat remaining = attempts + 1)%Z -> 0 < remaining -> (attempt = 1%Z \/ replayable = true) ->
  from (fetch_loop Do sleep maxBodyBytes backoff replayable anm attempts remaining attempt) h
    (fetch_post replayable anm remaining).
Proof.
  induction remaining as [|n IH]; intros attempt h Ha Hn Hpos Hr; [lia|]. cbn [fetch_loop].
  destruct ((1 <? attempt)%Z && negb replayable) eqn:E.
  { exfalso. bsimp. destruct Hr as [->| ->]; [lia|done]. }
  from_step. apply from_call. cbv beta zeta.
  assert (Hagain : forall x, transient anm x = true ->
    from (if (attempt =? attempts)%Z then mret (Err ErrSnapshotClientUnavailable)
          else completed ← wait sleep backoff attempt;
               if completed : bool
               then fetch_loop Do sleep maxBodyBytes backoff replayable anm attempts n (attempt + 1)
               else mret (Err ErrSnapshotClientUnavailable))
      (h ++ [EvDo x]) (fun Y b => fetch_post replayable anm (S n) ([EvDo x] ++ Y) b)).
  { intros x Hx. destruct (Z.eqb_spec attempt attempts) as [He|He].
    - apply from_ret. exists [], x. repeat split; [constructor|cbn; lia|]. right. repeat split; [done|]. left. cbn. lia.
    - from_step. eapply from_mono; [apply wait_run|]. intros X [] [HX Hfalse].
      + destruct replayable.
        2:{ destruct n as [|n]; [lia|]. cbn [fetch_loop]. rewrite (proj2 (Z.ltb_lt 1 _)) by lia. apply from_ret.
            exists [], x. rewrite app_nil_r, !exchanges_app, HX. repeat split; [constructor|cbn; lia|]. right.
            repeat split; [done|]. right. by left. }
        eapply from_mono; [apply IH; [lia|lia|lia|by right]|]. intros Y b (before&last&HY&Hb&Hl&Hd).
        exists (x :: before), last. rewrite !exchanges_app, HX, HY. repeat split; [by constructor|cbn; lia|].
        destruct Hd as [?|(H1&H2&H3)]; [by left|right]. split; [done|]. split; [done|].
        destruct H3 as [H3|[H3|[d H3]]]; [left; cbn; lia|done|].
        right. right. exists d. rewrite !elem_of_app. auto.
      + apply from_ret. exists [], x. rewrite app_nil_r, !exchanges_app, HX. repeat split; [constructor|cbn; lia|].
        right. repeat split; [done|]. right. right. destruct (Hfalse eq_refl) as [d Hd]. exists d. rewrite elem_of_app. auto. }
  destruct (Do h) as [r|e] eqn:Ed.
  - specialize (Hagain (Ok r)). unfold transient in Hagain at 1.
    destruct (handleSnapshotResponse maxBodyBytes (Some r) anm) as [retry res] eqn:Eh. cbn [fst] in Hagain.
    destruct retry; [by apply Hagain|]. apply from_ret.
    exists [], (Ok r). repeat split; [constructor|cbn; lia|]. left. unfold transient, decided. by rewrite Eh.
  - specialize (Hagain (Err e)). unfold transient in Hagain at 1.
    destruct (untrusted_certificate e) eqn:Eu; [|destruct (tls_failure e) eqn:Et].
    + apply from_ret. exists [], (Err e). repeat split; [constructor|cbn; lia|]. left. unfold transient, decided. by rewrite Eu.
    + apply from_ret. exists [], (Err e). repeat split; [constructor|cbn; lia|]. left. unfold transient, decided. by rewrite Eu, Et.
    + by apply Hagain.
Qed.


(** ** What a decided exchange says *)
(** "Not modified" is only believed when it was asked for, with the primary's
    well-formed hash; a hash comes with its time; a body is never empty or too long. *)
Lemma handle_result r anm f : handleSnapshotResponse maxBodyBytes r anm = (false, Ok f) ->
  (FContentHash f <> "" -> validSnapshotHash (FContentHash f) = true /\ FAppliedAt f <> zero_instant)
  /\ (if NotModified f then anm = true /\ FBody f = "" /\ FContentHash f <> ""
      else FBody f <> "" /\ (slen (FBody f) <= maxBodyBytes)%Z).
Proof.
  assert (Hmeta : forall hash at_ m, snapshotResponseMetadata hash at_ = Some m ->
    m = mkFetch false "" (FContentHash m) (FAppliedAt m) /\ validSnapshotHash (FContentHash m) = true
    /\ FAppliedAt m <> zero_instant /\ FContentHash m <> "").
  { intros hash at_ m. unfold snapshotResponseMetadata. destruct (validSnapshotHash hash) eqn:Ev; [|done]. cbn [negb].
    destruct (time_Parse at_) as [t|]; [|done]. cbn [mbind option_bind]. destruct (Z.eqb_spec t zero_instant); [done|].
    intros [= <-]. cbn. repeat split; try done. by intros ->. }
  destruct r as [r|]; [|done]. unfold handleSnapshotResponse. cbv zeta. intros H. guards H.
  - destruct (snapshotResponseMetadata _ _) as [m|] eqn:Em; [|done]. injection H as <-.
    apply Hmeta in Em as (->&?&?&?). cbn. bsimp. auto.
  - destruct (Body r) as [b|]; [|done]. destruct (ReadLimited _ _) as [text|]; [|done].
    guards H; bsimp; [|by injection H as <-].
    destruct (snapshotResponseMetadata _ _) as [m|] eqn:Em; [|done]. injection H as <-.
    apply Hmeta in Em as (->&?&?&?). cbn. auto.
Qed.
End retries.

