(* ===== verification/NodeSync.v ===== *)
(** * The node's sync loop (sync/node_sync.go, configuration/node_sync_state.go)

    One cycle polls the primary, applies what changed, acknowledges it and records
    the progress. The history is what the cycle did; the role, the store, the network,
    the apply, the clock and the context answer as functions of it. *)

From S2P Require Import Prelude Effects GoStrings StrFacts Json JsonText Timestamp GoTime Identity Snapshot SnapshotText Credentials SnapshotClient.
From stdpp Require Import options.

(** ** State *)
Record NodeSyncBinding := mkBinding { PrimaryURL : string; CredentialID : string; PrimaryInstallationID : string }.
Record NodeSyncProgress := mkProgress {
  AppliedHash : string; PrimaryHash : string; AckedHash : string; PrimaryAppliedAt : instant;
  LastAttemptAt : instant; LastSuccessAt : instant; NextAttemptAt : instant;
  ConsecutiveFailures : Z; LastError : string; Unlinked : bool; UnlinkedAt : instant }.
Definition zero_progress : NodeSyncProgress :=
  mkProgress "" "" "" zero_instant zero_instant zero_instant zero_instant 0 "" false zero_instant.
Record NodeSyncState := mkSyncState { binding : NodeSyncBinding; progress : NodeSyncProgress }.
Definition Outdated (s : NodeSyncProgress) : bool :=
  (AppliedHash s =? "") || negb (AppliedHash s =? PrimaryHash s).

Definition set_primary (p : NodeSyncProgress) (hash : string) (at_ : instant) : NodeSyncProgress :=
  mkProgress (AppliedHash p) hash (AckedHash p) (if (at_ =? zero_instant)%Z then PrimaryAppliedAt p else at_)
    (LastAttemptAt p) (LastSuccessAt p) (NextAttemptAt p) (ConsecutiveFailures p) (LastError p) (Unlinked p) (UnlinkedAt p).
Definition set_applied (p : NodeSyncProgress) (hash : string) : NodeSyncProgress :=
  mkProgress hash (PrimaryHash p) (AckedHash p) (PrimaryAppliedAt p)
    (LastAttemptAt p) (LastSuccessAt p) (NextAttemptAt p) (ConsecutiveFailures p) (LastError p) (Unlinked p) (UnlinkedAt p).
Definition set_acked (p : NodeSyncProgress) (hash : string) : NodeSyncProgress :=
  mkProgress (AppliedHash p) (PrimaryHash p) hash (PrimaryAppliedAt p)
    (LastAttemptAt p) (LastSuccessAt p) (NextAttemptAt p) (ConsecutiveFailures p) (LastError p) (Unlinked p) (UnlinkedAt p).
Definition set_attempt (p : NodeSyncProgress) (now : instant) : NodeSyncProgress :=
  mkProgress (AppliedHash p) (PrimaryHash p) (AckedHash p) (PrimaryAppliedAt p)
    now (LastSuccessAt p) (NextAttemptAt p) (ConsecutiveFailures p) (LastError p) (Unlinked p) (UnlinkedAt p).
Definition set_outcome (p : NodeSyncProgress) (success next : instant) (failures : Z) (message : string)
    (unlinked : bool) (unlinkedAt : instant) : NodeSyncProgress :=
  mkProgress (AppliedHash p) (PrimaryHash p) (AckedHash p) (PrimaryAppliedAt p)
    (LastAttemptAt p) success next failures message unlinked unlinkedAt.

(** ** Failures: a fixed vocabulary *)
Inductive failure : Type :=
| failCredentialRejected | failPrimaryUnavailable | failNoSnapshot | failPrimaryInvalid | failIntegrity
| failApply | failAcknowledge | failStore | failUnlinked.
#[global] Instance failure_eq_dec : EqDecision failure.
Proof. solve_decision. Defined.
Definition failure_code (f : failure) : string :=
  match f with
  | failCredentialRejected => "credential_rejected" | failPrimaryUnavailable => "primary_unavailable"
  | failNoSnapshot => "snapshot_unavailable" | failPrimaryInvalid => "primary_invalid"
  | failIntegrity => "integrity_failed" | failApply => "apply_failed" | failAcknowledge => "acknowledge_failed"
  | failStore => "state_unavailable" | failUnlinked => "node_unlinked"
  end.
Definition failure_message (f : failure) : string :=
  match f with
  | failCredentialRejected => "The primary rejected this node's credential; re-enroll this node against the primary."
  | failPrimaryUnavailable => "The primary could not be reached."
  | failNoSnapshot => "The primary has no snapshot published for this node yet."
  | failPrimaryInvalid => "The primary's response was invalid."
  | failIntegrity => "The primary's snapshot failed its integrity check."
  | failApply => "The primary's snapshot could not be applied."
  | failAcknowledge => "The primary did not accept the acknowledgement."
  | failStore => "The node's sync state could not be saved."
  | failUnlinked => "The primary unlinked this node; it keeps serving its last configuration. Re-enroll it or convert it to a primary."
  end.
(** An error of the transport: one of its sentinels, or something else. *)
Inductive sync_cause : Type := Sentinel (e : client_error) | OtherError.
Definition classifyNodeSyncFetchError (e : sync_cause) : failure :=
  match e with
  | Sentinel ErrSnapshotClientUnlinked => failUnlinked
  | Sentinel ErrSnapshotClientUnauthorized | Sentinel ErrSnapshotClientGone => failCredentialRejected
  | Sentinel ErrSnapshotClientNotFound => failNoSnapshot
  | Sentinel ErrSnapshotClientInvalid => failPrimaryInvalid
  | _ => failPrimaryUnavailable
  end.

Inductive load_result : Type := LoadErr | LoadUnbound | Loaded (s : NodeSyncState).
Inductive save_result : Type := SaveOk | SaveUnbound | SaveErr.
Inductive sync_event : Type :=
| EvLoad (r : load_result)
| EvFetch (after : string) (answer : result sync_cause SnapshotFetchResult)
| EvSave (p : NodeSyncProgress) (r : save_result)
| EvApply (e : Envelope) (ok : bool)
| EvAck (hash : string) (at_ : instant) (answer : result sync_cause unit)
| EvUnlinked
| EvDelay (d : Z)
| EvDiagnostic (step : string)
| EvTakeDiagnostic
| EvLogFailure (code : string)
| EvSleep (d : Z) (completed : bool).
Abbreviation sync := (prog sync_event).
Inductive sync_error : Type := NotNode | Unbound | Busy | Cancelled | Failed (f : failure).

(** ** Options *)
Definition Second : Z := 10 ^ 9.
Definition DefaultNodeSyncInterval : Z := 30 * Second.
Definition DefaultNodeSyncMaxBackoff : Z := 600 * Second.
Record delays := mkDelays { Interval : Z; MaxBackoff : Z }.
Definition NewNodeSyncer (interval maxBackoff : Z) : delays :=
  let interval := if (interval <=? 0)%Z then DefaultNodeSyncInterval else interval in
  let maxBackoff := if (maxBackoff <=? 0)%Z then DefaultNodeSyncMaxBackoff else maxBackoff in
  mkDelays interval (if (maxBackoff <? interval)%Z then interval else maxBackoff).

Section syncer.
Context (uuid_text : string -> option uuid) (float_text : string -> option string).
Context (opts : delays).
(** What the process, the store and the primary answer. *)
Context (locked : list sync_event -> bool) (role : list sync_event -> TopologyRole).
Context (load : list sync_event -> load_result) (save : list sync_event -> NodeSyncProgress -> save_result).
Context (fetch : list sync_event -> NodeSyncState -> string -> result sync_cause SnapshotFetchResult).
Context (apply : list sync_event -> Envelope -> bool).
(** [None] when the installation has no acknowledgement. *)
Context (acknowledge : option (list sync_event -> NodeSyncState -> string -> instant -> result sync_cause unit)).
Context (cancelled : list sync_event -> bool) (now : list sync_event -> instant).
(** [time.Duration(float64(d) * (0.8 + 0.4*jitter))]. *)
Context (scaled : list sync_event -> Z -> Z).
Context (notified : bool) (sleep : list sync_event -> Z -> bool).

Definition noteDiagnostic (step : string) : sync unit := note (EvDiagnostic step).
Definition takeDiagnostic : sync unit := note EvTakeDiagnostic.
Definition setDelay (d : Z) : sync unit := note (EvDelay d).
Definition notifyUnlinked : sync unit := if notified then note EvUnlinked else mret tt.
Definition SaveNodeSyncProgress (p : NodeSyncProgress) : sync save_result := call (fun h => save h p) (EvSave p).

(** [Interval << shift] on an [int64], jittered, then capped below and above. *)
Definition backoff (failures : Z) : sync Z :=
  let failures := if (failures <? 1)%Z then 1%Z else failures in
  let shift := (if (20 <? failures - 1)%Z then 20 else failures - 1)%Z in
  let delay := int64_of (Z.shiftl (Interval opts) shift) in
  delay ← observe (fun h => scaled h delay);
  let delay := if (MaxBackoff opts <? delay)%Z then MaxBackoff opts else delay in
  mret (if (delay <? Z.quot (Interval opts) 2)%Z then Z.quot (Interval opts) 2 else delay).

(** The first half of a cycle: [Some failure] ends it. *)
Definition receive (b : NodeSyncBinding) (p : NodeSyncProgress) : sync (NodeSyncProgress * option failure) :=
  let after := AppliedHash p in
  fetched ← call (fun h => fetch h (mkSyncState b p) after) (EvFetch after);
  match fetched with
  | Err e => noteDiagnostic "fetch";; mret (p, Some (classifyNodeSyncFetchError e))
  | Ok f =>
      if NotModified f then
        let hash := if FContentHash f =? "" then after else FContentHash f in
        if (hash =? "") || (negb (after =? "") && negb (hash =? after))
        then noteDiagnostic "not_modified_mismatch";; mret (p, Some failPrimaryInvalid)
        else mret (set_primary p hash (FAppliedAt f), None)
      else
        match Unmarshal uuid_text float_text (FBody f) with
        | Err _ => noteDiagnostic "unmarshal";; mret (p, Some failIntegrity)
        | Ok envelope =>
            match VerifyHash envelope with
            | Err _ => noteDiagnostic "hash";; mret (p, Some failIntegrity)
            | Ok _ =>
                if negb (FContentHash f =? "") && negb (FContentHash f =? ContentHash envelope)
                then noteDiagnostic "hash_header_mismatch";; mret (p, Some failIntegrity) else
                let p := set_primary p (ContentHash envelope) (FAppliedAt f) in
                if ContentHash envelope =? AppliedHash p then mret (p, None) else
                saved ← SaveNodeSyncProgress p;
                c ← observe cancelled;
                match saved, c with
                | SaveUnbound, false | SaveErr, false => noteDiagnostic "store";; mret (p, Some failStore)
                | _, _ =>
                    ok ← call (fun h => apply h envelope) (EvApply envelope);
                    if ok : bool then mret (set_applied p (ContentHash envelope), None)
                    else noteDiagnostic "apply";; mret (p, Some failApply)
                end
            end
        end
  end.
Definition cycle (b : NodeSyncBinding) (p : NodeSyncProgress) : sync (NodeSyncProgress * option failure) :=
  '(p, failed) ← receive b p;
  match failed with
  | Some f => mret (p, Some f)
  | None =>
      match acknowledge with
      | Some ack =>
          if negb (AppliedHash p =? "") && negb (AckedHash p =? AppliedHash p) && (PrimaryHash p =? AppliedHash p)
             && negb (PrimaryAppliedAt p =? zero_instant)%Z
          then
            answer ← call (fun h => ack h (mkSyncState b p) (AppliedHash p) (PrimaryAppliedAt p)) (EvAck (AppliedHash p) (PrimaryAppliedAt p));
            match answer with
            | Ok _ => mret (set_acked p (AppliedHash p), None)
            | Err (Sentinel ErrSnapshotClientUnlinked) => mret (p, Some failUnlinked)
            | Err _ => noteDiagnostic "acknowledge";; mret (p, Some failAcknowledge)
            end
          else mret (p, None)
      | None => mret (p, None)
      end
  end.

(** What is recorded about the outcome, and the delay it asks for. *)
Definition conclude (p : NodeSyncProgress) (now : instant) (failed : option failure) : sync NodeSyncProgress :=
  match failed with
  | Some failUnlinked =>
      setDelay (MaxBackoff opts);;
      mret (set_outcome p (LastSuccessAt p) (now + MaxBackoff opts) 0 (failure_message failUnlinked) true now)
  | Some f =>
      let failures := (ConsecutiveFailures p + 1)%Z in
      delay ← backoff failures;
      setDelay delay;;
      mret (set_outcome p (LastSuccessAt p) (now + delay) failures (failure_message f) (Unlinked p) (UnlinkedAt p))
  | None => mret (set_outcome p now (now + Interval opts) 0 "" (Unlinked p) (UnlinkedAt p))
  end%Z.

Definition finish_cycle (p : NodeSyncProgress) (failed : option failure) : sync (result sync_error unit) :=
  saved ← SaveNodeSyncProgress p;
  match saved with
  | SaveUnbound => mret (Err Unbound)
  | SaveErr =>
      c ← observe cancelled;
      if c : bool then mret (Err Cancelled) else noteDiagnostic "store_save";; mret (Err (Failed failStore))
  | SaveOk =>
      match failed with
      | Some failUnlinked => notifyUnlinked;; mret (Err (Failed failUnlinked))
      | Some f => mret (Err (Failed f))
      | None => mret (Ok tt)
      end
  end.
Definition RunOnce : sync (result sync_error unit) :=
  busy ← observe locked;
  if busy : bool then mret (Err Busy) else
  takeDiagnostic;;
  setDelay (Interval opts);;
  r ← observe role;
  if negb (r =? TopologyRoleNode) then mret (Err NotNode) else
  loaded ← call load EvLoad;
  match loaded with
  | LoadErr =>
      c ← observe cancelled;
      if c : bool then mret (Err Cancelled) else noteDiagnostic "store_load";; mret (Err (Failed failStore))
  | LoadUnbound => mret (Err Unbound)
  | Loaded state =>
      if Unlinked (progress state) then
        setDelay (MaxBackoff opts);; notifyUnlinked;; mret (Err (Failed failUnlinked))
      else
        t ← observe now;
        '(p, failed) ← cycle (binding state) (set_attempt (progress state) t);
        c ← observe cancelled;
        if c : bool then mret (Err Cancelled) else
        p ← conclude p t failed;
        finish_cycle p failed
  end.

(** The delay the loop sleeps for: the last one set. *)
Fixpoint last_delay (d : Z) (h : list sync_event) : Z :=
  match h with [] => d | EvDelay d' :: h => last_delay d' h | _ :: h => last_delay d h end.
(** [fuel] iterations of the loop; it returns when the context is cancelled. *)
Fixpoint Run (fuel : nat) : sync unit :=
  match fuel with
  | O => mret tt
  | S fuel =>
      c ← observe cancelled;
      if c : bool then mret tt else
      r ← RunOnce;
      match r with Err (Failed f) => note (EvLogFailure (failure_code f));; takeDiagnostic | _ => mret tt end;;
      d ← observe (last_delay (Interval opts));
      awake ← call (fun h => sleep h d) (EvSleep d);
      if awake : bool then Run fuel else mret tt
  end.
End syncer.
