(* ===== verification/NodeSyncFacts.v ===== *)
(** * Facts about the node's sync loop

    Each cycle's events are guarded: what is applied was fetched, decoded and
    verified in this cycle; what is acknowledged was applied and is what the primary
    offers; an unlinked node asks nothing; every delay is within its bounds. *)

From S2P Require Import Prelude Effects GoStrings StrFacts Json JsonText Timestamp GoTime Identity Snapshot SnapshotText Credentials SnapshotClient NodeSync.
From stdpp Require Import options.

(** The options the constructor puts in place. *)
Lemma NewNodeSyncer_bounds interval maxBackoff :
  (0 < Interval (NewNodeSyncer interval maxBackoff) <= MaxBackoff (NewNodeSyncer interval maxBackoff))%Z.
Proof.
  unfold NewNodeSyncer, DefaultNodeSyncInterval, DefaultNodeSyncMaxBackoff, Second. cbn -[Z.pow].
  repeat match goal with |- context [(?a <=? ?b)%Z] => destruct (Z.leb_spec a b) end;
    match goal with |- context [(?a <? ?b)%Z] => destruct (Z.ltb_spec a b) end; lia.
Qed.

Section facts.
Context (uuid_text : string -> option uuid) (float_text : string -> option string).
Context (opts : delays) (locked : list sync_event -> bool) (role : list sync_event -> TopologyRole).
Context (load : list sync_event -> load_result) (save : list sync_event -> NodeSyncProgress -> save_result).
Context (fetch : list sync_event -> NodeSyncState -> string -> result sync_cause SnapshotFetchResult).
Context (apply : list sync_event -> Envelope -> bool).
Context (acknowledge : option (list sync_event -> NodeSyncState -> string -> instant -> result sync_cause unit)).
Context (cancelled : list sync_event -> bool) (now : list sync_event -> instant) (scaled : list sync_event -> Z -> Z).
Context (notified : bool) (sleep : list sync_event -> Z -> bool).
Abbreviation decode := (Unmarshal uuid_text float_text).
Abbreviation Receive := (receive uuid_text float_text save fetch apply cancelled).
Abbreviation Cycle := (cycle uuid_text float_text save fetch apply acknowledge cancelled).
Abbreviation Once := (RunOnce uuid_text float_text opts locked role load save fetch apply acknowledge cancelled now scaled notified).

(** ** One cycle *)
(** An envelope this cycle fetched, decoded and verified. *)
Definition fetched_envelope (X : list sync_event) (e : Envelope) : Prop := exists after f,
  EvFetch after (Ok f) ∈ X /\ NotModified f = false /\ decode (FBody f) = Ok e /\ VerifyHash e = Ok tt
  /\ (FContentHash f = "" \/ FContentHash f = ContentHash e).
(** The hash the primary said it offers. *)
Definition offered (X : list sync_event) (hash : string) : Prop := exists after f,
  EvFetch after (Ok f) ∈ X
  /\ (NotModified f = true /\ (hash = FContentHash f \/ FContentHash f = "" /\ hash = after)
      \/ NotModified f = false /\ exists e, decode (FBody f) = Ok e /\ VerifyHash e = Ok tt /\ hash = ContentHash e).
Definition applied_in (X : list sync_event) (hash : string) : Prop := exists e, EvApply e true ∈ X /\ ContentHash e = hash.
Definition told_unlinked (X : list sync_event) : Prop :=
  (exists after, EvFetch after (Err (Sentinel ErrSnapshotClientUnlinked)) ∈ X)
  \/ exists hash t, EvAck hash t (Err (Sentinel ErrSnapshotClientUnlinked)) ∈ X.
(** What a cycle leaves to its conclusion. *)
Definition same_outcome (p q : NodeSyncProgress) : Prop :=
  Unlinked q = Unlinked p /\ UnlinkedAt q = UnlinkedAt p /\ ConsecutiveFailures q = ConsecutiveFailures p
  /\ LastError q = LastError p /\ LastSuccessAt q = LastSuccessAt p /\ LastAttemptAt q = LastAttemptAt p.

Definition cycle_guard (p : NodeSyncProgress) (X : list sync_event) (ev : sync_event) : Prop :=
  match ev with
  | EvFetch after _ => after = AppliedHash p /\ X = []
  | EvSave q _ => AppliedHash q = AppliedHash p /\ AckedHash q = AckedHash p /\ same_outcome p q
  | EvApply e _ => fetched_envelope X e /\ ContentHash e <> AppliedHash p
                   /\ exists q r, EvSave q r ∈ X /\ PrimaryHash q = ContentHash e
  | EvAck hash t _ => hash <> "" /\ t <> zero_instant /\ hash <> AckedHash p
                      /\ (hash = AppliedHash p \/ applied_in X hash) /\ offered X hash
  | EvDiagnostic _ => True
  | _ => False
  end.
Record cycle_post (p : NodeSyncProgress) (X : list sync_event) (p' : NodeSyncProgress) (fo : option failure) : Prop := mkCyclePost {
  cp_guarded : guarded (cycle_guard p) X;
  cp_outcome : same_outcome p p';
  cp_applied : AppliedHash p' = AppliedHash p \/ applied_in X (AppliedHash p');
  cp_acked : AckedHash p' = AckedHash p \/ exists t, EvAck (AckedHash p') t (Ok tt) ∈ X;
  cp_offered : fo = None -> offered X (PrimaryHash p');
  cp_unlinked : fo = Some failUnlinked -> told_unlinked X }.

Ltac trace := repeat (apply guarded_cons; split); try apply guarded_nil; cbn [cycle_guard]; try done.
(** A cycle that stops at the fetch, or learns only the primary's hash. *)
Lemma stopped_post p a d f : (f = failUnlinked -> a = Err (Sentinel ErrSnapshotClientUnlinked)) ->
  cycle_post p [EvFetch (AppliedHash p) a; EvDiagnostic d] p (Some f).
Proof.
  intros Hf. split; try done; [trace|by left|by left|]. intros [= ->]. rewrite (Hf eq_refl). left. eexists. left.
Qed.
Lemma learnt_post p f hash at_ : offered [EvFetch (AppliedHash p) (Ok f)] hash ->
  cycle_post p [EvFetch (AppliedHash p) (Ok f)] (set_primary p hash at_) None.
Proof. intros Ho. split; try done; [trace|by left|by left]. Qed.
Lemma classify_unlinked e : classifyNodeSyncFetchError e = failUnlinked -> e = Sentinel ErrSnapshotClientUnlinked.
Proof. by destruct e as [[]|]. Qed.

(** What was fetched and verified, and is new, is recorded and then applied. *)
Definition fresh (p : NodeSyncProgress) (f : SnapshotFetchResult) (e : Envelope) : Prop :=
  NotModified f = false /\ decode (FBody f) = Ok e /\ VerifyHash e = Ok tt
  /\ (FContentHash f = "" \/ FContentHash f = ContentHash e) /\ ContentHash e <> AppliedHash p.
Lemma fresh_offered p f e X : fresh p f e -> EvFetch (AppliedHash p) (Ok f) ∈ X -> offered X (ContentHash e).
Proof. intros (?&?&?&_) HX. exists (AppliedHash p), f. split; [done|]. right. eauto. Qed.
Lemma fresh_fetched p f e X : fresh p f e -> EvFetch (AppliedHash p) (Ok f) ∈ X -> fetched_envelope X e.
Proof. intros (?&?&?&?&_) HX. exists (AppliedHash p), f. auto. Qed.
Lemma unsaved_post p f e q r d : fresh p f e -> q = set_primary p (ContentHash e) (FAppliedAt f) ->
  cycle_post p [EvFetch (AppliedHash p) (Ok f); EvSave q r; EvDiagnostic d] q (Some failStore).
Proof. intros Hf ->. split; try done; [trace|by left|by left]. Qed.
Lemma tried_post p f e q r (ok : bool) : fresh p f e -> q = set_primary p (ContentHash e) (FAppliedAt f) ->
  guarded (cycle_guard p) [EvFetch (AppliedHash p) (Ok f); EvSave q r; EvApply e ok].
Proof.
  intros Hf ->. trace. split; [eapply fresh_fetched; [done|left]|]. split; [apply Hf|].
  eexists _, _. split; [right; left|done].
Qed.
Lemma failed_post p f e q r d : fresh p f e -> q = set_primary p (ContentHash e) (FAppliedAt f) ->
  cycle_post p [EvFetch (AppliedHash p) (Ok f); EvSave q r; EvApply e false; EvDiagnostic d] q (Some failApply).
Proof.
  intros Hf Hq. split; try (by subst); [|by left; subst|by left; subst].
  apply (guarded_app _ [_; _; _]). split; [by eapply tried_post|]. trace.
Qed.
Lemma applied_post p f e q r : fresh p f e -> q = set_primary p (ContentHash e) (FAppliedAt f) ->
  cycle_post p [EvFetch (AppliedHash p) (Ok f); EvSave q r; EvApply e true] (set_applied q (ContentHash e)) None.
Proof.
  intros Hf Hq. split; try (by subst); [by eapply tried_post| | |].
  - right. exists e. split; [right; right; left|done].
  - by left; subst.
  - intros _. subst q. cbn. eapply fresh_offered; [done|left].
Qed.

Lemma receive_post b p h : from (Receive b p) h (fun X r => cycle_post p X r.1 r.2 /\ AckedHash r.1 = AckedHash p).
Proof.
  unfold receive, noteDiagnostic, SaveNodeSyncProgress. cbv zeta. from_step. apply from_call. cbv beta.
  destruct (fetch _ _ _) as [f|e] eqn:Ef.
  2:{ from_step. apply from_note, from_ret. split; [|done]. apply stopped_post. by intros ->%classify_unlinked. }
  destruct (NotModified f) eqn:Em.
  { destruct (_ || _) eqn:E.
    - from_step. apply from_note, from_ret. split; [|done]. by apply stopped_post.
    - apply from_ret. split; [|done]. apply learnt_post. exists (AppliedHash p), f. split; [left|]. left. split; [done|]. cbn.
      destruct (String.eqb_spec (FContentHash f) ""); auto. }
  destruct (decode (FBody f)) as [e|] eqn:Ed.
  2:{ from_step. apply from_note, from_ret. split; [|done]. by apply stopped_post. }
  destruct (VerifyHash e) as [[]|] eqn:Ev.
  2:{ from_step. apply from_note, from_ret. split; [|done]. by apply stopped_post. }
  destruct (negb (FContentHash f =? "") && _) eqn:Eh.
  { from_step. apply from_note, from_ret. split; [|done]. by apply stopped_post. }
  cbn [AppliedHash set_primary]. destruct (String.eqb_spec (ContentHash e) (AppliedHash p)) as [He|He].
  { apply from_ret. split; [|done]. apply learnt_post. exists (AppliedHash p), f. split; [left|]. right. eauto. }
  assert (fresh p f e) as Hf.
  { split_and!; try done. apply andb_false_iff in Eh as [Eh|Eh]; bsimp; auto. }
  assert (Happly : forall r, from (ok ← call (fun h => apply h e) (EvApply e);
      if ok : bool then mret (set_applied (set_primary p (ContentHash e) (FAppliedAt f)) (ContentHash e), None)
      else note (EvDiagnostic "apply");; mret (set_primary p (ContentHash e) (FAppliedAt f), Some failApply))
    ((h ++ [EvFetch (AppliedHash p) (Ok f)]) ++ [EvSave (set_primary p (ContentHash e) (FAppliedAt f)) r])
    (fun Y b => cycle_post p ([EvFetch (AppliedHash p) (Ok f)] ++ [EvSave (set_primary p (ContentHash e) (FAppliedAt f)) r] ++ Y) b.1 b.2
      /\ AckedHash b.1 = AckedHash p)).
  { intros r. from_step. apply from_call. destruct (apply _ e).
    - apply from_ret. split; [|done]. by apply applied_post.
    - from_step. apply from_note, from_ret. split; [|done]. by apply failed_post. }
  from_step. apply from_call. from_step. apply from_observe.
  cbv beta. rewrite app_nil_r. match goal with |- from (match ?s with SaveOk => _ | _ => _ end) _ _ => destruct s end;
    match goal with |- context [cancelled ?h] => destruct (cancelled h) | _ => idtac end; try apply Happly.
  all: from_step; apply from_note, from_ret; split; [by eapply unsaved_post|done].
Qed.

Lemma cycle_run b p h : from (Cycle b p) h (fun X r => cycle_post p X r.1 r.2).
Proof.
  unfold cycle, noteDiagnostic. from_step. eapply from_mono; [apply receive_post|]. intros X [p' fo] [HX Ha]. cbn [fst snd] in *.
  destruct fo as [f|]; [apply from_ret; by rewrite app_nil_r|].
  destruct acknowledge as [ack|]; [|apply from_ret; by rewrite app_nil_r].
  destruct (_ && _) eqn:E; [|apply from_ret; by rewrite app_nil_r].
  bsimp. destruct HX as [Hg Ho Hap _ Hof _]. specialize (Hof eq_refl).
  assert (Hack : forall a, guarded (cycle_guard p) (X ++ [EvAck (AppliedHash p') (PrimaryAppliedAt p') a])).
  { intros a. apply guarded_app. split; [done|]. apply guarded_one. cbn. rewrite app_nil_r.
    repeat match goal with H : negb _ = true |- _ => apply negb_true_iff in H end. bsimp.
    split_and!; congruence. }
  assert (Hap' : forall a, AppliedHash p' = AppliedHash p \/ applied_in (X ++ a) (AppliedHash p')).
  { intros a. destruct Hap as [?|(e&?&?)]; [by left|right; exists e; split; [apply elem_of_app; by left|done]]. }
  assert (Hstop : forall a d f, f <> failUnlinked -> cycle_post p (X ++ [EvAck (AppliedHash p') (PrimaryAppliedAt p') a; EvDiagnostic d]) p' (Some f)).
  { intros a d f Hf. split; [|exact Ho|apply Hap'|by left|done|by intros [= ->]].
    change [?x; ?y] with ([x] ++ [y]). rewrite app_assoc. apply guarded_app. split; [apply Hack|]. by apply guarded_one. }
  from_step. apply from_call. destruct (ack _ _ _ _) as [[]|c].
  - apply from_ret. cbn [fst snd app]. split; [apply Hack|apply Ho|apply Hap'| | |done].
    + right. eexists. apply elem_of_app. right. left.
    + intros _. destruct Hof as (a&g&Hin&Hof). exists a, g. split; [apply elem_of_app; by left|exact Hof].
  - destruct c as [[]|]; try (from_step; apply from_note, from_ret; by apply Hstop).
    apply from_ret. cbn [fst snd app]. split; [apply Hack|apply Ho|apply Hap'|left; by rewrite Ha|done|].
    intros _. right. eexists _, _. apply elem_of_app. right. left.
Qed.
(** ** The whole cycle, as recorded *)
Definition concluded (p : NodeSyncProgress) (t : instant) (fo : option failure) (d : Z) : NodeSyncProgress :=
  match fo with
  | None => set_outcome p t (t + Interval opts) 0 "" (Unlinked p) (UnlinkedAt p)
  | Some failUnlinked => set_outcome p (LastSuccessAt p) (t + d) 0 (failure_message failUnlinked) true t
  | Some f => set_outcome p (LastSuccessAt p) (t + d) (ConsecutiveFailures p + 1) (failure_message f) (Unlinked p) (UnlinkedAt p)
  end%Z.
Definition within (d : Z) : Prop := (Z.quot (Interval opts) 2 <= d <= Z.max (MaxBackoff opts) (Z.quot (Interval opts) 2))%Z.
Definition delay_after (fo : option failure) (d : Z) : list sync_event :=
  match fo with None => [] | Some _ => [EvDelay d] end.
Definition quiet (ev : sync_event) : Prop :=
  match ev with EvLoad _ | EvUnlinked | EvDelay _ | EvDiagnostic _ | EvTakeDiagnostic => True | _ => False end.

Inductive ended (p : NodeSyncProgress) (t : instant) (fo : option failure) : list sync_event -> result sync_error unit -> Prop :=
| ended_cancelled : ended p t fo [] (Err Cancelled)
| ended_saved d Z r : (fo <> None -> d = MaxBackoff opts \/ within d) -> (fo = Some failUnlinked -> d = MaxBackoff opts) ->
    Z = match fo with Some failUnlinked => if notified then [EvUnlinked] else [] | _ => [] end ->
    r = match fo with None => Ok tt | Some f => Err (Failed f) end ->
    ended p t fo (delay_after fo d ++ [EvSave (concluded p t fo d) SaveOk] ++ Z) r
| ended_unsaved d sr Z r : (fo <> None -> d = MaxBackoff opts \/ within d) -> sr <> SaveOk ->
    Forall quiet Z -> ~ EvUnlinked ∈ Z -> (forall d', EvDelay d' ∈ Z -> False) ->
    r = match sr with SaveUnbound => Err Unbound | _ => r end -> r <> Ok tt ->
    ended p t fo (delay_after fo d ++ [EvSave (concluded p t fo d) sr] ++ Z) r.

Inductive once_post (h : list sync_event) : list sync_event -> result sync_error unit -> Prop :=
| once_busy : locked h = true -> once_post h [] (Err Busy)
| once_quiet X r : Forall quiet X -> guarded (fun X1 ev => match ev with
      | EvUnlinked => exists s, EvLoad (Loaded s) ∈ X1 /\ Unlinked (progress s) = true
      | EvDelay d => d = Interval opts \/ d = MaxBackoff opts
      | _ => True end) X -> r <> Ok tt ->
    once_post h ([EvTakeDiagnostic; EvDelay (Interval opts)] ++ X) r
| once_ran s t C p fo Z r : role (h ++ [EvTakeDiagnostic; EvDelay (Interval opts)]) = TopologyRoleNode
      /\ load (h ++ [EvTakeDiagnostic; EvDelay (Interval opts)]) = Loaded s ->
    Unlinked (progress s) = false ->
    cycle_post (set_attempt (progress s) t) C p fo -> ended p t fo Z r ->
    once_post h ([EvTakeDiagnostic; EvDelay (Interval opts); EvLoad (Loaded s)] ++ C ++ Z) r.

Lemma backoff_run n h : from (backoff opts scaled n) h (fun X d => X = [] /\ within d).
Proof.
  unfold backoff. cbv zeta. from_step. apply from_observe. apply from_ret. rewrite app_nil_r. split; [done|].
  unfold within. destruct (Z.ltb_spec (MaxBackoff opts) (scaled h (int64_of (Z.shiftl (Interval opts) (if (20 <? (if (n <? 1)%Z then 1%Z else n) - 1)%Z then 20%Z else ((if (n <? 1)%Z then 1%Z else n) - 1)%Z)))));
    match goal with |- context [(?a <? ?b)%Z] => destruct (Z.ltb_spec a b) end; lia.
Qed.
Ltac no_elem := unfold not; intros;
  match goal with H : _ ∈ _ |- _ => first [by apply elem_of_nil in H | by apply list_elem_of_singleton in H] end.
Lemma finish_cycle_run p t fo d h : (fo <> None -> d = MaxBackoff opts \/ within d) -> (fo = Some failUnlinked -> d = MaxBackoff opts) ->
  from (finish_cycle save cancelled notified (concluded p t fo d) fo) h (fun Y r => ended p t fo (delay_after fo d ++ Y) r).
Proof.
  intros Hd Hu. unfold finish_cycle, SaveNodeSyncProgress, noteDiagnostic, notifyUnlinked. from_step. apply from_call. cbv beta.
  destruct (save _ _) eqn:Es.
  - destruct fo as [f|]; [|apply from_ret; by apply (ended_saved p t None d [])].
    destruct f; try (apply from_ret; by apply (ended_saved p t (Some _) d [])).
    destruct notified eqn:En; [|apply from_ret; apply (ended_saved p t (Some failUnlinked) d []); by rewrite ?En].
    from_step. apply from_note, from_ret. apply (ended_saved p t (Some failUnlinked) d [EvUnlinked]); by rewrite ?En.
  - apply from_ret. apply (ended_unsaved p t fo d SaveUnbound []); try done; no_elem.
  - from_step. apply from_observe. destruct (cancelled _).
    + apply from_ret. apply (ended_unsaved p t fo d SaveErr []); try done; no_elem.
    + from_step. apply from_note, from_ret. apply (ended_unsaved p t fo d SaveErr [EvDiagnostic "store_save"]); try done.
      * by repeat constructor.
      * no_elem.
      * no_elem.
Qed.
Lemma once_run h : from Once h (once_post h).
Proof.
  unfold RunOnce, takeDiagnostic, setDelay, noteDiagnostic, notifyUnlinked. from_step. apply from_observe.
  destruct (locked h) eqn:El; [by apply from_ret, once_busy|].
  rewrite app_nil_r. from_step. apply from_note. from_step. apply from_note. from_step. apply from_observe.
  rewrite app_nil_r, <- app_assoc. cbn [app].
  destruct (String.eqb_spec (role (h ++ [EvTakeDiagnostic; EvDelay (Interval opts)])) TopologyRoleNode) as [Er|]; cbn [negb].
  2:{ apply from_ret. by apply (once_quiet h []); [|apply guarded_nil|]. }
  from_step. apply from_call. destruct (load _) as [| |s] eqn:Eld.
  - from_step. apply from_observe. rewrite app_nil_r. destruct (cancelled _).
    + apply from_ret. apply (once_quiet h [EvLoad LoadErr]); try done; [by repeat constructor|by apply guarded_one].
    + from_step. apply from_note, from_ret. apply (once_quiet h [EvLoad LoadErr; EvDiagnostic "store_load"]); try done; [by repeat constructor|].
      repeat (apply guarded_cons; split); try done. apply guarded_nil.
  - apply from_ret. apply (once_quiet h [EvLoad LoadUnbound]); try done; [by repeat constructor|by apply guarded_one].
  - destruct (Unlinked (progress s)) eqn:Eu.
    { from_step. apply from_note. from_step. destruct notified.
      - apply from_note, from_ret. apply (once_quiet h [EvLoad (Loaded s); EvDelay (MaxBackoff opts); EvUnlinked]); try done; [by repeat constructor|].
        repeat (apply guarded_cons; split); try apply guarded_nil; auto. exists s. split; [left|done].
      - apply from_ret, from_ret. apply (once_quiet h [EvLoad (Loaded s); EvDelay (MaxBackoff opts)]); try done; [by repeat constructor|].
        repeat (apply guarded_cons; split); try apply guarded_nil; auto. }
    from_step. apply from_observe. rewrite app_nil_r. set (t := now _). from_step.
    eapply from_mono; [apply cycle_run|]. intros C [p fo] HC. cbn [fst snd] in HC. from_step. apply from_observe. rewrite app_nil_r.
    destruct (cancelled _).
    { apply from_ret. cbn [app]. apply (once_ran h s t C p fo []); try done. constructor. }
    from_step. unfold conclude, setDelay. destruct fo as [f|].
    + assert (Hother : f <> failUnlinked ->
        from (d ← backoff opts scaled (ConsecutiveFailures p + 1); note (EvDelay d);;
              mret (set_outcome p (LastSuccessAt p) (t + d)%Z (ConsecutiveFailures p + 1) (failure_message f) (Unlinked p) (UnlinkedAt p)))
          ((((h ++ [EvTakeDiagnostic; EvDelay (Interval opts)]) ++ [EvLoad (Loaded s)])) ++ C)
          (fun X a => from (finish_cycle save cancelled notified a (Some f))
             (((((h ++ [EvTakeDiagnostic; EvDelay (Interval opts)]) ++ [EvLoad (Loaded s)])) ++ C) ++ X)
             (fun Y b => once_post h ([EvTakeDiagnostic] ++ [EvDelay (Interval opts)] ++ [] ++ [EvLoad (Loaded s)] ++ [] ++ C ++ [] ++ X ++ Y) b))).
      { intros Hf. from_step. eapply from_mono; [apply backoff_run|]. intros ? d [-> Hd]. rewrite app_nil_r.
        from_step. apply from_note, from_ret. cbn [app]. 
        assert (set_outcome p (LastSuccessAt p) (t + d)%Z (ConsecutiveFailures p + 1) (failure_message f) (Unlinked p) (UnlinkedAt p) = concluded p t (Some f) d) as ->
          by (by destruct f).
        eapply from_mono; [apply (finish_cycle_run p t (Some f) d); [by right|by intros [= ->]]|].
        intros Y r Hr. by apply (once_ran h s t C p (Some f)). }
      destruct f; try (by apply Hother).
      from_step. apply from_note, from_ret. cbn [app].
      change (set_outcome p (LastSuccessAt p) (t + MaxBackoff opts)%Z 0 (failure_message failUnlinked) true t)
        with (concluded p t (Some failUnlinked) (MaxBackoff opts)).
      eapply from_mono; [apply (finish_cycle_run p t (Some failUnlinked) (MaxBackoff opts)); [by left|done]|].
      intros Y r Hr. by apply (once_ran h s t C p (Some failUnlinked)).
    + apply from_ret. cbn [app]. rewrite app_nil_r.
      eapply from_mono; [apply (finish_cycle_run p t None 0%Z); done|].
      intros Y r Hr. by apply (once_ran h s t C p None).
Qed.
(** ** What the events say *)
Definition no_request (ev : sync_event) : Prop :=
  match ev with EvFetch _ _ | EvApply _ _ | EvAck _ _ _ => False | _ => True end.
Lemma quiet_no_request X : Forall quiet X -> Forall no_request X.
Proof. intros H. eapply Forall_impl; [exact H|]. by intros []. Qed.
Lemma ended_no_request p t fo Z r : ended p t fo Z r -> Forall no_request Z.
Proof.
  destruct 1 as [|d Z r _ _ -> _|d sr Z r _ _ HZ _ _ _ _].
  - constructor.
  - apply Forall_app. split; [by destruct fo; repeat constructor|]. constructor; [done|].
    destruct fo as [[]|]; try constructor. destruct notified; by repeat constructor.
  - apply Forall_app. split; [by destruct fo; repeat constructor|]. constructor; [done|]. by apply quiet_no_request.
Qed.
(** A condition on requests holds along a cycle when it holds in its middle part. *)
Lemma requests_guarded (P : list sync_event -> sync_event -> Prop) h :
  (forall X1 ev, no_request ev -> P X1 ev) ->
  (forall s t C p fo, Unlinked (progress s) = false -> cycle_post (set_attempt (progress s) t) C p fo ->
     guarded (fun C1 => P ([EvTakeDiagnostic; EvDelay (Interval opts); EvLoad (Loaded s)] ++ C1)) C) ->
  from Once h (fun X _ => guarded P X).
Proof.
  intros Hno Hrun. assert (Hfree : forall (Q : list sync_event -> sync_event -> Prop) X,
    (forall X1 ev, no_request ev -> Q X1 ev) -> Forall no_request X -> guarded Q X).
  { intros Q X HQ HX X1 ev X2 ->. apply HQ. rewrite Forall_forall in HX. apply HX, elem_of_app. right. left. }
  eapply from_mono; [apply once_run|]. intros X r [].
  - apply guarded_nil.
  - apply Hfree; [done|]. apply Forall_app. split; [by repeat constructor|]. by apply quiet_no_request.
  - apply guarded_app. split; [apply Hfree; [done|by repeat constructor]|]. apply guarded_app. split; [by eapply Hrun|].
    apply Hfree; [intros; by apply Hno|]. by eapply ended_no_request.
Qed.
Lemma in_more (X Y : list sync_event) ev : ev ∈ Y -> ev ∈ X ++ Y.
Proof. intros H. apply elem_of_app. by right. Qed.


(** C8: Whatever a cycle acknowledges to the primary is a hash the node holds, because it
    was applied before or in this cycle, and one the primary offered in this cycle; it is
    not acknowledged twice. *)
Theorem node_acknowledges_applied h : from Once h (fun X _ => guarded (fun X1 ev =>
  match ev with
  | EvAck hash t _ => exists s, EvLoad (Loaded s) ∈ X1 /\ Unlinked (progress s) = false /\ hash <> ""
      /\ t <> zero_instant /\ hash <> AckedHash (progress s)
      /\ (hash = AppliedHash (progress s) \/ applied_in X1 hash) /\ offered X1 hash
  | _ => True
  end) X).
Proof.
  apply requests_guarded; [by intros ? []|]. intros s t C p fo Hu [HC _ _ _ _ _].
  eapply guarded_mono; [exact HC|]. intros C1 [] HP; try done. destruct HP as (H1&H2&H3&H4&a&f&Hf&Ho).
  exists s. split; [right; right; left|]. split; [done|]. split; [done|]. split; [done|]. split; [done|]. split.
  - destruct H4 as [?|(e&He&?)]; [by left|right]. exists e. split; [by apply in_more|done].
  - exists a, f. split; [by apply in_more|done].
Qed.

Lemma told_more X Y Z : told_unlinked Y -> told_unlinked (X ++ Y ++ Z).
Proof.
  intros [(a&H)|(a&t&H)]; [left; exists a|right; exists a, t]; apply in_more, elem_of_app; by left.
Qed.
Lemma concluded_unlinked p t fo d : Unlinked p = false -> Unlinked (concluded p t fo d) = true -> fo = Some failUnlinked.
Proof. intros Hp. destruct fo as [[]|]; cbn; congruence. Qed.
(** The last part of a cycle, event by event. *)
Lemma ended_events p t fo Z r : Unlinked p = false -> ended p t fo Z r -> Forall (fun ev =>
  match ev with
  | EvSave q _ => Unlinked q = true -> fo = Some failUnlinked
  | EvUnlinked => fo = Some failUnlinked
  | EvDelay d => d = MaxBackoff opts \/ within d
  | EvDiagnostic _ | EvTakeDiagnostic | EvLoad _ => True
  | _ => False end) Z.
Proof.
  intros Hp. assert (Hdelay : forall d, (fo <> None -> d = MaxBackoff opts \/ within d) -> Forall (fun ev =>
    match ev with
    | EvSave q _ => Unlinked q = true -> fo = Some failUnlinked
    | EvUnlinked => fo = Some failUnlinked
    | EvDelay d => d = MaxBackoff opts \/ within d
    | EvDiagnostic _ | EvTakeDiagnostic | EvLoad _ => True
    | _ => False end) (delay_after fo d)).
  { intros d Hd. destruct fo; [|apply Forall_nil_2]. apply Forall_cons_2; [by apply Hd|apply Forall_nil_2]. }
  destruct 1 as [|d Z r Hd _ -> _|d sr Z r Hd _ HZ Hu Hdl _ _]; [apply Forall_nil_2|apply Forall_app..].
  - split; [by apply Hdelay|]. apply Forall_cons_2; [by apply concluded_unlinked|].
    destruct fo as [[]|]; try apply Forall_nil_2. destruct notified; by repeat constructor.
  - split; [by apply Hdelay|]. apply Forall_cons_2; [by apply concluded_unlinked|].
    apply Forall_forall. intros ev Hin. rewrite Forall_forall in HZ. specialize (HZ ev Hin).
    destruct ev; try done. by destruct (Hdl d0).
Qed.
Lemma cycle_no_load p C : guarded (cycle_guard p) C -> forall r, EvLoad r ∉ C.
Proof. intros H r (C1&C2&->)%list_elem_of_split. exact (H C1 _ C2 eq_refl). Qed.

(** C9: The unlinked state is only entered on the primary's word: a cycle records it, or
    announces it, only after the primary's answer to this cycle's fetch or acknowledgement
    said so, or when it was recorded before; and then no request is made at all. *)
Theorem unlinked_is_authoritative h : from Once h (fun X _ => guarded (fun X1 ev =>
  match ev with
  | EvSave q _ => Unlinked q = true -> told_unlinked X1
  | EvUnlinked => told_unlinked X1 \/ exists s, EvLoad (Loaded s) ∈ X1 /\ Unlinked (progress s) = true
  | EvFetch _ _ | EvApply _ _ | EvAck _ _ _ => forall s, EvLoad (Loaded s) ∈ X1 -> Unlinked (progress s) = false
  | _ => True
  end) X).
Proof.
  eapply from_mono; [apply once_run|]. intros X r [_|X' r' HX Hg _|s t C p fo Z r' _ Hu HC Hend].
  - apply guarded_nil.
  - apply guarded_app. split; [trace|]. intros Y1 ev Y2 ->. specialize (Hg Y1 ev Y2 eq_refl).
    apply Forall_app in HX as [_ HX]. apply Forall_cons in HX as [Hev _]. destruct ev; try done.
    right. destruct Hg as (s&Hs&?). exists s. split; [by apply in_more|done].
  - assert (Unlinked p = false) as Hup by (destruct HC as [_ (->&_) _ _ _ _]; exact Hu).
    apply guarded_app. split; [trace|]. apply guarded_app. split.
    + destruct HC as [HC _ _ _ _ _]. intros C1 ev C2 He. specialize (HC C1 ev C2 He) as Hev.
      assert (forall s', EvLoad (Loaded s') ∈ [EvTakeDiagnostic; EvDelay (Interval opts); EvLoad (Loaded s)] ++ C1 -> Unlinked (progress s') = false) as Hs.
      { intros s' Hin. apply elem_of_app in Hin as [Hin|Hin].
        - repeat (apply elem_of_cons in Hin as [Hin|Hin]; [simplify_eq; done|]). by apply elem_of_nil in Hin.
        - destruct (cycle_no_load _ _ HC (Loaded s')). rewrite He. apply elem_of_app. by left. }
      destruct ev; try done. destruct Hev as (_&_&Hq&_). cbn in Hq. congruence.
    + intros Z1 ev Z2 ->. apply ended_events in Hend; [|done]. apply Forall_app in Hend as [_ Hend].
      apply Forall_cons in Hend as [Hev _].
      assert (fo = Some failUnlinked -> told_unlinked ([EvTakeDiagnostic; EvDelay (Interval opts); EvLoad (Loaded s)] ++ C ++ Z1)) as Ht.
      { intros Hfo. apply told_more. by apply (cp_unlinked _ _ _ _ HC). }
      destruct ev; try done; auto.
Qed.

(** The delays one cycle asks for. *)
Lemma once_delays interval maxBackoff h : opts = NewNodeSyncer interval maxBackoff ->
  from Once h (fun X _ => Forall (fun ev =>
    match ev with EvDelay d => (Z.quot (Interval opts) 2 <= d <= MaxBackoff opts)%Z | EvSleep _ _ => False | _ => True end) X).
Proof.
  intros Hopts. assert (0 < Interval opts <= MaxBackoff opts)%Z as Ho by (subst opts; apply NewNodeSyncer_bounds).
  assert (Z.quot (Interval opts) 2 <= Interval opts)%Z as Hq by (apply Z.quot_le_upper_bound; lia).
  assert (forall d, d = MaxBackoff opts \/ within d -> Z.quot (Interval opts) 2 <= d <= MaxBackoff opts)%Z as Hw.
  { unfold within. intros d [->|Hd]; lia. }
  eapply from_mono; [apply once_run|]. intros X r [_|X' r' HX Hg _|s t C p fo Z r' _ Hu HC Hend].
  - constructor.
  - repeat (constructor; [done || lia|]). apply Forall_forall. intros ev (Y1&Y2&->)%list_elem_of_split.
    specialize (Hg Y1 ev Y2 eq_refl). apply Forall_app in HX as [_ HX]. apply Forall_cons in HX as [Hev _].
    destruct ev; try done. destruct Hg as [->| ->]; lia.
  - repeat (constructor; [done || lia|]). apply Forall_app. split.
    + destruct HC as [HC _ _ _ _ _]. apply Forall_forall. intros ev (C1&C2&->)%list_elem_of_split.
      specialize (HC C1 ev C2 eq_refl). by destruct ev.
    + assert (Unlinked p = false) as Hup by (destruct HC as [_ (->&_) _ _ _ _]; exact Hu).
      eapply Forall_impl; [by eapply ended_events|]. intros [] Hev; try done. by apply Hw.
Qed.
(** ** Convergence *)
(** A primary that answers with one verified envelope, and a node on which everything works. *)
Record healthy (e : Envelope) : Prop := mkHealthy {
  h_locked : forall h, locked h = false;
  h_role : forall h, role h = TopologyRoleNode;
  h_save : forall h p, save h p = SaveOk;
  h_fetch : forall h s after, exists f, fetch h s after = Ok f /\ NotModified f = false /\ decode (FBody f) = Ok e
    /\ (FContentHash f = "" \/ FContentHash f = ContentHash e) /\ FAppliedAt f <> zero_instant;
  h_verified : VerifyHash e = Ok tt /\ ContentHash e <> "";
  h_apply : forall h, apply h e = true;
  h_ack : forall ack, acknowledge = Some ack -> forall h s hash t, ack h s hash t = Ok tt;
  h_running : forall h, cancelled h = false }.

Lemma healthy_receive e b p h : healthy e -> from (Receive b p) h (fun X r =>
  r.2 = None /\ AppliedHash r.1 = ContentHash e /\ PrimaryHash r.1 = ContentHash e /\ PrimaryAppliedAt r.1 <> zero_instant).
Proof.
  intros [_ _ Hs Hf [Hv _] Ha _ Hr]. unfold receive, SaveNodeSyncProgress. cbv zeta. from_step. apply from_call. cbv beta.
  destruct (Hf h (mkSyncState b p) (AppliedHash p)) as (f&->&Hn&Hd&Hh&Ht). rewrite Hn, Hd, Hv.
  assert (negb (FContentHash f =? "") && negb (FContentHash f =? ContentHash e) = false) as ->.
  { destruct Hh as [->| ->]; [done|]. rewrite String.eqb_refl. apply andb_false_r. }
  cbn [AppliedHash set_primary]. destruct (String.eqb_spec (ContentHash e) (AppliedHash p)) as [He|He].
  - apply from_ret. cbn. by rewrite (proj2 (Z.eqb_neq _ _) Ht).
  - from_step. apply from_call. from_step. apply from_observe. rewrite Hs. from_step. apply from_call. rewrite Ha.
    apply from_ret. cbn. by rewrite (proj2 (Z.eqb_neq _ _) Ht).
Qed.

(** C12: When the primary answers, the apply succeeds and nothing is cancelled, one cycle of
    a bound node ends in success with its last write recording that it has applied what the
    primary offers and, where there is an acknowledgement, that it was acknowledged; the
    node is then no longer outdated. *)
Theorem healthy_cycle_converges e s h : healthy e -> Unlinked (progress s) = false ->
  (forall h', load h' = Loaded s) ->
  from Once h (fun X r => r = Ok tt /\ exists Y q, X = Y ++ [EvSave q SaveOk]
    /\ AppliedHash q = ContentHash e /\ PrimaryHash q = ContentHash e /\ Outdated q = false
    /\ (acknowledge <> None -> AckedHash q = ContentHash e) /\ ConsecutiveFailures q = 0%Z /\ LastError q = "").
Proof.
  intros He Hu Hl. assert (He' := He). destruct He' as [Hlock Hrole Hs _ [_ Hne] _ Ha Hr].
  unfold RunOnce, takeDiagnostic, setDelay. from_step. apply from_observe. rewrite Hlock.
  from_step. apply from_note. from_step. apply from_note. from_step. apply from_observe. rewrite Hrole. cbn [negb String.eqb].
  rewrite String.eqb_refl. cbn [negb]. from_step. apply from_call. rewrite Hl, Hu. from_step. apply from_observe. from_step.
  assert (Hcycle : forall b p h, from (Cycle b p) h (fun X r => r.2 = None /\ AppliedHash r.1 = ContentHash e
    /\ PrimaryHash r.1 = ContentHash e /\ (acknowledge <> None -> AckedHash r.1 = ContentHash e))).
  { intros b p h'. unfold cycle. from_step. eapply from_mono; [by apply (healthy_receive e)|].
    intros X [p' fo] (Hfo&Hap&Hpr&Hat). cbn [fst snd] in *. subst fo. destruct acknowledge as [ack|] eqn:Eack; [|by apply from_ret].
    rewrite Hap, Hpr, String.eqb_refl, (proj2 (Z.eqb_neq _ _) Hat). cbn [negb].
    rewrite (proj2 (String.eqb_neq _ _) Hne). cbn [negb andb]. rewrite !andb_true_r.
    destruct (String.eqb_spec (AckedHash p') (ContentHash e)) as [Heq|Hneq]; cbn [negb].
    - by apply from_ret.
    - from_step. apply from_call. rewrite (Ha ack eq_refl). by apply from_ret. }
  eapply from_mono; [apply Hcycle|]. intros X [p fo] (Hfo&Hap&Hpr&Hak). cbn [fst snd] in *. subst fo.
  from_step. apply from_observe. rewrite Hr. from_step. unfold conclude. apply from_ret.
  unfold finish_cycle, SaveNodeSyncProgress. from_step. apply from_call. rewrite Hs. apply from_ret. split; [done|].
  eexists _, _. split; [rewrite !app_assoc, app_nil_r; reflexivity|]. cbn. rewrite Hap, Hpr.
  repeat split; try done. unfold Outdated. cbn. rewrite Hap, Hpr, String.eqb_refl. by rewrite (proj2 (String.eqb_neq _ _) Hne).
Qed.
End facts.

(** The doubling is not protected against overflow: with an interval of three hours the
    twenty-first failure computes a negative delay, and the node polls after half the
    interval instead of waiting for the cap. *)
Example backoff_overflows :
  (backoff (NewNodeSyncer (3 * 3600 * Second) 0) (fun _ d => d) 21 []).2 = (3 * 1800 * Second)%Z
  /\ MaxBackoff (NewNodeSyncer (3 * 3600 * Second) 0) = (3 * 3600 * Second)%Z.
Proof. by vm_compute. Qed.

(** ** The node's sync loop, cycle after cycle

    What holds of every run of the loop: once an unlink was recorded nothing is asked
    of the primary any more, and every sleep is within the bounds of the options. *)
Section run.
Context (uuid_text : string -> option uuid) (float_text : string -> option string).
Context (opts : delays) (locked : list sync_event -> bool) (role : list sync_event -> TopologyRole).
Context (load : list sync_event -> load_result) (save : list sync_event -> NodeSyncProgress -> save_result).
Context (fetch : list sync_event -> NodeSyncState -> string -> result sync_cause SnapshotFetchResult).
Context (apply : list sync_event -> Envelope -> bool).
Context (acknowledge : option (list sync_event -> NodeSyncState -> string -> instant -> result sync_cause unit)).
Context (cancelled : list sync_event -> bool) (now : list sync_event -> instant) (scaled : list sync_event -> Z -> Z).
Context (notified : bool) (sleep : list sync_event -> Z -> bool).
Abbreviation Once := (RunOnce uuid_text float_text opts locked role load save fetch apply acknowledge cancelled now scaled notified).
Abbreviation Loop := (Run uuid_text float_text opts locked role load save fetch apply acknowledge cancelled now scaled notified sleep).

(** A condition that every cycle keeps and that the loop's own events satisfy holds
    along every run. *)
Definition loop_event (ev : sync_event) : Prop :=
  match ev with EvLogFailure _ | EvTakeDiagnostic | EvSleep _ _ => True | _ => False end.
Lemma run_guarded (P : list sync_event -> sync_event -> Prop) :
  (forall h, guarded P h -> from Once h (fun X _ => guarded (fun X1 => P (h ++ X1)) X)) ->
  (forall h code, P h (EvLogFailure code)) -> (forall h, P h EvTakeDiagnostic) ->
  (forall h d b, guarded P h -> d = last_delay (Interval opts) h -> P h (EvSleep d b)) ->
  forall fuel h, guarded P h -> from (Loop fuel) h (fun X _ => guarded P (h ++ X)).
Proof.
  intros Honce Hlog Htake Hsleep fuel. induction fuel as [|fuel IH]; intros h Hh; cbn [Run].
  { apply from_ret. by rewrite app_nil_r. }
  from_step. apply from_observe. destruct (cancelled h); [apply from_ret; by rewrite app_nil_r|].
  rewrite app_nil_r. from_step. eapply from_mono; [by apply Honce|]. intros X r HX.
  assert (guarded P (h ++ X)) as HhX by (by apply guarded_app).
  assert (Hrest : forall Y, guarded P (h ++ X ++ Y) ->
    from (d ← observe (last_delay (Interval opts)); awake ← call (fun h => sleep h d) (EvSleep d); if awake : bool then Loop fuel else mret tt)
      (h ++ X ++ Y) (fun Z _ => guarded P (h ++ X ++ Y ++ Z))).
  { intros Y HY. from_step. apply from_observe. rewrite app_nil_r. from_step. apply from_call. cbv beta.
    set (d := last_delay (Interval opts) (h ++ X ++ Y)). set (b := sleep _ d).
    assert (guarded P ((h ++ X ++ Y) ++ [EvSleep d b])) as Hs.
    { apply guarded_app. split; [done|]. apply guarded_one. rewrite app_nil_r. by apply Hsleep. }
    destruct b eqn:Eb.
    - eapply from_mono; [by apply IH|]. intros Z u HZ. cbv beta in HZ. by rewrite <- !app_assoc in HZ.
    - apply from_ret. by rewrite <- !app_assoc in Hs. }
  cbv beta. from_step. destruct r as [u|[| | | |f]].
  1,2,3,4,5: apply from_ret; specialize (Hrest []); rewrite !app_nil_r in *; cbn [app] in *; by apply Hrest.
  from_step. apply from_note. apply from_note. cbn [app].
  rewrite <- !app_assoc. cbn [app]. apply (Hrest [EvLogFailure (failure_code f); EvTakeDiagnostic]).
  rewrite app_assoc. apply guarded_app. split; [done|]. apply guarded_cons. rewrite app_nil_r. split; [apply Hlog|]. apply guarded_one. apply Htake.
Qed.

(** ** Silence after an unlink *)
(** Every save in a history got the store's answer. *)
Definition honest (h : list sync_event) (ev : sync_event) : Prop := match ev with EvSave q r => r = save h q | _ => True end.
Lemma once_honest : always honest Once.
Proof.
  unfold RunOnce, takeDiagnostic, setDelay, noteDiagnostic, notifyUnlinked, cycle, receive, SaveNodeSyncProgress, conclude, backoff,
    finish_cycle, SaveNodeSyncProgress, noteDiagnostic, notifyUnlinked, setDelay. cbv zeta. repeat always_step.
Qed.

Definition saved (ev : sync_event) : option NodeSyncProgress := match ev with EvSave q SaveOk => Some q | _ => None end.
Definition last_saved (h : list sync_event) : option NodeSyncProgress := last (omap saved h).
Definition unlink_recorded (h : list sync_event) : Prop := exists q, EvSave q SaveOk ∈ h /\ Unlinked q = true.
(** What the store promises the loop, as long as nobody enrolls the node again: an
    unlink saved last is loaded. *)
Definition store_remembers : Prop := forall h s q, guarded honest h -> last_saved h = Some q ->
  Unlinked q = true -> ConsecutiveFailures q = 0%Z -> load h = Loaded s -> Unlinked (progress s) = true.
Definition silent_event (ev : sync_event) : Prop :=
  match ev with EvFetch _ _ | EvApply _ _ | EvAck _ _ _ | EvSave _ _ => False | _ => True end.
Definition silence (h : list sync_event) (ev : sync_event) : Prop :=
  honest h ev /\ (unlink_recorded h -> silent_event ev)
  /\ match ev with EvSave q _ => Unlinked q = true -> ConsecutiveFailures q = 0%Z | _ => True end.

Lemma recorded_app h X : unlink_recorded (h ++ X) <-> unlink_recorded h \/ unlink_recorded X.
Proof.
  split; [intros (q&[Hq|Hq]%elem_of_app&Hu); [left|right]; by exists q|].
  intros [(q&Hq&Hu)|(q&Hq&Hu)]; exists q; (split; [apply elem_of_app; auto|done]).
Qed.
Lemma guarded_free (P : list sync_event -> sync_event -> Prop) (Q : sync_event -> Prop) X :
  Forall Q X -> (forall X1 ev, Q ev -> P X1 ev) -> guarded P X.
Proof. intros HX HP X1 ev X2 ->. apply HP. rewrite Forall_forall in HX. apply HX, elem_of_app. right. left. Qed.
(** After an unlink was recorded nothing was saved, so it is still the last. *)
Lemma unlink_last h : guarded silence h -> unlink_recorded h ->
  exists q, last_saved h = Some q /\ Unlinked q = true /\ ConsecutiveFailures q = 0%Z.
Proof.
  intros Hh (q&(h1&h2&->)%list_elem_of_split&Hu). exists q.
  assert (omap saved h2 = []) as E.
  { assert (Forall silent_event h2) as Hs.
    { apply Forall_forall. intros ev (g1&g2&->)%list_elem_of_split.
      assert (Hev := Hh (h1 ++ EvSave q SaveOk :: g1) ev g2 ltac:(by rewrite <- app_assoc)). apply Hev.
      exists q. split; [apply elem_of_app; right; left|done]. }
    clear -Hs. induction Hs as [|ev l Hev _ IH]; [done|]. by destruct ev as [| |? []| | | | | | | |]. }
  split; [unfold last_saved; rewrite omap_app; cbn; rewrite E; apply last_snoc|]. split; [done|].
  by apply (Hh h1 (EvSave q SaveOk) h2 eq_refl).
Qed.

Lemma quiet_silent X : Forall quiet X -> Forall silent_event X.
Proof. intros H. eapply Forall_impl; [exact H|]. by intros []. Qed.
Definition unlinks_once (h : list sync_event) (ev : sync_event) : Prop :=
  (unlink_recorded h -> silent_event ev)
  /\ match ev with EvSave q _ => Unlinked q = true -> ConsecutiveFailures q = 0%Z | _ => True end.
Lemma silent_unlinks h ev : silent_event ev -> unlinks_once h ev.
Proof. intros H. split; [done|]. by destruct ev. Qed.
(** The middle part of a cycle saves nothing that is unlinked. *)
Lemma cycle_linked p C q r : guarded (cycle_guard uuid_text float_text p) C -> EvSave q r ∈ C -> Unlinked q = Unlinked p.
Proof. intros HC (C1&C2&->)%list_elem_of_split. by destruct (HC C1 _ C2 eq_refl) as (_&_&Hs&_). Qed.
(** Its end records an unlink at most once, with no failure counted. *)
Lemma ended_unlinks p t fo Z r h : Unlinked p = false -> ~ unlink_recorded h -> ended opts notified p t fo Z r ->
  guarded (fun Z1 => unlinks_once (h ++ Z1)) Z.
Proof.
  intros Hp Hh Hend. assert (Hzero : forall d, Unlinked (concluded opts p t fo d) = true -> ConsecutiveFailures (concluded opts p t fo d) = 0%Z)
    by (intros d; destruct fo as [[]|]; cbn; congruence).
  assert (Hrest : forall d sr W, Forall silent_event W ->
    guarded (fun Z1 => unlinks_once (h ++ Z1)) (delay_after fo d ++ [EvSave (concluded opts p t fo d) sr] ++ W)).
  { intros d sr W HW. apply guarded_app. split.
    - eapply guarded_free; [|intros; by apply silent_unlinks]. by destruct fo; repeat constructor.
    - apply guarded_cons. split.
      + split; [|by intros ?; apply Hzero]. intros Hr. destruct Hh. rewrite app_nil_r in Hr. apply recorded_app in Hr as [Hr|(q&Hq&_)]; [done|].
        destruct fo; [by apply list_elem_of_singleton in Hq|by apply elem_of_nil in Hq].
      + eapply guarded_free; [exact HW|]. intros; by apply silent_unlinks. }
  destruct Hend as [|d W r _ _ -> _|d sr W r _ _ HW _ _ _ _].
  - apply guarded_nil.
  - apply Hrest. destruct fo as [[]|]; try constructor. destruct notified; by repeat constructor.
  - apply Hrest. by apply quiet_silent.
Qed.
Lemma once_unlinks h : store_remembers -> guarded silence h ->
  from Once h (fun X _ => guarded (fun X1 => unlinks_once (h ++ X1)) X).
Proof.
  intros Hst Hh. eapply from_mono; [apply once_run|]. intros X r [_|X' r' HX _ _|s t C p fo Z r' [_ Hl] Hu HC Hend].
  - apply guarded_nil.
  - eapply (guarded_free _ silent_event); [|intros; by apply silent_unlinks]. apply Forall_app.
    split; [by repeat constructor|by apply quiet_silent].
  - set (pre := [EvTakeDiagnostic; EvDelay (Interval opts)]) in *.
    assert (~ unlink_recorded h) as Hno.
    { intros Hr. destruct (unlink_last h Hh Hr) as (q&Hq&Hqu&Hqf). assert (Unlinked (progress s) = true); [|congruence].
      apply (Hst (h ++ pre) s q); try done; [|by unfold last_saved; rewrite omap_app, app_nil_r].
      apply guarded_app. split; [eapply guarded_mono; [exact Hh|by intros ? ? []]|]. repeat (apply guarded_cons; split; [done|]). apply guarded_nil. }
    change [EvTakeDiagnostic; EvDelay (Interval opts); EvLoad (Loaded s)] with (pre ++ [EvLoad (Loaded s)]).
    set (pre2 := pre ++ [EvLoad (Loaded s)]).
    assert (forall C1, (exists C2, C = C1 ++ C2) -> ~ unlink_recorded (h ++ pre2 ++ C1)) as HnoC.
    { intros C1 [C2 ->]. rewrite !recorded_app. intros [?|[(q&Hq&_)|(q&Hq&Hqu)]]; [done| |].
      - subst pre2 pre. repeat (apply elem_of_cons in Hq as [Hq|Hq]; [done|]). by apply elem_of_nil in Hq.
      - rewrite (cycle_linked _ _ q SaveOk (cp_guarded _ _ _ _ _ _ HC)) in Hqu by (apply elem_of_app; by left). cbn in Hqu. congruence. }
    apply guarded_app. split.
    { eapply (guarded_free _ silent_event); [by repeat constructor|intros; by apply silent_unlinks]. }
    apply guarded_app. split.
    + intros C1 ev C2 ->. split; [intros Hr; by destruct (HnoC C1 ltac:(by eexists))|].
      destruct ev as [| |q sr| | | | | | | |]; try done. intros Hq. rewrite (cycle_linked _ _ q sr (cp_guarded _ _ _ _ _ _ HC)) in Hq
        by (apply elem_of_app; right; left). cbn in Hq. congruence.
    + eapply guarded_mono; [eapply (ended_unlinks p t fo Z r' (h ++ pre2 ++ C)); [|by apply HnoC; exists []; rewrite app_nil_r|exact Hend]|].
      * destruct (cp_outcome _ _ _ _ _ _ HC) as (->&_). exact Hu.
      * cbn. intros Z1 ev. by rewrite <- !app_assoc.
Qed.

(** Over any store that keeps its promise, an unlinked node stays silent. *)
Lemma silent_run fuel : store_remembers ->
  from (Loop fuel) [] (fun X _ => guarded (fun X1 ev => unlink_recorded X1 -> silent_event ev) X).
Proof.
  intros Hst. eapply from_mono; [apply (run_guarded silence)|]; try done; [|apply guarded_nil|].
  - intros h Hh. eapply from_mono; [apply from_and; [apply once_honest|by apply once_unlinks]|].
    intros X r [H1 H2]. eapply guarded_mono; [apply (guarded_and _ _ _ H1 H2)|]. by intros X1 ev [? []].
  - intros X r H. cbn in H. eapply guarded_mono; [exact H|]. by intros X1 ev (_&?&_).
Qed.

(** ** Every sleep is bounded *)
Definition delay_ok (d : BinNums.Z) : Prop := (Z.quot (Interval opts) 2 <= d <= MaxBackoff opts)%Z.
Definition pace_ok (ev : sync_event) : Prop := match ev with EvDelay d | EvSleep d _ => delay_ok d | _ => True end.
Lemma last_delay_ok d h : delay_ok d -> Forall pace_ok h -> delay_ok (last_delay d h).
Proof. intros Hd H. revert d Hd. induction H as [|ev h Hev _ IH]; intros d Hd; [done|]. destruct ev; cbn; auto. Qed.
Lemma guarded_Forall (P : sync_event -> Prop) X : guarded (fun _ => P) X <-> Forall P X.
Proof.
  rewrite Forall_forall. split.
  - intros H ev (X1&X2&->)%list_elem_of_split. by apply (H X1 ev X2).
  - intros H X1 ev X2 ->. apply H, elem_of_app. right. left.
Qed.

End run.
