(* ===== verification/HostFiles.v ===== *)
(** * Files of the host

    A tree of directories and regular files with their modification times, and the calls
    of Go's [os] package the control server makes on it. A clean absolute path is the list
    of its components, so [filepath.Join] appends. Symbolic links and devices are
    [Special]: not regular, never followed. *)

From S2P Require Import Prelude GoStrings StrFacts.
From stdpp Require Import options.

(** ** Association lists *)
Section assoc.
Context {A : Type}.
Fixpoint aget (l : list (string * A)) (k : string) : option A :=
  match l with [] => None | f :: l => if f.1 =? k then Some f.2 else aget l k end.
Fixpoint aset (l : list (string * A)) (k : string) (a : A) : list (string * A) :=
  match l with [] => [(k, a)] | f :: l => if f.1 =? k then (k, a) :: l else f :: aset l k a end.
Definition adel (l : list (string * A)) (k : string) : list (string * A) := List.filter (fun f => negb (f.1 =? k)) l.
Lemma aget_aset l k j a : aget (aset l k a) j = if k =? j then Some a else aget l j.
Proof.
  induction l as [|f l IH]; cbn; [done|]. destruct (String.eqb_spec f.1 k) as [<-|Hk]; cbn.
  - by destruct (f.1 =? j).
  - rewrite IH. destruct (String.eqb_spec f.1 j) as [<-|Hj]; [|done]. destruct (String.eqb_spec k f.1); [congruence|done].
Qed.
Lemma aget_adel l k j : aget (adel l k) j = if k =? j then None else aget l j.
Proof.
  unfold adel. induction l as [|f l IH]; cbn; [by destruct (k =? j)|]. destruct (String.eqb_spec f.1 k) as [<-|Hk]; cbn.
  - rewrite IH. by destruct (f.1 =? j).
  - rewrite IH. destruct (String.eqb_spec f.1 j) as [<-|Hj]; [|done]. destruct (String.eqb_spec k f.1); [congruence|done].
Qed.
Lemma aget_in l k a : aget l k = Some a -> (k, a) ∈ l.
Proof.
  induction l as [|f l IH]; cbn; [done|]. destruct (String.eqb_spec f.1 k) as [<-|Hk].
  - intros [= <-]. destruct f. apply list_elem_of_here.
  - intros H. by apply list_elem_of_further, IH.
Qed.
End assoc.

(** ** The tree *)
Inductive node : Type :=
| File (data : string) (mtime : Z)
| Special
| Dir (entries : list (string * node)).
Definition path := list string.

Inductive fs_error : Type := ErrNotExist | ErrNotDir | ErrIsDir | ErrNotEmpty | ErrOther (text : string).
#[global] Instance fs_error_eq_dec : EqDecision fs_error.
Proof. solve_decision. Defined.

Fixpoint walk (n : node) (p : path) : result fs_error node :=
  match p with
  | [] => Ok n
  | c :: p =>
      match n with
      | Dir es => match aget es c with Some m => walk m p | None => Err ErrNotExist end
      | _ => Err ErrNotDir
      end
  end.
(** Replace what is at a path, given what is there. *)
Fixpoint edit (f : option node -> result fs_error (option node)) (n : node) (p : path) : result fs_error node :=
  match p, n with
  | [], _ => Err ErrIsDir
  | [c], Dir es => r ← f (aget es c); Ok (Dir (match r with Some m => aset es c m | None => adel es c end))
  | c :: p, Dir es =>
      match aget es c with
      | Some m => m' ← edit f m p; Ok (Dir (aset es c m'))
      | None => Err ErrNotExist
      end
  | _, _ => Err ErrNotDir
  end.

Definition Stat (t : node) (p : path) : result fs_error node := walk t p.
Definition ReadFile (t : node) (p : path) : result fs_error string :=
  n ← walk t p; match n with File d _ => Ok d | Dir _ => Err ErrIsDir | Special => Err (ErrOther "not a regular file") end.
Definition WriteFile (data : string) (mtime : Z) (t : node) (p : path) : result fs_error node :=
  edit (fun o => match o with
                 | Some (Dir _) => Err ErrIsDir
                 | Some Special => Err (ErrOther "not a regular file")
                 | _ => Ok (Some (File data mtime))
                 end) t p.
Fixpoint MkdirAll (t : node) (p : path) : result fs_error node :=
  match t with
  | Dir es =>
      match p with
      | [] => Ok t
      | c :: p => m ← MkdirAll (default (Dir []) (aget es c)) p; Ok (Dir (aset es c m))
      end
  | _ => Err ErrNotDir
  end.
Definition Remove (t : node) (p : path) : result fs_error node :=
  edit (fun o => match o with
                 | None => Err ErrNotExist
                 | Some (Dir (_ :: _)) => Err ErrNotEmpty
                 | Some _ => Ok None
                 end) t p.
(** A missing path is not an error. *)
Definition RemoveAll (t : node) (p : path) : result fs_error node :=
  match edit (fun _ => Ok None) t p with Err ErrNotExist => Ok t | r => r end.
(** Rename of a regular file. *)
Definition Rename (t : node) (old new : path) : result fs_error node :=
  n ← walk t old;
  t' ← edit (fun _ => Ok None) t old;
  edit (fun o => match o with Some (Dir _) => Err ErrIsDir | _ => Ok (Some n) end) t' new.
(** Entries in the order of their names. *)
Definition ReadDir (t : node) (p : path) : result fs_error (list (string * node)) :=
  n ← walk t p; match n with Dir es => Ok (SliceStable (fun f g => less_s f.1 g.1) es) | _ => Err ErrNotDir end.

(** ** What reading sees of a path, times aside *)
Inductive seen : Type := SFile (data : string) | SSpecial | SDir.
Definition shape (n : node) : seen := match n with File d _ => SFile d | Special => SSpecial | Dir _ => SDir end.
Definition look (t : node) (p : path) : result fs_error seen := n ← walk t p; Ok (shape n).
(** Two paths neither of which leads into the other. *)
Fixpoint apart (p q : path) : bool :=
  match p, q with c :: p, d :: q => negb (c =? d) || apart p q | _, _ => false end.
Fixpoint below (p q : path) : bool :=
  match p, q with [], _ => true | c :: p, d :: q => (c =? d) && below p q | _, [] => false end.

Lemma walk_app t p q : walk t (p ++ q) = (n ← walk t p; walk n q).
Proof.
  revert t. induction p as [|c p IH]; intros t; [done|]. cbn. destruct t; try done.
  destruct (aget entries c); [apply IH|done].
Qed.
Lemma apart_sym p q : apart p q = apart q p.
Proof.
  revert q. induction p as [|c p IH]; intros [|d q]; try done. cbn. rewrite IH.
  destruct (String.eqb_spec c d), (String.eqb_spec d c); congruence.
Qed.
Lemma apart_app p q r s : apart p q = true -> apart (p ++ r) (q ++ s) = true.
Proof.
  revert q. induction p as [|c p IH]; intros [|d q]; cbn; try done. destruct (c =? d); [|done]. cbn. apply IH.
Qed.
Lemma below_spec p q : below p q = true <-> exists r, q = p ++ r.
Proof.
  revert q. induction p as [|c p IH]; intros q; cbn; [split; [by exists q|done]|].
  destruct q as [|d q]; [split; [done|by intros [r ?]]|]. rewrite andb_true_iff, String.eqb_eq, IH. naive_solver.
Qed.

(** *** Edits *)
Lemma edit_nonempty f t p t' : edit f t p = Ok t' -> p <> [] /\ exists es, t = Dir es.
Proof. destruct p as [|c [|d p]], t; cbn; try done; eauto. Qed.
(** What the edit finds at its place. *)
Definition found (t : node) (p : path) : option node := match walk t p with Ok n => Some n | Err _ => None end.
Lemma edit_at f p : forall t t', edit f t p = Ok t' -> exists o, f (found t p) = Ok o /\ found t' p = o.
Proof.
  induction p as [|c p IH]; intros t t'; [done|]. destruct t as [| |es]; [by destruct p|by destruct p|].
  destruct p as [|d p].
  - cbn. unfold found. cbn. destruct (f (aget es c)) as [o|e] eqn:E; [|done]. cbn. intros [= <-]. exists o.
    split; [by destruct (aget es c)|]. destruct o as [m|]; cbn.
    + by rewrite aget_aset, String.eqb_refl.
    + by rewrite aget_adel, String.eqb_refl.
  - change (edit f (Dir es) (c :: d :: p)) with (match aget es c with Some m => m' ← edit f m (d :: p); Ok (Dir (aset es c m')) | None => Err ErrNotExist end).
    destruct (aget es c) as [m|] eqn:Ec; [|done]. destruct (edit f m (d :: p)) as [m'|e] eqn:E; [|done]. cbn [mbind result_bind].
    intros [= <-]. destruct (IH _ _ E) as (o&Ho&Hf). exists o. unfold found in *. cbn [walk].
    rewrite Ec, aget_aset, String.eqb_refl. done.
Qed.
Lemma edit_apart f p : forall t t' q, edit f t p = Ok t' -> apart p q = true -> walk t' q = walk t q.
Proof.
  induction p as [|c p IH]; intros t t' q; [done|]. destruct t as [| |es]; [by destruct p|by destruct p|].
  destruct q as [|k q]; [done|]. cbn [apart].
  destruct p as [|d p].
  - cbn [edit]. destruct (f (aget es c)) as [o|e]; [|done]. cbn [mbind result_bind]. intros [= <-].
    destruct (String.eqb_spec c k) as [->|Hk]; [by destruct q|]. intros _. cbn [walk].
    destruct o as [m|]; [rewrite aget_aset|rewrite aget_adel]; by destruct (String.eqb_spec c k).
  - change (edit f (Dir es) (c :: d :: p)) with (match aget es c with Some m => m' ← edit f m (d :: p); Ok (Dir (aset es c m')) | None => Err ErrNotExist end).
    destruct (aget es c) as [m|] eqn:Ec; [|done]. destruct (edit f m (d :: p)) as [m'|e] eqn:E; [|done]. cbn [mbind result_bind].
    intros [= <-] Ha. cbn [walk]. rewrite aget_aset. destruct (String.eqb_spec c k) as [->|Hk]; [|done].
    rewrite Ec. eapply IH; [done|]. exact Ha.
Qed.
(** The directories above stay directories. *)
Lemma edit_above f p : forall t t' q c r, edit f t p = Ok t' -> p = q ++ c :: r -> exists es, walk t q = Ok (Dir es) /\ exists es', walk t' q = Ok (Dir es').
Proof.
  induction p as [|c p IH]; intros t t' q k r He Hp; [done|]. destruct t as [| |es]; [by destruct p|by destruct p|].
  destruct q as [|j q].
  - cbn. exists es. split; [done|]. destruct p as [|d p].
    + cbn in He. destruct (f (aget es c)); [|done]. injection He as <-. eauto.
    + change (edit f (Dir es) (c :: d :: p)) with (match aget es c with Some m => m' ← edit f m (d :: p); Ok (Dir (aset es c m')) | None => Err ErrNotExist end) in He.
      destruct (aget es c); [|done]. destruct (edit f _ _); [|done]. injection He as <-. eauto.
  - injection Hp as <- Hp. destruct p as [|d p]; [by destruct q|].
    change (edit f (Dir es) (c :: d :: p)) with (match aget es c with Some m => m' ← edit f m (d :: p); Ok (Dir (aset es c m')) | None => Err ErrNotExist end) in He.
    destruct (aget es c) as [m|] eqn:Ec; [|done]. destruct (edit f m (d :: p)) as [m'|] eqn:E; [|done]. injection He as <-.
    cbn [walk]. rewrite Ec, aget_aset, String.eqb_refl. by eapply IH.
Qed.
