(* ===== verification/Tar.v ===== *)
(** * The archives Docker exchanges (worker/controldocker/tar.go)

    A ustar archive of one or more small files, built and read byte by byte. A byte
    slice is a list of characters; [Sprintf("%o")] prints octal digits. *)

From S2P Require Import Prelude GoStrings StrFacts.
From stdpp Require Import options.

Abbreviation bytes := (list ascii).
Definition bytes_of (s : string) : bytes := String.list_ascii_of_string s.
Definition text_of (b : bytes) : string := String.string_of_list_ascii b.

Definition tarBlock : nat := 512.
Record tarEntry := mkEntry { EName : string; EContents : bytes }.

(** [copy(dst[off:off+len], src)]. *)
Definition blit (dst : bytes) (off len : nat) (src : bytes) : bytes :=
  take off dst ++ take len src ++ drop (off + length (take len src)) dst.

(** [%o] *)
Fixpoint octal (fuel : nat) (z : Z) : bytes :=
  match fuel with
  | O => []
  | S fuel => (if (z <? 8)%Z then [] else octal fuel (z / 8)) ++ [byte_of (48 + z mod 8)]
  end.
Definition fmt_o (z : Z) : bytes := octal 22 z.
Definition zeros (n : nat) : bytes := replicate n NUL.
Definition digits0 (n : nat) : bytes := replicate n (byte_of 48).
(** [%06o] *)
Definition fmt_06o (z : Z) : bytes := digits0 (6 - length (fmt_o z)) ++ fmt_o z.

Definition writeTarOctal (header : bytes) (offset len : nat) (value : Z) : bytes :=
  let text := fmt_o value in
  let text := digits0 (len - 1 - length text) ++ text in
  blit header offset len (text ++ [NUL]).
Definition sum_bytes (b : bytes) : Z := foldr (fun c n => (code c + n)%Z) 0%Z b.
Definition padding (n : nat) : nat := (tarBlock - n mod tarBlock) mod tarBlock.

Definition tar_header (entry : tarEntry) : bytes :=
  let h := zeros tarBlock in
  let h := blit h 0 100 (bytes_of (EName entry)) in
  let h := writeTarOctal h 100 8 420 in
  let h := writeTarOctal h 108 8 0 in
  let h := writeTarOctal h 116 8 0 in
  let h := writeTarOctal h 124 12 (Z.of_nat (length (EContents entry))) in
  let h := writeTarOctal h 136 12 0 in
  let h := blit h 156 1 (bytes_of "0") in
  let h := blit h 257 6 (bytes_of "ustar") in
  let h := blit h 263 2 (bytes_of "00") in
  let h := blit h 265 32 (bytes_of "root") in
  let h := blit h 297 32 (bytes_of "root") in
  let h := blit h 148 8 (bytes_of "        ") in
  let sum := sum_bytes h in
  let h := blit h 148 6 (fmt_06o sum) in
  let h := blit h 154 1 [NUL] in
  blit h 155 1 (bytes_of " ").
Definition tar_member (entry : tarEntry) : bytes :=
  tar_header entry ++ EContents entry ++ zeros (padding (length (EContents entry))).
Definition createTar (entries : list tarEntry) : bytes :=
  concat (map tar_member entries) ++ zeros (2 * tarBlock).

(** ** Reading *)
Definition allZero (block : bytes) : bool := forallb (fun c => ascii_eqb c NUL) block.
Fixpoint until_nul (b : bytes) : bytes :=
  match b with [] => [] | c :: b => if ascii_eqb c NUL then [] else c :: until_nul b end.
(** The leading octal digits; [None] above one GiB. *)
Fixpoint parse_octal (size : Z) (text : bytes) : option Z :=
  match text with
  | [] => Some size
  | c :: text =>
      if in_range 48 55 c then
        let size := (size * 8 + (code c - 48))%Z in
        if (2 ^ 30 <? size)%Z then None else parse_octal size text
      else Some size
  end.
Definition parseTarSize (field : bytes) : option Z :=
  parse_octal 0 (bytes_of (TrimSpace (text_of (until_nul field)))).

Inductive tar_error : Type := errNoTarFile.
(** [fuel] bounds the number of headers; the archive's length is enough. *)
Fixpoint extract_loop (fuel : nat) (archive : bytes) : result tar_error bytes :=
  match fuel with
  | O => Err errNoTarFile
  | S fuel =>
      if (length archive <? tarBlock)%nat then Err errNoTarFile else
      let header := take tarBlock archive in
      let rest := drop tarBlock archive in
      if allZero header then Err errNoTarFile else
      match parseTarSize (take 12 (drop 124 header)) with
      | None => Err errNoTarFile
      | Some size =>
          let size := Z.to_nat size in
          match header !! 156 with
          | Some flag =>
              if ascii_eqb flag NUL || ascii_eqb flag "0" then Ok (take size rest)
              else extract_loop fuel (drop (size + padding size) rest)
          | None => Err errNoTarFile
          end
      end
  end.
Definition extractFirstFile (archive : bytes) : result tar_error bytes := extract_loop (S (length archive)) archive.

Example tar_example :
  let a := createTar [mkEntry "Corefile" (bytes_of "hello")] in
  length a = 2048%nat /\ extractFirstFile a = Ok (bytes_of "hello")
  /\ extractFirstFile (zeros 1024) = Err errNoTarFile.
Proof. split_and!; vm_compute; reflexivity. Qed.

(** ** Archives are read back as built

    The first file of an archive built by [createTar] is its first entry, byte for byte. *)
(** ** Blits *)
Lemma blit_length dst off len src : off + length (take len src) <= length dst -> length (blit dst off len src) = length dst.
Proof. intros H. unfold blit. rewrite !length_app, length_take, length_drop. lia. Qed.
Lemma blit_in dst off len src i : off <= length dst -> off <= i < off + length (take len src) ->
  blit dst off len src !! i = src !! (i - off).
Proof.
  intros Hd Hi. unfold blit. rewrite lookup_app_r; rewrite length_take_le by done; [|lia].
  rewrite lookup_app_l by lia. apply lookup_take_lt. rewrite length_take in Hi. lia.
Qed.
Lemma blit_out dst off len src i : off + length (take len src) <= length dst -> i < off \/ off + length (take len src) <= i ->
  blit dst off len src !! i = dst !! i.
Proof.
  intros Hd [Hi|Hi]; unfold blit.
  - rewrite lookup_app_l by (rewrite length_take_le; lia). by apply lookup_take_lt.
  - rewrite lookup_app_r; rewrite length_take_le by lia; [|lia]. rewrite lookup_app_r by lia. rewrite lookup_drop.
    f_equal. lia.
Qed.

(** ** Octal digits *)
Definition octal_digit (c : ascii) : bool := in_range 48 55 c.
Lemma octal_digits fuel z : (0 <= z)%Z -> forallb octal_digit (octal fuel z) = true.
Proof.
  revert z. induction fuel as [|fuel IH]; intros z Hz; [done|]. cbn [octal]. rewrite forallb_app. apply andb_true_iff. split.
  - destruct (z <? 8)%Z; [done|]. apply IH. apply Z.div_pos; lia.
  - cbn. unfold octal_digit, in_range. pose proof (Z.mod_pos_bound z 8 ltac:(lia)).
    rewrite code_byte_of by lia. rewrite andb_true_r. apply andb_true_iff. rewrite !Z.leb_le. lia.
Qed.
Lemma octal_length fuel k z : (0 <= z < 8 ^ Z.of_nat k)%Z -> 0 < k -> length (octal fuel z) <= k.
Proof.
  revert fuel z. induction k as [|k IH]; intros fuel z Hz Hk; [lia|]. destruct fuel as [|fuel]; [cbn; lia|]. cbn [octal].
  rewrite length_app. cbn [length]. destruct (z <? 8)%Z eqn:E; [cbn; lia|]. bsimp.
  destruct k as [|k]; [change (8 ^ Z.of_nat 1)%Z with 8%Z in Hz; lia|].
  specialize (IH fuel (z / 8)%Z). rewrite Nat2Z.inj_succ, Z.pow_succ_r in Hz by lia.
  enough (length (octal fuel (z / 8)) <= S k) by lia. apply IH; [|lia]. split; [apply Z.div_pos; lia|].
  apply Z.div_lt_upper_bound; lia.
Qed.
Lemma parse_digit acc c rest : octal_digit c = true -> (0 <= acc)%Z -> (acc * 8 + (code c - 48) <= 2 ^ 30)%Z ->
  parse_octal acc (c :: rest) = parse_octal (acc * 8 + (code c - 48)) rest.
Proof.
  intros Hc Ha Hle. cbn [parse_octal]. unfold octal_digit in Hc. rewrite Hc.
  assert ((2 ^ 30 <? acc * 8 + (code c - 48))%Z = false) as ->; [|done]. apply Z.ltb_ge. lia.
Qed.
Lemma parse_octal_read fuel : forall z acc rest, (0 <= z < 8 ^ Z.of_nat fuel)%Z -> (0 <= acc)%Z -> 0 < fuel ->
  (acc * 8 ^ Z.of_nat (length (octal fuel z)) + z <= 2 ^ 30)%Z ->
  parse_octal acc (octal fuel z ++ rest) = parse_octal (acc * 8 ^ Z.of_nat (length (octal fuel z)) + z) rest.
Proof.
  induction fuel as [|fuel IH]; intros z acc rest Hz Ha Hf Hle; [lia|]. cbn [octal] in *.
  pose proof (Z.mod_pos_bound z 8 ltac:(lia)) as Hm. pose proof (Z.div_mod z 8 ltac:(lia)) as Hdm.
  assert (Hd : octal_digit (byte_of (48 + z mod 8)) = true).
  { unfold octal_digit, in_range. rewrite code_byte_of by lia. apply andb_true_iff. rewrite !Z.leb_le. lia. }
  destruct (z <? 8)%Z eqn:E; bsimp.
  - cbn [app length] in *. change (8 ^ Z.of_nat 1)%Z with 8%Z in *. rewrite Z.mod_small by lia.
    rewrite Z.mod_small in Hd by lia. rewrite parse_digit; rewrite ?code_byte_of by lia; [f_equal; lia|done|lia|lia].
  - rewrite length_app in *. cbn [length] in *. rewrite Nat2Z.inj_add, Z.pow_add_r in * by lia. change (8 ^ Z.of_nat 1)%Z with 8%Z in *.
    destruct fuel as [|fuel]; [change (8 ^ Z.of_nat 1)%Z with 8%Z in Hz; lia|].
    rewrite Nat2Z.inj_succ, Z.pow_succ_r in Hz by lia.
    assert (0 <= z / 8 < 8 ^ Z.of_nat (S fuel))%Z as Hz8 by (split; [apply Z.div_pos; lia|apply Z.div_lt_upper_bound; lia]).
    set (L := (8 ^ Z.of_nat (length (octal (S fuel) (z / 8))))%Z) in *.
    assert (0 <= L)%Z by (apply Z.pow_nonneg; lia). assert (0 <= acc * L)%Z by (apply Z.mul_nonneg_nonneg; lia).
    rewrite <- app_assoc. rewrite IH by (done || lia). cbn [app].
    rewrite parse_digit; rewrite ?code_byte_of by lia; [f_equal; lia|done|lia|lia].
Qed.
Lemma parse_zeros n rest : parse_octal 0 (digits0 n ++ rest) = parse_octal 0 rest.
Proof. induction n as [|n IH]; [done|]. cbn [digits0 replicate app]. by rewrite parse_digit. Qed.

(** ** The size field *)
Definition size_text (z : Z) : bytes := digits0 (11 - length (fmt_o z)) ++ fmt_o z.
Lemma size_text_length z : (0 <= z < 8 ^ 11)%Z -> length (size_text z) = 11.
Proof.
  intros Hz. unfold size_text, fmt_o. rewrite length_app. unfold digits0. rewrite length_replicate.
  pose proof (octal_length 22 11 z ltac:(change (Z.of_nat 11) with 11%Z; lia) ltac:(lia)). lia.
Qed.
Lemma until_nul_app b rest : forallb (fun c => negb (ascii_eqb c NUL)) b = true -> until_nul (b ++ NUL :: rest) = b.
Proof.
  induction b as [|c b IH]; cbn [app until_nul forallb]; [by rewrite ascii_eqb_refl|]. intros H. bsimp.
  destruct (ascii_eqb c NUL); [done|]. by rewrite IH.
Qed.
Lemma size_text_digits z : (0 <= z)%Z -> forallb octal_digit (size_text z) = true.
Proof.
  intros Hz. unfold size_text, fmt_o. rewrite forallb_app, octal_digits by done. rewrite andb_true_r.
  unfold digits0. induction (11 - _) as [|n IH]; [done|exact IH].
Qed.
Lemma bytes_text b : bytes_of (text_of b) = b.
Proof. unfold bytes_of, text_of. induction b as [|c b IH]; [done|]. cbn. by rewrite IH. Qed.
Lemma text_bytes s : text_of (bytes_of s) = s.
Proof. unfold bytes_of, text_of. induction s as [|c s IH]; [done|]. cbn. by rewrite IH. Qed.
Lemma length_text b : String.length (text_of b) = length b.
Proof. induction b as [|c b IH]; [done|]. cbn. by rewrite <- IH. Qed.
Lemma sall_text p b : sall p (text_of b) = forallb p b.
Proof. induction b as [|c b IH]; [done|]. cbn. by rewrite <- IH. Qed.
Lemma forallb_impl {A} (p q : A -> bool) l : (forall a, p a = true -> q a = true) -> forallb p l = true -> forallb q l = true.
Proof. intros H. induction l as [|a l IH]; cbn; [done|]. intros; bsimp. rewrite (H a), IH; done. Qed.
Lemma parse_size z : (0 <= z <= 2 ^ 30)%Z -> parseTarSize (size_text z ++ [NUL]) = Some z.
Proof.
  intros Hz. unfold parseTarSize. pose proof (size_text_digits z ltac:(lia)) as Hd.
  rewrite until_nul_app by (eapply forallb_impl; [|exact Hd]; intros c; by destruct c as [[] [] [] [] [] [] [] []]).
  rewrite TrimSpace_plain by (rewrite sall_text; eapply forallb_impl; [|exact Hd]; intros c; by destruct c as [[] [] [] [] [] [] [] []]).
  rewrite bytes_text. unfold size_text. rewrite parse_zeros. rewrite <- (app_nil_r (fmt_o z)). unfold fmt_o.
  rewrite parse_octal_read; [cbn [parse_octal]; f_equal; lia| |lia|lia|lia].
  split; [lia|]. apply (Z.le_lt_trans _ (2 ^ 30)); [lia|]. reflexivity.
Qed.

(** ** The header *)
Lemma forallb_octal_size z : (0 <= z < 8 ^ 11)%Z -> length (size_text z ++ [NUL]) = 12.
Proof. intros Hz. rewrite length_app, size_text_length by done. done. Qed.
Lemma writeTarOctal_size h off z : writeTarOctal h off 12 z = blit h off 12 (size_text z ++ [NUL]).
Proof. reflexivity. Qed.

(** Blits of known widths inside the block: the length stays, other places stay. *)
Definition fits (src : bytes) (off len : nat) : Prop := off + length (take len src) <= tarBlock.
Definition keeps (h h' : bytes) (lo hi : nat) : Prop := forall i, i < lo \/ hi <= i -> h' !! i = h !! i.
Lemma blit_keeps h off len src : length h = tarBlock -> off + len <= tarBlock ->
  length (blit h off len src) = tarBlock /\ keeps h (blit h off len src) off (off + len).
Proof.
  intros Hl Hf. assert (length (take len src) <= len) by (rewrite length_take; lia). split.
  - rewrite blit_length; lia.
  - intros i Hi. apply blit_out; lia.
Qed.

Lemma oct_length h off len z : length h = tarBlock -> off + len <= tarBlock -> length (writeTarOctal h off len z) = tarBlock.
Proof. intros Hl Hf. unfold writeTarOctal. cbv zeta. by apply blit_keeps. Qed.

Section header.
Context (e : tarEntry).
Definition h1 : bytes := blit (zeros tarBlock) 0 100 (bytes_of (EName e)).
Definition h4 : bytes := writeTarOctal (writeTarOctal (writeTarOctal h1 100 8 420) 108 8 0) 116 8 0.
Definition h5 : bytes := writeTarOctal h4 124 12 (Z.of_nat (length (EContents e))).
Definition h7 : bytes := blit (writeTarOctal h5 136 12 0) 156 1 (bytes_of "0").
Definition h12 : bytes := blit (blit (blit (blit (blit h7 257 6 (bytes_of "ustar")) 263 2 (bytes_of "00")) 265 32 (bytes_of "root"))
  297 32 (bytes_of "root")) 148 8 (bytes_of "        ").
Lemma tar_header_steps : tar_header e = blit (blit (blit h12 148 6 (fmt_06o (sum_bytes h12))) 154 1 [NUL]) 155 1 (bytes_of " ").
Proof. reflexivity. Qed.
Lemma h1_length : length h1 = tarBlock.
Proof.
  unfold h1. assert (length (take 100 (bytes_of (EName e))) <= 100) by (rewrite length_take; lia).
  rewrite blit_length; [apply length_replicate|]. unfold zeros. rewrite length_replicate. unfold tarBlock. lia.
Qed.
Lemma h4_keeps : length h4 = tarBlock /\ keeps h1 h4 100 124.
Proof.
  pose proof h1_length as H0. unfold h4, writeTarOctal.
  destruct (blit_keeps h1 100 8 (digits0 (8 - 1 - length (fmt_o 420)) ++ fmt_o 420 ++ [NUL])) as [L1 K1]; [done|unfold tarBlock; lia|].
  rewrite app_assoc in L1, K1. set (a := blit h1 100 8 _) in *.
  destruct (blit_keeps a 108 8 ((digits0 (8 - 1 - length (fmt_o 0)) ++ fmt_o 0) ++ [NUL])) as [L2 K2]; [done|unfold tarBlock; lia|].
  set (b := blit a 108 8 _) in *.
  destruct (blit_keeps b 116 8 ((digits0 (8 - 1 - length (fmt_o 0)) ++ fmt_o 0) ++ [NUL])) as [L3 K3]; [done|unfold tarBlock; lia|].
  split; [done|]. intros i Hi. rewrite K3, K2, K1 by lia. done.
Qed.
Lemma after_size : length (tar_header e) = tarBlock /\ keeps h5 (tar_header e) 136 329.
Proof.
  destruct h4_keeps as [L4 _].
  destruct (blit_keeps h4 124 12 (size_text (Z.of_nat (length (EContents e))) ++ [NUL])) as [L5 _]; [done|unfold tarBlock; lia|].
  rewrite <- writeTarOctal_size in L5. fold h5 in L5. rewrite tar_header_steps. unfold h12, h7. rewrite writeTarOctal_size.
  repeat match goal with |- context [blit ?h ?o ?l ?s] =>
    lazymatch h with blit _ _ _ _ => fail | _ =>
      let L := fresh "L" in let K := fresh "K" in let x := fresh "x" in
      destruct (blit_keeps h o l s) as [L K]; [assumption|unfold tarBlock; lia|]; set (x := blit h o l s) in *; clearbody x
    end end.
  split; [assumption|]. intros i Hi.
  repeat match goal with K : keeps ?h ?x _ _ |- ?x !! i = _ => rewrite K by lia end. done.
Qed.
End header.

Lemma type_flag e : tar_header e !! 156 = Some "0"%char.
Proof.
  destruct (h4_keeps e) as [L4 _]. rewrite tar_header_steps. unfold h12.
  assert (length (h7 e) = tarBlock /\ h7 e !! 156 = Some "0"%char) as [L7 H7].
  { unfold h7. assert (length (writeTarOctal (h5 e) 136 12 0) = tarBlock) as Lb.
    { apply oct_length; [apply oct_length; [exact L4|unfold tarBlock; lia]|unfold tarBlock; lia]. }
    set (b := writeTarOctal (h5 e) 136 12 0) in *. clearbody b. split; [apply blit_keeps; [exact Lb|unfold tarBlock; lia]|].
    rewrite blit_in; [done|rewrite Lb; unfold tarBlock; lia|cbn; lia]. }
  set (h := h7 e) in *. clearbody h.
  repeat match goal with |- context [blit ?h ?o ?l ?s] =>
    lazymatch h with blit _ _ _ _ => fail | _ =>
      let L := fresh "L" in let K := fresh "K" in let x := fresh "x" in
      destruct (blit_keeps h o l s) as [L K]; [assumption|unfold tarBlock; lia|]; set (x := blit h o l s) in *; clearbody x
    end end.
  repeat match goal with K : keeps ?h ?x _ _ |- ?x !! _ = _ => rewrite K by lia end. done.
Qed.
Lemma size_field e : (Z.of_nat (length (EContents e)) <= 2 ^ 30)%Z ->
  take 12 (drop 124 (tar_header e)) = size_text (Z.of_nat (length (EContents e))) ++ [NUL].
Proof.
  intros Hl. set (z := Z.of_nat (length (EContents e))) in *.
  assert (0 <= z < 8 ^ 11)%Z as Hz by (split; [lia|apply (Z.le_lt_trans _ (2 ^ 30)); [lia|reflexivity]]).
  pose proof (forallb_octal_size z Hz) as H12. destruct (after_size e) as [L K]. destruct (h4_keeps e) as [L4 _].
  apply list_eq. intros i. destruct (decide (i < 12)) as [Hi|Hi].
  - rewrite lookup_take_lt by done. rewrite lookup_drop. rewrite K by lia. unfold h5. rewrite writeTarOctal_size. fold z.
    rewrite blit_in; [f_equal; lia|rewrite L4; unfold tarBlock; lia|]. rewrite length_take. lia.
  - rewrite !lookup_ge_None_2; [done|lia|]. rewrite length_take. lia.
Qed.
Lemma name_field e : length (bytes_of (EName e)) < 100 -> forallb (fun c => negb (ascii_eqb c NUL)) (bytes_of (EName e)) = true ->
  until_nul (take 100 (tar_header e)) = bytes_of (EName e).
Proof.
  intros Hl Hn. destruct (after_size e) as [L K]. destruct (h4_keeps e) as [L4 K4]. set (name := bytes_of (EName e)) in *.
  assert (take 100 (tar_header e) = name ++ NUL :: zeros (99 - length name)) as ->; [|by apply until_nul_app].
  assert (take 100 name = name) as Ht by (apply take_ge; lia).
  apply list_eq. intros i. destruct (decide (i < 100)) as [Hi|Hi].
  2:{ rewrite (lookup_ge_None_2 (take 100 _)) by (rewrite length_take; lia). rewrite lookup_ge_None_2; [done|].
      rewrite length_app. cbn [length]. unfold zeros. rewrite length_replicate. lia. }
  rewrite lookup_take_lt by done. rewrite K by lia. unfold h5. rewrite writeTarOctal_size.
  destruct (blit_keeps (h4 e) 124 12 (size_text (Z.of_nat (length (EContents e))) ++ [NUL])) as [_ K5]; [done|unfold tarBlock; lia|].
  rewrite K5, K4 by lia. unfold h1. fold name. destruct (decide (i < length name)) as [Hin|Hin].
  - rewrite blit_in; [|unfold zeros; rewrite length_replicate; lia|rewrite Ht; lia]. rewrite lookup_app_l by done. f_equal. lia.
  - rewrite blit_out; [|unfold zeros; rewrite length_replicate, Ht; unfold tarBlock; lia|rewrite Ht; lia].
    rewrite lookup_app_r by lia. unfold zeros. rewrite lookup_replicate_2 by (unfold tarBlock; lia).
    destruct (i - length name) as [|j] eqn:E; [done|]. symmetry. exact (lookup_replicate_2 (99 - length name) NUL j ltac:(lia)).
Qed.

(** What follows the first member does not matter. *)
Lemma extract_member e rest fuel : (Z.of_nat (length (EContents e)) <= 2 ^ 30)%Z ->
  extract_loop (S fuel) (tar_header e ++ EContents e ++ rest) = Ok (EContents e).
Proof.
  intros Hl. destruct (after_size e) as [L _]. cbn [extract_loop].
  assert (Nat.ltb (length (tar_header e ++ EContents e ++ rest)) tarBlock = false) as ->.
  { apply Nat.ltb_ge. rewrite length_app. lia. }
  rewrite <- L, take_app_length, drop_app_length.
  assert (allZero (tar_header e) = false) as ->.
  { apply not_true_iff_false. unfold allZero. rewrite forallb_Forall, Forall_lookup. intros Hz.
    specialize (Hz _ _ (type_flag e)). done. }
  rewrite size_field by done. rewrite parse_size by lia. rewrite type_flag.
  change (ascii_eqb "0" NUL || ascii_eqb "0" "0") with true. cbv iota. rewrite Nat2Z.id. by rewrite take_app_length.
Qed.
Lemma extract_first e es : (Z.of_nat (length (EContents e)) <= 2 ^ 30)%Z -> extractFirstFile (createTar (e :: es)) = Ok (EContents e).
Proof.
  intros Hl. unfold extractFirstFile, createTar. cbn [map concat].
  assert (forall rest, tar_member e ++ rest = tar_header e ++ EContents e ++ zeros (padding (length (EContents e))) ++ rest) as Hm.
  { intros rest. unfold tar_member. by rewrite <- !app_assoc. }
  rewrite <- app_assoc, Hm. by apply extract_member.
Qed.

(** What Docker is sent is read back: the first file of an archive [createTar] builds is its
    first entry's contents, byte for byte, whatever the names and the entries behind it, as
    long as the file is at most one GiB, the reader's limit. *)
Theorem tar_roundtrip e es : (Z.of_nat (length (EContents e)) <= 2 ^ 30)%Z ->
  extractFirstFile (createTar (e :: es)) = Ok (EContents e).
Proof. apply extract_first. Qed.
Lemma tar_roundtrip_witness :
  extractFirstFile (createTar [mkEntry "Corefile" (bytes_of ". { }"); mkEntry "second" []]) = Ok (bytes_of ". { }").
Proof. apply (tar_roundtrip (mkEntry "Corefile" (bytes_of ". { }"))). apply Z.leb_le. reflexivity. Defined.
