(* ===== verification/Candidate.v ===== *)
(** * Rendered candidates and the desired snapshot (worker/apply/candidate.go, desired.go)

    Lexical paths as [path/filepath] cleans them, the file operations a
    candidate makes, and the snapshot a node renders. *)

From S2P Require Import Prelude GoStrings StrFacts Json JsonText Scrub.
From stdpp Require Import options.

(** ** Paths *)
Definition clean_step (rooted : bool) (acc : list string) (part : string) : list string :=
  if (part =? "") || (part =? ".") then acc
  else if part =? ".." then
    match acc with
    | p :: acc' => if p =? ".." then part :: acc else acc'
    | [] => if rooted then [] else [part]
    end
  else part :: acc.
(** The kept components, last first. *)
Definition clean_parts (p : string) : list string := foldl (clean_step (HasPrefix p "/")) [] (Split "/" p).
Definition Clean (p : string) : string :=
  let body := Join (rev (clean_parts p)) "/" in
  if HasPrefix p "/" then "/" +:+ body else if body =? "" then "." else body.
Definition path_Join (a b : string) : string :=
  if a =? "" then (if b =? "" then "" else Clean b) else if b =? "" then Clean a else Clean (a +:+ "/" +:+ b).
(** Up to and including the last slash. *)
Definition dir_part (p : string) : string := srev (skip_while (fun c => negb (ascii_eqb c "/")) (srev p)).
Definition path_Dir (p : string) : string := Clean (dir_part p).

(** ** Writing a candidate *)
Definition Service := string.
Definition ServiceCoreDNS : Service := "coredns".
Definition ServiceNginx : Service := "nginx".
Definition DefaultCandidateRoot : string := "/var/lib/proxycore/candidates".

(** [Files] is a map: [None] is nil; the list is in iteration order. *)
Record Candidate := mkCandidate {
  CService : Service; CandidatePath : string; CChecksum : string; CFiles : option (list (string * string)) }.
Inductive fs_op : Type := MkdirAll (path : string) | WriteFile (path data : string).

Definition valid_name (name : string) : bool :=
  negb (HasPrefix name "/") && negb (Contains name "..") && negb (ContainsChar name NUL).
Definition inside_root (root path : string) : bool :=
  HasPrefix path (TrimRightChar root "/" +:+ "/") && negb (Contains path "..").
Definition ErrOutsideRoot : string := "Candidate path is outside the worker candidate root".
Definition ErrFilePath : string := "Candidate file path is invalid".
(** The operations of one file, and of the whole candidate in order. *)
Definition write_file (path : string) (files : list (string * string)) (name : string) : list fs_op :=
  let target := path_Join path name in
  [MkdirAll (path_Dir target); WriteFile target (default "" (snd <$> find_first (fun f => f.1 =? name) files))].
Definition writeCandidate (c : Candidate) (candidateRoot : string) : result string (list fs_op) :=
  match CFiles c with
  | None => mret []
  | Some files =>
      ensure (inside_root candidateRoot (CandidatePath c)) ErrOutsideRoot;;
      ensure (forallb (fun f => valid_name f.1) files) ErrFilePath;;
      mret (MkdirAll (CandidatePath c)
            :: concat (map (write_file (CandidatePath c) files) (SortStrings (map fst files))))
  end.

(** ** Raw JSON objects: [map[string]json.RawMessage] *)
Definition rawmap := list (string * string).
Definition add_raw (m : rawmap) (k v : string) : rawmap :=
  if existsb (fun f => f.1 =? k) m then m else (k, v) :: m.
(** The members of a valid object after its brace, in document order: each value
    is its text as it stands, without the spaces around it. *)
Fixpoint raw_pairs (fuel : nat) (s : string) : option rawmap :=
  match fuel with
  | O => None
  | S fuel =>
      match skip_ws s with
      | String c s1 =>
          if ascii_eqb c "}" then Some [] else
          '(k, _, r) ← read_string (S (String.length s1)) s1;
          let v := skip_ws (drop_s 1 (skip_ws r)) in
          '(_, _, r2) ← read_value (2 * String.length v + 2) v;
          let raw := take_s (String.length v - String.length r2) v in
          match skip_ws r2 with
          | String d r3 => if ascii_eqb d "}" then Some [(valid_utf8 k, raw)]
                           else m ← raw_pairs fuel r3; Some ((valid_utf8 k, raw) :: m)
          | EmptyString => None
          end
      | EmptyString => None
      end
  end.
(** Decoding into a map keeps the last value of a repeated key. *)
Definition raw_members (fuel : nat) (s : string) : option rawmap :=
  m ← raw_pairs fuel s; Some (foldr (fun f m => add_raw m f.1 f.2) [] m).
Definition decodeObject (raw : option string) : option rawmap :=
  let trimmed := TrimSpace (default "" raw) in
  match trimmed with
  | String c s => if ascii_eqb c "{" && json_Valid trimmed then raw_members (S (String.length s)) s else None
  | EmptyString => None
  end.
Definition raw_get (m : rawmap) (k : string) : option string := snd <$> find_first (fun f => f.1 =? k) m.
Fixpoint raw_set (m : rawmap) (k v : string) : rawmap :=
  match m with
  | [] => [(k, v)]
  | f :: m => if f.1 =? k then (k, v) :: m else f :: raw_set m k v
  end.
Definition nonEmptyString (raw : option string) : string :=
  match raw with
  | None => ""
  | Some t => match json_Unmarshal t with Some (JStr s) => s | _ => "" end
  end.

(** [mustMarshal] of a map of raw values; [None] is its panic, on invalid JSON. *)
Definition marshal_raw (m : rawmap) : option string :=
  l ← mapM (fun f => t ← json_Compact f.2; Some (f.1, t)) m;
  Some ("{" +:+ Join (map (fun f => json_plain f.1 +:+ ":" +:+ f.2) (SliceStable key_less l)) "," +:+ "}").
Definition marshal_strings (m : list (string * string)) : string :=
  "{" +:+ Join (map (fun f => json_plain f.1 +:+ ":" +:+ json_plain f.2) (SliceStable key_less m)) "," +:+ "}".

(** ** The desired snapshot *)
Definition node_ingress (top : rawmap) : string * string :=
  match decodeObject (raw_get top "nodeLocal") with
  | Some nodeLocal =>
      match decodeObject (raw_get nodeLocal "ingress") with
      | Some ingress => (nonEmptyString (raw_get ingress "ipv4"), nonEmptyString (raw_get ingress "ipv6"))
      | None => ("", "")
      end
  | None => ("", "")
  end.
(** [None] is a panic of [mustMarshal]. *)
Definition DesiredSnapshot (snapshot : string) : option string :=
  match (top ← decodeObject (Some snapshot);
         replicated ← decodeObject (raw_get top "replicated");
         configuration ← raw_get replicated "configuration";
         desired ← decodeObject (Some configuration);
         Some (top, configuration, desired)) with
  | None => Some snapshot
  | Some (top, configuration, desired) =>
      let '(ipv4, ipv6) := node_ingress top in
      match (if (ipv4 =? "") && (ipv6 =? "") then None else decodeObject (raw_get desired "settings")) with
      | None => Some configuration
      | Some settings =>
          let ingress := (if ipv4 =? "" then [] else [("ipv4", ipv4)]) ++ (if ipv6 =? "" then [] else [("ipv6", ipv6)]) in
          settings' ← marshal_raw (raw_set settings "ingress" (marshal_strings ingress));
          marshal_raw (raw_set desired "settings" settings')
      end
  end.

Definition envelope_text (nodeLocal : string) : string :=
  "{" +:+ q "replicated" +:+ ": {" +:+ q "configuration" +:+ ": {" +:+ q "zones" +:+ ": [] , " +:+ q "settings" +:+ ": {"
  +:+ q "ttl" +:+ ": 5, " +:+ q "ingress" +:+ ":{" +:+ q "ipv4" +:+ ":" +:+ q "10.0.0.1" +:+ "}} } }, "
  +:+ q "nodeLocal" +:+ ":" +:+ nodeLocal +:+ "}".
Example desired_examples :
  (DesiredSnapshot (envelope_text ("{" +:+ q "ingress" +:+ ":{" +:+ q "ipv6" +:+ ":" +:+ q "fd00::1" +:+ "}}"))
   = Some ("{" +:+ q "settings" +:+ ":{" +:+ q "ingress" +:+ ":{" +:+ q "ipv6" +:+ ":" +:+ q "fd00::1" +:+ "},"
           +:+ q "ttl" +:+ ":5}," +:+ q "zones" +:+ ":[]}"))
  /\ (DesiredSnapshot (envelope_text "null")
      = Some ("{" +:+ q "zones" +:+ ": [] , " +:+ q "settings" +:+ ": {" +:+ q "ttl" +:+ ": 5, " +:+ q "ingress" +:+ ":{"
              +:+ q "ipv4" +:+ ":" +:+ q "10.0.0.1" +:+ "}} }"))
  /\ DesiredSnapshot "[1, 2]" = Some "[1, 2]".
Proof. by vm_compute. Qed.
Example path_examples' :
  map Clean ["/a//b/./c/"; "a/../../b"; "/../x"; ""; "/"; "."] = ["/a/b/c"; "../b"; "/x"; "."; "/"; "."]
  /\ path_Join "/r/x" "a/./b" = "/r/x/a/b" /\ path_Dir "/r/x/a/b" = "/r/x/a" /\ path_Dir "b" = ".".
Proof. by vm_compute. Qed.
