(* ===== verification/JsonCompact.v ===== *)
(** * Compact texts are read back as themselves

    What [json.Compact] leaves of a value is read, with anything that cannot extend a
    number behind it, as the same value with the same text: compaction is idempotent,
    and compact texts may be embedded in larger ones. *)

From S2P Require Import Prelude GoStrings StrFacts Json JsonFacts JsonText Scrub JsonRead Candidate.
From stdpp Require Import options.

(** ** Strings *)
Lemma hex4_cut t x y : hex4 (t +:+ String DQ x) =
  match hex4 (t +:+ String DQ y) with
  | Some (z, _) => Some (z, drop_s 4 t +:+ String DQ x)
  | None => None
  end.
Proof.
  assert (hex_value DQ = None) as Hq by done.
  destruct t as [|a [|b [|c [|d t]]]]; cbn [String.append hex4 drop_s].
  - rewrite Hq. destruct x as [|? [|? [|? ?]]], y as [|? [|? [|? ?]]]; done.
  - rewrite Hq. destruct (hex_value a); cbn; destruct x as [|? [|? ?]], y as [|? [|? ?]]; done.
  - rewrite Hq. destruct (hex_value a), (hex_value b); cbn; destruct x as [|? ?], y as [|? ?]; done.
  - rewrite Hq. destruct (hex_value a), (hex_value b), (hex_value c); done.
  - destruct (hex_value a), (hex_value b), (hex_value c), (hex_value d); done.
Qed.
Lemma surrogate_cut t x y : low_surrogate (t +:+ String DQ x) =
  match low_surrogate (t +:+ String DQ y) with
  | Some (z, _) => Some (z, drop_s 6 t +:+ String DQ x)
  | None => None
  end.
Proof.
  destruct t as [|a [|b t]]; cbn [String.append low_surrogate drop_s].
  - by destruct x, y.
  - assert (ascii_eqb DQ "u" = false) as -> by done. by rewrite andb_false_r.
  - destruct (ascii_eqb a BS && ascii_eqb b "u"); [|done]. rewrite (hex4_cut t x y).
    destruct (hex4 (t +:+ String DQ y)) as [[lo r]|]; cbn; [|done]. by destruct (_ && _)%Z.
Qed.
Definition inert (c : ascii) : Prop := ascii_eqb c DQ = false /\ ascii_eqb c BS = false.
Lemma hex_inert c z : hex_value c = Some z -> inert c.
Proof. destruct c as [[] [] [] [] [] [] [] []]; (done || (intros _; split; reflexivity)). Qed.
Lemma free_cons c t : c <> LF -> free_of LF t -> free_of LF (String c t).
Proof. intros Hc Ht. apply free_of_cons. split; [congruence|done]. Qed.
Lemma free_four a b c d t : free_of LF (String a (String b (String c (char d)))) -> free_of LF t ->
  free_of LF (String a (String b (String c (String d t)))).
Proof. intros H Ht. by apply (free_of_app LF (String a (String b (String c (char d)))) t). Qed.
Lemma hex_not_LF c z : hex_value c = Some z -> c <> LF.
Proof. by intros H ->. Qed.
Lemma hex4_inv s z r : hex4 s = Some (z, r) -> exists a b c d,
  s = String a (String b (String c (String d r))) /\ (forall y, hex4 (String a (String b (String c (String d y)))) = Some (z, y))
  /\ inert a /\ inert b /\ inert c /\ inert d /\ free_of LF (String a (String b (String c (char d)))).
Proof.
  destruct s as [|a [|b [|c [|d s]]]]; try done. cbn.
  destruct (hex_value a) eqn:Ha, (hex_value b) eqn:Hb, (hex_value c) eqn:Hc, (hex_value d) eqn:Hd; try done. cbn.
  intros [= <- <-]. exists a, b, c, d. cbn. rewrite Ha, Hb, Hc, Hd.
  repeat split; try (by eapply hex_inert). repeat (apply free_cons; [by eapply hex_not_LF|]). done.
Qed.
Lemma surrogate_inv s z r : low_surrogate s = Some (z, r) -> exists a b c d,
  s = String BS (String "u" (String a (String b (String c (String d r)))))
  /\ (forall y, low_surrogate (String BS (String "u" (String a (String b (String c (String d y)))))) = Some (z, y))
  /\ inert a /\ inert b /\ inert c /\ inert d /\ free_of LF (String a (String b (String c (char d)))).
Proof.
  destruct s as [|x [|y s]]; try done. cbn [low_surrogate].
  destruct (ascii_eqb x BS) eqn:Hx; [|done]. destruct (ascii_eqb y "u") eqn:Hy; [|done].
  apply ascii_eqb_eq in Hx as ->. apply ascii_eqb_eq in Hy as ->. cbn [andb].
  destruct (hex4 s) as [[lo r']|] eqn:E; [|done]. cbn -[hex4]. destruct (_ && _)%Z eqn:Hr; [|done]. intros [= -> ->].
  apply hex4_inv in E as (a&b&c&d&->&H&Hin). exists a, b, c, d. split; [done|]. split; [|done].
  intros y. cbn [low_surrogate]. rewrite H. cbn -[Z.leb]. by rewrite Hr.
Qed.

(** The raw text of a string ends at the quote, and can be read in any place. *)
Definition string_text (v t : string) : Prop :=
  (forall fuel x, String.length t < fuel -> read_string fuel (t +:+ String DQ x) = Some (v, t, x))
  /\ (forall d m x, max_depth true false d m (t +:+ String DQ x) = max_depth false false d m x)
  /\ free_of LF t.
Lemma depth_inert c d m s : inert c -> max_depth true false d m (String c s) = max_depth true false d m s.
Proof. intros [HD HB]. cbn [max_depth]. by rewrite HD, HB. Qed.
Lemma string_text_nil : string_text "" "".
Proof. split; [|done]. intros [|fuel] x H; [cbn in H; lia|done]. Qed.
Lemma read_esc fuel e u s : ascii_eqb e "u" = false -> simple_escape e = Some u ->
  read_string (S fuel) (String BS (String e s))
  = ('(v, t, r) ← read_string fuel s; Some (String u v, String BS (String e t), r)).
Proof.
  intros Hu He. cbn [read_string]. change (ascii_eqb BS DQ) with false. change (code BS <? 32)%Z with false.
  change (ascii_eqb BS BS) with true. cbv iota. by rewrite Hu, He.
Qed.
Lemma read_esc_u fuel a b c d z s : (forall y, hex4 (String a (String b (String c (String d y)))) = Some (z, y)) ->
  read_string (S fuel) (String BS (String "u" (String a (String b (String c (String d s))))))
  = match (if (55296 <=? z) && (z <=? 56319) then low_surrogate s else None)%Z with
    | Some (lo, s4) =>
        '(v, t, rest) ← read_string fuel s4;
        Some (utf8_encode ((z - 55296) * 1024 + (lo - 56320) + 65536)%Z +:+ v,
              String BS (String "u" (String a (String b (String c (char d))))) +:+ take_s 6 s +:+ t, rest)
    | None => '(v, t, rest) ← read_string fuel s;
        Some (utf8_encode z +:+ v, String BS (String "u" (String a (String b (String c (char d))))) +:+ t, rest)
    end.
Proof.
  intros Hz. cbn [read_string]. change (ascii_eqb BS DQ) with false. change (code BS <? 32)%Z with false.
  change (ascii_eqb BS BS) with true. change (ascii_eqb "u" "u") with true. cbv iota. rewrite Hz. done.
Qed.
Lemma depth_esc d m c s : max_depth true false d m (String BS (String c s)) = max_depth true false d m s.
Proof. reflexivity. Qed.
Lemma read_string_inv fuel : forall s v t r, read_string fuel s = Some (v, t, r) -> s = t +:+ String DQ r /\ string_text v t.
Proof.
  induction fuel as [|fuel IH]; [done|]. intros [|c s1] v t r; [done|]. cbn [read_string].
  destruct (ascii_eqb c DQ) eqn:HD.
  { intros [= <- <- <-]. apply ascii_eqb_eq in HD as ->. split; [done|]. apply string_text_nil. }
  destruct (code c <? 32)%Z eqn:H32; [done|].
  destruct (ascii_eqb c BS) eqn:HB.
  2:{ destruct (read_string fuel s1) as [[[v1 t1] r1]|] eqn:E; [|done]. cbn. intros [= <- <- <-].
      destruct (IH _ _ _ _ E) as [-> (Hr&Hd&Hl)]. split; [done|]. split; [|split].
      - intros [|f] x Hf; [cbn in Hf; lia|]. cbn [String.append read_string]. rewrite HD, H32, HB.
        rewrite Hr by (cbn in Hf; lia). done.
      - intros d m x. cbn [String.append]. rewrite depth_inert by done. apply Hd.
      - apply free_cons; [intros ->; done|done]. }
  apply ascii_eqb_eq in HB as ->. destruct s1 as [|e s2]; [done|].
  destruct (ascii_eqb e "u") eqn:Hu.
  2:{ destruct (simple_escape e) as [u|] eqn:He; [|done]. cbn -[read_string].
      destruct (read_string fuel s2) as [[[v1 t1] r1]|] eqn:E; [|done]. cbn. intros [= <- <- <-].
      destruct (IH _ _ _ _ E) as [-> (Hr&Hd&Hl)]. split; [done|]. split; [|split].
      - intros [|f] x Hf; [cbn in Hf; lia|]. cbn [String.append]. rewrite (read_esc _ _ _ _ Hu He), Hr by (cbn in Hf; lia). done.
      - intros d m x. cbn [String.append]. rewrite depth_esc. apply Hd.
      - apply free_cons; [done|]. apply free_cons; [intros ->; done|done]. }
  apply ascii_eqb_eq in Hu as ->.
  destruct (hex4 s2) as [[z s3]|] eqn:Hz; [|done]. cbn -[low_surrogate Z.leb read_string take_s].
  apply hex4_inv in Hz as (a&b&c&d&->&Hz&Ha&Hb&Hc&Hd&Hfr).
  destruct (if _ : bool then low_surrogate s3 else None) as [[lo s4]|] eqn:Hs.
  - destruct ((55296 <=? z) && (z <=? 56319))%Z eqn:Hr; [|done].
    apply surrogate_inv in Hs as (a'&b'&c'&d'&->&Hs&Ha'&Hb'&Hc'&Hd'&Hfr').
    destruct (read_string fuel s4) as [[[v1 t1] r1]|] eqn:E; [|done].
    cbn -[Z.leb]. intros [= <- <- <-]. destruct (IH _ _ _ _ E) as [-> (Hrd&Hdp&Hl)]. split; [done|]. split; [|split].
    + intros [|f] x Hf; [cbn in Hf; lia|]. cbn [String.append]. rewrite (read_esc_u _ _ _ _ _ _ _ Hz), Hr, Hs.
      rewrite Hrd by (cbn in Hf; lia). done.
    + intros d0 m x. cbn [String.append]. rewrite depth_esc, !depth_inert, depth_esc, !depth_inert by done. apply Hdp.
    + do 2 (apply free_cons; [done|]). apply (free_four a b c d); [done|]. do 2 (apply free_cons; [done|]).
      by apply (free_four a' b' c' d').
  - destruct (read_string fuel s3) as [[[v1 t1] r1]|] eqn:E; [|done].
    cbn -[Z.leb]. intros [= <- <- <-]. destruct (IH _ _ _ _ E) as [-> (Hrd&Hdp&Hl)]. split; [done|]. split; [|split].
    + intros [|f] x Hf; [cbn in Hf; lia|]. cbn [String.append]. rewrite (read_esc_u _ _ _ _ _ _ _ Hz).
      destruct ((55296 <=? z) && (z <=? 56319))%Z.
      * rewrite (surrogate_cut t1 x r1), Hs. rewrite Hrd by (cbn in Hf; lia). done.
      * rewrite Hrd by (cbn in Hf; lia). done.
    + intros d0 m x. cbn [String.append]. rewrite depth_esc, !depth_inert by done. apply Hdp.
    + do 2 (apply free_cons; [done|]). by apply (free_four a b c d).
Qed.

(** ** Numbers *)
Lemma digits_inv s d r : digits s = (d, r) -> s = d +:+ r /\ forall x, digit_head x = false -> digits (d +:+ x) = (d, x).
Proof.
  revert d. induction s as [|c s IH]; intros d; cbn [digits].
  - intros [= <- <-]. split; [done|]. intros [|c x] Hx; [done|]. cbn in *. by rewrite Hx.
  - destruct (is_digit c) eqn:Hc.
    + destruct (digits s) as [d' r'] eqn:E. intros [= <- <-]. destruct (IH _ eq_refl) as [-> H]. split; [done|].
      intros x Hx. cbn. by rewrite Hc, (H x Hx).
    + intros [= <- <-]. split; [done|]. intros [|c' x] Hx; [done|]. cbn in *. by rewrite Hx.
Qed.
(** What may follow the digits of an integer, and of a fraction. *)
Definition after_frac (x : string) : Prop := digit_head x = false /\ match x with String c _ => c <> "."%char | _ => True end.
Lemma delim_after x : delim x -> after_frac x.
Proof.
  intros H. split; [by apply delim_digit|]. destruct x as [|c x]; [done|]. intros ->. by apply (delim_not "." _ x H).
Qed.
Lemma read_frac_inv s f r : read_frac s = Some (f, r) ->
  s = f +:+ r /\ (forall x, after_frac x -> read_frac (f +:+ x) = Some (f, x)) /\ (forall x, digit_head x = false -> digit_head (f +:+ x) = false).
Proof.
  destruct s as [|c s]; cbn [read_frac].
  - intros [= <- <-]. split; [done|]. split; [|done]. intros [|c x] [_ Hx]; [done|]. cbn.
    destruct (ascii_eqb c ".") eqn:E; [|done]. by apply ascii_eqb_eq in E as ->.
  - destruct (ascii_eqb c ".") eqn:E.
    + apply ascii_eqb_eq in E as ->. destruct (digits s) as [d r'] eqn:Ed. destruct (d =? "")%string eqn:Hd; [done|].
      intros [= <- <-]. apply digits_inv in Ed as [-> Ed]. split; [done|]. split; [|done]. intros x [Hx _].
      cbn [String.append read_frac]. change (ascii_eqb "." ".") with true. cbv iota. by rewrite Ed, Hd.
    + intros [= <- <-]. split; [done|]. split; [|done]. intros [|c' x] [_ Hx]; [done|]. cbn.
      destruct (ascii_eqb c' ".") eqn:E'; [|done]. by apply ascii_eqb_eq in E' as ->.
Qed.
Lemma read_exp_inv s f r : read_exp s = Some (f, r) ->
  s = f +:+ r /\ forall x, delim x -> read_exp (f +:+ x) = Some (f, x) /\ after_frac (f +:+ x).
Proof.
  assert (Hnil : forall x, delim x -> read_exp ("" +:+ x) = Some ("", x) /\ after_frac ("" +:+ x)).
  { intros x Hx. split; [|by apply delim_after]. destruct x as [|c x]; [done|]. cbn [String.append read_exp].
    destruct (ascii_eqb c "e" || ascii_eqb c "E") eqn:E; [|done]. exfalso.
    apply (delim_not c _ x Hx); [|done]. apply orb_true_iff in E as [->%ascii_eqb_eq| ->%ascii_eqb_eq]; done. }
  destruct s as [|c s]; cbn [read_exp].
  { intros [= <- <-]. by split. }
  destruct (ascii_eqb c "e" || ascii_eqb c "E") eqn:E; [|intros [= <- <-]; by split].
  assert (forall t, after_frac (String c t)) as Haf.
  { intros t. apply orb_true_iff in E as [->%ascii_eqb_eq| ->%ascii_eqb_eq]; by split. }
  destruct (match s with String d s2 => _ | EmptyString => _ end) as [sign s2] eqn:Es.
  destruct (digits s2) as [d r'] eqn:Ed. destruct (d =? "")%string eqn:Hd; [done|]. intros [= <- <-].
  apply digits_inv in Ed as [-> Ed].
  destruct s as [|a s].
  { injection Es as <- Hs. destruct d; [done|discriminate Hs]. }
  destruct (ascii_eqb a "+" || ascii_eqb a "-") eqn:Ea; injection Es as <- Hs.
  - subst s. split; [done|]. intros x Hx. split; [|apply Haf]. cbn [char String.append read_exp]. rewrite E, Ea, Ed by by apply delim_digit.
    by rewrite Hd.
  - split; [by rewrite Hs|]. intros x Hx. split; [|apply Haf]. cbn [String.append read_exp]. rewrite E.
    destruct d as [|b d]; [done|]. cbn [String.append] in *. injection Hs as -> Hs. rewrite Ea.
    specialize (Ed x (delim_digit _ Hx)). rewrite Ed. by rewrite Hd.
Qed.
Lemma read_number_inv s v t r : read_number s = Some (v, t, r) ->
  s = t +:+ r /\ forall x, delim x -> read_number (t +:+ x) = Some (v, t, x).
Proof.
  unfold read_number.
  destruct (match s with String c s1 => _ | EmptyString => _ end) as [sign s1] eqn:Es.
  destruct (digits s1) as [int s2] eqn:Ed. destruct (_ || _) eqn:Hint; [done|].
  destruct (read_frac s2) as [[frac s3]|] eqn:Ef; cbn -[number_value String.append]; [|done].
  destruct (read_exp s3) as [[exp s4]|] eqn:Ee; cbn -[number_value String.append]; [|done]. intros [= <- <- <-].
  apply digits_inv in Ed as [-> Ed]. apply read_frac_inv in Ef as (->&Ef&Eh). apply read_exp_inv in Ee as [-> Ee].
  split.
  { destruct s as [|c s]; [injection Es as <- Hs; by rewrite !app_assoc_s|].
    destruct (ascii_eqb c "-") eqn:Ec; injection Es as <- Hs.
    - apply ascii_eqb_eq in Ec as ->. rewrite !app_assoc_s. by rewrite Hs.
    - rewrite !app_assoc_s. by rewrite Hs. }
  intros x Hx. destruct (Ee x Hx) as [Ee' Ha]. rewrite !app_assoc_s.
  assert (match (if sign then "-" else "") +:+ int +:+ frac +:+ exp +:+ x with
    | String c s1 => if ascii_eqb c "-" then (true, s1) else (false, (if sign then "-" else "") +:+ int +:+ frac +:+ exp +:+ x)
    | EmptyString => (false, (if sign then "-" else "") +:+ int +:+ frac +:+ exp +:+ x) end
    = (sign, int +:+ frac +:+ exp +:+ x)) as ->.
  { destruct sign; [done|]. destruct s as [|c s]; [injection Es as Hs; by destruct int|].
    destruct (ascii_eqb c "-") eqn:Ec; [done|]. injection Es as Hs.
    destruct int as [|c' int]; [done|]. cbn [String.append] in *. injection Hs as -> _. by rewrite Ec. }
  rewrite Ed by (apply Eh, Ha). rewrite Hint, Ef by done. cbn -[number_value String.append read_exp]. rewrite Ee'. done.
Qed.

(** ** Values *)
Definition depth_is (t : string) (k : Z) : Prop := forall d m x, (0 <= d <= m)%Z ->
  max_depth false false d m (t +:+ x) = max_depth false false d (Z.max m (d + k)) x.
Definition opens (t : string) : Prop :=
  match t with String c _ => json_space c = false /\ ascii_eqb c "]" = false /\ ascii_eqb c "}" = false | EmptyString => False end.
Record reads_as (v : json) (t : string) : Prop := mkReads {
  ra_head : opens t;
  ra_read : forall fuel rest, String.length t <= fuel -> delim rest -> read_value fuel (t +:+ rest) = Some (v, t, rest);
  ra_depth : depth_is t (depth v);
  ra_line : free_of LF t }.
Record elements_as (l : list json) (t : string) : Prop := mkElements {
  ea_head : opens t;
  ea_read : forall fuel rest, String.length t < fuel -> read_elements fuel (t +:+ String "]" rest) = Some (l, t, rest);
  ea_depth : depth_is t (foldr (fun x m => Z.max (depth x) m) 0%Z l);
  ea_line : free_of LF t }.
Record members_as (m : gomap) (raw : rawmap) (t : string) : Prop := mkMembers {
  ma_head : opens t;
  ma_read : forall fuel rest, String.length t < fuel -> read_members fuel (t +:+ String "}" rest) = Some (m, t, rest);
  ma_raw : forall fuel rest, String.length t < fuel -> raw_pairs fuel (t +:+ String "}" rest) = Some raw;
  ma_depth : depth_is t (foldr (fun f m => Z.max (depth f.2) m) 0%Z m);
  ma_line : free_of LF t }.

Lemma opens_app t x : opens t -> exists c s, t = String c s /\ skip_ws (t +:+ x) = t +:+ x /\ json_space c = false
  /\ ascii_eqb c "]" = false /\ ascii_eqb c "}" = false.
Proof. destruct t as [|c s]; [done|]. intros (H&?&?). exists c, s. cbn [String.append]. by rewrite (skip_ws_head c (s +:+ x) H). Qed.
Lemma depth_is_eq t j k : depth_is t j -> j = k -> depth_is t k.
Proof. by intros ? <-. Qed.
Lemma depth_is_flat t : sall flat t = true -> depth_is t 0.
Proof. intros H d m x Hd. rewrite depth_flat by done. f_equal. lia. Qed.
Lemma depth_is_app t1 t2 j k : (0 <= j)%Z -> depth_is t1 j -> depth_is t2 k -> depth_is (t1 +:+ t2) (Z.max j k).
Proof. intros Hj H1 H2 d m x Hd. rewrite app_assoc_s, H1, H2 by lia. f_equal. lia. Qed.
Lemma depth_is_quote t v : string_text v t -> depth_is (quote_raw t) 0.
Proof.
  intros (_&H&_) d m x Hd. unfold quote_raw. cbn [String.append]. rewrite app_assoc_s.
  change (max_depth true false d m (t +:+ String DQ x) = max_depth false false d (Z.max m (d + 0)) x).
  rewrite H. f_equal. lia.
Qed.
Lemma depth_is_open c c' t k : one_of "[{" c = true -> one_of "]}" c' = true -> (0 <= k)%Z ->
  depth_is t k -> depth_is (String c (t +:+ char c')) (1 + k).
Proof.
  intros Hc Hc' Hk Ht d m x Hd. cbn [String.append]. rewrite app_assoc_s.
  assert (forall s, max_depth false false d m (String c s) = max_depth false false (d + 1) (Z.max m (d + 1)) s) as ->.
  { intros s. cbn [max_depth]. rewrite Hc. destruct (ascii_eqb c DQ) eqn:E; [by apply ascii_eqb_eq in E as ->|done]. }
  rewrite Ht by lia.
  assert (forall n, max_depth false false (d + 1) n (char c' +:+ x) = max_depth false false (d + 1 - 1) n x) as ->.
  { intros n. unfold char. cbn [String.append max_depth]. rewrite Hc'.
    destruct (ascii_eqb c' DQ) eqn:E; [by apply ascii_eqb_eq in E as ->|].
    destruct (one_of "[{" c') eqn:E'; [|done].
    destruct c' as [[] [] [] [] [] [] [] []]; (discriminate E') || (discriminate Hc'). }
  f_equal; lia.
Qed.

(** *** Scalars *)
Lemma line_app t x : free_of LF t -> free_of LF x -> free_of LF (t +:+ x).
Proof. intros. by apply free_of_app. Qed.
Lemma line_quote v t : string_text v t -> free_of LF (quote_raw t).
Proof. intros (_&_&H). apply free_cons; [done|]. by apply line_app. Qed.
Lemma num_line t : sall num_char t = true -> free_of LF t.
Proof. intros H. by eapply sall_free_of; [|exact H]. Qed.
Lemma quote_app t x : quote_raw t +:+ x = String DQ (t +:+ String DQ x).
Proof. unfold quote_raw. cbn [String.append]. by rewrite app_assoc_s. Qed.
Lemma length_quote_raw t : String.length (quote_raw t) = S (S (String.length t)).
Proof. unfold quote_raw. cbn [String.length]. rewrite length_app_s. cbn. lia. Qed.
Lemma reads_str v t : string_text v t -> reads_as (JStr (valid_utf8 v)) (quote_raw t).
Proof.
  intros Hs. split; [done| |by eapply depth_is_quote|by eapply line_quote].
  intros [|fuel] rest Hf _; rewrite length_quote_raw in Hf; [lia|]. rewrite quote_app. cbn [read_value].
  rewrite skip_ws_head by done. rewrite ascii_eqb_refl. destruct Hs as [Hs _].
  rewrite Hs by (rewrite length_app_s; lia). done.
Qed.
Lemma reads_number s v t r : read_number s = Some (v, t, r) ->
  match s with String c _ => is_digit c || ascii_eqb c "-" = true | EmptyString => False end -> reads_as v t.
Proof.
  intros H Hs. pose proof (read_number_chars _ _ _ _ H) as Hc. apply read_number_inv in H as Hn. destruct Hn as [-> Hn].
  assert (exists c t', t = String c t' /\ is_digit c || ascii_eqb c "-" = true) as (c&t'&->&Hd).
  { destruct t as [|c t]; [|eauto]. cbn [String.append] in *. exfalso.
    unfold read_number in H. destruct (match r with String c s1 => _ | EmptyString => _ end) as [sign s1].
    destruct (digits s1) as [int s2]. destruct ((int =? "")%string || _) eqn:E; [done|].
    destruct (read_frac s2) as [[frac s3]|]; cbn -[number_value String.append] in H; [|done].
    destruct (read_exp s3) as [[exp s4]|]; cbn -[number_value String.append] in H; [|done].
    injection H as _ H _. destruct sign; [done|]. by destruct int. }
  assert (json_space c = false /\ ascii_eqb c "]" = false /\ ascii_eqb c "}" = false /\ ascii_eqb c DQ = false
    /\ ascii_eqb c "[" = false /\ ascii_eqb c "{" = false) as (?&?&?&H1&H2&H3).
  { clear -Hd. destruct c as [[] [] [] [] [] [] [] []]; (repeat split; reflexivity) || (vm_compute in Hd; discriminate). }
  split; [done| | |by apply num_line].
  - intros [|fuel] rest Hf Hx; [cbn in Hf; lia|]. cbn [String.append read_value].
    rewrite skip_ws_head by done. rewrite H1, H2, H3, Hd. by apply Hn.
  - eapply depth_is_eq; [by apply depth_is_flat, num_flat|].
    unfold read_number in H. destruct (match String c _ +:+ r with String c s1 => _ | EmptyString => _ end) as [sign s1].
    destruct (digits s1) as [int s2]. destruct (_ || _); [done|].
    destruct (read_frac s2) as [[frac s3]|]; cbn -[number_value String.append] in H; [|done].
    destruct (read_exp s3) as [[exp s4]|]; cbn -[number_value String.append] in H; [|done].
    injection H as <- _ _. unfold number_value. cbv zeta.
    match goal with |- context [if ?b then JNum _ else _] => by destruct b end.
Qed.
Lemma reads_lit s v t r : read_literal s = Some (v, t, r) -> reads_as v t.
Proof.
  unfold read_literal. repeat (destruct (HasPrefix _ _)); intros [= <- <- _] || done;
    (split; [done| |by apply (depth_is_flat _)|done]; intros [|fuel] rest Hf _; [cbn in Hf; lia|]; by destruct rest).
Qed.

(** *** Arrays *)
Lemma opens_cons t x : opens t -> opens (t +:+ x).
Proof. by destruct t. Qed.
Lemma length_append3 a b c : String.length (a +:+ b +:+ c) = String.length a + String.length b + String.length c.
Proof. rewrite !length_app_s. lia. Qed.
Lemma elements_one v t : reads_as v t -> elements_as [v] t.
Proof.
  intros [Ho Hr Hd Hl]. split; [done| | |done].
  - intros [|fuel] rest Hf; [lia|]. cbn [read_elements]. rewrite Hr by (done || lia). done.
  - eapply depth_is_eq; [done|]. cbn. destruct v; cbn [depth]; try lia; [pose proof (foldr_max_nonneg depth l)|pose proof (foldr_max_nonneg (fun f : string * json => depth f.2) fs)]; lia.
Qed.
Lemma elements_cons v t l t' : reads_as v t -> elements_as l t' -> elements_as (v :: l) (t +:+ "," +:+ t').
Proof.
  intros [Ho Hr Hd Hl] [Ho' Hr' Hd' Hl']. split; [by apply opens_cons| | |by repeat apply line_app].
  - intros [|fuel] rest Hf; [lia|]. rewrite length_append3 in Hf. cbn [String.length] in Hf.
    cbn [read_elements]. rewrite !app_assoc_s, Hr by (done || lia). cbn -[read_elements skip_ws String.append].
    cbn [String.append]. rewrite (skip_ws_head ",") by done. change (ascii_eqb "," "]") with false.
    change (ascii_eqb "," ",") with true. cbv iota. rewrite Hr' by lia. done.
  - pose proof (depth_nonneg v) as Hv. pose proof (foldr_max_nonneg depth l) as Hm.
    eapply depth_is_eq; [apply (depth_is_app _ _ (depth v)); [done|exact Hd|apply (depth_is_app "," _ 0); [done|by apply depth_is_flat|exact Hd']]|].
    cbn [foldr]. lia.
Qed.
Lemma reads_arr l t : elements_as l t -> reads_as (JArr l) ("[" +:+ t +:+ "]").
Proof.
  intros [Ho Hr Hd Hl]. split; [done| | |by repeat apply line_app].
  - intros [|fuel] rest Hf Hx; rewrite length_append3 in Hf; cbn [String.length] in Hf; [lia|].
    rewrite !app_assoc_s. cbn [String.append read_value]. rewrite skip_ws_head by done.
    change (ascii_eqb "[" DQ) with false. change (ascii_eqb "[" "[") with true. cbv iota.
    destruct (opens_app t (String "]" rest) Ho) as (c&s&->&Hs&Hsp&Hc&_). rewrite Hs. cbn [String.append]. rewrite Hc.
    change (String c (s +:+ String "]" rest)) with (String c s +:+ String "]" rest). rewrite Hr by lia. done.
  - cbn [depth]. apply (depth_is_open "[" "]"); [done|done|apply foldr_max_nonneg|done].
Qed.
Lemma reads_arr_nil : reads_as (JArr []) "[]".
Proof.
  split; [done| | |done].
  - intros [|fuel] rest Hf _; [cbn in Hf; lia|]. done.
  - exact (depth_is_open "[" "]" "" 0 eq_refl eq_refl ltac:(lia) (depth_is_flat "" eq_refl)).
Qed.

(** *** Objects *)
Lemma take_s_front t x : take_s (String.length (t +:+ x) - String.length x) (t +:+ x) = t.
Proof. rewrite length_app_s. replace (_ + _ - _) with (String.length t) by lia. apply take_s_app. Qed.
(** One member in front of what may follow it. *)
Lemma member_step k kt v vt fuel x : string_text k kt -> reads_as v vt -> delim x ->
  String.length (quote_raw kt +:+ ":" +:+ vt) < S fuel ->
  read_members (S fuel) ((quote_raw kt +:+ ":" +:+ vt) +:+ x)
  = match skip_ws x with
    | String c r3 =>
        if ascii_eqb c "}" then Some ([(valid_utf8 k, v)], quote_raw kt +:+ ":" +:+ vt, r3)
        else if ascii_eqb c "," then
          '(m, t', r4) ← read_members fuel r3;
          Some ((valid_utf8 k, v) :: m, (quote_raw kt +:+ ":" +:+ vt) +:+ "," +:+ t', r4)
        else None
    | EmptyString => None
    end
  /\ raw_pairs (S fuel) ((quote_raw kt +:+ ":" +:+ vt) +:+ x)
  = match skip_ws x with
    | String d r3 => if ascii_eqb d "}" then Some [(valid_utf8 k, vt)]
                     else m ← raw_pairs fuel r3; Some ((valid_utf8 k, vt) :: m)
    | EmptyString => None
    end.
Proof.
  intros [Hk _] [Ho Hr _ _] Hx Hf. rewrite length_append3, length_quote_raw in Hf. cbn [String.length] in Hf.
  rewrite !app_assoc_s, quote_app. split.
  - cbn [read_members]. rewrite skip_ws_head by done. rewrite ascii_eqb_refl.
    rewrite Hk by (rewrite length_app_s; lia). cbn -[read_value skip_ws read_members String.append].
    cbn [String.append]. rewrite (skip_ws_head ":") by done. change (ascii_eqb ":" ":") with true. cbv iota.
    rewrite Hr by (done || lia). cbn -[skip_ws read_members String.append]. done.
  - cbn [raw_pairs]. rewrite skip_ws_head by done. change (ascii_eqb DQ "}") with false. cbv iota.
    rewrite Hk by (rewrite length_app_s; lia). cbn -[read_value skip_ws raw_pairs String.append take_s String.length Nat.mul].
    cbn [String.append]. rewrite (skip_ws_head ":") by done. cbn [drop_s].
    destruct (opens_app vt x Ho) as (c&s&Hv&Hs&_). rewrite Hs.
    rewrite Hr by (done || (rewrite length_app_s; lia)). cbn -[skip_ws raw_pairs String.append take_s String.length].
    by rewrite take_s_front.
Qed.
Lemma members_depth kt v vt k : string_text k kt -> reads_as v vt -> depth_is (quote_raw kt +:+ ":" +:+ vt) (depth v).
Proof.
  intros Hk [_ _ Hd _]. pose proof (depth_nonneg v).
  eapply depth_is_eq; [apply (depth_is_app _ _ 0); [done|by eapply depth_is_quote|apply (depth_is_app ":" _ 0); [done|by apply depth_is_flat|exact Hd]]|]. lia.
Qed.
Lemma members_one k kt v vt : string_text k kt -> reads_as v vt ->
  members_as [(valid_utf8 k, v)] [(valid_utf8 k, vt)] (quote_raw kt +:+ ":" +:+ vt).
Proof.
  intros Hk Hv. split; [done| | | |apply line_app; [by eapply line_quote|apply line_app; [done|apply Hv]]].
  - intros [|fuel] rest Hf; [lia|]. by rewrite (proj1 (member_step k kt v vt fuel (String "}" rest) Hk Hv eq_refl Hf)).
  - intros [|fuel] rest Hf; [lia|]. by rewrite (proj2 (member_step k kt v vt fuel (String "}" rest) Hk Hv eq_refl Hf)).
  - eapply depth_is_eq; [by eapply members_depth|]. cbn. pose proof (depth_nonneg v). lia.
Qed.
Lemma members_cons k kt v vt m raw t : string_text k kt -> reads_as v vt -> members_as m raw t ->
  members_as ((valid_utf8 k, v) :: m) ((valid_utf8 k, vt) :: raw) ((quote_raw kt +:+ ":" +:+ vt) +:+ "," +:+ t).
Proof.
  intros Hk Hv [Ho Hr Hw Hd Hl].
  pose proof (ra_line _ _ Hv).
  split; [done| | | |apply line_app; [apply line_app; [by eapply line_quote|by apply line_app]|by apply line_app]].
  - intros [|fuel] rest Hf; [lia|]. rewrite length_append3 in Hf. cbn [String.length] in Hf.
    rewrite (app_assoc_s _ ("," +:+ t)), (app_assoc_s "," t).
    rewrite (proj1 (member_step k kt v vt fuel ("," +:+ t +:+ String "}" rest) Hk Hv eq_refl ltac:(lia))).
    cbn [String.append]. rewrite (skip_ws_head ",") by done. change (ascii_eqb "," "}") with false.
    change (ascii_eqb "," ",") with true. cbv iota. rewrite Hr by lia. done.
  - intros [|fuel] rest Hf; [lia|]. rewrite length_append3 in Hf. cbn [String.length] in Hf.
    rewrite (app_assoc_s _ ("," +:+ t)), (app_assoc_s "," t).
    rewrite (proj2 (member_step k kt v vt fuel ("," +:+ t +:+ String "}" rest) Hk Hv eq_refl ltac:(lia))).
    cbn [String.append]. rewrite (skip_ws_head ",") by done. change (ascii_eqb "," "}") with false. cbv iota.
    rewrite Hw by lia. done.
  - pose proof (depth_nonneg v) as Hn. pose proof (foldr_max_nonneg (fun f : string * json => depth f.2) m) as Hm.
    eapply depth_is_eq; [apply (depth_is_app _ _ (depth v)); [done|by eapply members_depth|apply (depth_is_app "," _ 0); [done|by apply depth_is_flat|exact Hd]]|].
    cbn [foldr snd]. lia.
Qed.
Lemma reads_obj m raw t : members_as m raw t -> reads_as (JObj m) ("{" +:+ t +:+ "}").
Proof.
  intros [Ho Hr _ Hd Hl]. split; [done| | |by repeat apply line_app].
  - intros [|fuel] rest Hf Hx; rewrite length_append3 in Hf; cbn [String.length] in Hf; [lia|].
    rewrite !app_assoc_s. cbn [String.append read_value]. rewrite skip_ws_head by done.
    change (ascii_eqb "{" DQ) with false. change (ascii_eqb "{" "[") with false. change (ascii_eqb "{" "{") with true. cbv iota.
    destruct (opens_app t (String "}" rest) Ho) as (c&s&->&Hs&Hsp&_&Hc). rewrite Hs. cbn [String.append]. rewrite Hc.
    change (String c (s +:+ String "}" rest)) with (String c s +:+ String "}" rest). rewrite Hr by lia. done.
  - cbn [depth]. apply (depth_is_open "{" "}"); [done|done|apply (foldr_max_nonneg (fun f : string * json => depth f.2))|done].
Qed.
Lemma reads_obj_nil : reads_as (JObj []) "{}".
Proof.
  split; [done| | |done].
  - intros [|fuel] rest Hf _; [cbn in Hf; lia|]. done.
  - exact (depth_is_open "{" "}" "" 0 eq_refl eq_refl ltac:(lia) (depth_is_flat "" eq_refl)).
Qed.

(** ** What the reader leaves *)
Lemma read_inv fuel :
  (forall s v t r, read_value fuel s = Some (v, t, r) -> reads_as v t)
  /\ (forall s l t r, read_elements fuel s = Some (l, t, r) -> elements_as l t)
  /\ (forall s m t r, read_members fuel s = Some (m, t, r) -> exists raw, members_as m raw t).
Proof.
  induction fuel as [|fuel (IHv&IHe&IHm)]; [done|]. split; [|split].
  - intros s v t r. cbn [read_value]. destruct (skip_ws s) as [|c s1]; [done|].
    destruct (ascii_eqb c DQ).
    { destruct (read_string _ s1) as [[[u w] r']|] eqn:E; [|done]. cbn -[valid_utf8]. intros [= <- <- _].
      apply reads_str. by eapply read_string_inv. }
    destruct (ascii_eqb c "[").
    { destruct (skip_ws s1) as [|d s2]; [done|]. destruct (ascii_eqb d "]"); [intros [= <- <- _]; apply reads_arr_nil|].
      destruct (read_elements fuel s1) as [[[l t'] r']|] eqn:E; [|done]. intros [= <- <- _]. eapply reads_arr, IHe, E. }
    destruct (ascii_eqb c "{").
    { destruct (skip_ws s1) as [|d s2]; [done|]. destruct (ascii_eqb d "}"); [intros [= <- <- _]; apply reads_obj_nil|].
      destruct (read_members fuel s1) as [[[l t'] r']|] eqn:E; [|done]. intros [= <- <- _].
      destruct (IHm _ _ _ _ E) as [raw Hm]. by eapply reads_obj. }
    destruct (is_digit c || ascii_eqb c "-") eqn:Hc; intros H; [by eapply reads_number|by eapply reads_lit].
  - intros s l t r. cbn [read_elements]. destruct (read_value fuel s) as [[[v t1] r1]|] eqn:E; [|done].
    cbn -[read_elements skip_ws]. destruct (skip_ws r1) as [|c r2]; [done|]. destruct (ascii_eqb c "]").
    { intros [= <- <- _]. eapply elements_one, IHv, E. }
    destruct (ascii_eqb c ","); [|done]. destruct (read_elements fuel r2) as [[[l' t'] r']|] eqn:E2; [|done].
    intros [= <- <- _]. apply elements_cons; [by eapply IHv|by eapply IHe].
  - intros s m t r. cbn [read_members]. destruct (skip_ws s) as [|c s1]; [done|]. destruct (ascii_eqb c DQ); [|done].
    destruct (read_string _ s1) as [[[k kt] r1]|] eqn:Ek; [|done]. cbn -[read_members read_value skip_ws String.append valid_utf8].
    apply read_string_inv in Ek as [_ Hk]. destruct (skip_ws r1) as [|d r2]; [done|]. destruct (ascii_eqb d ":"); [|done].
    destruct (read_value fuel r2) as [[[v vt] r3]|] eqn:Ev; [|done]. cbn -[read_members skip_ws String.append valid_utf8].
    apply IHv in Ev. destruct (skip_ws r3) as [|e r4]; [done|]. destruct (ascii_eqb e "}").
    { intros [= <- <- _]. eexists. by apply members_one. }
    destruct (ascii_eqb e ","); [|done]. destruct (read_members fuel r4) as [[[m' t'] r']|] eqn:Em; [|done].
    intros [= <- <- _]. destruct (IHm _ _ _ _ Em) as [raw Hm]. eexists. by apply members_cons.
Qed.
Lemma read_json_inv s v t : read_json s = Some (v, t) -> reads_as v t.
Proof.
  unfold read_json. destruct (_ <? _)%Z; [done|]. destruct (read_value _ s) as [[[v' t'] r]|] eqn:E; [|done].
  cbn -[skip_ws]. destruct (_ =? _)%string; [|done]. intros [= <- <-]. by eapply read_inv.
Qed.
Lemma read_json_text v t : reads_as v t -> (depth v <= 10000)%Z -> read_json t = Some (v, t).
Proof.
  intros [_ Hr Hd _] Hk. unfold read_json. rewrite <- (app_nil_r_s t) at 1. rewrite Hd by lia. cbn [max_depth].
  assert ((10000 <? Z.max 0 (0 + depth v))%Z = false) as -> by (apply Z.ltb_ge; lia).
  rewrite <- (app_nil_r_s t) at 2. rewrite Hr by (done || lia). done.
Qed.
(** With white space behind. *)
Lemma read_json_line v t x : reads_as v t -> (depth v <= 10000)%Z -> sall json_space x = true -> read_json (t +:+ x) = Some (v, t).
Proof.
  intros [_ Hr Hd _] Hk Hx. unfold read_json. rewrite Hd by lia.
  assert (forall m, max_depth false false 0 m x = m) as ->.
  { intros m. rewrite <- (app_nil_r_s x). rewrite depth_flat; [done|]. eapply sall_impl; [|exact Hx].
    intros c Hc. by destruct c as [[] [] [] [] [] [] [] []]. }
  assert ((10000 <? Z.max 0 (0 + depth v))%Z = false) as -> by (apply Z.ltb_ge; lia).
  rewrite Hr; [| rewrite length_app_s; lia |].
  - cbn -[skip_ws]. assert (skip_ws x = "") as ->; [|done]. clear -Hx. induction x as [|c x IH]; [done|].
    cbn in *. bsimp. match goal with H : json_space c = true |- _ => rewrite H end. auto.
  - destruct x as [|c x]; [done|]. cbn in Hx |- *. bsimp. by destruct c as [[] [] [] [] [] [] [] []].
Qed.
Lemma Compact_idempotent s v t : read_json s = Some (v, t) -> (depth v <= 10000)%Z -> json_Compact t = Some t.
Proof. intros H Hd. unfold json_Compact. by rewrite (read_json_text _ _ (read_json_inv _ _ _ H) Hd). Qed.
