(* ===== verification/Control.v ===== *)
(** * The control protocol and its client (worker/control/control.go)

    One JSON object per line, one connection per request. What the connection does
    (dialling, writing, the bytes that arrive, the contexts) is a [transport]. *)

From S2P Require Import Prelude GoStrings StrFacts Json JsonText JsonRead Scrub RProxy Candidate.
From stdpp Require Import options.

Definition Operation := string.
Definition OperationStage : Operation := "stage".
Definition OperationValidate : Operation := "validate".
Definition OperationPromote : Operation := "promote".
Definition OperationReload : Operation := "reload".
Definition OperationHealth : Operation := "health".
Definition OperationRollback : Operation := "rollback".
Definition Operations : list Operation :=
  [OperationStage; OperationValidate; OperationPromote; OperationReload; OperationHealth; OperationRollback].

Record Request := mkRequest {
  RequestID : string; ROperation : Operation; RService : Service; RqRevision : string; RqChecksum : string; RqPath : string }.
(** [ROutput]: [None] is nil, the key being absent. *)
Record Response := mkResponse {
  RespID : string; ROK : bool; RespOperation : Operation; ROutput : option string; RError : string }.
#[global] Instance Request_eq_dec : EqDecision Request.
Proof. solve_decision. Defined.
#[global] Instance Response_eq_dec : EqDecision Response.
Proof. solve_decision. Defined.

Definition maxResponseBytes : nat := Nat.pow 2 23.

(** ** The request line *)
Definition request_tree (r : Request) : json :=
  JObj [("requestId", JStr (RequestID r)); ("operation", JStr (ROperation r)); ("service", JStr (RService r));
        ("revisionId", JStr (RqRevision r)); ("checksum", JStr (RqChecksum r)); ("candidatePath", JStr (RqPath r))].
Definition MarshalRequest (r : Request) : string := wire false (request_tree r) +:+ nl.

(** ** The response line: decoding into the struct

    Keys are matched without regard to case and decoded in document order. *)
Definition raw_field {A} (m : rawmap) (name : string) (dec : string -> A -> option A) (cur : A) : option A :=
  foldl (fun acc f => a ← acc; if foldName f.1 =? foldName name then dec f.2 a else Some a) (Some cur) m.
Definition raw_dec {A} (dec : decoder A) (raw : string) (cur : A) : option A :=
  v ← json_decode raw; dec v cur.
(** [RawMessage.UnmarshalJSON]: the text as it stands, a null included. *)
Definition dec_raw (raw : string) (_ : option string) : option (option string) := Some (Some raw).
Definition zero_response : Response := mkResponse "" false "" None "".
Definition decodeResponse (text : string) : option Response :=
  if negb (json_Valid text) then None else
  match skip_ws text with
  | String c s =>
      if ascii_eqb c "{" then
        m ← raw_pairs (S (String.length s)) s;
        id ← raw_field m "requestId" (raw_dec dec_string) "";
        ok ← raw_field m "ok" (raw_dec dec_bool) false;
        operation ← raw_field m "operation" (raw_dec dec_string) "";
        output ← raw_field m "output" dec_raw None;
        error ← raw_field m "error" (raw_dec dec_string) "";
        Some (mkResponse id ok operation output error)
      else if ascii_eqb c "n" then Some zero_response else None
  | EmptyString => None
  end.

(** ** One exchange *)
(** The first line of a stream, without its line feed, and the rest. *)
Fixpoint cut_line (s : string) : option (string * string) :=
  match s with
  | EmptyString => None
  | String c s => if ascii_eqb c LF then Some ("", s) else '(l, r) ← cut_line s; Some (String c l, r)
  end.
Inductive ctx_state : Type := Live | Canceled | DeadlineExceeded.
Record net_error := mkNetError { NText : string; NDeadline : bool }.
Record transport := mkTransport {
  T_dial : option net_error;
  T_write : option net_error;
  T_received : string;
  (** how the stream ends: [None] is EOF *)
  T_end : option net_error;
  (** the caller's context, and the call's, when the exchange has failed *)
  T_ctx : ctx_state;
  T_call : ctx_state;
  (** the caller's own deadline has passed *)
  T_caller_late : bool }.

Inductive client_error : Type :=
| ECtx (c : ctx_state)
| ENet (e : net_error)
| EClosed
| EDecode
| ETimedOut
| EMismatchID
| EMismatchOperation.
Definition ctxOr (c : ctx_state) (e : client_error) : client_error := match c with Live => e | _ => ECtx c end.

Definition exchange (t : transport) (line : string) : result client_error Response :=
  match T_dial t with
  | Some e => Err (ENet e)
  | None =>
  match T_write t with
  | Some e => Err (ctxOr (T_call t) (ENet e))
  | None =>
  match cut_line (take_s maxResponseBytes (T_received t)) with
  | None =>
      Err (match (if (maxResponseBytes <=? String.length (T_received t))%nat then None else T_end t) with
           | Some e => ctxOr (T_call t) (ENet e)
           | None => ctxOr (T_call t) EClosed
           end)
  | Some (text, _) =>
      match decodeResponse (text +:+ nl) with
      | Some response => Ok response
      | None => Err EDecode
      end
  end end end.

(** [os.ErrDeadlineExceeded] in the error, or the call's context past its deadline. *)
Definition timed_out (t : transport) (e : client_error) : bool :=
  match e with ENet e => NDeadline e | _ => false end
  || match T_call t with DeadlineExceeded => true | _ => false end.
(** [connect line] is what the connection that carries [line] does. *)
Definition Execute (connect : string -> transport) (request : Request) : result client_error Response :=
  let line := MarshalRequest request in
  let t := connect line in
  match exchange t line with
  | Err e =>
      Err (match T_ctx t with
           | Live => if timed_out t e then if T_caller_late t then ECtx DeadlineExceeded else ETimedOut else e
           | c => ECtx c
           end)
  | Ok response =>
      if negb (RespID response =? RequestID request) then Err EMismatchID
      else if negb (RespOperation response =? ROperation request) then Err EMismatchOperation
      else Ok response
  end.

(** The texts of the client's own errors. *)
Definition client_message (decode : string) (e : client_error) : string :=
  match e with
  | ECtx Canceled => "context canceled"
  | ECtx _ => "context deadline exceeded"
  | ENet e => NText e
  | EClosed => "Control connection closed before a response line"
  | EDecode => decode
  | ETimedOut => "Control request timed out"
  | EMismatchID => "Control response request ID does not match"
  | EMismatchOperation => "Control response operation does not match"
  end.

Definition quiet (received : string) : transport := mkTransport None None received None Live Live false.
Example execute_examples :
  let r := mkRequest "r1" OperationHealth ServiceNginx "rev" "sum" "/c" in
  MarshalRequest r = "{" +:+ q "requestId" +:+ ":" +:+ q "r1" +:+ "," +:+ q "operation" +:+ ":" +:+ q "health" +:+ ","
    +:+ q "service" +:+ ":" +:+ q "nginx" +:+ "," +:+ q "revisionId" +:+ ":" +:+ q "rev" +:+ ","
    +:+ q "checksum" +:+ ":" +:+ q "sum" +:+ "," +:+ q "candidatePath" +:+ ":" +:+ q "/c" +:+ "}" +:+ nl
  /\ Execute (fun _ => quiet ("{" +:+ q "requestID" +:+ ":" +:+ q "r1" +:+ ", " +:+ q "operation" +:+ ":" +:+ q "health"
       +:+ "," +:+ q "ok" +:+ ":true," +:+ q "output" +:+ ": {" +:+ q "a" +:+ " : 1} }" +:+ nl +:+ "junk")) r
     = Ok (mkResponse "r1" true "health" (Some ("{" +:+ q "a" +:+ " : 1}")) "")
  /\ Execute (fun _ => quiet ("null" +:+ nl)) r = Err EMismatchID
  /\ Execute (fun _ => quiet "{}") r = Err EClosed.
Proof. by vm_compute. Qed.
