(* ===== verification/ControlServer.v ===== *)
(** * The control server (worker/controlserver/)

    Parsing of request lines with the error texts of the TypeScript server, the
    dispatcher, the reply bytes, and the loop that answers a connection's lines. *)

From S2P Require Import Prelude Effects GoStrings StrFacts Json JsonText JsonRead Scrub Candidate Control.
From stdpp Require Import options.

(** ** The byte scanner of encoding/json: where an invalid text stops being the prefix of a valid one *)

Inductive parse_state : Type := parseObjectKey | parseObjectValue | parseArrayValue.
Inductive scan_state : Type :=
| BeginValueOrEmpty | BeginValue | BeginStringOrEmpty | BeginString | EndValue | EndTop
| InString | InStringEsc | InStringU (digits : nat)
| Neg | Int1 | Int0 | Dot | Dot0 | Exp | ExpSign | Exp0
| Literal (rest : string).
Definition scanner : Type := scan_state * list parse_state.
Definition maxNestingDepth : Z := 10000.

Definition push (s : scan_state) (p : parse_state) (st : list parse_state) : option scanner :=
  if ((maxNestingDepth <? Z.of_nat (S (length st)))%Z) then None else Some (s, p :: st).
Definition pop (st : list parse_state) : option scanner :=
  match st with _ :: (_ :: _) as st => Some (EndValue, st) | _ => Some (EndTop, []) end.
Definition end_top (c : ascii) : option scanner := if json_space c then Some (EndTop, []) else None.
Definition end_value (c : ascii) (st : list parse_state) : option scanner :=
  match st with
  | [] => end_top c
  | p :: st' =>
      if json_space c then Some (EndValue, st) else
      match p with
      | parseObjectKey => if ascii_eqb c ":" then Some (BeginValue, parseObjectValue :: st') else None
      | parseObjectValue =>
          if ascii_eqb c "," then Some (BeginString, parseObjectKey :: st')
          else if ascii_eqb c "}" then pop st else None
      | parseArrayValue =>
          if ascii_eqb c "," then Some (BeginValue, st) else if ascii_eqb c "]" then pop st else None
      end
  end.
Definition begin_value (c : ascii) (st : list parse_state) : option scanner :=
  if ascii_eqb c "{" then push BeginStringOrEmpty parseObjectKey st
  else if ascii_eqb c "[" then push BeginValueOrEmpty parseArrayValue st
  else if ascii_eqb c DQ then Some (InString, st)
  else if ascii_eqb c "-" then Some (Neg, st)
  else if ascii_eqb c "0" then Some (Int0, st)
  else if ascii_eqb c "t" then Some (Literal "rue", st)
  else if ascii_eqb c "f" then Some (Literal "alse", st)
  else if ascii_eqb c "n" then Some (Literal "ull", st)
  else if in_range 49 57 c then Some (Int1, st) else None.
Definition begin_string (c : ascii) (st : list parse_state) : option scanner :=
  if ascii_eqb c DQ then Some (InString, st) else None.
Definition is_e (c : ascii) : bool := one_of "eE" c.
Definition after_int (c : ascii) (st : list parse_state) : option scanner :=
  if ascii_eqb c "." then Some (Dot, st) else if is_e c then Some (Exp, st) else end_value c st.
Definition hex_digit (c : ascii) : bool := bool_decide (is_Some (hex_value c)).

Definition scan_step (s : scanner) (c : ascii) : option scanner :=
  let '(state, st) := s in
  match state with
  | BeginValueOrEmpty =>
      if json_space c then Some s else if ascii_eqb c "]" then end_value c st else begin_value c st
  | BeginValue => if json_space c then Some s else begin_value c st
  | BeginStringOrEmpty =>
      if json_space c then Some s
      else if ascii_eqb c "}" then end_value c (match st with _ :: st' => parseObjectValue :: st' | [] => [] end)
      else begin_string c st
  | BeginString => if json_space c then Some s else begin_string c st
  | EndValue => end_value c st
  | EndTop => end_top c
  | InString =>
      if ascii_eqb c DQ then Some (EndValue, st) else if ascii_eqb c BS then Some (InStringEsc, st)
      else if (code c <? 32)%Z then None else Some s
  | InStringEsc =>
      if one_of "bfnrt/" c || ascii_eqb c BS || ascii_eqb c DQ then Some (InString, st)
      else if ascii_eqb c "u" then Some (InStringU 4, st) else None
  | InStringU k =>
      if hex_digit c then Some (match k with S (S k) => InStringU (S k) | _ => InString end, st) else None
  | Neg => if ascii_eqb c "0" then Some (Int0, st) else if in_range 49 57 c then Some (Int1, st) else None
  | Int1 => if is_digit c then Some s else after_int c st
  | Int0 => after_int c st
  | Dot => if is_digit c then Some (Dot0, st) else None
  | Dot0 => if is_digit c then Some s else if is_e c then Some (Exp, st) else end_value c st
  | Exp => if one_of "+-" c then Some (ExpSign, st) else if is_digit c then Some (Exp0, st) else None
  | ExpSign => if is_digit c then Some (Exp0, st) else None
  | Exp0 => if is_digit c then Some s else end_value c st
  | Literal rest =>
      match rest with
      | String d rest => if ascii_eqb c d then Some (match rest with EmptyString => EndValue | _ => Literal rest end, st) else None
      | EmptyString => None
      end
  end.

(** The bytes read when the scanner gives up; the whole text when it never does. *)
Fixpoint scan_from (s : scanner) (text : string) : Z :=
  match text with
  | EmptyString => 0
  | String c text => match scan_step s c with Some s => 1 + scan_from s text | None => 1 end
  end%Z.
(** The offset in the syntax error of an invalid text. *)
Definition syntax_Offset (text : string) : Z := scan_from (BeginValue, []) text.

(** The scanner takes a whole text as a value, as [json.Valid] has it. *)
Fixpoint scan_run (s : scanner) (text : string) : option scanner :=
  match text with EmptyString => Some s | String c text => s' ← scan_step s c; scan_run s' text end.
Definition scan_valid (text : string) : bool :=
  match s ← scan_run (BeginValue, []) text; scan_step s " " with Some (EndTop, _) => true | _ => false end.

Example scanner_agrees : forallb (fun t => Bool.eqb (scan_valid t) (json_Valid t))
  ["{}"; "[1,2.5e+3,-0]"; "01"; "[1,]"; "{}x"; ""; " "; "nul"; "null "; "1."; "-"; "[[]"; "{" +:+ q "a" +:+ ":[{}]}";
   "{" +:+ q "a" +:+ " " +:+ "}"; q "\u00zz"; q "\u00e9\n"; "tru"; "true,"; "[ ] "; "{,}"; "0.5"; "1e"; "-01"; q (char LF)] = true.
Proof. by vm_compute. Qed.
Example offsets : map syntax_Offset ["[1,"; "{" +:+ q "a" +:+ " 1}"; "[1,]x"; "{"] = [3; 6; 4; 1]%Z.
Proof. by vm_compute. Qed.

(** ** Requests (protocol.go) *)
Definition maxRequestUnits : Z := 65536.
Definition maxRequestBytes : Z := maxRequestUnits * 3.

(** [InvalidJSON] marks a syntax error. *)
Record ParseError := mkParseError { msg : string; InvalidJSON : bool }.
Definition rejected (m : string) : ParseError := mkParseError m false.

(** UTF-16 code units: two for a rune above U+FFFF, one for the replacement rune. *)
Definition utf16Len (s : string) : Z :=
  foldr (fun r n => (match r with Some t => if (slen t =? 4)%Z then 2 else 1 | None => 1 end + n)%Z) 0%Z (runes s).

Definition ident_start (c : ascii) : bool := is_lower c || is_upper c || one_of "_$" c.
Definition ident_char (c : ascii) : bool := ident_start c || is_digit c.
Fixpoint take_while (p : ascii -> bool) (s : string) : string :=
  match s with String c s' => if p c then String c (take_while p s') else "" | EmptyString => "" end.
Definition jsonSyntaxMessage (line : string) : string :=
  let prefix := "JSON Parse error: " in
  match TrimSpace line with
  | EmptyString => prefix +:+ "Unexpected EOF"
  | String c _ as trimmed =>
      if ident_start c then prefix +:+ "Unexpected identifier " +:+ char DQ +:+ take_while ident_char trimmed +:+ char DQ
      else if (slen line <=? syntax_Offset line)%Z then
        if ascii_eqb c "{" then prefix +:+ "Expected '}'" else prefix +:+ "Unexpected EOF"
      else prefix +:+ "Unable to parse JSON string"
  end.

Definition not_object : string :=
  "parsed is not an Object. (evaluating '" +:+ char DQ +:+ "command" +:+ char DQ +:+ " in parsed')".
(** [map[string]json.RawMessage]; the text is known to be valid. *)
Definition decodeFields (line : string) : option rawmap :=
  match skip_ws line with String _ s => raw_members (S (String.length s)) s | EmptyString => None end.
Definition fieldsInvalid : ParseError := rejected "Control request fields are invalid".
(** One field: its raw value is a string. *)
Definition string_field (fields : rawmap) (key : string) : result ParseError string :=
  match raw_get fields key with
  | Some raw =>
      match raw with
      | String c _ =>
          if ascii_eqb c DQ then match json_Unmarshal raw with Some (JStr s) => Ok s | _ => Err fieldsInvalid end
          else Err fieldsInvalid
      | EmptyString => Err fieldsInvalid
      end
  | None => Err fieldsInvalid
  end.
Definition request_keys : list string := ["requestId"; "operation"; "service"; "revisionId"; "checksum"; "candidatePath"].
Definition forbidden_keys : list string := ["command"; "shell"; "args"].
Definition has_key (fields : rawmap) (key : string) : bool := bool_decide (is_Some (raw_get fields key)).
Definition valid_path (path : string) : bool :=
  HasPrefix path "/" && negb (Contains path "..") && negb (ContainsChar path NUL).

(** The checks on a decoded object, in the code's order. *)
Definition checkFields (fields : rawmap) : result ParseError Request :=
  ensure (negb (existsb (has_key fields) forbidden_keys)) (rejected "Arbitrary command fields are not allowed");;
  values ← mapM (string_field fields) request_keys;
  match values with
  | [id; operation; service; revision; checksum; path] =>
      ensure (existsb (String.eqb operation) Operations) (rejected ("Unknown control operation: " +:+ operation));;
      ensure ((service =? ServiceCoreDNS) || (service =? ServiceNginx)) (rejected ("Unknown control service: " +:+ service));;
      ensure (valid_path path) (rejected "Candidate path is invalid");;
      mret (mkRequest id operation service revision checksum path)
  | _ => Err fieldsInvalid
  end.
Definition ParseRequest (line : string) : result ParseError Request :=
  ensure (negb ((maxRequestBytes <? slen line)%Z || (maxRequestUnits <? utf16Len line)%Z)) (rejected "Control request is too large");;
  ensure (json_Valid line) (mkParseError (jsonSyntaxMessage line) true);;
  match skip_ws line with
  | EmptyString => Err (rejected not_object)
  | String c _ =>
      if ascii_eqb c "[" then Err fieldsInvalid
      else if negb (ascii_eqb c "{") then Err (rejected not_object)
      else match decodeFields line with
      | None => Err (rejected "Invalid control request")
      | Some fields => checkFields fields
      end
  end.

(** ** Replies *)
Definition hex_lower (n : Z) : ascii := byte_of (if (n <? 10)%Z then 48 + n else 87 + n).
Definition quote_ascii (c : ascii) : string :=
  if ascii_eqb c DQ then String BS (char DQ)
  else if ascii_eqb c BS then String BS (char BS)
  else if (code c =? 8)%Z then String BS "b"
  else if (code c =? 12)%Z then String BS "f"
  else if ascii_eqb c LF then String BS "n"
  else if ascii_eqb c CR then String BS "r"
  else if (code c =? 9)%Z then String BS "t"
  else if (code c <? 32)%Z then String BS ("u00" +:+ String (hex_lower (code c / 16)) (char (hex_lower (code c mod 16))))
  else char c.
Definition quote_rune (r : option string) : string :=
  match r with Some (String c EmptyString) => quote_ascii c | Some t => t | None => RuneError end.
Definition quoteJS (s : string) : string :=
  String DQ (foldr (fun r acc => quote_rune r +:+ acc) "" (runes s) +:+ char DQ).

(** Exported for backends. *)
Definition QuoteJS (s : string) : string := quoteJS s.

Definition MarshalResponse (r : Response) : string :=
  "{" +:+ q "requestId" +:+ ":" +:+ quoteJS (RespID r) +:+ "," +:+ q "operation" +:+ ":" +:+ quoteJS (RespOperation r)
  +:+ (if ROK r then "," +:+ q "ok" +:+ ":true" +:+ match ROutput r with Some o => "," +:+ q "output" +:+ ":" +:+ o | None => "" end
       else "," +:+ q "ok" +:+ ":false," +:+ q "error" +:+ ":" +:+ quoteJS (RError r))
  +:+ "}" +:+ nl.

(** ** The dispatcher (service.go)

    A handler may panic. [None] as output is nil. *)
Inductive handled : Type := Done (output : option string) | Failed_ (message : string) | Panics.
Definition operationFailed : string := "Control operation failed".
Definition unavailable (r : Request) : string :=
  "Operation " +:+ ROperation r +:+ " is unavailable for " +:+ RService r.
(** [Dispatcher.Execute] after the table's lookup and the handler's answer: [None] is a
    table without a handler for the request. *)
Definition dispatch (answer : option handled) (r : Request) : Response :=
  let failed := mkResponse (RequestID r) false (ROperation r) None in
  match answer with
  | None => failed (unavailable r)
  | Some Panics => failed operationFailed
  | Some (Failed_ message) => failed message
  | Some (Done None) => mkResponse (RequestID r) true (ROperation r) None ""
  | Some (Done (Some output)) =>
      match json_Compact output with
      | Some t => mkResponse (RequestID r) true (ROperation r) (Some t) ""
      | None => failed operationFailed
      end
  end.


(** ** Lines (transport.go) *)
Definition bufferSize : nat := Nat.pow 2 16.
Inductive slice_end : Type := Delimiter | BufferFull | StreamEnd.
(** [ReadSlice('\n')] on the unread bytes: at most a full buffer of them. *)
Fixpoint ReadSlice (room : nat) (s : string) : string * slice_end * string :=
  match room with
  | O => ("", BufferFull, s)
  | S room =>
      match s with
      | EmptyString => ("", StreamEnd, "")
      | String c s =>
          if ascii_eqb c LF then (char LF, Delimiter, s)
          else let '(t, e, r) := ReadSlice room s in (String c t, e, r)
      end
  end.
Inductive line_read : Type := Line (line : string) | TooLong | LinesEnd.
(** Each round takes bytes off the stream, so its length is enough fuel. *)
Fixpoint read_loop (fuel : nat) (line : string) (tooLong : bool) (s : string) : line_read * string :=
  match fuel with
  | O => (LinesEnd, s)
  | S fuel =>
      let '(chunk, e, s) := ReadSlice bufferSize s in
      let '(line, tooLong) :=
        if tooLong : bool then (line, true)
        else if (maxRequestBytes + 1 <? slen line + slen chunk)%Z then ("", true) else (line +:+ chunk, false) in
      match e with
      | Delimiter => (if tooLong then TooLong else Line (take_s (String.length line - 1) line), s)
      | BufferFull => read_loop fuel line tooLong s
      | StreamEnd => (LinesEnd, s)
      end
  end.
Definition readLine (s : string) : line_read * string := read_loop (S (String.length s)) "" false s.

Definition safe_char (c : ascii) : bool := is_alnum c || one_of "_-" c.
Definition safeLogID (id : string) : string :=
  if (1 <=? slen id)%Z && (slen id <=? 80)%Z && sall safe_char id then id else "[redacted]".

(** ** One connection *)
Inductive server_event : Type :=
| SLog (text : string)
| SHandle (r : Request) (answer : handled)
| SReply (bytes : string) (failed : option bool).
(** A handler's answer may depend on all that happened. *)
Definition Handler : Type := list server_event -> Request -> handled.
Definition Handlers : Type := Service -> Operation -> option Handler.

Definition fixed (_ : list server_event) (r : Request) : handled :=
  Done (Some ("{" +:+ q "service" +:+ ":" +:+ quoteJS (RService r) +:+ "," +:+ q "operation" +:+ ":" +:+ quoteJS (ROperation r)
    +:+ "," +:+ q "candidatePath" +:+ ":" +:+ quoteJS (RqPath r) +:+ "," +:+ q "status" +:+ ":" +:+ q "accepted-by-fixed-boundary" +:+ "}")).
Definition FixedBoundaryHandlers : Handlers := fun service operation =>
  if ((service =? ServiceCoreDNS) || (service =? ServiceNginx)) && existsb (String.eqb operation) Operations
  then Some fixed else None.

Section server.
Context (handlers : Handlers).
(** A failed write or read: [true] when the connection was closed here. *)
Context (write : list server_event -> string -> option bool) (stream_end : option bool).
Context (ctx_done : list server_event -> bool).

Definition Dispatcher_Execute (r : Request) : prog server_event Response :=
  match handlers (RService r) (ROperation r) with
  | None => mret (dispatch None r)
  | Some handler => answer ← call (fun h => handler h r) (SHandle r); mret (dispatch (Some answer) r)
  end.
Definition invalid (e : ParseError) : prog server_event Response :=
  note (SLog ("control request failed reason=" +:+ if InvalidJSON e then "invalid_json" else "invalid_request"));;
  mret (mkResponse "invalid" false "health" None (msg e)).
Definition handleLine (line : string) : prog server_event Response :=
  match ParseRequest line with
  | Err e => invalid e
  | Ok r =>
      response ← Dispatcher_Execute r;
      (if ROK response then mret tt
       else note (SLog ("control request failed request=" +:+ safeLogID (RequestID r) +:+ " operation=" +:+ ROperation r
              +:+ " service=" +:+ RService r +:+ " reason=operation_failed")));;
      mret response
  end.
Definition socket_error (closed : bool) : prog server_event unit :=
  done ← observe ctx_done;
  if (done : bool) || closed then mret tt else note (SLog "control socket failed reason=socket_error").
Definition line_response (l : line_read) : prog server_event Response :=
  match l with Line line => handleLine line | _ => invalid (rejected "Control request is too large") end.
Fixpoint serve_loop (fuel : nat) (s : string) : prog server_event unit :=
  match fuel with
  | O => mret tt
  | S fuel =>
      let '(l, s) := readLine s in
      match l with
      | LinesEnd => match stream_end with Some closed => socket_error closed | None => mret tt end
      | _ =>
          response ← line_response l;
          failed ← call (fun h => write h (MarshalResponse response)) (SReply (MarshalResponse response));
          match failed with Some closed => socket_error closed | None => serve_loop fuel s end
      end
  end.
(** Each answered line takes at least one byte off the stream. *)
Definition serveConn (stream : string) : prog server_event unit := serve_loop (S (String.length stream)) stream.
End server.

(** ** The socket (Listen)

    [None] as the answer of a step is success. *)
Definition Listen (mkdir listen : option string) : prog server_event (result string unit) :=
  match mkdir with
  | Some e => note (SLog "control socket failed reason=setup_failed stage=mkdir");; mret (Err e)
  | None =>
      match listen with
      | Some e => note (SLog "control socket failed reason=setup_failed stage=listen");; mret (Err e)
      | None => mret (Ok tt)
      end
  end.

(** ** The registry of connections (Serve, track, untrack, Close)

    [live]: connections that are open; [accepting]: accepted by the loop of [Serve] and
    not yet tracked. Each step holds the mutex or runs on the accepting goroutine. *)
Record Server := mkServer { conns : gset nat; closed : bool; live : gset nat; accepting : option nat }.
Definition Listening : Server := mkServer ∅ false ∅ None.
Definition Close (s : Server) : Server :=
  if closed s then s else mkServer (conns s) true (live s ∖ conns s) (accepting s).
Definition track (s : Server) (c : nat) : Server * bool :=
  if closed s then (s, false) else (mkServer ({[c]} ∪ conns s) (closed s) (live s) (accepting s), true).
Definition untrack (s : Server) (c : nat) : Server :=
  mkServer (conns s ∖ {[c]}) (closed s) (live s ∖ {[c]}) (accepting s).
(** Accept returns a new connection; a closed listener fails instead. *)
Definition accept (s : Server) (c : nat) : option Server :=
  if closed s || bool_decide (c ∈ live s) || bool_decide (c ∈ conns s) then None
  else match accepting s with Some _ => None | None => Some (mkServer (conns s) (closed s) ({[c]} ∪ live s) (Some c)) end.
(** The rest of the loop's body, up to starting the goroutine. *)
Definition admit_conn (s : Server) : Server :=
  match accepting s with
  | None => s
  | Some c =>
      let '(s', ok) := track s c in
      mkServer (conns s') (closed s') (if ok : bool then live s' else live s' ∖ {[c]}) None
  end.
Inductive server_step : Server -> Server -> Prop :=
| step_close s : server_step s (Close s)
| step_accept s c s' : accept s c = Some s' -> server_step s s'
| step_admit s : server_step s (admit_conn s)
| step_done s c : c ∈ conns s -> server_step s (untrack s c).

Definition no_fault (_ : list server_event) (_ : string) : option bool := None.
Definition served (handlers : Handlers) (stream : string) : list server_event :=
  (serveConn handlers no_fault None (fun _ => false) stream []).1.
Definition reply_bytes (e : server_event) : string := match e with SReply b _ => b | _ => "" end.
Definition received (X : list server_event) : string := foldr (fun e acc => reply_bytes e +:+ acc) "" X.
Example serve_example :
  let r := mkRequest ("a" +:+ char DQ) OperationHealth ServiceNginx "rev" "sum" "/c" in
  let line := MarshalRequest r in
  Execute (fun line => quiet (received (served FixedBoundaryHandlers line))) r
    = Ok (dispatch (Some (fixed [] r)) r)
  /\ length (served FixedBoundaryHandlers (line +:+ "nul" +:+ nl +:+ line +:+ "rest")) = 6%nat
  /\ received (served FixedBoundaryHandlers ("{" +:+ nl)) = "{" +:+ q "requestId" +:+ ":" +:+ q "invalid" +:+ ","
      +:+ q "operation" +:+ ":" +:+ q "health" +:+ "," +:+ q "ok" +:+ ":false," +:+ q "error" +:+ ":"
      +:+ q "JSON Parse error: Expected '}'" +:+ "}" +:+ nl
  /\ is_ok (ParseRequest (MarshalRequest r)) = true
  /\ ParseRequest "[1]" = Err fieldsInvalid /\ ParseRequest "null" = Err (rejected not_object)
  /\ ParseRequest ("{" +:+ q "shell" +:+ ":1}") = Err (rejected "Arbitrary command fields are not allowed").
Proof. split_and!; vm_compute; reflexivity. Qed.
