(* ===== verification/ControlFacts.v ===== *)
(** * The control protocol, shown

    Lines are cut as the specification says whatever the buffering; requests and
    responses are read back as written; a connection's lines are answered once each, in
    order; a call through the client and the server is the handler's answer. *)

From S2P Require Import Prelude Effects GoStrings StrFacts Json JsonFacts JsonText Scrub RProxy JsonRead ControlServer.
From S2P Require Import Candidate JsonCompact Control ControlServer.
From stdpp Require Import options.

(** ** Lines *)
Lemma slice_step room c s : ReadSlice (S room) (String c s) =
  if ascii_eqb c LF then (char LF, Delimiter, s) else let '(t, e, r) := ReadSlice room s in (String c t, e, r).
Proof. reflexivity. Qed.
(** What a slice leaves of the line it is in. *)
Lemma slice_spec room : forall s, match ReadSlice room s with
  | (t, Delimiter, r) => exists l, cut_line s = Some (l, r) /\ t = l +:+ char LF
  | (t, BufferFull, r) => s = t +:+ r /\ String.length t = room
      /\ cut_line s = match cut_line r with Some (l, r') => Some (t +:+ l, r') | None => None end
  | (_, StreamEnd, _) => cut_line s = None
  end.
Proof.
  induction room as [|room IH]; intros s.
  - cbn. split; [done|]. split; [done|]. by destruct (cut_line s) as [[l r]|].
  - destruct s as [|c s]; [done|]. rewrite slice_step. destruct (ascii_eqb c LF) eqn:Hc.
    + exists "". cbn [cut_line]. by rewrite Hc.
    + specialize (IH s). cbn [cut_line]. rewrite Hc. destruct (ReadSlice room s) as [[t e] r]. destruct e.
      * destruct IH as (l&->&->). exists (String c l). done.
      * destruct IH as (->&Hl&->). split; [done|]. split; [cbn; lia|]. by destruct (cut_line r) as [[l r']|].
      * by rewrite IH.
Qed.
Lemma take_line l : take_s (String.length (l +:+ char LF) - 1) (l +:+ char LF) = l.
Proof. rewrite length_app_s. cbn [char String.length]. replace (_ + 1 - 1) with (String.length l) by lia. apply take_s_app. Qed.
Lemma slen_app s t : slen (s +:+ t) = (slen s + slen t)%Z.
Proof. unfold slen. rewrite length_app_s. lia. Qed.
Lemma slen_nonneg s : (0 <= slen s)%Z.
Proof. unfold slen. lia. Qed.
Definition one_line (l : string) : line_read := if (maxRequestBytes <? slen l)%Z then TooLong else Line l.
Definition line_of (p s : string) : line_read * option string :=
  match cut_line s with Some (l, r) => (one_line (p +:+ l), Some r) | None => (LinesEnd, None) end.

(** [p] is what the earlier slices of the line held. *)
Lemma read_loop_spec fuel : forall p line tooLong s, String.length s < fuel ->
  tooLong = (maxRequestBytes + 1 <? slen p)%Z -> (tooLong = false -> line = p) ->
  let '(o, r) := read_loop fuel line tooLong s in
  o = (line_of p s).1 /\ match (line_of p s).2 with Some r' => r = r' | None => True end.
Proof.
  induction fuel as [|fuel IH]; intros p line tooLong s Hf Ht Hline; [lia|]. cbn [read_loop].
  pose proof (slice_spec bufferSize s) as Hs. assert (0 < bufferSize) as Hb by (unfold bufferSize; apply Nat.neq_0_lt_0, Nat.pow_nonzero; lia).
  destruct (ReadSlice bufferSize s) as [[chunk e] r].
  destruct (if tooLong then (line, true) else _) as [line' tooLong'] eqn:E.
  assert (tooLong' = (maxRequestBytes + 1 <? slen (p +:+ chunk))%Z /\ (tooLong' = false -> line' = p +:+ chunk)) as [Ht' Hline'].
  { pose proof (slen_nonneg chunk). rewrite slen_app. destruct tooLong.
    - injection E as <- <-. split; [|done]. symmetry in Ht. bsimp. symmetry. apply Z.ltb_lt. lia.
    - rewrite (Hline eq_refl) in E. destruct (maxRequestBytes + 1 <? slen p + slen chunk)%Z; by injection E as <- <-. }
  unfold line_of. destruct e.
  - destruct Hs as (l&->&->). cbn [fst snd]. split; [|done]. unfold one_line.
    assert (slen (p +:+ l +:+ char LF) = slen (p +:+ l) + 1)%Z as Hl by (rewrite !slen_app; change (slen (char LF)) with 1%Z; lia).
    rewrite Hl in Ht'. destruct tooLong'.
    + symmetry in Ht'. bsimp. assert ((maxRequestBytes <? slen (p +:+ l))%Z = true) as -> by (apply Z.ltb_lt; lia). done.
    + symmetry in Ht'. bsimp. assert ((maxRequestBytes <? slen (p +:+ l))%Z = false) as -> by (apply Z.ltb_ge; lia).
      rewrite (Hline' eq_refl), <- app_assoc_s. by rewrite take_line.
  - destruct Hs as (->&Hl&->). rewrite length_app_s in Hf. specialize (IH (p +:+ chunk) line' tooLong' r ltac:(lia) Ht' Hline').
    unfold line_of in IH. destruct (read_loop fuel line' tooLong' r) as [o r']. destruct (cut_line r) as [[l r'']|]; [|done].
    rewrite <- app_assoc_s. exact IH.
  - rewrite Hs. done.
Qed.
Lemma readLine_cut s : let '(o, r) := readLine s in
  o = (line_of "" s).1 /\ match (line_of "" s).2 with Some r' => r = r' | None => True end.
Proof. apply read_loop_spec; [lia|done|done]. Qed.

Lemma cut_Split s : Split LF s = match cut_line s with Some (l, r) => l :: Split LF r | None => [s] end.
Proof.
  induction s as [|c s IH]; [done|]. cbn [Split cut_line].
  assert (ascii_eqb LF c = ascii_eqb c LF) as ->.
  { unfold ascii_eqb. apply bool_decide_ext. split; congruence. }
  destruct (ascii_eqb c LF); [done|]. rewrite IH. by destruct (cut_line s) as [[l r]|].
Qed.
Lemma cut_shorter s l r : cut_line s = Some (l, r) -> s = l +:+ char LF +:+ r.
Proof.
  revert l. induction s as [|c s IH]; intros l; cbn [cut_line]; [done|]. destruct (ascii_eqb c LF) eqn:Hc.
  - intros [= <- <-]. by apply ascii_eqb_eq in Hc as ->.
  - destruct (cut_line s) as [[l' r']|]; [|done]. intros [= <- <-]. cbn. by rewrite (IH l').
Qed.
Lemma cut_line_app l r : free_of LF l -> cut_line (l +:+ char LF +:+ r) = Some (l, r).
Proof.
  induction l as [|c l IH]; [done|]. intros [Hc Hl]%free_of_cons. cbn [String.append cut_line].
  destruct (ascii_eqb c LF) eqn:E; [apply ascii_eqb_eq in E; congruence|]. by rewrite IH.
Qed.

(** ** A connection answers its complete lines

    [complete_lines]: what stands before each line feed. *)
Definition complete_lines (s : string) : list string := removelast (Split LF s).
Lemma complete_cons s l r : cut_line s = Some (l, r) -> complete_lines s = l :: complete_lines r.
Proof.
  intros H. unfold complete_lines. rewrite cut_Split, H. destruct (Split_cons LF r) as (w&ws&->). done.
Qed.
Lemma complete_none s : cut_line s = None -> complete_lines s = [].
Proof. intros H. unfold complete_lines. by rewrite cut_Split, H. Qed.

Section connection.
Context (handlers : Handlers) (write : list server_event -> string -> option bool) (stream_end : option bool).
Context (ctx_done : list server_event -> bool).

(** The specification: each line is handled and answered before the next one, until a
    write fails; the end of the stream is reported last. *)
Definition reply_to (l : string) : prog server_event (option bool) :=
  response ← line_response handlers (one_line l);
  call (fun h => write h (MarshalResponse response)) (SReply (MarshalResponse response)).
Fixpoint answer_lines (ls : list string) : prog server_event unit :=
  match ls with
  | [] => match stream_end with Some closed => socket_error ctx_done closed | None => mret tt end
  | l :: ls => failed ← reply_to l; match failed with Some closed => socket_error ctx_done closed | None => answer_lines ls end
  end.

Lemma bind_assoc_prog {A B C} (m : prog server_event A) (f : A -> prog server_event B) (g : B -> prog server_event C) h :
  ((m ≫= f) ≫= g) h = (m ≫= fun a => f a ≫= g) h.
Proof. unfold mbind, prog_bind. by destruct (m h). Qed.
Lemma bind_ext_prog {A B} (m : prog server_event A) (f g : A -> prog server_event B) h :
  (forall a h, f a h = g a h) -> (m ≫= f) h = (m ≫= g) h.
Proof. intros H. unfold mbind, prog_bind. by destruct (m h). Qed.

Lemma one_line_not_end l : match one_line l with LinesEnd => False | _ => True end.
Proof. unfold one_line. by destruct (_ <? _)%Z. Qed.
Lemma serve_loop_lines fuel : forall s h, String.length s < fuel ->
  serve_loop handlers write stream_end ctx_done fuel s h = answer_lines (complete_lines s) h.
Proof.
  induction fuel as [|fuel IH]; intros s h Hf; [lia|]. cbn [serve_loop].
  pose proof (readLine_cut s) as H. destruct (readLine s) as [o r]. destruct H as [-> Hr]. unfold line_of in *.
  destruct (cut_line s) as [[l r']|] eqn:E; cbn [fst snd] in *; [|by rewrite complete_none].
  subst r'. rewrite (complete_cons _ _ _ E). cbn [answer_lines String.append].
  apply cut_shorter in E. assert (String.length r < fuel) as Hl.
  { apply (f_equal String.length) in E. rewrite !length_app_s in E. cbn in E. lia. }
  assert (forall A (a b : A), match one_line l with LinesEnd => a | _ => b end = b) as Hm.
  { intros A a b. pose proof (one_line_not_end l). by destruct (one_line l). }
  rewrite Hm. unfold reply_to. rewrite bind_assoc_prog. apply bind_ext_prog. intros response h1.
  apply bind_ext_prog. intros [closed|] h2; [done|]. by apply IH.
Qed.
End connection.

(** A connection is served line by line: whatever the buffering of the reader, the
    server handles each newline-terminated line of the stream in order and writes exactly one
    reply to it before it looks at the next, over-long lines included; it stops at the
    first failed write, and a trailing partial line is never answered. *)
Theorem serveConn_lines handlers write stream_end ctx_done stream h :
  serveConn handlers write stream_end ctx_done stream h
  = answer_lines handlers write stream_end ctx_done (complete_lines stream) h.
Proof. apply serve_loop_lines. lia. Qed.

(** ** Limits *)
Lemma runes_units s : (slen s <= 3 * utf16Len s)%Z /\ (0 <= utf16Len s)%Z.
Proof.
  unfold utf16Len. induction s as [s IH] using string_len_ind. destruct s as [|a s1]; [done|]. cbn [runes].
  destruct (code a <? 128)%Z.
  { specialize (IH s1 ltac:(cbn; lia)). unfold slen in *. cbn [String.length foldr char] in *.
    change (Z.of_nat 1 =? 4)%Z with false. cbv iota. lia. }
  destruct s1 as [|b s2]; [done|].
  assert (Hn : (slen (String a (String b s2)) <= 3 * (1 + foldr (fun r n => (match r with Some t => if (slen t =? 4)%Z then 2 else 1 | None => 1 end + n)%Z) 0%Z (runes (String b s2))) /\
    0 <= 1 + foldr (fun r n => (match r with Some t => if (slen t =? 4)%Z then 2 else 1 | None => 1 end + n)%Z) 0%Z (runes (String b s2)))%Z).
  { specialize (IH (String b s2) ltac:(cbn; lia)). unfold slen in *. cbn [String.length] in *. lia. }
  destruct (ok2 a b).
  { specialize (IH s2 ltac:(cbn; lia)). unfold slen in *. cbn [String.length foldr char] in *. 
    change (Z.of_nat 2 =? 4)%Z with false. cbv iota. lia. }
  destruct s2 as [|c s3]; [exact Hn|]. destruct (ok3 a b c).
  { specialize (IH s3 ltac:(cbn; lia)). unfold slen in *. cbn [String.length foldr char] in *.
    change (Z.of_nat 3 =? 4)%Z with false. cbv iota. lia. }
  destruct s3 as [|d s4]; [exact Hn|]. destruct (ok4 a b c d); [|exact Hn].
  specialize (IH s4 ltac:(cbn; lia)). unfold slen in *. cbn [String.length foldr char] in *.
  change (Z.of_nat 4 =? 4)%Z with true. cbv iota. lia.
Qed.

(** ** Strings of the two writers *)
Lemma json_string_text html s : string_text (valid_utf8 s) (json_text html s).
Proof. eapply read_string_inv, (read_string_text html s ""). apply Nat.lt_succ_diag_r. Qed.
Definition quote_text (s : string) : string := foldr (fun r acc => quote_rune r +:+ acc) "" (runes s).
Lemma quoteJS_raw s : quoteJS s = quote_raw (quote_text s).
Proof. reflexivity. Qed.
Lemma quote_ascii_esc c : quote_ascii c = esc_ascii false c.
Proof. destruct c as [[] [] [] [] [] [] [] []]; reflexivity. Qed.
Lemma chunk_quote s r : r ∈ runes s -> reads_chunk (quote_rune r) (default RuneError r).
Proof.
  intros Hr. destruct r as [t|]; [|by apply chunk_highs].
  apply runes_bytes in Hr as [(c&->&Hc)|[Ht Hl]]; cbn [quote_rune default].
  - change (reads_chunk (quote_ascii c) (char c)). rewrite quote_ascii_esc. by apply chunk_ascii.
  - destruct t as [|a [|b t]]; [by apply chunk_highs|cbn in Hl; lia|by apply chunk_highs].
Qed.
Lemma quote_string_text s : string_text (valid_utf8 s) (quote_text s).
Proof.
  assert (reads_chunk (quote_text s) (valid_utf8 s)) as H.
  { unfold quote_text, valid_utf8. pose proof (chunk_quote s) as H. induction (runes s) as [|r l IH]; cbn [foldr].
    - intros fuel rest Hf. exists fuel. split; [done|]. cbn. by destruct (read_string fuel rest) as [[[v t] x]|].
    - apply chunk_app; [apply H; apply list_elem_of_here|]. apply IH. intros r' Hr'. apply H. by apply list_elem_of_further. }
  destruct (H _ (String DQ "") (Nat.lt_succ_diag_r _)) as ([|f]&Hf&E); [lia|].
  change (read_string (S f) (String DQ "")) with (Some ("", "", "")) in E.
  cbn [mbind option_bind] in E. rewrite !app_nil_r_s in E. by eapply read_string_inv.
Qed.
Lemma key_text k : read_string 40 (k +:+ String DQ "") = Some (k, k, "") -> string_text k k.
Proof. intros H. by eapply read_string_inv. Qed.

(** ** Requests *)
Definition request_members (r : Request) : list (string * string) :=
  [("requestId", RequestID r); ("operation", ROperation r); ("service", RService r);
   ("revisionId", RqRevision r); ("checksum", RqChecksum r); ("candidatePath", RqPath r)].
Definition members_text (l : list (string * string)) : string :=
  Join (map (fun f => q f.1 +:+ ":" +:+ f.2) l) ",".
(** Members with fixed keys and values that are compact texts. *)
Lemma members_of (l : list (string * (json * string))) :
  Forall (fun f => string_text f.1 f.1 /\ valid_utf8 f.1 = f.1 /\ reads_as f.2.1 f.2.2) l -> l <> [] ->
  members_as (map (fun f => (f.1, f.2.1)) l) (map (fun f => (f.1, f.2.2)) l) (members_text (map (fun f => (f.1, f.2.2)) l)).
Proof.
  induction 1 as [|[k [v t]] l (Hk&Hu&Hv) Hl IH]; [done|]. intros _. cbn [fst snd] in *. unfold members_text in *.
  pose proof (members_one k k v t Hk Hv) as H1. rewrite Hu in H1.
  destruct l as [|f l]; [exact H1|]. remember (f :: l) as l' eqn:E. cbn [map]. rewrite Join_cons by by subst.
  cbn [fst snd]. pose proof (members_cons k k v t _ _ _ Hk Hv (IH ltac:(by subst))) as H. rewrite Hu in H. exact H.
Qed.
Lemma line_text m raw t : members_as m raw t ->
  reads_as (JObj m) ("{" +:+ t +:+ "}") /\ forall x, skip_ws (("{" +:+ t +:+ "}") +:+ x) = "{" +:+ t +:+ "}" +:+ x.
Proof. intros H. split; [by eapply reads_obj|]. intros x. rewrite !app_assoc_s. done. Qed.

Definition request_line (r : Request) : string :=
  "{" +:+ members_text (map (fun f => (f.1, json_quote false f.2)) (request_members r)) +:+ "}".
Lemma MarshalRequest_line r : MarshalRequest r = request_line r +:+ nl.
Proof. reflexivity. Qed.
Lemma request_members_as r : members_as (map (fun f => (f.1, JStr (valid_utf8 f.2))) (request_members r))
  (map (fun f => (f.1, json_quote false f.2)) (request_members r))
  (members_text (map (fun f => (f.1, json_quote false f.2)) (request_members r))).
Proof.
  pose proof (members_of (map (fun f => (f.1, (JStr (valid_utf8 f.2), json_quote false f.2))) (request_members r))) as H.
  rewrite !map_map in H. apply H; [|done]. apply Forall_map.
  assert (forall s, reads_as (JStr (valid_utf8 s)) (json_quote false s)) as Hr.
  { intros s. rewrite <- (valid_utf8_idemp s) at 1. apply (reads_str (valid_utf8 s)), json_string_text. }
  unfold request_members. repeat (apply Forall_cons; split; [split; [by apply key_text|split; [by vm_compute|apply Hr]]|]). by apply Forall_nil.
Qed.
(** What the client sends is UTF-8 and within the server's limits and lists. *)
Record acceptable (r : Request) : Prop := mkAcceptable {
  ac_id : utf8 (RequestID r); ac_revision : utf8 (RqRevision r); ac_checksum : utf8 (RqChecksum r); ac_path : utf8 (RqPath r);
  ac_operation : ROperation r ∈ Operations;
  ac_service : RService r ∈ [ServiceCoreDNS; ServiceNginx];
  ac_valid : valid_path (RqPath r) = true;
  ac_units : (utf16Len (request_line r) <= maxRequestUnits)%Z }.
Lemma string_field_quote fields key s : raw_get fields key = Some (json_quote false s) ->
  string_field fields key = Ok (valid_utf8 s).
Proof.
  intros H. unfold string_field. rewrite H. unfold json_quote at 1. rewrite ascii_eqb_refl.
  change (json_quote false s) with (wire false (JStr s)). by rewrite unmarshal_wire.
Qed.

Definition request_raw (r : Request) : rawmap := map (fun f => (f.1, json_quote false f.2)) (request_members r).
Lemma decodeFields_line r : decodeFields (request_line r) = Some (request_raw r).
Proof.
  unfold decodeFields. destruct (line_text _ _ _ (request_members_as r)) as [_ Hs]. specialize (Hs "").
  rewrite !app_nil_r_s in Hs. unfold request_line. rewrite Hs. cbn [String.append].
  pose proof (ma_raw _ _ _ (request_members_as r)) as Hraw. set (t := members_text _) in *. clearbody t.
  unfold raw_members. change "}" with (String "}" "") at 2. rewrite Hraw by (rewrite length_app_s; lia). reflexivity.
Qed.
Lemma checkFields_raw r : utf8 (RequestID r) -> utf8 (RqRevision r) -> utf8 (RqChecksum r) -> utf8 (RqPath r) ->
  ROperation r ∈ Operations -> RService r ∈ [ServiceCoreDNS; ServiceNginx] -> valid_path (RqPath r) = true ->
  checkFields (request_raw r) = Ok r.
Proof.
  intros Hid Hrev Hsum Hpath Hop Hsvc Hv. unfold checkFields.
  assert (existsb (has_key (request_raw r)) forbidden_keys = false) as -> by reflexivity. cbn [negb ensure].
  assert (valid_utf8 (ROperation r) = ROperation r) as Uop.
  { repeat (apply elem_of_cons in Hop as [->|Hop]; [done|]). by apply elem_of_nil in Hop. }
  assert (valid_utf8 (RService r) = RService r) as Usvc.
  { repeat (apply elem_of_cons in Hsvc as [->|Hsvc]; [done|]). by apply elem_of_nil in Hsvc. }
  assert (mapM (string_field (request_raw r)) request_keys = Ok (map snd (request_members r))) as ->.
  { unfold request_keys. cbn [mapM]. rewrite (string_field_quote _ "requestId" (RequestID r)) by done.
    rewrite (string_field_quote _ "operation" (ROperation r)) by done. rewrite (string_field_quote _ "service" (RService r)) by done.
    rewrite (string_field_quote _ "revisionId" (RqRevision r)) by done. rewrite (string_field_quote _ "checksum" (RqChecksum r)) by done.
    rewrite (string_field_quote _ "candidatePath" (RqPath r)) by done. rewrite Uop, Usvc, !valid_utf8_id by done. done. }
  cbn [mbind result_bind request_members map snd].
  assert (existsb (String.eqb (ROperation r)) Operations = true) as ->.
  { apply existsb_elem. exists (ROperation r). split; [done|]. apply String.eqb_refl. }
  assert ((RService r =? ServiceCoreDNS) || (RService r =? ServiceNginx) = true) as ->.
  { apply orb_true_iff. rewrite !String.eqb_eq. apply elem_of_cons in Hsvc as [?|?%list_elem_of_singleton]; auto. }
  rewrite Hv. by destruct r.
Qed.
Lemma ParseRequest_line r : acceptable r -> ParseRequest (request_line r) = Ok r.
Proof.
  intros [Hid Hrev Hsum Hpath Hop Hsvc Hv Hu]. unfold ParseRequest.
  destruct (runes_units (request_line r)) as [Hb _].
  assert ((maxRequestBytes <? slen (request_line r))%Z || (maxRequestUnits <? utf16Len (request_line r))%Z = false) as ->.
  { apply orb_false_iff. rewrite !Z.ltb_ge. unfold maxRequestBytes. split; lia. }
  destruct (line_text _ _ _ (request_members_as r)) as [Hr _].
  assert (json_Valid (request_line r) = true) as ->.
  { apply bool_decide_eq_true. unfold request_line. rewrite (read_json_text _ _ Hr); [eauto|done]. }
  cbn [ensure negb mbind result_bind]. change (skip_ws (request_line r)) with (request_line r).
  rewrite decodeFields_line. unfold request_line. cbn [String.append].
  change (ascii_eqb "{" "[") with false. change (ascii_eqb "{" "{") with true. cbn [negb]. by apply checkFields_raw.
Qed.

(** ** Responses *)
Lemma reads_quoteJS s : reads_as (JStr (valid_utf8 s)) (quoteJS s).
Proof. rewrite <- (valid_utf8_idemp s) at 1. apply (reads_str (valid_utf8 s)), quote_string_text. Qed.
Lemma reads_bool b : reads_as (JBool b) (if b then "true" else "false").
Proof. destruct b; [by apply (reads_lit "true" _ _ "")|by apply (reads_lit "false" _ _ "")]. Qed.
(** The members of a reply; [v] is the value of its output. *)
Definition response_members (v : json) (r : Response) : list (string * (json * string)) :=
  [("requestId", (JStr (valid_utf8 (RespID r)), quoteJS (RespID r)));
   ("operation", (JStr (valid_utf8 (RespOperation r)), quoteJS (RespOperation r)));
   ("ok", (JBool (ROK r), if ROK r then "true" else "false"))]
  ++ (if ROK r then match ROutput r with Some o => [("output", (v, o))] | None => [] end
      else [("error", (JStr (valid_utf8 (RError r)), quoteJS (RError r)))]).
Definition response_raw (v : json) (r : Response) : rawmap := map (fun f => (f.1, f.2.2)) (response_members v r).
Definition response_line (r : Response) : string := "{" +:+ members_text (response_raw JNull r) +:+ "}".
Lemma response_raw_text v w r : response_raw v r = response_raw w r.
Proof. unfold response_raw, response_members. by destruct (ROK r), (ROutput r). Qed.
Lemma MarshalResponse_line r : MarshalResponse r = response_line r +:+ nl.
Proof.
  unfold MarshalResponse, response_line, members_text, response_raw, response_members.
  destruct r as [id ok op out err]. cbn [RespID ROK RespOperation ROutput RError]. destruct ok; [destruct out as [o|]|];
    cbn [app map fst snd Join]; rewrite !app_assoc_s; reflexivity.
Qed.
(** A response whose output is a compact text of a value nested less deeply than the
    reader allows. *)
Definition output_ok (v : json) (r : Response) : Prop :=
  ROK r = true -> forall o, ROutput r = Some o -> reads_as v o /\ (depth v < 10000)%Z.
Lemma response_members_as v r : output_ok v r ->
  members_as (map (fun f => (f.1, f.2.1)) (response_members v r)) (response_raw v r) (members_text (response_raw v r)).
Proof.
  intros Ho. apply members_of; [|done]. unfold response_members. apply Forall_app. split.
  - repeat (apply Forall_cons; split; [split; [by apply key_text|split; [by vm_compute|]]|]);
      [apply reads_quoteJS|apply reads_quoteJS|apply reads_bool|by apply Forall_nil].
  - unfold output_ok in Ho. destruct (ROK r).
    + destruct (ROutput r) as [o|]; [|by apply Forall_nil]. apply Forall_cons. split; [|by apply Forall_nil].
      split; [by apply key_text|]. split; [by vm_compute|]. by apply Ho.
    + apply Forall_cons. split; [|by apply Forall_nil]. split; [by apply key_text|]. split; [by vm_compute|]. apply reads_quoteJS.
Qed.
(** What a reader of the reply gets: its strings in UTF-8. *)
Definition as_read (r : Response) : Response :=
  mkResponse (valid_utf8 (RespID r)) (ROK r) (valid_utf8 (RespOperation r))
    (if ROK r then ROutput r else None) (if ROK r then "" else valid_utf8 (RError r)).
Lemma depth_members v r : output_ok v r ->
  (depth (JObj (map (fun f => (f.1, f.2.1)) (response_members v r))) <= 10000)%Z.
Proof.
  intros Ho. unfold output_ok in Ho. unfold response_members. destruct (ROK r); [destruct (ROutput r) as [o|]|]; cbn; try lia.
  destruct (Ho eq_refl o eq_refl) as [_ Hd]. pose proof (depth_nonneg v). lia.
Qed.
Lemma decode_quoteJS s cur : raw_dec dec_string (quoteJS s) cur = Some (valid_utf8 s).
Proof.
  unfold raw_dec, json_decode. rewrite (read_json_text _ _ (reads_quoteJS s)); [|cbn; lia].
  change (Some (valid_utf8 (valid_utf8 s)) = Some (valid_utf8 s)). by rewrite valid_utf8_idemp.
Qed.
Lemma decode_bool (b cur : bool) : raw_dec dec_bool (if b then "true" else "false") cur = Some b.
Proof. by destruct b. Qed.

Lemma raw_field_hit {A} k t m name (dec : string -> A -> option A) cur : (foldName k =? foldName name) = true ->
  raw_field ((k, t) :: m) name dec cur = (a ← dec t cur; raw_field m name dec a).
Proof.
  intros H. unfold raw_field. cbn [foldl mbind option_bind fst snd]. rewrite H. destruct (dec t cur) as [a|]; [done|]. cbn.
  induction m as [|f m IH]; [done|]. cbn. done.
Qed.
Lemma raw_field_miss {A} k t m name (dec : string -> A -> option A) cur : (foldName k =? foldName name) = false ->
  raw_field ((k, t) :: m) name dec cur = raw_field m name dec cur.
Proof. intros H. unfold raw_field. cbn [foldl mbind option_bind fst snd]. by rewrite H. Qed.
Lemma raw_field_nil {A} name (dec : string -> A -> option A) cur : raw_field [] name dec cur = Some cur.
Proof. reflexivity. Qed.
Lemma decode_raw t cur : dec_raw t cur = Some (Some t).
Proof. reflexivity. Qed.
Ltac field_step :=
  first [ rewrite raw_field_hit by reflexivity | rewrite raw_field_miss by reflexivity | rewrite raw_field_nil
        | rewrite decode_quoteJS | rewrite decode_bool | rewrite decode_raw | progress cbn [mbind option_bind] ].
Definition decode_members (m : rawmap) : option Response :=
  id ← raw_field m "requestId" (raw_dec dec_string) "";
  ok ← raw_field m "ok" (raw_dec dec_bool) false;
  operation ← raw_field m "operation" (raw_dec dec_string) "";
  output ← raw_field m "output" dec_raw None;
  error ← raw_field m "error" (raw_dec dec_string) "";
  Some (mkResponse id ok operation output error).
Lemma decode_response_raw v r : decode_members (response_raw v r) = Some (as_read r).
Proof.
  unfold decode_members, response_raw, response_members, as_read.
  destruct (ROK r) eqn:Hok; [destruct (ROutput r) as [o|]|]; cbn [app map fst snd];
    rewrite ?(decode_bool true), ?(decode_bool false); repeat field_step;
    try change (raw_dec dec_bool "true" false) with (Some true); try change (raw_dec dec_bool "false" false) with (Some false);
    repeat field_step; done.
Qed.
Lemma decodeResponse_line v r : output_ok v r -> decodeResponse (MarshalResponse r) = Some (as_read r).
Proof.
  intros Ho. rewrite MarshalResponse_line. unfold decodeResponse, response_line.
  rewrite (response_raw_text JNull v). pose proof (response_members_as v r Ho) as Hm.
  destruct (line_text _ _ _ Hm) as [Hr Hs]. specialize (Hs nl).
  assert (json_Valid (("{" +:+ members_text (response_raw v r) +:+ "}") +:+ nl) = true) as ->.
  { apply bool_decide_eq_true. rewrite (read_json_line _ _ _ Hr); [eauto|by apply depth_members|done]. }
  cbn [negb]. rewrite Hs. cbn [String.append]. change (ascii_eqb "{" "{") with true. cbv iota.
  pose proof (ma_raw _ _ _ Hm) as Hraw. set (t := members_text _) in *. clearbody t.
  rewrite Hraw by (rewrite length_app_s; lia). cbn [mbind option_bind]. apply decode_response_raw.
Qed.

(** ** A whole call *)
Lemma take_s_all n s : String.length s <= n -> take_s n s = s.
Proof. revert n. induction s as [|c s IH]; intros [|n] H; cbn in *; try done; [lia|]. f_equal. apply IH. lia. Qed.
Lemma members_line v r : output_ok v r -> free_of LF (response_line r).
Proof.
  intros Ho. unfold response_line. rewrite (response_raw_text JNull v). pose proof (response_members_as v r Ho) as Hm.
  apply (ra_line _ _ (reads_obj _ _ _ Hm)).
Qed.
Lemma complete_one l : free_of LF l -> complete_lines (l +:+ nl) = [l].
Proof.
  intros Hl. change nl with (char LF +:+ ""). rewrite (complete_cons _ _ _ (cut_line_app l "" Hl)). by rewrite complete_none.
Qed.
(** The server's answer to an acceptable request. *)
Definition answered (handlers : Handlers) (r : Request) : Response :=
  dispatch ((fun handler => handler [] r) <$> handlers (RService r) (ROperation r)) r.
Lemma request_line_free r : free_of LF (request_line r).
Proof. apply (ra_line _ _ (reads_obj _ _ _ (request_members_as r))). Qed.
Lemma received_app X Y : received (X ++ Y) = received X +:+ received Y.
Proof. unfold received. induction X as [|e X IH]; [done|]. cbn. by rewrite IH, app_assoc_s. Qed.
Lemma served_request handlers r : acceptable r ->
  received (served handlers (MarshalRequest r)) = MarshalResponse (answered handlers r).
Proof.
  intros Ha. unfold served, serveConn. rewrite serve_loop_lines by lia.
  rewrite MarshalRequest_line, complete_one by apply request_line_free.
  assert (one_line (request_line r) = Line (request_line r)) as Hone.
  { unfold one_line. destruct (runes_units (request_line r)) as [Hb _]. pose proof (ac_units _ Ha).
    destruct (maxRequestBytes <? slen (request_line r))%Z eqn:E; [|done]. bsimp. unfold maxRequestBytes in E. lia. }
  cbn [answer_lines]. unfold reply_to. rewrite Hone. cbn [line_response]. unfold handleLine. rewrite ParseRequest_line by done.
  unfold Dispatcher_Execute, answered.
  destruct (handlers (RService r) (ROperation r)) as [handler|]; unfold mbind, prog_bind, mret, prog_ret, call, note;
    cbn -[dispatch MarshalResponse String.append];
    match goal with |- context [ROK (dispatch ?o r)] => destruct (ROK (dispatch o r)) end;
    cbn -[dispatch MarshalResponse String.append]; by rewrite ?app_nil_r_s.
Qed.
(** The handler's output, when there is one, is nested less deeply than a reader allows. *)
Definition shallow (handlers : Handlers) (r : Request) : bool :=
  match handlers (RService r) (ROperation r) with
  | Some handler =>
      match handler [] r with
      | Done (Some output) => match read_json output with Some (v, _) => (depth v <? 10000)%Z | None => true end
      | _ => true
      end
  | None => true
  end.
Lemma answered_output handlers r : shallow handlers r = true -> exists v, output_ok v (answered handlers r).
Proof.
  unfold shallow, answered, output_ok. destruct (handlers _ _) as [handler|]; cbn [fmap option_fmap option_map]; [|by exists JNull].
  destruct (handler [] r) as [[output|]|m|]; try (by exists JNull). unfold dispatch, json_Compact.
  destruct (read_json output) as [[v t]|] eqn:E; [|by exists JNull]. intros Hd. bsimp. exists v. cbn.
  intros _ o [= <-]. split; [by eapply read_json_inv|done].
Qed.

(** C30: A call over the control socket is the handler's answer: the client's [Execute], talking
    to a server connection with the given handler table, returns what the dispatcher answers to
    the request (its strings as UTF-8), for every request whose fields are UTF-8, whose operation,
    service and path the protocol allows and whose line is within the size limit; the reply must
    fit the client's limit and its output the reader's nesting. *)
Theorem control_call handlers r : acceptable r -> shallow handlers r = true ->
  String.length (MarshalResponse (answered handlers r)) <= maxResponseBytes ->
  Execute (fun line => quiet (received (served handlers line))) r = Ok (as_read (answered handlers r)).
Proof.
  intros Ha Hs Hl. destruct (answered_output handlers r Hs) as [v Hv].
  revert Hl. unfold Execute, exchange. generalize maxResponseBytes as n. intros n Hl.
  rewrite served_request by done. cbn [quiet T_dial T_write T_received].
  rewrite take_s_all by done. rewrite MarshalResponse_line. change nl with (char LF +:+ "") at 1.
  rewrite (cut_line_app _ "" (members_line v _ Hv)). rewrite <- MarshalResponse_line, (decodeResponse_line v) by done.
  assert (RespID (answered handlers r) = RequestID r /\ RespOperation (answered handlers r) = ROperation r) as [Hid Hop].
  { unfold answered, dispatch. destruct (handlers _ _) as [handler|]; [|done]. cbn.
    destruct (handler [] r) as [[output|]|m|]; try done. by destruct (json_Compact output). }
  assert (valid_utf8 (ROperation r) = ROperation r) as Uop.
  { pose proof (ac_operation _ Ha) as Ho. repeat (apply elem_of_cons in Ho as [->|Ho]; [done|]). by apply elem_of_nil in Ho. }
  cbn [as_read RespID RespOperation]. rewrite Hid, Hop, Uop, (valid_utf8_id _ (ac_id _ Ha)), !String.eqb_refl. done.
Qed.

(** ** Shutting down *)
Definition registry_ok (s : Server) : Prop :=
  live s ⊆ conns s ∪ match accepting s with Some c => {[c]} | None => ∅ end
  /\ (closed s = true -> live s ⊆ match accepting s with Some c => {[c]} | None => ∅ end).
Lemma registry_step s s' : server_step s s' -> registry_ok s -> registry_ok s'.
Proof.
  unfold registry_ok. intros [s1|s1 c s1' H|s1|s1 c Hc] [H1 H2].
  - unfold Close. destruct (closed s1) eqn:E; [by rewrite E|]. cbn. split; [set_solver|]. intros _. set_solver.
  - unfold accept in H. destruct (closed s1) eqn:E; [done|]. destruct (_ || _); [done|]. destruct (accepting s1); [done|].
    injection H as <-. cbn. split; [set_solver|congruence].
  - unfold admit_conn, track. destruct (accepting s1) as [c|] eqn:Ea; [|by rewrite Ea]. destruct (closed s1) eqn:E; cbn.
    + split; [set_solver|]. intros _. specialize (H2 eq_refl). set_solver.
    + split; [set_solver|congruence].
  - cbn. destruct (accepting s1) as [c'|]; split; try set_solver; intros E; specialize (H2 E); set_solver.
Qed.

(** Closing the control server leaves no connection behind: in every state the server can
    reach, once it is closed the only connection that can still be open is one the accept loop has
    not yet looked at, and that one is closed as soon as the loop does. *)
Theorem closed_server_drops s : rtc server_step Listening s -> closed s = true -> live (admit_conn s) = ∅.
Proof.
  intros Hr. assert (registry_ok s) as [_ H].
  { assert (registry_ok Listening) as H0 by (split; set_solver). revert H0. induction Hr; eauto using registry_step. }
  intros Hc. specialize (H Hc). unfold admit_conn, track. rewrite Hc. destruct (accepting s) as [c|]; cbn; set_solver.
Qed.

(** ** At a concrete call *)
Definition sample_request : Request :=
  mkRequest "req-1" OperationPromote ServiceNginx "rev-7" "ab12" "/var/lib/proxycore/candidates/rev-7/nginx".
Definition sample_handlers : Handlers := fun _ operation =>
  if operation =? OperationPromote then Some (fun _ r => Done (Some ("{ " +:+ q "status" +:+ " : " +:+ q "promoted" +:+ " }"))) else None.
Lemma sample_acceptable : acceptable sample_request.
Proof.
  split; apply (bool_decide_eq_true_1 _); vm_compute; reflexivity.
Qed.
Lemma control_call_witness :
  Execute (fun line => quiet (received (served sample_handlers line))) sample_request
  = Ok (mkResponse "req-1" true "promote" (Some ("{" +:+ q "status" +:+ ":" +:+ q "promoted" +:+ "}")) "").
Proof.
  apply (control_call sample_handlers sample_request sample_acceptable); [reflexivity|].
  apply (Nat.le_trans _ (Nat.pow 2 10)); [apply Nat.leb_le; vm_compute; reflexivity|apply Nat.pow_le_mono_r; lia].
Defined.
Definition busy1 : Server := mkServer ∅ false ({[1]} ∪ ∅) (Some 1).
Definition busy2 : Server := mkServer (conns (admit_conn busy1)) false ({[2]} ∪ live (admit_conn busy1)) (Some 2).
Lemma closed_server_drops_witness :
  accepting (Close busy2) = Some 2 /\ 2 ∈ live (Close busy2) /\ live (admit_conn (Close busy2)) = ∅.
Proof.
  split; [reflexivity|]. split; [apply (bool_decide_eq_true_1 _); vm_compute; reflexivity|].
  apply closed_server_drops; [|reflexivity].
  apply (rtc_l _ _ busy1); [apply (step_accept Listening 1); vm_compute; reflexivity|].
  apply (rtc_l _ _ (admit_conn busy1)); [apply step_admit|].
  apply (rtc_l _ _ busy2); [apply (step_accept (admit_conn busy1) 2); vm_compute; reflexivity|].
  apply rtc_once, step_close.
Defined.
