(* ===== verification/Docker.v ===== *)
(** * The Docker backend of the control server (worker/controldocker/)

    Promotion, rollback and health of the two services. The state is the host's files, the
    Docker daemon and the history of calls; any call on the files may fail where the
    environment says so ([fault]), a failed write leaving what it says. The daemon is an
    interface: what Docker documents of it is in [DockerLaws]. *)

From S2P Require Import Prelude GoStrings StrFacts Json JsonText Scrub Candidate Control ControlServer HostFiles Tar.
From stdpp Require Import options.

(** ** The daemon (docker.go) *)
Record file_at := mkAt { in_container : string; at_path : string }.
Class Docker (D : Type) := {
  Running : D -> string -> result string bool;
  Restart : D -> string -> Z -> D * option string;
  (** commands read the candidate root, which the container mounts, from the host *)
  Exec : node -> D -> string -> list string -> D * result string Z;
  PutArchive : D -> string -> string -> bytes -> D * option string;
  GetArchive : D -> string -> string -> result string bytes }.
(** A file of a container holds [contents]: whenever the archive is sent, it is that file's. *)
Definition holds {D} `{Docker D} (d : D) (f : file_at) (contents : bytes) : Prop :=
  forall archive, GetArchive d (in_container f) (at_path f) = Ok archive -> extractFirstFile archive = Ok contents.
(** The components of a clean path. *)
Definition components (p : string) : path := rev (clean_parts p).
(** [root]: the directory the containers mount at its own path. *)
Class DockerLaws (D : Type) `{Docker D} (root : path) := {
  put_holds d container dir file contents d' :
    PutArchive d container dir (createTar [mkEntry file contents]) = (d', None) ->
    holds d' (mkAt container (dir +:+ "/" +:+ file)) contents;
  cp_holds host d container src dst contents d' :
    Exec host d container ["cp"; src; dst] = (d', Ok 0%Z) ->
    below root (components src) = true -> ReadFile host (components src) = Ok contents ->
    holds d' (mkAt container dst) (bytes_of contents) }.

(** ** Options *)
Record Containers := mkContainers { CtCoreDNS : string; CtNginx : string }.
(** Roots are clean absolute paths. *)
Record Options := mkOptions { CandidateRoot : string; ZonesRoot : path; ConfigRoot : path; OContainers : Containers }.
Definition DefaultOptions : Options :=
  mkOptions "/var/lib/proxycore/candidates" ["var"; "lib"; "proxycore"; "coredns-zones"]
    ["var"; "lib"; "proxycore"; "coredns-config"] (mkContainers "proxycore-coredns" "proxycore-nginx").

Inductive backend_error : Type := EFile (e : fs_error) | EDocker (text : string) | EArchive | EText (text : string).

Section backend.
Context {D : Type} `{Docker D}.

(** ** Calls *)
Inductive fs_call : Type :=
| CStat (p : path) | CRead (p : path) | CWrite (p : path) | CMkdir (p : path) | CRemove (p : path) | CRemoveAll (p : path)
| CRename (p q : path) | CReadDir (p : path) | CChmod (p : path).
(** An input or output error; [left_]: what a failed write leaves in the file, when it is
    not untouched. *)
Record fault_kind := mkFault { ferr : string; left_ : option string }.
Record state := mkState { tree : node; docker : D; calls : list fs_call }.
Definition M (A : Type) : Type := state -> state * result backend_error A.
#[global] Instance M_ret : MRet M := fun A a s => (s, Ok a).
#[global] Instance M_bind : MBind M := fun A B f m s =>
  match m s with (s', Ok a) => f a s' | (s', Err e) => (s', Err e) end.
Definition throw {A} (e : backend_error) : M A := fun s => (s, Err e).
(** The error as a value. *)
Definition try_ {A} (m : M A) : M (result backend_error A) := fun s => let '(s', r) := m s in (s', Ok r).
(** [_ = m] *)
Definition ignore {A} (m : M A) : M unit := fun s => ((m s).1, Ok tt).

Context (fault : list fs_call -> fs_call -> option fault_kind).
Context (clock : list fs_call -> Z).
(** [pid + "-" + uuid], new for each temporary file *)
Context (unique : list fs_call -> string).

Definition fs_read {A} (c : fs_call) (op : node -> result fs_error A) : M A := fun s =>
  let s' := mkState (tree s) (docker s) (calls s ++ [c]) in
  match fault (calls s) c with
  | Some e => (s', Err (EFile (ErrOther (ferr e))))
  | None => match op (tree s) with Ok a => (s', Ok a) | Err e => (s', Err (EFile e)) end
  end.
Definition fs_update (c : fs_call) (failed : string -> Z -> node -> result fs_error node) (op : Z -> node -> result fs_error node) : M unit := fun s =>
  let done t := mkState t (docker s) (calls s ++ [c]) in
  match fault (calls s) c with
  | Some e =>
      let t := match left_ e with Some data => match failed data (clock (calls s)) (tree s) with Ok t => t | Err _ => tree s end | None => tree s end in
      (done t, Err (EFile (ErrOther (ferr e))))
  | None => match op (clock (calls s)) (tree s) with Ok t => (done t, Ok tt) | Err e => (done (tree s), Err (EFile e)) end
  end.
Definition untouched (_ : string) (_ : Z) (t : node) : result fs_error node := Ok t.

Definition os_Stat (p : path) : M node := fs_read (CStat p) (fun t => Stat t p).
Definition os_ReadFile (p : path) : M string := fs_read (CRead p) (fun t => ReadFile t p).
Definition os_ReadDir (p : path) : M (list (string * node)) := fs_read (CReadDir p) (fun t => ReadDir t p).
Definition os_WriteFile (p : path) (data : string) : M unit :=
  fs_update (CWrite p) (fun left now t => WriteFile left now t p) (fun now t => WriteFile data now t p).
Definition os_MkdirAll (p : path) : M unit := fs_update (CMkdir p) untouched (fun _ t => MkdirAll t p).
Definition os_Remove (p : path) : M unit := fs_update (CRemove p) untouched (fun _ t => Remove t p).
Definition os_RemoveAll (p : path) : M unit := fs_update (CRemoveAll p) untouched (fun _ t => RemoveAll t p).
Definition os_Rename (p q : path) : M unit := fs_update (CRename p q) untouched (fun _ t => Rename t p q).
(** Permissions are not part of the tree. *)
Definition os_Chmod (p : path) : M unit := fs_update (CChmod p) untouched (fun _ t => match Stat t p with Ok _ => Ok t | Err e => Err e end).

Definition with_docker {A} (op : node -> D -> D * result backend_error A) : M A := fun s =>
  let '(d, r) := op (tree s) (docker s) in (mkState (tree s) d (calls s), r).
Definition docker_result {A} (r : result string A) : result backend_error A := match r with Ok a => Ok a | Err e => Err (EDocker e) end.
Definition docker_done (r : option string) : result backend_error unit := match r with None => Ok tt | Some e => Err (EDocker e) end.
(** [exec]: a non-zero exit is an error. *)
Definition exec (name : string) (cmd : list string) : M unit :=
  code ← with_docker (fun t d => let '(d', r) := Exec t d name cmd in (d', docker_result r));
  if (code =? 0)%Z then mret tt else throw (EText ("Fixed service operation failed with exit " +:+ itoa code)).
Definition docker_Restart (name : string) (timeout : Z) : M unit :=
  with_docker (fun _ d => let '(d', r) := Restart d name timeout in (d', docker_done r)).
Definition docker_Running (name : string) : M bool := with_docker (fun _ d => (d, docker_result (Running d name))).

(** ** Shared file helpers (nginx.go) *)
Definition readFileIfPresent (p : path) : M (option string) :=
  r ← try_ (os_ReadFile p);
  match r with
  | Ok data => mret (Some data)
  | Err (EFile ErrNotExist) => mret None
  | Err e => throw e
  end.
Definition removeIfPresent (p : path) : M unit :=
  r ← try_ (os_Remove p);
  match r with Ok _ | Err (EFile ErrNotExist) => mret tt | Err e => throw e end.
(** A path with a suffix on its last component. *)
Fixpoint suffixed (p : path) (suffix : string) : path :=
  match p with [] => [suffix] | [c] => [c +:+ suffix] | c :: p => c :: suffixed p suffix end.
(** The deferred RemoveAll runs on every way out; its error is dropped. *)
Definition writeFileAtomically (p : path) (contents : string) : M unit := fun s =>
  let tmp := suffixed p (".tmp-" +:+ unique (calls s)) in
  let '(s', r) := (os_WriteFile tmp contents;; os_Rename tmp p) s in
  (((ignore (os_RemoveAll tmp)) s').1, r).
Definition readArchiveFile (name p : string) : M bytes :=
  archive ← with_docker (fun _ d => (d, docker_result (GetArchive d name p)));
  match extractFirstFile archive with Ok b => mret b | Err _ => throw EArchive end.
Definition putFile (name dir file : string) (contents : bytes) : M unit :=
  with_docker (fun _ d => let '(d', r) := PutArchive d name dir (createTar [mkEntry file contents]) in (d', docker_done r)).

(** ** nginx (nginx.go) *)
Definition NginxStableConfig : string := "nginx-live.conf".
Definition NginxPreviousStableConfig : string := "nginx-previous-live.conf".
Definition nginxManagedMarker : string := "map $http_upgrade $connection_upgrade".
Definition nginxBakedFallbackMarker : string := "return 503;".
Record Observation := mkObservation { OStatus : string; Reason : string }.
Definition drift (reason : string) : Observation := mkObservation "drift" reason.
Definition empty (b : option string) : bool := match b with None | Some "" => true | _ => false end.
(** [candidate]: [None] when the argument is omitted; [Some None] when it is nil. *)
Definition ClassifyNginxActiveConfig (active stable : option string) (candidate : option (option string)) : Observation :=
  if empty active then drift "missing-active-config" else
  let text := default "" active in
  if Contains text nginxBakedFallbackMarker && negb (Contains text nginxManagedMarker) then drift "baked-fallback"
  else if empty stable then drift "missing-stable-config" else
  let expected := default stable candidate in
  if empty expected then drift "missing-candidate-config"
  else if negb (default "" active =? default "" stable) then drift "mismatched-config"
  else if negb (default "" active =? default "" expected) then drift "mismatched-candidate-config"
  else if negb (Contains text nginxManagedMarker) then drift "unmanaged-config"
  else mkObservation "healthy" "".

Context (opts : Options).
Definition NginxLiveConfigPath : path := components (CandidateRoot opts) ++ [NginxStableConfig].
Definition NginxPreviousStableConfigPath : path := components (CandidateRoot opts) ++ [NginxPreviousStableConfig].

Definition probeNginxActiveConfig (name candidatePath : string) : M Observation :=
  r ← try_ (readArchiveFile name "/etc/nginx/nginx.conf");
  let active := match r with Ok b => Some (text_of b) | Err _ => None end in
  stable ← readFileIfPresent NginxLiveConfigPath;
  candidate ← readFileIfPresent (components candidatePath ++ ["nginx.conf"]);
  let observation := ClassifyNginxActiveConfig active stable (Some candidate) in
  if negb (OStatus observation =? "healthy") then mret observation else
  r ← try_ (exec name ["nginx"; "-t"; "-c"; "/etc/nginx/nginx.conf"]);
  mret (match r with Ok _ => observation | Err _ => drift "invalid-active-config" end).

Definition WriteStableNginxConfig (contents : string) (previous : option string) : M unit :=
  os_MkdirAll (components (CandidateRoot opts));;
  (if empty previous then removeIfPresent NginxPreviousStableConfigPath
   else writeFileAtomically NginxPreviousStableConfigPath (default "" previous));;
  writeFileAtomically NginxLiveConfigPath contents.

Definition promoteNginx (name candidatePath : string) : M unit :=
  let candidateConfig := path_Join candidatePath "nginx.conf" in
  contents ← os_ReadFile (components candidateConfig);
  r ← try_ (readArchiveFile name "/etc/nginx/nginx.conf");
  let previous := match r with Ok b => Some b | Err _ => None end in
  ignore (exec name ["cp"; "/etc/nginx/nginx.conf"; "/etc/nginx/.proxycore.previous.conf"]);;
  r ← try_ (exec name ["cp"; candidateConfig; "/etc/nginx/nginx.conf"];;
            WriteStableNginxConfig contents (text_of <$> previous));
  match r with
  | Ok _ => mret tt
  | Err e =>
      match previous with
      | Some b => ignore (putFile name "/etc/nginx" "nginx.conf" b)
      | None => ignore (exec name ["cp"; "/etc/nginx/.proxycore.previous.conf"; "/etc/nginx/nginx.conf"])
      end;;
      throw e
  end.

Definition rollbackNginx (name : string) : M unit :=
  previous ← readFileIfPresent NginxPreviousStableConfigPath;
  match previous with
  | Some data =>
      current ← readFileIfPresent NginxLiveConfigPath;
      writeFileAtomically NginxLiveConfigPath data;;
      r ← try_ (putFile name "/etc/nginx" "nginx.conf" (bytes_of data));
      match r with
      | Ok _ => mret tt
      | Err e =>
          (match current with Some c => ignore (writeFileAtomically NginxLiveConfigPath c) | None => mret tt end);;
          throw e
      end
  | None =>
      exec name ["cp"; "/etc/nginx/.proxycore.previous.conf"; "/etc/nginx/nginx.conf"];;
      removeIfPresent NginxLiveConfigPath
  end.

(** ** CoreDNS (coredns.go) *)
Definition CorednsLiveCorefilePath : path := ConfigRoot opts ++ ["Corefile"].
Definition corefileLooksApplied (contents : string) : bool := Contains contents "file /etc/coredns/zones/".
Definition previousCorefilePath : path := components (CandidateRoot opts) ++ [".proxycore-previous-coredns-corefile"].
Definition previousZonesPath : path := components (CandidateRoot opts) ++ [".proxycore-previous-coredns-zones"].

Fixpoint for_each {A} (l : list A) (body : A -> M unit) : M unit :=
  match l with [] => mret tt | a :: l => body a;; for_each l body end.
Definition clearDirectory (dir : path) : M unit :=
  os_MkdirAll dir;;
  entries ← os_ReadDir dir;
  for_each entries (fun e => os_RemoveAll (dir ++ [e.1])).
Definition copyFile (from to : path) : M unit := data ← os_ReadFile from; os_WriteFile to data.
(** The fuel bounds the nesting; a path deeper than that is too long for the system. *)
Fixpoint copyDirectory (fuel : nat) (source target : path) : M unit :=
  match fuel with
  | O => throw (EFile (ErrOther "file name too long"))
  | S fuel =>
      os_MkdirAll source;;
      os_MkdirAll target;;
      entries ← os_ReadDir source;
      for_each entries (fun e =>
        match e.2 with
        | Dir _ => copyDirectory fuel (source ++ [e.1]) (target ++ [e.1])
        | Special => throw (EText ("Unsupported file type in CoreDNS zone directory: " +:+ e.1))
        | File _ _ => copyFile (source ++ [e.1]) (target ++ [e.1]);; os_Chmod (target ++ [e.1])
        end)
  end.
Fixpoint height (n : node) : nat :=
  match n with Dir es => S (foldr (fun f m => Nat.max (height f.2) m) 0 es) | _ => 1 end.
Definition copy_tree (source target : path) : M unit := fun s => copyDirectory (S (height (tree s))) source target s.
Definition replaceDirectory (target source : path) : M unit := clearDirectory target;; copy_tree source target.

(** Keep the served Corefile and zones aside; the Corefile is what the live file, or else the
    container, holds. *)
Definition backup_coredns (name : string) : M string :=
  os_MkdirAll (ConfigRoot opts);;
  r ← try_ (os_ReadFile CorednsLiveCorefilePath);
  previous ← (match r with
    | Ok data => mret data
    | Err _ =>
        r ← try_ (readArchiveFile name "/etc/coredns-config/Corefile");
        match r with
        | Ok b => mret (text_of b)
        | Err _ => b ← readArchiveFile name "/etc/coredns/Corefile"; mret (text_of b)
        end
    end);
  os_WriteFile previousCorefilePath previous;;
  os_RemoveAll previousZonesPath;;
  copy_tree (ZonesRoot opts) previousZonesPath;;
  mret previous.
Definition install_coredns (name : string) (candidate : path) : M unit :=
  replaceDirectory (ZonesRoot opts) (candidate ++ ["zones"]);;
  corefile ← os_ReadFile (candidate ++ ["Corefile"]);
  os_WriteFile CorednsLiveCorefilePath corefile;;
  putFile name "/etc/coredns-config" "Corefile" (bytes_of corefile).
Definition restore_coredns (previous : string) : M unit :=
  ignore (os_WriteFile CorednsLiveCorefilePath previous);;
  ignore (replaceDirectory (ZonesRoot opts) previousZonesPath).
Definition promoteCoreDNS (name candidatePath : string) : M unit :=
  previous ← backup_coredns name;
  r ← try_ (install_coredns name (components candidatePath));
  match r with
  | Ok _ => mret tt
  | Err e => restore_coredns previous;; throw e
  end.
Definition rollbackCoreDNS (name : string) : M unit :=
  previous ← os_ReadFile previousCorefilePath;
  os_MkdirAll (ConfigRoot opts);;
  os_WriteFile CorednsLiveCorefilePath previous;;
  putFile name "/etc/coredns-config" "Corefile" (bytes_of previous);;
  replaceDirectory (ZonesRoot opts) previousZonesPath.

(** ** Startup *)
Definition path_text (p : path) : string := "/" +:+ Join p "/".
(** The newest match so far. *)
Definition newest : Type := path * Z.
Fixpoint for_fold {A S} (l : list A) (st : S) (body : S -> A -> M S) : M S :=
  match l with [] => mret st | a :: l => st ← body st a; for_fold l st body end.
Definition is_dir (n : node) : bool := match n with Dir _ => true | _ => false end.
Definition is_regular (n : node) : bool := match n with File _ _ => true | _ => false end.
Definition mtime_of (n : node) : Z := match n with File _ t => t | _ => 0%Z end.
Fixpoint visit (base infix_ suffix : string) (fuel : nat) (dir : path) (best : newest) : M newest :=
  match fuel with
  | O => mret best
  | S fuel =>
      r ← try_ (os_ReadDir dir);
      match r with
      | Err _ => mret best
      | Ok entries =>
          for_fold entries best (fun best e =>
            let p := dir ++ [e.1] in
            if is_dir e.2 then visit base infix_ suffix fuel p best
            else if negb (is_regular e.2) || negb (e.1 =? base) then mret best
            else if negb (Contains (path_text p) infix_) && negb (HasSuffix (path_text p) suffix) then mret best
            else info ← os_Stat p; mret (if (best.2 <=? mtime_of info)%Z then (p, mtime_of info) else best))
      end
  end.
(** The empty path when nothing matches. *)
Definition findNewest (root : path) (base infix_ suffix : string) : M path := fun s =>
  (best ← visit base infix_ suffix (S (height (tree s))) root ([], 0%Z); mret best.1) s.
Definition FindNewestLegacyNginxCandidate (candidateRoot : path) : M path :=
  findNewest candidateRoot "nginx.conf" "/nginx/nginx.conf" "nginx/nginx.conf".
Definition SeedLiveCorefileFromCandidates : M path :=
  os_MkdirAll (ConfigRoot opts);;
  r ← try_ (os_ReadFile CorednsLiveCorefilePath);
  if match r with Ok current => corefileLooksApplied current | Err _ => false end then mret [] else
  latest ← findNewest (components (CandidateRoot opts)) "Corefile" "/coredns/Corefile" "coredns/Corefile";
  match latest with
  | [] => mret []
  | _ =>
      contents ← os_ReadFile latest;
      if negb (corefileLooksApplied contents) then mret [] else
      os_WriteFile CorednsLiveCorefilePath contents;; mret latest
  end.
(** The messages go to standard output ([true]) and standard error. *)
Definition docker_text (e : backend_error) : string := match e with EDocker t => t | EText t => t | _ => "" end.
Definition StartupSeed : M (list (bool * string)) :=
  seeded ← SeedLiveCorefileFromCandidates;
  match seeded with
  | [] => mret []
  | _ =>
      let restored := (true, "proxycore-control restored persisted CoreDNS Corefile from " +:+ path_text seeded +:+ nl) in
      let name := CtCoreDNS (OContainers opts) in
      r ← try_ (docker_Restart name 5);
      mret (match r with
            | Ok _ => [restored; (true, "proxycore-control restarted " +:+ name +:+ " to load Corefile" +:+ nl)]
            | Err e => [restored; (false, "proxycore-control could not restart CoreDNS after Corefile seed: " +:+ docker_text e +:+ nl)]
            end)
  end.

(** ** Operations (ops.go) *)
Definition container (service : Service) : string :=
  if service =? ServiceNginx then CtNginx (OContainers opts) else CtCoreDNS (OContainers opts).
Definition AssertCandidatePath (candidatePath : string) : M unit :=
  if negb (HasPrefix candidatePath (CandidateRoot opts +:+ "/")) || Contains candidatePath ".." || ContainsChar candidatePath NUL
  then throw (EText "Candidate path is outside the fixed worker root") else mret tt.
Definition obj (pairs : list (string * string)) : string :=
  "{" +:+ Join (map (fun f => QuoteJS f.1 +:+ ":" +:+ QuoteJS f.2) pairs) "," +:+ "}".
Definition execute (req : Request) : M string :=
  AssertCandidatePath (RqPath req);;
  let name := container (RService req) in
  let nginx := RService req =? ServiceNginx in
  let candidate := components (RqPath req) in
  if ROperation req =? OperationStage then
    _ ← os_Stat candidate; mret (obj [("status", "staged"); ("candidatePath", RqPath req)])
  else if ROperation req =? OperationValidate then
    (if nginx then exec name ["nginx"; "-t"; "-c"; RqPath req +:+ "/nginx.conf"]
     else _ ← os_Stat (candidate ++ ["Corefile"]); mret tt);;
    mret (obj [("status", "validated"); ("checksum", RqChecksum req)])
  else if ROperation req =? OperationPromote then
    (if nginx then promoteNginx name (RqPath req) else promoteCoreDNS name (RqPath req));;
    mret (obj [("status", "promoted"); ("revisionId", RqRevision req)])
  else if ROperation req =? OperationReload then
    (if nginx then exec name ["nginx"; "-s"; "reload"] else docker_Restart name 10);;
    mret (obj [("status", "reloaded")])
  else if ROperation req =? OperationHealth then
    running ← docker_Running name;
    if negb running then throw (EText (RService req +:+ " container is not running")) else
    if negb nginx then mret (obj [("status", "healthy")]) else
    observation ← probeNginxActiveConfig name (RqPath req);
    mret (obj ([("status", OStatus observation)]
      ++ (if Reason observation =? "" then [] else [("reason", Reason observation)]) ++ [("revisionId", RqRevision req)]))
  else if ROperation req =? OperationRollback then
    (if nginx then rollbackNginx name else rollbackCoreDNS name);;
    mret (obj [("status", "rolled-back")])
  else throw (EText ("Operation " +:+ ROperation req +:+ " is unavailable for " +:+ RService req)).

(** ** The handler table (Handlers)

    A handler's answer depends on what the earlier requests did to the host. *)
Context (error_text : backend_error -> string).
Definition answer_of (r : result backend_error string) : handled :=
  match r with Ok output => Done (Some output) | Err e => Failed_ (error_text e) end.
Definition handled_requests (h : list server_event) : list Request :=
  flat_map (fun e => match e with SHandle r _ => [r] | _ => [] end) h.
Definition state_after (s : state) (h : list server_event) : state :=
  foldl (fun s r => (execute r s).1) s (handled_requests h).
Definition Backend_Handlers (s : state) : Handlers := fun service operation =>
  if ((service =? ServiceCoreDNS) || (service =? ServiceNginx)) && existsb (String.eqb operation) Operations
  then Some (fun h r => answer_of (execute r (state_after s h)).2) else None.
End backend.
