(* ===== verification/DockerFacts.v ===== *)
(** * What promotion and rollback leave behind

    The stable configuration is replaced atomically; what a successful promotion or rollback
    of nginx leaves on the host is what the container serves; directories are copied
    exactly; a failed promotion of CoreDNS restores what it had put aside. *)

From S2P Require Import Prelude GoStrings StrFacts Json Candidate Control ControlServer HostFiles Tar Docker.
From stdpp Require Import options.

(** ** More on trees *)
Lemma edit_snoc f p c : forall t es, walk t p = Ok (Dir es) ->
  match f (aget es c) with
  | Ok o => exists t', edit f t (p ++ [c]) = Ok t' /\ walk t' p = Ok (Dir (match o with Some m => aset es c m | None => adel es c end))
  | Err e => edit f t (p ++ [c]) = Err e
  end.
Proof.
  induction p as [|d p IH]; intros t es.
  - intros [= ->]. cbn. destruct (f (aget es c)); [eauto|done].
  - destruct t as [| |es0]; [done|done|]. cbn [walk app]. destruct (aget es0 d) as [m|] eqn:Ed; [|done]. intros Hm.
    specialize (IH m es Hm).
    assert (forall r, edit f (Dir es0) (d :: p ++ [c]) = r <-> (m' ← edit f m (p ++ [c]); Ok (Dir (aset es0 d m'))) = r) as He.
    { intros r. destruct (p ++ [c]) as [|x l] eqn:Ep; [by destruct p|].
      change (edit f (Dir es0) (d :: x :: l)) with (match aget es0 d with Some m => m' ← edit f m (x :: l); Ok (Dir (aset es0 d m')) | None => Err ErrNotExist end).
      by rewrite Ed. }
    destruct (f (aget es c)) as [o|e].
    + destruct IH as (m'&Hm'&Hw). exists (Dir (aset es0 d m')). split; [apply He; by rewrite Hm'|].
      cbn [walk]. by rewrite aget_aset, String.eqb_refl.
    + apply He. by rewrite IH.
Qed.
Lemma aset_same {A} (l : list (string * A)) k a : aget l k = Some a -> aset l k a = l.
Proof.
  induction l as [|f l IH]; cbn; [done|]. destruct (String.eqb_spec f.1 k) as [<-|Hk].
  - intros [= <-]. by destruct f.
  - intros H. by rewrite IH.
Qed.
Lemma MkdirAll_existing p : forall t es, walk t p = Ok (Dir es) -> MkdirAll t p = Ok t.
Proof.
  induction p as [|c p IH]; intros t es; cbn.
  - by intros [= ->].
  - destruct t as [| |es0]; [done|done|]. destruct (aget es0 c) as [m|] eqn:E; [|done]. intros Hm. cbn.
    rewrite (IH _ _ Hm). cbn. by rewrite aset_same.
Qed.
Lemma MkdirAll_new p c : forall t es, walk t p = Ok (Dir es) -> aget es c = None ->
  exists t', MkdirAll t (p ++ [c]) = Ok t' /\ walk t' p = Ok (Dir (aset es c (Dir [])))
    /\ walk t' (p ++ [c]) = Ok (Dir []) /\ forall q, apart (p ++ [c]) q = true -> walk t' q = walk t q.
Proof.
  induction p as [|d p IH]; intros t es.
  - intros [= ->] Hc. cbn. rewrite Hc. cbn. eexists. split; [done|]. split; [done|]. split; [by rewrite aget_aset, String.eqb_refl|].
    intros [|k q]; [done|]. cbn. rewrite orb_comm. destruct (String.eqb_spec c k) as [->|Hk]; [by destruct q|].
    intros _. rewrite aget_aset. by destruct (String.eqb_spec c k).
  - destruct t as [| |es0]; [done|done|]. cbn [walk app]. destruct (aget es0 d) as [m|] eqn:Ed; [|done]. intros Hm Hc.
    destruct (IH m es Hm Hc) as (m'&Hm'&Hp&Hpc&Hf). exists (Dir (aset es0 d m')). cbn [MkdirAll]. rewrite Ed. cbn [default].
    unfold default. cbn. rewrite Hm'. cbn. split; [done|]. rewrite aget_aset, String.eqb_refl. split; [done|]. split; [done|].
    intros [|k q]; [done|]. cbn [apart]. destruct (String.eqb_spec d k) as [->|Hk]; cbn [negb orb walk].
    + rewrite aget_aset, String.eqb_refl, Ed. apply Hf.
    + intros _. rewrite aget_aset. by destruct (String.eqb_spec d k).
Qed.
Lemma apart_snoc p c d : c <> d -> apart (p ++ [c]) (p ++ [d]) = true.
Proof.
  intros Hc. induction p as [|x p IH]; cbn.
  - by destruct (String.eqb_spec c d).
  - by rewrite String.eqb_refl.
Qed.
Lemma walk_child t p es c : walk t p = Ok (Dir es) -> walk t (p ++ [c]) = match aget es c with Some m => Ok m | None => Err ErrNotExist end.
Proof. intros H. rewrite walk_app, H. cbn. by destruct (aget es c). Qed.

Lemma WriteFile_apart data now t t' p q : WriteFile data now t p = Ok t' -> apart p q = true -> walk t' q = walk t q.
Proof. apply edit_apart. Qed.
Lemma WriteFile_at data now t t' p : WriteFile data now t p = Ok t' -> walk t' p = Ok (File data now).
Proof.
  intros H. apply edit_at in H as (o&Ho&Hf). unfold found in Hf. destruct (found t p) as [[| |]|]; try done; injection Ho as <-;
    destruct (walk t' p); congruence.
Qed.
Lemma Rename_inv t t' p q n : Rename t p q = Ok t' -> walk t p = Ok n -> apart p q = true ->
  walk t' q = Ok n /\ forall x, apart p x = true -> apart q x = true -> walk t' x = walk t x.
Proof.
  unfold Rename. intros H Hn Ha. rewrite Hn in H. cbn in H. destruct (edit _ t p) as [t1|] eqn:E1; [|done]. cbn in H.
  split.
  - apply edit_at in H as (o&Ho&Hf). unfold found in Hf. destruct (found t1 q) as [[| |]|]; try done; injection Ho as <-;
      destruct (walk t' q); congruence.
  - intros x Hp Hq. rewrite (edit_apart _ _ _ _ _ H Hq). by apply (edit_apart _ _ _ _ _ E1).
Qed.
Lemma RemoveAll_apart t t' p q : RemoveAll t p = Ok t' -> apart p q = true -> walk t' q = walk t q.
Proof.
  unfold RemoveAll. destruct (edit _ t p) as [t1|[]] eqn:E; intros [= <-] Ha; try done. by eapply edit_apart.
Qed.

Lemma path_cases p d : apart p d = true \/ (exists c r, p = d ++ c :: r) \/ (exists r, d = p ++ r).
Proof.
  revert d. induction p as [|c p IH]; intros d; [right; right; by exists d|]. destruct d as [|k d]; [right; left; by exists c, p|].
  cbn [apart]. destruct (String.eqb_spec c k) as [->|Hk]; [|by left]. destruct (IH d) as [H|[(x&r&->)|[r ->]]]; [by left|right; left|right; right].
  - by exists x, r.
  - by exists r.
Qed.
(** A path that leads to a directory. *)
Definition dir_at (t : node) (d : path) : Prop := exists es, walk t d = Ok (Dir es).
Lemma dir_above t d r : dir_at t (d ++ r) -> dir_at t d.
Proof.
  intros [es H]. rewrite walk_app in H. destruct (walk t d) as [n|] eqn:E; [|done]. cbn in H. exists (match n with Dir es => es | _ => [] end).
  destruct n; [by destruct r|by destruct r|done].
Qed.
Lemma WriteFile_keeps data now t t' p d : WriteFile data now t p = Ok t' -> dir_at t d -> dir_at t' d.
Proof.
  intros H Hd. destruct (path_cases p d) as [Ha|[(c&r&->)|[r ->]]].
  - unfold dir_at in *. by rewrite (edit_apart _ _ _ _ _ H Ha).
  - destruct (edit_above _ _ _ _ _ _ _ H eq_refl) as (es&_&es'&He). by exists es'.
  - exfalso. apply dir_above in Hd as [es Hd]. apply edit_at in H as (o&Ho&_). unfold found in Ho. by rewrite Hd in Ho.
Qed.
Lemma RemoveAll_keeps t t' p d : RemoveAll t p = Ok t' -> below p d = false -> dir_at t d -> dir_at t' d.
Proof.
  intros H Hb Hd. destruct (path_cases p d) as [Ha|[(c&r&->)|[r ->]]].
  - unfold dir_at in *. by rewrite (RemoveAll_apart _ _ _ _ H Ha).
  - unfold RemoveAll in H. destruct (edit _ t _) as [t1|[]] eqn:E; try done; injection H as ->; [|done].
    destruct (edit_above _ _ _ _ _ _ _ E eq_refl) as (es&_&es'&He). by exists es'.
  - assert (below p (p ++ r) = true) by (apply below_spec; by exists r). congruence.
Qed.
Lemma MkdirAll_apart p : forall t t' q, MkdirAll t p = Ok t' -> apart p q = true -> walk t' q = walk t q.
Proof.
  induction p as [|c p IH]; intros t t' q; [done|]. destruct t as [| |es]; [done|done|]. cbn [MkdirAll].
  destruct (MkdirAll _ p) as [m|] eqn:E; [|done]. intros [= <-]. destruct q as [|k q]; [done|]. cbn [apart walk].
  rewrite aget_aset. destruct (String.eqb_spec c k) as [->|Hk]; [|done]. cbn. intros Ha. rewrite (IH _ _ _ E Ha).
  destruct (aget es k); [done|]. cbn. by destruct p, q.
Qed.
Lemma MkdirAll_keeps p : forall t t' d, MkdirAll t p = Ok t' -> dir_at t d -> dir_at t' d.
Proof.
  induction p as [|c p IH]; intros t t' d; destruct t as [| |es]; try done; cbn [MkdirAll]; [by intros [= <-]|].
  destruct (MkdirAll _ p) as [m|] eqn:E; [|done]. intros [= <-] [es' Hd]. destruct d as [|k d]; [by eexists|].
  unfold dir_at. cbn [walk] in *. rewrite aget_aset. destruct (String.eqb_spec c k) as [->|Hk]; [|by eexists].
  destruct (aget es k) as [n|]; [|done]. cbn in E. apply (IH _ _ _ E). by exists es'.
Qed.
Lemma height_entry f es : f ∈ es -> height f.2 < height (Dir es).
Proof.
  intros Hf. cbn. induction es as [|g es IH]; [by apply elem_of_nil in Hf|]. cbn. apply elem_of_cons in Hf as [->|Hf]; [lia|].
  specialize (IH Hf). lia.
Qed.
Lemma height_walk p : forall t n, walk t p = Ok n -> height n <= height t.
Proof.
  induction p as [|c p IH]; intros t n; cbn [walk]; [by intros [= ->]|]. destruct t as [| |es]; [done|done|].
  destruct (aget es c) as [m|] eqn:E; [|done]. intros H. apply IH in H. apply aget_in in E. pose proof (height_entry (c, m) es E).
  cbn [snd] in *. lia.
Qed.

Section facts.
Context {D : Type} `{!Docker D}.
Context (fault : list fs_call -> fs_call -> option fault_kind) (clock : list fs_call -> Z) (unique : list fs_call -> string).
Context (opts : Options) `{!DockerLaws D (components (CandidateRoot opts))}.
Local Abbreviation M := (M (D:=D)).
Local Abbreviation state := (state (D:=D)).
Local Abbreviation os_ReadFile := (os_ReadFile fault).
Local Abbreviation os_WriteFile := (os_WriteFile fault clock).
Local Abbreviation os_Rename := (os_Rename fault clock).
Local Abbreviation os_RemoveAll := (os_RemoveAll fault clock).
Local Abbreviation os_Remove := (os_Remove fault clock).
Local Abbreviation os_MkdirAll := (os_MkdirAll fault clock).
Local Abbreviation writeFileAtomically := (writeFileAtomically fault clock unique).
Implicit Types s : state.

Lemma bind_inv {A B} (m : M A) (f : A -> M B) s s' r : (m ≫= f) s = (s', r) ->
  (exists s1 a, m s = (s1, Ok a) /\ f a s1 = (s', r)) \/ (exists e, m s = (s', Err e) /\ r = Err e).
Proof.
  unfold mbind, M_bind. destruct (m s) as [s1 [a|e]]; [intros H; left; eauto|]. intros [= <- <-]. right; eauto.
Qed.
Lemma bind_ok {A B} (m : M A) (f : A -> M B) s s' b : (m ≫= f) s = (s', Ok b) ->
  exists s1 a, m s = (s1, Ok a) /\ f a s1 = (s', Ok b).
Proof. intros H. apply bind_inv in H as [H|(e&_&?)]; done. Qed.
Lemma try_inv {A} (m : M A) s s' r : try_ m s = (s', r) -> exists r', r = Ok r' /\ m s = (s', r').
Proof. unfold try_. destruct (m s) as [s1 r1]. intros [= <- <-]. eauto. Qed.
Lemma ignore_inv {A} (m : M A) s s' r : ignore m s = (s', r) -> r = Ok tt /\ exists r', m s = (s', r').
Proof. unfold ignore. intros [= <- <-]. split; [done|]. exists (m s).2. by destruct (m s). Qed.
Lemma ret_inv {A} (a : A) s s' r : (mret a : M A) s = (s', r) -> s' = s /\ r = Ok a.
Proof. by intros [= <- <-]. Qed.

(** *** Single calls, whatever fails *)
Lemma fs_read_inv {A} c (op : node -> result fs_error A) s s' r : fs_read fault c op s = (s', r) ->
  tree s' = tree s /\ docker s' = docker s /\ (forall a, r = Ok a -> op (tree s) = Ok a)
  /\ (r = Err (EFile ErrNotExist) -> op (tree s) = Err ErrNotExist).
Proof.
  unfold fs_read. destruct (fault (calls s) c); [intros [= <- <-]; repeat split; done|].
  destruct (op (tree s)) as [a|e]; intros [= <- <-]; repeat split; try done; [by intros ? [= ->]|by intros [= ->]].
Qed.
Lemma fs_update_inv c failed op s s' r : fs_update fault clock c failed op s = (s', r) -> docker s' = docker s /\
  ((r = Ok tt /\ exists now, op now (tree s) = Ok (tree s'))
   \/ (exists e, r = Err e /\ (tree s' = tree s \/ exists data now, failed data now (tree s) = Ok (tree s')))).
Proof.
  unfold fs_update. destruct (fault (calls s) c) as [e|].
  - intros [= <- <-]. split; [done|]. right. eexists. split; [done|]. cbn. destruct (left_ e) as [data|]; [|by left].
    destruct (failed data _ (tree s)) eqn:E; [right; eauto|by left].
  - destruct (op (clock (calls s)) (tree s)) eqn:E; intros [= <- <-]; (split; [done|]); [left|right]; eauto.
Qed.
Lemma update_untouched_inv c op s s' r : fs_update fault clock c untouched op s = (s', r) -> docker s' = docker s /\
  ((r = Ok tt /\ exists now, op now (tree s) = Ok (tree s')) \/ (exists e, r = Err e /\ tree s' = tree s)).
Proof.
  intros H. apply fs_update_inv in H as [Hd [H|(e&->&[H|(data&now&H)])]]; (split; [done|]); [by left|right; eauto|].
  right. exists e. unfold untouched in H. by injection H as ->.
Qed.

(** *** Atomic replacement *)
Lemma suffixed_snoc p c x : suffixed (p ++ [c]) x = p ++ [c +:+ x].
Proof. induction p as [|d p IH]; [done|]. cbn [app suffixed]. rewrite IH. by destruct (p ++ [c]) eqn:E; [destruct p|]. Qed.
Lemma tmp_differs c u : c <> c +:+ ".tmp-" +:+ u.
Proof. intros E. apply (f_equal String.length) in E. rewrite !length_app_s in E. cbn in E. lia. Qed.
Lemma atomic_inv p c data s s' r : writeFileAtomically (p ++ [c]) data s = (s', r) ->
  docker s' = docker s
  /\ (forall q, apart (p ++ [c]) q = true -> apart (p ++ [c +:+ ".tmp-" +:+ unique (calls s)]) q = true -> walk (tree s') q = walk (tree s) q)
  /\ ((r = Ok tt /\ ReadFile (tree s') (p ++ [c]) = Ok data) \/ (exists e, r = Err e /\ walk (tree s') (p ++ [c]) = walk (tree s) (p ++ [c]))).
Proof.
  unfold Docker.writeFileAtomically. rewrite suffixed_snoc. set (tmp := p ++ [c +:+ _]).
  assert (apart tmp (p ++ [c]) = true) as Htmp.
  { unfold tmp. rewrite apart_sym. apply apart_snoc, tmp_differs. }
  destruct ((os_WriteFile tmp data;; os_Rename tmp (p ++ [c])) s) as [s1 r1] eqn:E.
  destruct (ignore (os_RemoveAll tmp) s1) as [s2 r2] eqn:E2. intros [= <- <-].
  apply ignore_inv in E2 as [_ [r' E2]]. apply update_untouched_inv in E2 as [Hd2 H2].
  assert (forall q, apart tmp q = true -> walk (tree s2) q = walk (tree s1) q) as Hrm.
  { intros q Hq. destruct H2 as [[_ [now H2]]|(e&_&->)]; [|done]. by eapply RemoveAll_apart. }
  cbn [fst]. apply bind_inv in E as [(s3&[]&Ew&Er)|(e&Ew&->)].
  - apply fs_update_inv in Ew as [Hd3 [[_ [now Hw]]|(e&?&_)]]; [|done]. pose proof (WriteFile_at _ _ _ _ _ Hw) as Hat.
    apply update_untouched_inv in Er as [Hd1 [[-> [now' Hr]]|(e&->&Ht)]].
    + destruct (Rename_inv _ _ _ _ _ Hr Hat Htmp) as [Hn Hf]. split; [congruence|]. split.
      * intros q Hq Hq'. rewrite Hrm, Hf by done. by eapply WriteFile_apart.
      * left. split; [done|]. unfold ReadFile. rewrite Hrm, Hn by done. done.
    + split; [congruence|]. split.
      * intros q Hq Hq'. rewrite Hrm, Ht by done. by eapply WriteFile_apart.
      * right. eexists. split; [done|]. rewrite Hrm, Ht by done. by eapply WriteFile_apart.
  - apply fs_update_inv in Ew as [Hd1 [[? _]|(e'&_&Ht)]]; [done|].
    assert (forall q, apart tmp q = true -> walk (tree s1) q = walk (tree s) q) as Hs1.
    { intros q Hq. destruct Ht as [->|(left&now&Ht)]; [done|]. by eapply WriteFile_apart. }
    split; [congruence|]. split.
    + intros q Hq Hq'. by rewrite Hrm, Hs1.
    + right. eexists. split; [done|]. by rewrite Hrm, Hs1.
Qed.

(** ** nginx: what a promotion and a rollback leave *)
Local Abbreviation promoteNginx := (promoteNginx fault clock unique opts).
Local Abbreviation rollbackNginx := (rollbackNginx fault clock unique opts).
Local Abbreviation live := (NginxLiveConfigPath opts).
Local Abbreviation prev := (NginxPreviousStableConfigPath opts).
Definition nginx_conf (name : string) : file_at := mkAt name "/etc/nginx/nginx.conf".
(** What the daemon says the container serves. *)
Definition active (d : D) (name : string) : option bytes :=
  match GetArchive d name "/etc/nginx/nginx.conf" with
  | Ok archive => match extractFirstFile archive with Ok b => Some b | Err _ => None end
  | Err _ => None
  end.

Lemma live_prev_apart : apart live prev = true.
Proof. apply apart_snoc. done. Qed.
Lemma tmp_apart root x y u : x +:+ ".tmp-" +:+ u <> y -> apart (root ++ [x +:+ ".tmp-" +:+ u]) (root ++ [y]) = true.
Proof. apply apart_snoc. Qed.
Lemma atomic_live data s s' r : writeFileAtomically live data s = (s', r) -> docker s' = docker s
  /\ walk (tree s') prev = walk (tree s) prev
  /\ ((r = Ok tt /\ ReadFile (tree s') live = Ok data) \/ (exists e, r = Err e /\ walk (tree s') live = walk (tree s) live)).
Proof.
  intros H. apply atomic_inv in H as (Hd&Hf&Hr). split; [done|]. split; [|done].
  apply Hf; [apply live_prev_apart|apply tmp_apart; discriminate].
Qed.
Lemma atomic_prev data s s' r : writeFileAtomically prev data s = (s', r) -> docker s' = docker s
  /\ walk (tree s') live = walk (tree s) live
  /\ ((r = Ok tt /\ ReadFile (tree s') prev = Ok data) \/ (exists e, r = Err e /\ walk (tree s') prev = walk (tree s) prev)).
Proof.
  intros H. apply atomic_inv in H as (Hd&Hf&Hr). split; [done|]. split; [|done].
  apply Hf; [rewrite apart_sym; apply live_prev_apart|apply tmp_apart; discriminate].
Qed.
Lemma present_inv p s s' r : readFileIfPresent fault p s = (s', r) -> tree s' = tree s /\ docker s' = docker s
  /\ forall o, r = Ok o -> match o with Some data => ReadFile (tree s) p = Ok data | None => ReadFile (tree s) p = Err ErrNotExist end.
Proof.
  unfold readFileIfPresent. intros H. apply bind_inv in H as [(s1&r1&H1&H2)|(e&H1&->)].
  - apply try_inv in H1 as (r'&[= <-]&H1). apply fs_read_inv in H1 as (Ht&Hd&Hr&He). destruct r1 as [data|[[]| | |]];
      injection H2 as <- <-; (split; [done|split; [done|]]); intros o [= <-]; auto.
  - apply try_inv in H1 as (r'&?&_). done.
Qed.
Lemma remove_present_inv p q s s' r : removeIfPresent fault clock p s = (s', r) -> docker s' = docker s /\
  (apart p q = true -> walk (tree s') q = walk (tree s) q).
Proof.
  unfold removeIfPresent. intros H. apply bind_inv in H as [(s1&r1&H1&H2)|(e&H1&->)].
  - apply try_inv in H1 as (r'&[= <-]&H1). apply update_untouched_inv in H1 as [Hd Hr].
    assert (s' = s1) as -> by (destruct r1 as [|[[]| | |]]; by injection H2 as <- _).
    split; [done|]. intros Ha. destruct Hr as [[_ [now Hr]]|(e&_&->)]; [|done]. by eapply edit_apart.
  - apply try_inv in H1 as (r'&?&_). done.
Qed.
Lemma with_docker_inv {A} (op : node -> D -> D * result backend_error A) s s' r : with_docker op s = (s', r) ->
  tree s' = tree s /\ op (tree s) (docker s) = (docker s', r).
Proof. unfold with_docker. destruct (op (tree s) (docker s)) as [d r1]. by intros [= <- <-]. Qed.
Lemma exec_inv name cmd s s' r : exec name cmd s = (s', r) -> tree s' = tree s /\
  (r = Ok tt -> Exec (tree s) (docker s) name cmd = (docker s', Ok 0%Z)).
Proof.
  unfold exec. intros H. apply bind_inv in H as [(s1&code&H1&H2)|(e&H1&->)].
  - apply with_docker_inv in H1 as [Ht H1]. destruct (Exec _ _ _ _) as [d [c|]]; [|done]. injection H1 as -> ->.
    destruct (code =? 0)%Z eqn:E; injection H2 as <- <-; (split; [done|]); [|done]. intros _. apply Z.eqb_eq in E as ->. done.
  - apply with_docker_inv in H1 as [Ht _]. split; [done|]. done.
Qed.
Lemma put_inv name dir file contents s s' r : putFile name dir file contents s = (s', r) -> tree s' = tree s /\
  (r = Ok tt -> holds (docker s') (mkAt name (dir +:+ "/" +:+ file)) contents).
Proof using All.
  unfold putFile. intros H. apply with_docker_inv in H as [Ht H]. split; [done|]. intros ->.
  destruct (PutArchive _ _ _ _) as [d [e|]] eqn:E; [done|]. injection H as ->. by eapply put_holds.
Qed.
Lemma read_archive_inv name s s' r : readArchiveFile name "/etc/nginx/nginx.conf" s = (s', r) -> tree s' = tree s /\ docker s' = docker s
  /\ match r with Ok b => Some b | Err _ => None end = active (docker s) name.
Proof.
  unfold readArchiveFile, active. intros H. apply bind_inv in H as [(s1&a&H1&H2)|(e&H1&->)];
    apply with_docker_inv in H1 as [Ht H1]; destruct (GetArchive _ _ _) as [archive|e']; try done.
  - injection H1 as Hd <-. destruct (extractFirstFile archive) as [b|]; injection H2 as <- <-; by rewrite Ht, <- Hd.
  - injection H1 as Hd _. by rewrite Ht, <- Hd.
Qed.

Lemma WriteStable_ok contents previous s s' : WriteStableNginxConfig fault clock unique opts contents previous s = (s', Ok tt) ->
  docker s' = docker s /\ ReadFile (tree s') live = Ok contents
  /\ forall b, previous = Some b -> b <> "" -> ReadFile (tree s') prev = Ok b.
Proof.
  unfold WriteStableNginxConfig. intros H. apply bind_ok in H as (s1&[]&H1&H). apply bind_ok in H as (s2&[]&H2&H3).
  apply update_untouched_inv in H1 as [Hd1 _]. apply atomic_live in H3 as (Hd3&Hp3&Hr).
  destruct Hr as [[_ Hr]|(e&?&_)]; [|done].
  destruct (empty previous) eqn:E.
  - apply remove_present_inv with (q := live) in H2 as [Hd2 _]. split; [congruence|]. split; [done|]. intros b -> Hb. by destruct b.
  - apply atomic_prev in H2 as (Hd2&_&[[_ Hp]|(e&?&_)]); [|done]. split; [congruence|]. split; [done|].
    intros b -> Hb. unfold ReadFile in *. by rewrite Hp3.
Qed.
Lemma promote_nginx_ok name cand s s' : below (components (CandidateRoot opts)) (components (path_Join cand "nginx.conf")) = true ->
  promoteNginx name cand s = (s', Ok tt) ->
  exists contents, ReadFile (tree s) (components (path_Join cand "nginx.conf")) = Ok contents
  /\ ReadFile (tree s') live = Ok contents /\ holds (docker s') (nginx_conf name) (bytes_of contents)
  /\ forall b, active (docker s) name = Some b -> b <> [] -> ReadFile (tree s') prev = Ok (text_of b).
Proof using All.
  unfold Docker.promoteNginx. intros Hroot H. apply bind_ok in H as (s1&contents&H1&H). apply bind_ok in H as (s2&ra&H2&H).
  apply bind_ok in H as (s3&[]&H3&H). apply bind_ok in H as (s4&rw&H4&H).
  apply fs_read_inv in H1 as (Ht1&Hd1&Hc&_). specialize (Hc _ eq_refl). apply try_inv in H2 as (ra'&[= <-]&H2).
  apply read_archive_inv in H2 as (Ht2&Hd2&Ha). apply ignore_inv in H3 as [_ [r3 H3]]. apply exec_inv in H3 as [Ht3 _].
  apply try_inv in H4 as (rw'&[= <-]&H4). destruct rw as [[]|e].
  2:{ exfalso. apply bind_ok in H as (s5&?&_&H). discriminate H. }
  injection H as <-. apply bind_ok in H4 as (s5&[]&H5&H6). apply exec_inv in H5 as [Ht5 H5]. specialize (H5 eq_refl).
  apply WriteStable_ok in H6 as (Hd6&Hl&Hp).
  exists contents. split; [done|]. split; [done|]. split.
  - rewrite Hd6. eapply cp_holds; [exact H5|exact Hroot|]. rewrite Ht3, Ht2, Ht1. exact Hc.
  - intros b Hb Hne. apply Hp; [|by destruct b].
    destruct ra as [b'|]; rewrite Hd1, Hb in Ha; [by injection Ha as ->|done].
Qed.
Lemma rollback_nginx_ok name data s s' : ReadFile (tree s) prev = Ok data -> rollbackNginx name s = (s', Ok tt) ->
  ReadFile (tree s') live = Ok data /\ holds (docker s') (nginx_conf name) (bytes_of data).
Proof using All.
  intros Hprev. unfold Docker.rollbackNginx. intros H. apply bind_ok in H as (s1&o&H1&H).
  apply present_inv in H1 as (Ht1&Hd1&Ho). specialize (Ho _ eq_refl). destruct o as [data'|]; [|congruence].
  assert (data' = data) as -> by congruence.
  apply bind_ok in H as (s2&cur&H2&H). apply present_inv in H2 as (Ht2&Hd2&_). apply bind_ok in H as (s3&[]&H3&H).
  apply atomic_live in H3 as (Hd3&_&[[_ Hl]|(e&?&_)]); [|done]. apply bind_ok in H as (s4&rp&H4&H).
  apply try_inv in H4 as (rp'&[= <-]&H4). apply put_inv in H4 as [Ht4 Hh]. destruct rp as [[]|e].
  - injection H as <-. unfold ReadFile in *. rewrite Ht4. split; [done|]. by apply (Hh eq_refl).
  - exfalso. apply bind_ok in H as (s5&?&_&H). discriminate H.
Qed.
(** A rollback that fails after the stable file was replaced puts it back when it can. *)
Lemma rollback_nginx_err name data s s' e : ReadFile (tree s) prev = Ok data -> rollbackNginx name s = (s', Err e) ->
  ReadFile (tree s') live = ReadFile (tree s) live \/ ReadFile (tree s') live = Ok data.
Proof.
  intros Hprev. unfold Docker.rollbackNginx. intros H.
  assert (Hsame : forall s1 s2, walk (tree s1) live = walk (tree s2) live -> ReadFile (tree s1) live = ReadFile (tree s2) live).
  { intros s1 s2 Hw. unfold ReadFile. by rewrite Hw. }
  apply bind_inv in H as [(s1&o&H1&H)|(e1&H1&_)].
  2:{ apply present_inv in H1 as (Ht1&_). left. by rewrite Ht1. }
  apply present_inv in H1 as (Ht1&Hd1&Ho). specialize (Ho _ eq_refl). destruct o as [data'|]; [|congruence].
  assert (data' = data) as -> by congruence.
  apply bind_inv in H as [(s2&cur&H2&H)|(e2&H2&_)].
  2:{ apply present_inv in H2 as (Ht2&_). left. by rewrite Ht2, Ht1. }
  apply present_inv in H2 as (Ht2&Hd2&Hcur). specialize (Hcur _ eq_refl).
  apply bind_inv in H as [(s3&[]&H3&H)|(e3&H3&_)].
  2:{ apply atomic_live in H3 as (_&_&[[? _]|(e'&_&Hw)]); [done|]. left. rewrite <- Ht1, <- Ht2. by apply Hsame. }
  apply atomic_live in H3 as (Hd3&_&[[_ Hl]|(e'&?&_)]); [|done]. apply bind_inv in H as [(s4&rp&H4&H)|(e4&H4&_)].
  2:{ apply try_inv in H4 as (r'&?&_). done. }
  apply try_inv in H4 as (rp'&[= <-]&H4). unfold putFile in H4. apply with_docker_inv in H4 as [Ht4 _].
  destruct rp as [[]|e']; [by injection H|]. apply bind_inv in H as [(s5&[]&H5&H)|(e5&H5&_)].
  - injection H as <- _. destruct cur as [c|].
    + apply ignore_inv in H5 as [_ [r5 H5]]. apply atomic_live in H5 as (_&_&[[_ Hc]|(e5&_&Hw)]).
      * left. rewrite Hc, <- Ht1. by rewrite Hcur.
      * right. unfold ReadFile in *. by rewrite Hw, Ht4.
    + injection H5 as <-. right. unfold ReadFile in *. by rewrite Ht4.
  - destruct cur; [apply ignore_inv in H5 as [? _]|]; done.
Qed.

(** ** Runs without faults *)
Definition quiet s : Prop := forall h c, calls s `prefix_of` h -> fault h c = None.
Definition okrun {A} (m : M A) s (Q : node -> A -> Prop) : Prop :=
  exists s' a, m s = (s', Ok a) /\ quiet s' /\ docker s' = docker s /\ Q (tree s') a.
Lemma ok_ret {A} (a : A) s (Q : node -> A -> Prop) : quiet s -> Q (tree s) a -> okrun (mret a) s Q.
Proof. intros Hq HQ. by exists s, a. Qed.
Lemma ok_bind {A B} (m : M A) (f : A -> M B) s (P : node -> A -> Prop) (Q : node -> B -> Prop) : okrun m s P ->
  (forall s' a, quiet s' -> P (tree s') a -> okrun (f a) s' Q) -> okrun (m ≫= f) s Q.
Proof.
  intros (s1&a&Hm&Hq&Hd&HP) Hf. destruct (Hf s1 a Hq HP) as (s2&b&Hb&Hq2&Hd2&HQ). exists s2, b.
  split; [|split; [done|split; [congruence|done]]]. unfold mbind, M_bind. by rewrite Hm.
Qed.
Lemma ok_mono {A} (m : M A) s (P Q : node -> A -> Prop) : okrun m s P -> (forall t a, P t a -> Q t a) -> okrun m s Q.
Proof. intros (s1&a&Hm&Hq&Hd&HP) H. exists s1, a. auto. Qed.
Lemma quiet_more s t d c : quiet s -> quiet (mkState t d (calls s ++ [c])).
Proof. intros Hq h c' Hh. apply Hq. etrans; [|exact Hh]. by apply prefix_app_r. Qed.
Lemma ok_read {A} c (op : node -> result fs_error A) s a (Q : node -> A -> Prop) : quiet s -> op (tree s) = Ok a -> Q (tree s) a ->
  okrun (fs_read fault c op) s Q.
Proof.
  intros Hq Ho HQ. unfold okrun, fs_read. rewrite (Hq (calls s) c) by done. rewrite Ho. eexists _, _. split; [done|].
  split; [by apply quiet_more|done].
Qed.
Lemma ok_update c failed op s t' (Q : node -> unit -> Prop) : quiet s -> op (clock (calls s)) (tree s) = Ok t' -> Q t' tt ->
  okrun (fs_update fault clock c failed op) s Q.
Proof.
  intros Hq Ho HQ. unfold okrun, fs_update. rewrite (Hq (calls s) c) by done. rewrite Ho. eexists _, _. split; [done|].
  split; [by apply quiet_more|done].
Qed.
Lemma ok_ignore {A} (m : M A) s (P : node -> A -> Prop) (Q : node -> unit -> Prop) : okrun m s P -> (forall t a, P t a -> Q t tt) ->
  okrun (ignore m) s Q.
Proof.
  intros (s1&a&Hm&Hq&Hd&HP) H. exists s1, tt. unfold ignore. rewrite Hm. split; [done|]. eauto.
Qed.

(** ** Copying a directory *)
Fixpoint regular (n : node) : bool :=
  match n with File _ _ => true | Special => false | Dir es => forallb (fun f => regular f.2) es end.
Fixpoint wf (n : node) : bool :=
  match n with Dir es => bool_decide (NoDup (map fst es)) && forallb (fun f => wf f.2) es | _ => true end.
Definition same (n m : node) : Prop := forall q, look n q = look m q.
Lemma same_dir es es' : (forall k, match aget es k, aget es' k with Some a, Some b => same a b | None, None => True | _, _ => False end) ->
  same (Dir es) (Dir es').
Proof.
  intros H [|k q]; [done|]. unfold look. cbn [walk]. specialize (H k). destruct (aget es k), (aget es' k); try done. apply (H q).
Qed.
Lemma same_refl n : same n n. Proof. done. Qed.
Lemma apart_more p q r : apart p q = true -> apart p (q ++ r) = true.
Proof. intros H. rewrite <- (app_nil_r p). by apply apart_app. Qed.
Lemma apart_more_l p q r : apart p q = true -> apart (p ++ r) q = true.
Proof. intros H. rewrite <- (app_nil_r q). by apply apart_app. Qed.
Lemma aget_key {A} (es : list (string * A)) f : NoDup (map fst es) -> f ∈ es -> aget es f.1 = Some f.2.
Proof.
  induction es as [|g es IH]; cbn; [by intros _ ?%elem_of_nil|]. intros [Hn Hnd]%NoDup_cons [->|Hf]%elem_of_cons.
  - by rewrite String.eqb_refl.
  - destruct (String.eqb_spec g.1 f.1) as [E|_]; [|by apply IH]. destruct Hn. rewrite E. by apply list_elem_of_fmap_2.
Qed.
Section copying.
Context (fuel : nat) (source target : path) (es : list (string * node)) (t0 : node).
Local Abbreviation body := (fun e : string * node =>
  match e.2 with
  | Dir _ => copyDirectory fault clock fuel (source ++ [e.1]) (target ++ [e.1])
  | Special => throw (EText ("Unsupported file type in CoreDNS zone directory: " +:+ e.1))
  | File _ _ => copyFile fault clock (source ++ [e.1]) (target ++ [e.1]);; os_Chmod fault clock (target ++ [e.1])
  end).
(** The entries named in [done] are copied, and nothing else has changed. *)
Definition copied (done : list string) (t : node) : Prop :=
  (exists es', walk t target = Ok (Dir es') /\ forall k,
    (k ∈ done -> exists a b, aget es k = Some a /\ aget es' k = Some b /\ same a b) /\ (k ∉ done -> aget es' k = None))
  /\ forall q, apart target q = true -> walk t q = walk t0 q.
Definition entry_copies (e : string * node) : Prop := forall s done, quiet s -> copied done (tree s) -> e.1 ∉ done ->
  okrun (body e) s (fun t _ => copied (e.1 :: done) t).
Lemma copied_child done t k n : copied done t -> apart source target = true -> walk t0 source = Ok (Dir es) ->
  aget es k = Some n -> walk t (source ++ [k]) = Ok n.
Proof.
  intros [_ Hf] Ha Hs Hk. rewrite Hf by (rewrite apart_sym; by apply apart_more_l). rewrite (walk_child _ _ _ _ Hs), Hk. done.
Qed.
Lemma copied_step done t t' k a b es' : copied done t -> walk t' target = Ok (Dir es') -> aget es k = Some a -> aget es' k = Some b ->
  same a b -> (forall j, j <> k -> forall es0, walk t target = Ok (Dir es0) -> aget es' j = aget es0 j) ->
  (forall q, apart target q = true -> walk t' q = walk t q) -> copied (k :: done) t'.
Proof.
  intros [(es0&Hw&Hk) Hf] Hw' Ha Hb Hab Hj Hf'. split; [|intros q Hq; by rewrite Hf', Hf].
  exists es'. split; [done|]. intros j. specialize (Hk j). split.
  - intros [->|Hin]%elem_of_cons; [eauto|]. destruct (decide (j = k)) as [->|Hne]; [eauto|].
    rewrite (Hj j Hne es0 Hw). by apply Hk.
  - intros Hn. rewrite (Hj j ltac:(intros ->; apply Hn, list_elem_of_here) es0 Hw). apply Hk. intros Hin.
    by apply Hn, list_elem_of_further.
Qed.
Lemma copy_entries l : forall s done, Forall entry_copies l -> NoDup (map fst l) -> (forall e, e ∈ l -> e.1 ∉ done) -> quiet s ->
  copied done (tree s) -> okrun (for_each l body) s (fun t _ => copied (rev (map fst l) ++ done) t).
Proof.
  induction l as [|e l IH]; intros s done Hl Hnd Hd Hq Hc; [by apply ok_ret|]. cbn [for_each].
  apply Forall_cons in Hl as [He Hl]. cbn [map] in Hnd. apply NoDup_cons in Hnd as [Hn Hnd].
  eapply ok_bind; [apply He; [done|exact Hc|apply Hd, list_elem_of_here]|]. intros s1 [] Hq1 Hc1.
  cbn [map rev]. rewrite <- app_assoc. cbn [app]. apply IH; [done|done| |done|done].
  intros f Hf [E|Hin]%elem_of_cons.
  - apply Hn. rewrite <- E. by apply list_elem_of_fmap_2.
  - by apply (Hd f); [apply list_elem_of_further|].
Qed.
End copying.

Lemma copied_next es t0 source target done t t' k a b es0 es' : copied target es t0 done t ->
  walk t target = Ok (Dir es0) -> walk t' target = Ok (Dir es') -> aget es k = Some a -> aget es' k = Some b -> same a b ->
  (forall j, j <> k -> aget es' j = aget es0 j) -> (forall q, apart (target ++ [k]) q = true -> walk t' q = walk t q) ->
  apart source target = true -> copied target es t0 (k :: done) t'.
Proof.
  intros Hc Hw Hw' Ha Hb Hs Hj Hf _. eapply copied_step; [done|done|done|done|done| |].
  - intros j Hne es1 H1. rewrite Hj by done. congruence.
  - intros q Hq. apply Hf. by apply apart_more_l.
Qed.
Lemma copy_file_entry fuel source target es t0 k d mt : aget es k = Some (File d mt) -> apart source target = true ->
  walk t0 source = Ok (Dir es) -> entry_copies fuel source target es t0 (k, File d mt).
Proof.
  intros Hk Ha Hsrc s done Hq Hc Hn. cbn [fst snd]. pose proof Hc as [(es0&Hw&Hkeys) Hf].
  assert (walk (tree s) (source ++ [k]) = Ok (File d mt)) as Hread by (by eapply copied_child).
  eapply (ok_bind _ _ _ (fun t _ => copied target es t0 (k :: done) t)).
  - unfold copyFile. eapply (ok_bind _ _ _ (fun t a => t = tree s /\ a = d)).
    + apply (ok_read _ _ _ d); [done| |done]. unfold ReadFile. by rewrite Hread.
    + intros s1 a Hq1 [Ht ->]. pose proof (edit_snoc (fun o => match o with Some (Dir _) => Err ErrIsDir | Some Special => Err (ErrOther "not a regular file") | _ => Ok (Some (File d (clock (calls s1)))) end) target k (tree s) es0 Hw) as He.
      rewrite (proj2 (Hkeys k) Hn) in He. cbn in He. destruct He as (t'&He&Hw').
      apply (ok_update _ _ _ _ t'); [done|by rewrite Ht|]. eapply copied_next; [exact Hc|exact Hw|exact Hw'|exact Hk| | | | |done].
      * by rewrite aget_aset, String.eqb_refl.
      * by intros [|? ?].
      * intros j Hj. rewrite aget_aset. by destruct (String.eqb_spec k j).
      * intros q Hq'. by eapply WriteFile_apart.
  - intros s1 [] Hq1 Hc1. pose proof Hc1 as [(es1&Hw1&Hk1) _].
    apply (ok_update _ _ _ _ (tree s1)); [done| |done]. unfold Stat.
    destruct (proj1 (Hk1 k) ltac:(apply list_elem_of_here)) as (a&b&_&Hb&_). rewrite (walk_child _ _ _ _ Hw1), Hb. done.
Qed.

(** The target is missing or empty, and its directory exists. *)
Definition vacant (t : node) (p : path) : Prop :=
  exists q c es, p = q ++ [c] /\ walk t q = Ok (Dir es) /\ (aget es c = None \/ aget es c = Some (Dir [])).
Lemma vacant_mkdir p s : quiet s -> vacant (tree s) p -> okrun (os_MkdirAll p) s
  (fun t _ => walk t p = Ok (Dir []) /\ forall q, apart p q = true -> walk t q = walk (tree s) q).
Proof.
  intros Hq (q&c&es&->&Hw&[Hc|Hc]).
  - destruct (MkdirAll_new q c (tree s) es Hw Hc) as (t'&Hm&_&Hn&Hf). apply (ok_update _ _ _ _ t'); done.
  - assert (walk (tree s) (q ++ [c]) = Ok (Dir [])) as Hn by (by rewrite (walk_child _ _ _ _ Hw), Hc).
    apply (ok_update _ _ _ _ (tree s)); [done| |done]. by eapply MkdirAll_existing.
Qed.
Lemma existing_mkdir p es s : quiet s -> walk (tree s) p = Ok (Dir es) -> okrun (os_MkdirAll p) s (fun t _ => t = tree s).
Proof. intros Hq Hw. apply (ok_update _ _ _ _ (tree s)); [done| |done]. by eapply MkdirAll_existing. Qed.

Lemma copy_dir_entry fuel source target es t0 k n :
  (forall src tgt s es1, quiet s -> walk (tree s) src = Ok (Dir es1) -> wf (Dir es1) = true -> regular (Dir es1) = true ->
    height (Dir es1) <= fuel -> apart src tgt = true -> vacant (tree s) tgt ->
    okrun (copyDirectory fault clock fuel src tgt) s (fun t _ => (exists es', walk t tgt = Ok (Dir es') /\ same (Dir es1) (Dir es'))
      /\ forall q, apart tgt q = true -> walk t q = walk (tree s) q)) ->
  aget es k = Some (Dir n) -> wf (Dir n) = true -> regular (Dir n) = true -> height (Dir n) <= fuel ->
  apart source target = true -> walk t0 source = Ok (Dir es) -> entry_copies fuel source target es t0 (k, Dir n).
Proof.
  intros IH Hk Hwf Hreg Hh Ha Hsrc s done Hq Hc Hn. cbn [fst snd]. pose proof Hc as [(es0&Hw&Hkeys) Hf].
  eapply ok_mono; [apply (IH _ _ _ n); try done|].
  - by eapply copied_child.
  - by apply apart_app.
  - exists target, k, es0. split; [done|]. split; [done|]. left. by apply Hkeys.
  - intros t [] [(es1&Hw1&Hs1) Hf1].
    assert (exists es'', walk t target = Ok (Dir es'') /\ aget es'' k = Some (Dir es1)) as (es''&Hw''&Hk'').
    { rewrite walk_app in Hw1. destruct (walk t target) as [[| |es'']|]; try done. exists es''. split; [done|].
      cbn in Hw1. destruct (aget es'' k); [|done]. by injection Hw1 as ->. }
    eapply copied_next; [exact Hc|exact Hw|exact Hw''|exact Hk|exact Hk''|exact Hs1| |done|done].
    intros j Hj. assert (walk t (target ++ [j]) = walk (tree s) (target ++ [j])) as Hwj by (apply Hf1, apart_snoc; congruence).
    rewrite (walk_child _ _ _ _ Hw''), (walk_child _ _ _ _ Hw) in Hwj. destruct (aget es'' j), (aget es0 j); congruence.
Qed.
Lemma sorted_entries es : ReadDir (Dir es) [] = Ok (SliceStable (fun f g => less_s f.1 g.1) es).
Proof. done. Qed.
Lemma copy_ok fuel : forall src tgt s es, quiet s -> walk (tree s) src = Ok (Dir es) -> wf (Dir es) = true -> regular (Dir es) = true ->
  height (Dir es) <= fuel -> apart src tgt = true -> vacant (tree s) tgt ->
  okrun (copyDirectory fault clock fuel src tgt) s (fun t _ => (exists es', walk t tgt = Ok (Dir es') /\ same (Dir es) (Dir es'))
    /\ forall q, apart tgt q = true -> walk t q = walk (tree s) q).
Proof.
  induction fuel as [|fuel IH]; intros src tgt s es Hq Hsrc Hwf Hreg Hh Ha Hv; [cbn in Hh; lia|]. cbn [copyDirectory].
  eapply ok_bind; [by eapply existing_mkdir|]. intros s1 [] Hq1 Ht1. rewrite <- Ht1 in Hv, Hsrc.
  eapply ok_bind; [by apply vacant_mkdir|]. intros s2 [] Hq2 [Ht2 Hf2].
  assert (walk (tree s2) src = Ok (Dir es)) as Hsrc2 by (rewrite Hf2; [done|by rewrite apart_sym]).
  set (L := SliceStable (fun f g : string * node => less_s f.1 g.1) es).
  eapply (ok_bind _ _ _ (fun t a => t = tree s2 /\ a = L)).
  { apply (ok_read _ _ _ L); [done| |done]. unfold ReadDir. by rewrite Hsrc2. }
  intros s3 a Hq3 [Ht3 ->]. cbn [wf regular] in Hwf, Hreg. apply andb_true_iff in Hwf as [Hnd Hwf]. apply bool_decide_eq_true in Hnd.
  rewrite forallb_Forall, Forall_forall in Hwf, Hreg.
  assert (forall e, e ∈ L -> e ∈ es) as HL by (intros e He; by apply elem_of_SliceStable in He).
  eapply ok_mono; [apply (copy_entries fuel src tgt es (tree s2) L s3 [])|].
  - apply Forall_forall. intros [k n] He. apply HL in He. pose proof (aget_key es _ Hnd He) as Hk. cbn in Hk.
    pose proof (Hwf _ He) as Hwn. pose proof (Hreg _ He) as Hrn. pose proof (height_entry _ _ He) as Hhn. cbn [snd] in *.
    destruct n as [d mt| |n]; [by apply copy_file_entry|done|]. apply copy_dir_entry; [exact IH|done|done|done|lia|done|done].
  - eapply NoDup_Permutation_proper; [apply Permutation_map, SliceStable_perm|done].
  - intros e _ Hin. by apply elem_of_nil in Hin.
  - done.
  - rewrite Ht3. split; [|done]. exists []. split; [done|]. intros k. split; [by intros ?%elem_of_nil|done].
  - intros t [] [(es'&Hw&Hkeys) Hf]. split.
    + exists es'. split; [done|]. apply same_dir. intros k. specialize (Hkeys k). rewrite app_nil_r in Hkeys.
      destruct (decide (k ∈ rev (map fst L))) as [Hin|Hn].
      * destruct (proj1 Hkeys Hin) as (a&b&->&->&Hab). done.
      * rewrite (proj2 Hkeys Hn). destruct (aget es k) as [n|] eqn:E; [|done]. apply Hn.
        apply list_elem_of_In, in_rev. rewrite rev_involutive. apply list_elem_of_In.
        apply aget_in in E. apply list_elem_of_fmap. exists (k, n). split; [done|]. by apply elem_of_SliceStable.
    + intros q Hq'. rewrite Hf by done. rewrite Hf2 by done. by rewrite Ht1.
Qed.

(** ** Replacing a directory *)
Lemma empty_entries {A} (es : list (string * A)) : (forall k, aget es k = None) -> es = [].
Proof. destruct es as [|f es]; [done|]. intros H. specialize (H f.1). cbn in H. by rewrite String.eqb_refl in H. Qed.
Definition cleared (dir : path) (es : list (string * node)) (t0 : node) (done : list string) (t : node) : Prop :=
  (exists es', walk t dir = Ok (Dir es') /\ forall k, (k ∈ done -> aget es' k = None) /\ (k ∉ done -> aget es' k = aget es k))
  /\ forall q, apart dir q = true -> walk t q = walk t0 q.
Lemma clear_entries dir es t0 l : forall s done, quiet s -> cleared dir es t0 done (tree s) ->
  okrun (for_each l (fun e : string * node => os_RemoveAll (dir ++ [e.1]))) s (fun t _ => cleared dir es t0 (rev (map fst l) ++ done) t).
Proof.
  induction l as [|e l IH]; intros s done Hq Hc; [by apply ok_ret|]. cbn [for_each].
  eapply (ok_bind _ _ _ (fun t _ => cleared dir es t0 (e.1 :: done) t)).
  - destruct Hc as [(es0&Hw&Hk) Hf]. pose proof (edit_snoc (fun _ => Ok None) dir e.1 (tree s) es0 Hw) as (t'&He&Hw').
    apply (ok_update _ _ _ _ t'); [done|unfold RemoveAll; by rewrite He|]. split.
    + eexists. split; [exact Hw'|]. intros k. specialize (Hk k). rewrite aget_adel. split.
      * intros [->|Hin]%elem_of_cons; [by rewrite String.eqb_refl|]. destruct (e.1 =? k); [done|]. by apply Hk.
      * intros Hn. destruct (String.eqb_spec e.1 k) as [E|_]; [destruct Hn; rewrite E; apply list_elem_of_here|].
        apply Hk. intros Hin. by apply Hn, list_elem_of_further.
    + intros q Hq'. rewrite (edit_apart _ _ _ _ q He); [by apply Hf|by apply apart_more_l].
  - intros s1 [] Hq1 Hc1. cbn [map rev]. rewrite <- app_assoc. by apply IH.
Qed.
Lemma clear_ok dir es s : quiet s -> walk (tree s) dir = Ok (Dir es) -> okrun (clearDirectory fault clock dir) s
  (fun t _ => walk t dir = Ok (Dir []) /\ forall q, apart dir q = true -> walk t q = walk (tree s) q).
Proof.
  intros Hq Hw. unfold clearDirectory. eapply ok_bind; [by eapply existing_mkdir|]. intros s1 [] Hq1 Ht1.
  set (L := SliceStable (fun f g : string * node => less_s f.1 g.1) es).
  eapply (ok_bind _ _ _ (fun t a => t = tree s1 /\ a = L)).
  { apply (ok_read _ _ _ L); [done| |done]. unfold ReadDir. by rewrite Ht1, Hw. }
  intros s2 a Hq2 [Ht2 ->]. eapply ok_mono; [apply (clear_entries dir es (tree s) L s2 [])|].
  - done.
  - rewrite Ht2, Ht1. split; [|done]. exists es. split; [done|]. intros k. split; [by intros ?%elem_of_nil|done].
  - intros t [] [(es'&Hw'&Hk) Hf]. split; [|done]. rewrite Hw'. do 2 f_equal. apply empty_entries. intros k.
    rewrite app_nil_r in Hk. destruct (decide (k ∈ rev (map fst L))) as [Hin|Hn]; [by apply Hk|].
    rewrite (proj2 (Hk k) Hn). destruct (aget es k) as [n|] eqn:E; [|done]. destruct Hn.
    apply list_elem_of_In, in_rev. rewrite rev_involutive. apply list_elem_of_In. apply aget_in in E.
    apply list_elem_of_fmap. exists (k, n). split; [done|]. by apply elem_of_SliceStable.
Qed.
Lemma copy_tree_ok src tgt s es : quiet s -> walk (tree s) src = Ok (Dir es) -> wf (Dir es) = true -> regular (Dir es) = true ->
  apart src tgt = true -> vacant (tree s) tgt ->
  okrun (copy_tree fault clock src tgt) s (fun t _ => (exists es', walk t tgt = Ok (Dir es') /\ same (Dir es) (Dir es'))
    /\ forall q, apart tgt q = true -> walk t q = walk (tree s) q).
Proof.
  intros Hq Hw Hwf Hr Ha Hv. unfold copy_tree. apply (copy_ok (S (height (tree s))) src tgt s es); try done.
  apply height_walk in Hw. lia.
Qed.
Lemma replace_ok q c src s es tes : let tgt := q ++ [c] in quiet s -> walk (tree s) tgt = Ok (Dir tes) ->
  walk (tree s) src = Ok (Dir es) -> wf (Dir es) = true -> regular (Dir es) = true -> apart src tgt = true ->
  okrun (replaceDirectory fault clock tgt src) s (fun t _ => (exists es', walk t tgt = Ok (Dir es') /\ same (Dir es) (Dir es'))
    /\ forall x, apart tgt x = true -> walk t x = walk (tree s) x).
Proof.
  intros tgt Hq Ht Hs Hwf Hr Ha. unfold replaceDirectory. eapply ok_bind; [by eapply clear_ok|]. intros s1 [] Hq1 [Hw1 Hf1].
  eapply ok_mono; [apply (copy_tree_ok src tgt s1 es); try done|].
  - rewrite Hf1; [done|by rewrite apart_sym].
  - unfold tgt in *. rewrite walk_app in Hw1. destruct (walk (tree s1) q) as [[| |qes]|] eqn:E; try done.
    cbn in Hw1. exists q, c, qes. split; [done|]. split; [done|]. destruct (aget qes c) as [n|]; [|done]. injection Hw1 as ->. by right.
  - intros t [] [Hes Hf]. split; [done|]. intros x Hx. by rewrite Hf, Hf1.
Qed.
End facts.
