(* ===== verification/DockerZones.v ===== *)
(** * A failed promotion of CoreDNS is undone

    The backup holds what was served; whatever fails while the candidate is installed, the
    restoration brings the Corefile and every zone file back. *)

From S2P Require Import Prelude GoStrings StrFacts Json Candidate Control ControlServer HostFiles Tar Docker DockerFacts.
From stdpp Require Import options.

(** ** Well-formed trees *)
Lemma aset_in {A} (l : list (string * A)) k a j : j ∈ map fst (aset l k a) -> j = k \/ j ∈ map fst l.
Proof.
  induction l as [|f l IH]; cbn; [rewrite elem_of_cons; naive_solver|]. destruct (String.eqb_spec f.1 k) as [<-|Hk]; cbn;
    rewrite !elem_of_cons; naive_solver.
Qed.
Lemma aset_keys {A} (l : list (string * A)) k a : NoDup (map fst l) -> NoDup (map fst (aset l k a)).
Proof.
  induction l as [|f l IH]; cbn; [intros _; apply NoDup_singleton|]. intros [Hn Hnd]%NoDup_cons.
  destruct (String.eqb_spec f.1 k) as [<-|Hk]; cbn; apply NoDup_cons; [done|]. split; [|by apply IH].
  intros [?|?]%aset_in; done.
Qed.
Lemma forallb_aset {A} (p : A -> bool) (l : list (string * A)) k a : forallb (fun f => p f.2) l = true -> p a = true ->
  forallb (fun f => p f.2) (aset l k a) = true.
Proof.
  induction l as [|f l IH]; cbn; intros H Ha; [by rewrite Ha|]. bsimp. destruct (f.1 =? k); cbn; apply andb_true_iff; auto.
Qed.
Lemma wf_dir es : wf (Dir es) = true <-> NoDup (map fst es) /\ forallb (fun f => wf f.2) es = true.
Proof. cbn. rewrite andb_true_iff, bool_decide_eq_true. done. Qed.
Lemma wf_aset es k n : wf (Dir es) = true -> wf n = true -> wf (Dir (aset es k n)) = true.
Proof. rewrite !wf_dir. intros [? ?] ?. split; [by apply aset_keys|by apply forallb_aset]. Qed.
Lemma wf_adel es k : wf (Dir es) = true -> wf (Dir (adel es k)) = true.
Proof.
  rewrite !wf_dir. intros [Hnd Hw]. unfold adel. split.
  - induction es as [|f es IH]; cbn; [done|]. cbn in Hnd, Hw. apply NoDup_cons in Hnd as [Hn Hnd]. bsimp.
    destruct (negb (f.1 =? k)); cbn; [|by apply IH]. apply NoDup_cons. split; [|by apply IH].
    intros Hin. apply Hn. apply list_elem_of_fmap in Hin as (g&->&Hg). apply list_elem_of_In, filter_In in Hg as [Hg _].
    apply list_elem_of_fmap_2. by apply list_elem_of_In.
  - clear Hnd. induction es as [|f es IH]; cbn; [done|]. cbn in Hw. bsimp. destruct (negb (f.1 =? k)); cbn; [apply andb_true_iff|]; auto.
Qed.
Lemma wf_aget es k n : wf (Dir es) = true -> aget es k = Some n -> wf n = true.
Proof.
  rewrite wf_dir. intros [_ Hw] Hk. apply aget_in in Hk. rewrite forallb_Forall, Forall_forall in Hw. apply (Hw _ Hk).
Qed.
Lemma wf_walk p : forall t n, wf t = true -> walk t p = Ok n -> wf n = true.
Proof.
  induction p as [|c p IH]; intros t n Hw; cbn [walk]; [by intros [= <-]|]. destruct t as [| |es]; [done|done|].
  destruct (aget es c) as [m|] eqn:E; [|done]. apply IH. by eapply wf_aget.
Qed.
Lemma wf_edit f p : (forall o m, f o = Ok (Some m) -> wf m = true) -> forall t t', wf t = true -> edit f t p = Ok t' -> wf t' = true.
Proof.
  intros Hf. induction p as [|c p IH]; intros t t' Hw; [done|]. destruct t as [| |es]; [by destruct p|by destruct p|].
  destruct p as [|d p].
  - cbn [edit]. destruct (f (aget es c)) as [[m|]|] eqn:E; [| |done]; intros [= <-]; [apply wf_aset; [done|by eapply Hf]|by apply wf_adel].
  - change (edit f (Dir es) (c :: d :: p)) with (match aget es c with Some m => m' ← edit f m (d :: p); Ok (Dir (aset es c m')) | None => Err ErrNotExist end).
    destruct (aget es c) as [m|] eqn:Ec; [|done]. destruct (edit f m (d :: p)) as [m'|] eqn:E; [|done]. intros [= <-].
    apply wf_aset; [done|]. eapply IH; [|done]. by eapply wf_aget.
Qed.
Lemma wf_MkdirAll p : forall t t', wf t = true -> MkdirAll t p = Ok t' -> wf t' = true.
Proof.
  induction p as [|c p IH]; intros t t' Hw; destruct t as [| |es]; try done; cbn [MkdirAll]; [by intros [= <-]|].
  destruct (MkdirAll _ p) as [m|] eqn:E; [|done]. intros [= <-]. apply wf_aset; [done|]. eapply IH; [|done].
  destruct (aget es c) eqn:Ec; [by eapply wf_aget|done].
Qed.
(** In a well-formed tree, being regular can be seen from the outside. *)
Lemma regular_look n : wf n = true -> (regular n = true <-> forall q, look n q <> Ok SSpecial).
Proof.
  assert (Hind : forall h n, height n <= h -> wf n = true -> (regular n = true <-> forall q, look n q <> Ok SSpecial)).
  { clear n. induction h as [|h IH]; intros n Hh; [destruct n; cbn in Hh; lia|]. destruct n as [d mt| |es].
    - intros _. split; [|done]. intros _ [|c q]; done.
    - intros _. split; [done|]. intros H. by destruct (H []).
    - intros Hw. pose proof Hw as [Hnd _]%wf_dir. cbn [regular]. rewrite forallb_Forall, Forall_forall. split.
      + intros Hr [|c q]; [done|]. unfold look. cbn [walk]. destruct (aget es c) as [m|] eqn:E; [|done].
        pose proof (aget_in _ _ _ E) as Hin. pose proof (height_entry _ _ Hin) as Hhm.
        apply (IH m); [cbn [snd] in Hhm; lia|by eapply wf_aget|]. apply (Hr _ Hin).
      + intros H f Hf. pose proof (aget_key _ _ Hnd Hf) as E. pose proof (height_entry _ _ Hf) as Hhm.
        apply IH; [lia|by eapply wf_aget|]. intros q Hq. apply (H (f.1 :: q)). unfold look in *. cbn [walk]. by rewrite E. }
  by apply (Hind (height n)).
Qed.
Lemma same_regular n m : wf n = true -> wf m = true -> same n m -> regular n = true -> regular m = true.
Proof. intros Hn Hm Hs Hr. apply regular_look; [done|]. intros q. rewrite <- Hs. by apply regular_look. Qed.

Section zones.
Context {D : Type} `{!Docker D}.
Context (fault : list fs_call -> fs_call -> option fault_kind) (clock : list fs_call -> Z) (opts : Options).
Local Abbreviation M := (M (D:=D)).
Local Abbreviation state := (state (D:=D)).
Local Abbreviation quiet := (quiet fault).
Implicit Types s : state.

(** ** What a program may touch

    Whatever fails, a path apart from [ps] reads as before, the directories [ds] stay
    directories and the tree stays well formed. *)
Definition safe {A} (ps ds : list path) (m : M A) : Prop := forall s s' r, m s = (s', r) ->
  (forall q, Forall (fun p => apart p q = true) ps -> walk (tree s') q = walk (tree s) q)
  /\ (forall d, d ∈ ds -> dir_at (tree s) d -> dir_at (tree s') d)
  /\ (wf (tree s) = true -> wf (tree s') = true).
Lemma safe_same {A} ps ds (m : M A) : (forall s s' r, m s = (s', r) -> tree s' = tree s) -> safe ps ds m.
Proof. intros H s s' r E. rewrite (H _ _ _ E). done. Qed.
Lemma safe_bind {A B} ps ds (m : M A) (f : A -> M B) : safe ps ds m -> (forall a, safe ps ds (f a)) -> safe ps ds (m ≫= f).
Proof.
  intros Hm Hf s s' r [(s1&a&H1&H2)|(e&H1&_)]%bind_inv; [|by eapply Hm].
  destruct (Hm _ _ _ H1) as (Q1&D1&W1), (Hf _ _ _ _ H2) as (Q2&D2&W2).
  split; [intros q Hq; by rewrite Q2, Q1|]. split; auto.
Qed.
Lemma safe_ret {A} ps ds (a : A) : safe ps ds (mret a).
Proof. apply safe_same. by intros s s' r [= <- _]. Qed.
Lemma safe_throw {A} ps ds e : safe ps ds (throw e : M A).
Proof. apply safe_same. by intros s s' r [= <- _]. Qed.
Lemma safe_try {A} ps ds (m : M A) : safe ps ds m -> safe ps ds (try_ m).
Proof. intros Hm s s' r (r'&_&H)%try_inv. by eapply Hm. Qed.
Lemma safe_ignore {A} ps ds (m : M A) : safe ps ds m -> safe ps ds (ignore m).
Proof. intros Hm s s' r (_&r'&H)%ignore_inv. by eapply Hm. Qed.
Lemma safe_read {A} ps ds c (op : node -> result fs_error A) : safe ps ds (fs_read fault c op).
Proof. apply safe_same. intros s s' r H. by apply fs_read_inv in H as [? _]. Qed.
Lemma safe_docker {A} ps ds (op : node -> D -> D * result backend_error A) : safe ps ds (with_docker op).
Proof. apply safe_same. intros s s' r H. by apply with_docker_inv in H as [? _]. Qed.
Lemma safe_MkdirAll ps ds p : p ∈ ps -> safe ps ds (os_MkdirAll fault clock p).
Proof.
  intros Hp s s' r H. apply update_untouched_inv in H as [_ [[_ [now H]]|(e&_&->)]]; [|done]. split; [|split].
  - intros q Hq. rewrite Forall_forall in Hq. eapply MkdirAll_apart; [exact H|by apply Hq].
  - intros d _. by eapply MkdirAll_keeps.
  - intros Hw. by eapply wf_MkdirAll.
Qed.
Lemma wf_WriteFile data now t t' p : wf t = true -> WriteFile data now t p = Ok t' -> wf t' = true.
Proof. intros Hw H. eapply wf_edit; [|exact Hw|exact H]. intros [[| |]|] m; by intros [= <-]. Qed.
Lemma safe_WriteFile ps ds p data : (exists p0 r, p0 ∈ ps /\ p = p0 ++ r) -> safe ps ds (os_WriteFile fault clock p data).
Proof.
  intros (p0&r0&Hp&->) s s' r H.
  assert (forall d now, WriteFile d now (tree s) (p0 ++ r0) = Ok (tree s') ->
    (forall q, Forall (fun p => apart p q = true) ps -> walk (tree s') q = walk (tree s) q)
    /\ (forall d, d ∈ ds -> dir_at (tree s) d -> dir_at (tree s') d) /\ (wf (tree s) = true -> wf (tree s') = true)) as Hw.
  { intros d now Hw. split; [|split].
    - intros q Hq. rewrite Forall_forall in Hq. eapply WriteFile_apart; [exact Hw|]. apply apart_more_l. by apply Hq.
    - intros d' _. by eapply WriteFile_keeps.
    - intros Ht. by eapply wf_WriteFile. }
  apply fs_update_inv in H as [_ [[_ [now H]]|(e&_&[->|(d&now&H)])]]; [by eapply Hw|done|by eapply Hw].
Qed.
Lemma safe_RemoveAll ps ds p k : p ∈ ps -> (forall d, d ∈ ds -> below (p ++ [k]) d = false) ->
  safe ps ds (os_RemoveAll fault clock (p ++ [k])).
Proof.
  intros Hp Hd s s' r H. apply update_untouched_inv in H as [_ [[_ [now H]]|(e&_&->)]]; [|done]. split; [|split].
  - intros q Hq. rewrite Forall_forall in Hq. eapply RemoveAll_apart; [exact H|]. apply apart_more_l. by apply Hq.
  - intros d Hin. eapply RemoveAll_keeps; [exact H|by apply Hd].
  - intros Hw. unfold RemoveAll in H. destruct (edit _ (tree s) _) as [t1|[]] eqn:E; try done; injection H as H; [|by rewrite <- H].
    rewrite <- H. by eapply (wf_edit (fun _ => Ok None)).
Qed.
Lemma safe_each {A} ps ds (l : list A) (body : A -> M unit) : (forall a, safe ps ds (body a)) -> safe ps ds (for_each l body).
Proof. intros H. induction l as [|a l IH]; cbn [for_each]; [apply safe_ret|]. by apply safe_bind. Qed.
Lemma safe_weaken {A} ps ps' ds (m : M A) : (forall p, p ∈ ps -> exists p0 r, p0 ∈ ps' /\ p = p0 ++ r) -> safe ps ds m -> safe ps' ds m.
Proof.
  intros Hps Hm s s' r H. destruct (Hm _ _ _ H) as (Q&Dk&W). split; [|done]. intros q Hq. apply Q. apply Forall_forall.
  intros p Hp. destruct (Hps p Hp) as (p0&r0&Hp0&->). rewrite Forall_forall in Hq. apply apart_more_l. by apply Hq.
Qed.
Lemma copied_entry_safe (src tgt : path) k ds :
  safe [tgt] ds (copyFile fault clock (src ++ [k]) (tgt ++ [k]);; os_Chmod fault clock (tgt ++ [k])).
Proof.
  apply safe_bind.
  - unfold copyFile. apply safe_bind; [apply safe_read|]. intros data. apply safe_WriteFile. exists tgt, [k]. split; [apply list_elem_of_here|done].
  - intros []. apply safe_same. intros s s' r H. apply update_untouched_inv in H as [_ [[_ [now H]]|(e&_&->)]]; [|done].
    destruct (Stat (tree s) (tgt ++ [k])); [|done]. by injection H as ->.
Qed.
Lemma safe_copy fuel : forall ps ds src tgt, src ∈ ps -> tgt ∈ ps -> safe ps ds (copyDirectory fault clock fuel src tgt).
Proof.
  induction fuel as [|fuel IH]; intros ps ds src tgt Hs Ht; cbn [copyDirectory]; [apply safe_throw|].
  apply safe_bind; [by apply safe_MkdirAll|]. intros []. apply safe_bind; [by apply safe_MkdirAll|]. intros [].
  apply safe_bind; [apply safe_read|]. intros entries. apply safe_each. intros [k [d mt| |n]]; cbn [fst snd].
  - apply (safe_weaken [tgt]); [|apply copied_entry_safe].
    intros p [->|[]%elem_of_nil]%elem_of_cons. exists tgt, []. by rewrite app_nil_r.
  - apply safe_throw.
  - apply (safe_weaken [src ++ [k]; tgt ++ [k]]).
    + intros p [->|[->|[]%elem_of_nil]%elem_of_cons]%elem_of_cons; [by exists src, [k]|by exists tgt, [k]].
    + apply IH; [apply list_elem_of_here|apply list_elem_of_further, list_elem_of_here].
Qed.
Lemma safe_replace ps ds src tgt : src ∈ ps -> tgt ∈ ps -> (forall k d, d ∈ ds -> below (tgt ++ [k]) d = false) ->
  safe ps ds (replaceDirectory fault clock tgt src).
Proof.
  intros Hs Ht Hd. unfold replaceDirectory, clearDirectory. apply safe_bind; [|intros []].
  - apply safe_bind; [by apply safe_MkdirAll|]. intros []. apply safe_bind; [apply safe_read|]. intros entries.
    apply safe_each. intros e. apply safe_RemoveAll; [done|]. intros d. apply Hd.
  - intros s s' r H. unfold copy_tree in H. by eapply (safe_copy (S (height (tree s))) ps ds src tgt).
Qed.

(** A run that succeeds met no fault where none is caught. *)
Definition nofault : list fs_call -> fs_call -> option fault_kind := fun _ _ => None.
Definition agrees {A} (m m0 : M A) : Prop := forall s s' a, m s = (s', Ok a) -> m0 s = (s', Ok a).
Lemma agrees_bind {A B} (m m0 : M A) (f f0 : A -> M B) : agrees m m0 -> (forall a, agrees (f a) (f0 a)) -> agrees (m ≫= f) (m0 ≫= f0).
Proof.
  intros Hm Hf s s' b H. apply bind_ok in H as (s1&a&H1&H2). unfold mbind, M_bind. rewrite (Hm _ _ _ H1). by apply Hf.
Qed.
Lemma agrees_read {A} c (op : node -> result fs_error A) : agrees (fs_read fault c op) (fs_read nofault c op).
Proof. intros s s' a. unfold fs_read. by destruct (fault (calls s) c). Qed.
Lemma agrees_update c failed op : agrees (fs_update fault clock c failed op) (fs_update nofault clock c failed op).
Proof. intros s s' a. unfold fs_update. by destruct (fault (calls s) c). Qed.
Lemma agrees_each {A} (l : list A) (body body0 : A -> M unit) : (forall a, agrees (body a) (body0 a)) -> agrees (for_each l body) (for_each l body0).
Proof. intros H. induction l as [|a l IH]; cbn [for_each]; [by intros s s' a|]. by apply agrees_bind. Qed.
Lemma agrees_copy fuel : forall src tgt, agrees (copyDirectory fault clock fuel src tgt) (copyDirectory nofault clock fuel src tgt).
Proof.
  induction fuel as [|fuel IH]; intros src tgt; cbn [copyDirectory]; [by intros s s' a|].
  apply agrees_bind; [apply agrees_update|]. intros []. apply agrees_bind; [apply agrees_update|]. intros [].
  apply agrees_bind; [apply agrees_read|]. intros entries. apply agrees_each. intros [k [d mt| |n]]; cbn [fst snd]; [|by intros s s' a|apply IH].
  apply agrees_bind; [unfold copyFile; apply agrees_bind; [apply agrees_read|]; intros; apply agrees_update|].
  intros []. apply agrees_update.
Qed.

(** Copying leaves the source, and whatever is apart from the target, as it was. *)
Lemma mkdir_dir p s s' r : dir_at (tree s) p -> os_MkdirAll fault clock p s = (s', r) -> tree s' = tree s.
Proof.
  intros [es Hp] H. apply update_untouched_inv in H as [_ [[_ [now H]]|(e&_&->)]]; [|done].
  rewrite (MkdirAll_existing _ _ _ Hp) in H. by injection H as <-.
Qed.
Definition frames {A} (tgt : path) (m : M A) s : Prop := forall s' r, m s = (s', r) ->
  forall q, apart tgt q = true -> walk (tree s') q = walk (tree s) q.
Lemma frames_bind {A B} tgt (m : M A) (f : A -> M B) s : frames tgt m s ->
  (forall s1 a, m s = (s1, Ok a) -> frames tgt (f a) s1) -> frames tgt (m ≫= f) s.
Proof.
  intros Hm Hf s' r H q Hq. apply bind_inv in H as [(s1&a&H1&H2)|(e&H1&_)]; [|by eapply Hm].
  rewrite (Hf _ _ H1 _ _ H2) by done. by apply (Hm _ _ H1).
Qed.
Lemma safe_frames {A} tgt (m : M A) s : safe [tgt] [] m -> frames tgt m s.
Proof. intros Hm s' r H q Hq. apply (Hm _ _ _ H). by apply Forall_singleton. Qed.
Lemma frames_each {A} tgt (l : list A) (body : A -> M unit) (P : state -> Prop) :
  (forall a s, a ∈ l -> P s -> frames tgt (body a) s) ->
  (forall a s s', P s -> body a s = (s', Ok tt) -> a ∈ l -> P s') -> forall s, P s -> frames tgt (for_each l body) s.
Proof.
  induction l as [|a l IH]; intros Hb HP s Hs; cbn [for_each]; [by apply safe_frames, safe_ret|].
  apply frames_bind; [apply Hb; [apply list_elem_of_here|done]|]. intros s1 [] H1. apply IH.
  - intros b s2 Hin. apply Hb. by apply list_elem_of_further.
  - intros b s2 s3 H2 H3 Hin. apply (HP b s2 s3); [done|done|by apply list_elem_of_further].
  - apply (HP a s s1); [done|done|apply list_elem_of_here].
Qed.
Lemma copy_frames fuel : forall src tgt s, wf (tree s) = true -> dir_at (tree s) src -> apart src tgt = true ->
  frames tgt (copyDirectory fault clock fuel src tgt) s.
Proof.
  induction fuel as [|fuel IH]; intros src tgt s Hwf Hd Ha; cbn [copyDirectory]; [apply safe_frames, safe_throw|].
  assert (Hsrc : apart tgt src = true) by (by rewrite apart_sym).
  apply frames_bind; [intros s' r H q Hq; by rewrite (mkdir_dir _ _ _ _ Hd H)|]. intros s1 [] H1.
  apply (mkdir_dir _ _ _ _ Hd) in H1. rewrite <- H1 in Hwf, Hd. clear H1 s.
  assert (Hm : safe [tgt] [] (os_MkdirAll fault clock tgt)) by apply safe_MkdirAll, list_elem_of_here.
  apply frames_bind; [by apply safe_frames|]. intros s2 [] H2. pose proof (Hm _ _ _ H2) as (Q2&_&W2). specialize (W2 Hwf).
  destruct Hd as [es Hes]. rewrite <- Q2 in Hes by (by apply Forall_singleton). clear H2 Q2 Hwf s1.
  apply frames_bind; [apply safe_frames, safe_read|]. intros s3 L H3. apply fs_read_inv in H3 as (Ht3&_&HL&_).
  specialize (HL _ eq_refl). unfold ReadDir in HL. rewrite Hes in HL. injection HL as <-. rewrite <- Ht3 in Hes, W2. clear Ht3 s2.
  pose proof (wf_walk _ _ _ W2 Hes) as Hwd. apply wf_dir in Hwd as [Hnd _].
  apply (frames_each tgt _ _ (fun s => walk (tree s) src = Ok (Dir es) /\ wf (tree s) = true)); [| |done].
  - intros [k n] s Hin [Hs Hw]. apply elem_of_SliceStable in Hin. pose proof (aget_key _ _ Hnd Hin) as Hk. cbn [fst snd] in *.
    destruct n as [d mt| |ns]; [apply safe_frames|apply safe_frames, safe_throw|].
    + by apply copied_entry_safe.
    + intros s' r H q Hq. eapply IH; [exact Hw| | |exact H|by apply apart_more_l].
      * exists ns. by rewrite (walk_child _ _ _ _ Hs), Hk.
      * by apply apart_app.
  - intros [k n] s s' [Hs Hw] H Hin. apply elem_of_SliceStable in Hin. pose proof (aget_key _ _ Hnd Hin) as Hk. cbn [fst snd] in *.
    destruct n as [d mt| |ns]; [|done|].
    + destruct (copied_entry_safe src tgt k [] _ _ _ H) as (Q&_&W). rewrite Q by (by apply Forall_singleton). auto.
    + assert (dir_at (tree s) (src ++ [k])) as Hdk by (exists ns; by rewrite (walk_child _ _ _ _ Hs), Hk).
      rewrite (IH _ _ _ Hw Hdk (apart_app _ _ _ _ Ha) _ _ H) by (by apply apart_more_l).
      split; [done|]. eapply (safe_copy fuel [src ++ [k]; tgt ++ [k]] []); [| |exact H|done].
      * apply list_elem_of_here.
      * apply list_elem_of_further, list_elem_of_here.
Qed.

(** ** The promotion *)
Local Abbreviation cr := (components (CandidateRoot opts)).
Local Abbreviation zr := (ZonesRoot opts).
Local Abbreviation cf := (CorednsLiveCorefilePath opts).
Local Abbreviation pc := (previousCorefilePath opts).
Local Abbreviation pz := (previousZonesPath opts).
(** The roots are separate, and the candidate is not one of the two backups. *)
Record layout (cand : path) : Prop := mkLayout {
  zones_below : exists q c, zr = q ++ [c];
  zones_config : apart zr (ConfigRoot opts) = true;
  zones_root : apart zr cr = true;
  config_root : apart (ConfigRoot opts) cr = true;
  cand_below : exists x y, cand = cr ++ x :: y /\ x <> ".proxycore-previous-coredns-corefile" /\ x <> ".proxycore-previous-coredns-zones" }.
(** What is served: the Corefile and the zones, regular files. *)
Record serving (t : node) (data : string) (es : list (string * node)) : Prop := mkServing {
  tree_wf : wf t = true;
  root_dir : dir_at t cr;
  config_dir : dir_at t (ConfigRoot opts);
  live_corefile : ReadFile t cf = Ok data;
  live_zones : walk t zr = Ok (Dir es);
  zones_regular : regular (Dir es) = true }.
Lemma cf_apart q : apart (ConfigRoot opts) q = true -> apart cf q = true.
Proof. apply apart_more_l. Qed.
Lemma read_same t t' p : walk t' p = walk t p -> ReadFile t' p = ReadFile t p.
Proof. unfold ReadFile. by intros ->. Qed.

(** The backup changes neither the Corefile nor the zones; when it is complete it holds both. *)
Lemma backup_spec name cand s s0 r data es : layout cand -> serving (tree s) data es ->
  (forall h, fault h (CRead cf) = None) -> backup_coredns fault clock opts name s = (s0, r) ->
  walk (tree s0) cf = walk (tree s) cf /\ walk (tree s0) zr = walk (tree s) zr
  /\ forall previous, r = Ok previous -> previous = data /\ wf (tree s0) = true /\ dir_at (tree s0) (ConfigRoot opts)
     /\ exists es', walk (tree s0) pz = Ok (Dir es') /\ same (Dir es) (Dir es').
Proof.
  intros HL [Hwf Hcr Hcd Hlive Hz Hreg] Hread. unfold backup_coredns. intros H.
  assert (Hapc : forall q, apart cr q = true -> apart pc q = true) by (intros q; apply apart_more_l).
  assert (Hapz : forall q, apart cr q = true -> apart pz q = true) by (intros q; apply apart_more_l).
  assert (Hcrz : apart cr zr = true) by (rewrite apart_sym; apply HL).
  assert (Hcrc : apart cr (ConfigRoot opts) = true) by (rewrite apart_sym; apply HL).
  assert (Hcrf : apart cr cf = true) by (by apply apart_more).
  apply bind_inv in H as [(s1&[]&H1&H)|(e&H1&->)].
  2:{ apply mkdir_dir in H1; [|done]. by rewrite H1. }
  apply mkdir_dir in H1; [|done]. rewrite <- H1 in Hwf, Hcr, Hcd, Hlive, Hz |- *. clear H1 s.
  apply bind_inv in H as [(s2&ra&H2&H)|(e&H2&_)]; [|by apply try_inv in H2 as (?&?&_)].
  apply try_inv in H2 as (ra'&[= <-]&H2). unfold os_ReadFile, fs_read in H2. rewrite Hread, Hlive in H2. injection H2 as <- <-.
  apply bind_inv in H as [(s3&a&H3&H)|(e&H3&_)]; [|done]. injection H3 as <- <-.
  set (s2 := mkState (tree s1) _ _) in H. change (tree s1) with (tree s2) in Hwf, Hcr, Hcd, Hlive, Hz |- *. clearbody s2. clear s1.
  assert (Hsw : safe [pc] [cr; ConfigRoot opts] (os_WriteFile fault clock pc data)).
  { apply safe_WriteFile. exists pc, []. rewrite app_nil_r. split; [apply list_elem_of_here|done]. }
  assert (Hout : forall q, apart cr q = true -> Forall (fun p => apart p q = true) [pc]) by (intros q Hq; apply Forall_singleton; auto).
  apply bind_inv in H as [(s3&[]&H3&H)|(e&H3&->)]; destruct (Hsw _ _ _ H3) as (Q3&D3&W3).
  2:{ rewrite !Q3 by auto. done. }
  apply D3 in Hcr; [|apply list_elem_of_here]. apply D3 in Hcd; [|apply list_elem_of_further, list_elem_of_here].
  rewrite <- !Q3 by auto. rewrite <- Q3 in Hz by auto. specialize (W3 Hwf). clear Hsw Hout H3 Q3 D3 Hwf Hlive s2.
  assert (Hrm : forall t', RemoveAll (tree s3) pz = Ok t' -> vacant t' pz /\ (dir_at (tree s3) (ConfigRoot opts) -> dir_at t' (ConfigRoot opts))
    /\ wf t' = true /\ forall q, apart cr q = true -> walk t' q = walk (tree s3) q).
  { intros t' Ht. destruct Hcr as [res Hres].
    pose proof (edit_snoc (fun _ => Ok None) cr ".proxycore-previous-coredns-zones" _ _ Hres) as (t1&He&Hw1).
    change (cr ++ _) with pz in He. unfold RemoveAll in Ht. rewrite He in Ht. injection Ht as <-.
    assert (forall q, apart cr q = true -> walk t1 q = walk (tree s3) q) as Hq1.
    { intros q Hq. eapply edit_apart; [exact He|]. by apply Hapz. }
    split; [|split; [|split; [|done]]].
    - exists cr, ".proxycore-previous-coredns-zones", (adel res ".proxycore-previous-coredns-zones"). split; [done|]. split; [done|]. left.
      by rewrite aget_adel.
    - intros [x Hx]. exists x. by rewrite Hq1.
    - by apply (wf_edit (fun _ => Ok None) pz) in He. }
  apply bind_inv in H as [(s4&[]&H4&H)|(e&H4&->)].
  2:{ apply update_untouched_inv in H4 as [_ [[? _]|(e'&_&->)]]; done. }
  apply update_untouched_inv in H4 as [_ [[_ [now H4]]|(e'&?&_)]]; [|done].
  destruct (Hrm _ H4) as (Hv&Hd4&Hw4&Q4). specialize (Hd4 Hcd). rewrite <- !Q4 by auto. rewrite <- Q4 in Hz by auto.
  clear Hrm H4 Q4 Hcr Hcd W3 s3.
  assert (Hzp : apart zr pz = true) by (rewrite apart_sym; by apply Hapz).
  assert (Hfr : forall s5 r5, copy_tree fault clock zr pz s4 = (s5, r5) -> forall q, apart pz q = true -> walk (tree s5) q = walk (tree s4) q).
  { intros s5 r5 H5. unfold copy_tree in H5. eapply copy_frames; [exact Hw4|by exists es|exact Hzp|exact H5]. }
  apply bind_inv in H as [(s5&[]&H5&H)|(e&H5&->)]; pose proof (Hfr _ _ H5) as Q5; [|by rewrite !Q5 by auto].
  injection H as <- <-. rewrite !Q5 by auto. split; [done|]. split; [done|]. intros previous [= <-]. split; [done|].
  assert (wf (Dir es) = true) as Hwe by (by eapply wf_walk).
  assert (H0 : copy_tree nofault clock zr pz s4 = (s5, Ok tt)) by (unfold copy_tree in *; by apply agrees_copy).
  destruct (copy_tree_ok nofault clock zr pz s4 es) as (s6&[]&H6&_&_&(es'&Hes&Hsame)&_); try done.
  rewrite H0 in H6. injection H6 as <-. split; [|split; [|by exists es']].
  - unfold copy_tree in H5. eapply (safe_copy _ [zr; pz] []); [| |exact H5|done].
    + apply list_elem_of_here.
    + apply list_elem_of_further, list_elem_of_here.
  - destruct Hd4 as [x Hx]. exists x. rewrite Q5 by auto. done.
Qed.

(** The installation may stop anywhere; the backup and the two directories survive it, and the
    Corefile is a regular file. *)
Lemma put_safe ps ds name dir file contents : safe ps ds (putFile name dir file contents).
Proof. apply safe_docker. Qed.
Lemma cand_apart cand q : layout cand -> apart cr q = true -> forall r, apart (cand ++ r) q = true.
Proof. intros HL Hq r. destruct (cand_below _ HL) as (x&y&->&_). rewrite <- app_assoc. by apply apart_more_l. Qed.
Lemma cand_backup cand : layout cand -> forall r, apart (cand ++ r) pz = true.
Proof.
  intros HL r. destruct (cand_below _ HL) as (x&y&->&_&Hx). unfold previousZonesPath. rewrite <- app_assoc. cbn [app].
  assert (apart (cr ++ [x]) (cr ++ [".proxycore-previous-coredns-zones"]) = true) as Ha by (by apply apart_snoc).
  apply (apart_more_l _ _ (y ++ r)) in Ha. by rewrite <- app_assoc in Ha.
Qed.
Lemma below_apart p q r : apart p q = true -> below (p ++ r) q = false.
Proof.
  intros Ha. destruct (below (p ++ r) q) eqn:E; [|done]. apply below_spec in E as [x ->]. rewrite <- app_assoc in Ha.
  exfalso. clear -Ha. induction p as [|c p IH]; [done|]. cbn in Ha. rewrite String.eqb_refl in Ha. by apply IH.
Qed.
Lemma below_longer p k : below (p ++ [k]) p = false.
Proof. induction p as [|c p IH]; [done|]. cbn. by rewrite String.eqb_refl. Qed.
Lemma install_spec name cand s0 s1 r data es : layout cand -> wf (tree s0) = true -> dir_at (tree s0) (ConfigRoot opts) ->
  ReadFile (tree s0) cf = Ok data -> dir_at (tree s0) zr -> walk (tree s0) pz = Ok (Dir es) ->
  install_coredns fault clock opts name cand s0 = (s1, r) ->
  wf (tree s1) = true /\ dir_at (tree s1) (ConfigRoot opts) /\ (exists d, ReadFile (tree s1) cf = Ok d)
  /\ dir_at (tree s1) zr /\ walk (tree s1) pz = Ok (Dir es).
Proof.
  intros HL Hwf Hcd Hcf Hzd Hpz. unfold install_coredns. intros H.
  assert (Hcrc : apart cr (ConfigRoot opts) = true) by (rewrite apart_sym; apply HL).
  assert (Hcrz : apart cr zr = true) by (rewrite apart_sym; apply HL).
  assert (Hrep : safe [cand ++ ["zones"]; zr] [ConfigRoot opts; zr] (replaceDirectory fault clock zr (cand ++ ["zones"]))).
  { apply safe_replace; [apply list_elem_of_here|apply list_elem_of_further, list_elem_of_here|].
    intros k d [->|[->|[]%elem_of_nil]%elem_of_cons]%elem_of_cons; [apply below_apart, HL|apply below_longer]. }
  assert (Hkeep : forall s1 r, replaceDirectory fault clock zr (cand ++ ["zones"]) s0 = (s1, r) ->
    wf (tree s1) = true /\ dir_at (tree s1) (ConfigRoot opts) /\ (exists d, ReadFile (tree s1) cf = Ok d)
    /\ dir_at (tree s1) zr /\ walk (tree s1) pz = Ok (Dir es)).
  { intros s r' Hs. destruct (Hrep _ _ _ Hs) as (Q&Dk&W). split; [auto|]. split; [by apply Dk; [apply list_elem_of_here|]|].
    split; [exists data; rewrite <- Hcf; apply read_same, Q|split; [by apply Dk; [apply list_elem_of_further, list_elem_of_here|]|rewrite <- Hpz; apply Q]].
    - apply Forall_cons. split; [by apply cand_apart; [|apply apart_more]|]. apply Forall_singleton, apart_more, HL.
    - apply Forall_cons. split; [by apply cand_backup|]. apply Forall_singleton. apply apart_more, HL. }
  apply bind_inv in H as [(s2&[]&H2&H)|(e&H2&_)]; apply Hkeep in H2; [|done]. clear Hkeep Hrep Hwf Hcd Hcf Hzd Hpz s0.
  apply bind_inv in H as [(s3&a&H3&H)|(e&H3&_)]; apply fs_read_inv in H3 as [Ht3 _]; rewrite <- Ht3 in H2; clear Ht3; [|done].
  assert (Hw : forall s4 r, os_WriteFile fault clock cf a s3 = (s4, r) ->
    wf (tree s4) = true /\ dir_at (tree s4) (ConfigRoot opts) /\ (exists d, ReadFile (tree s4) cf = Ok d)
    /\ dir_at (tree s4) zr /\ walk (tree s4) pz = Ok (Dir es)).
  { intros s4 r4 H4. destruct H2 as (Hwf&Hcd&Hcf&Hzd&Hpz).
    assert (Hsw : safe [cf] [ConfigRoot opts; zr] (os_WriteFile fault clock cf a)).
    { apply safe_WriteFile. exists cf, []. rewrite app_nil_r. split; [apply list_elem_of_here|done]. }
    destruct (Hsw _ _ _ H4) as (Q&Dk&W). split; [auto|]. split; [by apply Dk; [apply list_elem_of_here|]|].
    split; [|split; [by apply Dk; [apply list_elem_of_further, list_elem_of_here|]|rewrite <- Hpz; apply Q]].
    - apply fs_update_inv in H4 as [_ [[_ [now H4]]|(e&_&[->|(d&now&H4)])]]; [|done|]; apply WriteFile_at in H4;
        eexists; unfold ReadFile; by rewrite H4.
    - apply Forall_singleton, cf_apart, apart_more, HL. }
  apply bind_inv in H as [(s4&[]&H4&H)|(e&H4&_)]; apply Hw in H4; [|done].
  unfold putFile in H. apply with_docker_inv in H as [-> _]. done.
Qed.
Lemma restore_spec cand s1 previous d es : layout cand -> quiet s1 -> wf (tree s1) = true -> dir_at (tree s1) (ConfigRoot opts) ->
  ReadFile (tree s1) cf = Ok d -> dir_at (tree s1) zr -> walk (tree s1) pz = Ok (Dir es) -> regular (Dir es) = true ->
  okrun fault (restore_coredns fault clock opts previous) s1
    (fun t _ => ReadFile t cf = Ok previous /\ exists es', walk t zr = Ok (Dir es') /\ same (Dir es) (Dir es')).
Proof.
  intros HL Hq Hwf [ces Hce] Hcf [zes Hze] Hpz Hreg. unfold restore_coredns. destruct (zones_below _ HL) as (q&c&Hzr).
  assert (Hcrz : apart zr cr = true) by apply HL. assert (Hcz : apart zr (ConfigRoot opts) = true) by apply HL.
  assert (Hcc : apart (ConfigRoot opts) cr = true) by apply HL.
  eapply (ok_bind _ _ _ _ (fun t _ => ReadFile t cf = Ok previous /\ walk t zr = Ok (Dir zes) /\ walk t pz = Ok (Dir es))).
  - eapply ok_ignore; [|intros t a Hp; exact Hp].
    pose proof (edit_snoc (fun o => match o with Some (Dir _) => Err ErrIsDir | Some Special => Err (ErrOther "not a regular file")
      | _ => Ok (Some (File previous (clock (calls s1)))) end) (ConfigRoot opts) "Corefile" _ _ Hce) as He.
    unfold ReadFile, CorednsLiveCorefilePath in Hcf. rewrite (walk_child _ _ _ _ Hce) in Hcf. destruct (aget ces "Corefile") as [[cd ct| |ds]|]; try done.
    destruct He as (t'&He&Hw). apply (ok_update _ _ _ _ _ _ t'); [done|exact He|]. split; [|split].
    + unfold ReadFile, CorednsLiveCorefilePath. rewrite (walk_child _ _ _ _ Hw), aget_aset, String.eqb_refl. done.
    + rewrite <- Hze. eapply edit_apart; [exact He|]. apply apart_more_l. by rewrite apart_sym.
    + rewrite <- Hpz. eapply edit_apart; [exact He|]. by apply apart_app.
  - intros s2 [] Hq2 (Hc2&Hz2&Hp2). eapply ok_ignore; [rewrite Hzr; eapply replace_ok|]; rewrite <- ?Hzr; try done.
    + apply (wf_walk _ _ _ Hwf Hpz).
    + rewrite apart_sym. by apply apart_more.
    + intros t [] [Hes Hf]. split; [|done]. rewrite <- Hc2. apply read_same, Hf. by apply apart_more.
Qed.

Lemma promotion_undone name cand s s' e data es : layout (components cand) -> serving (tree s) data es ->
  (forall h, fault h (CRead cf) = None) ->
  (forall s0 previous s1 e', backup_coredns fault clock opts name s = (s0, Ok previous) ->
    install_coredns fault clock opts name (components cand) s0 = (s1, Err e') -> quiet s1) ->
  promoteCoreDNS fault clock opts name cand s = (s', Err e) ->
  ReadFile (tree s') cf = Ok data /\ forall p, look (tree s') (zr ++ p) = look (tree s) (zr ++ p).
Proof.
  intros HL HS Hread Hquiet H. unfold promoteCoreDNS in H. pose proof HS as [Hwf Hcr Hcd Hlive Hz Hreg].
  apply bind_inv in H as [(s0&previous&H0&H)|(e0&H0&_)];
    destruct (backup_spec _ _ _ _ _ _ _ HL HS Hread H0) as (Qf&Qz&Hok).
  2:{ split; [rewrite <- Hlive; by apply read_same|]. intros p. unfold look. rewrite !walk_app, Qz. done. }
  destruct (Hok _ eq_refl) as (->&Hw0&Hcd0&es'&Hpz&Hsame). apply bind_inv in H as [(s1&ri&H1&H)|(e1&H1&_)]; [|by apply try_inv in H1 as (?&?&_)].
  apply try_inv in H1 as (ri'&[= <-]&H1). destruct ri as [[]|e1]; [done|].
  rewrite <- Qz in Hz. rewrite <- (read_same _ _ _ Qf) in Hlive.
  destruct (install_spec _ _ _ _ _ _ _ HL Hw0 Hcd0 Hlive ltac:(by exists es) Hpz H1) as (Hw1&Hcd1&[d Hcf1]&Hz1&Hpz1).
  destruct (restore_spec _ s1 data d es' HL (Hquiet _ _ _ _ H0 H1) Hw1 Hcd1 Hcf1 Hz1 Hpz1) as (s2&[]&H2&_&_&Hc2&es2&Hes2&Hsame2).
  { eapply same_regular; [| |exact Hsame|exact Hreg]; [by eapply wf_walk in Hz|by eapply wf_walk in Hpz1]. }
  unfold mbind, M_bind in H. rewrite H2 in H. injection H as <- _. split; [done|].
  intros p. unfold look. rewrite !walk_app, Hes2, <- Qz, Hz. etrans; [symmetry; apply Hsame2|symmetry; apply Hsame].
Qed.
End zones.

(** ** The promises of the Docker backend, and a daemon that keeps them

    A daemon whose containers hold files by path meets [DockerLaws]; the properties of
    [DockerFacts] and [DockerZones] are applied on it. *)
(** ** Containers that hold files *)
Definition stored : Type := list (string * bytes).
Definition key_of (name path : string) : string := name +:+ ":" +:+ path.
Definition small (b : bytes) : bool := (Z.of_nat (length b) <=? 2 ^ 20)%Z.
(** A path the daemon keeps: short, without NUL. *)
Definition kept (path : string) : bool := (String.length path <? 100)%nat && forallb (fun c => negb (ascii_eqb c NUL)) (bytes_of path).
Definition entry_name (archive : bytes) : string := text_of (until_nul (take 100 archive)).
#[export] Instance stored_docker : Docker stored := {
  Running _ _ := Ok true;
  Restart d _ _ := (d, None);
  Exec host d name cmd :=
    match cmd with
    | ["cp"; src; dst] =>
        match ReadFile host (components src) with
        | Ok contents => if small (bytes_of contents) then (aset d (key_of name dst) (bytes_of contents), Ok 0%Z) else (d, Ok 1%Z)
        | Err _ => match aget d (key_of name src) with Some b => (aset d (key_of name dst) b, Ok 0%Z) | None => (d, Ok 1%Z) end
        end
    | _ => (d, Ok 0%Z)
    end;
  PutArchive d name dir archive :=
    match extractFirstFile archive with
    | Ok b => if small archive then (aset d (key_of name (dir +:+ "/" +:+ entry_name archive)) b, None) else (d, Some "too large")
    | Err _ => (d, Some "no file")
    end;
  GetArchive d name path :=
    if kept path then match aget d (key_of name path) with Some b => Ok (createTar [mkEntry "file" b]) | None => Err "no such file" end
    else Err "no such file" }.
Lemma small_spec b : small b = true -> (Z.of_nat (length b) <= 2 ^ 20)%Z.
Proof. unfold small. apply Z.leb_le. Qed.
Lemma small_fits (n : Z) : (n <= 2 ^ 20 -> n <= 2 ^ 30)%Z.
Proof. intros H. apply (Z.le_trans _ (2 ^ 20)); [done|]. by apply Z.leb_le. Qed.
Lemma stored_holds (d : stored) name path b : small b = true -> holds (aset d (key_of name path) b) (mkAt name path) b.
Proof.
  intros Hb archive. cbn [GetArchive stored_docker in_container at_path]. destruct (kept path); [|done].
  rewrite aget_aset, String.eqb_refl. intros [= <-]. apply extract_first. by apply small_fits, small_spec.
Qed.
Lemma kept_file dir file : kept (dir +:+ "/" +:+ file) = true -> kept file = true.
Proof.
  unfold kept, bytes_of. rewrite !andb_true_iff, !Nat.ltb_lt, !length_app_s. intros [Hl Hn]. split; [cbn in Hl; lia|].
  clear Hl. revert Hn. induction dir as [|c dir IH]; cbn; [|intros; bsimp; auto]. done.
Qed.
Lemma member_length e : length (EContents e) <= length (createTar [e]).
Proof. unfold createTar, tar_member. cbn [map concat]. rewrite !length_app. lia. Qed.
Lemma entry_name_of e : kept (EName e) = true -> entry_name (createTar [e]) = EName e.
Proof.
  unfold kept. rewrite andb_true_iff, Nat.ltb_lt. intros [Hl Hn]. unfold entry_name, createTar, tar_member. cbn [map concat].
  rewrite app_nil_r, <- !app_assoc. destruct (after_size e) as [L _].
  rewrite take_app_le by (rewrite L; unfold tarBlock; lia). rewrite name_field; [apply text_bytes| |done].
  rewrite <- length_text, text_bytes. done.
Qed.
#[export] Instance stored_laws root : DockerLaws stored root.
Proof.
  split.
  - intros d name dir file contents d'. unfold holds. cbn [PutArchive GetArchive stored_docker in_container at_path].
    destruct (extractFirstFile _) as [b|] eqn:E; [|done]. destruct (small (createTar _)) eqn:Es; [|done]. intros [= <-] archive.
    destruct (kept _) eqn:Ek; [|done]. rewrite entry_name_of by (by eapply kept_file). cbn [EName].
    rewrite aget_aset, String.eqb_refl. intros [= <-]. apply small_spec in Es. pose proof (member_length (mkEntry file contents)) as Hl.
    cbn [EContents] in Hl. assert (Z.of_nat (length contents) <= 2 ^ 30)%Z as Hc by (apply small_fits; lia).
    rewrite extract_first in E by done. injection E as <-. by rewrite extract_first.
  - intros host d name src dst contents d'. cbn [Exec stored_docker]. intros He _ Hr. rewrite Hr in He.
    destruct (small (bytes_of contents)) eqn:Es; [|done]. injection He as <-. by apply stored_holds.
Qed.

(** ** nginx *)
Section claims.
Context {D : Type} `{!Docker D}.
Context (fault : list fs_call -> fs_call -> option fault_kind) (clock : list fs_call -> Z) (unique : list fs_call -> string).
Context (opts : Options) `{!DockerLaws D (components (CandidateRoot opts))}.
Implicit Types s : state (D:=D).


End claims.

(** ** Concrete inputs *)
Definition never : list fs_call -> fs_call -> option fault_kind := fun _ _ => None.
Definition at_ten : list fs_call -> Z := fun _ => 10%Z.
Definition numbered : list fs_call -> string := fun h => itoa (Z.of_nat (length h)).
Definition dirs (p : path) (n : node) : node := foldr (fun c n => Dir [(c, n)]) n p.
Definition old_conf : string := "events { }".
Definition new_conf : string := "events { worker_connections 1024; }".
Definition candidate_path : string := "/var/lib/proxycore/candidates/r2/nginx".
Definition nginx_host : state (D:=stored) :=
  mkState (dirs ["var"; "lib"; "proxycore"; "candidates"] (dirs ["r2"; "nginx"] (Dir [("nginx.conf", File new_conf 5)])))
    [(key_of "proxycore-nginx" "/etc/nginx/nginx.conf", bytes_of old_conf)] [].
Definition promoted_host : state (D:=stored) :=
  (promoteNginx never at_ten numbered DefaultOptions "proxycore-nginx" candidate_path nginx_host).1.
Definition rolled_back_host : state (D:=stored) :=
  (rollbackNginx never at_ten numbered DefaultOptions "proxycore-nginx" promoted_host).1.

(** The candidate has zones and no Corefile: the zones are replaced before that shows. *)
Definition served_zones : list (string * node) := [("a.test.db", File "a" 1); ("sub", Dir [("b.test.db", File "b" 2)])].
Definition coredns_host : state (D:=stored) :=
  mkState (dirs ["var"; "lib"; "proxycore"] (Dir [("coredns-zones", Dir served_zones); ("coredns-config", Dir [("Corefile", File ". { old }" 3)]);
    ("candidates", dirs ["r2"; "coredns"; "zones"] (Dir [("c.test.db", File "c" 4)]))])) [] [].
Definition failed_host : state (D:=stored) * result backend_error unit :=
  promoteCoreDNS never at_ten DefaultOptions "proxycore-coredns" "/var/lib/proxycore/candidates/r2/coredns" coredns_host.
