(* ===== verification/Revisions.v ===== *)
(** * The revision store (worker/revisions/revisions.go)

    Reading the newest and the applied revision, and marking one applied: the
    revision's stamp and the installation settings' pointer in one transaction. *)

From S2P Require Import Prelude StrFacts StoreFacts GoStrings Json JsonText Timestamp Model Identity Jobs Store.
From stdpp Require Import options.

Record Revision := mkRevision {
  RID : string; RevisionNumber : Z; RChecksum : string; RSnapshot : string; RActor : option string; RSource : string;
  RPrimary : option string; RNode : option string; RSourceRevision : option string; RHash : option string;
  RSnapshotVersion : option Z; RReplicationVersion : option Z; RLeadership : option Z;
  RCreatedAt : time; AppliedAt : option time }.
#[global] Instance Revision_eq_dec : EqDecision Revision. Proof. solve_decision. Defined.

(** [decode] checks no NUL: the key's own syntax excludes it. *)
Definition decode (key : string) : stored time := decode_key key.
Definition decode_applied (o : option string) : stored (option time) :=
  match o with Some k => t ← decode k; mret (Some t) | None => mret None end.

Definition scan (r : RevisionRow) : stored Revision :=
  ensure (uuidPattern (v_id r)) ErrJobUUID;;
  ensure (validSource (v_source r)) ErrJobDomain;;
  ensure (int32_ok (Some (v_number r))) ErrJobField;;
  ensure (negb (has_nul (v_checksum r)) && json_column (v_snapshot r)) ErrJobField;;
  created ← decode (v_created r);
  applied ← decode_applied (v_applied r);
  ensure (opt_all uuidPattern (v_actor r) && opt_all uuidPattern (v_primary r) && opt_all uuidPattern (v_node r)
          && opt_all uuidPattern (v_source_revision r)) ErrJobUUID;;
  ensure (opt_all (fun s => negb (has_nul s)) (v_hash r)) ErrJobField;;
  ensure (int32_ok (v_snapshot_version r) && int32_ok (v_replication_version r)) ErrJobField;;
  mret (mkRevision (v_id r) (v_number r) (v_checksum r) (v_snapshot r) (v_actor r) (v_source r) (v_primary r) (v_node r)
    (v_source_revision r) (v_hash r) (v_snapshot_version r) (v_replication_version r) (v_leadership r) created applied).
(** [one]: no row is no revision. *)
Definition one (row : option RevisionRow) : stored (option Revision) :=
  match row with None => mret None | Some r => revision ← scan r; mret (Some revision) end.

(** ** Reading *)
Definition Get (db : database) (id : string) : stored (option Revision) :=
  one (find_first (fun r => v_id r =? id) (config_revisions db)).
Definition higher (a b : RevisionRow) : bool := (v_number b <? v_number a)%Z.
Definition latest_row (db : database) : option RevisionRow := head (SliceStable higher (config_revisions db)).
Definition Latest (db : database) : stored (option Revision) := one (latest_row db).

(** The join of the applied jobs with their stamped revisions, and its order:
    [coalesce(j.finished_at, j.created_at) DESC, j.created_at DESC]. *)
Definition job_key (j : JobRow) : string := default (j_created j) (j_finished j).
Definition applied_join (db : database) : list (JobRow * RevisionRow) :=
  List.filter (fun '(j, r) => (v_id r =? j_revision j) && (j_status j =? Applied)
                 && match v_applied r with Some _ => true | None => false end)
    (list_prod (apply_jobs db) (config_revisions db)).
Definition later (a b : JobRow * RevisionRow) : bool :=
  match Compare (job_key a.1) (job_key b.1) with
  | Gt => true
  | Eq => less_s (j_created b.1) (j_created a.1)
  | Lt => false
  end.
Definition LatestApplied (db : database) : stored (option Revision) :=
  found ← one (option_map snd (head (SliceStable later (applied_join db))));
  match found with
  | Some r => mret (Some r)
  | None =>
      latest ← Latest db;
      match latest with
      | Some r => match AppliedAt r with Some _ => mret (Some r) | None => mret None end
      | None => mret None
      end
  end.

(** ** Schema constraints *)
Definition revision_row_ok (r : RevisionRow) : bool :=
  uuidPattern (v_id r) && int32_ok (Some (v_number r)) && negb (has_nul (v_checksum r)) && json_column (v_snapshot r)
  && opt_all uuidPattern (v_actor r) && timestamp_column (v_created r) && opt_all timestamp_column (v_applied r)
  && validSource (v_source r) && opt_all uuidPattern (v_primary r) && opt_all uuidPattern (v_node r)
  && opt_all uuidPattern (v_source_revision r) && opt_all (fun s => negb (has_nul s)) (v_hash r)
  && int32_ok (v_snapshot_version r) && int32_ok (v_replication_version r).
Definition settings_row_ok (s : SettingsRow) : bool :=
  opt_all (fun s => negb (has_nul s)) (s_current s) && timestamp_column (s_created s) && timestamp_column (s_updated s).

(** ** Marking a revision applied *)
Definition stamp_row (key : string) (r : RevisionRow) : RevisionRow :=
  mkRevisionRow (v_id r) (v_number r) (v_checksum r) (v_snapshot r) (v_actor r) (v_created r) (Some key) (v_source r)
    (v_primary r) (v_node r) (v_source_revision r) (v_hash r) (v_snapshot_version r) (v_replication_version r) (v_leadership r).
Definition update_revisions (p : RevisionRow -> bool) (f : RevisionRow -> RevisionRow) (l : list RevisionRow)
    : stored (list RevisionRow * list RevisionRow) :=
  ensure (forallb (fun r => revision_row_ok (f r)) (List.filter p l)) ErrConstraint;;
  mret (map (fun r => if p r then f r else r) l, map f (List.filter p l)).
(** [INSERT ... ON CONFLICT DO NOTHING], then [UPDATE]. *)
Definition point_settings (stamp key id : string) (s : option SettingsRow) : stored (option SettingsRow) :=
  let row := default (mkSettingsRow None "[]" None stamp stamp) s in
  let row' := mkSettingsRow (Some id) (s_forwarding row) (s_pool row) (s_created row) key in
  ensure (settings_row_ok row') ErrConstraint;;
  mret (Some row').
Definition MarkApplied (db : database) (now : time) (id : string) (appliedAt : time) : database * stored Revision :=
  let appliedAt := if decide (appliedAt = zero_time) then now else appliedAt in
  match encodeTime appliedAt with
  | Err e => (db, Err e)
  | Ok key =>
      Write db now (fun stamp db =>
        '(rows, changed) ← update_revisions (fun r => v_id r =? id) (stamp_row key) (config_revisions db);
        revision ← one (head changed);
        match revision with
        | None => Err (ErrRevisionNotFound id)
        | Some revision =>
            settings' ← point_settings stamp key id (settings db);
            mret (mkDatabase (apply_jobs db) rows (users db) settings', revision)
        end)
  end.

(** ** Facts: the rows are read, the reconcile target, marking a revision applied *)

Lemma decode_applied_ok o : opt_all timestamp_column o = true -> exists t, decode_applied o = Ok t.
Proof.
  destruct o as [k|]; cbn; [|by eexists]. unfold decode. intros [t Ht]%timestamp_column_decodes. rewrite Ht. by eexists.
Qed.
Lemma scan_ok r : revision_row_ok r = true -> exists v, scan r = Ok v.
Proof.
  unfold revision_row_ok, scan. intros H. rewrite !andb_true_iff in H. destruct_and!.
  rewrite !ensure_true; rewrite ?andb_true_iff; try (repeat split; done).
  repeat match goal with
    | Hx : timestamp_column (v_created r) = true |- _ => apply timestamp_column_decodes in Hx as [? Hx]
    | Hx : opt_all timestamp_column (v_applied r) = true |- _ => apply decode_applied_ok in Hx as [? Hx]
    end.
  unfold decode. repeat match goal with Hx : _ = Ok _ |- _ => rewrite Hx; clear Hx end.
  cbn [mbind result_bind]. by eexists.
Qed.
Lemma scan_fields r v : scan r = Ok v ->
  RID v = v_id r /\ RevisionNumber v = v_number r /\ RChecksum v = v_checksum r /\ RSnapshot v = v_snapshot r
  /\ decode_applied (v_applied r) = Ok (AppliedAt v) /\ (is_Some (AppliedAt v) <-> is_Some (v_applied r)).
Proof.
  unfold scan. intros H. do 4 (apply bind_Ok in H as (?&_&H)). apply bind_Ok in H as (c&_&H).
  apply bind_Ok in H as (a&Ha&H). do 3 (apply bind_Ok in H as (?&_&H)). apply (proj1 (ret_Ok _ _)) in H. subst v.
  cbn. repeat split; try done.
  - destruct (v_applied r); [by eexists|]. by injection Ha as <-; intros [].
  - destruct (v_applied r); [|by intros []]. cbn in Ha. apply bind_Ok in Ha as (t&_&Ha).
    apply (proj1 (ret_Ok _ _)) in Ha. subst a. by eexists.
Qed.

(** ** The newest and the applied revision *)
Lemma one_Ok o v : one o = Ok v <->
  match o, v with None, None => True | Some r, Some v => scan r = Ok v | _, _ => False end.
Proof.
  unfold one. destruct o as [r|]; [|destruct v; [by split|by split; [intros _|]]].
  rewrite bind_Ok. split.
  - intros (w&Hw&H). apply (proj1 (ret_Ok _ _)) in H. by subst v.
  - destruct v as [v|]; [|done]. intros H. exists v. split; [done|]. by apply ret_Ok.
Qed.

Lemma higher_asym a b : higher a b = true -> higher b a = false.
Proof. unfold higher. rewrite Z.ltb_lt, Z.ltb_ge. lia. Qed.
Lemma higher_ge_trans a b c : higher b a = false -> higher c b = false -> higher c a = false.
Proof. unfold higher. rewrite !Z.ltb_ge. lia. Qed.

Lemma Latest_Ok db v : Latest db = Ok v ->
  match v with
  | None => config_revisions db = []
  | Some v => exists r, r ∈ config_revisions db /\ scan r = Ok v
      /\ Forall (fun x => (v_number x <= v_number r)%Z) (config_revisions db)
  end.
Proof.
  unfold Latest. intros H%one_Ok. destruct (latest_row db) as [r|] eqn:E; destruct v as [v|]; try done.
  - apply (SliceStable_head_Some higher higher_asym higher_ge_trans) in E as [Hr Hall].
    exists r. split_and!; [done..|]. eapply Forall_impl; [exact Hall|]. intros x. unfold higher. rewrite Z.ltb_ge. lia.
  - by apply SliceStable_head_None in E.
Qed.

Lemma later_asym a b : later a b = true -> later b a = false.
Proof.
  unfold later. rewrite (Compare_opp (job_key a.1) (job_key b.1)). destruct (Compare (job_key a.1) (job_key b.1)); cbn [CompOpp];
    [apply less_s_asym|discriminate|reflexivity].
Qed.
Lemma later_ge_trans a b c : later b a = false -> later c b = false -> later c a = false.
Proof.
  unfold later. intros H1 H2.
  destruct (Compare (job_key b.1) (job_key a.1)) eqn:E1; [apply Compare_Eq in E1| |done];
    (destruct (Compare (job_key c.1) (job_key b.1)) eqn:E2; [apply Compare_Eq in E2| |done]).
  - rewrite E2, E1, Compare_refl. by eapply less_s_ge_trans.
  - rewrite E1 in E2. by rewrite E2.
  - rewrite E2. by rewrite E1.
  - by rewrite (Compare_Lt_trans _ _ _ E2 E1).
Qed.

Lemma applied_join_elem db j r : (j, r) ∈ applied_join db <->
  j ∈ apply_jobs db /\ r ∈ config_revisions db /\ v_id r = j_revision j /\ j_status j = Applied /\ is_Some (v_applied r).
Proof.
  unfold applied_join. rewrite list_elem_of_In, filter_In, in_prod_iff, <- !list_elem_of_In.
  rewrite !andb_true_iff, !String.eqb_eq. destruct (v_applied r); split; intros; destruct_and?;
    repeat split; try done; by match goal with H : is_Some None |- _ => destruct H end.
Qed.

(** The reconcile target. When an applied job has a stamped revision, it is the
    revision of the applied job that finished last (created last, when it never
    finished); otherwise the revision of highest number, if it is stamped. It is
    always a stamped revision of the table, and there is none only when neither
    rule finds one. *)
Theorem LatestApplied_spec db o : LatestApplied db = Ok o ->
  match o with
  | Some v => is_Some (AppliedAt v) /\ exists r, r ∈ config_revisions db /\ scan r = Ok v
      /\ ((exists j, (j, r) ∈ applied_join db /\ Forall (fun x => later x (j, r) = false) (applied_join db))
          \/ applied_join db = [] /\ Forall (fun x => (v_number x <= v_number r)%Z) (config_revisions db))
  | None => applied_join db = []
      /\ (config_revisions db = [] \/ exists r, r ∈ config_revisions db /\ v_applied r = None
          /\ Forall (fun x => (v_number x <= v_number r)%Z) (config_revisions db))
  end.
Proof.
  unfold LatestApplied. intros (found&Hone%one_Ok&H)%bind_Ok.
  destruct (head (SliceStable later (applied_join db))) as [[j r]|] eqn:Eh; cbn in Hone.
  - destruct found as [v|]; [|done]. apply (proj1 (ret_Ok _ _)) in H. subst o.
    apply (SliceStable_head_Some later later_asym later_ge_trans) in Eh as [Hin Hall].
    pose proof Hin as (_&Hr&_&_&Ha)%applied_join_elem. pose proof (scan_fields _ _ Hone) as (_&_&_&_&_&Hap).
    split; [by apply Hap|]. exists r. split_and!; [done..|]. left. by exists j.
  - destruct found; [done|]. apply SliceStable_head_None in Eh. apply bind_Ok in H as ([v|]&HL%Latest_Ok&H).
    + destruct HL as (r&Hr&Hs&Hall). pose proof (scan_fields _ _ Hs) as (_&_&_&_&_&Hap).
      destruct (AppliedAt v) eqn:Ea; apply (proj1 (ret_Ok _ _)) in H; subst o.
      * split; [rewrite Ea; by eexists|]. exists r. split_and!; [done..|]. by right.
      * split; [done|]. right. exists r. split_and!; try done. destruct (v_applied r); [|done].
        destruct (proj2 Hap); [by eexists|done].
    + apply (proj1 (ret_Ok _ _)) in H. subst o. split; [done|by left].
Qed.

(** ** Marking a revision applied *)
(** Marking is one transaction: it stamps exactly the revision of that id, points
    the settings at it (creating the settings row when there is none), and leaves
    the jobs, the users and the other revisions alone; an error changes nothing,
    and an unknown id is an error. *)
Theorem MarkApplied_spec db now id at_ db' res : MarkApplied db now id at_ = (db', res) ->
  match res with
  | Err _ => db' = db
  | Ok v => exists key stamp r, r ∈ config_revisions db /\ v_id r = id
      /\ encodeTime (if decide (at_ = zero_time) then now else at_) = Ok key
      /\ scan (stamp_row key r) = Ok v
      /\ config_revisions db' = map (fun x => if v_id x =? id then stamp_row key x else x) (config_revisions db)
      /\ apply_jobs db' = apply_jobs db /\ users db' = users db
      /\ let s := default (mkSettingsRow None "[]" None stamp stamp) (settings db) in
         settings db' = Some (mkSettingsRow (Some id) (s_forwarding s) (s_pool s) (s_created s) key)
  end
  /\ ((exists v, res = Ok v) -> exists r, r ∈ config_revisions db /\ v_id r = id).
Proof.
  unfold MarkApplied. intros H. destruct (encodeTime _) as [key|] eqn:Ek; [|by injection H as <- <-; split; [|intros [? ?]]].
  destruct res as [v|e]; [|apply Write_Err in H; split; [done|by intros [? ?]]].
  apply Write_Ok in H as (stamp&_&H). apply bind_Ok in H as ([rows changed]&Hup&H).
  unfold update_revisions in Hup. apply bind_Ok in Hup as (u&_&Hup). apply (proj1 (ret_Ok _ _)) in Hup. injection Hup as <- <-.
  apply bind_Ok in H as ([w|]&Hone%one_Ok&H); [|done].
  destruct (head _) as [x|] eqn:Eh; [|done]. apply bind_Ok in H as (s'&Hs&H). apply (proj1 (ret_Ok _ _)) in H.
  injection H as <- <-. unfold point_settings in Hs. apply bind_Ok in Hs as (u'&_&Hs). apply (proj1 (ret_Ok _ _)) in Hs.
  assert (exists r, r ∈ config_revisions db /\ v_id r = id /\ x = stamp_row key r) as (r&Hr&Hid&->).
  { apply head_Some_elem_of in Eh. apply list_elem_of_fmap in Eh as (r&->&Hr). apply list_elem_of_In, filter_In in Hr as [Hr Hid%String.eqb_eq].
    exists r. by rewrite list_elem_of_In. }
  split; [|intros _; by exists r]. exists key, stamp, r. by split_and!.
Qed.
