(* ===== verification/NodeSyncStore.v ===== *)
(** * The node's sync store (configuration/sqlite_node_sync_state.go)

    The binding lives in the node_state row of id 'default', the progress as JSON in
    the one node-sync row of health_observations. [uuid_Parse] is the google/uuid
    parser; the clock and the fresh row identifiers are arguments. *)

From S2P Require Import Prelude GoStrings Json JsonText RProxy Scrub JsonRead Timestamp GoTime Identity Snapshot SnapshotText Jobs Store Revisions SnapshotClient NodeSync.
From stdpp Require Import options.

(** ** Tables *)
Record NodeStateRow := mkNodeState {
  n_id : string; n_primary_url : option string; n_primary_installation : option string; n_credential : option string;
  n_sync_enabled : Z; n_failures : Z; n_next_attempt : option string; n_last_error : option string; n_updated : string }.
Record HealthRow := mkHealth {
  h_id : string; h_component : string; h_status : string; h_details : option string; h_created : string }.
Record sync_tables := mkTables {
  node_state : list NodeStateRow; health_observations : list HealthRow; core : database }.

Inductive sync_store_error : Type :=
| ErrBindingIncomplete | ErrBindingCredential | ErrBindingPrimary | ErrNodeSyncUnbound | ErrSyncStore (e : store_error).
#[global] Instance sync_store_failure : StoreFailure sync_store_error := ErrSyncStore.
Abbreviation kept := (result sync_store_error).

Definition nodeSyncStateID : string := "default".
Definition nodeSyncHealthComponent : string := "node-sync".

(** ** The progress as JSON: struct order, empty members left out *)
Definition formatSyncTime (t : instant) : string := if (t =? zero_instant)%Z then "" else rfc3339nano t.
Definition parseSyncTime (value : string) : instant :=
  if value =? "" then zero_instant else default zero_instant (time_Parse value).
Definition progress_tree (p : NodeSyncProgress) : json :=
  JObj ([("appliedHash", JStr (AppliedHash p)); ("primaryHash", JStr (PrimaryHash p)); ("ackedHash", JStr (AckedHash p))]
    ++ omitempty "primaryAppliedAt" (formatSyncTime (PrimaryAppliedAt p))
    ++ omitempty "lastAttemptAt" (formatSyncTime (LastAttemptAt p))
    ++ omitempty "lastSuccessAt" (formatSyncTime (LastSuccessAt p))
    ++ omitempty "nextAttemptAt" (formatSyncTime (NextAttemptAt p))
    ++ [("consecutiveFailures", JNum (ConsecutiveFailures p))]
    ++ omitempty "lastError" (LastError p)
    ++ (if Unlinked p then [("unlinked", JBool true)] else [])
    ++ omitempty "unlinkedAt" (formatSyncTime (UnlinkedAt p))).
(** The wire struct holds the times as text. *)
Record nodeSyncProgressWire := mkWire {
  WAppliedHash : string; WPrimaryHash : string; WAckedHash : string; WPrimaryAppliedAt : string; WLastAttemptAt : string;
  WLastSuccessAt : string; WNextAttemptAt : string; WConsecutiveFailures : Z; WLastError : string; WUnlinked : bool;
  WUnlinkedAt : string }.
Definition zero_wire : nodeSyncProgressWire := mkWire "" "" "" "" "" "" "" 0 "" false "".
Definition dec_progress : decoder nodeSyncProgressWire := dec_struct (fun m cur =>
  applied ← member m "appliedHash" dec_string (WAppliedHash cur);
  primary ← member m "primaryHash" dec_string (WPrimaryHash cur);
  acked ← member m "ackedHash" dec_string (WAckedHash cur);
  applied_at ← member m "primaryAppliedAt" dec_string (WPrimaryAppliedAt cur);
  attempt ← member m "lastAttemptAt" dec_string (WLastAttemptAt cur);
  success ← member m "lastSuccessAt" dec_string (WLastSuccessAt cur);
  next ← member m "nextAttemptAt" dec_string (WNextAttemptAt cur);
  failures ← member m "consecutiveFailures" dec_int64 (WConsecutiveFailures cur);
  message ← member m "lastError" dec_string (WLastError cur);
  unlinked ← member m "unlinked" dec_bool (WUnlinked cur);
  unlinked_at ← member m "unlinkedAt" dec_string (WUnlinkedAt cur);
  Some (mkWire applied primary acked applied_at attempt success next failures message unlinked unlinked_at)).
Definition progress_of (w : nodeSyncProgressWire) : NodeSyncProgress :=
  mkProgress (WAppliedHash w) (WPrimaryHash w) (WAckedHash w) (parseSyncTime (WPrimaryAppliedAt w)) (parseSyncTime (WLastAttemptAt w))
    (parseSyncTime (WLastSuccessAt w)) (parseSyncTime (WNextAttemptAt w)) (WConsecutiveFailures w) (WLastError w) (WUnlinked w)
    (parseSyncTime (WUnlinkedAt w)).
Definition healthStatus (p : NodeSyncProgress) : string :=
  if Unlinked p then "unlinked" else if negb (LastError p =? "") then "error" else if Outdated p then "outdated" else "ok".

(** ** Schema constraints *)
Definition health_row_ok (r : HealthRow) : bool :=
  uuidPattern (h_id r) && negb (has_nul (h_component r)) && negb (has_nul (h_status r)) && opt_all json_column (h_details r)
  && timestamp_column (h_created r).
Definition int32_column (z : Z) : bool := int32_ok (Some z).
Definition node_row_ok (r : NodeStateRow) : bool :=
  negb (has_nul (n_id r)) && opt_all (fun s => negb (has_nul s)) (n_primary_url r) && opt_all uuidPattern (n_primary_installation r)
  && opt_all uuidPattern (n_credential r) && ((n_sync_enabled r =? 0) || (n_sync_enabled r =? 1))%Z && int32_column (n_failures r)
  && opt_all timestamp_column (n_next_attempt r) && opt_all (fun s => negb (has_nul s)) (n_last_error r)
  && timestamp_column (n_updated r).
(** The unique index on credential_id: NULLs are distinct. *)
Definition credential_free (rows : list NodeStateRow) (r : NodeStateRow) : bool :=
  forallb (fun r' => (n_id r' =? n_id r) || negb (bool_decide (n_credential r' = n_credential r /\ n_credential r <> None))) rows.

(** ** Operations *)
(** [insert into health_observations]. *)
Definition insert_health (rows : list HealthRow) (r : HealthRow) : kept (list HealthRow) :=
  ensure (health_row_ok r && forallb (fun r' => negb (h_id r' =? h_id r)) rows) (ErrSyncStore ErrConstraint);;
  mret (rows ++ [r]).
Definition writeNodeSyncProgress (stamp id : string) (db : sync_tables) (progress : NodeSyncProgress) : kept sync_tables :=
  let payload := wire true (progress_tree progress) in
  rows ← insert_health (List.filter (fun r => negb (h_component r =? nodeSyncHealthComponent)) (health_observations db))
           (mkHealth id nodeSyncHealthComponent (healthStatus progress) (Some payload) stamp);
  mret (mkTables (node_state db) rows (core db)).

Definition state_row (rows : list NodeStateRow) : option NodeStateRow := find_first (fun r => n_id r =? nodeSyncStateID) rows.
(** [insert ... on conflict(id) do update]. *)
Definition upsert_binding (rows : list NodeStateRow) (url : string) (installation : option string) (credential stamp : string)
    : kept (list NodeStateRow) :=
  let row := mkNodeState nodeSyncStateID (Some url) installation (Some credential) 1 0 None None stamp in
  ensure (node_row_ok row && credential_free rows row) (ErrSyncStore ErrConstraint);;
  mret (match state_row rows with
        | Some _ => map (fun r => if n_id r =? nodeSyncStateID then row else r) rows
        | None => rows ++ [row]
        end).

Section store.
Context (uuid_Parse : string -> option uuid).

Definition BindNodeSync (db : sync_tables) (clock : time) (id : string) (b : NodeSyncBinding) (appliedHash : string) (now : instant)
    : sync_tables * kept unit :=
  if (PrimaryURL b =? "") || (CredentialID b =? "") then (db, Err ErrBindingIncomplete) else
  if negb (bool_decide (is_Some (uuid_Parse (CredentialID b)))) then (db, Err ErrBindingCredential) else
  if negb (PrimaryInstallationID b =? "") && negb (bool_decide (is_Some (uuid_Parse (PrimaryInstallationID b))))
  then (db, Err ErrBindingPrimary) else
  let installation := if PrimaryInstallationID b =? "" then None else Some (PrimaryInstallationID b) in
  Write db clock (fun stamp db =>
    rows ← upsert_binding (node_state db) (PrimaryURL b) installation (CredentialID b) stamp;
    db' ← writeNodeSyncProgress stamp id (mkTables rows (health_observations db) (core db))
            (mkProgress appliedHash appliedHash "" zero_instant zero_instant now zero_instant 0 "" false zero_instant);
    mret (db', tt)).

(** [order by created_at desc, id desc limit 1]. *)
Definition newer_health (a b : HealthRow) : bool :=
  match Compare (h_created a) (h_created b) with Gt => true | Eq => less_s (h_id b) (h_id a) | Lt => false end.
Definition latest_details (rows : list HealthRow) : option string :=
  r ← head (SliceStable newer_health (List.filter (fun r => h_component r =? nodeSyncHealthComponent) rows)); h_details r.
(** The newest imported revision with an applied job: what was durably applied. *)
Definition imported (db : database) (r : RevisionRow) : bool :=
  (v_source r =? "import") && bool_decide (is_Some (v_hash r))
  && existsb (fun j => (j_revision j =? v_id r) && (j_status j =? Applied)) (apply_jobs db).
Definition imported_hash (db : database) : string :=
  default "" (r ← head (SliceStable higher (List.filter (imported db) (config_revisions db))); v_hash r).
Definition stored_progress (db : sync_tables) : NodeSyncProgress :=
  let p := match latest_details (health_observations db) with
           | Some details =>
               match v ← json_decode details; dec_progress v zero_wire with Some w => progress_of w | None => zero_progress end
           | None => zero_progress
           end in
  if AppliedHash p =? "" then set_applied p (imported_hash (core db)) else p.
Definition bound_row (db : sync_tables) : option NodeSyncBinding :=
  r ← state_row (node_state db);
  if negb (n_sync_enabled r =? 1)%Z then None else
  match n_primary_url r, n_credential r with
  | Some url, Some credential =>
      if (url =? "") || (credential =? "") then None else Some (mkBinding url credential (default "" (n_primary_installation r)))
  | _, _ => None
  end.
Definition LoadNodeSyncState (db : sync_tables) (clock : time) : sync_tables * kept (option NodeSyncState) :=
  Write db clock (fun _ db =>
    mret (db, option_map (fun b => mkSyncState b (stored_progress db)) (bound_row db))).

(** A binding cleared while a cycle was in flight is not resurrected. *)
Definition SaveProgress (db : sync_tables) (clock : time) (id : string) (progress : NodeSyncProgress) : sync_tables * kept unit :=
  Write db clock (fun stamp db =>
    match state_row (node_state db) with
    | None => Err ErrNodeSyncUnbound
    | Some r =>
        if negb (n_sync_enabled r =? 1)%Z then Err ErrNodeSyncUnbound else
        db' ← writeNodeSyncProgress stamp id db progress;
        mret (db', tt)
    end).
End store.
