(* ===== verification/NodeSyncStoreFacts.v ===== *)
(** * Facts about the node's sync store

    What is saved is loaded again; without an enabled binding nothing is saved; a
    new binding starts linked. Seen from the loop, the tables hold at most one state,
    and the three operations act on it as their abstract counterparts. *)

From S2P Require Import Prelude Effects NodeSyncFacts GoStrings StrFacts Json JsonFacts JsonText RProxy Scrub JsonRead Timestamp GoTime Identity Snapshot SnapshotFacts SnapshotText SnapshotTrip Jobs Store StoreFacts Revisions Credentials SnapshotClient NodeSync NodeSyncStore.
From stdpp Require Import options.

(** ** The progress text is read back *)
Lemma ascii_text s : sall (in_range 32 126) s = true -> utf8b s = true.
Proof.
  unfold utf8b. induction s as [|c s IH]; [done|]. cbn [sall runes]. intros [Hc Hs]%andb_true_iff.
  unfold in_range in Hc. bsimp. rewrite (proj2 (Z.ltb_lt (code c) 128)) by lia. cbn [forallb]. by rewrite IH.
Qed.
Definition in_years (t : instant) : Prop := (0 <= year_of t <= 9999)%Z.
Lemma sync_time_utf8 t : in_years t -> utf8b (formatSyncTime t) = true.
Proof.
  intros H. unfold formatSyncTime. destruct (_ =? _)%Z; [done|].
  destruct (rfc3339_parts t H) as (y&m&d&h&mi&s&frac&Hp). rewrite (dp_text _ _ _ _ _ _ _ _ Hp). eapply ascii_text, date_text_ascii, Hp.
Qed.
Lemma sync_time_back t : in_years t -> parseSyncTime (formatSyncTime t) = t.
Proof.
  intros H. unfold formatSyncTime. destruct (Z.eqb_spec t zero_instant) as [->|]; [done|]. unfold parseSyncTime.
  destruct (String.eqb_spec (rfc3339nano t) "") as [E|]; [|by rewrite time_Parse_format].
  pose proof (time_Parse_format t H) as Hp. by rewrite E in Hp.
Qed.

Record progress_ok (p : NodeSyncProgress) : Prop := mkProgressOk {
  po_applied : utf8b (AppliedHash p) = true; po_primary : utf8b (PrimaryHash p) = true; po_acked : utf8b (AckedHash p) = true;
  po_error : utf8b (LastError p) = true; po_failures : (Z.abs (ConsecutiveFailures p) <= 2 ^ 53)%Z;
  po_times : in_years (PrimaryAppliedAt p) /\ in_years (LastAttemptAt p) /\ in_years (LastSuccessAt p) /\ in_years (NextAttemptAt p)
    /\ in_years (UnlinkedAt p) }.
(** The wire struct the text of a progress decodes to: invalid UTF-8 is replaced. *)
Definition wire_of (p : NodeSyncProgress) : nodeSyncProgressWire :=
  mkWire (valid_utf8 (AppliedHash p)) (valid_utf8 (PrimaryHash p)) (valid_utf8 (AckedHash p))
    (valid_utf8 (formatSyncTime (PrimaryAppliedAt p))) (valid_utf8 (formatSyncTime (LastAttemptAt p)))
    (valid_utf8 (formatSyncTime (LastSuccessAt p))) (valid_utf8 (formatSyncTime (NextAttemptAt p))) (ConsecutiveFailures p)
    (valid_utf8 (LastError p)) (Unlinked p) (valid_utf8 (formatSyncTime (UnlinkedAt p))).
Definition progress_keys : list string :=
  ["appliedHash"; "primaryHash"; "ackedHash"; "primaryAppliedAt"; "lastAttemptAt"; "lastSuccessAt"; "nextAttemptAt";
   "consecutiveFailures"; "lastError"; "unlinked"; "unlinkedAt"].
Lemma sublist_part (k : string) (l1 l2 : list (string * json)) ks : sublist (map fst l1) [k] -> sublist (map fst l2) ks ->
  sublist (map fst (l1 ++ l2)) (k :: ks).
Proof. intros H1 H2. rewrite map_app. by apply (sublist_app _ [k] _ ks). Qed.
Lemma omitempty_part k s : sublist (map fst (omitempty k s)) [k].
Proof. unfold omitempty. destruct (_ =? _); [apply sublist_nil_l|done]. Qed.
Lemma progress_tree_keys p : match progress_tree p with JObj m => sublist (map fst m) progress_keys | _ => False end.
Proof.
  cbn [progress_tree]. repeat first [ apply sublist_part; [by apply omitempty_part|] | apply sublist_skip ].
  apply sublist_part; [|apply omitempty_part]. destruct (Unlinked p); [done|apply sublist_nil_l].
Qed.
Lemma readable_progress p : (Z.abs (ConsecutiveFailures p) <= 2 ^ 53)%Z -> readable (progress_tree p) = true.
Proof.
  intros Hp. pose proof (progress_tree_keys p) as Hk. unfold progress_tree in *. cbn [readable]. apply andb_true_iff. split.
  - apply bool_decide_eq_true. rewrite <- (map_map fst valid_utf8).
    apply (fmap_sublist valid_utf8) in Hk. eapply sublist_NoDup; [|exact Hk]. apply (bool_decide_unpack _). vm_compute. exact I.
  - rewrite !forallb_app. assert (forall k s, forallb (fun f : string * json => readable f.2) (omitempty k s) = true) as Ho
      by (intros k s; unfold omitempty; by destruct (_ =? _)).
    rewrite !Ho. cbn -[Z.pow]. rewrite (proj2 (Z.leb_le _ _) Hp). by destruct (Unlinked p).
Qed.
Lemma depth_flat_object (m : gomap) : Forall (fun f => depth f.2 = 0%Z) m -> (depth (JObj m) <= 1)%Z.
Proof.
  intros H. cbn [depth]. assert (foldr (fun f n => Z.max (depth f.2) n) 0 m <= 0)%Z; [|lia].
  induction H as [|f m Hf _ IH]; cbn [foldr]; lia.
Qed.
Lemma depth_progress p : (depth (progress_tree p) <= 1)%Z.
Proof.
  apply depth_flat_object. assert (forall k s, Forall (fun f : string * json => depth f.2 = 0%Z) (omitempty k s)) as Ho
    by (intros k s; unfold omitempty; destruct (_ =? _); by repeat constructor).
  repeat (apply Forall_app_2; [first [apply Ho | by repeat constructor | by destruct (Unlinked p); repeat constructor]|]). apply Ho.
Qed.

Abbreviation rt := (fun f : string * json => (valid_utf8 f.1, roundtrip_json f.2)).
Lemma member_rt_skip {A} k v m name (dec : decoder A) cur : (foldName (valid_utf8 k) =? foldName name) = false ->
  member (map rt ((k, v) :: m)) name dec cur = member (map rt m) name dec cur.
Proof. intros H. by apply (member_skip (map rt m) (valid_utf8 k)). Qed.
Lemma member_rt_take {A} k v m name (dec : decoder A) cur a : (foldName (valid_utf8 k) =? foldName name) = true ->
  dec (roundtrip_json v) cur = Some a -> member (map rt ((k, v) :: m)) name dec cur = member (map rt m) name dec a.
Proof. intros H Hd. by apply (member_take (map rt m) (valid_utf8 k)). Qed.
Lemma dec_string_rt s cur : dec_string (roundtrip_json (JStr s)) cur = Some (valid_utf8 s).
Proof. cbn -[valid_utf8]. by rewrite valid_utf8_idemp. Qed.
Lemma member_omit_skip {A} k s m name (dec : decoder A) cur : (foldName (valid_utf8 k) =? foldName name) = false ->
  member (map rt (omitempty k s ++ m)) name dec cur = member (map rt m) name dec cur.
Proof. intros H. unfold omitempty. destruct (s =? ""); [done|]. by apply member_rt_skip. Qed.
Lemma member_omit_take k s m : (foldName (valid_utf8 k) =? foldName k) = true ->
  member (map rt (omitempty k s ++ m)) k dec_string "" = member (map rt m) k dec_string (valid_utf8 s).
Proof.
  intros H. unfold omitempty. destruct (String.eqb_spec s "") as [->|]; [done|].
  apply member_rt_take; [done|apply dec_string_rt].
Qed.
Lemma member_rt_nil {A} name (dec : decoder A) cur : member (map rt []) name dec cur = Some cur.
Proof. done. Qed.
Ltac progress_step :=
  first [ rewrite member_rt_nil | rewrite member_omit_take by (vm_compute; reflexivity)
        | rewrite member_omit_skip by (vm_compute; reflexivity) | rewrite member_rt_skip by (vm_compute; reflexivity)
        | erewrite member_rt_take; [|vm_compute; reflexivity|
            first [ apply dec_string_rt | apply dec_int64_back; lia | reflexivity ]]
        | progress cbn [mbind option_bind app] ].
Lemma dec_progress_back p : (Z.abs (ConsecutiveFailures p) <= 2 ^ 53)%Z ->
  dec_progress (roundtrip_json (progress_tree p)) zero_wire = Some (wire_of p).
Proof.
  intros Hf. unfold progress_tree, dec_progress, dec_struct, zero_wire. cbn [roundtrip_json].
  rewrite <- (app_nil_r (omitempty "unlinkedAt" _)).
  cbn [WAppliedHash WPrimaryHash WAckedHash WPrimaryAppliedAt WLastAttemptAt WLastSuccessAt WNextAttemptAt WConsecutiveFailures
    WLastError WUnlinked WUnlinkedAt].
  destruct (Unlinked p) eqn:Hu; cbn [app]; repeat progress_step; unfold wire_of; by rewrite Hu.
Qed.
Lemma progress_text_back p : (Z.abs (ConsecutiveFailures p) <= 2 ^ 53)%Z ->
  (v ← json_decode (wire true (progress_tree p)); dec_progress v zero_wire) = Some (wire_of p).
Proof.
  intros Hf. rewrite decode_wire by (by apply readable_progress || (pose proof (depth_progress p); lia)).
  by apply dec_progress_back.
Qed.
Lemma utf8_id s : utf8b s = true -> valid_utf8 s = s.
Proof. intros H%utf8b_utf8. by apply valid_utf8_id. Qed.
Lemma progress_of_wire p : progress_ok p -> progress_of (wire_of p) = p.
Proof.
  intros [H1 H2 H3 H4 _ (T1&T2&T3&T4&T5)]. unfold progress_of, wire_of.
  cbn [WAppliedHash WPrimaryHash WAckedHash WPrimaryAppliedAt WLastAttemptAt WLastSuccessAt WNextAttemptAt WConsecutiveFailures
    WLastError WUnlinked WUnlinkedAt].
  rewrite !utf8_id by (done || by apply sync_time_utf8). rewrite !sync_time_back by done. by destruct p.
Qed.

(** ** The tables as one state *)
Definition state_of (db : sync_tables) : option NodeSyncState :=
  option_map (fun b => mkSyncState b (stored_progress db)) (bound_row db).
(** A progress without an applied hash is read with the hash of the last import. *)
Definition recorded (db : sync_tables) (p : NodeSyncProgress) : NodeSyncProgress :=
  if AppliedHash p =? "" then set_applied p (imported_hash (core db)) else p.

Lemma latest_inserted rows r : h_component r = nodeSyncHealthComponent ->
  latest_details (List.filter (fun r => negb (h_component r =? nodeSyncHealthComponent)) rows ++ [r]) = h_details r.
Proof.
  intros Hc. unfold latest_details.
  assert (forall l, List.filter (fun r => h_component r =? nodeSyncHealthComponent)
    (List.filter (fun r => negb (h_component r =? nodeSyncHealthComponent)) l) = []) as E.
  { induction l as [|x l IH]; [done|]. cbn. destruct (h_component x =? _) eqn:Ex; cbn; [done|]. by rewrite Ex. }
  rewrite List.filter_app, E. cbn. by rewrite Hc, String.eqb_refl.
Qed.
Lemma written_Ok stamp id db p db' : writeNodeSyncProgress stamp id db p = Ok db' ->
  node_state db' = node_state db /\ core db' = core db
  /\ latest_details (health_observations db') = Some (wire true (progress_tree p)).
Proof.
  unfold writeNodeSyncProgress, insert_health. intros (rows&(u&_&E)%bind_Ok&H)%bind_Ok.
  injection E as <-. injection H as <-. split; [done|]. split; [done|]. by apply latest_inserted.
Qed.
(** Whatever the strings and times are, an unlink survives. *)
Lemma written_unlinked stamp id db p db' : writeNodeSyncProgress stamp id db p = Ok db' ->
  (Z.abs (ConsecutiveFailures p) <= 2 ^ 53)%Z -> Unlinked (stored_progress db') = Unlinked p.
Proof.
  intros (_&Hc&Hl)%written_Ok Hp. unfold stored_progress. rewrite Hl, progress_text_back by done. by destruct (_ =? _).
Qed.
Lemma written_progress stamp id db p db' : writeNodeSyncProgress stamp id db p = Ok db' -> progress_ok p ->
  stored_progress db' = recorded db p.
Proof.
  intros (_&Hc&Hl)%written_Ok Hp. unfold stored_progress, recorded. rewrite Hl, Hc.
  by rewrite progress_text_back, progress_of_wire by (apply Hp || done).
Qed.

Lemma upsert_Ok rows url inst cred stamp rows' : upsert_binding rows url inst cred stamp = Ok rows' ->
  exists r, state_row rows' = Some r /\ n_primary_url r = Some url /\ n_primary_installation r = inst
  /\ n_credential r = Some cred /\ n_sync_enabled r = 1%Z.
Proof.
  unfold upsert_binding, state_row. set (row := mkNodeState _ _ _ _ _ _ _ _ _). intros (u&_&E)%bind_Ok. injection E as <-.
  exists row. split; [|done]. destruct (find_first _ rows) as [r|] eqn:Ef.
  - clear -Ef. induction rows as [|x rows IH]; [done|]. cbn in *. destruct (n_id x =? nodeSyncStateID) eqn:Ex; [done|].
    cbn. rewrite Ex. by apply IH.
  - apply find_first_None in Ef. induction Ef as [|x rows Hx _ IH]; [done|]. cbn. by rewrite Hx.
Qed.

Section refinement.
Context (uuid_Parse : string -> option uuid).

(** The operations of the store, and what they do to the state the loop sees. *)
Inductive store_call : Type :=
| CallBind (b : NodeSyncBinding) (hash : string) (now : instant)
| CallSave (p : NodeSyncProgress).
Definition run_call (db : sync_tables) (clock : time) (id : string) (c : store_call) : sync_tables * kept unit :=
  match c with
  | CallBind b hash now => BindNodeSync uuid_Parse db clock id b hash now
  | CallSave p => SaveProgress db clock id p
  end.
Definition bound_progress (hash : string) (now : instant) : NodeSyncProgress :=
  mkProgress hash hash "" zero_instant zero_instant now zero_instant 0 "" false zero_instant.
Definition effect (db : sync_tables) (s : option NodeSyncState) (c : store_call) : option NodeSyncState :=
  match c with
  | CallBind b hash now => Some (mkSyncState b (recorded db (bound_progress hash now)))
  | CallSave p => option_map (fun s => mkSyncState (binding s) (recorded db p)) s
  end.
Definition call_ok (c : store_call) : Prop :=
  match c with CallBind _ hash now => utf8b hash = true /\ in_years now | CallSave p => progress_ok p end.

Lemma bound_progress_ok hash now : utf8b hash = true -> in_years now -> progress_ok (bound_progress hash now).
Proof.
  intros Hh Hn. assert (in_years zero_instant) as Hz by (split; vm_compute; congruence).
  constructor; try done.
Qed.
Lemma bind_written db clock id b hash now db' : BindNodeSync uuid_Parse db clock id b hash now = (db', Ok tt) ->
  utf8b hash = true -> in_years now -> bound_row db' = Some b /\ core db' = core db
  /\ stored_progress db' = recorded db (bound_progress hash now).
Proof.
  unfold BindNodeSync. intros H Hh Hn. destruct (_ || _) eqn:E1; [done|]. destruct (negb _); [done|].
  destruct (_ && negb _); [done|]. cbv zeta in H. apply Write_Ok in H as (stamp&_&H).
  apply bind_Ok in H as (rows&Hu&H). apply bind_Ok in H as (db1&Hw&H). injection H as <-.
  apply upsert_Ok in Hu as (r&Hr&Hurl&Hinst&Hcred&Hen). pose proof (written_Ok _ _ _ _ _ Hw) as (Hrows&Hcore&_). cbn in Hrows, Hcore.
  apply orb_false_iff in E1 as [E1 E2]. split; [|split; [done|]].
  - unfold bound_row. rewrite Hrows, Hr. cbn [mbind option_bind]. rewrite Hen, Hurl, Hcred, Hinst. cbn. rewrite E1, E2. cbn.
    destruct b as [u c i]. cbn in *. by destruct (String.eqb_spec i "") as [->|].
  - by apply (written_progress _ _ _ _ _ Hw), bound_progress_ok.
Qed.
Lemma save_written db clock id p db' : SaveProgress db clock id p = (db', Ok tt) -> progress_ok p ->
  bound_row db' = bound_row db /\ core db' = core db /\ stored_progress db' = recorded db p.
Proof.
  unfold SaveProgress. intros (stamp&_&H)%Write_Ok Hp. destruct (state_row _) as [r|] eqn:Er; [|done]. destruct (negb _); [done|].
  apply bind_Ok in H as (db1&Hw&H). injection H as <-. pose proof (written_Ok _ _ _ _ _ Hw) as (Hrows&Hcore&_).
  split; [unfold bound_row; by rewrite Hrows|]. split; [done|]. by apply (written_progress _ _ _ _ _ Hw).
Qed.
Lemma save_refused db clock id p stamp : encodeTime clock = Ok stamp ->
  (exists db', SaveProgress db clock id p = (db', Err ErrNodeSyncUnbound)) <->
  forall r, state_row (node_state db) = Some r -> n_sync_enabled r <> 1%Z.
Proof.
  intros Hs. unfold SaveProgress, Write. rewrite Hs. destruct (state_row _) as [r|]; [|split; [done|by eexists]].
  destruct (Z.eqb_spec (n_sync_enabled r) 1) as [E|E]; cbn [negb].
  - split; [|intros H; by destruct (H r eq_refl)]. intros [db' H]. exfalso. revert H. unfold writeNodeSyncProgress, insert_health.
    destruct (ensure _ _) as [u|e] eqn:Ee; [done|]. cbn. intros H. injection H as _ ->.
    unfold ensure in Ee. by destruct (_ && _) in Ee.
  - split; [|by eexists]. intros _ r' H. by injection H as <-.
Qed.

(** C11: The store implements the state the loop is written against: an operation that
    succeeds has its effect on the state that is loaded next, one that fails changes
    nothing, a save is refused exactly when no enabled binding exists, and loading
    changes nothing. *)
Theorem sync_store_refines db clock id c : call_ok c ->
  (forall db', run_call db clock id c = (db', Ok tt) -> state_of db' = effect db (state_of db) c /\ core db' = core db)
  /\ (forall db' e, run_call db clock id c = (db', Err e) -> db' = db)
  /\ (forall stamp, encodeTime clock = Ok stamp -> LoadNodeSyncState db clock = (db, Ok (state_of db)))
  /\ (forall p stamp, c = CallSave p -> encodeTime clock = Ok stamp ->
       ((exists db', run_call db clock id c = (db', Err ErrNodeSyncUnbound)) <->
        forall r, state_row (node_state db) = Some r -> n_sync_enabled r <> 1%Z)).
Proof.
  intros Hc. split; [|split; [|split]].
  - intros db' H. unfold state_of. destruct c as [b hash now|p]; cbn [run_call effect call_ok] in *.
    + destruct Hc as [Hh Hn]. destruct (bind_written _ _ _ _ _ _ _ H Hh Hn) as (->&->&->). done.
    + destruct (save_written _ _ _ _ _ H Hc) as (->&->&->). by destruct (bound_row db).
  - intros db' e H. destruct c as [b hash now|p]; cbn [run_call] in H; [|by apply Write_Err in H].
    unfold BindNodeSync in H. destruct (_ || _); [congruence|]. destruct (negb _); [congruence|].
    destruct (_ && negb _); [congruence|]. by apply Write_Err in H.
  - intros stamp Hs. unfold LoadNodeSyncState, Write. by rewrite Hs.
  - intros p stamp -> Hs. by apply save_refused with stamp.
Qed.
End refinement.

(** ** The loop of NodeSync run against these tables: what is saved is what is loaded *)

(** ** The tables along a history *)
Section system.
Context (tables0 : sync_tables) (clock : list sync_event -> time) (fresh_id : list sync_event -> string).

Definition step_tables (h : list sync_event) (db : sync_tables) (ev : sync_event) : sync_tables :=
  match ev with EvSave p SaveOk => (SaveProgress db (clock h) (fresh_id h) p).1 | _ => db end.
Fixpoint tables_from (h : list sync_event) (db : sync_tables) (rest : list sync_event) : sync_tables :=
  match rest with [] => db | ev :: rest => tables_from (h ++ [ev]) (step_tables h db ev) rest end.
Definition tables (h : list sync_event) : sync_tables := tables_from [] tables0 h.
Definition load_tables (h : list sync_event) : load_result :=
  match (LoadNodeSyncState (tables h) (clock h)).2 with
  | Ok (Some s) => Loaded s
  | Ok None => LoadUnbound
  | Err _ => LoadErr
  end.
Definition save_tables (h : list sync_event) (p : NodeSyncProgress) : save_result :=
  match (SaveProgress (tables h) (clock h) (fresh_id h) p).2 with
  | Ok _ => SaveOk
  | Err ErrNodeSyncUnbound => SaveUnbound
  | Err _ => SaveErr
  end.

Lemma tables_from_app h db X Y : tables_from h db (X ++ Y) = tables_from (h ++ X) (tables_from h db X) Y.
Proof.
  revert h db. induction X as [|ev X IH]; intros h db; cbn; [by rewrite app_nil_r|]. by rewrite IH, <- app_assoc.
Qed.
Lemma tables_snoc h ev : tables (h ++ [ev]) = step_tables h (tables h) ev.
Proof. unfold tables. rewrite tables_from_app. done. Qed.

(** ** The store keeps its promise *)
Lemma saved_unlinked h q : save_tables h q = SaveOk -> (Z.abs (ConsecutiveFailures q) <= 2 ^ 53)%Z ->
  Unlinked (stored_progress (step_tables h (tables h) (EvSave q SaveOk))) = Unlinked q.
Proof.
  unfold save_tables, step_tables. destruct (SaveProgress _ _ _ q) as [db' [[]|[]]] eqn:E; try done. intros _ Hf. cbn [fst].
  unfold SaveProgress in E. apply Write_Ok in E as (stamp&_&E). destruct (state_row _) as [r|]; [|done]. destruct (negb _); [done|].
  apply bind_Ok in E as (db1&Hw&E). injection E as <-. by apply (written_unlinked _ _ _ _ _ Hw).
Qed.
Lemma tables_remember : store_remembers load_tables save_tables.
Proof.
  intros h s q Hh Hlast Hu Hf Hload. assert (Unlinked (stored_progress (tables h)) = true) as Hst.
  { clear Hload. induction h as [|ev h IH] using rev_ind; [done|]. rewrite tables_snoc.
    apply guarded_app in Hh as [Hh Hev]. rewrite guarded_one, app_nil_r in Hev.
    unfold last_saved in *. rewrite omap_app in Hlast. specialize (IH Hh).
    destruct (saved ev) as [q'|] eqn:Es; cbn in Hlast; rewrite Es in Hlast.
    - rewrite last_snoc in Hlast. injection Hlast as ->. destruct ev as [| |q' []| | | | | | | |]; try done. injection Es as ->.
      cbn in Hev. by rewrite saved_unlinked; [|done|rewrite Hf].
    - rewrite app_nil_r in Hlast. specialize (IH Hlast). by destruct ev as [| |q' []| | | | | | | |]. }
  unfold load_tables, LoadNodeSyncState, Write in Hload. destruct (encodeTime _); [|done]. cbn in Hload.
  destruct (bound_row _) as [b|]; [|done]. cbn in Hload. injection Hload as <-. exact Hst.
Qed.

Section loop.
Context (uuid_text : string -> option uuid) (float_text : string -> option string).
Context (opts : delays) (locked : list sync_event -> bool) (role : list sync_event -> TopologyRole).
Context (fetch : list sync_event -> NodeSyncState -> string -> result sync_cause SnapshotFetchResult).
Context (apply_ : list sync_event -> Envelope -> bool).
Context (acknowledge : option (list sync_event -> NodeSyncState -> string -> instant -> result sync_cause unit)).
Context (cancelled : list sync_event -> bool) (now : list sync_event -> instant) (scaled : list sync_event -> Z -> Z).
Context (notified : bool) (sleep : list sync_event -> Z -> bool).
Definition NodeLoop : nat -> sync unit :=
  Run uuid_text float_text opts locked role load_tables save_tables fetch apply_ acknowledge cancelled now scaled notified sleep.

(** C10: Once the tables have recorded that the primary unlinked the node, no later cycle of
    the loop fetches, applies, acknowledges or saves anything, however long it runs,
    whatever the clock, the role and the primary answer: only a new binding, which is
    not an action of the loop, ends the silence. *)
Theorem unlinked_stays_silent fuel :
  from (NodeLoop fuel) [] (fun X _ => guarded (fun X1 ev => unlink_recorded X1 -> silent_event ev) X).
Proof. apply silent_run, tables_remember. Qed.
End loop.
End system.
