(* ===== verification/Installation.v ===== *)
(** * The identity of an installation (identity/types.go, service.go, topology.go, enrollment.go)

    The service caches the durable identity and changes both together. The store behind it
    is the interface [IdentityStore], with what the service relies on in
    [IdentityStoreLaws]; each method runs under the service's lock, so a method is one step.
    A store call that fails changes nothing durable. *)

From S2P Require Import Prelude GoStrings Json Identity Snapshot Jobs Store.
From stdpp Require Import options.

(** ** Types *)
Record Identity := mkIdentity {
  InstallationID : string; NodeID : string; Role : TopologyRole; LeadershipGeneration : Z; LatestKnownGeneration : Z;
  ClusterKeyID : option uuid; UpdatedAt : time; NodeUnlinked : bool }.
Definition zero_identity : Identity := mkIdentity "" "" "" 0 0 None zero_time false.
Definition set_role (i : Identity) (r : TopologyRole) : Identity :=
  mkIdentity (InstallationID i) (NodeID i) r (LeadershipGeneration i) (LatestKnownGeneration i) (ClusterKeyID i) (UpdatedAt i) (NodeUnlinked i).
Definition set_leadership (i : Identity) (g : Z) : Identity :=
  mkIdentity (InstallationID i) (NodeID i) (Role i) g (LatestKnownGeneration i) (ClusterKeyID i) (UpdatedAt i) (NodeUnlinked i).
Definition set_latest (i : Identity) (g : Z) : Identity :=
  mkIdentity (InstallationID i) (NodeID i) (Role i) (LeadershipGeneration i) g (ClusterKeyID i) (UpdatedAt i) (NodeUnlinked i).
Definition set_key (i : Identity) (k : option uuid) : Identity :=
  mkIdentity (InstallationID i) (NodeID i) (Role i) (LeadershipGeneration i) (LatestKnownGeneration i) k (UpdatedAt i) (NodeUnlinked i).
Definition set_updated (i : Identity) (t : time) : Identity :=
  mkIdentity (InstallationID i) (NodeID i) (Role i) (LeadershipGeneration i) (LatestKnownGeneration i) (ClusterKeyID i) t (NodeUnlinked i).
Definition set_unlinked (i : Identity) (b : bool) : Identity :=
  mkIdentity (InstallationID i) (NodeID i) (Role i) (LeadershipGeneration i) (LatestKnownGeneration i) (ClusterKeyID i) (UpdatedAt i) b.

Definition Identity_IsStalePrimary (i : Identity) : bool :=
  (Role i =? TopologyRoleStalePrimary) || (LeadershipGeneration i <? LatestKnownGeneration i)%Z.
Definition Identity_IsWritable (i : Identity) : bool :=
  (Role i =? TopologyRoleStandalone) || (Role i =? TopologyRolePrimary) || (Role i =? TopologyRolePrimaryWithNodes).
Definition RoleCanEnrollAsNode (role : TopologyRole) (hasClusterKey : bool) : bool :=
  if (role =? TopologyRoleStandalone) || (role =? TopologyRolePrimary) || (role =? TopologyRoleStalePrimary) then true
  else if role =? TopologyRoleNode then negb hasClusterKey else false.
Definition RoleCanReEnrollAsNode (role : TopologyRole) (hasClusterKey unlinked : bool) : bool :=
  if (role =? TopologyRoleNode) && unlinked then true else RoleCanEnrollAsNode role hasClusterKey.
Definition CanEnrollAsNode (i : Identity) : bool :=
  RoleCanReEnrollAsNode (Role i) (bool_decide (is_Some (ClusterKeyID i))) (NodeUnlinked i).

(** The service's own copy of the matrix. *)
Definition isAllowedTransition (from to : TopologyRole) : bool :=
  if from =? TopologyRoleStandalone then to =? TopologyRoleNode
  else if from =? TopologyRolePrimary then
    (to =? TopologyRolePrimaryWithNodes) || (to =? TopologyRoleStalePrimary) || (to =? TopologyRoleNode)
  else if from =? TopologyRolePrimaryWithNodes then
    (to =? TopologyRolePrimary) || (to =? TopologyRoleStalePrimary) || (to =? TopologyRoleNode)
  else if from =? TopologyRoleNode then to =? TopologyRolePrimary
  else if from =? TopologyRoleStalePrimary then (to =? TopologyRolePrimary) || (to =? TopologyRoleNode)
  else false.

Inductive identity_error : Type :=
| ErrNotFound | ErrInvalidRole (role : string) | ErrInvalidTransition | ErrGenerationMismatch | ErrTopologyWorkflowUnavailable
| ErrIdentityNotLoaded | ErrInvalidEnrollmentActivation | ErrEnrollmentIneligible
| ErrAutomaticRenewalNotPermitted | ErrAutomaticRenewalCallbackRequired | ErrAutomaticRenewalCallbackPanic
| ErrBootstrap (e : identity_error) | ErrContext | ErrPanic (text : string) | ErrIdentityStore (e : store_error) | ErrOutside (text : string).
Abbreviation identified := (result identity_error).

(** ** The store (store.go, topology.go) *)
Record PromoteInput := mkPromote { PActorUserID : string; PFromRole : TopologyRole; PFromGeneration : Z; PNextGeneration : Z }.
Record DemoteInput := mkDemote { DActorUserID : string; DFromRole : TopologyRole; DFromGeneration : Z }.
Record TopologyChange := mkChange { ChRole : TopologyRole; ChGeneration : Z; ChKey : option uuid; ChRevoked : Z }.
Record TopologyStore (S : Type) := mkTopologyStore {
  PromoteTopology : S -> PromoteInput -> S * identified TopologyChange;
  DemoteTopology : S -> DemoteInput -> S * identified TopologyChange }.
Arguments PromoteTopology {S}.
Arguments DemoteTopology {S}.
Class IdentityStore (S : Type) := {
  Get : S -> S * identified Identity;
  Ensure : S -> string -> string -> S * identified (Identity * bool);
  UpdateRole : S -> TopologyRole -> S * identified unit;
  UpdateLeadershipGeneration : S -> Z -> S * identified unit;
  UpdateLatestKnownGeneration : S -> Z -> S * identified unit;
  UpdateClusterKeyID : S -> option uuid -> S * identified unit;
  (** the workflows are an optional interface *)
  Topology : option (TopologyStore S) }.

Definition promotableFrom (role : TopologyRole) : bool :=
  (role =? TopologyRoleNode) || (role =? TopologyRoleStalePrimary) || (role =? TopologyRoleStandalone).

(** ** The service *)
Section service.
Context {S : Type} `{!IdentityStore S}.
Record Service := mkService { cached : Identity; loaded : bool; provisionClusterKey : option (S -> S * identified uuid) }.
Definition NewService : Service := mkService zero_identity false None.
Definition world : Type := S * Service.
Definition M (A : Type) : Type := world -> world * identified A.
#[global] Instance M_ret : MRet M := fun A a w => (w, Ok a).
#[global] Instance M_bind : MBind M := fun A B f m w => match m w with (w', Ok a) => f a w' | (w', Err e) => (w', Err e) end.
Definition throw {A} (e : identity_error) : M A := fun w => (w, Err e).
Definition call {A} (op : S -> S * identified A) : M A := fun w => let '(s, r) := op w.1 in ((s, w.2), r).
Definition attempt {A} (m : M A) : M (identified A) := fun w => let '(w', r) := m w in (w', Ok r).
Definition current : M Identity := fun w => (w, Ok (cached w.2)).
Definition set_cached (f : Identity -> Identity) : M unit := fun w =>
  ((w.1, mkService (f (cached w.2)) (loaded w.2) (provisionClusterKey w.2)), Ok tt).
Definition attach (id : Identity) : M unit := fun w => ((w.1, mkService id true (provisionClusterKey w.2)), Ok tt).
Definition require_loaded : M unit := fun w => (w, if loaded w.2 then Ok tt else Err ErrIdentityNotLoaded).
Definition must (o : option Z) : M Z := match o with Some z => mret z | None => throw (ErrPanic "LeadershipGeneration overflow") end.

Definition SetNodeUnlinked (unlinked : bool) : M unit := set_cached (fun i => set_unlinked i unlinked).
Definition SetClusterKeyProvisioner (provision : S -> S * identified uuid) : M unit := fun w =>
  ((w.1, mkService (cached w.2) (loaded w.2) (Some provision)), Ok tt).
Definition Load : M Identity := id ← call Get; attach id;; mret id.
(** [fresh]: the identifiers the random source gives. *)
Definition EnsureBootstrapped (fresh : string * string) : M (Identity * bool) :=
  r ← attempt (call Get);
  match r with
  | Ok id => attach id;; mret (id, false)
  | Err ErrNotFound =>
      r ← attempt (call (fun s => Ensure s fresh.1 fresh.2));
      match r with
      | Ok (id, created) => attach id;; mret (id, created)
      | Err e => throw (ErrBootstrap e)
      end
  | Err e => throw e
  end.
Definition Current : M Identity := fun w =>
  (w, if loaded w.2 then Ok (cached w.2) else Err (ErrPanic "identity.Service.Current called before Load/EnsureBootstrapped")).
Definition SnapshotPublicationIdentity : M Identity := require_loaded;; current.
Definition IsStalePrimary : M bool := id ← Current; mret (Identity_IsStalePrimary id).
Definition IsWritable : M bool := id ← Current; mret (Identity_IsWritable id).

Definition eligibleForAutomaticRenewal (i : Identity) : bool :=
  if Identity_IsStalePrimary i || negb (Identity_IsWritable i) then false
  else (Role i =? TopologyRoleStandalone) || (Role i =? TopologyRolePrimary) || (Role i =? TopologyRolePrimaryWithNodes).
(** The callback runs under the read lock and does not touch the identity; [None] is a panic.
    [cancelled]: the context's state at the two times it is looked at. *)
Definition WithAutomaticRenewalLease (cancelled : bool * bool) (work : option (option (identified unit))) : M unit :=
  if cancelled.1 then throw ErrContext else
  match work with
  | None => throw ErrAutomaticRenewalCallbackRequired
  | Some outcome =>
      if cancelled.2 then throw ErrContext else
      require_loaded;;
      id ← current;
      if negb (eligibleForAutomaticRenewal id) then throw ErrAutomaticRenewalNotPermitted else
      match outcome with Some (Ok _) => mret tt | Some (Err e) => throw e | None => throw ErrAutomaticRenewalCallbackPanic end
  end.

Definition TransitionTo (role : TopologyRole) : M Identity :=
  if negb (TopologyRole_IsValid role) then throw (ErrInvalidRole role) else
  id ← current;
  if Role id =? role then mret id else
  if negb (isAllowedTransition (Role id) role) then throw ErrInvalidTransition else
  call (fun s => UpdateRole s role);;
  set_cached (fun i => set_role i role);;
  current.
Definition RecordImportedSnapshot (observedGeneration : Z) : M Identity :=
  before ← current;
  call (fun s => UpdateLatestKnownGeneration s observedGeneration);;
  set_cached (fun i => if (LatestKnownGeneration i <? observedGeneration)%Z then set_latest i observedGeneration else i);;
  (if (LatestKnownGeneration before <? observedGeneration)%Z && (LeadershipGeneration before <? observedGeneration)%Z
      && negb (Role before =? TopologyRoleStalePrimary)
   then call (fun s => UpdateRole s TopologyRoleStalePrimary);; set_cached (fun i => set_role i TopologyRoleStalePrimary)
   else mret tt);;
  current.

Definition ensureClusterKeyLocked : M unit := fun w =>
  match provisionClusterKey w.2, ClusterKeyID (cached w.2) with
  | Some provision, None =>
      let role := Role (cached w.2) in
      if (role =? TopologyRoleStandalone) || (role =? TopologyRolePrimary) || (role =? TopologyRolePrimaryWithNodes) then
        (id ← call provision;
         if id =? uuid_Nil then throw ErrInvalidEnrollmentActivation else
         call (fun s => UpdateClusterKeyID s (Some id));;
         set_cached (fun i => set_key i (Some id))) w
      else (w, Ok tt)
  | _, _ => (w, Ok tt)
  end.

(** *** Promotion and demotion (topology.go) *)
Record PromoteResult := mkPromoted {
  PrIdentity : Identity; PrPreviousRole : TopologyRole; PrPreviousGeneration : Z; PrRevoked : Z; PrKeyErr : option identity_error }.
Record DemoteResult := mkDemoted { DrIdentity : Identity; DrPreviousRole : TopologyRole; DrRevoked : Z }.
Definition expected_matches (expected : option Z) (generation : Z) : bool :=
  match expected with Some g => (g =? generation)%Z | None => true end.
Definition raise_latest (g : Z) (i : Identity) : Identity := if (LatestKnownGeneration i <? g)%Z then set_latest i g else i.
Definition key_error : M (option identity_error) :=
  r ← attempt ensureClusterKeyLocked; mret (match r with Ok _ => None | Err e => Some e end).
Definition next_generation (id : Identity) : M Z :=
  next ← must (LeadershipGeneration_Next (LeadershipGeneration id));
  if (next <=? LatestKnownGeneration id)%Z then must (LeadershipGeneration_Next (LatestKnownGeneration id)) else mret next.
Definition Promote (actor : string) (expected : option Z) : M PromoteResult :=
  id ← current;
  if negb (promotableFrom (Role id)) then throw ErrInvalidTransition else
  if negb (expected_matches expected (LeadershipGeneration id)) then throw ErrGenerationMismatch else
  next ← next_generation id;
  match Topology with
  | None =>
      call (fun s => UpdateLeadershipGeneration s next);;
      call (fun s => UpdateRole s TopologyRolePrimary);;
      set_cached (fun i => raise_latest next (set_leadership (set_role i TopologyRolePrimary) next));;
      e ← key_error; id' ← current;
      mret (mkPromoted id' (Role id) (LeadershipGeneration id) 0 e)
  | Some topology =>
      change ← call (fun s => PromoteTopology topology s (mkPromote actor (Role id) (LeadershipGeneration id) next));
      set_cached (fun i => set_key (raise_latest (ChGeneration change) (set_leadership (set_role i TopologyRolePrimary) (ChGeneration change))) (ChKey change));;
      e ← key_error; id' ← current;
      mret (mkPromoted id' (Role id) (LeadershipGeneration id) (ChRevoked change) e)
  end.
Definition PromoteToPrimary : M Identity := r ← Promote "" None; mret (PrIdentity r).
Definition Demote (actor : string) (expected : option Z) : M DemoteResult :=
  id ← current;
  if negb ((Role id =? TopologyRolePrimary) || (Role id =? TopologyRolePrimaryWithNodes)) then throw ErrInvalidTransition else
  if negb (expected_matches expected (LeadershipGeneration id)) then throw ErrGenerationMismatch else
  match Topology with
  | None => throw ErrTopologyWorkflowUnavailable
  | Some topology =>
      change ← call (fun s => DemoteTopology topology s (mkDemote actor (Role id) (LeadershipGeneration id)));
      set_cached (fun i => set_key (set_role i TopologyRoleNode) (ChKey change));;
      id' ← current;
      mret (mkDemoted id' (Role id) (ChRevoked change))
  end.

(** *** Enrollment (enrollment.go) *)
Definition WithAtomicEnrollment (now : time) (activate : option (S -> S * identified TopologyRole)) : M Identity :=
  require_loaded;;
  match activate with
  | None => throw ErrInvalidEnrollmentActivation
  | Some activate =>
      ensureClusterKeyLocked;;
      role ← call activate;
      if negb ((role =? TopologyRolePrimary) || (role =? TopologyRolePrimaryWithNodes)) then
        r ← attempt (call Get);
        set_cached (fun i => match r with Ok id => id | Err _ => set_role i TopologyRoleStalePrimary end);;
        throw ErrInvalidEnrollmentActivation
      else
        set_cached (fun i => set_updated (set_role i role) now);;
        current
  end.
Definition ActivateEnrollment (now : time) (activate : option (S -> S * identified TopologyRole)) : M TopologyRole :=
  id ← WithAtomicEnrollment now activate; mret (Role id).
Definition alreadyCommitted (id : Identity) (key : option uuid) (observed : Z) : bool :=
  (Role id =? TopologyRoleNode)
  && match key, ClusterKeyID id with Some k, Some k' => k' =? k | _, _ => false end
  && (observed <=? LeadershipGeneration id)%Z.
Definition CommitNodeEnrollment (clusterKeyID : option uuid) (observedGeneration : Z) : M Identity :=
  require_loaded;;
  if match clusterKeyID with Some k => k =? uuid_Nil | None => false end then throw ErrInvalidEnrollmentActivation else
  id ← current;
  if alreadyCommitted id clusterKeyID observedGeneration then mret id else
  if negb (CanEnrollAsNode id) then throw ErrEnrollmentIneligible else
  (if Role id =? TopologyRoleNode then mret tt else
   if negb (isAllowedTransition (Role id) TopologyRoleNode) then throw ErrInvalidTransition else
   call (fun s => UpdateRole s TopologyRoleNode);; set_cached (fun i => set_role i TopologyRoleNode));;
  (if (LeadershipGeneration id <? observedGeneration)%Z then
     call (fun s => UpdateLeadershipGeneration s observedGeneration);;
     set_cached (fun i => raise_latest observedGeneration (set_leadership i observedGeneration))
   else mret tt);;
  match clusterKeyID with
  | Some key => call (fun s => UpdateClusterKeyID s (Some key));; set_cached (fun i => set_key i (Some key))
  | None => mret tt
  end;;
  current.
End service.
Arguments Service S : clear implicits.
Arguments world S : clear implicits.

(** ** What the service relies on *)
Record durable := mkDurable {
  d_installation : string; d_node : string; d_role : TopologyRole; d_leadership : Z; d_latest : Z; d_key : option uuid }.
Definition durable_of (i : Identity) : durable :=
  mkDurable (InstallationID i) (NodeID i) (Role i) (LeadershipGeneration i) (LatestKnownGeneration i) (ClusterKeyID i).
Definition d_set_role (d : durable) r := mkDurable (d_installation d) (d_node d) r (d_leadership d) (d_latest d) (d_key d).
Definition d_set_leadership (d : durable) g := mkDurable (d_installation d) (d_node d) (d_role d) g (Z.max (d_latest d) g) (d_key d).
Definition d_set_latest (d : durable) g := mkDurable (d_installation d) (d_node d) (d_role d) (d_leadership d) (Z.max (d_latest d) g) (d_key d).
Definition d_set_key (d : durable) k := mkDurable (d_installation d) (d_node d) (d_role d) (d_leadership d) (d_latest d) k.
(** Generations are 64-bit; the columns that hold them are signed. *)
Definition generation_ok (g : Z) : Prop := (0 <= g < 2 ^ 63)%Z.
Definition generations_ok (d : durable) : Prop := generation_ok (d_leadership d) /\ generation_ok (d_latest d).

Section laws.
Context (S : Type) `{!IdentityStore S}.
(** An update, as seen by [stored]: done when it succeeds, nothing when it fails. *)
Definition updates (stored : S -> option durable) (r : S * identified unit) (s : S) (f : durable -> durable) : Prop :=
  match r with
  | (s', Ok _) => forall d, stored s = Some d -> stored s' = Some (f d)
  | (s', Err _) => stored s' = stored s
  end.
Class IdentityStoreLaws := {
  stored : S -> option durable;
  (** the identifiers the store reads back as written *)
  key_ok : uuid -> Prop;
  Get_law s : let '(s', r) := Get s in stored s' = stored s
    /\ (forall id, r = Ok id -> stored s = Some (durable_of id)) /\ (r = Err ErrNotFound -> stored s = None);
  Ensure_law s installation node : let '(s', r) := Ensure s installation node in
    match r with
    | Ok (id, created) => stored s' = Some (durable_of id)
        /\ (if created then stored s = None /\ Role id = TopologyRoleStandalone /\ LeadershipGeneration id = 1%Z /\ LatestKnownGeneration id = 1%Z
              /\ ClusterKeyID id = None
            else stored s' = stored s)
    | Err _ => stored s' = stored s
    end;
  UpdateRole_law s role : updates stored (UpdateRole s role) s (fun d => d_set_role d role);
  UpdateLeadershipGeneration_law s g d : generation_ok g -> stored s = Some d -> generations_ok d ->
    updates stored (UpdateLeadershipGeneration s g) s (fun d => d_set_leadership d g);
  UpdateLatestKnownGeneration_law s g d : generation_ok g -> stored s = Some d -> generations_ok d ->
    updates stored (UpdateLatestKnownGeneration s g) s (fun d => d_set_latest d g);
  UpdateClusterKeyID_law s key : (forall k, key = Some k -> key_ok k) -> updates stored (UpdateClusterKeyID s key) s (fun d => d_set_key d key);
  Promote_law t s input d : Topology = Some t -> stored s = Some d -> generations_ok d -> generation_ok (PNextGeneration input) ->
    let '(s', r) := PromoteTopology t s input in
    match r with
    | Ok change => d_role d = PFromRole input /\ promotableFrom (d_role d) = true /\ d_leadership d = PFromGeneration input
        /\ (d_latest d < PNextGeneration input)%Z
        /\ stored s' = Some (d_set_key (d_set_leadership (d_set_role d TopologyRolePrimary) (PNextGeneration input)) None)
        /\ ChGeneration change = PNextGeneration input /\ ChKey change = None
    | Err _ => stored s' = stored s
    end;
  Demote_law t s input d : Topology = Some t -> stored s = Some d -> generations_ok d ->
    let '(s', r) := DemoteTopology t s input in
    match r with
    | Ok change => d_role d = DFromRole input /\ (d_role d = TopologyRolePrimary \/ d_role d = TopologyRolePrimaryWithNodes)
        /\ d_leadership d = DFromGeneration input
        /\ stored s' = Some (d_set_key (d_set_role d TopologyRoleNode) None)
        /\ ChGeneration change = d_leadership d /\ ChKey change = None
    | Err _ => stored s' = stored s
    end }.
End laws.
Arguments stored {S _ _}.
Arguments key_ok {S _ _}.
Arguments Get_law {S _ _}.
Arguments Ensure_law {S _ _}.
Arguments UpdateRole_law {S _ _}.
Arguments UpdateLeadershipGeneration_law {S _ _}.
Arguments UpdateLatestKnownGeneration_law {S _ _}.
Arguments UpdateClusterKeyID_law {S _ _}.
Arguments Promote_law {S _ _}.
Arguments Demote_law {S _ _}.
