(* ===== verification/InstallationFacts.v ===== *)
(** * The cached identity is the durable one, and promotions outrank what was seen

    Proved against the interface [IdentityStore]: whatever calls of the store fail, a method
    of the service changes the cache exactly as it changed the store, generations only grow,
    and a promotion lands above every generation the installation has held, observed or
    joined. *)

From S2P Require Import Prelude GoStrings Json Identity Topology Snapshot Jobs Store Installation.
From stdpp Require Import options.

Ltac proj := unfold d_set_role, d_set_leadership, d_set_latest, d_set_key, set_role, set_leadership, set_latest, set_key; cbn [d_installation d_node d_role d_leadership d_latest d_key InstallationID NodeID Role LeadershipGeneration LatestKnownGeneration ClusterKeyID set_role set_leadership set_latest set_key fst snd].

(** The service judges transitions as the state machine of the cluster package does. *)
Lemma matrices_agree from to : Installation.isAllowedTransition from to = Topology.isAllowedTransition from to.
Proof. done. Qed.

Section facts.
Context {S : Type} `{!IdentityStore S} `{!IdentityStoreLaws S}.
Context (topology : TopologyStore S) (Htop : Topology = Some topology).
Local Abbreviation M := (M (S:=S)).
Local Abbreviation world := (world S).
Implicit Types (w : world) (i : Identity) (d : durable) (s : S).

(** ** Coherence *)
Definition good d i : Prop := generations_ok d /\ (d_leadership d <= d_latest d)%Z
  /\ durable_of i = d_set_role d (Role i) /\ (Role i = d_role d \/ Role i = TopologyRoleStalePrimary).
Definition provision_ok (p : S -> S * identified uuid) : Prop := forall s s' r, p s = (s', r) ->
  stored s' = stored s /\ forall k, r = Ok k -> key_ok k.
(** The cache shows what is stored; at worst it is more cautious about the role. *)
Definition coherent w : Prop := loaded w.2 = true /\ (forall p, provisionClusterKey w.2 = Some p -> provision_ok p)
  /\ exists d, stored w.1 = Some d /\ good d (cached w.2).
Definition grows w w' : Prop := forall d d', stored w.1 = Some d -> stored w'.1 = Some d' ->
  (d_leadership d <= d_leadership d')%Z /\ (d_latest d <= d_latest d')%Z.
Definition advances w w' : Prop := coherent w' /\ grows w w'.
Definition keeps_at {A} w (m : M A) : Prop := coherent w -> forall w' r, m w = (w', r) -> advances w w'.

Lemma advances_refl w : coherent w -> advances w w.
Proof. intros H. split; [done|]. intros d d' -> [= ->]. lia. Qed.
Lemma advances_trans w1 w2 w3 : advances w1 w2 -> advances w2 w3 -> advances w1 w3.
Proof.
  intros [(_&_&d2&H2&_) G12] [Hc G23]. split; [done|]. intros d1 d3 H1 H3. specialize (G12 _ _ H1 H2). specialize (G23 _ _ H2 H3). lia.
Qed.
Lemma bind_cases {A B} (m : M A) (f : A -> M B) w w' r : (m ≫= f) w = (w', r) ->
  (exists w1 a, m w = (w1, Ok a) /\ f a w1 = (w', r)) \/ (exists e, m w = (w', Err e) /\ r = Err e).
Proof. unfold mbind, M_bind. destruct (m w) as [w1 [a|e]]; [intros H; left; eauto|]. intros [= <- <-]. right; eauto. Qed.
Lemma keeps_bind {A B} w (m : M A) (f : A -> M B) : keeps_at w m ->
  (forall w1 a, m w = (w1, Ok a) -> coherent w1 -> keeps_at w1 (f a)) -> keeps_at w (m ≫= f).
Proof.
  intros Hm Hf Hc w' r [(w1&a&H1&H2)|(e&H1&_)]%bind_cases; [|by apply (Hm Hc) in H1].
  pose proof (Hm Hc _ _ H1) as A1. eapply advances_trans; [exact A1|]. by apply (Hf _ _ H1 (proj1 A1) (proj1 A1)) in H2.
Qed.
Lemma keeps_ret {A} w (a : A) : keeps_at w (mret a).
Proof. intros Hc w' r [= <- _]. by apply advances_refl. Qed.
Lemma keeps_throw {A} w e : keeps_at w (throw e : M A).
Proof. intros Hc w' r [= <- _]. by apply advances_refl. Qed.
Lemma keeps_current {B} w (f : Identity -> M B) : (coherent w -> keeps_at w (f (cached w.2))) -> keeps_at w (id ← current; f id).
Proof. intros H Hc. by apply H. Qed.
Lemma keeps_same {A} w (m : M A) : (forall w' r, m w = (w', r) -> w' = w) -> keeps_at w m.
Proof. intros H Hc w' r E. rewrite (H _ _ E). by apply advances_refl. Qed.
Lemma keeps_attempt {A} w (m : M A) : keeps_at w m -> keeps_at w (attempt m).
Proof. intros H Hc w' r. unfold attempt. destruct (m w) as [w1 r1] eqn:E. intros [= <- _]. by apply (H Hc) in E. Qed.
Lemma keeps_current_end w : keeps_at w current.
Proof. apply keeps_same. by intros w' r [= <- _]. Qed.

(** A store update and the same change of the cache. *)
Lemma keeps_update {A} w (op : S -> S * identified unit) (f : durable -> durable) (g : Identity -> Identity) (rest : M A) :
  (forall d, stored w.1 = Some d -> good d (cached w.2) -> updates S stored (op w.1) w.1 f) ->
  (forall d, stored w.1 = Some d -> good d (cached w.2) -> good (f d) (g (cached w.2))
    /\ (d_leadership d <= d_leadership (f d))%Z /\ (d_latest d <= d_latest (f d))%Z) ->
  (forall s', coherent (s', mkService (g (cached w.2)) (loaded w.2) (provisionClusterKey w.2)) ->
    keeps_at (s', mkService (g (cached w.2)) (loaded w.2) (provisionClusterKey w.2)) rest) ->
  keeps_at w (call op;; set_cached g;; rest).
Proof.
  intros Hop Hg Hrest Hc w' r. pose proof Hc as (Hl&Hp&d&Hd&Hgood). specialize (Hop d Hd Hgood). specialize (Hg d Hd Hgood).
  unfold mbind, M_bind, call, set_cached, updates in *. destruct (op w.1) as [s' [u|e]]; cbn [fst snd].
  - specialize (Hop d Hd). destruct Hg as (Hg&Hle1&Hle2). intros H.
    assert (coherent (s', mkService (g (cached w.2)) (loaded w.2) (provisionClusterKey w.2))) as Hc1.
    { split; [done|]. split; [done|]. exists (f d). done. }
    eapply advances_trans; [|by apply (Hrest s' Hc1 Hc1) in H]. split; [done|]. intros d0 d1. cbn. rewrite Hd, Hop.
    intros [= <-] [= <-]. done.
  - intros [= <- _]. split.
    + split; [done|]. split; [done|]. exists d. cbn. by rewrite Hop.
    + intros d0 d1. cbn. rewrite Hop. intros -> [= ->]. lia.
Qed.
Lemma keeps_update_end w (op : S -> S * identified unit) (f : durable -> durable) (g : Identity -> Identity) :
  (forall d, stored w.1 = Some d -> good d (cached w.2) -> updates S stored (op w.1) w.1 f) ->
  (forall d, stored w.1 = Some d -> good d (cached w.2) -> good (f d) (g (cached w.2))
    /\ (d_leadership d <= d_leadership (f d))%Z /\ (d_latest d <= d_latest (f d))%Z) ->
  keeps_at w (call op;; set_cached g).
Proof.
  intros Hop Hg Hc w' r H. apply (keeps_update w op f g (mret tt) Hop Hg ltac:(intros; apply keeps_ret) Hc w' r).
  rewrite <- H. unfold mbind, M_bind, call, set_cached. by destruct (op w.1) as [s' [u|e]].
Qed.
Lemma good_parts d i : good d i -> InstallationID i = d_installation d /\ NodeID i = d_node d /\ LeadershipGeneration i = d_leadership d
  /\ LatestKnownGeneration i = d_latest d /\ ClusterKeyID i = d_key d /\ generations_ok d /\ (d_leadership d <= d_latest d)%Z.
Proof. intros (Hg&Hle&H&_). destruct d, i. unfold durable_of, d_set_role in H. cbn in *. injection H as -> -> -> -> ->. done. Qed.
Lemma good_intro d i : generations_ok d -> (d_leadership d <= d_latest d)%Z -> durable_of i = d -> good d i.
Proof. intros Hg Hle <-. split; [done|]. split; [done|]. by split; [destruct i|left; destruct i]. Qed.
Lemma good_same d i : good d i -> forall j, durable_of j = durable_of i -> good d j.
Proof. intros (Hg&Hle&H&Hr) j Hj. assert (Role j = Role i) as E by (by injection Hj). unfold good. rewrite E, Hj. done. Qed.

(** *** Updates of single fields *)
Ltac parts H := let H1 := fresh "Hi" in let H2 := fresh "Hn" in let H3 := fresh "Hl" in let H4 := fresh "Hk" in let H5 := fresh "Hc" in
  let H6 := fresh "Hok" in let H7 := fresh "Hle" in pose proof (good_parts _ _ H) as (H1&H2&H3&H4&H5&H6&H7).
Lemma good_role d i r : good d i -> good (d_set_role d r) (set_role i r).
Proof. intros H. parts H. apply good_intro; [done|done|]. unfold durable_of, d_set_role. cbn. congruence. Qed.
Lemma good_key d i k : good d i -> good (d_set_key d k) (set_key i k).
Proof.
  intros H. parts H. destruct H as (_&_&_&Hr). split; [done|]. split; [done|]. split; [|done].
  unfold durable_of, d_set_role, d_set_key. cbn. congruence.
Qed.
Lemma good_latest d i g : generation_ok g -> good d i -> good (d_set_latest d g) (raise_latest g i).
Proof.
  intros Hg H. parts H. destruct H as (_&_&_&Hr). unfold raise_latest. rewrite Hk. unfold good, generations_ok, generation_ok in *.
  split; [proj; lia|]. split; [proj; lia|]. destruct (d_latest d <? g)%Z eqn:E; bsimp; (split; [|done]);
    unfold durable_of; proj; f_equal; (congruence || lia).
Qed.
Lemma good_leadership d i g : generation_ok g -> (d_leadership d <= g)%Z -> good d i ->
  good (d_set_leadership d g) (raise_latest g (set_leadership i g)).
Proof.
  intros Hg Hge H. parts H. destruct H as (_&_&_&Hr). unfold raise_latest. cbn [LatestKnownGeneration set_leadership]. rewrite Hk.
  unfold good, generations_ok, generation_ok in *.
  split; [proj; lia|]. split; [proj; lia|]. destruct (d_latest d <? g)%Z eqn:E; bsimp; (split; [|done]);
    unfold durable_of; proj; f_equal; (congruence || lia).
Qed.

(** ** The methods *)
Lemma TransitionTo_keeps w r : keeps_at w (TransitionTo r).
Proof.
  unfold TransitionTo. destruct (negb _); [apply keeps_throw|]. apply keeps_current. intros _.
  destruct (_ =? r); [apply keeps_ret|]. destruct (negb _); [apply keeps_throw|].
  apply (keeps_update _ _ (fun d => d_set_role d r)); [intros d _ _; apply UpdateRole_law| |intros; apply keeps_current_end].
  intros d _ Hg. split; [by apply good_role|]. proj. lia.
Qed.
Lemma Import_keeps w g : generation_ok g -> keeps_at w (RecordImportedSnapshot g).
Proof.
  intros Hgen. unfold RecordImportedSnapshot. apply keeps_current. intros _. apply (keeps_update _ _ (fun d => d_set_latest d g)).
  - intros d Hd Hg. eapply UpdateLatestKnownGeneration_law; [done|exact Hd|]. by parts Hg.
  - intros d _ Hg. split; [by apply good_latest|]. proj. lia.
  - intros s' Hc. apply keeps_bind; [|intros; apply keeps_current_end].
    destruct (_ && _ && _); [|apply keeps_ret]. apply (keeps_update_end _ _ (fun d => d_set_role d TopologyRoleStalePrimary)); [intros d _ _; apply UpdateRole_law|].
    intros d _ Hg. split; [by apply good_role|]. proj. lia.
Qed.
Lemma keeps_call {A B} w (op : S -> S * identified A) (f : A -> M B) :
  (stored (op w.1).1 = stored w.1) ->
  (forall s' a, op w.1 = (s', Ok a) -> coherent (s', w.2) -> keeps_at (s', w.2) (f a)) -> keeps_at w (a ← call op; f a).
Proof.
  intros Hs Hf. apply keeps_bind.
  - intros Hc w' r. unfold call. destruct (op w.1) as [s' r1] eqn:E. intros [= <- _]. cbn in Hs. destruct Hc as (Hl&Hp&d&Hd&Hg).
    split; [split; [done|]; split; [done|]; exists d; cbn; by rewrite Hs|]. intros d1 d2. cbn. rewrite Hs. intros -> [= ->]. lia.
  - intros w1 a. unfold call. destruct (op w.1) as [s' r1] eqn:E. intros [= <- ->] Hc. by apply Hf.
Qed.
Lemma ensureKey_keeps w : keeps_at w ensureClusterKeyLocked.
Proof.
  intros Hc w' r. pose proof Hc as (_&Hp&_). unfold ensureClusterKeyLocked. destruct (provisionClusterKey w.2) as [p|] eqn:Ep;
    [|by apply keeps_ret]. destruct (ClusterKeyID (cached w.2)); [by apply keeps_ret|]. destruct (_ || _ || _); [|by apply keeps_ret].
  specialize (Hp p eq_refl). destruct (p w.1) as [s1 r1] eqn:E1. destruct (Hp _ _ _ E1) as [Hs1 Hk]. revert w' r. apply keeps_call; [by rewrite E1| |done].
  intros s' k. rewrite E1. intros [= <- ->] Hc1. destruct (k =? uuid_Nil); [apply keeps_throw|].
  apply (keeps_update_end _ _ (fun d => d_set_key d (Some k))).
  - intros d _ _. apply UpdateClusterKeyID_law. intros k' [= <-]. by apply Hk.
  - intros d _ Hg. split; [by apply good_key|]. proj. lia.
Qed.
Lemma key_error_keeps w : keeps_at w key_error.
Proof. unfold key_error. apply keeps_bind; [apply keeps_attempt, ensureKey_keeps|]. intros; apply keeps_ret. Qed.

Lemma next_generation_spec w : coherent w -> exists r, next_generation (cached w.2) w = (w, r)
  /\ forall next, r = Ok next -> forall d, stored w.1 = Some d -> (d_latest d < next <= d_latest d + 1)%Z.
Proof.
  intros (_&_&d0&Hd0&Hg). parts Hg. unfold next_generation, must, LeadershipGeneration_Next. rewrite Hl, Hk.
  destruct (d_leadership d0 =? MaxUint64)%Z; [eexists; split; [done|done]|]. unfold mbind at 1, M_bind at 1. cbn [mret M_ret].
  destruct (d_leadership d0 + 1 <=? d_latest d0)%Z eqn:E; bsimp.
  - destruct (d_latest d0 =? MaxUint64)%Z; [eexists; split; [done|done]|]. eexists. split; [done|]. intros next [= <-] d. rewrite Hd0. intros [= <-]. lia.
  - eexists. split; [done|]. intros next [= <-] d. rewrite Hd0. intros [= <-]. lia.
Qed.
(** Room for one more generation in the signed column. *)
Definition headroom w : Prop := forall d, stored w.1 = Some d -> (d_latest d + 1 < 2 ^ 63)%Z.
Lemma Promote_keeps w actor expected : headroom w -> keeps_at w (Promote actor expected).
Proof using All.
  intros Hr. unfold Promote. apply keeps_current. intros Hc. destruct (negb (promotableFrom _)); [apply keeps_throw|].
  destruct (negb (expected_matches _ _)); [apply keeps_throw|].
  destruct (next_generation_spec w Hc) as (rn&Hn&Hnext). apply keeps_bind; [apply keeps_same; intros w' r; rewrite Hn; by intros [= <- _]|].
  intros w1 next H1 _. rewrite Hn in H1. injection H1 as <- ->. specialize (Hnext next eq_refl). rewrite Htop.
  intros _ w' r. pose proof Hc as (Hl&Hp&d&Hd&Hg). specialize (Hnext d Hd). specialize (Hr d Hd). parts Hg.
  assert (generation_ok next) as Hgn by (unfold generations_ok, generation_ok in *; lia).
  pose proof (Promote_law topology w.1 (mkPromote actor (Role (cached w.2)) (LeadershipGeneration (cached w.2)) next) d Htop Hd Hok Hgn) as HP.
  unfold call. unfold mbind at 1, M_bind at 1. destruct (PromoteTopology _ _ _) as [s' [change|e]]; cbn [fst snd].
  - destruct HP as (_&_&_&_&Hs'&Hcg&Hck). cbn [PNextGeneration] in *. unfold set_cached. unfold mbind at 1, M_bind at 1. cbn [fst snd]. rewrite Hcg, Hck.
    set (i := set_key _ None). set (w1 := (s', mkService i (loaded w.2) (provisionClusterKey w.2))).
    assert (advances w w1) as A1.
    { split; [split; [done|]; split; [done|]|].
      - eexists. split; [exact Hs'|]. apply good_key. apply good_leadership; [done|proj; lia|]. by apply good_role.
      - intros d1 d2. cbn [fst w1]. rewrite Hd, Hs'. intros [= <-] [= <-]. proj. lia. }
    intros H. eapply advances_trans; [exact A1|]. revert H. apply keeps_bind; [apply key_error_keeps| |apply A1].
    intros w2 e _ Hc2. apply keeps_current. intros _. apply keeps_ret.
  - intros [= <- _]. split.
    + split; [done|]. split; [done|]. exists d. cbn [fst]. by rewrite HP.
    + intros d1 d2. cbn [fst]. rewrite HP. intros -> [= ->]. lia.
Qed.
Lemma Demote_keeps w actor expected : keeps_at w (Demote actor expected).
Proof using All.
  unfold Demote. apply keeps_current. intros Hc. destruct (negb (_ || _)); [apply keeps_throw|].
  destruct (negb (expected_matches _ _)); [apply keeps_throw|]. rewrite Htop.
  intros _ w' r. pose proof Hc as (Hl&Hp&d&Hd&Hg). parts Hg.
  pose proof (Demote_law topology w.1 (mkDemote actor (Role (cached w.2)) (LeadershipGeneration (cached w.2))) d Htop Hd Hok) as HD.
  unfold call. unfold mbind at 1, M_bind at 1. destruct (DemoteTopology _ _ _) as [s' [change|e]]; cbn [fst snd].
  - destruct HD as (_&_&_&Hs'&_&Hck). unfold set_cached. unfold mbind at 1, M_bind at 1. cbn [fst snd]. rewrite Hck.
    set (i := set_key _ None). set (w1 := (s', mkService i (loaded w.2) (provisionClusterKey w.2))).
    assert (advances w w1) as A1.
    { split; [split; [done|]; split; [done|]|].
      - eexists. split; [exact Hs'|]. by apply good_key, good_role.
      - intros d1 d2. cbn [fst w1]. rewrite Hd, Hs'. intros [= <-] [= <-]. proj. lia. }
    intros H. eapply advances_trans; [exact A1|]. revert H. apply keeps_current; [|apply A1]. intros _. apply keeps_ret.
  - intros [= <- _]. split.
    + split; [done|]. split; [done|]. exists d. cbn [fst]. by rewrite HD.
    + intros d1 d2. cbn [fst]. rewrite HD. intros -> [= ->]. lia.
Qed.
Lemma Load_keeps w : keeps_at w Load.
Proof.
  unfold Load. intros Hc w' r. pose proof Hc as (Hl&Hp&d&Hd&Hg). parts Hg. pose proof (Get_law w.1) as HG.
  unfold mbind, M_bind, call, attach. destruct (Get w.1) as [s' [id|e]]; destruct HG as (Hs&Hget&_); cbn [fst snd]; intros [= <- _].
  - specialize (Hget id eq_refl). rewrite Hd in Hget. injection Hget as Hid.
    split; [split; [done|]; split; [done|]; exists d; cbn [fst snd cached]; rewrite Hs; split; [done|by apply good_intro]|].
    intros d1 d2. cbn [fst]. rewrite Hs. intros -> [= ->]. lia.
  - split; [split; [done|]; split; [done|]; exists d; cbn [fst]; by rewrite Hs|]. intros d1 d2. cbn [fst]. rewrite Hs. intros -> [= ->]. lia.
Qed.
Lemma SetNodeUnlinked_keeps w b : keeps_at w (SetNodeUnlinked b).
Proof.
  intros (Hl&Hp&d&Hd&Hg) w' r [= <- _]. split; [split; [done|]; split; [done|]; exists d; split; [done|]; by eapply good_same|].
  intros d1 d2. cbn [fst]. intros -> [= ->]. lia.
Qed.
(** What the enrollment callback does durably: the role, and nothing when it fails. *)
Definition activation_ok (activate : S -> S * identified TopologyRole) : Prop := forall s s' r d, activate s = (s', r) -> stored s = Some d ->
  match r with Ok role => stored s' = Some (d_set_role d role) | Err _ => stored s' = stored s end.
Lemma Enrollment_keeps w now activate : activation_ok activate -> keeps_at w (WithAtomicEnrollment now (Some activate)).
Proof.
  intros Ha. unfold WithAtomicEnrollment. apply keeps_bind; [apply keeps_same; by intros w' r [= <- _]|]. intros w1 [] _ _.
  apply keeps_bind; [apply ensureKey_keeps|]. intros w2 [] _ _. clear w w1. intros Hc w' r. pose proof Hc as (Hl&Hp&d&Hd&Hg).
  unfold mbind at 1, M_bind at 1, call at 1. destruct (activate w2.1) as [s' [role|e]] eqn:E; specialize (Ha _ _ _ d E Hd); cbn [fst snd].
  2:{ intros [= <- _]. split; [split; [done|]; split; [done|]; exists d; cbn [fst]; by rewrite Ha|]. intros d1 d2. cbn [fst]. rewrite Ha. intros -> [= ->]. lia. }
  assert (Hstay : forall i, good (d_set_role d role) i -> advances w2 (s', mkService i (loaded w2.2) (provisionClusterKey w2.2))).
  { intros i Hi. split; [split; [done|]; split; [done|]; exists (d_set_role d role); done|].
    intros d1 d2. cbn [fst]. rewrite Hd, Ha. intros [= <-] [= <-]. proj. lia. }
  parts Hg. destruct (negb (_ || _)).
  - pose proof (Get_law s') as HG. unfold mbind, M_bind, attempt, call, set_cached, throw. cbn [fst snd].
    destruct (Get s') as [s2 [id|e]]; destruct HG as (Hs2&Hget&_); cbn [fst snd]; intros [= <- _].
    + specialize (Hget id eq_refl). rewrite Ha in Hget. assert (durable_of id = d_set_role d role) as Hid by congruence.
      destruct (Hstay id ltac:(by apply good_intro)) as [(_&_&d'&Hd'&Hg') Hgr].
      split; [split; [done|]; split; [done|]; exists d'; cbn [fst]; by rewrite Hs2|]. intros d1 d2. cbn [fst]. rewrite Hs2. apply Hgr.
    + destruct (Hstay (set_role (cached w2.2) TopologyRoleStalePrimary)) as [(_&_&d'&Hd'&Hg') Hgr].
      { split; [done|]. split; [done|]. split; [|by right]. unfold durable_of. proj. congruence. }
      split; [split; [done|]; split; [done|]; exists d'; cbn [fst]; by rewrite Hs2|]. intros d1 d2. cbn [fst]. rewrite Hs2. apply Hgr.
  - unfold mbind, M_bind, set_cached, current. cbn [fst snd]. intros [= <- _]. apply Hstay.
    eapply good_same; [by apply good_role|]. done.
Qed.
Lemma Commit_keeps w key g : generation_ok g -> (forall k, key = Some k -> key_ok k) -> keeps_at w (CommitNodeEnrollment key g).
Proof.
  intros Hgen Hkey. unfold CommitNodeEnrollment. apply keeps_bind; [apply keeps_same; by intros w' r [= <- _]|]. intros w1 [] H1 _.
  injection H1 as <- _. destruct (match key with Some k => _ | None => _ end); [apply keeps_throw|]. apply keeps_current. intros Hc.
  destruct (alreadyCommitted _ _ _); [apply keeps_ret|]. destruct (negb (CanEnrollAsNode _)); [apply keeps_throw|].
  apply keeps_bind.
  { destruct (Role _ =? TopologyRoleNode); [apply keeps_ret|]. destruct (negb _); [apply keeps_throw|].
    apply (keeps_update_end _ _ (fun d => d_set_role d TopologyRoleNode)); [intros d _ _; apply UpdateRole_law|].
    intros d _ Hg. split; [by apply good_role|]. proj. lia. }
  intros w2 [] H2 _. assert (LeadershipGeneration (cached w2.2) = LeadershipGeneration (cached w.2)) as Hlg.
  { revert H2. destruct (Role _ =? TopologyRoleNode); [by intros [= <-]|]. destruct (negb _); [done|]. unfold mbind, M_bind, call, set_cached.
    destruct (UpdateRole _ _) as [s' [|]]; [|done]. by intros [= <-]. }
  clear H2. apply keeps_bind.
  - destruct (_ <? _)%Z eqn:E; [|apply keeps_ret]. apply Z.ltb_lt in E.
    apply (keeps_update_end _ _ (fun d => d_set_leadership d g)).
    + intros d Hd Hg. eapply UpdateLeadershipGeneration_law; [done|exact Hd|]. by parts Hg.
    + intros d _ Hg. parts Hg. split; [apply good_leadership; [done|lia|done]|]. proj. lia.
  - intros w3 [] _ _. apply keeps_bind; [|intros; apply keeps_current_end]. destruct key as [k|]; [|apply keeps_ret].
    apply (keeps_update_end _ _ (fun d => d_set_key d (Some k))).
    + intros d _ _. by apply UpdateClusterKeyID_law.
    + intros d _ Hg. split; [by apply good_key|]. proj. lia.
Qed.

(** ** Everything that may happen *)
Inductive step w : world -> Prop :=
| step_transition role : step w (TransitionTo role w).1
| step_import g : generation_ok g -> step w (RecordImportedSnapshot g w).1
| step_promote actor expected : headroom w -> step w (Promote actor expected w).1
| step_demote actor expected : step w (Demote actor expected w).1
| step_enroll now activate : activation_ok activate -> step w (WithAtomicEnrollment now (Some activate) w).1
| step_join key g : generation_ok g -> (forall k, key = Some k -> key_ok k) -> step w (CommitNodeEnrollment key g w).1
| step_unlinked b : step w (SetNodeUnlinked b w).1
| step_load : step w (Load w).1.
Lemma keeps_fst {A} w (m : M A) : keeps_at w m -> coherent w -> advances w (m w).1.
Proof. intros H Hc. apply (H Hc _ (m w).2). by destruct (m w). Qed.
Lemma step_advances w w' : coherent w -> step w w' -> advances w w'.
Proof using All.
  intros Hc [role|g Hg|actor expected Hr|actor expected|now activate Ha|key g Hg Hk|b|]; apply keeps_fst; try done.
  - apply TransitionTo_keeps.
  - by apply Import_keeps.
  - by apply Promote_keeps.
  - apply Demote_keeps.
  - by apply Enrollment_keeps.
  - by apply Commit_keeps.
  - apply SetNodeUnlinked_keeps.
  - apply Load_keeps.
Qed.
Lemma steps_advance w w' : coherent w -> rtc step w w' -> advances w w'.
Proof using All.
  intros Hc H. induction H as [w|w1 w2 w3 H12 _ IH]; [by apply advances_refl|]. apply (step_advances _ _ Hc) in H12.
  eapply advances_trans; [exact H12|]. by apply IH, H12.
Qed.

(** *** What is learned of other generations *)
Lemma call_inv {A} (op : S -> S * identified A) w w' r : call op w = (w', r) -> w'.2 = w.2 /\ op w.1 = (w'.1, r).
Proof. unfold call. destruct (op w.1). by intros [= <- <-]. Qed.
Lemma set_cached_inv f w w' r : set_cached f w = (w', r) -> w'.1 = w.1 /\ cached w'.2 = f (cached w.2) /\ r = Ok tt.
Proof. by intros [= <- <-]. Qed.
Lemma bind_current {A} (f : Identity -> M A) w : (id ← current; f id) w = f (cached w.2) w.
Proof. done. Qed.
Definition ranks i : TopologyRole * Z * Z := (Role i, LeadershipGeneration i, LatestKnownGeneration i).
Lemma ensureKey_ranks w w' r : ensureClusterKeyLocked w = (w', r) -> ranks (cached w'.2) = ranks (cached w.2).
Proof.
  unfold ensureClusterKeyLocked. destruct (provisionClusterKey w.2); [|by intros [= <- _]]. destruct (ClusterKeyID _); [by intros [= <- _]|].
  destruct (_ || _ || _); [|by intros [= <- _]]. intros [(w1&k&H1&H)|(e&H1&_)]%bind_cases; apply call_inv in H1 as [E1 _].
  2:{ by rewrite E1. }
  destruct (k =? uuid_Nil); [injection H as <- _; by rewrite E1|].
  apply bind_cases in H as [(w2&[]&H2&H)|(e&H2&_)]; apply call_inv in H2 as [E2 _]; [|by rewrite E2, E1].
  apply set_cached_inv in H as (_&->&_). by rewrite E2, E1.
Qed.
Lemma Promote_ok w w' actor expected res : coherent w -> headroom w -> Promote actor expected w = (w', Ok res) ->
  PrIdentity res = cached w'.2 /\ Role (PrIdentity res) = TopologyRolePrimary
  /\ exists d, stored w.1 = Some d /\ (d_latest d < LeadershipGeneration (PrIdentity res))%Z /\ PrPreviousGeneration res = d_leadership d.
Proof using All.
  intros Hc Hr. pose proof Hc as (Hl&Hp&d&Hd&Hg). destruct (next_generation_spec w Hc) as (rn&Hnx&Hnext). parts Hg.
  unfold Promote. rewrite bind_current. destruct (negb (promotableFrom _)); [done|].
  destruct (negb (expected_matches _ _)); [done|]. intros [(wn&next&Hn1&H)|(e&_&?)]%bind_cases; [|done]. rewrite Hnx in Hn1. injection Hn1 as <- ->. revert H.
  specialize (Hnext next eq_refl d Hd). specialize (Hr d Hd). rewrite Htop.
  assert (generation_ok next) as Hgn by (unfold generations_ok, generation_ok in *; lia).
  intros [(w1&change&H1&H)|(e&_&?)]%bind_cases; [|done]. apply call_inv in H1 as [E1 H1].
  pose proof (Promote_law topology w.1 (mkPromote actor (Role (cached w.2)) (LeadershipGeneration (cached w.2)) next) d Htop Hd Hok Hgn) as HP.
  rewrite H1 in HP. destruct HP as (_&_&_&_&_&Hcg&_). cbn [PNextGeneration] in Hcg.
  apply bind_cases in H as [(w2&[]&H2&H)|(e&_&?)]; [|done]. apply set_cached_inv in H2 as (_&E2&_).
  apply bind_cases in H as [(w3&e&H3&H)|(e&_&?)]; [|done]. unfold key_error in H3.
  apply bind_cases in H3 as [(w4&r4&H4&H3)|(e'&_&?)]; [|done]. injection H3 as <- _. unfold attempt in H4.
  destruct (ensureClusterKeyLocked w2) as [w5 r5] eqn:E5. injection H4 as -> _. apply ensureKey_ranks in E5.
  injection H as <- <-. cbn [PrIdentity PrPreviousGeneration]. split; [done|]. rewrite E2 in E5. unfold ranks in E5.
  injection E5 as Hrole Hlead _. unfold raise_latest in *. rewrite Hrole, Hlead.
  destruct (_ <? ChGeneration change)%Z; cbn; (split; [done|]; exists d; split; [done|]; split; [lia|done]).
Qed.
(** A generation the installation observes in a snapshot, joins, or is promoted to. *)
Inductive learns (g : Z) w w' : Prop :=
| learns_import id : generation_ok g -> RecordImportedSnapshot g w = (w', Ok id) -> learns g w w'
| learns_join key id : generation_ok g -> (forall k, key = Some k -> key_ok k) -> CommitNodeEnrollment key g w = (w', Ok id) -> learns g w w'
| learns_promotion actor expected res : headroom w -> Promote actor expected w = (w', Ok res) -> g = LeadershipGeneration (PrIdentity res) ->
    learns g w w'.
Lemma Import_latest w w' g id : RecordImportedSnapshot g w = (w', Ok id) -> (g <= LatestKnownGeneration (cached w'.2))%Z.
Proof.
  unfold RecordImportedSnapshot. rewrite bind_current.
  intros [(w1&[]&H1&H)|(e&_&?)]%bind_cases; [|done]. apply call_inv in H1 as [E1 _].
  apply bind_cases in H as [(w2&[]&H2&H)|(e&_&?)]; [|done]. apply set_cached_inv in H2 as (_&E2&_).
  apply bind_cases in H as [(w3&[]&H3&H)|(e&_&?)]; [|done]. injection H as <- _.
  assert (g <= LatestKnownGeneration (cached w2.2))%Z as Hle.
  { rewrite E2. destruct (_ <? g)%Z eqn:E; bsimp; cbn; lia. }
  destruct (_ && _ && _); [|by injection H3 as <-]. apply bind_cases in H3 as [(w4&[]&H4&H3)|(e&_&?)]; [|done].
  apply call_inv in H4 as [E4 _]. apply set_cached_inv in H3 as (_&E3&_). rewrite E3, E4. exact Hle.
Qed.
Lemma Commit_leadership w w' key g id : CommitNodeEnrollment key g w = (w', Ok id) -> (g <= LeadershipGeneration (cached w'.2))%Z.
Proof.
  unfold CommitNodeEnrollment. intros [(w1&[]&H1&H)|(e&_&?)]%bind_cases; [|done]. injection H1 as <- _.
  destruct (match key with Some k => _ | None => _ end); [done|]. rewrite bind_current in H.
  destruct (alreadyCommitted _ _ _) eqn:Ea.
  { injection H as <- _. unfold alreadyCommitted in Ea. bsimp. done. }
  destruct (negb (CanEnrollAsNode _)); [done|]. apply bind_cases in H as [(w2&[]&H2&H)|(e&_&?)]; [|done].
  assert (LeadershipGeneration (cached w2.2) = LeadershipGeneration (cached w.2)) as E2.
  { revert H2. destruct (Role _ =? TopologyRoleNode); [by intros [= <-]|]. destruct (negb _); [done|].
    intros [(w3&[]&H3&H2)|(e&_&?)]%bind_cases; [|done]. apply call_inv in H3 as [E3 _]. apply set_cached_inv in H2 as (_&->&_). by rewrite E3. }
  apply bind_cases in H as [(w3&[]&H3&H)|(e&_&?)]; [|done].
  assert (g <= LeadershipGeneration (cached w3.2))%Z as E3.
  { revert H3. destruct (_ <? g)%Z eqn:E; bsimp; [|intros [= <-]; lia]. intros [(w4&[]&H4&H3)|(e&_&?)]%bind_cases; [|done].
    apply set_cached_inv in H3 as (_&->&_). unfold raise_latest. destruct (_ <? g)%Z; cbn; lia. }
  apply bind_cases in H as [(w4&[]&H4&H)|(e&_&?)]; [|done]. injection H as <- _. destruct key as [k|]; [|by injection H4 as <-].
  apply bind_cases in H4 as [(w5&[]&H5&H4)|(e&_&?)]; [|done]. apply call_inv in H5 as [E5 _]. apply set_cached_inv in H4 as (_&->&_).
  by rewrite E5.
Qed.
Lemma learns_latest g w w' : coherent w -> learns g w w' -> coherent w' /\ exists d, stored w'.1 = Some d /\ (g <= d_latest d)%Z.
Proof using All.
  intros Hc H. assert (coherent w') as Hc'.
  { destruct H as [id Hg H|key id Hg Hk H|actor expected res Hr H _].
    - by apply (Import_keeps _ _ Hg Hc) in H as [? _].
    - by apply (Commit_keeps _ _ _ Hg Hk Hc) in H as [? _].
    - by apply (Promote_keeps _ _ _ Hr Hc) in H as [? _]. }
  split; [done|]. pose proof Hc' as (_&_&d&Hd&Hg'). parts Hg'. exists d. split; [done|].
  destruct H as [id Hg H|key id Hg Hk' H|actor expected res Hr H ->].
  - apply Import_latest in H. lia.
  - apply Commit_leadership in H. lia.
  - apply Promote_ok in H as (->&_); [|done|done]. lia.
Qed.


(** C24: A promotion lands strictly above every generation the installation has observed in a
    snapshot, joined as a node, or been promoted to before, however much happened and failed in
    between, and above the one it replaces; the result is the cached identity, a primary. *)
Theorem promotion_outranks g w0 w1 w2 w3 actor expected res : coherent w0 -> learns g w0 w1 -> rtc step w1 w2 -> headroom w2 ->
  Promote actor expected w2 = (w3, Ok res) ->
  (g < LeadershipGeneration (PrIdentity res))%Z /\ (PrPreviousGeneration res < LeadershipGeneration (PrIdentity res))%Z
  /\ Role (PrIdentity res) = TopologyRolePrimary /\ PrIdentity res = cached w3.2.
Proof using All.
  intros Hc0 Hl Hs Hr Hp. destruct (learns_latest _ _ _ Hc0 Hl) as (Hc1&d1&Hd1&Hg). destruct (steps_advance _ _ Hc1 Hs) as [Hc2 Hgr].
  pose proof Hc2 as (_&_&d2&Hd2&Hgood). parts Hgood. specialize (Hgr _ _ Hd1 Hd2).
  destruct (Promote_ok _ _ _ _ _ Hc2 Hr Hp) as (Hid&Hrole&d&Hd&Hlt&Hprev). rewrite Hd2 in Hd. injection Hd as <-.
  split; [lia|]. split; [lia|]. done.
Qed.
End facts.

(** A conversion interrupted before its last write leaves a node that keeps its own key, and
    refuses to join with another one. *)
Section interrupted.
Context {S : Type} `{!IdentityStore S}.
Definition kept (w w' : world S) : Prop := loaded w'.2 = loaded w.2 /\ ClusterKeyID (cached w'.2) = ClusterKeyID (cached w.2)
  /\ NodeUnlinked (cached w'.2) = NodeUnlinked (cached w.2).
Definition framed {A} (m : M (S:=S) A) : Prop := forall w w' r, m w = (w', r) -> kept w w'.
Lemma framed_bind {A B} (m : M (S:=S) A) (f : A -> M (S:=S) B) : framed m -> (forall a, framed (f a)) -> framed (m ≫= f).
Proof.
  intros Hm Hf w w' r [(w1&a&H1&H2)|(e&H1&_)]%bind_cases; [|by eapply Hm]. apply Hm in H1 as (A1&A2&A3). apply Hf in H2 as (B1&B2&B3).
  unfold kept. by rewrite B1, B2, B3.
Qed.
Lemma framed_same {A} (r : identified A) : framed (fun w => (w, r)).
Proof. by intros w w' r' [= <- _]. Qed.
Lemma framed_call {A} (op : S -> S * identified A) : framed (call op).
Proof. intros w w' r [E _]%call_inv. unfold kept. by rewrite E. Qed.
Lemma framed_set f : (forall i, ClusterKeyID (f i) = ClusterKeyID i /\ NodeUnlinked (f i) = NodeUnlinked i) -> framed (set_cached f).
Proof. intros Hf w w' r [= <- _]. split; [done|]. apply Hf. Qed.
Lemma framed_update (op : S -> S * identified unit) f : (forall i, ClusterKeyID (f i) = ClusterKeyID i /\ NodeUnlinked (f i) = NodeUnlinked i) -> framed (call op;; set_cached f).
Proof. intros Hf. apply framed_bind; [apply framed_call|]. intros []. by apply framed_set. Qed.
Lemma Commit_failed_frame k g (w w' : world S) e : CommitNodeEnrollment (Some k) g w = (w', Err e) -> kept w w'.
Proof.
  unfold CommitNodeEnrollment. intros [(w0&[]&H0&H)|(e0&H0&_)]%bind_cases; injection H0 as <- _; [|done].
  destruct (k =? uuid_Nil); [by injection H as <- _|]. rewrite bind_current in H. destruct (alreadyCommitted _ _ _); [done|].
  destruct (negb _); [by injection H as <- _|].
  assert (Hrole : framed (if Role (cached w.2) =? TopologyRoleNode then mret tt else
    if negb (isAllowedTransition (Role (cached w.2)) TopologyRoleNode) then throw ErrInvalidTransition else
    call (fun s : S => UpdateRole s TopologyRoleNode);; set_cached (fun i => set_role i TopologyRoleNode))).
  { destruct (_ =? _); [apply framed_same|]. destruct (negb _); [apply framed_same|]. by apply framed_update. }
  assert (Hlead : framed (if (LeadershipGeneration (cached w.2) <? g)%Z then
    call (fun s : S => UpdateLeadershipGeneration s g);; set_cached (fun i => raise_latest g (set_leadership i g)) else mret tt)).
  { destruct (_ <? _)%Z; [|apply framed_same]. apply framed_update. intros i. unfold raise_latest. by destruct (_ <? _)%Z. }
  apply bind_cases in H as [(w2&[]&H2&H)|(e2&H2&_)]; apply Hrole in H2; [|done].
  assert (forall w3, kept w2 w3 -> kept w w3) as Htr.
  { intros w3 (B1&B2&B3). destruct H2 as (A1&A2&A3). unfold kept. by rewrite B1, B2, B3. }
  apply bind_cases in H as [(w3&[]&H3&H)|(e3&H3&_)]; apply Hlead, Htr in H3; [|done]. destruct H3 as (K1&K2&K3).
  apply bind_cases in H as [(w4&[]&H4&H)|(e4&H4&_)]; [done|]. apply bind_cases in H4 as [(w5&[]&H5&H4)|(e5&H5&_)]; [done|].
  apply call_inv in H5 as [H5 _]. unfold kept. by rewrite H5.
Qed.
Lemma interrupted_join_refused (w w1 : world S) k0 k g e :
  loaded w.2 = true -> ClusterKeyID (cached w.2) = Some k0 -> NodeUnlinked (cached w.2) = false ->
  CommitNodeEnrollment (Some k) g w = (w1, Err e) -> Role (cached w1.2) = TopologyRoleNode ->
  forall k' g', k' <> k0 -> k' <> uuid_Nil -> CommitNodeEnrollment (Some k') g' w1 = (w1, Err ErrEnrollmentIneligible).
Proof.
  intros Hl Hk Hu Hcommit Hrole k' g' Hne' Hnil'. apply Commit_failed_frame in Hcommit as (Hl1&Hk1&Hu1).
  rewrite Hl in Hl1. rewrite Hk in Hk1. rewrite Hu in Hu1.
  unfold CommitNodeEnrollment. unfold require_loaded. unfold mbind at 1, M_bind at 1. rewrite Hl1.
  destruct (String.eqb_spec k' uuid_Nil); [done|]. rewrite bind_current. unfold alreadyCommitted. rewrite Hk1.
  destruct (String.eqb_spec k0 k'); [done|]. rewrite andb_false_r. cbn [andb].
  unfold CanEnrollAsNode, RoleCanReEnrollAsNode. rewrite Hrole, Hu1, Hk1. done.
Qed.
End interrupted.
