(* ===== verification/InstallationStore.v ===== *)
(** * The identity row in SQLite (identity/sqlite_store.go, sqlite_topology.go)

    The singleton row of installation_identity with what promotion and demotion end: the
    credentials, the enrolled nodes, the cluster keys, the node's own binding. [env] gives the
    clock, the fresh identifiers and the failures of the database, per call. Other columns of
    these tables play no part. *)

From S2P Require Import Prelude GoStrings Json JsonText RProxy Scrub JsonRead Timestamp GoTime Model Identity Topology Snapshot Jobs Store SnapshotClient NodeSync NodeSyncStore Installation.
From stdpp Require Import options.

(** ** Tables *)
Record IdentityRow := mkIdentityRow {
  i_installation : string; i_node : string; i_role : string; i_leadership : Z; i_latest : Z; i_key : option string; i_updated : string }.
Record CredentialRow := mkCredentialRow {
  c_id : string; c_node : string; c_hash : string; c_version : string; c_created : string; c_revoked : option string }.
Record EnrolledRow := mkEnrolledRow {
  e_node : string; e_installation : string; e_primary : string; e_credential : string; e_attempt : string; e_enrolled : string;
  e_revoked : option string; e_unlinked : option string }.
Record KeyRow := mkKeyRow {
  k_id : string; k_purpose : string; k_wrapped : string; k_version : Z; k_created : string; k_retired : option string }.
Record AuditRow := mkAuditRow {
  a_id : string; a_actor : option string; a_action : string; a_type : string; a_resource : string; a_after : string;
  a_correlation : string; a_result : string; a_created : string }.
(** [identity_row]: the row of id 'default'. *)
Record topology_tables := mkTopologyTables {
  identity_row : option IdentityRow; node_credentials : list CredentialRow; enrolled_nodes : list EnrolledRow;
  cluster_keys : list KeyRow; audit_events : list AuditRow; sync : sync_tables }.
Definition set_identity (t : topology_tables) (r : IdentityRow) : topology_tables :=
  mkTopologyTables (Some r) (node_credentials t) (enrolled_nodes t) (cluster_keys t) (audit_events t) (sync t).

#[global] Instance identity_store_failure : StoreFailure identity_error := ErrIdentityStore.
Definition not_null_text (s : string) : bool := negb (has_nul s).
Definition identity_row_ok (r : IdentityRow) : bool :=
  uuidPattern (i_installation r) && uuidPattern (i_node r) && TopologyRole_IsValid (i_role r)
  && opt_all uuidPattern (i_key r) && timestamp_column (i_updated r).
Definition audit_row_ok (users : list string) (r : AuditRow) : bool :=
  uuidPattern (a_id r) && opt_all (contains users) (a_actor r) && not_null_text (a_action r) && not_null_text (a_resource r)
  && json_column (a_after r) && not_null_text (a_correlation r) && timestamp_column (a_created r).
Definition constraint : identity_error := ErrIdentityStore ErrConstraint.

Section sqlite.
Context (uuid_Parse : string -> option uuid).
(** [int64(gen)] and [LeadershipGeneration(column)]. *)
Definition column_of (g : Z) : Z := int64_of g.
Definition generation_of (c : Z) : Z := (c mod 2 ^ 64)%Z.

Definition sqliteScanIdentity (r : IdentityRow) : identified Identity :=
  match DecodeTimestamp (Some (i_updated r)) with
  | Err e => Err (ErrIdentityStore (ErrTimestamp e))
  | Ok (FiniteTimestamp seconds nanos) =>
      let id key := mkIdentity (i_installation r) (i_node r) (i_role r) (generation_of (i_leadership r)) (generation_of (i_latest r)) key
                      (seconds, nanos) false in
      match i_key r with
      | None => Ok (id None)
      | Some text => match uuid_Parse text with Some k => Ok (id (Some k)) | None => Err (ErrOutside "installation_identity cluster_key_id") end
      end
  | Ok _ => Err (ErrOutside "installation_identity updated_at: timestamp must be finite")
  end.
(** [sql.ErrNoRows] is [ErrNotFound]. *)
Definition select_identity (t : topology_tables) : identified Identity :=
  match identity_row t with None => Err ErrNotFound | Some r => sqliteScanIdentity r end.

Definition get_identity (t : topology_tables) : identified Identity :=
  id ← select_identity t;
  if TopologyRole_IsValid (Role id) then Ok id else Err (ErrInvalidRole (Role id)).

Definition ensure_write (t : topology_tables) (now : time) (installation node : string) : topology_tables * identified (Identity * bool) :=
  Write t now (fun stamp t =>
    match select_identity t with
    | Ok id => Ok (t, (id, false))
    | Err ErrNotFound =>
        match uuid_Parse installation, uuid_Parse node with
        | None, _ => Err (ErrOutside "invalid installation id")
        | _, None => Err (ErrOutside "invalid node id")
        | Some i, Some n =>
            let row := mkIdentityRow i n TopologyRoleStandalone 1 1 None stamp in
            if negb (identity_row_ok row) then Err constraint else
            id ← sqliteScanIdentity row; Ok (set_identity t row, (id, true))
        end
    | Err e => Err e
    end).

(** One UPDATE of the singleton row; no row is [ErrNotFound]. An INTEGER column is an int64. *)
Definition update_identity (f : string -> IdentityRow -> IdentityRow) (t : topology_tables) (now : time) : topology_tables * identified unit :=
  Write t now (fun stamp t =>
    match identity_row t with
    | None => Err ErrNotFound
    | Some r => if identity_row_ok (f stamp r) then Ok (set_identity t (f stamp r), tt) else Err constraint
    end).
Definition row_role (role stamp : string) (r : IdentityRow) : IdentityRow :=
  mkIdentityRow (i_installation r) (i_node r) role (i_leadership r) (i_latest r) (i_key r) stamp.
Definition row_leadership (g : Z) (stamp : string) (r : IdentityRow) : IdentityRow :=
  mkIdentityRow (i_installation r) (i_node r) (i_role r) (column_of g) (Z.max (int64_of (i_latest r)) (column_of g)) (i_key r) stamp.
Definition row_latest (g : Z) (stamp : string) (r : IdentityRow) : IdentityRow :=
  mkIdentityRow (i_installation r) (i_node r) (i_role r) (i_leadership r) (Z.max (int64_of (i_latest r)) (column_of g)) (i_key r) stamp.
Definition row_key (k : option string) (stamp : string) (r : IdentityRow) : IdentityRow :=
  mkIdentityRow (i_installation r) (i_node r) (i_role r) (i_leadership r) (i_latest r) k stamp.

(** ** Promotion and demotion *)
Definition revoke_credential (stamp : string) (r : CredentialRow) : CredentialRow :=
  match c_revoked r with
  | Some _ => r
  | None => mkCredentialRow (c_id r) (c_node r) (c_hash r) (c_version r) (c_created r) (Some stamp)
  end.
Definition revoke_node (stamp : string) (r : EnrolledRow) : EnrolledRow :=
  match e_revoked r with
  | Some _ => r
  | None => mkEnrolledRow (e_node r) (e_installation r) (e_primary r) (e_credential r) (e_attempt r) (e_enrolled r) (Some stamp) (e_unlinked r)
  end.
Definition retire_key (stamp : string) (r : KeyRow) : KeyRow :=
  match k_retired r with
  | Some _ => r
  | None => mkKeyRow (k_id r) (k_purpose r) (k_wrapped r) (k_version r) (k_created r) (Some stamp)
  end.
Definition live_credential (r : CredentialRow) : bool := match c_revoked r with None => true | Some _ => false end.
Definition sqliteRetireClusterRelationships (stamp : string) (t : topology_tables) : topology_tables * Z :=
  (mkTopologyTables (identity_row t) (map (revoke_credential stamp) (node_credentials t)) (map (revoke_node stamp) (enrolled_nodes t))
     (map (retire_key stamp) (cluster_keys t)) (audit_events t) (sync t),
   Z.of_nat (length (List.filter live_credential (node_credentials t)))).
Definition reset_node_state (stamp : string) (r : NodeStateRow) : NodeStateRow := mkNodeState (n_id r) None None None 0 0 None None stamp.
(** The node's binding and its sync progress end with the relationship. *)
Definition reset_binding (stamp : string) (t : topology_tables) : topology_tables :=
  let s := sync t in
  mkTopologyTables (identity_row t) (node_credentials t) (enrolled_nodes t) (cluster_keys t) (audit_events t)
    (mkTables (map (reset_node_state stamp) (node_state s))
       (List.filter (fun r => negb (h_component r =? nodeSyncHealthComponent)) (health_observations s)) (core s)).
Definition sqliteInsertTopologyAudit (ids : string * string) (stamp action actor : string) (subject : Identity) (after : list (string * json))
    (t : topology_tables) : identified topology_tables :=
  let row := mkAuditRow ids.1 (if actor =? "" then None else Some actor) action "installation_identity" (InstallationID subject)
               (wire true (JObj after)) ids.2 "success" stamp in
  if audit_row_ok (users (core (sync t))) row && forallb (fun r => negb (a_id r =? a_id row)) (audit_events t) then
    Ok (mkTopologyTables (identity_row t) (node_credentials t) (enrolled_nodes t) (cluster_keys t) (audit_events t ++ [row]) (sync t))
  else Err constraint.
Definition auditActionPromote : string := "topology.promote".
Definition auditActionDemote : string := "topology.demote".
Definition promote_tables (ids : string * string) (now : time) (t : topology_tables) (input : PromoteInput) : topology_tables * identified TopologyChange :=
  Write t now (fun stamp t =>
    current ← select_identity t;
    if negb (promotableFrom (Role current)) || negb (Role current =? PFromRole input) then Err ErrInvalidTransition else
    if negb (LeadershipGeneration current =? PFromGeneration input)%Z then Err ErrGenerationMismatch else
    if (PNextGeneration input <=? LatestKnownGeneration current)%Z then Err ErrGenerationMismatch else
    match identity_row t with
    | None => Err ErrNotFound
    | Some r =>
        let row := mkIdentityRow (i_installation r) (i_node r) TopologyRolePrimary (column_of (PNextGeneration input))
                     (Z.max (int64_of (i_latest r)) (column_of (PNextGeneration input))) None stamp in
        if negb (identity_row_ok row) then Err constraint else
        let '(t, revoked) := sqliteRetireClusterRelationships stamp (set_identity t row) in
        let t := reset_binding stamp t in
        t ← sqliteInsertTopologyAudit ids stamp auditActionPromote (PActorUserID input) current
              [("clusterKeyRotated", JBool true); ("generation", JNum (column_of (PNextGeneration input)));
               ("previousGeneration", JNum (column_of (LeadershipGeneration current))); ("previousRole", JStr (Role current));
               ("revokedCredentials", JNum revoked); ("role", JStr TopologyRolePrimary)] t;
        Ok (t, mkChange TopologyRolePrimary (PNextGeneration input) None revoked)
    end).
Definition demote_tables (ids : string * string) (now : time) (t : topology_tables) (input : DemoteInput) : topology_tables * identified TopologyChange :=
  Write t now (fun stamp t =>
    current ← select_identity t;
    if negb ((Role current =? TopologyRolePrimary) || (Role current =? TopologyRolePrimaryWithNodes)) || negb (Role current =? DFromRole input)
    then Err ErrInvalidTransition else
    if negb (LeadershipGeneration current =? DFromGeneration input)%Z then Err ErrGenerationMismatch else
    let '(t, revoked) := sqliteRetireClusterRelationships stamp t in
    match identity_row t with
    | None => Err ErrNotFound
    | Some r =>
        let row := row_key None stamp (row_role TopologyRoleNode stamp r) in
        if negb (identity_row_ok row) then Err constraint else
        t ← sqliteInsertTopologyAudit ids stamp auditActionDemote (DActorUserID input) current
              [("generation", JNum (column_of (LeadershipGeneration current))); ("previousRole", JStr (Role current));
               ("revokedCredentials", JNum revoked); ("role", JStr TopologyRoleNode)] (set_identity t row);
        Ok (t, mkChange TopologyRoleNode (LeadershipGeneration current) None revoked)
    end).

(** ** The store *)
Record environment := mkEnvironment {
  env_now : nat -> time; env_ids : nat -> string * string; env_failure : nat -> option string }.
Context (env : environment).
Record sqlite := mkSqlite { tables : topology_tables; call_count : nat }.
(** A call that fails leaves the tables alone: a transaction that does not commit. *)
Definition on_tables {A} (op : nat -> topology_tables -> topology_tables * identified A) (s : sqlite) : sqlite * identified A :=
  let n := call_count s in
  match env_failure env n with
  | Some text => (mkSqlite (tables s) (S n), Err (ErrOutside text))
  | None => let '(t, r) := op n (tables s) in (mkSqlite t (S n), r)
  end.
#[global] Instance SQLiteStore : IdentityStore sqlite := {
  Get := on_tables (fun _ t => (t, get_identity t));
  Ensure s installation node :=
    on_tables (fun n t => match select_identity t with
                          | Ok id => (t, Ok (id, false))
                          | Err ErrNotFound => ensure_write t (env_now env n) installation node
                          | Err e => (t, Err e)
                          end) s;
  UpdateRole s role :=
    if negb (TopologyRole_IsValid role) then (s, Err (ErrInvalidRole role)) else
    on_tables (fun n t => update_identity (row_role role) t (env_now env n)) s;
  UpdateLeadershipGeneration s g := on_tables (fun n t => update_identity (row_leadership g) t (env_now env n)) s;
  UpdateLatestKnownGeneration s g := on_tables (fun n t => update_identity (row_latest g) t (env_now env n)) s;
  UpdateClusterKeyID s key := on_tables (fun n t => update_identity (row_key key) t (env_now env n)) s;
  Topology := Some (mkTopologyStore _
    (fun s input => on_tables (fun n t => promote_tables (env_ids env n) (env_now env n) t input) s)
    (fun s input => on_tables (fun n t => demote_tables (env_ids env n) (env_now env n) t input) s)) }.
End sqlite.
