(* ===== verification/InstallationStoreFacts.v ===== *)
(** * The SQLite identity store keeps its promises

    It discharges [IdentityStoreLaws]; racing first boots converge on one identity; after a
    promotion or a demotion no credential authenticates, no cluster key is active, and a
    promoted installation no longer follows a primary. *)

From S2P Require Import Prelude GoStrings Json JsonText RProxy Scrub JsonRead Timestamp GoTime Model Identity Topology Snapshot Jobs Store StoreFacts Credentials SnapshotClient NodeSync NodeSyncStore Installation InstallationFacts InstallationStore.
From stdpp Require Import options.

(** ** Stamps *)
Lemma uint64_int64 s : uint64_of (int64_of s) = uint64_of s.
Proof.
  unfold uint64_of, int64_of. destruct (_ <? _)%Z; [by rewrite Z.mod_mod|].
  replace (s mod 2 ^ 64 - 2 ^ 64)%Z with (s mod 2 ^ 64 + (-1) * 2 ^ 64)%Z by lia. by rewrite Z.mod_add, Z.mod_mod.
Qed.
Lemma int64_range s : (- 2 ^ 63 <= int64_of s < 2 ^ 63)%Z.
Proof. unfold int64_of. pose proof (Z.mod_pos_bound s (2 ^ 64) ltac:(lia)). destruct (_ <? _)%Z eqn:E; bsimp; lia. Qed.
Lemma stamp_finite now stamp : encodeTime now = Ok stamp -> exists s n, DecodeTimestamp (Some stamp) = Ok (FiniteTimestamp s n).
Proof.
  unfold encodeTime. destruct now as [s n]. cbn [fst snd].
  assert (EncodeTimestamp (FiniteTimestamp s n) = EncodeTimestamp (FiniteTimestamp (int64_of s) n)) as -> by (unfold EncodeTimestamp; by rewrite uint64_int64).
  destruct ((n <? 0) || (999999999 <? n))%Z eqn:E; [unfold EncodeTimestamp; by rewrite E|]. apply orb_false_iff in E as [E1 E2]. bsimp.
  pose proof (int64_range s) as Hr. rewrite Encode_finite by lia. generalize (Decode_finite_key (int64_of s + 2 ^ 63) n ltac:(lia) ltac:(lia)).
  generalize (finite_key (int64_of s + 2 ^ 63) n). intros key Hk [= <-]. eauto.
Qed.
Lemma column_small g : generation_ok g -> column_of g = g.
Proof. unfold generation_ok, column_of, int64_of. intros Hg. rewrite Z.mod_small by lia. by rewrite (proj2 (Z.ltb_lt g _)) by lia. Qed.

Section facts.
Context (uuid_Parse : string -> option uuid) (env : environment).
Local Abbreviation select_identity := (select_identity uuid_Parse).
Local Abbreviation scan := (sqliteScanIdentity uuid_Parse).
Local Abbreviation sqlite_store := (SQLiteStore uuid_Parse env).
Definition sqlite_stored (s : sqlite) : option durable :=
  match select_identity (tables s) with Ok id => Some (durable_of id) | Err _ => None end.

(** ** Rows and identities *)
Lemma row_scans r id : scan r = Ok id -> exists key, (i_key r = None /\ key = None \/ exists text k, i_key r = Some text /\ uuid_Parse text = Some k /\ key = Some k)
  /\ durable_of id = mkDurable (i_installation r) (i_node r) (i_role r) (generation_of (i_leadership r)) (generation_of (i_latest r)) key.
Proof.
  unfold sqliteScanIdentity. destruct (DecodeTimestamp _) as [[| | |s n]|]; try done. destruct (i_key r) as [text|].
  - destruct (uuid_Parse text) as [k|] eqn:E; [|done]. intros [= <-]. exists (Some k). split; [right; eauto|done].
  - intros [= <-]. exists None. split; [by left|done].
Qed.
(** A row with the same key text and a fresh stamp is read when the old one is. *)
Lemma scan_again r r' id : scan r = Ok id -> (exists s n, DecodeTimestamp (Some (i_updated r')) = Ok (FiniteTimestamp s n)) ->
  (i_key r' = i_key r \/ i_key r' = None \/ exists k, i_key r' = Some k /\ uuid_Parse k = Some k) ->
  exists id', scan r' = Ok id' /\ durable_of id' = mkDurable (i_installation r') (i_node r') (i_role r') (generation_of (i_leadership r'))
    (generation_of (i_latest r')) (if decide (i_key r' = i_key r) then ClusterKeyID id else i_key r').
Proof.
  intros Hr (s&n&Hd) Hk. unfold sqliteScanIdentity in *. rewrite Hd.
  destruct (DecodeTimestamp (Some (i_updated r))) as [[| | |s0 n0]|]; try done.
  destruct Hk as [Hk|[Hk|(k&Hk&Hp)]].
  - rewrite decide_True by done. rewrite Hk. destruct (i_key r) as [text|].
    + destruct (uuid_Parse text) as [k|]; [|done]. injection Hr as <-. by eexists.
    + injection Hr as <-. by eexists.
  - rewrite Hk. destruct (decide (None = i_key r)) as [E|E]; [|by eexists]. rewrite <- E in Hr. injection Hr as <-. by eexists.
  - rewrite Hk, Hp. destruct (decide (Some k = i_key r)) as [E|E]; [|by eexists]. rewrite <- E, Hp in Hr. injection Hr as <-. by eexists.
Qed.
Lemma generation_small g : generation_ok g -> generation_of g = g.
Proof. unfold generation_ok, generation_of. intros Hg. apply Z.mod_small. lia. Qed.
Lemma generation_column c : generation_ok (generation_of c) -> int64_of c = generation_of c.
Proof. unfold generation_ok, generation_of, int64_of. intros Hg. by rewrite (proj2 (Z.ltb_lt _ (2 ^ 63))) by lia. Qed.

(** ** The updates *)
Definition follows (P : durable -> Prop) (f : string -> IdentityRow -> IdentityRow) (g : durable -> durable) : Prop := forall stamp r id,
  scan r = Ok id -> P (durable_of id) ->
  i_updated (f stamp r) = stamp
  /\ (i_key (f stamp r) = i_key r \/ i_key (f stamp r) = None \/ exists k, i_key (f stamp r) = Some k /\ uuid_Parse k = Some k)
  /\ mkDurable (i_installation (f stamp r)) (i_node (f stamp r)) (i_role (f stamp r)) (generation_of (i_leadership (f stamp r)))
       (generation_of (i_latest (f stamp r))) (if decide (i_key (f stamp r) = i_key r) then ClusterKeyID id else i_key (f stamp r)) = g (durable_of id).
Lemma update_law P f g s : follows P f g -> (forall d, sqlite_stored s = Some d -> P d) ->
  updates sqlite sqlite_stored (on_tables env (fun n t => update_identity f t (env_now env n)) s) s g.
Proof.
  intros Hf HP. unfold updates, on_tables. unfold sqlite_stored in *. destruct (env_failure env _); [done|]. unfold update_identity, Write.
  destruct (encodeTime _) as [stamp|e] eqn:Est; [|done]. destruct (identity_row (tables s)) as [r|] eqn:Er; [|done].
  destruct (identity_row_ok _); [|done]. cbn [tables]. unfold InstallationStore.select_identity. rewrite Er. cbn [identity_row set_identity].
  unfold InstallationStore.select_identity in HP. rewrite Er in HP.
  intros d. destruct (scan r) as [id|] eqn:Es; [|done]. intros [= <-]. destruct (Hf stamp r id Es (HP _ eq_refl)) as (Hu&Hk&Hg).
  destruct (scan_again r (f stamp r) id Es) as (id'&->&Hd); [rewrite Hu; by eapply stamp_finite|done|]. by rewrite Hd, Hg.
Qed.
Ltac by_scan H := destruct (row_scans _ _ H) as (key&Hkey&Hd); unfold durable_of in Hd; injection Hd as Hinst Hnode Hrole Hlead Hlatest Hck;
  unfold durable_of, d_set_role, d_set_leadership, d_set_latest, d_set_key; cbn [d_set_role d_set_leadership d_set_latest d_set_key d_installation d_node d_role d_leadership d_latest d_key].
Lemma follows_role role : follows (fun _ => True) (row_role role) (fun d => d_set_role d role).
Proof. intros stamp r id H _. split; [done|]. split; [by left|]. cbn. rewrite decide_True by done. by_scan H. unfold d_set_role. cbn. congruence. Qed.
Lemma follows_key k : (forall u, k = Some u -> uuid_Parse u = Some u) -> follows (fun _ => True) (row_key k) (fun d => d_set_key d k).
Proof.
  intros Hk stamp r id H. split; [done|]. split; [cbn; destruct k as [u|]; [right; right; exists u; eauto|by right; left]|]. cbn.
  by_scan H. unfold d_set_key. cbn. destruct (decide (k = i_key r)) as [->|]; [|congruence]. f_equal; [congruence..|].
  destruct Hkey as [[-> ->]|(text&u&Ht&Hp&->)]; [done|]. rewrite Ht in Hk |- *. rewrite (Hk text eq_refl) in Hp. congruence.
Qed.
Lemma follows_leadership g : generation_ok g -> follows generations_ok (row_leadership g) (fun d => d_set_leadership d g).
Proof.
  intros Hg stamp r id H Hok. split; [done|]. split; [by left|]. cbn. rewrite decide_True by done. rewrite (column_small g Hg).
  by_scan H. destruct Hok as [_ Hl]. cbn in Hl. rewrite Hlatest in Hl. rewrite (generation_column _ Hl).
  rewrite (generation_small (Z.max _ _)), (generation_small g); [congruence|unfold generation_ok in *; lia..].
Qed.
Lemma follows_latest g : generation_ok g -> follows generations_ok (row_latest g) (fun d => d_set_latest d g).
Proof.
  intros Hg stamp r id H Hok. split; [done|]. split; [by left|]. cbn. rewrite decide_True by done. rewrite (column_small g Hg).
  by_scan H. destruct Hok as [_ Hl]. cbn in Hl. rewrite Hlatest in Hl. rewrite (generation_column _ Hl).
  rewrite (generation_small (Z.max _ _)); [congruence|unfold generation_ok in *; lia].
Qed.

(** ** Promotion and demotion *)
Lemma audit_frame ids stamp action actor id after t t' : sqliteInsertTopologyAudit ids stamp action actor id after t = Ok t' ->
  identity_row t' = identity_row t /\ node_credentials t' = node_credentials t /\ cluster_keys t' = cluster_keys t /\ sync t' = sync t
  /\ exists row, audit_events t' = audit_events t ++ [row].
Proof. unfold sqliteInsertTopologyAudit. destruct (_ && _); [|done]. intros [= <-]. repeat split. by eexists. Qed.
Lemma promote_tables_ok ids now t input t' change : promote_tables uuid_Parse ids now t input = (t', Ok change) ->
  exists stamp id r, encodeTime now = Ok stamp /\ select_identity t = Ok id /\ identity_row t = Some r
  /\ promotableFrom (Role id) = true /\ Role id = PFromRole input /\ LeadershipGeneration id = PFromGeneration input
  /\ (LatestKnownGeneration id < PNextGeneration input)%Z
  /\ identity_row t' = Some (mkIdentityRow (i_installation r) (i_node r) TopologyRolePrimary (column_of (PNextGeneration input))
       (Z.max (int64_of (i_latest r)) (column_of (PNextGeneration input))) None stamp)
  /\ node_credentials t' = map (revoke_credential stamp) (node_credentials t) /\ cluster_keys t' = map (retire_key stamp) (cluster_keys t)
  /\ node_state (sync t') = map (reset_node_state stamp) (node_state (sync t))
  /\ (exists row, audit_events t' = audit_events t ++ [row])
  /\ change = mkChange TopologyRolePrimary (PNextGeneration input) None (Z.of_nat (length (List.filter live_credential (node_credentials t)))).
Proof.
  unfold promote_tables. intros (stamp&Hst&H)%Write_Ok. apply bind_Ok in H as (id&Hid&H). exists stamp, id.
  destruct (negb (promotableFrom (Role id)) || _) eqn:E1; [done|]. apply orb_false_iff in E1 as [E1 E2]. destruct (negb (_ =? _)%Z) eqn:E3; [done|].
  destruct (_ <=? _)%Z eqn:E4; [done|]. bsimp. destruct (identity_row t) as [r|]; [|done]. exists r. destruct (negb (identity_row_ok _)); [done|].
  cbv zeta in H. unfold sqliteRetireClusterRelationships in H. cbv iota in H. apply bind_Ok in H as (t1&Ha&H). injection H as <- <-.
  apply audit_frame in Ha as (Hi&Hc&Hk&Hs&Hrow). cbn in Hi, Hc, Hk, Hs, Hrow. rewrite Hi, Hc, Hk, Hs. repeat split; try done; lia.
Qed.
Lemma demote_tables_ok ids now t input t' change : demote_tables uuid_Parse ids now t input = (t', Ok change) ->
  exists stamp id r, encodeTime now = Ok stamp /\ select_identity t = Ok id /\ identity_row t = Some r
  /\ (Role id = TopologyRolePrimary \/ Role id = TopologyRolePrimaryWithNodes) /\ Role id = DFromRole input
  /\ LeadershipGeneration id = DFromGeneration input
  /\ identity_row t' = Some (row_key None stamp (row_role TopologyRoleNode stamp r))
  /\ node_credentials t' = map (revoke_credential stamp) (node_credentials t) /\ cluster_keys t' = map (retire_key stamp) (cluster_keys t)
  /\ (exists row, audit_events t' = audit_events t ++ [row])
  /\ change = mkChange TopologyRoleNode (LeadershipGeneration id) None (Z.of_nat (length (List.filter live_credential (node_credentials t)))).
Proof.
  unfold demote_tables. intros (stamp&Hst&H)%Write_Ok. apply bind_Ok in H as (id&Hid&H). exists stamp, id.
  destruct (negb _ || _) eqn:E1; [done|]. apply orb_false_iff in E1 as [E1 E2]. destruct (negb (_ =? _)%Z) eqn:E3; [done|].
  apply negb_false_iff, orb_true_iff in E1. bsimp. unfold sqliteRetireClusterRelationships in H. cbv iota in H. cbn [identity_row] in H.
  destruct (identity_row t) as [r|]; [|done]. exists r. cbv zeta in H. destruct (negb (identity_row_ok _)); [done|].
  apply bind_Ok in H as (t1&Ha&H). injection H as <- <-.
  apply audit_frame in Ha as (Hi&Hc&Hk&Hs&Hrow). cbn in Hi, Hc, Hk, Hs, Hrow. rewrite Hi, Hc, Hk.
  split; [done|]. split; [done|]. split; [done|]. split; [destruct E1 as [E|E]; apply String.eqb_eq in E; auto|]. repeat split; done.
Qed.

(** ** The interface is met *)
Lemma get_law s : let '(s', r) := on_tables env (fun _ t => (t, get_identity uuid_Parse t)) s in sqlite_stored s' = sqlite_stored s
  /\ (forall id, r = Ok id -> sqlite_stored s = Some (durable_of id)) /\ (r = Err ErrNotFound -> sqlite_stored s = None).
Proof.
  unfold on_tables, sqlite_stored. destruct (env_failure env _); [done|]. cbn [tables]. split; [done|]. unfold get_identity.
  destruct (select_identity (tables s)) as [id|e]; [|split; [done|by intros _]]. unfold mbind, result_bind. destruct (TopologyRole_IsValid _); [|done].
  split; [|done]. by intros id' [= <-].
Qed.
Lemma ensure_write_ok t now i n : let '(t', r) := ensure_write uuid_Parse t now i n in
  match r with
  | Ok (id, created) => select_identity t' = Ok id
      /\ (if created then select_identity t = Err ErrNotFound /\ Role id = TopologyRoleStandalone /\ LeadershipGeneration id = 1%Z
            /\ LatestKnownGeneration id = 1%Z /\ ClusterKeyID id = None /\ uuid_Parse i = Some (InstallationID id) /\ uuid_Parse n = Some (NodeID id)
          else t' = t)
  | Err _ => t' = t
  end.
Proof.
  unfold ensure_write, Write. destruct (encodeTime now) as [stamp|e] eqn:Est; [|done].
  destruct (select_identity t) as [id|e] eqn:E; [by rewrite E|]. destruct e; try done. destruct (uuid_Parse i) as [i'|]; [|done].
  destruct (uuid_Parse n) as [n'|]; [|done]. cbv zeta. destruct (negb _); [done|]. unfold sqliteScanIdentity at 1. cbn [i_updated i_key].
  destruct (stamp_finite _ _ Est) as (s0&n0&Hd). rewrite Hd. cbn [mbind result_bind]. split; [|done].
  unfold InstallationStore.select_identity, sqliteScanIdentity. cbn [identity_row set_identity i_updated i_key]. by rewrite Hd.
Qed.
Lemma ensure_law s i n : let '(s', r) := Ensure (IdentityStore := sqlite_store) s i n in
  match r with
  | Ok (id, created) => sqlite_stored s' = Some (durable_of id)
      /\ (if created then sqlite_stored s = None /\ Role id = TopologyRoleStandalone /\ LeadershipGeneration id = 1%Z /\ LatestKnownGeneration id = 1%Z
            /\ ClusterKeyID id = None
          else sqlite_stored s' = sqlite_stored s)
  | Err _ => sqlite_stored s' = sqlite_stored s
  end.
Proof.
  cbn [Ensure SQLiteStore]. unfold on_tables, sqlite_stored. destruct (env_failure env _); [done|].
  destruct (select_identity (tables s)) as [id|e] eqn:E; [cbn [tables]; rewrite E; done|].
  destruct e; try (cbn [tables]; rewrite E; done). pose proof (ensure_write_ok (tables s) (env_now env (call_count s)) i n) as H.
  destruct (ensure_write _ _ _ _ _) as [t' [[id created]|e]]; cbn [tables].
  - destruct H as [Hs H]. rewrite Hs. split; [done|]. destruct created; [by destruct H as (_&?&?&?&?&_)|]. by rewrite H, E in Hs.
  - by rewrite H, E.
Qed.
Lemma promote_law s input d : sqlite_stored s = Some d -> generations_ok d -> generation_ok (PNextGeneration input) ->
  let '(s', r) := on_tables env (fun n t => promote_tables uuid_Parse (env_ids env n) (env_now env n) t input) s in
  match r with
  | Ok change => d_role d = PFromRole input /\ promotableFrom (d_role d) = true /\ d_leadership d = PFromGeneration input
      /\ (d_latest d < PNextGeneration input)%Z
      /\ sqlite_stored s' = Some (d_set_key (d_set_leadership (d_set_role d TopologyRolePrimary) (PNextGeneration input)) None)
      /\ ChGeneration change = PNextGeneration input /\ ChKey change = None
  | Err _ => sqlite_stored s' = sqlite_stored s
  end.
Proof.
  intros Hd [_ Hok] Hnext. unfold on_tables. unfold sqlite_stored in *. destruct (env_failure env _); [done|].
  destruct (promote_tables _ _ _ _ _) as [t' [change|e]] eqn:E.
  2:{ unfold promote_tables in E. by apply Write_Err in E as ->. }
  apply promote_tables_ok in E as (stamp&id&r&Hst&Hid&Hr&Hfrom&Hfr&Hfl&Hlt&Hrow&_&_&_&_&->). cbn [tables]. rewrite Hid in Hd.
  injection Hd as <-. pose proof Hid as Hscan. unfold InstallationStore.select_identity in Hscan. rewrite Hr in Hscan.
  unfold InstallationStore.select_identity. rewrite Hrow. unfold sqliteScanIdentity at 1. cbn [i_updated i_key].
  destruct (stamp_finite _ _ Hst) as (s0&n0&->). repeat split; try done. cbn [i_installation i_node i_role i_leadership i_latest].
  rewrite (column_small _ Hnext). by_scan Hscan. f_equal. cbn in Hok. rewrite Hlatest in Hok. rewrite (generation_column _ Hok).
  rewrite (generation_small (Z.max _ _)), (generation_small (PNextGeneration input)); [unfold durable_of; cbn; congruence|unfold generation_ok in *; lia..].
Qed.
Lemma demote_law s input d : sqlite_stored s = Some d -> generations_ok d ->
  let '(s', r) := on_tables env (fun n t => demote_tables uuid_Parse (env_ids env n) (env_now env n) t input) s in
  match r with
  | Ok change => d_role d = DFromRole input /\ (d_role d = TopologyRolePrimary \/ d_role d = TopologyRolePrimaryWithNodes)
      /\ d_leadership d = DFromGeneration input /\ sqlite_stored s' = Some (d_set_key (d_set_role d TopologyRoleNode) None)
      /\ ChGeneration change = d_leadership d /\ ChKey change = None
  | Err _ => sqlite_stored s' = sqlite_stored s
  end.
Proof.
  intros Hd _. unfold on_tables. unfold sqlite_stored in *. destruct (env_failure env _); [done|].
  destruct (demote_tables _ _ _ _ _) as [t' [change|e]] eqn:E.
  2:{ unfold demote_tables in E. by apply Write_Err in E as ->. }
  apply demote_tables_ok in E as (stamp&id&r&Hst&Hid&Hr&Hfrom&Hfr&Hfl&Hrow&_&_&_&->). cbn [tables]. rewrite Hid in Hd.
  injection Hd as <-. pose proof Hid as Hscan. unfold InstallationStore.select_identity in Hscan. rewrite Hr in Hscan.
  unfold InstallationStore.select_identity. rewrite Hrow. unfold sqliteScanIdentity at 1, row_key, row_role. cbn [i_updated i_key].
  destruct (stamp_finite _ _ Hst) as (s0&n0&->). repeat split; try done. cbn [i_installation i_node i_role i_leadership i_latest].
  by_scan Hscan. f_equal. unfold durable_of. cbn. congruence.
Qed.
#[export] Instance sqlite_laws : IdentityStoreLaws sqlite (IdentityStore0 := sqlite_store).
Proof.
  refine (@Build_IdentityStoreLaws sqlite sqlite_store sqlite_stored (fun k => uuid_Parse k = Some k) get_law ensure_law _ _ _ _ _ _).
  - intros s role. cbn [UpdateRole SQLiteStore]. destruct (negb _); [done|]. by apply (update_law (fun _ => True)); [apply follows_role|].
  - intros s g d Hg Hd Hok. apply (update_law generations_ok); [by apply follows_leadership|]. intros d'. rewrite Hd. by intros [= <-].
  - intros s g d Hg Hd Hok. apply (update_law generations_ok); [by apply follows_latest|]. intros d'. rewrite Hd. by intros [= <-].
  - intros s key Hk. by apply (update_law (fun _ => True)); [apply follows_key|].
  - intros t s input d [= <-]. apply promote_law.
  - intros t s input d [= <-]. apply demote_law.
Defined.

(** ** First boots *)
Fixpoint boots (t : topology_tables) (l : list (time * (string * string))) : topology_tables * list (identified (Identity * bool)) :=
  match l with
  | [] => (t, [])
  | (now, ids) :: l =>
      let '(t, r) := ensure_write uuid_Parse t now ids.1 ids.2 in
      let '(t, rs) := boots t l in (t, r :: rs)
  end.
Definition made (r : identified (Identity * bool)) : bool := match r with Ok (_, true) => true | _ => false end.
Lemma boots_present l : forall t t' rs id, select_identity t = Ok id -> boots t l = (t', rs) ->
  t' = t /\ Forall (fun r => forall x, r = Ok x -> x = (id, false)) rs.
Proof.
  induction l as [|[now ids] l IH]; intros t t' rs id Hid; cbn [boots]; [intros [= <- <-]; split; [done|constructor]|].
  assert (exists r, ensure_write uuid_Parse t now ids.1 ids.2 = (t, r) /\ forall x, r = Ok x -> x = (id, false)) as (r&->&Hr).
  { unfold ensure_write, Write. destruct (encodeTime now); [|by eexists]. rewrite Hid. eexists. split; [done|]. by intros x [= <-]. }
  destruct (boots t l) as [t1 rs1] eqn:E. intros [= <- <-]. destruct (IH _ _ _ _ Hid E) as [-> Hrs]. split; [done|]. by constructor.
Qed.
Lemma boots_absent l : forall t t' rs, select_identity t = Err ErrNotFound -> boots t l = (t', rs) ->
  (exists id pre post, rs = pre ++ Ok (id, true) :: post /\ Forall (fun r => exists e, r = Err e) pre
    /\ Forall (fun r => forall x, r = Ok x -> x = (id, false)) post)
  \/ Forall (fun r => exists e, r = Err e) rs.
Proof.
  induction l as [|[now ids] l IH]; intros t t' rs Hid; cbn [boots]; [intros [= _ <-]; right; constructor|].
  pose proof (ensure_write_ok t now ids.1 ids.2) as Hw. destruct (ensure_write _ _ _ _ _) as [t1 r]. destruct (boots t1 l) as [t2 rs1] eqn:E.
  intros [= _ <-]. destruct r as [[id []]|e].
  - destruct Hw as [H1 _]. destruct (boots_present _ _ _ _ _ H1 E) as [_ Hrs]. left. exists id, [], rs1. done.
  - destruct Hw as [H1 ->]. congruence.
  - rewrite Hw in E. destruct (IH _ _ _ Hid E) as [(id&pre&post&->&Hpre&Hpost)|Hrs].
    + left. exists id, (Err e :: pre), post. split; [done|]. split; [constructor; [by exists e|done]|done].
    + right. constructor; [by exists e|done].
Qed.
(** C27: Racing first boots converge: of any number of processes that found no identity and go on
    to create one with identifiers of their own, in any order and with any of them failing,
    at most one creates it, and all that succeed get that one's identity. *)
Theorem first_boots_converge l t t' rs : select_identity t = Err ErrNotFound -> boots t l = (t', rs) ->
  length (List.filter made rs) <= 1
  /\ (forall id c id' c', Ok (id, c) ∈ rs -> Ok (id', c') ∈ rs -> id = id')
  /\ ((exists id c, Ok (id, c) ∈ rs) -> length (List.filter made rs) = 1).
Proof.
  assert (Hnone : forall rs, Forall (fun r => exists e, r = Err e) rs -> List.filter made rs = [] /\ forall id c, Ok (id, c) ∉ rs).
  { intros rs0 Hr. split; [induction Hr as [|r rs0 [e ->] _ IH]; [done|exact IH]|]. intros id c Hin. rewrite Forall_forall in Hr.
    by destruct (Hr _ Hin) as [e ?]. }
  assert (Hlate : forall id rs, Forall (fun r => forall x, r = Ok x -> x = (id, false)) rs -> List.filter made rs = []).
  { intros id rs0 Hr. induction Hr as [|[[i c]|e] rs0 Hx _ IH]; [done| |exact IH]. specialize (Hx _ eq_refl) as [= -> ->]. exact IH. }
  intros Hid Hb. destruct (boots_absent _ _ _ _ Hid Hb) as [(id0&pre&post&->&Hpre&Hpost)|Hr].
  - destruct (Hnone _ Hpre) as [Hf Hn]. rewrite List.filter_app, Hf. cbn [app List.filter made]. rewrite (Hlate id0 post Hpost). cbn [length].
    split; [lia|]. split; [|done].
    assert (forall id c, Ok (id, c) ∈ pre ++ Ok (id0, true) :: post -> id = id0) as Hone.
    { intros id c [Hin|[[= -> _]|Hin]%elem_of_cons]%elem_of_app; [by apply Hn in Hin|done|]. rewrite Forall_forall in Hpost.
      by specialize (Hpost _ Hin _ eq_refl) as [= -> _]. }
    intros id c id' c' H1%Hone H2%Hone. congruence.
  - destruct (Hnone _ Hr) as [Hf Hn]. rewrite Hf. cbn. split; [lia|]. split; [by intros id c id' c' ?%Hn|]. by intros (id&c&?%Hn).
Qed.

(** ** What a change of topology ends *)
(** The record a credential row is read as, whatever its times decode to. *)
Definition credential_record (instant_of : string -> instant) (r : CredentialRow) : NodeCredentialRecord :=
  mkCredentialRecord (c_id r) (c_node r) (c_hash r) (c_version r) (instant_of <$> c_revoked r).
Lemma revoked_denied parse instant_of stamp r presented :
  AuthenticateNodeCredential parse presented (Some (credential_record instant_of (revoke_credential stamp r))) = Err ErrNodeCredentialDenied.
Proof.
  destruct (AuthenticateNodeCredential _ _ _) as [p|[]] eqn:E; [|done]. exfalso. unfold AuthenticateNodeCredential in E.
  destruct (ParseNodeCredential _ _) as [c|]; [|done]. destruct (canonicalCredentialID _ _) as [i|]; [|done]. destruct (negb _); [done|].
  destruct (canonicalCredentialID _ _) as [n|]; [|done]. revert E. unfold credential_record, revoke_credential.
  destruct (c_revoked r) as [old|] eqn:Er; cbn [CRRevokedAt CRHashVersion c_revoked]; [rewrite Er|]; cbn [fmap option_fmap option_map];
    rewrite bool_decide_eq_true_2 by done; by rewrite orb_true_r.
Qed.
Lemma reset_unbound stamp rows db : bound_row (mkTables (map (reset_node_state stamp) rows) (health_observations db) (core db)) = None.
Proof.
  unfold bound_row, state_row. cbn [node_state]. destruct (find_first _ _) as [r|] eqn:E; [|done]. cbn.
  assert (exists r0, r = reset_node_state stamp r0) as [r0 ->]; [|done].
  induction rows as [|r1 rows IH]; [done|]. cbn [map find_first] in E. destruct (_ =? _); [injection E as <-; by exists r1|by apply IH].
Qed.
(** C26: A promotion or demotion that commits ends every relationship of the installation: no
    credential it ever issued authenticates any more, whatever is presented, no cluster key is
    left active, one audit record is added, and a promoted installation has no binding to a
    primary left to follow; one that does not commit changes nothing. *)
Theorem topology_change_severs ids now t t' r :
  (exists input, promote_tables uuid_Parse ids now t input = (t', r)) \/ (exists input, demote_tables uuid_Parse ids now t input = (t', r)) ->
  match r with
  | Ok change =>
      (forall parse instant_of row presented, row ∈ node_credentials t' ->
        AuthenticateNodeCredential parse presented (Some (credential_record instant_of row)) = Err ErrNodeCredentialDenied)
      /\ Forall (fun k => k_retired k <> None) (cluster_keys t')
      /\ length (audit_events t') = S (length (audit_events t))
      /\ (ChRole change = TopologyRolePrimary -> bound_row (sync t') = None)
  | Err _ => t' = t
  end.
Proof.
  intros H. destruct r as [change|e].
  2:{ destruct H as [[input H]|[input H]]; [unfold promote_tables in H|unfold demote_tables in H]; by apply Write_Err in H. }
  assert (exists stamp row, node_credentials t' = map (revoke_credential stamp) (node_credentials t) /\ cluster_keys t' = map (retire_key stamp) (cluster_keys t)
    /\ audit_events t' = audit_events t ++ [row] /\ (ChRole change = TopologyRolePrimary -> bound_row (sync t') = None)) as (stamp&row&Hc&Hk&Ha&Hb).
  { destruct H as [[input H]|[input H]].
    - apply promote_tables_ok in H as (stamp&id&r&_&_&_&_&_&_&_&_&Hc&Hk&Hn&[row Ha]&_). exists stamp, row. repeat split; try done. intros _.
      rewrite <- (reset_unbound stamp (node_state (sync t)) (sync t')). rewrite <- Hn. by destruct (sync t').
    - apply demote_tables_ok in H as (stamp&id&r&_&_&_&_&_&_&_&Hc&Hk&[row Ha]&->). exists stamp, row. done. }
  split; [|split; [|split; [rewrite Ha, length_app; cbn; lia|done]]].
  - intros parse instant_of cr presented Hin. rewrite Hc in Hin. apply list_elem_of_fmap in Hin as (r0&->&_). apply revoked_denied.
  - rewrite Hk. apply Forall_forall. intros k (k0&->&_)%list_elem_of_fmap. unfold retire_key. by destruct (k_retired k0) eqn:E; [rewrite E|].
Qed.
End facts.
