(* ===== verification/ClusterKeys.v ===== *)
(** * Cluster keys in SQLite (cluster/store.go, sqlite_store.go, sqlite_import.go, local_loader.go)

    The rows of cluster_keys hold keys wrapped under the master key. [LoadOrCreate] reads
    before it writes: [seen] is what that read saw, the tables of the Write come later. A
    fresh key, its identifier and its nonce are what the entropy source supplies. *)

From S2P Require Import Prelude GoStrings Sha256 AesGcm Kek SecretBox Identity Topology Snapshot Jobs Store Installation InstallationStore.
From stdpp Require Import options.

Definition ClusterKeyPurpose : string := "cluster-kek".
Definition ClusterKeyWrappingVersion : Z := 1.
Inductive cluster_error : Type :=
| ErrClusterKeyDenied | ErrClusterKeyMaterialMismatch | ErrClusterKeyUnwrapFailed | ErrClusterKeyInsertFailed.
#[global] Instance cluster_error_eq_dec : EqDecision cluster_error.
Proof. solve_decision. Defined.
Abbreviation keyed := (result cluster_error).
#[global] Instance cluster_store_failure : StoreFailure cluster_error := fun _ => ErrClusterKeyDenied.

(** ** Material *)
Record KeyMaterial := mkMaterial { MaterialID : uuid; material_key : list Z }.
#[global] Instance KeyMaterial_eq_dec : EqDecision KeyMaterial. Proof. solve_decision. Defined.
Definition key_sized (k : list Z) : bool := (Z.of_nat (length k) =? KEKLength)%Z.
Definition NewKeyMaterial (id : uuid) (key : list Z) : keyed KeyMaterial :=
  if (id =? uuid_Nil) || negb (key_sized key) then Err ErrClusterKeyDenied else Ok (mkMaterial id key).
Definition CopyKeyBytes (m : KeyMaterial) : list Z := if key_sized (material_key m) then material_key m else [].
Definition DestroyMaterial (m : KeyMaterial) : KeyMaterial := mkMaterial (MaterialID m) [].

Section keys.
Context (master : string) (uuid_Parse : string -> option uuid).

Definition decrypt (id : uuid) (purpose wrapped : string) (version : Z) : keyed KeyMaterial :=
  if negb (purpose =? ClusterKeyPurpose) || negb (version =? ClusterKeyWrappingVersion)%Z || (id =? uuid_Nil) then Err ErrClusterKeyDenied else
  match DecryptSecret wrapped master with
  | Ok plaintext => NewKeyMaterial id (bytes_of plaintext)
  | Err _ => Err ErrClusterKeyDenied
  end.

(** A candidate is generated and wrapped outside the Write. *)
Record entropy := mkEntropy { fresh_key : option (list Z); fresh_id : option uuid; fresh_iv : list Z }.
Record KeyCandidate := mkCandidate { candidate_material : KeyMaterial; candidate_wrapped : string }.
Definition NewKeyCandidate (e : entropy) : keyed KeyCandidate :=
  match fresh_key e, fresh_id e with
  | Some key, Some id =>
      material ← NewKeyMaterial id key;
      match EncryptSecret (fresh_iv e) (string_of (material_key material)) master with
      | Ok wrapped => Ok (mkCandidate material wrapped)
      | Err _ => Err ErrClusterKeyDenied
      end
  | _, _ => Err ErrClusterKeyDenied
  end.

(** ** Reading *)
Definition live_key (r : KeyRow) : bool := match k_retired r with None => true | Some _ => false end.
Definition row_material (id : uuid) (r : KeyRow) : keyed KeyMaterial := decrypt id (k_purpose r) (k_wrapped r) (k_version r).
Definition loadByID (l : list KeyRow) (id : uuid) : keyed KeyMaterial :=
  match find_first (fun r => (k_id r =? id) && live_key r) l with
  | Some r => row_material id r
  | None => Err ErrClusterKeyDenied
  end.
(** No row; or the row's material and whether it is retired. *)
Definition loadByIDAnyState (l : list KeyRow) (id : uuid) : option (keyed KeyMaterial * bool) :=
  r ← find_first (fun r => k_id r =? id) l; Some (row_material id r, negb (live_key r)).
Definition older_key (a b : KeyRow) : bool :=
  less_s (k_created a) (k_created b) || (k_created a =? k_created b) && less_s (k_id a) (k_id b).
Definition oldest_key (l : list KeyRow) : option KeyRow := head (SliceStable older_key (List.filter live_key l)).
Definition loadOldest (l : list KeyRow) : option (keyed KeyMaterial) :=
  r ← oldest_key l;
  Some (match uuid_Parse (k_id r) with Some id => row_material id r | None => Err ErrClusterKeyDenied end).
Definition LoadActive (t : topology_tables) (id : uuid) : keyed KeyMaterial := loadByID (cluster_keys t) id.

(** ** Writing *)
Definition set_keys (t : topology_tables) (l : list KeyRow) : topology_tables :=
  mkTopologyTables (identity_row t) (node_credentials t) (enrolled_nodes t) l (audit_events t) (sync t).
Definition key_row_ok (r : KeyRow) : bool :=
  uuidPattern (k_id r) && negb (has_nul (k_purpose r)) && negb (has_nul (k_wrapped r))
  && int32_ok (Some (k_version r)) && timestamp_column (k_created r) && opt_all timestamp_column (k_retired r).
Definition insert_key (stamp : string) (id : uuid) (wrapped : string) (l : list KeyRow) : option (list KeyRow) :=
  let row := mkKeyRow id ClusterKeyPurpose wrapped ClusterKeyWrappingVersion stamp None in
  if key_row_ok row && forallb (fun r => negb (k_id r =? id)) l then Some (l ++ [row]) else None.

Definition LoadOrCreateInWrite (stamp : string) (t : topology_tables) (activeID : option uuid) (candidate : option KeyCandidate) (e : entropy)
    : keyed (topology_tables * KeyMaterial) :=
  match activeID with
  | Some id => material ← loadByID (cluster_keys t) id; mret (t, material)
  | None =>
      match loadOldest (cluster_keys t) with
      | Some found => material ← found; mret (t, material)
      | None =>
          candidate ← match candidate with Some c => Ok c | None => NewKeyCandidate e end;
          let m := candidate_material candidate in
          if (MaterialID m =? uuid_Nil) || (candidate_wrapped candidate =? "") then Err ErrClusterKeyDenied else
          match insert_key stamp (MaterialID m) (candidate_wrapped candidate) (cluster_keys t) with
          | None => Err ErrClusterKeyDenied
          | Some l => material ← NewKeyMaterial (MaterialID m) (CopyKeyBytes m); mret (set_keys t l, material)
          end
      end
  end.
Definition LoadOrCreate (seen : topology_tables) (e : entropy) (t : topology_tables) (now : time) (activeID : option uuid)
    : topology_tables * keyed KeyMaterial :=
  match activeID with
  | Some id => (t, loadByID (cluster_keys seen) id)
  | None =>
      match loadOldest (cluster_keys seen) with
      | Some found => (t, found)
      | None =>
          match NewKeyCandidate e with
          | Err err => (t, Err err)
          | Ok candidate => Write t now (fun stamp t => LoadOrCreateInWrite stamp t None (Some candidate) e)
          end
      end
  end.

(** ** Importing the primary's key *)
Definition reactivate (id : uuid) (r : KeyRow) : KeyRow :=
  if (k_id r =? id) && negb (live_key r) then mkKeyRow (k_id r) (k_purpose r) (k_wrapped r) (k_version r) (k_created r) None else r.
Definition insert_imported (stamp : string) (iv : list Z) (id : uuid) (key : list Z) (l : list KeyRow) : keyed (list KeyRow) :=
  match EncryptSecret iv (string_of key) master with
  | Err _ => Err ErrClusterKeyDenied
  | Ok wrapped => match insert_key stamp id wrapped l with Some l => Ok l | None => Err ErrClusterKeyInsertFailed end
  end.
Definition ImportInWrite (stamp : string) (iv : list Z) (t : topology_tables) (id : uuid) (key : list Z) : keyed (topology_tables * unit) :=
  if (id =? uuid_Nil) || negb (key_sized key) then Err ErrClusterKeyDenied else
  let l := cluster_keys t in
  let dropped := List.filter (fun r => negb ((k_id r =? id) && negb (live_key r))) l in
  let inserted l := l ← insert_imported stamp iv id key l; mret (set_keys t l, tt) in
  match loadByIDAnyState l id with
  | None => inserted l
  | Some (Ok existing, retired) =>
      let same := bool_decide (CopyKeyBytes existing = key) in
      if same && negb retired then mret (t, tt)
      else if same then mret (set_keys t (map (reactivate id) l), tt)
      else if negb retired then Err ErrClusterKeyMaterialMismatch
      else inserted dropped
  | Some (Err _, retired) => if negb retired then Err ErrClusterKeyUnwrapFailed else inserted dropped
  end.
Definition LoadActiveInWrite (t : topology_tables) (id : uuid) : keyed KeyMaterial :=
  if id =? uuid_Nil then Err ErrClusterKeyDenied else loadByID (cluster_keys t) id.

(** ** The node's own key (local_loader.go); [None]: [Current] panicked *)
Inductive local_kek_error : Type := ErrLocalKEKLoaderNotReady | ErrLocalKEKLoaderDenied | ErrLocalKEKLoaderStore.
Definition localKEKIdentityReady (current : Identity) : bool :=
  TopologyRole_IsValid (Installation.Role current) && InstallationID_IsValid (InstallationID current)
  && NodeID_IsValid (Installation.NodeID current)
  && (0 <? LeadershipGeneration current)%Z && (LeadershipGeneration current <=? LatestKnownGeneration current)%Z.
Definition LoadLocalKEK (current : option Identity) (t : topology_tables) : result local_kek_error (KEK * uuid) :=
  match current with
  | None => Err ErrLocalKEKLoaderNotReady
  | Some current =>
      ensure (localKEKIdentityReady current) ErrLocalKEKLoaderNotReady;;
      ensure ((Installation.Role current =? TopologyRoleNode) || (Installation.Role current =? TopologyRolePrimaryWithNodes)) ErrLocalKEKLoaderDenied;;
      match ClusterKeyID current with
      | None => Err ErrLocalKEKLoaderNotReady
      | Some activeID =>
          match LoadActive t activeID with
          | Err _ => Err ErrLocalKEKLoaderStore
          | Ok material =>
              match NewKEK (CopyKeyBytes material) with
              | Ok kek => if MaterialID material =? activeID then Ok (kek, activeID) else Err ErrLocalKEKLoaderStore
              | Err _ => Err ErrLocalKEKLoaderStore
              end
          end
      end
  end.
End keys.
