(* ===== verification/ClusterKeysFacts.v ===== *)
(** * Cluster keys: creators converge, an imported key is read back

    What is stored is read back because [DecryptSecret] inverts [EncryptSecret]; the
    first creator wins because every later one finds its row inside its own Write. *)

From S2P Require Import Prelude GoStrings StrFacts Sha256 AesGcm Kek SecretBox Timestamp Identity Topology Snapshot Jobs Store StoreFacts Installation InstallationStore ClusterKeys.
From stdpp Require Import options.

Lemma bytes_of_string l : Forall is_byte l -> bytes_of (string_of l) = l.
Proof.
  induction 1 as [|b l Hb _ IH]; [done|]. cbn [string_of bytes_of]. rewrite IH. f_equal. by apply code_byte_of.
Qed.
Lemma oldest_none l : oldest_key l = None <-> List.filter live_key l = [].
Proof.
  unfold oldest_key. split; [apply SliceStable_head_None|]. by intros ->.
Qed.
Lemma key_sized_spec k : key_sized k = true <-> length k = 32.
Proof. unfold key_sized, KEKLength. rewrite Z.eqb_eq. lia. Qed.
Lemma NewKeyMaterial_Ok id k m : NewKeyMaterial id k = Ok m <-> id <> uuid_Nil /\ length k = 32 /\ m = mkMaterial id k.
Proof.
  unfold NewKeyMaterial. destruct (String.eqb_spec id uuid_Nil) as [->|]; cbn [orb]; [split; [done|by intros [? _]]|].
  destruct (key_sized k) eqn:E; cbn [negb].
  - apply key_sized_spec in E. split; [by intros [= <-]|by intros (_&_&->)].
  - split; [done|]. intros (_&Hl&_). apply key_sized_spec in Hl. congruence.
Qed.
Lemma CopyKeyBytes_material id k : length k = 32 -> CopyKeyBytes (mkMaterial id k) = k.
Proof. intros H. unfold CopyKeyBytes. cbn. by rewrite (proj2 (key_sized_spec k) H). Qed.
Lemma find_first_app {A} (p : A -> bool) l1 l2 : find_first p (l1 ++ l2) = match find_first p l1 with Some a => Some a | None => find_first p l2 end.
Proof. induction l1 as [|a l1 IH]; [done|]. simpl. by destruct (p a). Qed.
Lemma find_first_filter {A} (p q : A -> bool) l : (forall a, p a = true -> q a = true) -> find_first p (List.filter q l) = find_first p l.
Proof.
  intros H. induction l as [|a l IH]; [done|]. simpl. destruct (q a) eqn:E; simpl; rewrite IH; [done|].
  destruct (p a) eqn:Ep; [|done]. apply H in Ep. congruence.
Qed.

Section facts.
Context (master : string) (mkey : list Z) (uuid_Parse : string -> option uuid).
Hypothesis master_ok : DecodeMasterKey master = Ok mkey.
(** The parser takes the canonical form as it stands. *)
Hypothesis parse_canonical : forall s, uuidPattern s = true -> uuid_Parse s = Some s.

(** A wrapped key unwraps to the material it came from. *)
Lemma wrapped_reads iv key wrapped id : Forall is_byte key -> length key = 32 -> Forall is_byte iv -> length iv = 12 -> id <> uuid_Nil ->
  EncryptSecret iv (string_of key) master = Ok wrapped ->
  decrypt master id ClusterKeyPurpose wrapped ClusterKeyWrappingVersion = Ok (mkMaterial id key).
Proof using master_ok.
  intros Hb Hl Hiv Hil Hid He. destruct (Encrypt_Decrypt master mkey iv (string_of key) master_ok Hiv Hil) as (text&Ht&Hd).
  assert (text = wrapped) as -> by congruence. unfold decrypt. apply String.eqb_neq in Hid as Hid'. rewrite Hid'. cbn.
  rewrite Hd. destruct (String.eqb_spec (string_of key) ""); [by destruct key|].
  apply NewKeyMaterial_Ok. by rewrite bytes_of_string.
Qed.
Lemma insert_key_Ok stamp id wrapped l l' : insert_key stamp id wrapped l = Some l' ->
  uuidPattern id = true /\ Forall (fun r => k_id r <> id) l /\ l' = l ++ [mkKeyRow id ClusterKeyPurpose wrapped ClusterKeyWrappingVersion stamp None].
Proof.
  unfold insert_key. destruct (_ && _) eqn:E; [|done]. intros [= <-]. apply andb_true_iff in E as [E1 E2].
  unfold key_row_ok in E1. bsimp. split; [done|]. split; [|done]. apply forallb_Forall in E2. eapply Forall_impl; [exact E2|].
  intros r Hr. cbn in Hr. bsimp. done.
Qed.

(** ** Creation *)
Definition good_entropy (e : entropy) : Prop :=
  (forall k, fresh_key e = Some k -> Forall is_byte k) /\ Forall is_byte (fresh_iv e) /\ length (fresh_iv e) = 12.
Lemma NewKeyCandidate_Ok e c : good_entropy e -> NewKeyCandidate master e = Ok c ->
  exists id k, candidate_material c = mkMaterial id k /\ id <> uuid_Nil /\ Forall is_byte k /\ length k = 32
    /\ EncryptSecret (fresh_iv e) (string_of k) master = Ok (candidate_wrapped c).
Proof using.
  intros (Hk&_&_) H. unfold NewKeyCandidate in H. destruct (fresh_key e) as [k|]; [|done]. destruct (fresh_id e) as [id|]; [|done].
  apply bind_Ok in H as (m&Hm%NewKeyMaterial_Ok&H). destruct Hm as (Hid&Hl&->). cbn [material_key] in H.
  destruct (EncryptSecret _ _ _) as [w|] eqn:E; [|done]. injection H as <-. exists id, k. repeat split; auto.
Qed.

Lemma creator_step seen e t now t' r : good_entropy e ->
  loadOldest master uuid_Parse (cluster_keys seen) = None
    \/ loadOldest master uuid_Parse (cluster_keys seen) = loadOldest master uuid_Parse (cluster_keys t) ->
  LoadOrCreate master uuid_Parse seen e t now None = (t', r) ->
  (t' = t /\ (forall m, r = Ok m -> loadOldest master uuid_Parse (cluster_keys t) = Some (Ok m)))
  \/ exists m row, r = Ok m /\ loadOldest master uuid_Parse (cluster_keys t) = None /\ cluster_keys t' = cluster_keys t ++ [row]
       /\ loadOldest master uuid_Parse (cluster_keys t') = Some (Ok m).
Proof using master_ok parse_canonical.
  intros He Hseen H. unfold LoadOrCreate in H.
  destruct (loadOldest master uuid_Parse (cluster_keys seen)) as [found|] eqn:Es.
  { injection H as <- <-. left. split; [done|]. intros m ->. destruct Hseen as [|Hseen]; congruence. }
  destruct (NewKeyCandidate master e) as [c|err] eqn:Ec; [|injection H as <- <-; left; by split].
  destruct (NewKeyCandidate_Ok e c He Ec) as (id&k&Hc&Hid&Hb&Hl&Hw).
  destruct r as [m|err]; [|apply Write_Err in H as ->; left; by split].
  apply Write_Ok in H as (stamp&_&H). unfold LoadOrCreateInWrite in H.
  destruct (loadOldest master uuid_Parse (cluster_keys t)) as [found|] eqn:Et.
  { apply bind_Ok in H as (m'&->&H). injection H as <- <-. left. split; [done|]. by intros m [= ->]. }
  right. cbn [mbind result_bind] in H. rewrite Hc in H. cbn [MaterialID] in H. destruct (_ || _) eqn:Ew; [done|].
  destruct (insert_key stamp id _ _) as [l|] eqn:Ei; [|done]. rewrite CopyKeyBytes_material in H by done.
  apply bind_Ok in H as (m'&Hm%NewKeyMaterial_Ok&H). destruct Hm as (_&_&->). injection H as <- <-.
  apply insert_key_Ok in Ei as (Hp&_&->). do 2 eexists. split; [done|]. split; [done|]. split; [done|].
  cbn [cluster_keys set_keys]. unfold loadOldest, oldest_key in *. rewrite List.filter_app.
  destruct (head (SliceStable older_key (List.filter live_key (cluster_keys t)))) eqn:Eo; [done|].
  apply SliceStable_head_None in Eo. rewrite Eo. set (row := mkKeyRow id _ _ _ _ _).
  change (head (SliceStable older_key ([] ++ List.filter live_key [row]))) with (Some row). cbn [mbind option_bind].
  subst row. cbn [k_id]. rewrite parse_canonical by done. unfold row_material. cbn [k_purpose k_wrapped k_version].
  destruct He as (_&Hiv&Hil). by rewrite (wrapped_reads (fresh_iv e) k).
Qed.

(** Creators in the order of their Writes, each with the state its earlier read saw. *)
Record creator := mkCreator { reads_at : nat; writes_at : time; supplies : entropy }.
Fixpoint create_all (history : list topology_tables) (t : topology_tables) (l : list creator) : topology_tables * list (keyed KeyMaterial) :=
  match l with
  | [] => (t, [])
  | c :: l =>
      let seen := nth (reads_at c) history t in
      let '(t1, r) := LoadOrCreate master uuid_Parse seen (supplies c) t (writes_at c) None in
      let '(t2, rs) := create_all (history ++ [t1]) t1 l in
      (t2, r :: rs)
  end.
Definition seen_ok (t s : topology_tables) : Prop :=
  loadOldest master uuid_Parse (cluster_keys s) = None
  \/ loadOldest master uuid_Parse (cluster_keys s) = loadOldest master uuid_Parse (cluster_keys t).
Lemma create_all_spec l history t t' rs : Forall (fun c => good_entropy (supplies c)) l -> Forall (seen_ok t) history ->
  create_all history t l = (t', rs) ->
  (forall m, Ok m ∈ rs -> loadOldest master uuid_Parse (cluster_keys t') = Some (Ok m))
  /\ (loadOldest master uuid_Parse (cluster_keys t) <> None ->
      cluster_keys t' = cluster_keys t)
  /\ (cluster_keys t' = cluster_keys t \/ exists row, cluster_keys t' = cluster_keys t ++ [row]).
Proof using master_ok parse_canonical.
  revert history t t' rs. induction l as [|c l IH]; intros history t t' rs He Hh H; cbn [create_all] in H.
  { injection H as <- <-. split; [by intros m Hm%elem_of_nil|]. auto. }
  apply Forall_cons in He as [He Hl]. destruct (LoadOrCreate _ _ _ _ _ _ _) as [t1 r] eqn:E1.
  destruct (create_all _ t1 l) as [t2 rs'] eqn:E2. injection H as <- <-.
  assert (seen_ok t (nth (reads_at c) history t)) as Hseen.
  { destruct (nth_in_or_default (reads_at c) history t) as [Hin| ->]; [|by right].
    rewrite Forall_forall in Hh. apply Hh. by apply list_elem_of_In. }
  destruct (creator_step _ _ _ _ _ _ He Hseen E1) as [[-> Hr]|(m&row&->&Hn&Hrow&Hm)].
  - destruct (IH (history ++ [t]) t t2 rs' Hl) as (H1&H2&H3); [apply Forall_app; split; [done|constructor; [by right|constructor]]|done|].
    split; [|by split]. intros m [<-|Hm]%elem_of_cons; [|by apply H1]. rewrite H2; [by apply Hr|]. by rewrite (Hr m).
  - assert (loadOldest master uuid_Parse (cluster_keys t1) <> None) as Hne by (by rewrite Hm).
    destruct (IH (history ++ [t1]) t1 t2 rs' Hl) as (H1&H2&H3); [|done|].
    { apply Forall_app. split; [|by constructor; [right|]]. eapply Forall_impl; [exact Hh|]. intros s [Hs|Hs]; left; congruence. }
    specialize (H2 Hne). split; [|split; [done|right; exists row; congruence]].
    intros m' [[= ->]|Hm']%elem_of_cons; [|by apply H1]. by rewrite H2.
Qed.

(** C34: However many callers create the cluster key at once, each having looked before any of
    the Writes, all that succeed hold the same key; at most one row is added, and the key is
    the one a later start reads back from the table. *)
Theorem key_creators_converge t l t' rs : Forall (fun c => good_entropy (supplies c)) l ->
  create_all [t] t l = (t', rs) ->
  (forall m1 m2, Ok m1 ∈ rs -> Ok m2 ∈ rs -> m1 = m2)
  /\ (forall m, Ok m ∈ rs -> loadOldest master uuid_Parse (cluster_keys t') = Some (Ok m))
  /\ (cluster_keys t' = cluster_keys t \/ exists row, cluster_keys t' = cluster_keys t ++ [row]).
Proof using master_ok parse_canonical.
  intros He H. destruct (create_all_spec l [t] t t' rs He) as (H1&_&H3); [by constructor; [right|]|done|].
  split; [|by split]. intros m1 m2 Hm1%H1 Hm2%H1. congruence.
Qed.

(** ** Import *)
Lemma find_live l id r : find_first (fun r => k_id r =? id) l = Some r -> live_key r = true ->
  find_first (fun r => (k_id r =? id) && live_key r) l = Some r.
Proof using.
  induction l as [|a l IH]; [done|]. simpl. destruct (k_id a =? id); simpl; [|done]. intros [= ->] ->. done.
Qed.
Lemma inserted_reads stamp iv id key l l' : Forall is_byte key -> length key = 32 -> Forall is_byte iv -> length iv = 12 -> id <> uuid_Nil ->
  insert_imported master stamp iv id key l = Ok l' ->
  loadByID master l' id = Ok (mkMaterial id key) /\ List.filter (fun r => negb (k_id r =? id)) l' = l.
Proof using master_ok.
  intros Hb Hl Hiv Hil Hid H. unfold insert_imported in H. destruct (EncryptSecret _ _ _) as [w|] eqn:E; [|done].
  destruct (insert_key _ _ _ _) as [l0|] eqn:Ei; [|done]. injection H as <-. apply insert_key_Ok in Ei as (Hp&Hne&->).
  assert (find_first (fun r => (k_id r =? id) && live_key r) l = None /\ List.filter (fun r => negb (k_id r =? id)) l = l) as [Hf Hfl].
  { clear -Hne. induction Hne as [|r l Hr _ [IH1 IH2]]; [done|]. simpl. apply String.eqb_neq in Hr. rewrite Hr. simpl. by rewrite IH1, IH2. }
  unfold loadByID. rewrite find_first_app, Hf, List.filter_app, Hfl. simpl. rewrite String.eqb_refl. simpl. rewrite app_nil_r.
  split; [|done]. unfold row_material. cbn [k_purpose k_wrapped k_version]. by rewrite (wrapped_reads iv key).
Qed.
Definition others (id : uuid) (l : list KeyRow) : list KeyRow := List.filter (fun r => negb (k_id r =? id)) l.
Lemma reactivate_none id l : (forall x, x ∈ l -> k_id x <> id) -> map (reactivate id) l = l.
Proof using.
  intros H. rewrite <- (map_id l) at 2. apply map_ext_in. intros x Hx. unfold reactivate.
  by rewrite (proj2 (String.eqb_neq _ _) (H x (proj2 (list_elem_of_In _ _) Hx))).
Qed.
Lemma reactivated_reads id l r key : NoDup (map k_id l) -> find_first (fun r => k_id r =? id) l = Some r -> live_key r = false ->
  row_material master id r = Ok (mkMaterial id key) ->
  loadByID master (map (reactivate id) l) id = Ok (mkMaterial id key) /\ others id (map (reactivate id) l) = others id l.
Proof using.
  unfold others, loadByID. induction l as [|a l IH]; [done|]. cbn [map find_first List.filter]. intros [Ha Hn]%NoDup_cons Hf Hr Hm.
  destruct (String.eqb_spec (k_id a) id) as [Heq|Hne].
  - injection Hf as ->. assert (reactivate id r = mkKeyRow (k_id r) (k_purpose r) (k_wrapped r) (k_version r) (k_created r) None) as ->.
    { unfold reactivate. by rewrite Heq, String.eqb_refl, Hr. }
    cbn [k_id live_key k_retired andb]. rewrite Heq, String.eqb_refl. cbn [andb negb]. split; [exact Hm|].
    by rewrite reactivate_none by (intros x Hx <-; apply Ha; rewrite Heq; by apply list_elem_of_fmap_2).
  - assert (reactivate id a = a) as -> by (unfold reactivate; by rewrite (proj2 (String.eqb_neq _ _) Hne)).
    rewrite (proj2 (String.eqb_neq _ _) Hne). cbn [andb negb]. destruct (IH Hn Hf Hr Hm) as [-> ->]. done.
Qed.
Lemma dropped_others id l : NoDup (map k_id l) -> (forall r, find_first (fun r => k_id r =? id) l = Some r -> live_key r = false) ->
  List.filter (fun r => negb ((k_id r =? id) && negb (live_key r))) l = others id l.
Proof using.
  unfold others. induction l as [|a l IH]; [done|]. cbn [map find_first List.filter]. intros [Ha Hn]%NoDup_cons Hr.
  destruct (String.eqb_spec (k_id a) id) as [Heq|Hne]; [|cbn; by rewrite IH].
  rewrite (Hr a) by done. cbn. assert (Forall (fun x => k_id x <> id) l) as Hf.
  { apply Forall_forall. intros x Hx <-. apply Ha. rewrite Heq. by apply list_elem_of_fmap_2. }
  clear -Hf. induction Hf as [|x l Hx _ IH]; [done|]. simpl. apply String.eqb_neq in Hx. rewrite Hx. simpl. by rewrite IH.
Qed.

Lemma row_material_Ok id r m : row_material master id r = Ok m -> exists k, m = mkMaterial id k /\ length k = 32.
Proof using.
  unfold row_material, decrypt. destruct (_ || _); [done|]. destruct (DecryptSecret _ _); [|done].
  intros (_&Hl&->)%NewKeyMaterial_Ok. eauto.
Qed.
Lemma filter_all {A} (p : A -> bool) l : (forall x, x ∈ l -> p x = true) -> List.filter p l = l.
Proof using.
  induction l as [|a l IH]; [done|]. intros H. simpl. rewrite H by (by left). rewrite IH; [done|]. intros x Hx. apply H. by right.
Qed.

(** An import that succeeds makes exactly this key readable under its identifier, and leaves
    the rows of every other identifier as they were. A row that was in use is never rewritten:
    if one held the identifier, the table is unchanged. *)
Theorem imported_key_loads stamp iv t id key t' :
  NoDup (map k_id (cluster_keys t)) -> Forall is_byte key -> Forall is_byte iv -> length iv = 12 ->
  ImportInWrite master stamp iv t id key = Ok (t', tt) ->
  LoadActiveInWrite master t' id = Ok (mkMaterial id key)
  /\ others id (cluster_keys t') = others id (cluster_keys t)
  /\ (forall r, r ∈ cluster_keys t -> k_id r = id -> live_key r = true -> t' = t).
Proof using master_ok.
  intros Hnd Hb Hiv Hil H. unfold ImportInWrite in H. destruct (_ || _) eqn:E0; [done|]. apply orb_false_iff in E0 as [Hid Hs].
  apply negb_false_iff, key_sized_spec in Hs. unfold LoadActiveInWrite. rewrite Hid. apply String.eqb_neq in Hid.
  destruct (find_first (fun r => k_id r =? id) (cluster_keys t)) as [r0|] eqn:Ef.
  - assert (forall r, r ∈ cluster_keys t -> k_id r = id -> r = r0) as Hu.
    { apply find_first_Some in Ef as (Hin0&Hr0%String.eqb_eq). intros r Hin Hr. apply (NoDup_map_unique k_id (cluster_keys t)); congruence. }
    assert (loadByIDAnyState master (cluster_keys t) id = Some (row_material master id r0, negb (live_key r0))) as Hany by (unfold loadByIDAnyState; by rewrite Ef).
    rewrite Hany in H. clear Hany. destruct (live_key r0) eqn:Hlive; cbn [negb] in H.
    + destruct (row_material master id r0) as [m|] eqn:Em; [|done].
      destruct (bool_decide _) eqn:Esame; cbn [andb] in H; [|done]. apply bool_decide_eq_true in Esame. cbn in H. injection H as <-.
      destruct (row_material_Ok _ _ _ Em) as (k&->&Hk). rewrite CopyKeyBytes_material in Esame by done. subst k.
      split; [|by split]. unfold loadByID. by rewrite (find_live _ _ _ Ef Hlive), Em.
    + assert (forall r, r ∈ cluster_keys t -> k_id r = id -> live_key r = true -> t' = t) as Hno.
      { intros r Hin Hr Hl. rewrite (Hu r Hin Hr) in Hl. congruence. }
      assert (forall l, (l ← insert_imported master stamp iv id key l; mret (set_keys t l, tt)) = Ok (t', tt) -> l = others id (cluster_keys t) ->
        loadByID master (cluster_keys t') id = Ok (mkMaterial id key) /\ others id (cluster_keys t') = others id (cluster_keys t)) as Hins.
      { intros l (l'&Hl'&Heq)%bind_Ok ->. injection Heq as <-. by apply (inserted_reads stamp iv). }
      assert (List.filter (fun r => negb ((k_id r =? id) && negb (live_key r))) (cluster_keys t) = others id (cluster_keys t)) as Hd.
      { apply dropped_others; [done|]. intros r Hr. congruence. }
      cut (loadByID master (cluster_keys t') id = Ok (mkMaterial id key) /\ others id (cluster_keys t') = others id (cluster_keys t)); [tauto|].
      destruct (row_material master id r0) as [m|] eqn:Em; [|by apply (Hins _ H)].
      destruct (bool_decide _) eqn:Esame; cbn [andb] in H; [|by apply (Hins _ H)].
      apply bool_decide_eq_true in Esame. injection H as <-. destruct (row_material_Ok _ _ _ Em) as (k&->&Hk).
      rewrite CopyKeyBytes_material in Esame by done. subst k. by apply (reactivated_reads id _ r0).
  - assert (loadByIDAnyState master (cluster_keys t) id = None) as Hany by (unfold loadByIDAnyState; by rewrite Ef).
    rewrite Hany in H. apply bind_Ok in H as (l'&Hl'&Heq). injection Heq as <-.
    destruct (inserted_reads _ _ _ _ _ _ Hb Hs Hiv Hil Hid Hl') as [H1 H2]. apply find_first_None in Ef. rewrite Forall_forall in Ef.
    split; [exact H1|]. split.
    + cbn [cluster_keys set_keys]. fold (others id l') in H2. rewrite H2. unfold others. symmetry. apply filter_all.
      intros x Hx. by rewrite (Ef x Hx).
    + intros r Hin Hr. specialize (Ef r Hin). apply String.eqb_neq in Ef. done.
Qed.

End facts.
