(* ===== verification/InstallationWitnesses.v ===== *)
(** * An installation's life, step by step

    A standalone installation joins a primary of generation 5, is unlinked and promoted;
    the properties of the identity service and its store are applied on it. *)

From S2P Require Import Prelude GoStrings Json Timestamp GoTime Identity Topology Snapshot Jobs Store Credentials SnapshotClient NodeSync NodeSyncStore Installation InstallationFacts InstallationStore InstallationStoreFacts Sha256 AesGcm Kek SecretBox ClusterKeys ClusterKeysFacts.
From stdpp Require Import options.

Definition parse_any (s : string) : option uuid := Some s.
Definition uuid_a : string := "0a0a0a0a-0a0a-4a0a-8a0a-0a0a0a0a0a0a".
Definition uuid_b : string := "0b0b0b0b-0b0b-4b0b-8b0b-0b0b0b0b0b0b".
Definition uuid_k : string := "0c0c0c0c-0c0c-4c0c-8c0c-0c0c0c0c0c0c".
Definition calm : environment := mkEnvironment (fun n => (1700000000 + Z.of_nat n, 0)%Z) (fun _ => (uuid_a, uuid_b)) (fun _ => None).
#[local] Instance calm_store : IdentityStore sqlite := SQLiteStore parse_any calm.
#[local] Instance calm_laws : IdentityStoreLaws sqlite := sqlite_laws parse_any calm.
Definition stamp0 : string := match encodeTime (1700000000, 0)%Z with Ok s => s | Err _ => "" end.
Definition standalone_row : IdentityRow := mkIdentityRow uuid_a uuid_b TopologyRoleStandalone 1 1 None stamp0.
Definition issued : CredentialRow := mkCredentialRow uuid_a uuid_b "hash" "v1" stamp0 None.
Definition standalone_tables : topology_tables :=
  mkTopologyTables (Some standalone_row) [issued] [] [mkKeyRow uuid_k "cluster-kek" "wrapped" 1 stamp0 None] []
    (mkTables [mkNodeState "default" (Some "https://primary.test") None (Some uuid_a) 1 0 None None stamp0] [] (mkDatabase [] [] [] None)).
Definition standalone_identity : Identity := mkIdentity uuid_a uuid_b TopologyRoleStandalone 1 1 None (1700000000, 0)%Z false.
Definition world0 : world sqlite := (mkSqlite standalone_tables 0, mkService standalone_identity true None).
Definition joined : world sqlite := (CommitNodeEnrollment (Some uuid_k) 5 world0).1.
Definition unlinked : world sqlite := (SetNodeUnlinked true joined).1.
Definition promoted : world sqlite * identified PromoteResult := Promote "" (Some 5%Z) unlinked.
Definition calm_topology : TopologyStore sqlite := mkTopologyStore _
  (fun s input => on_tables calm (fun n t => promote_tables parse_any (env_ids calm n) (env_now calm n) t input) s)
  (fun s input => on_tables calm (fun n t => demote_tables parse_any (env_ids calm n) (env_now calm n) t input) s).

Lemma calm_topology_ok : Topology (S:=sqlite) = Some calm_topology.
Proof. reflexivity. Qed.
Lemma world0_coherent : coherent world0.
Proof.
  split; [reflexivity|]. split; [done|]. exists (durable_of standalone_identity). split; [vm_compute; reflexivity|].
  apply good_intro; [split; split; vm_compute; congruence|vm_compute; congruence|reflexivity].
Qed.
Lemma joined_step : step world0 joined.
Proof. apply step_join; [split; vm_compute; congruence|]. intros k [= <-]. reflexivity. Qed.
Lemma unlinked_headroom : headroom unlinked.
Proof.
  intros d H. assert (stored unlinked.1 = Some (mkDurable uuid_a uuid_b TopologyRoleNode 5 5 (Some uuid_k))) as E by (vm_compute; reflexivity).
  rewrite E in H. assert (d_latest d = 5%Z) as -> by (clear E; revert H; generalize uuid_a uuid_b TopologyRoleNode (Some uuid_k); by intros ? ? ? ? [= <-]).
  reflexivity.
Qed.
Lemma promotion_outranks_witness : exists res, promoted.2 = Ok res /\ (5 < LeadershipGeneration (PrIdentity res))%Z.
Proof.
  eexists. split; [vm_compute; reflexivity|].
  destruct (promotion_outranks calm_topology calm_topology_ok 5 world0 joined unlinked promoted.1 "" (Some 5%Z)
    (mkPromoted (mkIdentity uuid_a uuid_b TopologyRolePrimary 6 6 None (1700000000, 0)%Z true) TopologyRoleNode 5 1 None)) as [H _].
  - exact world0_coherent.
  - apply (learns_join 5 world0 joined (Some uuid_k) (cached joined.2)); [split; vm_compute; congruence|intros k [= <-]; reflexivity|vm_compute; reflexivity].
  - apply rtc_once. apply (step_unlinked joined true).
  - exact unlinked_headroom.
  - vm_compute. reflexivity.
  - exact H.
Defined.
Lemma topology_change_severs_witness : bound_row (sync (tables promoted.1.1)) = None /\ cluster_keys (tables unlinked.1) <> []
  /\ Forall (fun k => k_retired k <> None) (cluster_keys (tables promoted.1.1)).
Proof.
  pose proof (topology_change_severs parse_any (uuid_a, uuid_b) (env_now calm (call_count unlinked.1)) (tables unlinked.1) (tables promoted.1.1)
    (Ok (mkChange TopologyRolePrimary 6 None 1))) as H.
  destruct H as (_&Hk&_&Hb); [left; exists (mkPromote "" TopologyRoleNode 5 6); vm_compute; reflexivity|].
  split; [by apply Hb|]. split; [vm_compute; discriminate|exact Hk].
Defined.
Definition empty_tables : topology_tables := mkTopologyTables None [] [] [] [] (mkTables [] [] (mkDatabase [] [] [] None)).
Lemma first_boots_converge_witness : exists t' rs, boots parse_any empty_tables [((1, 0)%Z, (uuid_a, uuid_b)); ((2, 0)%Z, (uuid_b, uuid_k))] = (t', rs)
  /\ length (List.filter made rs) = 1.
Proof.
  eexists _, _. split; [vm_compute; reflexivity|].
  refine (proj2 (proj2 (first_boots_converge parse_any [((1, 0)%Z, (uuid_a, uuid_b)); ((2, 0)%Z, (uuid_b, uuid_k))] empty_tables _ _ _ _)) _).
  - reflexivity.
  - vm_compute. reflexivity.
  - eexists _, _. apply list_elem_of_here.
Defined.

(** ** Two creators of one cluster key, and an imported key

    Both creators look before either writes; the key of the first is what both hold. *)
Definition master0 : string := StdEncodeToString (repeat 0%Z 32).
Definition key_a : list Z := repeat 7%Z 32.
Definition iv0 : list Z := repeat 1%Z 12.
Definition no_keys : topology_tables := set_keys standalone_tables [].
Definition first_creator : creator := mkCreator 0 (1700000000, 0)%Z (mkEntropy (Some key_a) (Some uuid_a) iv0).
Definition second_creator : creator := mkCreator 0 (1700000001, 0)%Z (mkEntropy (Some (repeat 9%Z 32)) (Some uuid_b) iv0).

Lemma is_byte_list l : forallb (fun b => (0 <=? b)%Z && (b <? 256)%Z) l = true -> Forall is_byte l.
Proof. intros H%forallb_Forall. eapply Forall_impl; [exact H|]. intros b Hb. apply andb_true_iff in Hb as [?%Z.leb_le ?%Z.ltb_lt]. by split. Qed.
Lemma master0_ok : DecodeMasterKey master0 = Ok (repeat 0%Z 32).
Proof. vm_compute. reflexivity. Qed.
Lemma parse_any_canonical : forall s, uuidPattern s = true -> parse_any s = Some s.
Proof. done. Qed.

Lemma secret_roundtrip_witness : exists text, EncryptSecret iv0 "hunter2" master0 = Ok text /\ DecryptSecret text master0 = Ok "hunter2".
Proof. apply (secret_roundtrip master0 (repeat 0%Z 32) iv0 "hunter2" master0_ok); [apply is_byte_list|]; vm_compute; reflexivity. Defined.

Lemma good_draw id k : forallb (fun b => (0 <=? b)%Z && (b <? 256)%Z) k = true -> good_entropy (mkEntropy (Some k) id iv0).
Proof. intros H. split; [intros k' [= <-]; by apply is_byte_list|]. split; [by apply is_byte_list|done]. Qed.
Definition created := Eval vm_compute in create_all master0 parse_any [no_keys] no_keys [first_creator; second_creator].
Lemma created_eq : create_all master0 parse_any [no_keys] no_keys [first_creator; second_creator] = created.
Proof. vm_compute. reflexivity. Qed.
Lemma key_creators_converge_witness :
  created.2 = [Ok (mkMaterial uuid_a key_a); Ok (mkMaterial uuid_a key_a)]
  /\ loadOldest master0 parse_any (cluster_keys created.1) = Some (Ok (mkMaterial uuid_a key_a)).
Proof.
  split; [vm_compute; reflexivity|].
  apply (key_creators_converge master0 (repeat 0%Z 32) parse_any master0_ok parse_any_canonical no_keys [first_creator; second_creator] created.1 created.2).
  - constructor; [by apply good_draw|constructor; [by apply good_draw|constructor]].
  - exact created_eq.
  - left.
Defined.

(** The row of the key was retired and holds other material; the import replaces it. *)
Definition retired_tables : topology_tables :=
  set_keys standalone_tables (map (retire_key stamp0) (cluster_keys standalone_tables) ++ [mkKeyRow uuid_a "cluster-kek" "other" 1 stamp0 None]).
Definition imported := Eval vm_compute in
  match ImportInWrite master0 stamp0 iv0 retired_tables uuid_k key_a with Ok (t, _) => t | Err _ => retired_tables end.
Lemma imported_key_loads_witness : LoadActiveInWrite master0 imported uuid_k = Ok (mkMaterial uuid_k key_a)
  /\ cluster_keys imported <> cluster_keys retired_tables.
Proof.
  split; [|vm_compute; congruence].
  apply (imported_key_loads master0 (repeat 0%Z 32) master0_ok stamp0 iv0 retired_tables uuid_k key_a imported).
  - cbn. apply NoDup_cons. split; [|apply NoDup_singleton]. intros Hin%list_elem_of_singleton. vm_compute in Hin. discriminate.
  - apply is_byte_list. reflexivity.
  - apply is_byte_list. reflexivity.
  - reflexivity.
  - vm_compute. reflexivity.
Defined.
