(* ===== verification/PrimaryStore.v ===== *)
(** * The primary's tables (configuration/sqlite_enrollment_tokens.go, sqlite_node_unlink.go)

    What a primary keeps about its nodes beside the topology rows: enrollment tokens and
    their grants, published snapshots, acknowledgements, secrets, users. The token
    life cycle and the unlinking of a node are transactions on them; [clock] is the
    writer's clock, the times that callers give are arguments. *)

From S2P Require Import Prelude GoStrings Timestamp Model Identity Topology Jobs Store Revisions NodeSyncStore Installation InstallationStore.
From stdpp Require Import options.

(** ** UUID texts (sqlitedb/uuid_lookup.go) *)
Definition lookup_char (c : ascii) : option ascii :=
  if is_digit c || in_range 97 102 c then Some c else if in_range 65 70 c then Some (byte_of (code c + 32)) else None.
(** [n] pairs of digits are left, [k] are read; one hyphen may follow each four digits but the last. *)
Fixpoint lookup_pairs (n k : nat) (s : string) : option (string * string) :=
  match n with
  | O => Some ("", s)
  | S n =>
      match s with
      | String a (String b s) =>
          a ← lookup_char a; b ← lookup_char b;
          let s := if Nat.odd k && (k <? 15)%nat && HasPrefix s "-" then drop_s 1 s else s in
          '(digits, rest) ← lookup_pairs n (S k) s;
          Some (String a (String b digits), rest)
      | _ => None
      end
  end.
Definition ParseUUIDLookupText (input : string) : option string :=
  let braced := HasPrefix input "{" in
  '(d, rest) ← lookup_pairs 16 0 (if braced then drop_s 1 input else input);
  if rest =? (if braced then "}" else "") then
    Some (take_s 8 d +:+ "-" +:+ take_s 4 (drop_s 8 d) +:+ "-" +:+ take_s 4 (drop_s 12 d) +:+ "-"
          +:+ take_s 4 (drop_s 16 d) +:+ "-" +:+ drop_s 20 d)
  else None.
Example lookup_examples :
  map ParseUUIDLookupText ["{0A0A0a0a0a0a4a0a8a0a0a0a0a0a0a0a}"; "0a0a-0a0a-0a0a4a0a-8a0a-0a0a-0a0a-0a0a"; "0a0a0a0a-0a0a-4a0a-8a0a-0a0a0a0a0a0a-"; "0a0a"]
  = [Some "0a0a0a0a-0a0a-4a0a-8a0a-0a0a0a0a0a0a"; Some "0a0a0a0a-0a0a-4a0a-8a0a-0a0a0a0a0a0a"; None; None].
Proof. by vm_compute. Qed.

(** ** Clocks *)
(** Years are computed from an unsigned number of seconds, which this many before 1970 wraps. *)
Definition calendar_start : Z := -9223372028741760000.
Definition sqliteEnqueueTime (key : option string) : Store.stored (option time) :=
  match DecodeTimestamp key with
  | Err e => Err (ErrTimestamp e)
  | Ok NullTimestamp => Ok None
  | Ok (FiniteTimestamp seconds nanos) =>
      if (2 ^ 63 - 1 - 62135596800 <? seconds)%Z || (seconds <? calendar_start)%Z then Err ErrJobField
      else Ok (Some (seconds, nanos))
  | Ok _ => Err ErrJobField
  end.
(** A column that may not be NULL. *)
Definition finite_clock (key : string) : Store.stored time :=
  t ← sqliteEnqueueTime (Some key); match t with Some t => Ok t | None => Err ErrJobField end.
Definition sqliteEnrollmentTokenTime (at_ : time) : Store.stored string := encodeTime at_.

(** ** Tables *)
Record TokenRow := mkToken {
  t_id : string; t_selector : string; t_hash : string; t_version : string; t_owner : string; t_created : string; t_expires : string;
  t_consumed : option string; t_revoked : option string; t_by : option string }.
Record GrantRow := mkGrant {
  g_attempt : string; g_token : string; g_installation : string; g_node : string; g_primary : string; g_generation : Z;
  g_digest : option string; g_recipient : string; g_payload : string; g_payload_hash : string; g_created : string; g_expires : string }.
Record AppliedRow := mkApplied {
  p_id : string; p_primary : string; p_generation : Z; p_snapshot : Z; p_replication : Z; p_hash : string;
  p_body : option string; p_revision : option string; p_status : string; p_job : option string; p_failure : option string;
  p_at : string; p_discarded : option string }.
Record AckRow := mkAck {
  a_node : string; a_hash : string; a_snapshot : Z; a_replication : Z; a_revision : string; a_generation : Z;
  a_applied : string; a_received : string }.
Record SecretRow := mkSecretRow { sr_id : string; sr_purpose : string; sr_ciphertext : string }.
Record UserRow := mkUserRow { u_id : string; u_name : string; u_hash : string; u_role : string; u_active : bool }.
Record primary_tables := mkPrimaryTables {
  topo : topology_tables; applied_snapshots : list AppliedRow; enrollment_tokens : list TokenRow; enrollment_grants : list GrantRow;
  node_snapshot_acks : list AckRow; secret_rows : list SecretRow; user_rows : list UserRow }.
#[global] Instance AppliedRow_eq_dec : EqDecision AppliedRow. Proof. solve_decision. Defined.
#[global] Instance TokenRow_eq_dec : EqDecision TokenRow. Proof. solve_decision. Defined.

Definition tables_core (t : primary_tables) : database := core (sync (topo t)).
Definition set_topo (t : primary_tables) (x : topology_tables) : primary_tables :=
  mkPrimaryTables x (applied_snapshots t) (enrollment_tokens t) (enrollment_grants t) (node_snapshot_acks t) (secret_rows t) (user_rows t).
Definition set_applied_snapshots (t : primary_tables) (l : list AppliedRow) : primary_tables :=
  mkPrimaryTables (topo t) l (enrollment_tokens t) (enrollment_grants t) (node_snapshot_acks t) (secret_rows t) (user_rows t).
Definition set_tokens (t : primary_tables) (l : list TokenRow) : primary_tables :=
  mkPrimaryTables (topo t) (applied_snapshots t) l (enrollment_grants t) (node_snapshot_acks t) (secret_rows t) (user_rows t).
Definition set_acks (t : primary_tables) (l : list AckRow) : primary_tables :=
  mkPrimaryTables (topo t) (applied_snapshots t) (enrollment_tokens t) (enrollment_grants t) l (secret_rows t) (user_rows t).
Definition set_core (t : primary_tables) (db : database) : primary_tables :=
  let x := topo t in
  set_topo t (mkTopologyTables (identity_row x) (node_credentials x) (enrolled_nodes x) (cluster_keys x) (audit_events x)
    (mkTables (node_state (sync x)) (health_observations (sync x)) db)).
Definition set_nodes (t : primary_tables) (credentials : list CredentialRow) (nodes : list EnrolledRow) : primary_tables :=
  let x := topo t in
  set_topo t (mkTopologyTables (identity_row x) credentials nodes (cluster_keys x) (audit_events x) (sync x)).

Inductive primary_error : Type :=
| ErrPrimaryStore (e : store_error) | ErrInvalidUUIDText (text : string)
| ErrEnrollmentTokenDenied | ErrEnrollmentTokenNotFound | ErrEnrollmentTokenActive | ErrEnrollmentTokenInUse
| ErrEnrolledNodeNotFound | ErrNodeUnlinkStore.
#[global] Instance primary_error_eq_dec : EqDecision primary_error.
Proof. solve_decision. Defined.
#[global] Instance primary_store_failure : StoreFailure primary_error := ErrPrimaryStore.
Abbreviation granted_by := (result primary_error).
Definition in_store {A} (r : Store.stored A) : granted_by A := match r with Ok a => Ok a | Err e => Err (ErrPrimaryStore e) end.
Definition lookup_id (id : string) : granted_by string :=
  match ParseUUIDLookupText id with Some c => Ok c | None => Err (ErrInvalidUUIDText id) end.

(** ** Enrollment tokens *)
Definition EnrollmentTokenHashVersion : string := "sha256-v1".
Definition token_row_ok (t : primary_tables) (r : TokenRow) : bool :=
  uuidPattern (t_id r) && negb (has_nul (t_selector r)) && negb (has_nul (t_hash r)) && negb (has_nul (t_version r))
  && contains (users (tables_core t)) (t_owner r) && timestamp_column (t_created r) && timestamp_column (t_expires r)
  && less_s (t_created r) (t_expires r)
  && forallb (fun o => negb (t_id o =? t_id r) && negb (t_selector o =? t_selector r)) (enrollment_tokens t).
(** The role that may mint a token; the standalone role becomes the primary one. *)
Definition mint_role (r : IdentityRow) : option string :=
  if ((i_role r =? TopologyRoleStandalone) || (i_role r =? TopologyRolePrimary) || (i_role r =? TopologyRolePrimaryWithNodes))
     && (i_latest r <=? i_leadership r)%Z
  then Some (if i_role r =? TopologyRoleStandalone then TopologyRolePrimary else i_role r) else None.
Definition CreateEnrollmentToken (t : primary_tables) (clock : time) (id selector hash version ownerID : string) (createdAt expiresAt : time)
    : primary_tables * granted_by string :=
  Write t clock (fun _ t =>
    ensure (version =? EnrollmentTokenHashVersion) ErrEnrollmentTokenDenied;;
    canonicalID ← lookup_id id;
    canonicalOwner ← lookup_id ownerID;
    created ← in_store (sqliteEnrollmentTokenTime createdAt);
    expires ← in_store (sqliteEnrollmentTokenTime expiresAt);
    match (r ← identity_row (topo t); role ← mint_role r; Some (r, role)) with
    | None => Err ErrEnrollmentTokenDenied
    | Some (r, role) =>
        let t := set_topo t (set_identity (topo t) (row_role role created r)) in
        let row := mkToken canonicalID selector hash version canonicalOwner created expires None None None in
        ensure (token_row_ok t row) (ErrPrimaryStore ErrConstraint);;
        mret (set_tokens t (enrollment_tokens t ++ [row]), role)
    end).

Definition token_of (t : primary_tables) (selector : string) : option TokenRow :=
  find_first (fun r => t_selector r =? selector) (enrollment_tokens t).
Definition consume_token (stamp : string) (r : TokenRow) : TokenRow :=
  mkToken (t_id r) (t_selector r) (t_hash r) (t_version r) (t_owner r) (t_created r) (t_expires r) (Some stamp) (t_revoked r) (t_by r).
Definition revoke_token (stamp : string) (r : TokenRow) : TokenRow :=
  mkToken (t_id r) (t_selector r) (t_hash r) (t_version r) (t_owner r) (t_created r) (t_expires r) (t_consumed r)
    (Some (default stamp (t_revoked r))) (t_by r).
Definition is_null {A} (o : option A) : bool := match o with None => true | Some _ => false end.
Definition update_tokens (p : TokenRow -> bool) (f : TokenRow -> TokenRow) (t : primary_tables) : primary_tables :=
  set_tokens t (map (fun r => if p r then f r else r) (enrollment_tokens t)).
Definition CheckEnrollmentToken (t : primary_tables) (clock : time) (selector hash : string) (now : time) (consume : bool)
    : primary_tables * granted_by unit :=
  Write t clock (fun _ t =>
    match token_of t selector with
    | None => Err ErrEnrollmentTokenDenied
    | Some r =>
        match DecodeTimestamp (Some (t_expires r)) with
        | Err e => Err (ErrPrimaryStore (ErrTimestamp e))
        | Ok _ =>
            stamp ← in_store (sqliteEnrollmentTokenTime now);
            if negb (t_version r =? EnrollmentTokenHashVersion) || negb (t_hash r =? hash) || negb (less_s stamp (t_expires r))
               || negb (is_null (t_consumed r)) || negb (is_null (t_revoked r)) then Err ErrEnrollmentTokenDenied else
            if negb consume then mret (t, tt) else
            let hit := fun o => (t_id o =? t_id r) && is_null (t_consumed o) in
            ensure (length (List.filter hit (enrollment_tokens t)) =? 1)%nat ErrEnrollmentTokenDenied;;
            mret (update_tokens hit (consume_token stamp) t, tt)
        end
    end).
Definition RevokeEnrollmentToken (t : primary_tables) (clock : time) (id ownerID : string) (now : time) : primary_tables * granted_by unit :=
  Write t clock (fun _ t =>
    canonicalID ← lookup_id id;
    canonicalOwner ← lookup_id ownerID;
    stamp ← in_store (sqliteEnrollmentTokenTime now);
    mret (update_tokens (fun r => (t_id r =? canonicalID) && (t_owner r =? canonicalOwner)) (revoke_token stamp) t, tt)).
Definition token_granted (t : primary_tables) (id : string) : bool := existsb (fun g => g_token g =? id) (enrollment_grants t).
Definition DeleteEnrollmentToken (t : primary_tables) (clock : time) (id ownerID : string) (now : time) : primary_tables * granted_by unit :=
  Write t clock (fun _ t =>
    canonicalID ← lookup_id id;
    canonicalOwner ← lookup_id ownerID;
    stamp ← in_store (sqliteEnrollmentTokenTime now);
    let mine := fun r => (t_id r =? canonicalID) && (t_owner r =? canonicalOwner) in
    match find_first mine (enrollment_tokens t) with
    | None => Err ErrEnrollmentTokenNotFound
    | Some r =>
        match DecodeTimestamp (Some (t_expires r)) with
        | Err e => Err (ErrPrimaryStore (ErrTimestamp e))
        | Ok _ =>
            if token_granted t (t_id r) then Err ErrEnrollmentTokenInUse
            else if is_null (t_revoked r) && negb (is_null (t_consumed r)) then Err ErrEnrollmentTokenInUse
            else if is_null (t_revoked r) && less_s stamp (t_expires r) then Err ErrEnrollmentTokenActive else
            let gone := fun r => mine r && negb (token_granted t (t_id r)) in
            ensure (length (List.filter gone (enrollment_tokens t)) =? 1)%nat ErrEnrollmentTokenNotFound;;
            mret (set_tokens t (List.filter (fun r => negb (gone r)) (enrollment_tokens t)), tt)
        end
    end).

(** ** Unlinking a node *)
Definition unlink_credential (stamp node : string) (r : CredentialRow) : CredentialRow :=
  if c_node r =? node then revoke_credential stamp r else r.
Definition unlink_node (stamp node : string) (r : EnrolledRow) : EnrolledRow :=
  if e_node r =? node then
    mkEnrolledRow (e_node r) (e_installation r) (e_primary r) (e_credential r) (e_attempt r) (e_enrolled r)
      (Some (default stamp (e_revoked r))) (Some (default stamp (e_unlinked r)))
  else r.
Definition node_of (t : primary_tables) (node : string) : option EnrolledRow :=
  find_first (fun r => e_node r =? node) (enrolled_nodes (topo t)).
(** The effective time; every failure but an unknown node is the store's. *)
Definition UnlinkEnrolledNode (t : primary_tables) (clock : time) (nodeID : string) (now : time) : primary_tables * granted_by time :=
  match ParseUUIDLookupText nodeID with
  | None => (t, Err ErrEnrolledNodeNotFound)
  | Some canonical =>
      match sqliteEnrollmentTokenTime now with
      | Err _ => (t, Err ErrNodeUnlinkStore)
      | Ok stamp =>
          let '(t', r) := Write t clock (fun _ t =>
            match node_of t canonical with
            | None => Err ErrEnrolledNodeNotFound
            | Some _ =>
                let t := set_nodes t (map (unlink_credential stamp canonical) (node_credentials (topo t)))
                           (map (unlink_node stamp canonical) (enrolled_nodes (topo t))) in
                match (r ← node_of t canonical; e_unlinked r) with
                | Some effective => match finite_clock effective with Ok at_ => mret (t, at_) | Err _ => Err ErrNodeUnlinkStore end
                | None => Err ErrNodeUnlinkStore
                end
            end) in
          (t', match r with Err ErrEnrolledNodeNotFound => Err ErrEnrolledNodeNotFound | Err _ => Err ErrNodeUnlinkStore | Ok at_ => Ok at_ end)
      end
  end.
