(* ===== verification/Publication.v ===== *)
(** * Published snapshots and acknowledgements (configuration/sqlite_snapshot_publication.go, sqlite_snapshot_acknowledgement.go)

    The reads a primary serves its nodes from, each in one transaction: the credential
    with its node, the identity, the cluster key, the newest applied snapshot with the
    terminal proof of its revision and job. The authenticator is an argument, as in the
    source; a read also returns the record it was called with, which the HTTP handler
    observes. Failures of the database engine itself are left out. *)

From S2P Require Import Prelude GoStrings Json JsonText Scrub RProxy Timestamp GoTime Model Identity Topology Kek Snapshot SnapshotText Jobs Store Revisions Credentials SnapshotClient NodeSyncStore Installation InstallationStore ClusterKeys PrimaryStore.
From stdpp Require Import options.

Definition SnapshotPublicationMaxBytes : Z := 8388608.
Record SnapshotPublicationCredentialRecord := mkPubCredential {
  PCID : string; PCNodeID : string; PCHash : string; PCHashVersion : string; PCRevokedAt : option time; PCNodeRevokedAt : option time;
  PCNodeUnlinkedAt : option time; PCPrimaryID : string }.
Record SnapshotPublicationIdentityRecord := mkPubIdentity {
  PIInstallationID : string; PINodeID : string; PIRole : TopologyRole; PILeadership : Z; PILatest : Z; PIKey : option uuid;
  PIKeyUsable : bool }.
Record SnapshotPublicationRecord := mkPublication {
  PSnapshotID : string; PBytes : string; PContentHash : string; PSnapshotVersion : Z; PReplicationVersion : Z; PRevisionID : string;
  PRevisionNumber : Z; PSourcePrimaryID : string; PGeneration : Z; PApplyJobID : string; PAppliedAt : time;
  PDiscardedAt : option time; PProofComplete : bool }.
Record SnapshotPublicationResult := mkPubResult {
  RCurrent : bool; RPrincipal : NodePrincipal; RIdentity : SnapshotPublicationIdentityRecord; RSnapshot : SnapshotPublicationRecord }.
Definition authenticator : Type := string -> SnapshotPublicationCredentialRecord -> option NodePrincipal.
Record SnapshotPublicationRequest := mkPubRequest {
  QCredentialID : string; QPresented : string; QAfter : string; QMaxBytes : Z; QAuthenticate : authenticator }.
Inductive publication_error : Type := ErrSnapshotPublicationStore.
#[global] Instance publication_store_failure : StoreFailure publication_error := fun _ => ErrSnapshotPublicationStore.

(** ** The terminal proof: the revision and the job of an applied row say the same *)
Definition revision_of (t : primary_tables) (a : AppliedRow) : option RevisionRow :=
  id ← p_revision a; find_first (fun r => v_id r =? id) (config_revisions (tables_core t)).
Definition job_of (t : primary_tables) (a : AppliedRow) : option JobRow :=
  id ← p_job a; find_first (fun j => j_id j =? id) (apply_jobs (tables_core t)).
(** Comparison with a column that may be NULL. *)
Definition is_text (o : option string) (s : string) : bool := match o with Some v => v =? s | None => false end.
Definition is_int (o : option Z) (z : Z) : bool := match o with Some v => (v =? z)%Z | None => false end.
Definition revision_matches (a : AppliedRow) (r : RevisionRow) : bool :=
  (v_source r =? "ordinary") && is_null (v_node r) && is_null (v_source_revision r) && is_text (v_primary r) (p_primary a)
  && is_text (v_hash r) (p_hash a) && is_int (v_snapshot_version r) (p_snapshot a)
  && is_int (v_replication_version r) (p_replication a) && is_int (v_leadership r) (p_generation a) && negb (is_null (v_applied r)).
Definition job_matches (a : AppliedRow) (r : RevisionRow) (j : JobRow) : bool :=
  (j_revision j =? v_id r) && (j_status j =? Applied) && negb (is_null (j_finished j)) && (j_source j =? "ordinary")
  && is_null (j_node j) && is_null (j_source_revision j) && is_text (j_primary j) (p_primary a) && is_text (j_hash j) (p_hash a)
  && is_int (j_snapshot_version j) (p_snapshot a) && is_int (j_replication_version j) (p_replication a)
  && is_int (j_leadership j) (p_generation a).
Definition live_row (a : AppliedRow) : bool := (p_status a =? "applied") && negb (is_null (p_body a)) && is_null (p_discarded a).
Definition proof_complete (t : primary_tables) (a : AppliedRow) : bool :=
  live_row a && match revision_of t a, job_of t a with
                | Some r, Some j => revision_matches a r && job_matches a r j && (j_target j =? TargetCombined)
                | _, _ => false
                end.

(** The newest by the apply clock; the revision number and the identifier break ties. *)
Definition revision_rank (t : primary_tables) (a : AppliedRow) : Z := match revision_of t a with Some r => v_number r | None => (-1)%Z end.
Definition newer_row (t : primary_tables) (a b : AppliedRow) : bool :=
  less_s (p_at b) (p_at a) || (p_at b =? p_at a) &&
    ((revision_rank t b <? revision_rank t a)%Z || (revision_rank t b =? revision_rank t a)%Z && less_s (p_id b) (p_id a)).
Definition newest_row (t : primary_tables) (primaryID : string) : option AppliedRow :=
  head (SliceStable (newer_row t) (List.filter (fun a => p_primary a =? primaryID) (applied_snapshots t))).
Definition publication_of (t : primary_tables) (a : AppliedRow) : Store.stored (SnapshotPublicationRecord * Z) :=
  appliedAt ← finite_clock (p_at a);
  discarded ← sqliteEnqueueTime (p_discarded a);
  mret (mkPublication (p_id a) "" (p_hash a) (p_snapshot a) (p_replication a)
          (match revision_of t a with Some r => v_id r | None => "" end)
          (match revision_of t a with Some r => v_number r | None => 0%Z end)
          (p_primary a) (p_generation a) (match job_of t a with Some j => j_id j | None => "" end)
          appliedAt discarded (proof_complete t a),
        match p_body a with Some b => slen b | None => 0%Z end).
(** [None]: there is no row. *)
Definition sqliteLatestSnapshotPublication (t : primary_tables) (primaryID : string) : option (Store.stored (SnapshotPublicationRecord * Z)) :=
  publication_of t <$> newest_row t primaryID.

Definition validSnapshotPublicationHash (value : string) : bool := validSnapshotHash value.

Section publication.
Context (uuid_Parse uuid_text : string -> option uuid) (float_text : string -> option string).
Context (accept : accept_lists) (master : string).

Definition validPublicationUUID (value : string) : bool :=
  match uuid_Parse value with Some parsed => negb (parsed =? uuid_Nil) && (parsed =? value) | None => false end.
Definition primary_role (role : TopologyRole) : bool := (role =? TopologyRolePrimary) || (role =? TopologyRolePrimaryWithNodes).
Definition readySnapshotPublicationIdentity (r : SnapshotPublicationIdentityRecord) : bool :=
  validPublicationUUID (PIInstallationID r) && validPublicationUUID (PINodeID r) && primary_role (PIRole r)
  && (0 <? PILeadership r)%Z && (PILeadership r =? PILatest r)%Z.

Definition sqlitePublicationCredential (t : primary_tables) (id : string) : option SnapshotPublicationCredentialRecord :=
  c ← find_first (fun c => c_id c =? id) (node_credentials (topo t));
  n ← find_first (fun n => (e_credential n =? c_id c) && (e_node n =? c_node c)) (enrolled_nodes (topo t));
  match sqliteEnqueueTime (c_revoked c), sqliteEnqueueTime (e_revoked n), sqliteEnqueueTime (e_unlinked n) with
  | Ok credentialRevoked, Ok nodeRevoked, Ok nodeUnlinked =>
      Some (mkPubCredential (c_id c) (c_node c) (c_hash c) (c_version c) credentialRevoked nodeRevoked nodeUnlinked (e_primary n))
  | _, _, _ => None
  end.
Definition sqlitePublicationIdentity (t : primary_tables) : option SnapshotPublicationIdentityRecord :=
  r ← identity_row (topo t);
  key ← match i_key r with None => Some None | Some text => k ← uuid_Parse text; Some (Some k) end;
  Some (mkPubIdentity (i_installation r) (i_node r) (i_role r) (i_leadership r) (i_latest r) key false).
Definition with_key_usable (i : SnapshotPublicationIdentityRecord) : SnapshotPublicationIdentityRecord :=
  mkPubIdentity (PIInstallationID i) (PINodeID i) (PIRole i) (PILeadership i) (PILatest i) (PIKey i) true.
Definition with_bytes (p : SnapshotPublicationRecord) (b : string) : SnapshotPublicationRecord :=
  mkPublication (PSnapshotID p) b (PContentHash p) (PSnapshotVersion p) (PReplicationVersion p) (PRevisionID p) (PRevisionNumber p)
    (PSourcePrimaryID p) (PGeneration p) (PApplyJobID p) (PAppliedAt p) (PDiscardedAt p) (PProofComplete p).
(** The key's material as a KEK. *)
Definition loaded_kek (t : primary_tables) (id : uuid) : option KEK :=
  match loadByID master (cluster_keys (topo t)) id with
  | Ok material => match NewKEK (CopyKeyBytes material) with Ok kek => Some kek | Err _ => None end
  | Err _ => None
  end.

(** ** Reading for a node; every failure is the same denial *)
Definition read_candidate (t : primary_tables) (q : SnapshotPublicationRequest) (primary : string) (kek : KEK) : option SnapshotPublicationRecord :=
  match sqliteLatestSnapshotPublication t primary with
  | Some (Ok (candidate, size)) =>
      if (size <=? 0)%Z || (QMaxBytes q <? size)%Z || negb (PProofComplete candidate) then None else
      row ← find_first (fun a => p_id a =? PSnapshotID candidate) (applied_snapshots t);
      raw ← p_body row;
      if (raw =? "") || negb (slen raw =? size)%Z || (QMaxBytes q <? slen raw)%Z then None else
      match Unmarshal uuid_text float_text raw with
      | Ok envelope => if OK (Validator_Validate (NewValidator (Some kek)) accept envelope) then Some (with_bytes candidate raw) else None
      | Err _ => None
      end
  | _ => None
  end.
Definition authorized (t : primary_tables) (q : SnapshotPublicationRequest) (credential : SnapshotPublicationCredentialRecord)
    : option SnapshotPublicationResult :=
  principal ← QAuthenticate q (QPresented q) credential;
  if negb (PCredentialID principal =? PCID credential) || negb (PNodeID principal =? PCNodeID credential) then None else
  if negb (QAfter q =? "") && negb (validSnapshotPublicationHash (QAfter q)) then None else
  identity ← sqlitePublicationIdentity t;
  if negb (readySnapshotPublicationIdentity identity) || negb (PCPrimaryID credential =? PIInstallationID identity) then None else
  key ← PIKey identity;
  kek ← loaded_kek t key;
  candidate ← read_candidate t q (PCPrimaryID credential) kek;
  let current := negb (QAfter q =? "") && (QAfter q =? PContentHash candidate) in
  Some (mkPubResult current principal (with_key_usable identity) (if current then with_bytes candidate "" else candidate)).
Definition readPublication (t : primary_tables) (q : SnapshotPublicationRequest)
    : option SnapshotPublicationCredentialRecord * option SnapshotPublicationResult :=
  match sqlitePublicationCredential t (QCredentialID q) with
  | None => (None, None)
  | Some credential => (Some credential, authorized t q credential)
  end.
Definition ReadSnapshotPublication (t : primary_tables) (clock : time) (q : SnapshotPublicationRequest)
    : option SnapshotPublicationCredentialRecord * result publication_error SnapshotPublicationResult :=
  if (QCredentialID q =? "") || (QPresented q =? "") || (QMaxBytes q <=? 0)%Z || (SnapshotPublicationMaxBytes <? QMaxBytes q)%Z
  then (None, Err ErrSnapshotPublicationStore) else
  match encodeTime clock with
  | Err _ => (None, Err ErrSnapshotPublicationStore)
  | Ok _ => let '(seen, r) := readPublication t q in
            (seen, match r with Some r => Ok r | None => Err ErrSnapshotPublicationStore end)
  end.
(** The hash of what is published, if anything is. *)
Definition LatestPublishedContentHash (t : primary_tables) (clock : time) : result publication_error (option string) :=
  match encodeTime clock, sqlitePublicationIdentity t with
  | Ok _, Some identity =>
      match sqliteLatestSnapshotPublication t (PIInstallationID identity) with
      | None => Ok None
      | Some (Err _) => Err ErrSnapshotPublicationStore
      | Some (Ok (candidate, size)) =>
          if PProofComplete candidate && is_null (PDiscardedAt candidate) && (0 <? size)%Z && (PGeneration candidate =? PILeadership identity)%Z
          then Ok (Some (PContentHash candidate)) else Ok None
      end
  | _, _ => Err ErrSnapshotPublicationStore
  end.

(** ** Reading with an enrollment token *)
Inductive token_read_error : Type :=
| ErrSnapshotByTokenUnauthenticated | ErrSnapshotByTokenGone | ErrSnapshotByTokenDenied | ErrNoPublishableSnapshot | ErrSnapshotByTokenUnavailable.
#[global] Instance token_read_failure : StoreFailure token_read_error := fun _ => ErrSnapshotByTokenUnavailable.
Definition validSnapshotByTokenIdentity (i : SnapshotPublicationIdentityRecord) : bool :=
  validPublicationUUID (PIInstallationID i) && validPublicationUUID (PINodeID i) && primary_role (PIRole i)
  && (0 <? PILeadership i)%Z && (PILeadership i =? PILatest i)%Z
  && match PIKey i with Some k => negb (k =? uuid_Nil) | None => false end.
Definition newer_applied (a b : AppliedRow) : bool := less_s (p_at b) (p_at a) || (p_at b =? p_at a) && less_s (p_id b) (p_id a).
Definition readByToken (t : primary_tables) (now : time) (selector : string) (identity : SnapshotPublicationIdentityRecord)
    : result token_read_error string :=
  match token_of t selector with
  | None => Err ErrSnapshotByTokenUnauthenticated
  | Some r =>
      match DecodeTimestamp (Some (t_expires r)), sqliteEnrollmentTokenTime now with
      | Ok _, Ok now =>
          ensure ((t_version r =? EnrollmentTokenHashVersion) && less_s now (t_expires r)) ErrSnapshotByTokenUnauthenticated;;
          ensure (is_null (t_consumed r) && is_null (t_revoked r)) ErrSnapshotByTokenGone;;
          ensure (validSnapshotByTokenIdentity identity) ErrSnapshotByTokenDenied;;
          match (k ← oldest_key (cluster_keys (topo t)); uuid_Parse (k_id k)) with
          | None => Err ErrSnapshotByTokenUnavailable
          | Some activeID =>
              match loadByID master (cluster_keys (topo t)) activeID with
              | Err _ => Err ErrSnapshotByTokenUnavailable
              | Ok material =>
                  if (length (CopyKeyBytes material) =? 0)%nat then Err ErrSnapshotByTokenUnavailable else
                  ensure (bool_decide (PIKey identity = Some (MaterialID material))) ErrSnapshotByTokenDenied;;
                  match head (SliceStable newer_applied (List.filter (fun a => (p_primary a =? PIInstallationID identity)
                          && (p_generation a =? PILeadership identity)%Z) (applied_snapshots t))) with
                  | None => Err ErrNoPublishableSnapshot
                  | Some a => match p_body a with
                              | Some body => if proof_complete t a && negb (body =? "") then Ok body else Err ErrNoPublishableSnapshot
                              | None => Err ErrNoPublishableSnapshot
                              end
                  end
              end
          end
      | _, _ => Err ErrSnapshotByTokenUnavailable
      end
  end.
Definition ReadSnapshotPublicationByToken (t : primary_tables) (clock now : time) (selector : string) (identity : SnapshotPublicationIdentityRecord)
    : result token_read_error string :=
  if selector =? "" then Err ErrSnapshotByTokenUnauthenticated else
  (Write t clock (fun _ t => body ← readByToken t now selector identity; mret (t, body))).2.
End publication.

(** ** Jobs that still need publishing (sqlite_canonical_snapshot_candidates.go) *)
Definition published_for (t : primary_tables) (j : JobRow) : bool :=
  existsb (fun a => is_text (p_job a) (j_id j) && live_row a) (applied_snapshots t).
Definition superseded_hash (t : primary_tables) (j : JobRow) : bool :=
  existsb (fun a => is_text (j_hash j) (p_hash a) && is_null (p_discarded a)) (applied_snapshots t).
Definition is_candidate (t : primary_tables) (j : JobRow) : bool :=
  (j_status j =? Applied) && (j_target j =? TargetCombined) && (j_source j =? "ordinary") && negb (is_null (j_finished j))
  && negb (published_for t j) && negb (superseded_hash t j).
Definition finished_before (a b : JobRow) : bool :=
  let k j := default "" (j_finished j) in less_s (k a) (k b) || (k a =? k b) && less_s (j_id a) (j_id b).
Definition ListCanonicalSnapshotCandidates (t : primary_tables) : list string :=
  map j_id (SliceStable finished_before (List.filter (is_candidate t) (apply_jobs (tables_core t)))).
