(* ===== verification/Acknowledgement.v ===== *)
(** * Acknowledgements of nodes (configuration/sqlite_snapshot_acknowledgement.go, snapshot_ack_types.go)

    A node's acknowledgement is stored when its credential stands, the identity leads with
    the key that was live at enrollment, and the tuple is that of a published snapshot. *)

From S2P Require Import Prelude GoStrings Timestamp Model Identity Topology Kek Snapshot Jobs Store Revisions Credentials SnapshotClient NodeSyncStore Installation InstallationStore ClusterKeys PrimaryStore Publication.
From stdpp Require Import options.

Record SnapshotAcknowledgement := mkAcknowledgement {
  AckNodeID : string; AckContentHash : string; AckSnapshotVersion : Z; AckReplicationVersion : Z; AckRevisionID : string;
  AckGeneration : Z; AckAppliedAt : time; AckReceivedAt : time }.
#[global] Instance SnapshotAcknowledgement_eq_dec : EqDecision SnapshotAcknowledgement. Proof. solve_decision. Defined.
Inductive ack_error : Type :=
| ErrSnapshotAcknowledgementDenied | ErrSnapshotAcknowledgementRevoked | ErrSnapshotAcknowledgementUnavailable | ErrSnapshotAcknowledgementNotFound.
#[global] Instance ack_error_eq_dec : EqDecision ack_error. Proof. solve_decision. Defined.
Abbreviation acked := (result ack_error).
#[global] Instance ack_store_failure : StoreFailure ack_error := fun _ => ErrSnapshotAcknowledgementUnavailable.
Definition available {A} (r : Store.stored A) : acked A :=
  match r with Ok a => Ok a | Err _ => Err ErrSnapshotAcknowledgementUnavailable end.

Section acknowledgement.
Context (uuid_Parse : string -> option uuid) (master : string).

Definition validSnapshotAcknowledgementInput (nodeID contentHash : string) (appliedAt : time) : bool :=
  validPublicationUUID uuid_Parse nodeID && validSnapshotPublicationHash contentHash && negb (bool_decide (appliedAt = zero_time)).
Definition validSnapshotAcknowledgement (a : SnapshotAcknowledgement) : bool :=
  validSnapshotAcknowledgementInput (AckNodeID a) (AckContentHash a) (AckAppliedAt a)
  && (0 <? AckSnapshotVersion a)%Z && (0 <? AckReplicationVersion a)%Z && validPublicationUUID uuid_Parse (AckRevisionID a)
  && (0 <? AckGeneration a)%Z.

(** ** The credential and its lineage: the key that was live when it was minted *)
Definition lineage_key (l : list KeyRow) (created : string) : option string :=
  if existsb (fun k => match k_retired k with Some at_ => less_s created at_ | None => false end) l then None
  else k_id <$> head (SliceStable (fun a b => less_s (k_created b) (k_created a) || (k_created a =? k_created b) && less_s (k_id a) (k_id b))
                        (List.filter live_key l)).
Record ack_credential := mkAckCredential { ac_primary : string; ac_generation : Z; ac_lineage : option string }.
Definition sqliteAckCredential (t : primary_tables) (node : string) : acked ack_credential :=
  let joined :=
    c ← find_first (fun c => c_node c =? node) (node_credentials (topo t));
    n ← find_first (fun n => (e_credential n =? c_id c) && (e_node n =? c_node c)) (enrolled_nodes (topo t));
    g ← find_first (fun g => (g_attempt g =? e_attempt n) && (g_node g =? e_node n) && (g_installation g =? e_installation n)
                             && (g_primary g =? e_primary n)) (enrollment_grants t);
    k ← find_first (fun k => t_id k =? g_token g) (enrollment_tokens t);
    Some (c, n, g, k) in
  match joined with
  | None => Err ErrSnapshotAcknowledgementDenied
  | Some (c, n, g, k) =>
      if negb (is_null (c_revoked c)) || negb (is_null (e_revoked n)) || negb (is_null (t_revoked k))
      then Err ErrSnapshotAcknowledgementRevoked
      else Ok (mkAckCredential (e_primary n) (g_generation g) (lineage_key (cluster_keys (topo t)) (c_created c)))
  end.
Definition sqliteAckIdentity (t : primary_tables) : acked SnapshotPublicationIdentityRecord :=
  match identity_row (topo t) with
  | None => Err ErrSnapshotAcknowledgementDenied
  | Some r =>
      let record key := mkPubIdentity (i_installation r) (i_node r) (i_role r) (i_leadership r) (i_latest r) key false in
      match i_key r with
      | None => Ok (record None)
      | Some text => match uuid_Parse text with
                     | Some id => if id =? text then Ok (record (Some id)) else Err ErrSnapshotAcknowledgementUnavailable
                     | None => Err ErrSnapshotAcknowledgementUnavailable
                     end
      end
  end.

(** ** The published tuple *)
Definition ack_matches (t : primary_tables) (hash : string) (i : SnapshotPublicationIdentityRecord) (a : AppliedRow) : bool :=
  (p_hash a =? hash) && live_row a && negb (default "" (p_body a) =? "") && (p_primary a =? PIInstallationID i)
  && (p_generation a =? PILeadership i)%Z
  && match revision_of t a, job_of t a with Some r, Some j => revision_matches a r && job_matches a r j | _, _ => false end.
(** The first row of this clock decides. *)
Fixpoint ack_scan (i : SnapshotPublicationIdentityRecord) (at_ : time) (l : list AppliedRow) : acked (option SnapshotAcknowledgement) :=
  match l with
  | [] => Ok None
  | a :: l =>
      applied ← available (finite_clock (p_at a));
      if (p_primary a =? PIInstallationID i) && bool_decide (applied = at_) then
        if (p_snapshot a <=? 0)%Z || (p_replication a <=? 0)%Z || negb (validPublicationUUID uuid_Parse (default "" (p_revision a)))
        then Ok None
        else Ok (Some (mkAcknowledgement "" "" (p_snapshot a) (p_replication a) (default "" (p_revision a)) (p_generation a) applied zero_time))
      else ack_scan i at_ l
  end.
Definition sqliteAckCandidate (t : primary_tables) (ack : SnapshotAcknowledgement) (i : SnapshotPublicationIdentityRecord)
    : acked (option SnapshotAcknowledgement) :=
  ack_scan i (AckAppliedAt ack)
    (SliceStable newer_applied (List.filter (ack_matches t (AckContentHash ack) i) (applied_snapshots t))).

(** ** Recording *)
Definition ack_row_ok (t : primary_tables) (r : AckRow) : bool :=
  existsb (fun n => e_node n =? a_node r) (enrolled_nodes (topo t)) && negb (has_nul (a_hash r))
  && int32_ok (Some (a_snapshot r)) && int32_ok (Some (a_replication r)) && revision_exists (tables_core t) (a_revision r)
  && timestamp_column (a_applied r) && timestamp_column (a_received r).
Definition same_ack (r o : AckRow) : bool := (a_node o =? a_node r) && (a_hash o =? a_hash r).
Definition upsert_ack (t : primary_tables) (r : AckRow) : acked primary_tables :=
  ensure (ack_row_ok t r) ErrSnapshotAcknowledgementUnavailable;;
  mret (set_acks t (if existsb (same_ack r) (node_snapshot_acks t)
                    then map (fun o => if same_ack r o then r else o) (node_snapshot_acks t)
                    else node_snapshot_acks t ++ [r])).
Definition record_ack (ack : SnapshotAcknowledgement) (stamp : string) (t : primary_tables) : acked (primary_tables * unit) :=
  credential ← sqliteAckCredential t (AckNodeID ack);
  identity ← sqliteAckIdentity t;
  ensure (readySnapshotPublicationIdentity uuid_Parse identity && (ac_primary credential =? PIInstallationID identity)
          && (ac_generation credential =? PILeadership identity)%Z) ErrSnapshotAcknowledgementDenied;;
  match PIKey identity with
  | None => Err ErrSnapshotAcknowledgementDenied
  | Some key =>
      ensure (bool_decide (ac_lineage credential = Some key)) ErrSnapshotAcknowledgementDenied;;
      ensure (existsb (fun k => (k_id k =? key) && live_key k) (cluster_keys (topo t))) ErrSnapshotAcknowledgementDenied;;
      match loadByID master (cluster_keys (topo t)) key with
      | Err _ => Err ErrSnapshotAcknowledgementUnavailable
      | Ok material =>
          ensure (negb (MaterialID material =? uuid_Nil) && (MaterialID material =? key)) ErrSnapshotAcknowledgementUnavailable;;
          match NewKEK (CopyKeyBytes material) with
          | Err _ => Err ErrSnapshotAcknowledgementUnavailable
          | Ok _ =>
              derived ← sqliteAckCandidate t ack identity;
              match derived with
              | None => Err ErrSnapshotAcknowledgementDenied
              | Some d =>
                  ensure ((AckSnapshotVersion d =? AckSnapshotVersion ack)%Z && (AckReplicationVersion d =? AckReplicationVersion ack)%Z
                          && (AckRevisionID d =? AckRevisionID ack) && (AckGeneration d =? AckGeneration ack)%Z) ErrSnapshotAcknowledgementDenied;;
                  applied ← available (sqliteEnrollmentTokenTime (AckAppliedAt ack));
                  received ← (if bool_decide (AckReceivedAt ack = zero_time) then Ok stamp
                              else available (sqliteEnrollmentTokenTime (AckReceivedAt ack)));
                  t ← upsert_ack t (mkAck (AckNodeID ack) (AckContentHash ack) (AckSnapshotVersion ack) (AckReplicationVersion ack)
                                      (AckRevisionID ack) (AckGeneration ack) applied received);
                  mret (t, tt)
              end
          end
      end
  end.
Definition RecordSnapshotAcknowledgement (t : primary_tables) (clock : time) (ack : SnapshotAcknowledgement) : primary_tables * acked unit :=
  if negb (validSnapshotAcknowledgement ack) then (t, Err ErrSnapshotAcknowledgementDenied)
  else Write t clock (record_ack ack).

(** ** Reading (sqlite_snapshot_acknowledgement_read.go) *)
Definition GetSnapshotAcknowledgement (t : primary_tables) (nodeID contentHash : string) : acked SnapshotAcknowledgement :=
  if negb (validSnapshotAcknowledgementInput nodeID contentHash (1, 0)%Z) then Err ErrSnapshotAcknowledgementDenied else
  let node := default uuid_Nil (uuid_Parse nodeID) in
  match find_first (fun r => (a_node r =? node) && (a_hash r =? contentHash)) (node_snapshot_acks t) with
  | None => Err ErrSnapshotAcknowledgementNotFound
  | Some r =>
      applied ← available (finite_clock (a_applied r));
      received ← available (finite_clock (a_received r));
      mret (mkAcknowledgement (a_node r) (a_hash r) (a_snapshot r) (a_replication r) (a_revision r) (a_generation r) applied received)
  end.
End acknowledgement.
