(* ===== verification/Canonical.v ===== *)
(** * The producer's transaction (configuration/sqlite_phase2_store.go)

    What the canonical snapshot producer reads and writes inside one transaction of the
    primary's tables. Publishing binds a content hash to its newest apply: the revision and
    the job are stamped with the proof, the row is inserted or bound again. *)

From S2P Require Import Prelude GoStrings Timestamp GoTime Model Identity Topology Sha256 AesGcm Kek SecretBox Snapshot Transfer Jobs Store Revisions NodeSyncStore Installation InstallationStore ClusterKeys PrimaryStore Publication.
From stdpp Require Import options.

Inductive canonical_error : Type :=
| ErrCanonicalSnapshotNotFound | ErrCanonicalSnapshotConflict | ErrEnrollmentGrantStore | ErrCanonicalLookup (id : string)
| ErrCanonicalStore (e : store_error) | ErrCanonicalUUID | ErrCanonicalSecret (e : secret_error)
| ErrCanonicalSnapshotProducerNotReady | ErrCanonicalSnapshotProducerConflict | ErrDecodeDesired | ErrCanonicalKEK
| ErrCanonicalExport (e : export_error) | ErrCanonicalEnvelope (e : snapshot_error) | ErrCanonicalCompatibility (e : CompatibilityError)
| ErrCanonicalPublicationStore.
#[global] Instance canonical_store_failure : StoreFailure canonical_error := ErrCanonicalStore.
Abbreviation canonical := (result canonical_error).
Definition from_store {A} (r : Store.stored A) : canonical A := match r with Ok a => Ok a | Err e => Err (ErrCanonicalStore e) end.

Record PrimaryIdentityRecord := mkPrimaryIdentity {
  PrInstallationID : string; PrNodeID : string; PrRole : TopologyRole; PrLeadership : Z; PrLatest : Z; PrClusterKeyID : option uuid }.
Record CanonicalSnapshotApply := mkCanonicalApply {
  CaJobID : string; CaRevisionID : string; CaRevisionNumber : Z; CaDesired : string; CaStatus : string; CaTarget : string;
  CaSource : string; CaFinishedAt : option time; CaRevisionSource : string; CaRevisionAppliedAt : option time }.
Record AppliedSnapshotRecord := mkAppliedRecord {
  ArID : string; ArSourcePrimaryID : string; ArGeneration : Z; ArSnapshotVersion : Z; ArReplicationVersion : Z; ArContentHash : string;
  ArBody : option string; ArRevisionID : option string; ArStatus : string; ArJobID : option string; ArAppliedAt : time;
  ArDiscardedAt : option time }.
Record CanonicalSnapshotWrite := mkCanonicalWrite {
  CwID : string; CwBody : string; CwSourcePrimaryID : string; CwGeneration : Z; CwSnapshotVersion : Z; CwReplicationVersion : Z;
  CwContentHash : string; CwRevisionID : string; CwApplyJobID : string; CwAppliedAt : time }.
Definition BackupMasterKeyMarkerPurpose : string := "__backup_master_key_marker__".
Definition time_before (a b : time) : bool := (a.1 <? b.1)%Z || (a.1 =? b.1)%Z && (a.2 <? b.2)%Z.

Section canonical.
Context (uuid_Parse : string -> option uuid) (master : string).

(** ** Reading *)
Definition LockPrimaryIdentity (t : primary_tables) : canonical PrimaryIdentityRecord :=
  match identity_row (topo t) with
  | None => Err ErrEnrollmentGrantStore
  | Some r =>
      if (i_leadership r <=? 0)%Z || (i_latest r <=? 0)%Z then Err ErrEnrollmentGrantStore else
      match i_key r with
      | None => Ok (mkPrimaryIdentity (i_installation r) (i_node r) (i_role r) (i_leadership r) (i_latest r) None)
      | Some text =>
          match uuid_Parse text with
          | Some key => Ok (mkPrimaryIdentity (i_installation r) (i_node r) (i_role r) (i_leadership r) (i_latest r) (Some key))
          | None => Err ErrEnrollmentGrantStore
          end
      end
  end.
(** With no identifier, the identity row is bound to the key that is loaded or created. *)
Definition LoadOrCreateClusterKEK (t : primary_tables) (stamp : string) (e : entropy) (currentID : string)
    : canonical (primary_tables * KeyMaterial) :=
  activeID ← (if currentID =? "" then Ok None
              else match uuid_Parse currentID with
                   | Some parsed => if parsed =? uuid_Nil then Err ErrEnrollmentGrantStore else Ok (Some parsed)
                   | None => Err ErrEnrollmentGrantStore
                   end);
  match LoadOrCreateInWrite master uuid_Parse stamp (topo t) activeID None e with
  | Err _ => Err ErrEnrollmentGrantStore
  | Ok (topology, material) =>
      bound ← (if negb (currentID =? "") then Ok topology
               else match identity_row topology with
                    | Some r => if is_null (i_key r) then Ok (set_identity topology (row_key (Some (MaterialID material)) stamp r))
                                else Err ErrEnrollmentGrantStore
                    | None => Err ErrEnrollmentGrantStore
                    end);
      match uuid_Parse (MaterialID material) with
      | Some id => if (id =? uuid_Nil) || negb (length (CopyKeyBytes material) =? 32)%nat then Err ErrEnrollmentGrantStore
                   else mret (set_topo t bound, mkMaterial id (CopyKeyBytes material))
      | None => Err ErrEnrollmentGrantStore
      end
  end.
Definition canonical_lookup (id : string) : canonical string :=
  match ParseUUIDLookupText id with Some c => Ok c | None => Err (ErrCanonicalLookup id) end.
Definition GetCanonicalSnapshotApply (t : primary_tables) (id : string) : canonical CanonicalSnapshotApply :=
  canonicalID ← canonical_lookup id;
  match (j ← find_first (fun j => j_id j =? canonicalID) (apply_jobs (tables_core t));
         r ← find_first (fun r => v_id r =? j_revision j) (config_revisions (tables_core t)); Some (j, r)) with
  | None => Err ErrCanonicalSnapshotNotFound
  | Some (j, r) =>
      finished ← from_store (sqliteEnqueueTime (j_finished j));
      applied ← from_store (sqliteEnqueueTime (v_applied r));
      mret (mkCanonicalApply (j_id j) (j_revision j) (v_number r) (v_snapshot r) (j_status j) (j_target j) (j_source j) finished
              (v_source r) applied)
  end.
Definition sqliteScanCanonicalSnapshot (a : AppliedRow) : canonical AppliedSnapshotRecord :=
  applied ← from_store (finite_clock (p_at a));
  discarded ← from_store (sqliteEnqueueTime (p_discarded a));
  mret (mkAppliedRecord (p_id a) (p_primary a) (p_generation a) (p_snapshot a) (p_replication a) (p_hash a) (p_body a) (p_revision a)
          (p_status a) (p_job a) applied discarded).
Definition scan_optional (o : option AppliedRow) : canonical (option AppliedSnapshotRecord) :=
  match o with Some a => r ← sqliteScanCanonicalSnapshot a; mret (Some r) | None => mret None end.
Definition FindCanonicalSnapshotForJob (t : primary_tables) (jobID : string) : canonical (option AppliedSnapshotRecord) :=
  canonicalID ← canonical_lookup jobID;
  scan_optional (head (SliceStable newer_applied (List.filter (fun a => is_text (p_job a) canonicalID) (applied_snapshots t)))).
Definition findCanonicalSnapshotByHash (t : primary_tables) (contentHash : string) : canonical (option AppliedSnapshotRecord) :=
  scan_optional (find_first (fun a => p_hash a =? contentHash) (applied_snapshots t)).
Definition ListRecentCanonicalSnapshots (t : primary_tables) (limit : nat) : canonical (list AppliedSnapshotRecord) :=
  mapM sqliteScanCanonicalSnapshot (take limit (SliceStable newer_applied (List.filter live_row (applied_snapshots t)))).
(** The nonce of each secret is drawn when it is wrapped. *)
Definition list_secret (r : SecretRow) : canonical PlainSecret :=
  match uuid_Parse (sr_id r) with
  | None => Err ErrCanonicalUUID
  | Some id => match DecryptSecret (sr_ciphertext r) master with
               | Ok plaintext => Ok (mkPlain id (sr_purpose r) plaintext [])
               | Err e => Err (ErrCanonicalSecret e)
               end
  end.
Definition ListSecrets (t : primary_tables) : canonical (list PlainSecret) :=
  mapM list_secret (SliceStable (fun a b => less_s (sr_id a) (sr_id b))
                      (List.filter (fun r => negb (sr_purpose r =? BackupMasterKeyMarkerPurpose)) (secret_rows t))).
Definition list_owner (r : UserRow) : canonical ReplicatedOwner :=
  match uuid_Parse (u_id r) with Some id => Ok (mkOwner id (u_name r) (u_hash r) (u_role r)) | None => Err ErrCanonicalUUID end.
Definition ListReplicableOwners (t : primary_tables) : canonical (list ReplicatedOwner) :=
  mapM list_owner (SliceStable (fun a b => less_s (u_id a) (u_id b)) (List.filter u_active (user_rows t))).

(** ** Writing *)
(** An UPDATE of rows that must satisfy the schema; exactly one row is meant. *)
Definition update_one {A} (ok : A -> bool) (p : A -> bool) (f : A -> A) (l : list A) : canonical (list A) :=
  ensure (forallb (fun a => ok (f a)) (List.filter p l)) (ErrCanonicalStore ErrConstraint);;
  ensure (length (List.filter p l) =? 1)%nat ErrCanonicalSnapshotConflict;;
  mret (map (fun a => if p a then f a else a) l).
Definition applied_statuses : list string := ["pending"; "applied"; "rejected"; "rolled-back"; "archived"].
Definition applied_row_ok (t : primary_tables) (a : AppliedRow) : bool :=
  uuidPattern (p_id a) && uuidPattern (p_primary a) && int32_ok (Some (p_snapshot a)) && int32_ok (Some (p_replication a))
  && negb (has_nul (p_hash a)) && opt_all (fun id => uuidPattern id && revision_exists (tables_core t) id) (p_revision a)
  && contains applied_statuses (p_status a)
  && opt_all (fun id => uuidPattern id && existsb (fun j => j_id j =? id) (apply_jobs (tables_core t))) (p_job a)
  && opt_all (fun s => negb (has_nul s)) (p_failure a) && timestamp_column (p_at a) && opt_all timestamp_column (p_discarded a).
Definition discard_row (stamp : string) (a : AppliedRow) : AppliedRow :=
  mkApplied (p_id a) (p_primary a) (p_generation a) (p_snapshot a) (p_replication a) (p_hash a) (p_body a) (p_revision a) (p_status a)
    (p_job a) (p_failure a) (p_at a) (Some stamp).
Definition DiscardCanonicalSnapshot (t : primary_tables) (stamp id : string) : canonical primary_tables :=
  l ← update_one (applied_row_ok t) (fun a => (p_id a =? id) && (p_status a =? "applied") && is_null (p_discarded a))
        (discard_row stamp) (applied_snapshots t);
  mret (set_applied_snapshots t l).

Definition stamp_revision (w : CanonicalSnapshotWrite) (r : RevisionRow) : RevisionRow :=
  mkRevisionRow (v_id r) (v_number r) (v_checksum r) (v_snapshot r) (v_actor r) (v_created r) (v_applied r) "ordinary"
    (Some (CwSourcePrimaryID w)) None None (Some (CwContentHash w)) (Some (CwSnapshotVersion w)) (Some (CwReplicationVersion w))
    (Some (CwGeneration w)).
Definition stamp_job (w : CanonicalSnapshotWrite) (j : JobRow) : JobRow :=
  mkJobRow (j_id j) (j_revision j) (j_correlation j) (j_created j) TargetCombined (j_status j) "ordinary" (j_actor j)
    (Some (CwSourcePrimaryID w)) None None (Some (CwContentHash w)) (j_validation j) (j_apply j) (j_health j) (j_error j)
    (j_claimed j) (j_started j) (j_finished j) (Some (CwSnapshotVersion w)) (Some (CwReplicationVersion w)) (Some (CwGeneration w)).
Definition written_row (w : CanonicalSnapshotWrite) (id at_ : string) : AppliedRow :=
  mkApplied id (CwSourcePrimaryID w) (CwGeneration w) (CwSnapshotVersion w) (CwReplicationVersion w) (CwContentHash w) (Some (CwBody w))
    (Some (CwRevisionID w)) "applied" (Some (CwApplyJobID w)) None at_ None.
Definition sqliteCanonicalSnapshotMatches (r : AppliedSnapshotRecord) (w : CanonicalSnapshotWrite) : bool :=
  (ArStatus r =? "applied") && is_null (ArDiscardedAt r) && (ArSourcePrimaryID r =? CwSourcePrimaryID w)
  && (ArGeneration r =? CwGeneration w)%Z && (ArSnapshotVersion r =? CwSnapshotVersion w)%Z
  && (ArReplicationVersion r =? CwReplicationVersion w)%Z && (ArContentHash r =? CwContentHash w)
  && is_text (ArRevisionID r) (CwRevisionID w) && is_text (ArJobID r) (CwApplyJobID w)
  && bool_decide (ArAppliedAt r = CwAppliedAt w) && (default "" (ArBody r) =? CwBody w).
Definition write_complete (w : CanonicalSnapshotWrite) : bool :=
  negb (CwBody w =? "") && validPublicationUUID uuid_Parse (CwID w) && validPublicationUUID uuid_Parse (CwSourcePrimaryID w)
  && validPublicationUUID uuid_Parse (CwRevisionID w) && validPublicationUUID uuid_Parse (CwApplyJobID w) && (0 <? CwGeneration w)%Z
  && (0 <? CwSnapshotVersion w)%Z && (0 <? CwReplicationVersion w)%Z && negb (CwContentHash w =? "")
  && negb (bool_decide (CwAppliedAt w = zero_time)).
Definition revision_number_of (t : primary_tables) (id : string) : option Z :=
  v_number <$> find_first (fun r => v_id r =? id) (config_revisions (tables_core t)).
(** Whether the write goes on, with the row that already carries the hash. *)
Definition supersedes (t : primary_tables) (existing : AppliedSnapshotRecord) (w : CanonicalSnapshotWrite) : canonical bool :=
  if sqliteCanonicalSnapshotMatches existing w then mret false
  else if negb (is_null (ArDiscardedAt existing)) then mret true
  else if time_before (CwAppliedAt w) (ArAppliedAt existing) then mret false
  else if bool_decide (CwAppliedAt w = ArAppliedAt existing) then
    match revision_number_of t (CwRevisionID w) with
    | None => Err ErrCanonicalSnapshotConflict
    | Some newNumber => mret (match (old ← ArRevisionID existing; revision_number_of t old) with
                              | Some oldNumber => negb (newNumber <=? oldNumber)%Z
                              | None => true
                              end)
    end
  else mret true.
Definition stamp_proof (t : primary_tables) (w : CanonicalSnapshotWrite) : canonical primary_tables :=
  let db := tables_core t in
  revisions ← update_one revision_row_ok
    (fun r => (v_id r =? CwRevisionID w) && (v_source r =? "ordinary") && negb (is_null (v_applied r))) (stamp_revision w) (config_revisions db);
  jobs ← update_one job_row_ok
    (fun j => (j_id j =? CwApplyJobID w) && (j_revision j =? CwRevisionID w) && (j_status j =? Applied) && negb (is_null (j_finished j)))
    (stamp_job w) (apply_jobs db);
  mret (set_core t (mkDatabase jobs revisions (users db) (settings db))).
Definition PublishCanonicalSnapshot (t : primary_tables) (w : CanonicalSnapshotWrite) : canonical primary_tables :=
  ensure (write_complete w) ErrCanonicalSnapshotConflict;;
  appliedAt ← from_store (sqliteEnrollmentTokenTime (CwAppliedAt w));
  existing ← findCanonicalSnapshotByHash t (CwContentHash w);
  proceed ← match existing with Some e => supersedes t e w | None => mret true end;
  if negb proceed then mret t else
  t ← stamp_proof t w;
  match existing with
  | Some e =>
      l ← update_one (applied_row_ok t) (fun a => (p_id a =? ArID e) && (p_hash a =? CwContentHash w))
            (fun a => written_row w (p_id a) appliedAt) (applied_snapshots t);
      mret (set_applied_snapshots t l)
  | None =>
      let row := written_row w (CwID w) appliedAt in
      if applied_row_ok t row && forallb (fun a => negb (p_id a =? p_id row) && negb (p_hash a =? p_hash row)) (applied_snapshots t)
      then mret (set_applied_snapshots t (applied_snapshots t ++ [row]))
      else match findCanonicalSnapshotByHash t (CwContentHash w) with
           | Ok (Some e) => if sqliteCanonicalSnapshotMatches e w then mret t else Err (ErrCanonicalStore ErrConstraint)
           | _ => Err (ErrCanonicalStore ErrConstraint)
           end
  end.
End canonical.
