(* ===== verification/PrimaryFacts.v ===== *)
(** * What a primary promises about its tokens, links and published snapshots

    A token that was redeemed or revoked opens nothing any more; an unlinked node's rows say
    so and keep saying since when; what was published carries its proof and is never
    replaced by an older apply; an acknowledgement is read back as recorded. *)

From S2P Require Import Prelude GoStrings Timestamp GoTime Model Identity Topology Kek Snapshot SnapshotClient Credentials Jobs Store StoreFacts Revisions NodeSyncStore Installation InstallationStore InstallationStoreFacts ClusterKeys ClusterKeysFacts PrimaryStore Publication Acknowledgement Canonical.
From stdpp Require Import options.

(** ** Transactions and lists *)
Lemma Write_keeps {D E A} `{StoreFailure E} (P : D -> Prop) (db : D) now (cb : string -> D -> result E (D * A)) :
  P db -> (forall stamp db' a, cb stamp db = Ok (db', a) -> P db') -> P (Write db now cb).1.
Proof. intros Hdb Hcb. unfold Write. destruct (encodeTime now) as [stamp|]; [|done]. destruct (cb stamp db) as [[db' a]|] eqn:E1; [by eapply Hcb|done]. Qed.
Lemma find_first_map {A B} (p : B -> bool) (f : A -> B) l : find_first p (map f l) = f <$> find_first (fun a => p (f a)) l.
Proof. induction l as [|a l IH]; [done|]. simpl. by destruct (p (f a)). Qed.
Lemma find_first_ext {A} (p q : A -> bool) l : (forall a, p a = q a) -> find_first p l = find_first q l.
Proof. intros H. induction l as [|a l IH]; [done|]. simpl. by rewrite H, IH. Qed.
Lemma is_null_false {A} (o : option A) : is_null o = false <-> is_Some o.
Proof. destruct o; split; try done; by intros [? ?]. Qed.

Lemma available_Ok {A} (r : Store.stored A) a : available r = Ok a -> r = Ok a.
Proof. destruct r; cbn; congruence. Qed.
Lemma from_store_Ok {A} (r : Store.stored A) a : from_store r = Ok a -> r = Ok a.
Proof. destruct r; cbn; congruence. Qed.

(** ** Tokens *)
Definition selectors_unique (t : primary_tables) : Prop := NoDup (map t_selector (enrollment_tokens t)).
(** No row of this selector opens anything. *)
Definition spent (t : primary_tables) (sel : string) : Prop :=
  forall r, r ∈ enrollment_tokens t -> t_selector r = sel -> is_null (t_consumed r) = false \/ is_null (t_revoked r) = false.
Inductive token_step (sel : string) (t : primary_tables) : primary_tables -> Prop :=
| step_create clock id s hash version owner created expires : s <> sel ->
    token_step sel t (CreateEnrollmentToken t clock id s hash version owner created expires).1
| step_check clock s hash now consume : token_step sel t (CheckEnrollmentToken t clock s hash now consume).1
| step_revoke clock id owner now : token_step sel t (RevokeEnrollmentToken t clock id owner now).1
| step_delete clock id owner now : token_step sel t (DeleteEnrollmentToken t clock id owner now).1
| step_other t' : enrollment_tokens t' = enrollment_tokens t -> token_step sel t t'.
(** How a token ends: redeemed by a consuming check, or revoked by its owner. *)
Inductive token_ended (sel : string) (t : primary_tables) : primary_tables -> Prop :=
| ended_by_use clock hash now t' : CheckEnrollmentToken t clock sel hash now true = (t', Ok tt) -> token_ended sel t t'
| ended_by_owner clock id owner now t' r : RevokeEnrollmentToken t clock id owner now = (t', Ok tt) -> r ∈ enrollment_tokens t ->
    t_selector r = sel -> ParseUUIDLookupText id = Some (t_id r) -> ParseUUIDLookupText owner = Some (t_owner r) -> token_ended sel t t'.

Lemma update_spent p f t sel : (forall r, t_selector (f r) = t_selector r) ->
  (forall r, is_null (t_consumed r) = false -> is_null (t_consumed (f r)) = false) ->
  (forall r, is_null (t_revoked r) = false -> is_null (t_revoked (f r)) = false) ->
  spent t sel -> spent (update_tokens p f t) sel.
Proof.
  intros Hs Hc Hr H r. cbn [update_tokens set_tokens enrollment_tokens]. intros (o&->&Ho)%list_elem_of_fmap. specialize (H o Ho).
  destruct (p o); rewrite ?Hs; [|done]. intros [?|?]%H; [left|right]; auto.
Qed.
Lemma consume_spent p stamp t sel : spent t sel -> spent (update_tokens p (consume_token stamp) t) sel.
Proof. by apply update_spent. Qed.
Lemma revoke_spent p stamp t sel : spent t sel -> spent (update_tokens p (revoke_token stamp) t) sel.
Proof. by apply update_spent. Qed.
Lemma token_step_spent sel t t' : token_step sel t t' -> spent t sel -> spent t' sel.
Proof.
  intros Hstep Hsp. destruct Hstep as [clock id s hash version owner created expires Hne|clock s hash now consume|clock id owner now|clock id owner now|t' Heq].
  - apply (Write_keeps (fun t => spent t sel)); [done|]. intros stamp t1 x H.
    apply bind_Ok in H as ([]&_&H). apply bind_Ok in H as (i&_&H). apply bind_Ok in H as (o&_&H). apply bind_Ok in H as (c&_&H).
    apply bind_Ok in H as (e&_&H). destruct (_ ≫= _) as [[row role]|]; [|done]. apply bind_Ok in H as ([]&_&H). injection H as <- <-.
    intros r [Hr|[->|Hr%elem_of_nil]%elem_of_cons]%elem_of_app; [by apply Hsp|done|done].
  - apply (Write_keeps (fun t => spent t sel)); [done|]. intros stamp t1 x H.
    destruct (token_of t s) as [r|]; [|done]. destruct (DecodeTimestamp _); [|done]. apply bind_Ok in H as (st&_&H).
    destruct (_ || _); [done|]. destruct (negb consume); [by injection H as <- _|]. apply bind_Ok in H as ([]&_&H). injection H as <- _.
    by apply consume_spent.
  - apply (Write_keeps (fun t => spent t sel)); [done|]. intros stamp t1 x H.
    apply bind_Ok in H as (i&_&H). apply bind_Ok in H as (o&_&H). apply bind_Ok in H as (st&_&H). injection H as <- _. by apply revoke_spent.
  - apply (Write_keeps (fun t => spent t sel)); [done|]. intros stamp t1 x H.
    apply bind_Ok in H as (i&_&H). apply bind_Ok in H as (o&_&H). apply bind_Ok in H as (st&_&H). cbv zeta in H.
    destruct (find_first _ _) as [r|]; [|done]. destruct (DecodeTimestamp _); [|done].
    do 3 (match type of H with (if ?b then _ else _) = _ => destruct b; [done|] end). apply bind_Ok in H as ([]&_&H). injection H as <- _.
    intros r' Hr'. apply Hsp. cbn [set_tokens enrollment_tokens] in Hr'. apply list_elem_of_In, filter_In in Hr' as [Hr' _]. by apply list_elem_of_In.
  - intros r Hr. apply Hsp. by rewrite <- Heq.
Qed.
Lemma ended_spent sel t t' : selectors_unique t -> token_ended sel t t' -> spent t' sel.
Proof.
  intros Hu [clock hash now t1 H|clock id owner now t1 r H Hin Hsel Hid Hown]; apply Write_Ok in H as (stamp&_&H).
  - destruct (token_of t sel) as [r|] eqn:Er; [|done]. apply find_first_Some in Er as (Hin&Hsel%String.eqb_eq).
    destruct (DecodeTimestamp _); [|done]. apply bind_Ok in H as (st&_&H). destruct (_ || _); [done|]. cbn [negb] in H.
    apply bind_Ok in H as ([]&_&H). injection H as <-. intros r' (o&->&Ho)%list_elem_of_fmap Hsel'. left.
    assert (t_selector o = sel) as Hos by (revert Hsel'; by destruct (_ && _)).
    assert (o = r) as -> by (apply (NoDup_map_unique t_selector (enrollment_tokens t)); [exact Hu|done|done|congruence]).
    rewrite String.eqb_refl. cbn [andb]. by destruct (t_consumed r) eqn:E; [cbn; rewrite E|].
  - apply bind_Ok in H as (i&Hi&H). apply bind_Ok in H as (o&Ho&H). apply bind_Ok in H as (st&_&H). injection H as <-.
    unfold lookup_id in Hi, Ho. rewrite Hid in Hi. rewrite Hown in Ho. injection Hi as <-. injection Ho as <-.
    intros r' (x&->&Hx)%list_elem_of_fmap Hsel'. right.
    assert (t_selector x = sel) as Hxs by (revert Hsel'; by destruct (_ && _)).
    assert (x = r) as -> by (apply (NoDup_map_unique t_selector (enrollment_tokens t)); [exact Hu|done|done|congruence]).
    by rewrite !String.eqb_refl.
Qed.
Lemma spent_refused t sel clock hash now consume : spent t sel -> (CheckEnrollmentToken t clock sel hash now consume).2 <> Ok tt.
Proof.
  intros Hsp. unfold CheckEnrollmentToken, Write. destruct (encodeTime clock) as [stamp|]; [|done].
  destruct (token_of t sel) as [r|] eqn:Er; [|done]. apply find_first_Some in Er as (Hin&Hsel%String.eqb_eq).
  destruct (DecodeTimestamp _); [|done]. destruct (in_store _) as [st|]; [|done]. cbn [mbind result_bind].
  destruct (Hsp r Hin Hsel) as [Hc|Hc]; rewrite Hc; cbn [negb]; rewrite ?orb_true_r; done.
Qed.
Lemma spent_reads_nothing uuid_Parse master t sel clock now identity body : spent t sel ->
  ReadSnapshotPublicationByToken uuid_Parse master t clock now sel identity <> Ok body.
Proof.
  intros Hsp. unfold ReadSnapshotPublicationByToken. destruct (sel =? ""); [done|]. unfold Write. destruct (encodeTime clock) as [stamp|]; [|done].
  assert (forall b, readByToken uuid_Parse master t now sel identity <> Ok b) as Hno.
  { intros b. unfold readByToken. destruct (token_of t sel) as [r|] eqn:Er; [|done]. apply find_first_Some in Er as (Hin&Hsel%String.eqb_eq).
    destruct (DecodeTimestamp _); [|done]. destruct (sqliteEnrollmentTokenTime now); [|done].
    intros ([]&_&H)%bind_Ok. revert H. destruct (Hsp r Hin Hsel) as [Hc|Hc]; rewrite Hc; rewrite ?andb_false_r; done. }
  destruct (readByToken uuid_Parse master t now sel identity) as [b|] eqn:E; [by destruct (Hno b)|done].
Qed.


(** ** Unlinking *)
Lemma unlink_credentials_find stamp node p l : (forall r, p (unlink_credential stamp node r) = p r) ->
  find_first p (map (unlink_credential stamp node) l) = unlink_credential stamp node <$> find_first p l.
Proof. intros H. rewrite find_first_map. by rewrite (find_first_ext _ p). Qed.
Lemma unlink_nodes_find stamp node p l : (forall r, p (unlink_node stamp node r) = p r) ->
  find_first p (map (unlink_node stamp node) l) = unlink_node stamp node <$> find_first p l.
Proof. intros H. rewrite find_first_map. by rewrite (find_first_ext _ p). Qed.
Lemma Unlink_Ok t clock node now t' at_ : UnlinkEnrolledNode t clock node now = (t', Ok at_) ->
  exists canonical stamp r, ParseUUIDLookupText node = Some canonical /\ sqliteEnrollmentTokenTime now = Ok stamp
    /\ node_of t canonical = Some r /\ finite_clock (default stamp (e_unlinked r)) = Ok at_
    /\ t' = set_nodes t (map (unlink_credential stamp canonical) (node_credentials (topo t))) (map (unlink_node stamp canonical) (enrolled_nodes (topo t))).
Proof.
  unfold UnlinkEnrolledNode. destruct (ParseUUIDLookupText node) as [canonical|]; [|done].
  destruct (sqliteEnrollmentTokenTime now) as [stamp|]; [|done]. destruct (Write _ _ _) as [t1 r1] eqn:Ew. intros [= <- Hr].
  destruct r1 as [a|e]; [injection Hr as ->|by destruct e]. apply Write_Ok in Ew as (st&_&H).
  destruct (node_of t canonical) as [r|] eqn:En; [|done]. exists canonical, stamp, r. split; [done|]. split; [done|]. split; [done|].
  assert (node_of (set_nodes t (map (unlink_credential stamp canonical) (node_credentials (topo t)))
            (map (unlink_node stamp canonical) (enrolled_nodes (topo t)))) canonical = Some (unlink_node stamp canonical r)) as Hn.
  { unfold node_of in *. cbn [topo set_nodes set_topo enrolled_nodes]. rewrite unlink_nodes_find; [by rewrite En|].
    intros x. unfold unlink_node. by destruct (e_node x =? canonical) eqn:E. }
  cbv zeta in H. rewrite Hn in H. cbn [mbind option_bind] in H. apply find_first_Some in En as (_&Hid).
  unfold unlink_node in H. rewrite Hid in H. cbn [e_unlinked] in H. destruct (finite_clock _) as [a'|] eqn:Ef; [|done].
  injection H as <- ->. split; done.
Qed.

(** ** Clocks *)
Lemma finite_clock_encode k at_ : finite_clock k = Ok at_ -> sqliteEnrollmentTokenTime at_ = Ok k.
Proof.
  unfold finite_clock, sqliteEnqueueTime, sqliteEnrollmentTokenTime, encodeTime.
  destruct (DecodeTimestamp (Some k)) as [[| | |s n]|] eqn:E; try done. destruct (_ || _); [done|]. intros [= <-].
  apply Encode_Decode in E as [_ E]. cbn [fst snd]. by rewrite E.
Qed.
(** A time some stored clock reads as. *)
Definition clocked (at_ : time) : Prop := exists k, finite_clock k = Ok at_.
Lemma clocked_roundtrip at_ k : clocked at_ -> sqliteEnrollmentTokenTime at_ = Ok k -> finite_clock k = Ok at_.
Proof. intros (k'&H) Hk. apply finite_clock_encode in H as H'. congruence. Qed.

(** ** The newest row *)
Lemma newer_row_false t a b : newer_row t b a = false <-> less_s (p_at a) (p_at b) = false /\
  (p_at a = p_at b -> (revision_rank t b <= revision_rank t a)%Z /\ (revision_rank t a = revision_rank t b -> less_s (p_id a) (p_id b) = false)).
Proof.
  unfold newer_row. rewrite orb_false_iff. apply and_iff_compat_l. destruct (String.eqb_spec (p_at a) (p_at b)) as [E|E]; cbn [andb]; [|naive_solver].
  rewrite orb_false_iff, Z.ltb_ge, andb_false_iff, Z.eqb_neq. destruct (less_s (p_id a) (p_id b)); naive_solver lia.
Qed.
Lemma newer_row_asym t a b : newer_row t a b = true -> newer_row t b a = false.
Proof.
  intros H. apply newer_row_false. unfold newer_row in H. apply orb_true_iff in H as [H|[->%String.eqb_eq H]%andb_true_iff].
  - split; [by apply less_s_asym|]. intros E. rewrite E in H. pose proof (less_s_asym _ _ H). congruence.
  - split; [destruct (less_s (p_at a) (p_at a)) eqn:E; [by apply less_s_asym in E as E'; congruence|done]|]. intros _.
    apply orb_true_iff in H as [H%Z.ltb_lt|[E%Z.eqb_eq H]%andb_true_iff]; [lia|]. split; [lia|]. intros _. by apply less_s_asym.
Qed.
Lemma newer_row_ge_trans t a b c : newer_row t b a = false -> newer_row t c b = false -> newer_row t c a = false.
Proof.
  rewrite !newer_row_false. intros [H1 H2] [H3 H4]. split; [by apply (less_s_ge_trans _ (p_at b))|]. intros E.
  assert (p_at a = p_at b) as E1 by (apply less_s_antisym; [done|by rewrite E]). specialize (H2 E1). destruct H4 as [H4 H5]; [congruence|].
  split; [lia|]. intros E2. apply (less_s_ge_trans _ (p_id b)); [apply H5|apply H2]; lia.
Qed.
Lemma newest_row_Some t primary a : newest_row t primary = Some a ->
  a ∈ applied_snapshots t /\ p_primary a = primary /\ (forall x, x ∈ applied_snapshots t -> p_primary x = primary -> newer_row t x a = false).
Proof.
  intros H. apply (SliceStable_head_Some (newer_row t) (newer_row_asym t) (newer_row_ge_trans t)) in H as [Hin Hall].
  apply list_elem_of_In, filter_In in Hin as [Hin Hp%String.eqb_eq]. split; [by apply list_elem_of_In|]. split; [done|].
  intros x Hx Hxp. rewrite Forall_forall in Hall. apply Hall, list_elem_of_In, filter_In. split; [by apply list_elem_of_In|by apply String.eqb_eq].
Qed.
(** A row applied after every other one of its primary is the newest. *)
Lemma newest_row_is t a : a ∈ applied_snapshots t ->
  (forall x, x ∈ applied_snapshots t -> p_primary x = p_primary a -> x = a \/ less_s (p_at x) (p_at a) = true) -> newest_row t (p_primary a) = Some a.
Proof.
  intros Hin Hall. destruct (newest_row t (p_primary a)) as [x|] eqn:E.
  - apply newest_row_Some in E as (Hx&Hxp&Hmax). destruct (Hall x Hx Hxp) as [->|Hless]; [done|]. specialize (Hmax a Hin eq_refl).
    unfold newer_row in Hmax. by rewrite Hless in Hmax.
  - unfold newest_row in E. apply SliceStable_head_None in E. assert (In a (List.filter (fun x => p_primary x =? p_primary a) (applied_snapshots t))) as Hin'.
    { apply filter_In. split; [by apply list_elem_of_In|by apply String.eqb_eq]. } by rewrite E in Hin'.
Qed.

(** ** Publishing *)
Lemma update_one_Ok {A} ok (p : A -> bool) f l l' : update_one ok p f l = Ok l' ->
  l' = map (fun a => if p a then f a else a) l /\ exists a, List.filter p l = [a].
Proof.
  intros ([]&_&H)%bind_Ok. apply bind_Ok in H as ([]&Hn&H). injection H as <-. split; [done|].
  unfold ensure in Hn. destruct (length _ =? 1)%nat eqn:E; [|done]. apply Nat.eqb_eq in E.
  destruct (List.filter p l) as [|a [|]]; try done. by exists a.
Qed.
Lemma filter_one {A} (p : A -> bool) l a : List.filter p l = [a] -> a ∈ l /\ p a = true.
Proof. intros H. assert (In a (List.filter p l)) as Hin by (rewrite H; by left). apply filter_In in Hin as [H1 H2]. split; [by apply list_elem_of_In|done]. Qed.
(** The row a keyed update changed, found again by its key. *)
Lemma find_updated {A} (key : A -> string) (p : A -> bool) (f : A -> A) l a k :
  NoDup (map key l) -> List.filter p l = [a] -> key a = k -> (forall x, key (f x) = key x) ->
  find_first (fun x => key x =? k) (map (fun x => if p x then f x else x) l) = Some (f a).
Proof.
  intros Hnd Hf Hk Hkf. apply filter_one in Hf as [Hin Hp]. rewrite find_first_map.
  rewrite (find_first_ext _ (fun x => key x =? k)) by (intros x; destruct (p x); by rewrite ?Hkf).
  assert (find_first (fun x => key x =? k) l = Some a) as ->.
  { destruct (find_first _ l) as [b|] eqn:E.
    - apply find_first_Some in E as (Hb&Hkb%String.eqb_eq). f_equal. apply (NoDup_map_unique key l); [exact Hnd|done|done|congruence].
    - apply find_first_None in E. rewrite Forall_forall in E. specialize (E a Hin). by rewrite Hk, String.eqb_refl in E. }
  cbn. by rewrite Hp.
Qed.

Section publishing.
Context (uuid_Parse : string -> option uuid).
(** The primary keys and the unique index of the schema. *)
Record primary_keys (t : primary_tables) : Prop := mkPrimaryKeys {
  revision_keys : NoDup (map v_id (config_revisions (tables_core t)));
  job_keys : NoDup (map j_id (apply_jobs (tables_core t)));
  snapshot_keys : NoDup (map p_id (applied_snapshots t));
  hash_keys : NoDup (map p_hash (applied_snapshots t)) }.

Lemma stamp_proof_complete t w t' a k : primary_keys t -> stamp_proof t w = Ok t' ->
  a = written_row w (p_id a) k -> proof_complete t' a = true.
Proof using.
  intros Hkeys H Ha. apply bind_Ok in H as (revisions&Hr&H). apply bind_Ok in H as (jobs&Hj&H). injection H as <-.
  apply update_one_Ok in Hr as (->&r&Hr). apply update_one_Ok in Hj as (->&j&Hj).
  pose proof (filter_one _ _ _ Hr) as [_ Hrp]. pose proof (filter_one _ _ _ Hj) as [_ Hjp]. bsimp.
  set (db' := mkDatabase _ _ _ _).
  assert (revision_of (set_core t db') a = Some (stamp_revision w r)) as Hrev.
  { unfold revision_of. rewrite Ha. cbn [p_revision written_row mbind option_bind tables_core set_core set_topo topo sync core].
    by apply (find_updated v_id _ _ _ r); [apply revision_keys|..]. }
  assert (job_of (set_core t db') a = Some (stamp_job w j)) as Hjob.
  { unfold job_of. rewrite Ha. cbn [p_job written_row mbind option_bind tables_core set_core set_topo topo sync core].
    by apply (find_updated j_id _ _ _ j); [apply job_keys|..]. }
  unfold proof_complete. rewrite Hrev, Hjob. rewrite Ha. unfold live_row, revision_matches, job_matches, written_row, stamp_revision, stamp_job.
  cbn [p_status p_body p_discarded v_source v_node v_source_revision v_primary p_primary v_hash p_hash v_snapshot_version p_snapshot
    v_replication_version p_replication v_leadership p_generation v_applied v_id j_revision j_status j_finished j_source j_node j_source_revision
    j_primary j_hash j_snapshot_version j_replication_version j_leadership j_target is_null is_text is_int].
  repeat match goal with H : _ = _ |- _ => rewrite H end. rewrite !String.eqb_refl, !Z.eqb_refl. done.
Qed.

Definition other_hashes (hash : string) (l : list AppliedRow) : list AppliedRow := List.filter (fun a => negb (p_hash a =? hash)) l.
(** The table after a write: the one row of the hash, the others as they were. *)
Definition rebound (w : CanonicalSnapshotWrite) (t t' : primary_tables) (a : AppliedRow) : Prop :=
  a ∈ applied_snapshots t' /\ p_hash a = CwContentHash w
  /\ other_hashes (CwContentHash w) (applied_snapshots t') = other_hashes (CwContentHash w) (applied_snapshots t)
  /\ (forall x, x ∈ applied_snapshots t' -> p_hash x = CwContentHash w -> x = a).
Lemma stamp_keeps t w t' : stamp_proof t w = Ok t' ->
  applied_snapshots t' = applied_snapshots t /\ identity_row (topo t') = identity_row (topo t).
Proof using. intros H. apply bind_Ok in H as (?&_&H). apply bind_Ok in H as (?&_&H). by injection H as <-. Qed.
Lemma supersedes_live t e w : supersedes t e w = Ok true -> ArDiscardedAt e = None -> time_before (CwAppliedAt w) (ArAppliedAt e) = false.
Proof using.
  unfold supersedes. intros H Hd. destruct (sqliteCanonicalSnapshotMatches e w); [done|]. rewrite Hd in H. cbn [is_null negb] in H.
  by destruct (time_before _ _).
Qed.
Lemma rebind_rows w id k l old : NoDup (map p_hash l) -> old ∈ l -> p_hash old = CwContentHash w -> p_id old = id ->
  let l' := map (fun a => if (p_id a =? id) && (p_hash a =? CwContentHash w) then written_row w (p_id a) k else a) l in
  written_row w id k ∈ l' /\ other_hashes (CwContentHash w) l' = other_hashes (CwContentHash w) l
  /\ (forall x, x ∈ l' -> p_hash x = CwContentHash w -> x = written_row w id k).
Proof using.
  intros Hnd Hin Hh Hid l'. split; [|split].
  - apply list_elem_of_fmap. exists old. by rewrite Hh, Hid, !String.eqb_refl.
  - subst l'. unfold other_hashes. clear. induction l as [|a l IH]; [done|]. cbn [map List.filter].
    destruct (String.eqb_spec (p_hash a) (CwContentHash w)) as [E|E]; cbn [negb].
    + rewrite andb_true_r. destruct (p_id a =? id); cbn [p_hash written_row]; rewrite ?E, String.eqb_refl; cbn [negb]; exact IH.
    + rewrite andb_false_r, (proj2 (String.eqb_neq _ _) E). cbn [negb]. by rewrite IH.
  - intros x (a&->&Ha)%list_elem_of_fmap Hx. assert (a = old) as ->.
    { apply (NoDup_map_unique p_hash l); [done..|]. revert Hx. destruct (_ && _) eqn:E; [bsimp; congruence|congruence]. }
    by rewrite Hh, Hid, !String.eqb_refl.
Qed.
Lemma Publish_cases t w t' : primary_keys t -> PublishCanonicalSnapshot uuid_Parse t w = Ok t' ->
  (t' = t /\ exists a e, a ∈ applied_snapshots t /\ p_hash a = CwContentHash w /\ sqliteScanCanonicalSnapshot a = Ok e /\ supersedes t e w = Ok false)
  \/ exists a k, sqliteEnrollmentTokenTime (CwAppliedAt w) = Ok k /\ a = written_row w (p_id a) k /\ rebound w t t' a
       /\ proof_complete t' a = true /\ identity_row (topo t') = identity_row (topo t)
       /\ (forall b tb, b ∈ applied_snapshots t -> p_hash b = CwContentHash w -> p_discarded b = None -> finite_clock (p_at b) = Ok tb ->
             time_before (CwAppliedAt w) tb = false).
Proof using.
  intros Hkeys H. apply bind_Ok in H as ([]&_&H). apply bind_Ok in H as (k&Hk&H). apply bind_Ok in H as (existing&He&H).
  assert (sqliteEnrollmentTokenTime (CwAppliedAt w) = Ok k) as Hk' by (by apply from_store_Ok).
  unfold findCanonicalSnapshotByHash in He. apply bind_Ok in H as (proceed&Hp&H).
  assert (forall t1 l a, stamp_proof t w = Ok t1 -> a = written_row w (p_id a) k -> proof_complete (set_applied_snapshots t1 l) a = true) as Hproof.
  { intros t1 l a Hs Ha. rewrite <- (stamp_proof_complete t w t1 a k Hkeys Hs Ha). done. }
  destruct (find_first _ _) as [old|] eqn:Ef.
  - apply find_first_Some in Ef as (Hin&Hh%String.eqb_eq). apply bind_Ok in He as (e&He&Hr). injection Hr as <-.
    destruct proceed; cbn [negb] in H; [|injection H as <-; left; split; [done|by exists old, e]].
    right. apply bind_Ok in H as (t1&Hs&H). apply bind_Ok in H as (l&Hl&H). injection H as <-. apply update_one_Ok in Hl as (->&_).
    destruct (stamp_keeps _ _ _ Hs) as [Hrows Hid]. rewrite Hrows.
    assert (ArID e = p_id old) as -> by (apply bind_Ok in He as (?&_&He); apply bind_Ok in He as (?&_&He); by injection He as <-).
    destruct (rebind_rows w (p_id old) k (applied_snapshots t) old (hash_keys _ Hkeys) Hin Hh eq_refl) as (H1&H2&H3).
    exists (written_row w (p_id old) k), k. split; [done|]. split; [done|]. split; [by split|]. split; [by apply Hproof|]. split; [done|].
    intros b tb Hb Hbh Hbd Hbt. assert (b = old) as -> by (apply (NoDup_map_unique p_hash (applied_snapshots t)); [apply Hkeys|done|done|congruence]).
    apply bind_Ok in He as (at_&Hat&He). apply bind_Ok in He as (d&Hd&He). injection He as <-.
    rewrite Hbt in Hat. injection Hat as <-. rewrite Hbd in Hd. injection Hd as <-. by apply (supersedes_live _ _ _ Hp).
  - injection He as <-. injection Hp as <-. cbn [negb] in H. right. apply bind_Ok in H as (t1&Hs&H).
    destruct (stamp_keeps _ _ _ Hs) as [Hrows Hid]. unfold findCanonicalSnapshotByHash in H. rewrite Hrows, Ef in H.
    destruct (applied_row_ok t1 _ && _) eqn:Eok; [|done]. injection H as <-. apply andb_true_iff in Eok as [_ Eok].
    apply find_first_None in Ef. rewrite Forall_forall in Ef.
    exists (written_row w (CwID w) k), k. split; [done|]. split; [done|]. split.
    { split; [apply elem_of_app; right; by left|]. split; [done|]. split.
      - unfold other_hashes. cbn [applied_snapshots set_applied_snapshots]. rewrite List.filter_app. cbn [List.filter p_hash written_row]. rewrite String.eqb_refl. cbn [negb]. by rewrite app_nil_r.
      - intros x [Hx|[->|Hx%elem_of_nil]%elem_of_cons]%elem_of_app Hh; [|done|done]. specialize (Ef x Hx). by rewrite Hh, String.eqb_refl in Ef. }
    split; [by apply Hproof|]. split; [done|]. intros b tb Hb Hbh. specialize (Ef b Hb). by rewrite Hbh, String.eqb_refl in Ef.
Qed.

End publishing.

(** ** Acknowledgements *)
Section acknowledging.
Context (uuid_Parse : string -> option uuid) (master : string).

Lemma ack_scan_Some i at_ l d : ack_scan uuid_Parse i at_ l = Ok (Some d) -> exists a, a ∈ l /\ finite_clock (p_at a) = Ok at_
  /\ AckSnapshotVersion d = p_snapshot a /\ AckReplicationVersion d = p_replication a /\ AckRevisionID d = default "" (p_revision a)
  /\ AckGeneration d = p_generation a.
Proof using.
  induction l as [|a l IH]; [done|]. cbn [ack_scan]. destruct (finite_clock (p_at a)) as [applied|] eqn:Ea; [|done]. cbn [available mbind result_bind].
  destruct (_ && _) eqn:E1.
  - destruct (_ || _ || _) eqn:E2; [done|]. intros [= <-]. exists a. split; [by left|]. apply andb_true_iff in E1 as [_ E1%bool_decide_eq_true].
    by rewrite E1 in Ea.
  - intros (x&Hx&H)%IH. exists x. split; [by right|done].
Qed.
(** A published row that carries this tuple, with the proof an acknowledgement needs. *)
Definition published_tuple (t : primary_tables) (ack : SnapshotAcknowledgement) (a : AppliedRow) : Prop :=
  a ∈ applied_snapshots t /\ live_row a = true /\ p_hash a = AckContentHash ack /\ p_snapshot a = AckSnapshotVersion ack
  /\ p_replication a = AckReplicationVersion ack /\ p_revision a = Some (AckRevisionID ack) /\ p_generation a = AckGeneration ack
  /\ finite_clock (p_at a) = Ok (AckAppliedAt ack)
  /\ exists r j, revision_of t a = Some r /\ job_of t a = Some j /\ revision_matches a r = true /\ job_matches a r j = true.
Lemma candidate_published t ack i d : sqliteAckCandidate uuid_Parse t ack i = Ok (Some d) ->
  AckSnapshotVersion d = AckSnapshotVersion ack -> AckReplicationVersion d = AckReplicationVersion ack ->
  AckRevisionID d = AckRevisionID ack -> AckGeneration d = AckGeneration ack -> exists a, published_tuple t ack a.
Proof using.
  intros (a&Hin&Hat&Hs&Hr&Hv&Hg)%ack_scan_Some Es Er Ev Eg. rewrite SliceStable_perm in Hin.
  apply list_elem_of_In, filter_In in Hin as [Hin Hm]. unfold ack_matches in Hm. exists a. unfold published_tuple.
  destruct (revision_of t a) as [r|] eqn:Erev; [|by rewrite andb_false_r in Hm]. destruct (job_of t a) as [j|] eqn:Ejob; [|by rewrite andb_false_r in Hm].
  bsimp. assert (p_revision a = Some (AckRevisionID ack)) as Hrev.
  { unfold revision_of in Erev. destruct (p_revision a) as [v|]; [|done]. cbn in Hv. congruence. }
  repeat (split; [by (apply list_elem_of_In || congruence)|]). by exists r, j.
Qed.
Lemma upsert_find t r t' : upsert_ack t r = Ok t' ->
  find_first (fun o => (a_node o =? a_node r) && (a_hash o =? a_hash r)) (node_snapshot_acks t') = Some r
  /\ List.filter (fun o => negb (same_ack r o)) (node_snapshot_acks t') = List.filter (fun o => negb (same_ack r o)) (node_snapshot_acks t).
Proof using.
  intros ([]&_&H)%bind_Ok. injection H as <-. cbn [node_snapshot_acks set_acks]. set (l := node_snapshot_acks t).
  assert (same_ack r r = true) as Hself by (unfold same_ack; by rewrite !String.eqb_refl).
  change (fun o => (a_node o =? a_node r) && (a_hash o =? a_hash r)) with (same_ack r). destruct (existsb (same_ack r) l) eqn:E.
  - split; [|clear -Hself; induction l as [|o l IH]; [done|]; cbn [map List.filter]; destruct (same_ack r o) eqn:Eo; cbn [negb]; rewrite ?Hself, ?Eo; cbn [negb]; congruence].
    clear -E Hself. induction l as [|o l IH]; [done|]. cbn [map find_first existsb] in *. destruct (same_ack r o) eqn:Eo; cbn [orb] in E; [by rewrite Hself|].
    rewrite Eo. by apply IH.
  - rewrite find_first_app, List.filter_app. cbn [find_first List.filter]. rewrite Hself. cbn [negb]. rewrite app_nil_r. split; [|done].
    clear -E. induction l as [|o l IH]; [done|]. cbn [find_first existsb] in *. destruct (same_ack r o); [done|]. by apply IH.
Qed.

End acknowledging.
