(* ===== verification/Publisher.v ===== *)
(** * Serving snapshots to nodes (sync/publisher.go, httpserver/enrollment_publication.go)

    The publisher checks what the store returned once more against its own identity; the
    handler turns its answer, and what the store saw of the credential, into a response.
    The store answers with the record it passed to the authenticator, if it called it, and
    its result. The identity is read by the handler and again by the publisher. *)

From S2P Require Import Prelude GoStrings Json Timestamp GoTime Identity Kek Snapshot SnapshotText Jobs Store Credentials SnapshotClient Installation PrimaryStore Publication.
From stdpp Require Import options.

(** ** Publisher *)
Definition DefaultSnapshotPublicationMaxBytes : Z := SnapshotPublicationMaxBytes.
Inductive publisher_error : Type := ErrSnapshotDenied.
Abbreviation served := (result publisher_error).
Record SnapshotRequest := mkSnapshotRequest { RCredential : string; RAfter : string }.
Record SnapshotMetadata := mkMetadata {
  MSnapshotID : string; MContentHash : string; MSnapshotVersion : Z; MReplicationVersion : Z; MRevisionID : string;
  MRevisionNumber : Z; MSourcePrimaryID : string; MGeneration : Z; MApplyJobID : string; MAppliedAt : time }.
Record SnapshotResult := mkSnapshotResult { SRCurrent : bool; SRMetadata : SnapshotMetadata; SRBytes : string }.
Definition publication_store : Type :=
  SnapshotPublicationRequest -> option SnapshotPublicationCredentialRecord * result publication_error SnapshotPublicationResult.

Definition readyPrimaryIdentity (current : Identity) : bool :=
  InstallationID_IsValid (InstallationID current) && NodeID_IsValid (Installation.NodeID current) && negb (Identity_IsStalePrimary current)
  && (0 <? LeadershipGeneration current)%Z && (LatestKnownGeneration current =? LeadershipGeneration current)%Z
  && primary_role (Installation.Role current).
Definition equalClusterKeyID (current stored : option uuid) : bool := bool_decide (current = stored).
Definition matchingPrimaryIdentity (current : Identity) (stored : SnapshotPublicationIdentityRecord) : bool :=
  (PIInstallationID stored =? InstallationID current) && (PINodeID stored =? Installation.NodeID current)
  && (PIRole stored =? Installation.Role current) && (PILeadership stored =? int64_of (LeadershipGeneration current))%Z
  && (PILatest stored =? int64_of (LatestKnownGeneration current))%Z && equalClusterKeyID (ClusterKeyID current) (PIKey stored).
Definition toSnapshotMetadata (s : SnapshotPublicationRecord) : SnapshotMetadata :=
  mkMetadata (PSnapshotID s) (PContentHash s) (PSnapshotVersion s) (PReplicationVersion s) (PRevisionID s) (PRevisionNumber s)
    (PSourcePrimaryID s) (PGeneration s) (PApplyJobID s) (PAppliedAt s).
(** The record's clocks are of another type than the credential check's; only presence counts. *)
Definition instant_of (t : time) : instant := (t.1 * Nanos + t.2)%Z.

Section publisher.
Context (uuid_Parse uuid_text : string -> option uuid) (float_text : string -> option string) (accept : accept_lists).

Definition validSnapshotMetadata (s : SnapshotPublicationRecord) : bool :=
  PProofComplete s && is_null (PDiscardedAt s) && validPublicationUUID uuid_Parse (PSnapshotID s) && validSnapshotHash (PContentHash s)
  && (0 <? PSnapshotVersion s)%Z && (0 <? PReplicationVersion s)%Z && validPublicationUUID uuid_Parse (PRevisionID s)
  && (0 <? PRevisionNumber s)%Z && validPublicationUUID uuid_Parse (PSourcePrimaryID s) && (0 <? PGeneration s)%Z
  && validPublicationUUID uuid_Parse (PApplyJobID s) && negb (bool_decide (PAppliedAt s = zero_time)).
Definition validSnapshotEnvelope (value : string) (publication : SnapshotPublicationRecord) (current : Identity) : bool :=
  match Unmarshal uuid_text float_text value with
  | Err _ => false
  | Ok envelope =>
      match Envelope_Validate envelope, CheckCompatibility accept envelope, ExpectedHash envelope with
      | Ok _, Ok _, Ok expectedHash =>
          (ContentHash envelope =? expectedHash) && (ContentHash envelope =? PContentHash publication)
          && (SnapshotVersion (Transient envelope) =? PSnapshotVersion publication)%Z
          && (ReplicationVersion (Transient envelope) =? PReplicationVersion publication)%Z
          && (SourcePrimaryID (Transient envelope) =? PSourcePrimaryID publication)
          && (TGeneration (Transient envelope) =? uint64_of (PGeneration publication))%Z
          && (Snapshot.NodeID (NodeLocal envelope) =? Installation.NodeID current)
          && (Snapshot.Role (NodeLocal envelope) =? Installation.Role current)
          && (NLGeneration (NodeLocal envelope) =? LeadershipGeneration current)%Z
          && equalClusterKeyID (ClusterKeyID current) (ClusterKeyRef (NodeLocal envelope))
      | _, _, _ => false
      end
  end.
Definition authenticateSnapshotCredential : authenticator := fun presented record =>
  let revokedAt := match PCRevokedAt record with Some at_ => Some at_ | None => PCNodeRevokedAt record end in
  match AuthenticateNodeCredential uuid_Parse presented
          (Some (mkCredentialRecord (PCID record) (PCNodeID record) (PCHash record) (PCHashVersion record) (instant_of <$> revokedAt))) with
  | Ok principal => Some principal
  | Err _ => None
  end.

(** What is asked of the store, once the identity and the credential are in order. *)
Definition publication_request (maxBytes : Z) (current : option Identity) (request : SnapshotRequest) : option SnapshotPublicationRequest :=
  if (RCredential request =? "") || (maxBytes <=? 0)%Z || (DefaultSnapshotPublicationMaxBytes <? maxBytes)%Z then None else
  current ← current;
  if negb (readyPrimaryIdentity current) then None else
  match ParseNodeCredential uuid_Parse (RCredential request) with
  | Ok credential => Some (mkPubRequest (cid credential) (RCredential request) (RAfter request) maxBytes authenticateSnapshotCredential)
  | Err _ => None
  end.
Definition checked_publication (q : SnapshotPublicationRequest) (current : Identity) (publication : SnapshotPublicationResult)
    : served SnapshotResult :=
  let after := QAfter q in
  let snapshot := RSnapshot publication in
  if (negb (after =? "") && negb (validSnapshotHash after))
     || negb (PCredentialID (RPrincipal publication) =? QCredentialID q)
     || negb (validPublicationUUID uuid_Parse (PNodeID (RPrincipal publication)))
     || negb (matchingPrimaryIdentity current (RIdentity publication)) || negb (PIKeyUsable (RIdentity publication))
     || negb (validSnapshotMetadata snapshot) || negb (PSourcePrimaryID snapshot =? InstallationID current)
     || negb (PGeneration snapshot =? int64_of (LeadershipGeneration current))%Z
  then Err ErrSnapshotDenied
  else if RCurrent publication then
    if (after =? "") || negb (after =? PContentHash snapshot) || negb (PBytes snapshot =? "") then Err ErrSnapshotDenied
    else Ok (mkSnapshotResult true (toSnapshotMetadata snapshot) "")
  else if negb (after =? "") && (after =? PContentHash snapshot) then Err ErrSnapshotDenied
  else if (PBytes snapshot =? "") || (QMaxBytes q <? slen (PBytes snapshot))%Z
          || negb (validSnapshotEnvelope (PBytes snapshot) snapshot current) then Err ErrSnapshotDenied
  else Ok (mkSnapshotResult false (toSnapshotMetadata snapshot) (PBytes snapshot)).
Definition Publish (maxBytes : Z) (store : publication_store) (current : option Identity) (request : SnapshotRequest) : served SnapshotResult :=
  match publication_request maxBytes current request, current with
  | Some q, Some current =>
      match (store q).2 with Ok publication => checked_publication q current publication | Err _ => Err ErrSnapshotDenied end
  | _, _ => Err ErrSnapshotDenied
  end.

(** ** The handler's view of the credential *)
Record auth_state := mkAuthState {
  revoked : bool; unlinked : bool; authenticated : bool; resultReturned : bool; principalNodeID : string }.
Definition nodeUnlinkedForSecretHolder (presented : string) (record : SnapshotPublicationCredentialRecord) : bool :=
  match PCNodeUnlinkedAt record with
  | None => false
  | Some _ =>
      match AuthenticateNodeCredential uuid_Parse presented
              (Some (mkCredentialRecord (PCID record) (PCNodeID record) (PCHash record) (PCHashVersion record) None)) with
      | Ok _ => true
      | Err _ => false
      end
  end.
Definition observed (q : SnapshotPublicationRequest)
    (answer : option SnapshotPublicationCredentialRecord * result publication_error SnapshotPublicationResult) : auth_state :=
  let returned := match answer.2 with Ok _ => true | Err _ => false end in
  match answer.1 with
  | None => mkAuthState false false false returned ""
  | Some record =>
      let principal := QAuthenticate q (QPresented q) record in
      mkAuthState (negb (is_null (PCRevokedAt record)) || negb (is_null (PCNodeRevokedAt record)))
        (nodeUnlinkedForSecretHolder (QPresented q) record)
        (match principal with Some _ => true | None => false end) returned
        (match principal with Some p => PNodeID p | None => "" end)
  end.

(** ** The request (enrollment_publication.go) *)
Definition EnrollmentSnapshotPublicationPath : string := "/api/topology/sync/snapshot".
Definition VersionTLS13 : Z := 0x0304.
Record tls_state := mkTLS { HandshakeComplete : bool; TLSVersion : Z; ServerName : string }.
Record publication_call := mkCall {
  HPath : string; HRawPath : string; HForceQuery : bool; HRawQuery : string; HMethod : string; HHost : string;
  HTLS : option tls_state; HAuthorization : string }.
Definition parseSnapshotAfterQuery (raw : string) : option string :=
  if raw =? "" then Some "" else
  if negb (HasPrefix raw "after=") then None else
  let value := drop_s 6 raw in
  if (slen value =? 64)%Z && sall isLowerHex value then Some value else None.
Definition parseSnapshotAuthorization (value : string) : option string :=
  let rest := drop_s 7 value in
  if HasPrefix value "Bearer " && negb (rest =? "") && (TrimSpace rest =? rest) then Some rest else None.

(** [net.SplitHostPort]. *)
Fixpoint cut_first (c : ascii) (s : string) : option (string * string) :=
  match s with
  | EmptyString => None
  | String a s => if ascii_eqb a c then Some ("", s) else '(x, y) ← cut_first c s; Some (String a x, y)
  end.
Fixpoint cut_last (c : ascii) (s : string) : option (string * string) :=
  match s with
  | EmptyString => None
  | String a s => match cut_last c s with
                  | Some (x, y) => Some (String a x, y)
                  | None => if ascii_eqb a c then Some ("", s) else None
                  end
  end.
Definition SplitHostPort (s : string) : option (string * string) :=
  '(before, port) ← cut_last ":" s;
  if HasPrefix s "[" then
    '(host, after) ← cut_first "]" (drop_s 1 s);
    if (after =? ":" +:+ port) && negb (ContainsChar host "[") && negb (ContainsChar port "[") && negb (ContainsChar port "]")
    then Some (host, port) else None
  else if ContainsChar before ":" || ContainsChar s "[" || ContainsChar s "]" then None else Some (before, port).
Example hosts : map SplitHostPort ["primary:443"; "[::1]:443"; "::1:443"; "[::1]"; "primary"]
  = [Some ("primary", "443"); Some ("::1", "443"); None; None; None].
Proof. by vm_compute. Qed.
Definition validSnapshotPublicationPort (value : string) : bool :=
  match ParseUint value 16 with Some port => (0 <? port)%Z | None => false end.

(** [ParseIP16] is net.ParseIP; a certificate is the set of hosts it verifies for. *)
Context (ParseIP16 : string -> option (list Z)) (EqualFold : string -> string -> bool).
Definition identityProofSNIMatches (host serverName : string) : bool :=
  match ParseIP16 host with
  | Some ip => (serverName =? "") || match ParseIP16 serverName with Some candidate => bool_decide (candidate = ip) | None => false end
  | None => negb (serverName =? "") && EqualFold serverName host
  end.
Definition validTLSAuthority (certificate : option (string -> bool)) (r : publication_call) : bool :=
  match HTLS r, SplitHostPort (HHost r) with
  | Some tls, Some (host, port) =>
      HandshakeComplete tls && (VersionTLS13 <=? TLSVersion tls)%Z && negb (host =? "") && negb (port =? "")
      && validSnapshotPublicationPort port && identityProofSNIMatches host (ServerName tls)
      && match certificate with Some verifies => verifies host | None => false end
  | _, _ => false
  end.

(** ** The response *)
Record response := mkResponse { Status : Z; RBody : string; RHashHeader : string; RAppliedAtHeader : string }.
(** Single quotes stand for double ones. *)
Definition json_text (s : string) : string := ReplaceAll s (char SQ) (char DQ).
Definition NodeUnlinkedCode : string := "NODE_UNLINKED".
Definition publication_error_response (status : Z) : response :=
  mkResponse status (if (status =? 204)%Z then "" else json_text "{'error':'Permission denied'}") "" "".
Definition unlinked_response : response :=
  mkResponse 410 (json_text "{'error':'node unlinked','code':'" +:+ NodeUnlinkedCode +:+ json_text "'}") "" "".
Definition with_metadata (m : SnapshotMetadata) (status : Z) (text : string) : response :=
  if (MContentHash m =? "") || bool_decide (MAppliedAt m = zero_time) then mkResponse status text "" ""
  else mkResponse status text (MContentHash m) (rfc3339nano (instant_of (MAppliedAt m))).
Definition blank_state : auth_state := mkAuthState false false false false "".

(** The handler with its own reading of the identity, the publisher's, and the node whose
    heartbeat is recorded. *)
Definition respond (maxBytes : Z) (store : publication_store) (current2 : option Identity) (bearer after : string) : response * option string :=
  let request := mkSnapshotRequest bearer after in
  let state := match publication_request maxBytes current2 request with Some q => observed q (store q) | None => blank_state end in
  let beat := if authenticated state && negb (principalNodeID state =? "") then Some (principalNodeID state) else None in
  match Publish maxBytes store current2 request with
  | Err _ =>
      ((if revoked state && unlinked state then unlinked_response
        else if revoked state then publication_error_response 410
        else if authenticated state && negb (resultReturned state) then publication_error_response 204
        else publication_error_response 403), beat)
  | Ok result =>
      ((if SRCurrent result then with_metadata (SRMetadata result) 304 ""
        else if SRBytes result =? "" then publication_error_response 204
        else with_metadata (SRMetadata result) 200 (SRBytes result)), beat)
  end.
Definition handler_max (configured : Z) : Z := if (configured <=? 0)%Z then SnapshotPublicationMaxBytes else configured.
Definition ServeHTTP (configured : Z) (store : option publication_store) (certificate : option (string -> bool))
    (current1 current2 : option Identity) (r : publication_call) : response * option string :=
  let refuse (status : Z) : response * option string := (publication_error_response status, None) in
  if negb (HPath r =? EnrollmentSnapshotPublicationPath) || negb (HRawPath r =? "") || HForceQuery r then refuse 404%Z else
  match parseSnapshotAfterQuery (HRawQuery r) with
  | None => refuse 404%Z
  | Some after =>
      if negb (HMethod r =? "GET") then refuse 405%Z else
      if negb (validTLSAuthority certificate r) then refuse 400%Z else
      match current1 with
      | None => refuse 404%Z
      | Some current =>
          if negb (primary_role (Installation.Role current)) then refuse 403%Z else
          if Identity_IsStalePrimary current || negb (InstallationID_IsValid (InstallationID current))
             || negb (NodeID_IsValid (Installation.NodeID current)) || (LeadershipGeneration current <=? 0)%Z
             || negb (LatestKnownGeneration current =? LeadershipGeneration current)%Z then refuse 404%Z else
          match ClusterKeyID current, store, parseSnapshotAuthorization (HAuthorization r) with
          | Some _, Some store, Some presented =>
              match ParseNodeCredential uuid_Parse presented with
              | Err _ => refuse 403%Z
              | Ok parsed =>
                  let canonicalBearer := BearerCopy parsed in
                  if canonicalBearer =? "" then refuse 403%Z
                  else respond (handler_max configured) store current2 canonicalBearer after
              end
          | _, _, _ => refuse 403%Z
          end
      end
  end.
End publisher.
