(* ===== verification/Render.v ===== *)
(** * Rendering a job's candidates (worker/render/render.go, worker/materialize/materialize.go)

    Secret-bearing files are materialized beside the candidates, or refused when there is
    no store; the job's target decides which services are rendered. *)

From S2P Require Import Prelude GoStrings StrFacts Json Model Proxy Dns RProxy Nginx Coredns Jobs Store Scrub Candidate.
From stdpp Require Import options.

(** ** Secret-bearing candidate files (worker/materialize/materialize.go)

    The htpasswd lines, certificates and keys placed beside an nginx candidate.
    [SecretReader] is the source's interface: a secret that does not exist reads
    as the empty string. *)
Class SecretReader := secret_get : string -> result string string.

Definition username_char (c : ascii) : bool := is_alnum c || one_of "._@+=-" c.
Definition basicAuthUsername (s : string) : bool := (1 <=? slen s)%Z && (slen s <=? 64)%Z && sall username_char s.
(** UTF-16 code units: two for a rune of four bytes, one for any other, invalid ones included. *)
Definition utf16_units (s : string) : Z :=
  foldr (fun r acc => match r with Some t => if (slen t =? 4)%Z then 2 + acc else 1 + acc | None => 1 + acc end)%Z 0%Z (runes s).
Definition FormatBasicAuthFileLine (username passwordHash : string) : result string string :=
  if negb (basicAuthUsername username) then Err "Basic Auth username is invalid"
  else if negb (HasPrefix passwordHash "{SHA}") || (utf16_units passwordHash <=? 6)%Z
  then Err "Basic Auth password hash is invalid"
  else Ok (username +:+ ":" +:+ passwordHash +:+ nl).

(** Reading the nil map is reading the empty one. *)
Definition proxy_map (record : DNSRecord) : gomap := default [] (Model.Proxy record).
Definition basicAuth_of (record : DNSRecord) : option gomap := as_map (mget (proxy_map record) "basicAuth").
Definition secret_of (basicAuth : gomap) : string := default "" (as_string (mget basicAuth "passwordSecretId")).
Definition username_of (basicAuth : gomap) : string := default "" (as_string (mget basicAuth "username")).
Definition basic_auth_path (secretID : string) : string := "basic-auth/" +:+ secretID.

Section materialize.
Context {reader : SecretReader}.

Definition basic_auth_step (files : gmap string string) (record : DNSRecord) : result string (gmap string string) :=
  match basicAuth_of record with
  | None => mret files
  | Some basicAuth =>
      let secretID := secret_of basicAuth in
      hash ← secret_get secretID;
      ensure (negb (hash =? "")) ("Basic Auth secret not found: " +:+ secretID);;
      line ← FormatBasicAuthFileLine (username_of basicAuth) hash;
      mret (<[basic_auth_path secretID := line]> files)
  end.
Definition BasicAuthFiles (records : list DNSRecord) : result string (gmap string string) :=
  foldlM basic_auth_step ∅ records.

Definition certificate_of (record : DNSRecord) : string :=
  default "" (as_string (mget (proxy_map record) "certificateId")).
Definition needs_certificate (record : DNSRecord) : bool :=
  Enabled record && Proxied record && default false (as_bool (mget (proxy_map record) "tlsEnabled"))
  && negb (certificate_of record =? "").
(** The identifiers in first-use order, each once. *)
Definition needed_step (seen : list string) (record : DNSRecord) : list string :=
  if needs_certificate record && negb (contains seen (certificate_of record)) then seen ++ [certificate_of record] else seen.
Definition needed (records : list DNSRecord) : list string := foldl needed_step [] records.
Definition ensureTrailingNewline (value : string) : string := if HasSuffix value nl then value else value +:+ nl.
Definition certificate_step (certificates : list CertificateStatus) (files : gmap string string) (id : string)
    : result string (gmap string string) :=
  match find_first (fun c => CID c =? id) certificates with
  | None => Err ("Certificate not found: " +:+ id)
  | Some cert =>
      ensure (negb (CertificatePEM cert =? "")) ("Certificate PEM is missing: " +:+ id);;
      ensure (negb (SecretID cert =? "")) ("Certificate private key is missing: " +:+ id);;
      key ← secret_get (SecretID cert);
      ensure (negb (key =? "")) ("Certificate key secret not found: " +:+ SecretID cert);;
      mret (<["certs/" +:+ id +:+ ".key" := ensureTrailingNewline key]>
              (<["certs/" +:+ id +:+ ".crt" := ensureTrailingNewline (CertificatePEM cert)]> files))
  end.
Definition CertificateFiles (records : list DNSRecord) (certificates : list CertificateStatus)
    : result string (gmap string string) :=
  foldlM (certificate_step certificates) ∅ (needed records).
End materialize.

(** ** Candidates *)
Record ConfigurationSnapshot := mkConfiguration {
  CfgSettings : Settings; CfgZones : list ZoneState; CfgStreams : list StreamRoute; CfgCertificates : list CertificateStatus }.
(** [Secrets] is [None] when no secret store is configured. *)
Record Options := mkOptions {
  OCandidateRoot : string; OCapabilities : Http3Capabilities; OSecrets : option SecretReader; OACMEUpstream : string }.

Inductive candidates_error : Type := CText (message : string) | CRender (e : render_error).
Definition lift_render {A} (r : rendered A) : result candidates_error A :=
  match r with Ok a => Ok a | Err e => Err (CRender e) end.
Definition lift_text {A} (r : result string A) : result candidates_error A :=
  match r with Ok a => Ok a | Err e => Err (CText e) end.

Definition revisionIDPattern (s : string) : bool := negb (s =? "") && sall (fun c => is_alnum c || one_of "_-" c) s.
(** JavaScript truthiness of a decoded value. *)
Definition truthy (value : json) : bool :=
  match value with
  | JNull => false
  | JBool b => b
  | JStr s => negb (s =? "")
  | JNum z => negb (z =? 0)%Z
  | JFloat t => negb (t =? "-0")
  | _ => true
  end.

Section render.
Context (Sprint : json -> string) (order : map_order).

Definition candidatePath (root : string) (job : Job) (service : string) : result candidates_error string :=
  ensure (revisionIDPattern (RevisionID job)) (CText "Revision ID is invalid for a candidate path");;
  mret (TrimRightChar root "/" +:+ "/" +:+ RevisionID job +:+ "/" +:+ service).

Definition secretFiles (options : Options) (records : list DNSRecord) (certificates : list CertificateStatus)
    : result candidates_error (gmap string string) :=
  match OSecrets options with
  | None =>
      ensure (forallb (fun r => negb (truthy (mget (proxy_map r) "basicAuth"))) records)
        (CText "Basic Auth secrets require a configured secret store");;
      ensure (forallb (fun r => negb (Proxied r && truthy (mget (proxy_map r) "tlsEnabled"))) records)
        (CText "TLS certificates require a configured secret store");;
      mret ∅
  | Some secrets =>
      files ← lift_text (BasicAuthFiles (reader := secrets) records);
      certs ← lift_text (CertificateFiles (reader := secrets) records certificates);
      mret (certs ∪ files)
  end.

Definition coredns (desired : ConfigurationSnapshot) (zones : list ZoneState) (pool : ResolverPool) (root : string) (job : Job)
    : result candidates_error Candidate :=
  rendered ← lift_render (RenderCoreDNSCandidate Sprint order (mkCoreDNSInput
    (map (fun z => mkZoneInput (ZName z) (Records z)) zones) (SIngress (CfgSettings desired)) pool
    (ForwardingRules (CfgSettings desired))));
  path ← candidatePath root job "coredns";
  mret (mkCandidate ServiceCoreDNS path (Coredns.CChecksum rendered)
    (Some (map_to_list (Coredns.CFiles rendered ∪ {["Corefile" := Corefile rendered]})))).

Definition nginx (desired : ConfigurationSnapshot) (records : list DNSRecord) (root : string) (job : Job) (options : Options)
    : result candidates_error Candidate :=
  path ← candidatePath root job "nginx";
  secrets ← secretFiles options records (CfgCertificates desired);
  rendered ← lift_render (RenderNginxCandidate (mkNginxInput records (CfgStreams desired) (OCapabilities options) path
    (OACMEUpstream options) secrets));
  mret (mkCandidate ServiceNginx path (NChecksum rendered) (Some (map_to_list (NFiles rendered)))).

(** [Candidates], on the decoded snapshot. *)
Definition Candidates (desired : ConfigurationSnapshot) (job : Job) (options : Options)
    : result candidates_error (list Candidate) :=
  match DefaultPool (CfgSettings desired) with
  | None => Err (CText "Configuration snapshot has no default resolver pool")
  | Some pool =>
      let zones := List.filter ZEnabled (CfgZones desired) in
      let records := concat (map Records zones) in
      let root := if OCandidateRoot options =? "" then DefaultCandidateRoot else OCandidateRoot options in
      if JTarget job =? TargetCoreDNS then c ← coredns desired zones pool root job; mret [c]
      else if JTarget job =? TargetNginx then c ← nginx desired records root job options; mret [c]
      else if JTarget job =? TargetCombined then
        c ← coredns desired zones pool root job;
        n ← nginx desired records root job options;
        mret [c; n]
      else Err (CText ("Unsupported apply target: " +:+ JTarget job))
  end.
End render.
