(* ===== verification/ConfigText.v ===== *)
(** * The configuration as JSON (domain/model.go, snapshot.go, certificate.go)

    [domain.ConfigurationSnapshot] as encoding/json reads and writes it. The records keep a
    nil slice apart from an empty one, which [configuration_of] forgets: they are the
    configuration the worker renders and the one a primary publishes. *)

From S2P Require Import Prelude GoStrings GoTime Json JsonText Scrub RProxy Timestamp Model Identity Sha256 Snapshot SnapshotText Jobs Store Candidate Render.
From stdpp Require Import options.

Record WPool := mkWPool { WPoolID : string; WEndpoints : option (list ResolverEndpoint) }.
Record WForwarding := mkWForwarding { WSuffix : string; WRulePool : WPool }.
Record WSettings := mkWSettings {
  WIngress : Ingress; WDefaultPool : option WPool; WForwardingRules : option (list WForwarding); WMaxAgeDays : Z; WMaxSizeMb : Z }.
Record WZone := mkWZone { WZoneID : string; WZoneName : string; WZoneEnabled : bool; WRecords : option (list DNSRecord) }.
Record WCertificate := mkWCertificate {
  WCertID : string; WHostnames : option (list string); WIssuer : string; WChallenge : string; WEnvironment : string; WStatus : string;
  WExpiresAt : option instant; WRenewAfter : option instant; WSecretID : string; WCertificatePEM : string; WFailureReason : string }.
Record WConfiguration := mkWConfiguration {
  WCfgSettings : WSettings; WZones : option (list WZone); WStreams : option (list StreamRoute); WCertificates : option (list WCertificate) }.

(** ** Writing *)
Definition optional {A} (key : string) (f : A -> json) (o : option A) : gomap := match o with Some a => [(key, f a)] | None => [] end.
Definition endpoint_tree (e : ResolverEndpoint) : json := JObj [("host", JStr (Host e)); ("port", JNum (EPort e))].
Definition pool_tree (p : WPool) : json := JObj [("id", JStr (WPoolID p)); ("endpoints", slice_tree endpoint_tree (WEndpoints p))].
Definition forwarding_tree (f : WForwarding) : json := JObj [("suffix", JStr (WSuffix f)); ("pool", pool_tree (WRulePool f))].
Definition settings_tree (s : WSettings) : json :=
  JObj ([("ingress", ingress_tree (WIngress s))] ++ optional "defaultPool" pool_tree (WDefaultPool s)
        ++ [("forwardingRules", slice_tree forwarding_tree (WForwardingRules s)); ("retentionMaxAgeDays", JNum (WMaxAgeDays s));
            ("retentionMaxSizeMb", JNum (WMaxSizeMb s))]).
(** An empty map is left out as a nil one is. *)
Definition proxy_field (p : option gomap) : gomap := match p with Some ((_ :: _) as m) => [("proxy", JObj m)] | _ => [] end.
Definition record_tree (r : DNSRecord) : json :=
  JObj ([("id", JStr (ID r)); ("name", JStr (Name r)); ("type", JStr (Type_ r)); ("value", Value r); ("ttl", JNum (TTL r));
         ("enabled", JBool (Enabled r))] ++ optional "comment" JStr (Comment r) ++ [("proxied", JBool (Proxied r))] ++ proxy_field (Proxy r)).
Definition zone_tree (z : WZone) : json :=
  JObj [("id", JStr (WZoneID z)); ("name", JStr (WZoneName z)); ("enabled", JBool (WZoneEnabled z)); ("records", slice_tree record_tree (WRecords z))].
Definition upstream_tree (u : UpstreamTarget) : json :=
  JObj [("ip", JStr (UIP u)); ("port", JNum (UPort u)); ("protocol", JStr (UProtocol u))].
Definition stream_tree (s : StreamRoute) : json :=
  JObj [("id", JStr (SRID s)); ("enabled", JBool (SREnabled s)); ("protocol", JStr (Protocol s)); ("listenAddress", JStr (ListenAddress s));
        ("listenPort", JNum (ListenPort s)); ("upstream", upstream_tree (Upstream s))].
Definition time_tree (t : instant) : json := JStr (rfc3339nano t).
Definition certificate_tree (c : WCertificate) : json :=
  JObj ([("id", JStr (WCertID c)); ("hostnames", slice_tree JStr (WHostnames c)); ("issuer", JStr (WIssuer c));
         ("challenge", JStr (WChallenge c)); ("environment", JStr (WEnvironment c)); ("status", JStr (WStatus c))]
        ++ optional "expiresAt" time_tree (WExpiresAt c) ++ optional "renewAfter" time_tree (WRenewAfter c)
        ++ omitempty "secretId" (WSecretID c) ++ omitempty "certificatePem" (WCertificatePEM c) ++ omitempty "failureReason" (WFailureReason c)).
Definition configuration_tree (c : WConfiguration) : json :=
  JObj [("settings", settings_tree (WCfgSettings c)); ("zones", slice_tree zone_tree (WZones c));
        ("streams", slice_tree stream_tree (WStreams c)); ("certificates", slice_tree certificate_tree (WCertificates c))].

(** ** Reading *)
Section decode.
Context (float_text : string -> option string).

Definition dec_endpoint : decoder ResolverEndpoint := dec_struct (fun m cur =>
  host ← member m "host" dec_string (Host cur);
  port ← member m "port" dec_int64 (EPort cur);
  Some (mkEndpoint host port)).
Definition dec_pool : decoder WPool := dec_struct (fun m cur =>
  id ← member m "id" dec_string (WPoolID cur);
  endpoints ← member m "endpoints" (dec_list (mkEndpoint "" 0) dec_endpoint) (WEndpoints cur);
  Some (mkWPool id endpoints)).
Definition zero_pool : WPool := mkWPool "" None.
Definition dec_forwarding : decoder WForwarding := dec_struct (fun m cur =>
  suffix ← member m "suffix" dec_string (WSuffix cur);
  pool ← member m "pool" dec_pool (WRulePool cur);
  Some (mkWForwarding suffix pool)).
Definition dec_config_settings : decoder WSettings := dec_struct (fun m cur =>
  ingress ← member m "ingress" dec_ingress (WIngress cur);
  pool ← member m "defaultPool" (dec_ptr zero_pool dec_pool) (WDefaultPool cur);
  rules ← member m "forwardingRules" (dec_list (mkWForwarding "" zero_pool) dec_forwarding) (WForwardingRules cur);
  age ← member m "retentionMaxAgeDays" dec_int64 (WMaxAgeDays cur);
  size ← member m "retentionMaxSizeMb" dec_int64 (WMaxSizeMb cur);
  Some (mkWSettings ingress pool rules age size)).
(** A map is filled: keys of an earlier value stay. *)
Definition dec_map : decoder (option gomap) := fun v cur =>
  match v with
  | JNull => Some None
  | JObj _ => match dec_any float_text v JNull with
              | Some (JObj m) => Some (Some (foldl (fun acc f => mset acc f.1 f.2) (default [] cur) m))
              | _ => None
              end
  | _ => None
  end.
Definition dec_record : decoder DNSRecord := dec_struct (fun m cur =>
  id ← member m "id" dec_string (ID cur);
  name ← member m "name" dec_string (Name cur);
  type ← member m "type" dec_string (Type_ cur);
  value ← member m "value" (dec_any float_text) (Value cur);
  ttl ← member m "ttl" dec_int64 (TTL cur);
  enabled ← member m "enabled" dec_bool (Enabled cur);
  comment ← member m "comment" (dec_ptr "" dec_string) (Comment cur);
  proxied ← member m "proxied" dec_bool (Proxied cur);
  proxy ← member m "proxy" dec_map (Proxy cur);
  Some (mkRecord id name type value ttl enabled comment proxied proxy)).
Definition zero_record : DNSRecord := mkRecord "" "" "" JNull 0 false None false None.
Definition dec_zone : decoder WZone := dec_struct (fun m cur =>
  id ← member m "id" dec_string (WZoneID cur);
  name ← member m "name" dec_string (WZoneName cur);
  enabled ← member m "enabled" dec_bool (WZoneEnabled cur);
  records ← member m "records" (dec_list zero_record dec_record) (WRecords cur);
  Some (mkWZone id name enabled records)).
Definition dec_upstream : decoder UpstreamTarget := dec_struct (fun m cur =>
  ip ← member m "ip" dec_string (UIP cur);
  port ← member m "port" dec_int64 (UPort cur);
  protocol ← member m "protocol" dec_string (UProtocol cur);
  Some (mkUpstream ip port protocol)).
Definition dec_stream : decoder StreamRoute := dec_struct (fun m cur =>
  id ← member m "id" dec_string (SRID cur);
  enabled ← member m "enabled" dec_bool (SREnabled cur);
  protocol ← member m "protocol" dec_string (Protocol cur);
  address ← member m "listenAddress" dec_string (ListenAddress cur);
  port ← member m "listenPort" dec_int64 (ListenPort cur);
  upstream ← member m "upstream" dec_upstream (Upstream cur);
  Some (mkStream id enabled protocol address port upstream)).
Definition dec_certificate : decoder WCertificate := dec_struct (fun m cur =>
  id ← member m "id" dec_string (WCertID cur);
  hostnames ← member m "hostnames" (dec_list "" dec_string) (WHostnames cur);
  issuer ← member m "issuer" dec_string (WIssuer cur);
  challenge ← member m "challenge" dec_string (WChallenge cur);
  environment ← member m "environment" dec_string (WEnvironment cur);
  status ← member m "status" dec_string (WStatus cur);
  expires ← member m "expiresAt" (dec_ptr zero_instant dec_time) (WExpiresAt cur);
  renew ← member m "renewAfter" (dec_ptr zero_instant dec_time) (WRenewAfter cur);
  secret ← member m "secretId" dec_string (WSecretID cur);
  pem ← member m "certificatePem" dec_string (WCertificatePEM cur);
  reason ← member m "failureReason" dec_string (WFailureReason cur);
  Some (mkWCertificate id hostnames issuer challenge environment status expires renew secret pem reason)).
Definition zero_stream : StreamRoute := mkStream "" false "" "" 0 (mkUpstream "" 0 "").
Definition zero_certificate : WCertificate := mkWCertificate "" None "" "" "" "" None None "" "" "".
Definition dec_configuration : decoder WConfiguration := dec_struct (fun m cur =>
  settings ← member m "settings" dec_config_settings (WCfgSettings cur);
  zones ← member m "zones" (dec_list (mkWZone "" "" false None) dec_zone) (WZones cur);
  streams ← member m "streams" (dec_list zero_stream dec_stream) (WStreams cur);
  certificates ← member m "certificates" (dec_list zero_certificate dec_certificate) (WCertificates cur);
  Some (mkWConfiguration settings zones streams certificates)).
Definition zero_configuration : WConfiguration := mkWConfiguration (mkWSettings (mkIngress "" "") None None 0 0) None None None.
Definition UnmarshalConfiguration (text : string) : option WConfiguration :=
  v ← json_decode text; dec_configuration v zero_configuration.
End decode.

(** ** What the worker renders *)
Definition pool_of (p : WPool) : ResolverPool := mkPool (WPoolID p) (default [] (WEndpoints p)).
Definition certificate_of (c : WCertificate) : CertificateStatus :=
  let at_ t := FiniteTimestamp (t / Nanos) (t mod Nanos) in
  mkCertificate (WCertID c) (default [] (WHostnames c)) (WIssuer c) (WChallenge c) (WEnvironment c) (WStatus c)
    (at_ <$> WExpiresAt c) (at_ <$> WRenewAfter c) (WSecretID c) (WCertificatePEM c) (WFailureReason c).
Definition configuration_of (c : WConfiguration) : ConfigurationSnapshot :=
  let s := WCfgSettings c in
  mkConfiguration
    (mkSettings (WIngress s) (pool_of <$> WDefaultPool s)
       (map (fun f => mkForwarding (WSuffix f) (pool_of (WRulePool f))) (default [] (WForwardingRules s))) (WMaxAgeDays s) (WMaxSizeMb s))
    (map (fun z => mkZone (WZoneID z) (WZoneName z) (WZoneEnabled z) (default [] (WRecords z))) (default [] (WZones c)))
    (default [] (WStreams c)) (map certificate_of (default [] (WCertificates c))).
