(* ===== verification/Producer.v ===== *)
(** * Producing the published snapshot (sync/publication_producer.go)

    An applied job becomes a published snapshot inside one transaction; stored bodies that
    the validator rejects are discarded and produced again. Each transaction of a run gets
    its clock, identifier, capture time and nonces from the environment, which also moves
    the tables between two of them. *)

From S2P Require Import Prelude GoStrings GoTime Json Timestamp Model Identity Sha256 AesGcm Kek SecretBox Snapshot SnapshotText Transfer Jobs Store Installation InstallationStore ClusterKeys PrimaryStore Publication Canonical Render ConfigText.
From stdpp Require Import options.

Definition Second : Z := 10 ^ 9.
Definition defaultCanonicalSnapshotBackoff : Z := Second.
Definition maxCanonicalSnapshotBackoff : Z := 60 * Second.
Definition healRecentSnapshots : nat := 8.
(** The initial and the largest backoff. *)
Definition NewCanonicalSnapshotProducer (initialBackoff maxBackoff : Z) : Z * Z :=
  let initial := if (initialBackoff <=? 0)%Z then defaultCanonicalSnapshotBackoff else initialBackoff in
  let largest := if (maxBackoff <=? 0)%Z || (maxBackoff <? initial)%Z
                 then (if (maxCanonicalSnapshotBackoff <? initial)%Z then initial else maxCanonicalSnapshotBackoff) else maxBackoff in
  (initial, largest).

Definition eligibleCanonicalPrimary (i : PrimaryIdentityRecord) : bool :=
  InstallationID_IsValid (PrInstallationID i) && NodeID_IsValid (PrNodeID i) && primary_role (PrRole i)
  && (0 <? PrLeadership i)%Z && (PrLeadership i =? PrLatest i)%Z && (PrLeadership i <=? 2 ^ 63 - 1)%Z.
Definition terminalOrdinaryCombinedApply (a : CanonicalSnapshotApply) : bool :=
  (CaStatus a =? "applied") && (CaTarget a =? "combined") && (CaSource a =? "ordinary") && (CaRevisionSource a =? "ordinary")
  && negb (is_null (CaFinishedAt a)) && negb (is_null (CaRevisionAppliedAt a)) && negb (CaDesired a =? "")
  && negb (CaRevisionID a =? "") && negb (CaJobID a =? "").

(** What one transaction draws. *)
Record drawn := mkDrawn { d_clock : time; d_id : string; d_captured : instant; d_nonces : nat -> list Z; d_entropy : entropy }.

Section producer.
Context (uuid_Parse uuid_text : string -> option uuid) (float_text : string -> option string).
Context (accept : accept_lists) (master : string).

Definition canonicalPublicationIsValid (r : AppliedSnapshotRecord) (identity : PrimaryIdentityRecord) (kek : KEK) : bool :=
  match ArBody r with
  | None => false
  | Some body =>
      (ArStatus r =? "applied") && is_null (ArDiscardedAt r) && (ArSourcePrimaryID r =? PrInstallationID identity)
      && (ArGeneration r =? PrLeadership identity)%Z && negb (bool_decide (ArAppliedAt r = zero_time))
      && match Unmarshal uuid_text float_text body with
         | Err _ => false
         | Ok env =>
             match Envelope_Validate env, CheckCompatibility accept env with
             | Ok _, Ok _ =>
                 (ContentHash env =? ArContentHash r) && (SnapshotVersion (Transient env) =? ArSnapshotVersion r)%Z
                 && (ReplicationVersion (Transient env) =? ArReplicationVersion r)%Z
                 && (SourcePrimaryID (Transient env) =? PrInstallationID identity)
                 && (TGeneration (Transient env) =? PrLeadership identity)%Z
                 && (Snapshot.NodeID (NodeLocal env) =? PrNodeID identity) && (Snapshot.Role (NodeLocal env) =? PrRole identity)
                 && match ClusterKeyRef (NodeLocal env), PrClusterKeyID identity with Some a, Some b => a =? b | _, _ => false end
                 && OK (Validator_Validate (NewValidator (Some kek)) accept env)
             | _, _ => false
             end
         end
  end.
(** The KEK of the identity's key, through the transaction. *)
Definition transaction_kek (t : primary_tables) (stamp : string) (e : entropy) (key : uuid) : canonical (primary_tables * KEK) :=
  '(t, material) ← LoadOrCreateClusterKEK uuid_Parse master t stamp e key;
  match NewKEK (CopyKeyBytes material) with Ok kek => mret (t, kek) | Err _ => Err ErrCanonicalKEK end.
(** The exporter over the desired configuration and the transaction's secrets and owners. *)
Definition transaction_exporter (t : primary_tables) (d : drawn) (desired : WConfiguration) : Exporter :=
  let with_nonce i s := mkPlain (SID s) (SPurpose s) (SValue s) (d_nonces d i) in
  mkExporter (Ok (configuration_tree desired))
    (map_err (fun _ => "list secrets") (imap with_nonce <$> ListSecrets uuid_Parse master t))
    (map_err (fun _ => "list owners") (ListReplicableOwners uuid_Parse t)).
Definition export_envelope (t : primary_tables) (d : drawn) (identity : PrimaryIdentityRecord) (key : uuid) (kek : KEK) (apply : CanonicalSnapshotApply)
    : canonical (Envelope * string) :=
  match UnmarshalConfiguration float_text (CaDesired apply) with
  | None => Err ErrDecodeDesired
  | Some desired =>
      env ← map_err ErrCanonicalExport (Export (transaction_exporter t d desired) (d_captured d)
              (mkExporterInput (PrInstallationID identity) (PrNodeID identity) (PrRole identity) (WIngress (WCfgSettings desired))
                 (PrLeadership identity) (Some kek) (Some key)));
      map_err ErrCanonicalEnvelope (Envelope_Validate env);;
      map_err ErrCanonicalCompatibility (CheckCompatibility accept env);;
      let body := Marshal env in
      ensure (negb (body =? "") && (slen body <=? SnapshotPublicationMaxBytes)%Z) ErrCanonicalSnapshotProducerConflict;;
      mret (env, body)
  end.
Definition produce_in (d : drawn) (jobID stamp : string) (t : primary_tables) : canonical (primary_tables * unit) :=
  identity ← LockPrimaryIdentity uuid_Parse t;
  ensure (eligibleCanonicalPrimary identity) ErrCanonicalSnapshotProducerNotReady;;
  apply ← GetCanonicalSnapshotApply t jobID;
  ensure (terminalOrdinaryCombinedApply apply) ErrCanonicalSnapshotProducerNotReady;;
  match PrClusterKeyID identity with
  | None => Err ErrCanonicalSnapshotProducerNotReady
  | Some key =>
      '(t, kek) ← transaction_kek t stamp (d_entropy d) key;
      existing ← FindCanonicalSnapshotForJob t jobID;
      let live := e ← existing; if is_null (ArDiscardedAt e) then Some e else None in
      match live, CaFinishedAt apply with
      | Some existing, finished =>
          ensure (bool_decide (ArRevisionID existing = Some (CaRevisionID apply)) && bool_decide (ArJobID existing = Some (CaJobID apply))
                  && bool_decide (Some (ArAppliedAt existing) = finished)
                  && canonicalPublicationIsValid existing identity kek) ErrCanonicalSnapshotProducerConflict;;
          mret (t, tt)
      | None, None => Err ErrCanonicalSnapshotProducerNotReady
      | None, Some finished =>
          '(env, body) ← export_envelope t d identity key kek apply;
          t ← PublishCanonicalSnapshot uuid_Parse t
                (mkCanonicalWrite (d_id d) body (PrInstallationID identity) (PrLeadership identity) (SnapshotVersion (Transient env))
                   (ReplicationVersion (Transient env)) (ContentHash env) (CaRevisionID apply) (CaJobID apply) finished);
          mret (t, tt)
      end
  end.
Definition Produce (d : drawn) (t : primary_tables) (jobID : string) : primary_tables * canonical unit :=
  if jobID =? "" then (t, Err ErrCanonicalSnapshotProducerNotReady) else Write t (d_clock d) (produce_in d jobID).

(** ** Healing *)
Definition heal_record (identity : PrimaryIdentityRecord) (kek : KEK) (stamp : string) (s : primary_tables * nat) (r : AppliedSnapshotRecord)
    : canonical (primary_tables * nat) :=
  if negb (ArSourcePrimaryID r =? PrInstallationID identity) || negb (ArGeneration r =? PrLeadership identity)%Z
     || canonicalPublicationIsValid r identity kek then mret s
  else t ← DiscardCanonicalSnapshot s.1 stamp (ArID r); mret (t, S s.2).
Definition heal_in (d : drawn) (stamp : string) (t : primary_tables) : canonical (primary_tables * nat) :=
  identity ← LockPrimaryIdentity uuid_Parse t;
  match PrClusterKeyID identity with
  | Some key =>
      if negb (eligibleCanonicalPrimary identity) then mret (t, 0%nat) else
      records ← ListRecentCanonicalSnapshots t healRecentSnapshots;
      match records with
      | [] => mret (t, 0%nat)
      | _ =>
          '(t, kek) ← transaction_kek t stamp (d_entropy d) key;
          foldlM (heal_record identity kek stamp) (t, 0%nat) records
      end
  | None => mret (t, 0%nat)
  end.
(** The number of snapshots that were discarded. *)
Definition healStaleSnapshots (d : drawn) (t : primary_tables) : primary_tables * canonical nat := Write t (d_clock d) (heal_in d).

(** ** Reconciling; [between n] is what other writers did before the [n]th transaction *)
Section reconcile.
Context (draw : nat -> drawn) (between : nat -> primary_tables -> primary_tables).
Fixpoint produce_all (n : nat) (published : Z) (t : primary_tables) (jobs : list string) : nat * primary_tables * canonical Z :=
  match jobs with
  | [] => (n, t, Ok published)
  | job :: jobs =>
      match Produce (draw n) (between n t) job with
      | (t, Ok _) => produce_all (S n) (published + 1) t jobs
      | (t, Err e) => (S n, t, Err e)
      end
  end.
Definition Reconcile (n : nat) (t : primary_tables) : nat * primary_tables * canonical Z :=
  match healStaleSnapshots (draw n) (between n t) with
  | (t, Err e) => (S n, t, Err e)
  | (t, Ok _) => produce_all (S n) 0 t (ListCanonicalSnapshotCandidates t)
  end.

(** The loop ends with its context; [cycles] of it are observed, with the waits. *)
Definition next_backoff (initial largest backoff : Z) (failed : bool) : Z :=
  if failed then
    if (backoff <? largest)%Z then let doubled := int64_of (backoff * 2) in if (largest <? doubled)%Z then largest else doubled
    else backoff
  else initial.
Fixpoint Run (cycles : nat) (initial largest backoff : Z) (n : nat) (t : primary_tables) : primary_tables * list Z :=
  match cycles with
  | O => (t, [])
  | S cycles =>
      let '(n, t, r) := Reconcile n t in
      let backoff := next_backoff initial largest backoff (match r with Ok _ => false | Err _ => true end) in
      let '(t, waits) := Run cycles initial largest backoff n t in
      (t, backoff :: waits)
  end.
End reconcile.
End producer.
