(* ===== verification/PublisherFacts.v ===== *)
(** * What a pull is answered

    An unlinked node is told so when, and only when, it presents its own credential; the
    bytes served are the newest applied snapshot with its proof, and pass the checks a node
    makes; producing the newest apply publishes it. *)

From S2P Require Import Prelude Effects GoStrings StrFacts Json JsonFacts JsonText Timestamp GoTime Model Identity Sha256 AesGcm Kek SecretBox Snapshot SnapshotText Transfer Jobs Store StoreFacts Revisions Credentials SnapshotClient NodeSyncStore Installation InstallationStore InstallationStoreFacts ClusterKeys ClusterKeysFacts PrimaryStore Publication Acknowledgement Canonical PrimaryFacts Publisher Render ConfigText Producer.
From stdpp Require Import options.

(** The transport hands the node what the handler wrote. *)
Definition delivered (r : response) : http_response := mkHTTPResponse 2 (Status r) (Some (mkBody (RBody r) false)) (RHashHeader r) (RAppliedAtHeader r).
Definition told_unlinked (maxBody : Z) (allow : bool) (r : response) : Prop :=
  (handleSnapshotResponse maxBody (Some (delivered r)) allow).2 = Err ErrSnapshotClientUnlinked.

Lemma unlinked_is_told maxBody allow : told_unlinked maxBody allow unlinked_response.
Proof. by vm_compute. Qed.
Lemma error_is_not_told maxBody allow status : status ∈ [204; 400; 403; 404; 405; 410]%Z ->
  ~ told_unlinked maxBody allow (publication_error_response status).
Proof.
  intros H. repeat (apply elem_of_cons in H as [->|H]; [destruct allow; by vm_compute|]). by apply elem_of_nil in H.
Qed.
Lemma metadata_is_not_told maxBody allow m status text : status = 200%Z \/ status = 304%Z -> ~ told_unlinked maxBody allow (with_metadata m status text).
Proof.
  assert (forall r, Status r = 200%Z \/ Status r = 304%Z -> ~ told_unlinked maxBody allow r) as H.
  { intros [st b h a] Hs. unfold told_unlinked, handleSnapshotResponse, delivered. cbn [Status] in Hs. cbn [StatusCode ProtoMajor Body HashHeader AppliedAtHeader Status RBody RHashHeader RAppliedAtHeader].
    destruct Hs as [->| ->]; destruct allow; cbn -[snapshotResponseMetadata ReadLimited Z.ltb Z.add String.eqb]; repeat case_match; done. }
  intros Hs. apply H. unfold with_metadata. by destruct (_ || _).
Qed.

Section pull.
Context (uuid_Parse uuid_text : string -> option uuid) (float_text : string -> option string) (accept : accept_lists) (master : string).
Context (ParseIP16 : string -> option (list Z)) (EqualFold : string -> string -> bool).
Local Abbreviation read t clock := (ReadSnapshotPublication uuid_Parse uuid_text float_text accept master t clock).
Local Abbreviation serve := (ServeHTTP uuid_Parse uuid_text float_text accept ParseIP16 EqualFold).
Local Abbreviation answer := (respond uuid_Parse uuid_text float_text accept).
Local Abbreviation asked := (publication_request uuid_Parse).

(** ** The handler up to the publisher *)
Ltac refused := match goal with Hr : context [publication_error_response] |- _ => intros H; left; eapply Hr; [|exact H]; by apply (bool_decide_unpack _) end.
Lemma parse_authorization value presented : parseSnapshotAuthorization value = Some presented -> value = "Bearer " +:+ presented.
Proof using.
  unfold parseSnapshotAuthorization. destruct (HasPrefix value "Bearer ") eqn:E; [|done]. cbv zeta. cbn [andb]. destruct (_ && _); [|done].
  apply HasPrefix_spec in E as (rest&->). by intros [= <-].
Qed.
Lemma ServeHTTP_cases configured store certificate current1 current2 r res beat :
  serve configured store certificate current1 current2 r = (res, beat) ->
  (beat = None /\ exists status, status ∈ [204; 400; 403; 404; 405; 410]%Z /\ res = publication_error_response status)
  \/ exists c after s, store = Some s /\ ParseNodeCredential uuid_Parse (BearerCopy c) = Ok c /\ HAuthorization r = "Bearer " +:+ BearerCopy c
       /\ parseSnapshotAfterQuery (HRawQuery r) = Some after /\ answer (handler_max configured) s current2 (BearerCopy c) after = (res, beat).
Proof using.
  unfold ServeHTTP. cbv zeta.
  assert (forall status, status ∈ [204; 400; 403; 404; 405; 410]%Z -> (publication_error_response status, None) = (res, beat) ->
    beat = None /\ exists status, status ∈ [204; 400; 403; 404; 405; 410]%Z /\ res = publication_error_response status) as Hrefuse.
  { intros status Hs [= <- <-]. split; [done|]. by exists status. }
  destruct (_ || _ || _); [refused|].
  destruct (parseSnapshotAfterQuery _) as [after|]; [|refused].
  destruct (negb (HMethod r =? "GET")); [refused|].
  destruct (negb (validTLSAuthority _ _ _ _)); [refused|].
  destruct current1 as [current|]; [|refused].
  destruct (negb (primary_role _)); [refused|].
  match goal with |- (if ?b then _ else _) = _ -> _ => destruct b; [refused|] end.
  destruct (ClusterKeyID current) as [key|]; [|refused].
  destruct store as [s|]; [|refused].
  destruct (parseSnapshotAuthorization _) as [presented|] eqn:Ea; [|refused].
  destruct (ParseNodeCredential uuid_Parse presented) as [c|] eqn:Ep; [|refused].
  destruct (BearerCopy c =? ""); [refused|].
  intros H. right. exists c, after, s. destruct (Parse_Bearer _ _ _ Ep) as (_&Hp&_). subst presented.
  split; [done|]. split; [done|]. split; [by apply parse_authorization|]. by split.
Qed.

Lemma asked_parts maxBytes current c after q : ParseNodeCredential uuid_Parse (BearerCopy c) = Ok c ->
  asked maxBytes current (mkSnapshotRequest (BearerCopy c) after) = Some q ->
  q = mkPubRequest (cid c) (BearerCopy c) after maxBytes (authenticateSnapshotCredential uuid_Parse)
  /\ (0 < maxBytes <= SnapshotPublicationMaxBytes)%Z /\ exists i, current = Some i /\ readyPrimaryIdentity i = true.
Proof using.
  intros Hp. unfold publication_request. cbn [RCredential RAfter]. destruct (_ || _) eqn:E1; [done|]. destruct current as [i|]; [|done].
  cbn [mbind option_bind]. destruct (readyPrimaryIdentity i) eqn:E2; [|done]. cbn [negb]. rewrite Hp. intros [= <-]. bsimp.
  split; [done|]. split; [unfold DefaultSnapshotPublicationMaxBytes in *; lia|by exists i].
Qed.
Lemma respond_told maxBytes store current c after res beat maxBody allow : ParseNodeCredential uuid_Parse (BearerCopy c) = Ok c ->
  answer maxBytes store current (BearerCopy c) after = (res, beat) -> told_unlinked maxBody allow res ->
  exists q record, asked maxBytes current (mkSnapshotRequest (BearerCopy c) after) = Some q /\ (store q).1 = Some record
    /\ nodeUnlinkedForSecretHolder uuid_Parse (QPresented q) record = true.
Proof using.
  intros Hp H Ht. unfold respond in H. cbv zeta in H. destruct (Publish _ _ _ _ _ _ _) as [result|].
  { destruct (SRCurrent result); [|destruct (SRBytes result =? "")]; injection H as <- _; exfalso; revert Ht;
      [apply metadata_is_not_told; by right|apply error_is_not_told; by apply (bool_decide_unpack _)|apply metadata_is_not_told; by left]. }
  destruct (asked _ _ _) as [q|].
  - destruct (revoked _ && unlinked _) eqn:Eu.
    + apply andb_true_iff in Eu as [_ Hu]. unfold observed in Hu. destruct ((store q).1) as [record|] eqn:Es; [|done]. by exists q, record.
    + exfalso. injection H as <- _. revert Ht. repeat case_match; apply error_is_not_told; by apply (bool_decide_unpack _).
  - exfalso. cbn [revoked unlinked authenticated blank_state andb negb] in H. injection H as <- _. revert Ht. apply error_is_not_told; by apply (bool_decide_unpack _).
Qed.

(** C15: Whatever the request, a node that concludes from the answer that it was unlinked has
    presented the bearer of a credential stored for it, with this very secret, and its row is
    marked as unlinked: nobody else learns it, and no other answer is mistaken for it. *)
Theorem unlink_signal_is_authentic t clock configured certificate current1 current2 r res beat maxBody allow :
  serve configured (Some (read t clock)) certificate current1 current2 r = (res, beat) -> told_unlinked maxBody allow res ->
  exists c cr n, HAuthorization r = "Bearer " +:+ BearerCopy c
    /\ cr ∈ node_credentials (topo t) /\ c_id cr = cid c /\ canonicalCredentialHash (c_hash cr) = Some (nodeCredentialDigest (secret c))
    /\ n ∈ enrolled_nodes (topo t) /\ e_credential n = c_id cr /\ e_node n = c_node cr /\ is_Some (e_unlinked n).
Proof using.
  intros H Ht. apply ServeHTTP_cases in H as [(_&status&Hs&->)|(c&after&s&[= <-]&Hp&Ha&_&H)]; [by destruct (error_is_not_told maxBody allow status Hs)|].
  destruct (respond_told _ _ _ _ _ _ _ _ _ Hp H Ht) as (q&record&Hq&Hr&Hu). apply asked_parts in Hq as (->&_&_); [|done].
  unfold ReadSnapshotPublication in Hr. destruct (_ || _ || _ || _); [done|]. destruct (encodeTime clock); [|done].
  unfold readPublication in Hr. cbn [QCredentialID] in Hr. destruct (sqlitePublicationCredential t (cid c)) as [record'|] eqn:Ec; [|done].
  injection Hr as ->. unfold sqlitePublicationCredential in Ec.
  destruct (find_first (fun x => c_id x =? cid c) _) as [cr|] eqn:Ecr; [|done]. cbn [mbind option_bind] in Ec.
  destruct (find_first _ (enrolled_nodes (topo t))) as [n|] eqn:En; [|done]. cbn [mbind option_bind] in Ec.
  destruct (sqliteEnqueueTime (c_revoked cr)); [|done]. destruct (sqliteEnqueueTime (e_revoked n)); [|done].
  destruct (sqliteEnqueueTime (e_unlinked n)) as [u|] eqn:Eu; [|done]. injection Ec as <-.
  unfold nodeUnlinkedForSecretHolder in Hu. cbn [PCNodeUnlinkedAt QPresented PCID PCNodeID PCHash PCHashVersion] in Hu. destruct u as [u|]; [|done].
  destruct (AuthenticateNodeCredential _ _ _) as [p|] eqn:Eauth; [|done]. apply Authenticate_iff in Eauth as (c'&Hc'&_&_&_&_&_&_&Hh).
  assert (c' = c) as -> by congruence. cbn [CRHash] in Hh. apply find_first_Some in Ecr as (Hcr&Hid%String.eqb_eq). apply find_first_Some in En as (Hn&Hj).
  bsimp. exists c, cr, n. repeat (split; [done|]). by destruct (e_unlinked n).
Qed.

(** ** An unlinked node is told *)
(** A request the handler answers from the store. *)
Record good_pull (verifies : string -> bool) (c : NodeCredential) (after : string) (r : publication_call) : Prop := mkGoodPull {
  pull_path : HPath r = EnrollmentSnapshotPublicationPath /\ HRawPath r = "" /\ HForceQuery r = false;
  pull_query : parseSnapshotAfterQuery (HRawQuery r) = Some after;
  pull_method : HMethod r = "GET";
  pull_tls : validTLSAuthority ParseIP16 EqualFold (Some verifies) r = true;
  pull_bearer : HAuthorization r = "Bearer " +:+ BearerCopy c }.
Lemma graphic_plain c : graphic c = true -> plain c = true.
Proof using. destruct c as [[] [] [] [] [] [] [] []]; vm_compute; done. Qed.
Lemma bearer_graphic c : credential_ok uuid_Parse c -> sall graphic (BearerCopy c) = true.
Proof using.
  intros (Hl&Hb&_&Hp). unfold BearerCopy, intact. rewrite Hl. change (?n =? ?n)%nat with true. cbv iota. rewrite !sall_app, Hp. cbn.
  eapply sall_impl; [|exact (Encode_chars _ Hb)]. intros ch H. destruct ch as [[] [] [] [] [] [] [] []]; (reflexivity || (vm_compute in H; done)).
Qed.
Lemma ready_handler i : readyPrimaryIdentity i = true ->
  primary_role (Installation.Role i) = true
  /\ Identity_IsStalePrimary i || negb (InstallationID_IsValid (InstallationID i)) || negb (NodeID_IsValid (Installation.NodeID i))
     || (LeadershipGeneration i <=? 0)%Z || negb (LatestKnownGeneration i =? LeadershipGeneration i)%Z = false.
Proof using.
  unfold readyPrimaryIdentity. intros H.
  apply andb_true_iff in H as [[[[[H1 H2]%andb_true_iff H3%negb_true_iff]%andb_true_iff H4%Z.ltb_lt]%andb_true_iff H5]%andb_true_iff H6].
  split; [done|]. rewrite H1, H2, H3, H5, (proj2 (Z.leb_gt _ _) H4). done.
Qed.
Lemma good_pull_answered configured store verifies current1 current2 c after r : credential_ok uuid_Parse c -> good_pull verifies c after r ->
  readyPrimaryIdentity current1 = true -> is_Some (ClusterKeyID current1) ->
  serve configured (Some store) (Some verifies) (Some current1) current2 r = answer (handler_max configured) store current2 (BearerCopy c) after.
Proof using.
  intros Hc [(Hp1&Hp2&Hp3) Hq Hm Ht Hb] H1 [key Hkey]. destruct (ready_handler _ H1) as [Hrole Hready]. unfold ServeHTTP. cbv zeta.
  rewrite Hp1, Hp2, Hp3, !String.eqb_refl. cbn [negb orb]. rewrite Hq, Hm, String.eqb_refl. cbn [negb]. rewrite Ht. cbn [negb].
  rewrite Hrole. cbn [negb]. rewrite Hready, Hkey, Hb.
  assert (BearerCopy c <> "") as Hne by (destruct Hc as (Hl&_); unfold BearerCopy, intact; rewrite Hl; done).
  assert (parseSnapshotAuthorization ("Bearer " +:+ BearerCopy c) = Some (BearerCopy c)) as ->.
  { unfold parseSnapshotAuthorization. change (drop_s 7 ("Bearer " +:+ BearerCopy c)) with (BearerCopy c).
    rewrite (proj2 (HasPrefix_spec ("Bearer " +:+ BearerCopy c) "Bearer ")) by (by eexists). apply String.eqb_neq in Hne. rewrite Hne.
    rewrite TrimSpace_plain, String.eqb_refl; [done|]. eapply sall_impl; [exact graphic_plain|]. by apply bearer_graphic. }
  rewrite (proj2 (credential_roundtrip uuid_Parse c (BearerCopy c) Hc) eq_refl). apply String.eqb_neq in Hne. by rewrite Hne.
Qed.
(** The stored rows of a credential whose node is linked. *)
Record linked (t : primary_tables) (c : NodeCredential) (cr : CredentialRow) (n : EnrolledRow) : Prop := mkLinked {
  linked_row : find_first (fun x => c_id x =? cid c) (node_credentials (topo t)) = Some cr;
  linked_node : find_first (fun x => (e_credential x =? c_id cr) && (e_node x =? c_node cr)) (enrolled_nodes (topo t)) = Some n;
  linked_unique : NoDup (map e_node (enrolled_nodes (topo t)));
  linked_hash : c_hash cr = CredentialHash c /\ c_version cr = NodeCredentialHashVersion;
  linked_id : canonicalCredentialID uuid_Parse (c_node cr) = Some (c_node cr);
  linked_live : c_revoked cr = None /\ e_revoked n = None /\ e_unlinked n = None }.
Lemma unlink_credential_id stamp k x : c_id (unlink_credential stamp k x) = c_id x.
Proof using. unfold unlink_credential, revoke_credential. by destruct (c_node x =? k), (c_revoked x). Qed.
Lemma unlink_node_keys stamp k x : e_credential (unlink_node stamp k x) = e_credential x /\ e_node (unlink_node stamp k x) = e_node x.
Proof using. unfold unlink_node. by destruct (e_node x =? k). Qed.
Lemma unlinked_record t clock now node t' at_ c cr n : linked t c cr n -> ParseUUIDLookupText node = Some (c_node cr) ->
  UnlinkEnrolledNode t clock node now = (t', Ok at_) ->
  sqlitePublicationCredential t' (cid c)
  = Some (mkPubCredential (c_id cr) (c_node cr) (c_hash cr) (c_version cr) (Some at_) (Some at_) (Some at_) (e_primary n)).
Proof using.
  intros [Hr Hn Hu _ _ (Hc1&Hn1&Hn2)] Hnode H. apply Unlink_Ok in H as (canonical&stamp&row&Hcan&_&Hrow&Hat&->).
  rewrite Hnode in Hcan. injection Hcan as <-. apply find_first_Some in Hn as Hn'. destruct Hn' as [Hin Hj]. bsimp.
  apply find_first_Some in Hrow as Hrow'. destruct Hrow' as (Hrin&Hrn%String.eqb_eq).
  assert (row = n) as -> by (apply (NoDup_map_unique e_node (enrolled_nodes (topo t))); [done..|congruence]). rewrite Hn2 in Hat. cbn [default from_option id] in Hat.
  assert (sqliteEnqueueTime (Some stamp) = Ok (Some at_)) as Hst.
  { unfold finite_clock in Hat. destruct (sqliteEnqueueTime (Some stamp)) as [[x|]|]; try done. cbn in Hat. by injection Hat as ->. }
  unfold sqlitePublicationCredential. cbn [topo set_nodes set_topo node_credentials enrolled_nodes].
  rewrite unlink_credentials_find by (intros x; by rewrite unlink_credential_id).
  rewrite Hr. cbn [fmap option_fmap option_map mbind option_bind].
  assert (unlink_credential stamp (c_node cr) cr = mkCredentialRow (c_id cr) (c_node cr) (c_hash cr) (c_version cr) (c_created cr) (Some stamp)) as ->.
  { unfold unlink_credential, revoke_credential. by rewrite String.eqb_refl, Hc1. }
  cbn [c_id c_node c_hash c_version c_revoked].
  rewrite unlink_nodes_find by (intros x; by rewrite !(proj1 (unlink_node_keys _ _ _)), !(proj2 (unlink_node_keys _ _ _))).
  rewrite Hn. cbn [fmap option_fmap option_map mbind option_bind]. unfold unlink_node. rewrite Hrn, String.eqb_refl, Hn1, Hn2.
  cbn [e_revoked e_unlinked e_primary default from_option id]. by rewrite Hst.
Qed.

(** C14: Once a primary has unlinked a node, every pull the node makes with its credential, however
    it asks, is answered with the unlink signal, and the node concludes that it was unlinked. *)
Theorem unlink_reaches_node t clock now node t' at_ c cr n clock2 stamp2 configured verifies current1 current2 after r maxBody allow :
  credential_ok uuid_Parse c -> linked t c cr n -> ParseUUIDLookupText node = Some (c_node cr) ->
  UnlinkEnrolledNode t clock node now = (t', Ok at_) ->
  good_pull verifies c after r -> readyPrimaryIdentity current1 = true -> is_Some (ClusterKeyID current1) -> readyPrimaryIdentity current2 = true ->
  (configured <= SnapshotPublicationMaxBytes)%Z -> encodeTime clock2 = Ok stamp2 ->
  exists res, serve configured (Some (read t' clock2)) (Some verifies) (Some current1) (Some current2) r = (res, None)
    /\ told_unlinked maxBody allow res.
Proof using.
  intros Hc Hl Hnode Hun Hpull H1 Hk H2 Hmax Hclk. exists unlinked_response. split; [|apply unlinked_is_told].
  rewrite (good_pull_answered _ _ _ _ _ c after) by done. pose proof (unlinked_record _ _ _ _ _ _ _ _ _ Hl Hnode Hun) as Hrec.
  assert (ParseNodeCredential uuid_Parse (BearerCopy c) = Ok c) as Hp by (by apply credential_roundtrip).
  assert (BearerCopy c <> "") as Hne by (destruct Hc as (Hcl&_); unfold BearerCopy, intact; rewrite Hcl; done).
  assert (cid c <> "") as Hcid by (intros E; destruct Hc as (_&_&Hcc&_); rewrite E in Hcc; done).
  destruct Hl as [Hrow _ _ [Hhash Hver] Hid _]. apply find_first_Some in Hrow as (_&Hcr%String.eqb_eq).
  set (q := mkPubRequest (cid c) (BearerCopy c) after (handler_max configured) (authenticateSnapshotCredential uuid_Parse)).
  assert (0 < handler_max configured <= SnapshotPublicationMaxBytes)%Z as Hm.
  { unfold handler_max. destruct (Z.leb_spec configured 0); [done|lia]. }
  assert (asked (handler_max configured) (Some current2) (mkSnapshotRequest (BearerCopy c) after) = Some q) as Hq.
  { unfold publication_request. cbn [RCredential RAfter]. apply String.eqb_neq in Hne. rewrite Hne.
    rewrite (proj2 (Z.leb_gt _ 0)) by lia. rewrite (proj2 (Z.ltb_ge _ (handler_max configured))) by (unfold DefaultSnapshotPublicationMaxBytes; lia).
    cbn [orb mbind option_bind]. by rewrite H2, Hp. }
  assert (canonicalCredentialID uuid_Parse (cid c) = Some (cid c)) as Hcan by apply Hc.
  assert (forall rev, AuthenticateNodeCredential uuid_Parse (BearerCopy c)
    (Some (mkCredentialRecord (c_id cr) (c_node cr) (c_hash cr) (c_version cr) rev))
    = match rev with None => Ok (mkPrincipal (c_node cr) (cid c)) | Some _ => Err ErrNodeCredentialDenied end) as Hauth.
  { intros rev. unfold AuthenticateNodeCredential. rewrite Hp. cbn [CRID CRNodeID CRHash CRHashVersion CRRevokedAt]. rewrite Hcr, Hcan, Hid, Hver, !String.eqb_refl.
    cbn [negb orb]. destruct rev; [by rewrite bool_decide_eq_true_2 by eauto|]. rewrite bool_decide_eq_false_2 by (by intros [? ?]).
    rewrite Hhash, stored_hash by (unfold intact; by rewrite (proj1 Hc)). by rewrite bool_decide_eq_true_2. }
  set (record := mkPubCredential (c_id cr) (c_node cr) (c_hash cr) (c_version cr) (Some at_) (Some at_) (Some at_) (e_primary n)).
  assert (QAuthenticate q (QPresented q) record = None) as Hdenied.
  { cbn [QAuthenticate QPresented q]. unfold authenticateSnapshotCredential. cbn [PCRevokedAt PCNodeRevokedAt PCID PCNodeID PCHash PCHashVersion record fmap option_fmap option_map].
    by rewrite Hauth. }
  assert (read t' clock2 q = (Some record, Err ErrSnapshotPublicationStore)) as Hread.
  { unfold ReadSnapshotPublication. cbn [QCredentialID QPresented QMaxBytes q]. apply String.eqb_neq in Hne, Hcid. rewrite Hne, Hcid.
    rewrite (proj2 (Z.leb_gt _ 0)) by lia. rewrite (proj2 (Z.ltb_ge _ (handler_max configured))) by lia. cbn [orb]. rewrite Hclk.
    unfold readPublication. change (QCredentialID q) with (cid c). rewrite Hrec. fold record. unfold authorized. by rewrite Hdenied. }
  unfold respond. cbv zeta. unfold Publish. rewrite Hq, Hread. cbn [snd]. unfold observed. cbn [fst]. rewrite Hdenied.
  cbn [revoked unlinked authenticated principalNodeID andb PCRevokedAt PCNodeRevokedAt record is_null negb orb].
  assert (nodeUnlinkedForSecretHolder uuid_Parse (QPresented q) record = true) as ->; [|done].
  unfold nodeUnlinkedForSecretHolder. cbn [PCNodeUnlinkedAt PCID PCNodeID PCHash PCHashVersion record QPresented q]. by rewrite Hauth.
Qed.

(** ** What is served *)
(** The row the tables publish: the newest of the primary, with its terminal proof. *)
Definition publishes (t : primary_tables) (a : AppliedRow) : Prop :=
  (exists r, identity_row (topo t) = Some r /\ p_primary a = i_installation r /\ p_generation a = i_leadership r)
  /\ newest_row t (p_primary a) = Some a /\ proof_complete t a = true.
Lemma candidate_row t q primary kek s : read_candidate uuid_text float_text accept t q primary kek = Some s ->
  NoDup (map p_id (applied_snapshots t)) ->
  exists a env, newest_row t primary = Some a /\ proof_complete t a = true /\ PContentHash s = p_hash a /\ PSourcePrimaryID s = p_primary a
    /\ PGeneration s = p_generation a /\ p_body a = Some (PBytes s) /\ PBytes s <> ""
    /\ Unmarshal uuid_text float_text (PBytes s) = Ok env /\ OK (Validator_Validate (NewValidator (Some kek)) accept env) = true.
Proof using.
  intros H Hnd. unfold read_candidate, sqliteLatestSnapshotPublication in H. destruct (newest_row t primary) as [a|] eqn:Ea; [|done].
  cbn [fmap option_fmap option_map] in H. destruct (publication_of t a) as [[candidate size]|] eqn:Ep; [|done].
  apply bind_Ok in Ep as (at_&_&Ep). apply bind_Ok in Ep as (d&_&Ep). injection Ep as <- <-.
  cbn [PProofComplete PSnapshotID] in H. destruct (_ || _ || _) eqn:E1 in H; [done|]. bsimp.
  destruct (find_first _ _) as [row|] eqn:Er; [|done]. cbn [mbind option_bind] in H.
  apply find_first_Some in Er as (Hin&Hid%String.eqb_eq).
  pose proof (proj1 (newest_row_Some _ _ _ Ea)) as Hain.
  assert (row = a) as -> by (apply (NoDup_map_unique p_id (applied_snapshots t)); done).
  destruct (p_body a) as [raw|] eqn:Eb; [|done]. cbn [mbind option_bind] in H. destruct (_ || _ || _) eqn:E2 in H; [done|]. bsimp.
  destruct (Unmarshal _ _ raw) as [env|] eqn:Eu; [|done]. destruct (OK _) eqn:Eok; [|done]. injection H as <-.
  exists a, env. by repeat split.
Qed.
Lemma publication_row t clock q seen p : (read t clock q) = (seen, Ok p) -> NoDup (map p_id (applied_snapshots t)) ->
  exists a env kek record principal r, newest_row t (p_primary a) = Some a /\ proof_complete t a = true /\ identity_row (topo t) = Some r
    /\ p_primary a = i_installation r
    /\ PContentHash (RSnapshot p) = p_hash a /\ PSourcePrimaryID (RSnapshot p) = p_primary a /\ PGeneration (RSnapshot p) = p_generation a
    /\ (exists body, p_body a = Some body /\ body <> "" /\ Unmarshal uuid_text float_text body = Ok env
         /\ OK (Validator_Validate (NewValidator (Some kek)) accept env) = true
         /\ (if RCurrent p then PBytes (RSnapshot p) = "" /\ QAfter q = p_hash a else PBytes (RSnapshot p) = body))
    /\ PILeadership (RIdentity p) = i_leadership r
    /\ seen = Some record /\ sqlitePublicationCredential t (QCredentialID q) = Some record /\ QAuthenticate q (QPresented q) record = Some principal
    /\ PCPrimaryID record = i_installation r.
Proof using.
  intros H Hnd. unfold ReadSnapshotPublication in H. destruct (_ || _ || _ || _) in H; [done|]. destruct (encodeTime clock) as [stamp|]; [|done].
  unfold readPublication in H. destruct (sqlitePublicationCredential t (QCredentialID q)) as [record|] eqn:Ec; [|done].
  destruct (authorized _ _ _ _ _ _ _ _) as [p'|] eqn:Ea; [|done]. injection H as <- <-. unfold authorized in Ea.
  destruct (QAuthenticate q (QPresented q) record) as [principal|] eqn:Eq; [|done]. cbn [mbind option_bind] in Ea.
  destruct (_ || _) eqn:E1 in Ea; [done|]. destruct (_ && _) eqn:E2 in Ea; [done|].
  destruct (sqlitePublicationIdentity uuid_Parse t) as [identity|] eqn:Ei; [|done]. cbn [mbind option_bind] in Ea.
  destruct (_ || _) eqn:E3 in Ea; [done|]. apply orb_false_iff in E3 as [_ E3%negb_false_iff%String.eqb_eq].
  destruct (PIKey identity) as [key|]; [|done]. cbn [mbind option_bind] in Ea. destruct (loaded_kek master t key) as [kek|]; [|done]. cbn [mbind option_bind] in Ea.
  destruct (read_candidate _ _ _ _ _ _ _) as [s|] eqn:Es; [|done]. cbn [mbind option_bind] in Ea. injection Ea as <-.
  destruct (candidate_row _ _ _ _ _ Es Hnd) as (a&env&Hnew&Hpc&Hh&Hp&Hg&Hb&Hne&Hu&Hok).
  unfold sqlitePublicationIdentity in Ei. destruct (identity_row (topo t)) as [r|]; [|done]. cbn [mbind option_bind] in Ei.
  destruct (match i_key r with None => _ | Some _ => _ end) as [k|]; [|done]. cbn [mbind option_bind] in Ei. injection Ei as <-. cbn [PIInstallationID] in E3.
  assert (p_primary a = i_installation r) as Hpr by (apply newest_row_Some in Hnew as (_&->&_); done).
  exists a, env, kek, record, principal, r. rewrite E3 in Hnew. rewrite <- Hpr in Hnew. cbn [RCurrent RSnapshot RIdentity].
  destruct (negb (QAfter q =? "") && (QAfter q =? PContentHash s)) eqn:Ecur; cbn [with_bytes PContentHash PSourcePrimaryID PGeneration PBytes];
    repeat (split; [done|]); (split; [|by repeat split]); exists (PBytes s); repeat (split; [done|]); [|done].
  apply andb_true_iff in Ecur as [_ Ecur%String.eqb_eq]. congruence.
Qed.

Lemma enqueue_null o : sqliteEnqueueTime o = Ok None -> o = None.
Proof using.
  unfold sqliteEnqueueTime. destruct (DecodeTimestamp o) as [[| | |x n]|] eqn:E; try done; [|by destruct (_ || _)].
  apply Encode_Decode in E as [_ E]. by injection E.
Qed.
Lemma canonical_self x y : canonicalCredentialID uuid_Parse x = Some y -> x = y /\ x <> "".
Proof using.
  unfold canonicalCredentialID. destruct (negb _ || negb _) eqn:E; [done|]. intros H. assert (x <> "") as Hne by (by intros ->).
  split; [|done]. destruct (uuid_Parse x) as [p|]; [|done]. cbn [mbind option_bind] in H. destruct (_ || _) eqn:E2 in H; [done|].
  apply orb_false_iff in E2 as [_ E2%negb_false_iff%String.eqb_eq]. congruence.
Qed.
(** The rows behind an authenticated pull. *)
Definition pulled_by (t : primary_tables) (c : NodeCredential) (cr : CredentialRow) (n : EnrolledRow) : Prop :=
  cr ∈ node_credentials (topo t) /\ c_id cr = cid c /\ canonicalCredentialHash (c_hash cr) = Some (nodeCredentialDigest (secret c)) /\ c_revoked cr = None
  /\ n ∈ enrolled_nodes (topo t) /\ e_credential n = c_id cr /\ e_node n = c_node cr /\ e_revoked n = None.
Lemma authenticated_rows t c record principal : ParseNodeCredential uuid_Parse (BearerCopy c) = Ok c ->
  sqlitePublicationCredential t (cid c) = Some record -> authenticateSnapshotCredential uuid_Parse (BearerCopy c) record = Some principal ->
  exists cr n, pulled_by t c cr n /\ PCPrimaryID record = e_primary n /\ PNodeID principal = c_node cr /\ c_node cr <> "".
Proof using.
  intros Hp Ec Ha. unfold sqlitePublicationCredential in Ec.
  destruct (find_first (fun x => c_id x =? cid c) _) as [cr|] eqn:Ecr; [|done]. cbn [mbind option_bind] in Ec.
  destruct (find_first _ (enrolled_nodes (topo t))) as [n|] eqn:En; [|done]. cbn [mbind option_bind] in Ec.
  destruct (sqliteEnqueueTime (c_revoked cr)) as [x|] eqn:Ex; [|done]. destruct (sqliteEnqueueTime (e_revoked n)) as [y|] eqn:Ey; [|done].
  destruct (sqliteEnqueueTime (e_unlinked n)) as [u|]; [|done]. injection Ec as <-.
  unfold authenticateSnapshotCredential in Ha. cbn [PCRevokedAt PCNodeRevokedAt PCID PCNodeID PCHash PCHashVersion] in Ha.
  destruct (AuthenticateNodeCredential _ _ _) as [p|] eqn:Eauth; [|done]. injection Ha as <-.
  apply Authenticate_iff in Eauth as (c'&Hc'&_&_&Hn&_&_&Hrev&Hh). assert (c' = c) as -> by congruence. cbn [CRRevokedAt CRHash CRNodeID] in *.
  destruct x as [x|]; [done|]. destruct y as [y|]; [done|]. apply enqueue_null in Ex, Ey.
  apply find_first_Some in Ecr as (Hcr&Hid%String.eqb_eq). apply find_first_Some in En as (Hin&[Hj1%String.eqb_eq Hj2%String.eqb_eq]%andb_true_iff).
  apply canonical_self in Hn as [Hn1 Hn2]. exists cr, n. by repeat split.
Qed.
Lemma checked_Ok q current p result : checked_publication uuid_Parse uuid_text float_text accept q current p = Ok result ->
  PContentHash (RSnapshot p) <> "" /\ PAppliedAt (RSnapshot p) <> zero_time
  /\ PGeneration (RSnapshot p) = PILeadership (RIdentity p)
  /\ SRMetadata result = toSnapshotMetadata (RSnapshot p) /\ SRCurrent result = RCurrent p /\ SRBytes result = (if RCurrent p then "" else PBytes (RSnapshot p))
  /\ (RCurrent p = false -> PBytes (RSnapshot p) <> ""
      /\ exists env, Unmarshal uuid_text float_text (PBytes (RSnapshot p)) = Ok env /\ VerifyHash env = Ok tt /\ ContentHash env = PContentHash (RSnapshot p)).
Proof using.
  unfold checked_publication. cbv zeta. destruct (_ || _) eqn:E1; [done|].
  apply orb_false_iff in E1 as [[[[[E1 Hm%negb_false_iff]%orb_false_iff _]%orb_false_iff Hv%negb_false_iff]%orb_false_iff _]%orb_false_iff Hg%negb_false_iff%Z.eqb_eq].
  assert (PContentHash (RSnapshot p) <> "" /\ PAppliedAt (RSnapshot p) <> zero_time) as [Hh Hat].
  { unfold validSnapshotMetadata in Hv. apply andb_true_iff in Hv as [Hv Hat%negb_true_iff%bool_decide_eq_false]. split; [|done].
    intros E. rewrite E in Hv. by rewrite !andb_false_r in Hv. }
  assert (PGeneration (RSnapshot p) = PILeadership (RIdentity p)) as Hgen.
  { unfold matchingPrimaryIdentity in Hm. apply andb_true_iff in Hm as [[[_ Hm%Z.eqb_eq]%andb_true_iff _]%andb_true_iff _]. congruence. }
  destruct (RCurrent p).
  - match goal with |- (if ?b then _ else _) = _ -> _ => destruct b; [done|] end. intros H; injection H as <-. by repeat split.
  - match goal with |- (if ?b then _ else _) = _ -> _ => destruct b; [done|] end.
    match goal with |- (if ?b then _ else _) = _ -> _ => destruct b eqn:E2; [done|] end. intros H; injection H as <-. repeat (split; [done|]). intros _.
    apply orb_false_iff in E2 as [[E2%String.eqb_neq _]%orb_false_iff E3%negb_false_iff]. split; [done|].
    unfold validSnapshotEnvelope in E3. destruct (Unmarshal _ _ _) as [env|]; [|done]. destruct (Envelope_Validate env) as [[]|] eqn:Ev; [|done].
    destruct (CheckCompatibility _ _); [|done]. destruct (ExpectedHash env); [|done]. exists env. split; [done|]. split.
    + unfold Envelope_Validate in Ev. do 4 (apply bind_Ok in Ev as (?&_&Ev)). done.
    + do 8 (apply andb_true_iff in E3 as [E3 _]). apply andb_true_iff in E3 as [_ E3]. by apply String.eqb_eq.
Qed.

(** C13: A snapshot is served, or declared current, only to the holder of a stored credential that
    is not revoked; it is the newest row of this primary, of its current generation, with the
    terminal proof of its revision and job; the bytes are the row's, decode and verify, and
    the node is recorded as seen. *)
Theorem served_is_newest_applied t clock configured certificate current1 current2 r res beat :
  NoDup (map p_id (applied_snapshots t)) ->
  serve configured (Some (read t clock)) certificate current1 current2 r = (res, beat) -> Status res = 200%Z \/ Status res = 304%Z ->
  exists a c cr n, publishes t a /\ HAuthorization r = "Bearer " +:+ BearerCopy c /\ pulled_by t c cr n /\ e_primary n = p_primary a
    /\ beat = Some (c_node cr) /\ RHashHeader res = p_hash a
    /\ (Status res = 304%Z -> RBody res = "" /\ parseSnapshotAfterQuery (HRawQuery r) = Some (p_hash a))
    /\ (Status res = 200%Z -> p_body a = Some (RBody res)
        /\ exists env, Unmarshal uuid_text float_text (RBody res) = Ok env /\ VerifyHash env = Ok tt /\ ContentHash env = p_hash a).
Proof using.
  intros Hnd H Hst. apply ServeHTTP_cases in H as [(_&status&Hs&->)|(c&after&s&[= <-]&Hp&Ha&Hq&H)].
  { exfalso. cbn in Hst. destruct Hst; subst status; revert Hs; by apply (bool_decide_unpack _). }
  unfold respond in H. cbv zeta in H. unfold Publish in H.
  destruct (asked _ _ _) as [q|] eqn:Eq; [|injection H as <- _; by destruct Hst].
  apply asked_parts in Eq as (->&_&i&->&_); [|done].
  set (q := mkPubRequest _ _ _ _ _) in *. destruct (read t clock q) as [seen [p|e]] eqn:Er; cbn [snd] in H.
  2:{ exfalso. injection H as <- _. revert Hst. unfold publication_error_response, unlinked_response. repeat case_match; cbn; lia. }
  destruct (checked_publication _ _ _ _ _ _ _) as [result|] eqn:Ech.
  2:{ exfalso. injection H as <- _. revert Hst. unfold publication_error_response, unlinked_response. repeat case_match; cbn; lia. }
  destruct (publication_row t clock q seen p Er Hnd) as (a&env&kek&record&principal&row&Hnew&Hpc&Hrow&Hprim&Hh&_&Hg&(body&Hb&Hne&_&_&Hcur)&Hl&->&Hrec&Hauth&Hpp).
  destruct (checked_Ok _ _ _ _ Ech) as (Hh0&Hat0&Hgen&Hmeta&Hrc&Hrb&Henv).
  destruct (authenticated_rows t c record principal Hp Hrec Hauth) as (cr&n&Hby&Hen&Hnode&Hnne).
  exists a, c, cr, n. split; [split; [exists row; split; [done|]; split; [done|congruence]|by split]|]. split; [done|]. split; [done|]. split; [congruence|].
  unfold observed in H. cbn [fst] in H. rewrite Hauth in H. cbn [authenticated principalNodeID] in H. rewrite Hnode in H.
  apply String.eqb_neq in Hnne. rewrite Hnne in H. cbn [negb andb] in H. rewrite Hrc, Hrb, Hmeta in H.
  assert (forall status text, with_metadata (toSnapshotMetadata (RSnapshot p)) status text
    = mkResponse status text (p_hash a) (rfc3339nano (instant_of (PAppliedAt (RSnapshot p))))) as Hw.
  { intros status text. unfold with_metadata. cbn [MContentHash MAppliedAt toSnapshotMetadata]. apply String.eqb_neq in Hh0. rewrite Hh0.
    rewrite bool_decide_eq_false_2 by done. cbn [orb]. by rewrite Hh. }
  destruct (RCurrent p).
  - injection H as <- <-. rewrite Hw. cbn [Status RBody RHashHeader]. split; [done|]. split; [done|]. split; [|done]. intros _. split; [done|].
    destruct Hcur as [_ Hcur]. cbn [QAfter q] in Hcur. by rewrite Hq, Hcur.
  - rewrite Hcur in *. apply String.eqb_neq in Hne as Hne'. rewrite Hne' in H. injection H as <- <-. rewrite Hw. cbn [Status RBody RHashHeader].
    split; [done|]. split; [done|]. split; [done|]. intros _. split; [done|]. destruct (Henv eq_refl) as (_&env'&H1&H2&H3). exists env'. by rewrite <- Hh.
Qed.

(** ** Producing *)
Hypothesis parse_nonempty : forall s k, uuid_Parse s = Some k -> k <> "".
Local Abbreviation produce := (Produce uuid_Parse uuid_text float_text accept master).
Lemma kek_keeps t stamp e key t' kek : key <> "" -> transaction_kek uuid_Parse master t stamp e key = Ok (t', kek) -> t' = t.
Proof using.
  intros Hkey H. apply bind_Ok in H as ([t1 material]&H1&H). destruct (NewKEK _); [|done]. injection H as <- _.
  unfold LoadOrCreateClusterKEK in H1. apply String.eqb_neq in Hkey. rewrite Hkey in H1. apply bind_Ok in H1 as (active&Ha&H1).
  destruct (uuid_Parse key) as [parsed|]; [|done]. destruct (parsed =? uuid_Nil); [done|]. injection Ha as <-. unfold LoadOrCreateInWrite in H1.
  destruct (loadByID _ _ _) as [m|] eqn:E; cbn [mbind result_bind mret result_ret] in H1; [|done]. cbn [negb] in H1.
  destruct (uuid_Parse (MaterialID m)); [|done]. destruct (_ || _) in H1; [done|]. injection H1 as <- _. by destruct t.
Qed.
Lemma clock_key k at_ : finite_clock k = Ok at_ -> DecodeTimestamp (Some k) = Ok (FiniteTimestamp at_.1 at_.2).
Proof using.
  unfold finite_clock, sqliteEnqueueTime. destruct (DecodeTimestamp (Some k)) as [[| | |s n]|]; try done. destruct (_ || _); [done|]. by intros [= <-].
Qed.
Lemma later_clock ka kb a b : finite_clock ka = Ok a -> finite_clock kb = Ok b -> less_s ka kb = true -> time_before b a = false /\ a <> b.
Proof using.
  intros Ha%clock_key Hb%clock_key Hl. apply Encode_Decode in Ha as [Ta Ea], Hb as [Tb Eb]. pose proof (Encode_order _ _ _ _ Ta Tb Ea Eb) as Hc.
  unfold less_s in Hl. destruct (Compare ka kb); try done.
  symmetry in Hc. change (match Z.compare a.1 b.1 with Eq => Z.compare a.2 b.2 | c => c end = Lt) in Hc.
  assert (a.1 < b.1 \/ a.1 = b.1 /\ a.2 < b.2)%Z as Hlt.
  { destruct (Z.compare_spec a.1 b.1) as [He|He|He]; [|by left|done]. right. split; [done|]. by apply Z.compare_lt_iff. }
  unfold time_before. split; [|intros ->; lia]. destruct Hlt as [Hlt|[Heq Hlt]].
  - rewrite (proj2 (Z.ltb_ge b.1 a.1)), (proj2 (Z.eqb_neq b.1 a.1)) by lia. done.
  - rewrite (proj2 (Z.ltb_ge b.1 a.1)), (proj2 (Z.ltb_ge b.2 a.2)), andb_false_r by lia. done.
Qed.
Lemma lookup_canonical id k : canonical_lookup id = Ok k -> ParseUUIDLookupText id = Some k.
Proof using. unfold canonical_lookup. destruct (ParseUUIDLookupText id); [by intros [= <-]|done]. Qed.
Lemma locked_identity t i : LockPrimaryIdentity uuid_Parse t = Ok i -> exists r, identity_row (topo t) = Some r
  /\ i_installation r = PrInstallationID i /\ i_leadership r = PrLeadership i
  /\ (forall key, PrClusterKeyID i = Some key -> exists text, i_key r = Some text /\ uuid_Parse text = Some key).
Proof using.
  unfold LockPrimaryIdentity. destruct (identity_row (topo t)) as [r|]; [|done]. destruct (_ || _); [done|]. intros H. exists r. split; [done|].
  destruct (i_key r) as [text|]; [destruct (uuid_Parse text) as [key|] eqn:E; [|done]|]; injection H as <-; repeat (split; [done|]); [|done].
  intros k [= <-]. by exists text.
Qed.
Lemma unpublished_job t j stored : is_candidate t j = true -> ParseUUIDLookupText (j_id j) = Some (j_id j) ->
  FindCanonicalSnapshotForJob t (j_id j) = Ok (Some stored) -> ArDiscardedAt stored = None -> ArStatus stored = "applied" -> is_Some (ArBody stored) -> False.
Proof using.
  intros Hc Hp H Hd Hs Hb. unfold FindCanonicalSnapshotForJob, canonical_lookup in H. rewrite Hp in H. cbn [mbind result_bind] in H.
  destruct (head _) as [a|] eqn:Eh; [|done]. apply head_Some_elem_of in Eh. rewrite SliceStable_perm in Eh. apply list_elem_of_In, filter_In in Eh as [Hin Ht].
  apply bind_Ok in H as (x&Hx&H). injection H as ->. apply bind_Ok in Hx as (at_&_&Hx). apply bind_Ok in Hx as (dis&Hdis&Hx). injection Hx as <-.
  cbn in Hd, Hs, Hb. subst dis. apply from_store_Ok, enqueue_null in Hdis. unfold is_candidate, published_for in Hc.
  apply andb_true_iff in Hc as [[_ Hc]%andb_true_iff _]. apply negb_true_iff in Hc. enough (existsb (fun a => is_text (p_job a) (j_id j) && live_row a) (applied_snapshots t) = true) by congruence.
  apply existsb_exists. exists a. split; [done|]. unfold live_row. rewrite Ht, Hs, Hdis. cbn. by destruct Hb as [b ->].
Qed.
(** What a successful run of a waiting job writes. *)
Lemma produce_publishes d t t' j k : is_candidate t j = true -> ParseUUIDLookupText (j_id j) = Some (j_id j) -> NoDup (map j_id (apply_jobs (tables_core t))) ->
  j ∈ apply_jobs (tables_core t) -> j_finished j = Some k -> produce d t (j_id j) = (t', Ok tt) ->
  exists r env w finished, identity_row (topo t) = Some r /\ is_Some (text ← i_key r; uuid_Parse text) /\ PublishCanonicalSnapshot uuid_Parse t w = Ok t'
    /\ finite_clock k = Ok finished /\ CwAppliedAt w = finished /\ CwSourcePrimaryID w = i_installation r /\ CwGeneration w = i_leadership r
    /\ CwApplyJobID w = j_id j /\ CwContentHash w = ContentHash env /\ CwBody w = Marshal env /\ Marshal env <> "" /\ Envelope_Validate env = Ok tt.
Proof using parse_nonempty.
  intros Hc Hp Hnd Hin Hfin H. unfold Produce in H. destruct (j_id j =? ""); [done|]. apply Write_Ok in H as (stamp&_&H). unfold produce_in in H.
  apply bind_Ok in H as (identity&Hi&H). apply bind_Ok in H as ([]&_&H). apply bind_Ok in H as (ap&Hap&H). apply bind_Ok in H as ([]&_&H).
  destruct (locked_identity _ _ Hi) as (r&Hr&Hinst&Hlead&Hkey). destruct (PrClusterKeyID identity) as [key|]; [|done].
  destruct (Hkey key eq_refl) as (text&Htext&Hparse).
  apply bind_Ok in H as ([t1 kek]&Hkek&H). apply kek_keeps in Hkek as ->; [|by apply (parse_nonempty text)]. apply bind_Ok in H as (stored&Hst&H). cbv zeta in H.
  unfold GetCanonicalSnapshotApply, canonical_lookup in Hap. rewrite Hp in Hap. cbn [mbind result_bind] in Hap.
  assert (find_first (fun x => j_id x =? j_id j) (apply_jobs (tables_core t)) = Some j) as Hj.
  { destruct (find_first _ _) as [x|] eqn:E.
    - apply find_first_Some in E as (Hx&Hxj%String.eqb_eq). f_equal. by apply (NoDup_map_unique j_id (apply_jobs (tables_core t))).
    - apply find_first_None in E. rewrite Forall_forall in E. specialize (E j Hin). by rewrite String.eqb_refl in E. }
  rewrite Hj in Hap. cbn [mbind option_bind] in Hap. destruct (find_first _ (config_revisions _)) as [rev|]; [|done]. cbn [mbind option_bind] in Hap.
  apply bind_Ok in Hap as (fin&Hfin'&Hap). apply bind_Ok in Hap as (applied&_&Hap). injection Hap as <-. cbn [CaFinishedAt CaRevisionID CaJobID] in H.
  apply from_store_Ok in Hfin'. rewrite Hfin in Hfin'.
  destruct (_ ≫= _) as [live|] eqn:El in H.
  - exfalso. destruct stored as [e|]; [|done]. cbn [mbind option_bind] in El. destruct (is_null (ArDiscardedAt e)) eqn:Ed; [|done]. injection El as ->.
    apply bind_Ok in H as ([]&He&_). unfold ensure in He. destruct (_ && _) eqn:Ev in He; [|done]. apply andb_true_iff in Ev as [_ Ev].
    unfold canonicalPublicationIsValid in Ev. destruct (ArBody live) as [b|] eqn:Eb; [|done]. do 5 (apply andb_true_iff in Ev as [Ev _]).
    apply String.eqb_eq in Ev. apply (unpublished_job t j live); [done..| |done|by rewrite Eb]. by destruct (ArDiscardedAt live).
  - destruct fin as [finished|]; [|done]. apply bind_Ok in H as ([env body]&Henv&H). apply bind_Ok in H as (t2&Hpub&H). injection H as <-.
    assert (finite_clock k = Ok finished) as Hk by (unfold finite_clock; by rewrite Hfin').
    unfold export_envelope in Henv. destruct (UnmarshalConfiguration _ _) as [desired|]; [|done].
    apply bind_Ok in Henv as (env'&_&Henv). apply bind_Ok in Henv as ([]&Hval&Henv). apply bind_Ok in Henv as ([]&_&Henv). cbv zeta in Henv.
    apply bind_Ok in Henv as ([]&Hne&Henv). injection Henv as -> <-. unfold ensure in Hne. destruct (_ && _) eqn:En in Hne; [|done].
    apply andb_true_iff in En as [En%negb_true_iff%String.eqb_neq _]. exists r, env. eexists _, finished. split; [done|]. split; [rewrite Htext; cbn; by rewrite Hparse|].
    split; [exact Hpub|]. cbn [CwAppliedAt CwSourcePrimaryID CwGeneration CwApplyJobID CwContentHash CwBody]. repeat (split; [done|]).
    by destruct (Envelope_Validate env) as [[]|].
Qed.

(** C16: When producing a waiting job succeeds, and the job finished after every apply published so
    far, its snapshot is what the primary publishes from then on: the newest row, of the
    current generation and with a complete proof, holds a valid envelope of that hash, and the
    hash the primary announces is that of this row. *)
Theorem newest_apply_is_published d t t' j k clock stamp : primary_keys t ->
  is_candidate t j = true -> ParseUUIDLookupText (j_id j) = Some (j_id j) -> j ∈ apply_jobs (tables_core t) -> j_finished j = Some k ->
  (forall x, x ∈ applied_snapshots t -> less_s (p_at x) k = true) ->
  produce d t (j_id j) = (t', Ok tt) -> encodeTime clock = Ok stamp ->
  exists a env, publishes t' a /\ p_job a = Some (j_id j) /\ p_at a = k /\ p_body a = Some (Marshal env)
    /\ Envelope_Validate env = Ok tt /\ p_hash a = ContentHash env
    /\ LatestPublishedContentHash uuid_Parse t' clock = Ok (Some (p_hash a)).
Proof using parse_nonempty.
  intros Hkeys Hc Hp Hin Hfin Hall H Hclk.
  destruct (produce_publishes _ _ _ _ _ Hc Hp (job_keys _ Hkeys) Hin Hfin H) as (r&env&w&finished&Hr&Hkey&Hpub&Hk&Hat&Hinst&Hgen&Hjob&Hh&Hb&Hne&Hval).
  destruct (Publish_cases uuid_Parse t w t' Hkeys Hpub) as [(_&b&e&Hbin&Hbh&Hbe&Hsup)|(a&k'&Hk'&Ha&(Hain&Hah&Hoth&Hu)&Hproof&Hid&_)].
  - exfalso. apply bind_Ok in Hbe as (tb&Htb&Hbe). apply bind_Ok in Hbe as (dis&_&Hbe). injection Hbe as <-.
    apply from_store_Ok in Htb. destruct (later_clock _ _ _ _ Htb Hk (Hall b Hbin)) as [Hl1 Hl2].
    unfold supersedes in Hsup. cbn [ArDiscardedAt ArAppliedAt] in Hsup. rewrite Hat in Hsup.
    destruct (sqliteCanonicalSnapshotMatches _ _) eqn:Em.
    + unfold sqliteCanonicalSnapshotMatches in Em. apply andb_true_iff in Em as [Em _]. apply andb_true_iff in Em as [_ Em%bool_decide_eq_true].
      cbn [ArAppliedAt] in Em. congruence.
    + destruct (negb _); [done|]. rewrite Hl1 in Hsup. by rewrite bool_decide_eq_false_2 in Hsup by congruence.
  - assert (k' = k) as -> by (rewrite Hat in Hk'; apply finite_clock_encode in Hk; congruence).
    assert (newest_row t' (p_primary a) = Some a) as Hnew.
    { apply newest_row_is; [done|]. intros x Hx _. destruct (decide (p_hash x = CwContentHash w)) as [E|E]; [left; by apply Hu|right].
      assert (In x (other_hashes (CwContentHash w) (applied_snapshots t'))) as Hxo.
      { apply filter_In. split; [by apply list_elem_of_In|]. apply String.eqb_neq in E. by rewrite E. }
      rewrite Hoth in Hxo. apply filter_In in Hxo as [Hxo _]. rewrite Ha. cbn [p_at written_row]. by apply Hall, list_elem_of_In. }
    exists a, env. rewrite Ha. cbn [p_job p_at p_body p_hash written_row p_primary]. rewrite <- Ha, Hjob, Hb, Hh.
    assert (p_primary a = i_installation r) as Hap by (by rewrite Ha).
    assert (p_generation a = i_leadership r) as Hag by (by rewrite Ha).
    split; [split; [exists r; by rewrite Hid|by split]|]. repeat (split; [done|]).
    unfold LatestPublishedContentHash. rewrite Hclk. unfold sqlitePublicationIdentity. rewrite Hid, Hr. cbn [mbind option_bind].
    destruct (i_key r) as [text|]; [|by destruct Hkey]. cbn [mbind option_bind] in Hkey. destruct Hkey as [kk Hkk]. rewrite Hkk. cbn [mbind option_bind PIInstallationID PILeadership].
    unfold sqliteLatestSnapshotPublication. rewrite <- Hap, Hnew. cbn [fmap option_fmap option_map]. unfold publication_of. rewrite Hproof.
    rewrite Ha. cbn [p_at written_row p_discarded p_body]. rewrite Hk. cbn [mbind result_bind sqliteEnqueueTime DecodeTimestamp mret result_ret PProofComplete PDiscardedAt PGeneration PContentHash is_null p_hash p_generation written_row andb].
    rewrite Hb, Hh, Hgen, Z.eqb_refl, andb_true_r. by destruct (Marshal env).
Qed.
End pull.
