(* ===== verification/Bootstrap.v ===== *)
(** * The sealed bootstrap of an enrollment (enrollment/bootstrap.go, bootstrap_secrets.go, bootstrap_wire.go)

    A primary seals a node's credential and the cluster key to the node's ephemeral X25519
    key, with the binding of the exchange as associated data. The key agreement of crypto/ecdh
    is a parameter: the public key of a private key, and the shared secret, which is refused
    for a public key of low order. HKDF, AES-GCM, base64 and the JSON texts are computed. *)

From S2P Require Import Prelude GoStrings StrFacts Json JsonFacts JsonText JsonRead RProxy Timestamp Model Sha256 AesGcm Kek Snapshot SnapshotText Credentials.
From stdpp Require Import options.

Definition BootstrapProtocolVersion : Z := 1.
Definition BootstrapRecipientKeyVersion : Z := BootstrapProtocolVersion.
Definition BootstrapEnvelopeVersion : Z := BootstrapProtocolVersion.
Definition bootstrapGrantPlaintextVersionV2 : Z := 2.
Definition bootstrapCredentialBytes : nat := 32.
Definition bootstrapKEKBytes : nat := 32.
Definition bootstrapNonceBytes : nat := 12.
Definition bootstrapPublicKeyBytes : nat := 32.
Definition bootstrapMaxBindingStringBytes : Z := 256.
Definition bootstrapGrantStringCountV2 : Z := 6.
Definition bootstrapPlaintextFixedBytes : Z := 4 + 4 + 32 + 32 + 8 + 8.
Definition bootstrapPlaintextMinBytes : Z := bootstrapPlaintextFixedBytes + bootstrapGrantStringCountV2 * 4.
Definition bootstrapPlaintextMaxBytes : Z := bootstrapPlaintextFixedBytes + bootstrapGrantStringCountV2 * (4 + bootstrapMaxBindingStringBytes).
Definition bootstrapCiphertextMinBytes : Z := bootstrapPlaintextMinBytes + 16.
Definition bootstrapCiphertextMaxBytes : Z := bootstrapPlaintextMaxBytes + 16.
Definition bootstrapMaxWireBytesV2 : Z := 4096.
Definition bootstrapBindingDomain : string := "proxycore/enrollment/bootstrap/aad/v1".
Definition bootstrapHKDFInfo : string := "proxycore/enrollment/bootstrap/seal-to-recipient/v1".

Inductive bootstrap_error : Type := ErrBootstrapDenied | ErrBootstrapPersistence.
#[global] Instance bootstrap_error_eq_dec : EqDecision bootstrap_error. Proof. solve_decision. Defined.
Abbreviation booted := (result bootstrap_error).
Definition granted_or {A} (o : option A) : booted A := match o with Some a => Ok a | None => Err ErrBootstrapDenied end.
(** The length of a byte slice. *)
Definition blen (l : list Z) : Z := Z.of_nat (length l).

Record BootstrapBinding := mkBootstrapBinding {
  BProtocol : Z; BAttemptID : string; BSourcePrimary : string; BTargetInstallation : string; BTargetNode : string;
  BGeneration : Z; BDigest : list Z }.
Record BootstrapGrantMetadata := mkGrantMetadata {
  GProtocol : Z; GCredentialID : string; GClusterKeyID : string; GSourcePrimary : string; GTargetInstallation : string;
  GTargetNode : string; GAttemptID : string; GGeneration : Z; GExpiresAtUnix : Z }.
Record BootstrapGrant := mkBootstrapGrant { GMetadata : BootstrapGrantMetadata; GNodeCredential : list Z; GClusterKEK : list Z }.
Record BootstrapRecipientPublicKey := mkRecipientKey { RKVersion : Z; RKKey : list Z }.

(** ** The grant and its binding (bootstrap_secrets.go) *)
Definition validBootstrapIdentifier (value : string) : bool :=
  (0 <? slen value)%Z && (slen value <=? bootstrapMaxBindingStringBytes)%Z && utf8b value.
Definition metadata_validate (m : BootstrapGrantMetadata) : bool :=
  (GProtocol m =? BootstrapProtocolVersion)%Z && negb (GGeneration m =? 0)%Z && (0 <? GExpiresAtUnix m)%Z
  && forallb validBootstrapIdentifier
       [GCredentialID m; GClusterKeyID m; GSourcePrimary m; GTargetInstallation m; GTargetNode m; GAttemptID m].
Definition validateShape (g : BootstrapGrant) : bool :=
  metadata_validate (GMetadata g) && (length (GNodeCredential g) =? bootstrapCredentialBytes)%nat
  && (length (GClusterKEK g) =? bootstrapKEKBytes)%nat.
Definition validateBootstrapBinding (b : BootstrapBinding) : bool :=
  (BProtocol b =? BootstrapProtocolVersion)%Z && negb (BGeneration b =? 0)%Z && (length (BDigest b) =? 32)%nat
  && forallb (fun v => negb (slen v =? 0)%Z && (slen v <=? bootstrapMaxBindingStringBytes)%Z && utf8b v)
       [BAttemptID b; BSourcePrimary b; BTargetInstallation b; BTargetNode b].
Definition validateBinding (g : BootstrapGrant) (b : BootstrapBinding) : bool :=
  let m := GMetadata g in
  validateBootstrapBinding b && validateShape g && (GProtocol m =? BProtocol b)%Z && (GSourcePrimary m =? BSourcePrimary b)
  && (GTargetInstallation m =? BTargetInstallation b) && (GTargetNode m =? BTargetNode b) && (GAttemptID m =? BAttemptID b)
  && (GGeneration m =? BGeneration b)%Z.
Definition NewBootstrapGrant (m : BootstrapGrantMetadata) (credential clusterKEK : list Z) : booted BootstrapGrant :=
  let grant := mkBootstrapGrant m credential clusterKEK in
  ensure (validateShape grant) ErrBootstrapDenied;; mret grant.

Definition appendBootstrapLengthPrefixed (dst value : list Z) : list Z := dst ++ be_bytes 4 (blen value) ++ value.
Definition CanonicalBytes (b : BootstrapBinding) : booted (list Z) :=
  ensure (validateBootstrapBinding b) ErrBootstrapDenied;;
  let bytes := appendBootstrapLengthPrefixed [] (bytes_of bootstrapBindingDomain) ++ be_bytes 4 (BProtocol b) in
  let bytes := foldl (fun bytes v => appendBootstrapLengthPrefixed bytes (bytes_of v)) bytes
                 [BAttemptID b; BSourcePrimary b; BTargetInstallation b; BTargetNode b] in
  mret (appendBootstrapLengthPrefixed (bytes ++ be_bytes 8 (BGeneration b)) (BDigest b)).

Definition encodeBootstrapGrantPlaintext (g : BootstrapGrant) : booted (list Z) :=
  ensure (validateShape g) ErrBootstrapDenied;;
  let m := GMetadata g in
  let bytes := be_bytes 4 bootstrapGrantPlaintextVersionV2 ++ be_bytes 4 (GProtocol m) in
  let bytes := appendBootstrapLengthPrefixed bytes (bytes_of (GCredentialID m)) ++ GNodeCredential g in
  let bytes := appendBootstrapLengthPrefixed bytes (bytes_of (GClusterKeyID m)) ++ GClusterKEK g in
  let bytes := foldl (fun bytes v => appendBootstrapLengthPrefixed bytes (bytes_of v)) bytes
                 [GSourcePrimary m; GTargetInstallation m; GTargetNode m; GAttemptID m] in
  let bytes := bytes ++ be_bytes 8 (GGeneration m) ++ be_bytes 8 (uint64_of (GExpiresAtUnix m)) in
  ensure ((bootstrapPlaintextMinBytes <=? blen bytes)%Z && (blen bytes <=? bootstrapPlaintextMaxBytes)%Z) ErrBootstrapDenied;;
  mret bytes.

(** The reader: what is left of the slice is its state. *)
Definition read_fixed (size : nat) (l : list Z) : option (list Z * list Z) :=
  if (length l <? size)%nat then None else Some (take size l, drop size l).
Definition read_uint (size : nat) (l : list Z) : option (Z * list Z) := '(v, l) ← read_fixed size l; Some (of_bytes v, l).
Definition read_identifier (l : list Z) : option (string * list Z) :=
  '(n, l) ← read_uint 4 l;
  if (n =? 0)%Z || (bootstrapMaxBindingStringBytes <? n)%Z then None else
  '(v, l) ← read_fixed (Z.to_nat n) l;
  let value := string_of v in
  if utf8b value && validBootstrapIdentifier value then Some (value, l) else None.
Definition decodeBootstrapGrantPlaintext (plaintext : list Z) : booted BootstrapGrant :=
  ensure ((bootstrapPlaintextMinBytes <=? blen plaintext)%Z && (blen plaintext <=? bootstrapPlaintextMaxBytes)%Z) ErrBootstrapDenied;;
  '(version, l) ← granted_or (read_uint 4 plaintext);
  ensure (version =? bootstrapGrantPlaintextVersionV2)%Z ErrBootstrapDenied;;
  '(protocol, l) ← granted_or (read_uint 4 l);
  '(credentialID, l) ← granted_or (read_identifier l);
  '(credential, l) ← granted_or (read_fixed bootstrapCredentialBytes l);
  '(clusterKeyID, l) ← granted_or (read_identifier l);
  '(clusterKEK, l) ← granted_or (read_fixed bootstrapKEKBytes l);
  '(source, l) ← granted_or (read_identifier l);
  '(installation, l) ← granted_or (read_identifier l);
  '(node, l) ← granted_or (read_identifier l);
  '(attempt, l) ← granted_or (read_identifier l);
  '(generation, l) ← granted_or (read_uint 8 l);
  '(expiresAt, l) ← granted_or (read_uint 8 l);
  ensure (negb (expiresAt =? 0)%Z && (expiresAt <=? 2 ^ 63 - 1)%Z && (length l =? 0)%nat) ErrBootstrapDenied;;
  NewBootstrapGrant (mkGrantMetadata protocol credentialID clusterKeyID source installation node attempt generation expiresAt)
    credential clusterKEK.

(** [hkdf.Key] with SHA-256 for one block of output. *)
Definition hkdf_Key (secret salt : list Z) (info : string) : list Z :=
  hmac_sha256 (hmac_sha256 salt (string_of secret)) (info +:+ char (byte_of 1)).
(** RFC 5869, test case 1. *)
Example hkdf_vector :
  hex_encode (hkdf_Key (repeat 11%Z 22) (seqZ 0 13) (string_of (seqZ 240 10)))
  = "3cb25f25faacd57a90434f64d0362f2a2d2d0a90cf1a5a4c5db02d56ecc4c5bf".
Proof. by vm_compute. Qed.

(** ** The wire (bootstrap_wire.go) *)
Definition knownFields (names : list string) (v : json) : bool :=
  match v with
  | JObj m => forallb (fun f => existsb (fun n => foldName f.1 =? foldName n) names) m
  | _ => true
  end.
(** One value and nothing else, whose own text is the input. *)
Definition decodeCanonicalJSONV2 {A} (names : list string) (dec : decoder A) (tree : A -> json) (zero : A) (text : string) : option A :=
  v ← json_decode text;
  if negb (knownFields names v) then None else
  a ← dec v zero;
  if wire true (tree a) =? text then Some a else None.
Definition decodeCanonicalBase64RangeV2 (value : string) (minBytes maxBytes : Z) : option (list Z) :=
  if (minBytes <? 0)%Z || (maxBytes <? minBytes)%Z || (value =? "") then None else
  decoded ← DecodeString value;
  if (minBytes <=? blen decoded)%Z && (blen decoded <=? maxBytes)%Z && (EncodeToString decoded =? value) then Some decoded else None.
Definition decodeCanonicalBase64V2 (value : string) (expectedBytes : Z) : option (list Z) :=
  decodeCanonicalBase64RangeV2 value expectedBytes expectedBytes.
Record bootstrapRecipientPublicKeyWireV2 := mkKeyWire { KWVersion : Z; KWPublicKey : string }.
Record bootstrapEnvelopeWireV2 := mkEnvelopeWire { EWVersion : Z; EWSender : string; EWNonce : string; EWCiphertext : string }.
Record parsedBootstrapEnvelopeV2 := mkParsedEnvelope { senderEphemeralPublicKey : list Z; env_nonce : list Z; env_ciphertext : list Z }.
Definition key_wire_tree (w : bootstrapRecipientPublicKeyWireV2) : json := JObj [("version", JNum (KWVersion w)); ("publicKey", JStr (KWPublicKey w))].
Definition envelope_wire_tree (w : bootstrapEnvelopeWireV2) : json :=
  JObj [("version", JNum (EWVersion w)); ("senderEphemeralPublicKey", JStr (EWSender w)); ("nonce", JStr (EWNonce w));
        ("ciphertext", JStr (EWCiphertext w))].
Definition dec_key_wire : decoder bootstrapRecipientPublicKeyWireV2 := dec_struct (fun m cur =>
  version ← member m "version" (dec_uint 32) (KWVersion cur);
  key ← member m "publicKey" dec_string (KWPublicKey cur);
  Some (mkKeyWire version key)).
Definition dec_envelope_wire : decoder bootstrapEnvelopeWireV2 := dec_struct (fun m cur =>
  version ← member m "version" (dec_uint 32) (EWVersion cur);
  sender ← member m "senderEphemeralPublicKey" dec_string (EWSender cur);
  nonce ← member m "nonce" dec_string (EWNonce cur);
  ciphertext ← member m "ciphertext" dec_string (EWCiphertext cur);
  Some (mkEnvelopeWire version sender nonce ciphertext)).
Definition marshalBootstrapEnvelopeV2 (sender nonce ciphertext : list Z) : booted string :=
  ensure ((length sender =? bootstrapPublicKeyBytes)%nat && (length nonce =? bootstrapNonceBytes)%nat
          && (bootstrapCiphertextMinBytes <=? blen ciphertext)%Z && (blen ciphertext <=? bootstrapCiphertextMaxBytes)%Z) ErrBootstrapDenied;;
  mret (wire true (envelope_wire_tree
    (mkEnvelopeWire BootstrapEnvelopeVersion (EncodeToString sender) (EncodeToString nonce) (EncodeToString ciphertext)))).

Section agreement.
Context (PublicKey : list Z -> list Z) (ECDH : list Z -> list Z -> option (list Z)).

Definition validX25519PublicKeyV2 (key : list Z) : bool :=
  (length key =? bootstrapPublicKeyBytes)%nat && bool_decide (is_Some (ECDH (1%Z :: repeat 0%Z 31) key)).
Definition validRecipientPublicKeyV2 (key : BootstrapRecipientPublicKey) : bool :=
  (RKVersion key =? BootstrapRecipientKeyVersion)%Z && validX25519PublicKeyV2 (RKKey key).
(** A destroyed recipient is empty. *)
Definition usable_private (private : list Z) : bool :=
  (length private =? bootstrapPublicKeyBytes)%nat && negb (bool_decide (private = repeat 0%Z 32)).
Definition bootstrapRecipientPublicKeyV2 (private : list Z) : booted BootstrapRecipientPublicKey :=
  ensure (usable_private private) ErrBootstrapDenied;;
  ensure (validX25519PublicKeyV2 (PublicKey private)) ErrBootstrapDenied;;
  mret (mkRecipientKey BootstrapRecipientKeyVersion (PublicKey private)).
Definition marshalBootstrapRecipientPublicKeyV2 (p : BootstrapRecipientPublicKey) : booted string :=
  ensure (validRecipientPublicKeyV2 p) ErrBootstrapDenied;;
  mret (wire true (key_wire_tree (mkKeyWire (RKVersion p) (EncodeToString (RKKey p))))).
Definition parseBootstrapRecipientPublicKeyV2 (text : string) : booted BootstrapRecipientPublicKey :=
  ensure (negb (text =? "") && (slen text <=? bootstrapMaxWireBytesV2)%Z) ErrBootstrapDenied;;
  encoded ← granted_or (decodeCanonicalJSONV2 ["version"; "publicKey"] dec_key_wire key_wire_tree (mkKeyWire 0 "") text);
  ensure (KWVersion encoded =? BootstrapRecipientKeyVersion)%Z ErrBootstrapDenied;;
  value ← granted_or (decodeCanonicalBase64V2 (KWPublicKey encoded) 32);
  ensure (validX25519PublicKeyV2 value) ErrBootstrapDenied;;
  mret (mkRecipientKey (KWVersion encoded) value).
Definition parseBootstrapEnvelopeV2 (text : string) : option parsedBootstrapEnvelopeV2 :=
  if (text =? "") || (bootstrapMaxWireBytesV2 <? slen text)%Z then None else
  encoded ← decodeCanonicalJSONV2 ["version"; "senderEphemeralPublicKey"; "nonce"; "ciphertext"] dec_envelope_wire envelope_wire_tree
              (mkEnvelopeWire 0 "" "" "") text;
  if negb (EWVersion encoded =? BootstrapEnvelopeVersion)%Z then None else
  sender ← decodeCanonicalBase64V2 (EWSender encoded) 32;
  if negb (validX25519PublicKeyV2 sender) then None else
  nonce ← decodeCanonicalBase64V2 (EWNonce encoded) 12;
  ciphertext ← decodeCanonicalBase64RangeV2 (EWCiphertext encoded) bootstrapCiphertextMinBytes bootstrapCiphertextMaxBytes;
  Some (mkParsedEnvelope sender nonce ciphertext).

(** ** Sealing and opening (bootstrap.go); [sender] and [nonce] are drawn from the entropy *)
Definition sealBootstrapWithEphemeral (sender nonce : list Z) (recipient : BootstrapRecipientPublicKey) (aad : list Z) (g : BootstrapGrant)
    : booted string :=
  ensure ((length nonce =? bootstrapNonceBytes)%nat && negb (length aad =? 0)%nat && validRecipientPublicKeyV2 recipient
          && validateShape g) ErrBootstrapDenied;;
  shared ← granted_or (ECDH sender (RKKey recipient));
  let key := hkdf_Key shared aad bootstrapHKDFInfo in
  plaintext ← encodeBootstrapGrantPlaintext g;
  let ciphertext := Seal key nonce plaintext aad in
  ensure ((bootstrapCiphertextMinBytes <=? blen ciphertext)%Z && (blen ciphertext <=? bootstrapCiphertextMaxBytes)%Z) ErrBootstrapDenied;;
  text ← marshalBootstrapEnvelopeV2 (PublicKey sender) nonce ciphertext;
  ensure (slen text <=? bootstrapMaxWireBytesV2)%Z ErrBootstrapDenied;;
  mret text.
Definition sealBootstrapWithEntropy (recipient : BootstrapRecipientPublicKey) (b : BootstrapBinding) (g : BootstrapGrant)
    (sender nonce : option (list Z)) : booted string :=
  ensure (validRecipientPublicKeyV2 recipient && validateBinding g b) ErrBootstrapDenied;;
  aad ← CanonicalBytes b;
  sender ← granted_or sender;
  nonce ← granted_or nonce;
  sealBootstrapWithEphemeral sender nonce recipient aad g.
Definition OpenBootstrap (private : list Z) (b : BootstrapBinding) (text : string) : booted BootstrapGrant :=
  ensure (usable_private private) ErrBootstrapDenied;;
  aad ← CanonicalBytes b;
  envelope ← granted_or (parseBootstrapEnvelopeV2 text);
  shared ← granted_or (ECDH private (senderEphemeralPublicKey envelope));
  let key := hkdf_Key shared aad bootstrapHKDFInfo in
  plaintext ← granted_or (Open key (env_nonce envelope) (env_ciphertext envelope) aad);
  ensure ((bootstrapPlaintextMinBytes <=? blen plaintext)%Z && (blen plaintext <=? bootstrapPlaintextMaxBytes)%Z) ErrBootstrapDenied;;
  grant ← decodeBootstrapGrantPlaintext plaintext;
  ensure (validateBinding grant b) ErrBootstrapDenied;;
  mret grant.
End agreement.

(** ** Reading back *)
Lemma be_bytes_S n z : be_bytes (S n) z = Z.land (Z.shiftr z (8 * Z.of_nat n)) 255 :: be_bytes n z.
Proof.
  unfold be_bytes. cbn [seq map]. rewrite Nat.sub_0_r, Nat.sub_1_r. cbn [Nat.pred]. f_equal. rewrite <- seq_shift, map_map. apply map_ext. intros i. do 4 f_equal. lia.
Qed.
Lemma of_bytes_cons b l : of_bytes (b :: l) = (b * 256 ^ blen l + of_bytes l)%Z.
Proof.
  assert (forall a, foldl (fun acc x => (acc * 256 + x)%Z) a l
    = (a * 256 ^ Z.of_nat (length l) + foldl (fun acc x => (acc * 256 + x)%Z) 0%Z l)%Z) as H.
  { induction l as [|x l IH]; intros a; [cbn; lia|]. cbn [foldl length].
    rewrite IH, (IH (0 * 256 + x)%Z), Nat2Z.inj_succ, Z.pow_succ_r by lia. ring. }
  unfold of_bytes, blen. cbn [foldl]. by rewrite H.
Qed.
Lemma of_be_bytes n z : of_bytes (be_bytes n z) = (z mod 256 ^ Z.of_nat n)%Z.
Proof.
  induction n as [|n IH]; [by rewrite Z.mod_1_r|]. rewrite be_bytes_S, of_bytes_cons, IH. unfold blen.
  rewrite (proj2 (be_bytes_ok n z)), (Z.land_ones _ 8), Z.shiftr_div_pow2, Z.pow_mul_r by lia. change (2 ^ 8)%Z with 256%Z.
  rewrite Nat2Z.inj_succ, Z.pow_succ_r, Z.mul_comm by lia. rewrite (Z.mul_comm 256), Z.rem_mul_r by lia. lia.
Qed.
Lemma read_fixed_app v l n : length v = n -> read_fixed n (v ++ l) = Some (v, l).
Proof.
  intros <-. unfold read_fixed. rewrite length_app, (proj2 (Nat.ltb_ge _ _)) by lia. by rewrite take_app_length, drop_app_length.
Qed.
Lemma read_uint_app n z l : (0 <= z < 256 ^ Z.of_nat n)%Z -> read_uint n (be_bytes n z ++ l) = Some (z, l).
Proof. intros Hz. unfold read_uint. rewrite read_fixed_app by apply be_bytes_ok. cbn. by rewrite of_be_bytes, Z.mod_small. Qed.
Lemma length_bytes_of s : length (bytes_of s) = String.length s.
Proof. induction s as [|c s IH]; [done|]. cbn. by rewrite IH. Qed.
Lemma read_identifier_app s l : validBootstrapIdentifier s = true ->
  read_identifier (be_bytes 4 (blen (bytes_of s)) ++ bytes_of s ++ l) = Some (s, l).
Proof.
  intros H. pose proof H as [[H1%Z.ltb_lt H2%Z.leb_le]%andb_true_iff H3]%andb_true_iff. unfold slen, bootstrapMaxBindingStringBytes in *. unfold read_identifier, blen.
  rewrite length_bytes_of. rewrite read_uint_app by lia. cbn [mbind option_bind].
  rewrite (proj2 (Z.eqb_neq _ 0)), (proj2 (Z.ltb_ge _ _)) by (unfold bootstrapMaxBindingStringBytes; lia). cbn [orb].
  rewrite read_fixed_app by (rewrite length_bytes_of; lia). cbn [mbind option_bind]. by rewrite string_of_bytes, H3, H.
Qed.
(** The fields have the types they have in Go. *)
Definition grant_typed (g : BootstrapGrant) : Prop :=
  (0 <= GGeneration (GMetadata g) < 2 ^ 64)%Z /\ (GExpiresAtUnix (GMetadata g) < 2 ^ 63)%Z
  /\ Forall is_byte (GNodeCredential g) /\ Forall is_byte (GClusterKEK g).
Lemma plaintext_roundtrip g bytes : grant_typed g -> encodeBootstrapGrantPlaintext g = Ok bytes ->
  decodeBootstrapGrantPlaintext bytes = Ok g /\ Forall is_byte bytes.
Proof.
  intros (Hg&He&Hc&Hk) H. unfold encodeBootstrapGrantPlaintext in H. apply bind_Ok in H as ([]&Hs&H). cbv zeta in H.
  apply bind_Ok in H as ([]&Hlen&H). apply Ok_inj in H as Hb. unfold ensure in Hs, Hlen. destruct (validateShape g) eqn:Hv; [|done].
  destruct (_ && _) eqn:Hl in Hlen; [|done]. rewrite Hb in Hl. pose proof Hv as [[Hm Hcl%Nat.eqb_eq]%andb_true_iff Hkl%Nat.eqb_eq]%andb_true_iff.
  unfold metadata_validate in Hm. apply andb_true_iff in Hm as [[[Hp%Z.eqb_eq Hg0]%andb_true_iff He0%Z.ltb_lt]%andb_true_iff Hids].
  cbn [forallb] in Hids. rewrite !andb_true_iff in Hids. destruct Hids as (I1&I2&I3&I4&I5&I6&_).
  assert (uint64_of (GExpiresAtUnix (GMetadata g)) = GExpiresAtUnix (GMetadata g)) as Hu by (unfold uint64_of; apply Z.mod_small; lia).
  rewrite Hu in Hb. cbn [foldl] in Hb. unfold appendBootstrapLengthPrefixed in Hb. rewrite <- !app_assoc in Hb.
  split.
  - unfold decodeBootstrapGrantPlaintext. rewrite Hl. cbn [ensure mbind result_bind]. subst bytes. rewrite Hp.
    rewrite read_uint_app by done. cbn [granted_or mbind result_bind]. change (bootstrapGrantPlaintextVersionV2 =? _)%Z with true. cbn [ensure mbind result_bind].
    rewrite read_uint_app by done. cbn [granted_or mbind result_bind].
    rewrite (read_identifier_app (GCredentialID (GMetadata g))) by done. cbn [granted_or mbind result_bind].
    rewrite read_fixed_app by done. cbn [granted_or mbind result_bind].
    rewrite (read_identifier_app (GClusterKeyID (GMetadata g))) by done. cbn [granted_or mbind result_bind].
    rewrite read_fixed_app by done. cbn [granted_or mbind result_bind].
    do 4 (rewrite read_identifier_app by done; cbn [granted_or mbind result_bind]).
    rewrite read_uint_app by (change (256 ^ Z.of_nat 8)%Z with (2 ^ 64)%Z; lia). cbn [granted_or mbind result_bind].
    rewrite <- (app_nil_r (be_bytes 8 (GExpiresAtUnix _))). rewrite read_uint_app by (change (256 ^ Z.of_nat 8)%Z with (2 ^ 64)%Z; lia). cbn [granted_or mbind result_bind].
    rewrite (proj2 (Z.eqb_neq _ 0)), (proj2 (Z.leb_le _ _)) by lia. cbn [negb andb length Nat.eqb ensure mbind result_bind].
    unfold NewBootstrapGrant. rewrite <- Hp.
    replace (mkBootstrapGrant _ _ _) with g by (destruct g as [[] ? ?]; done). by rewrite Hv.
  - subst bytes. rewrite !Forall_app. repeat split; try (by apply be_bytes_ok); try apply bytes_of_byte; done.
Qed.

Lemma b64_utf8 l : Forall is_byte l -> valid_utf8 (EncodeToString l) = EncodeToString l.
Proof.
  intros H. apply valid_utf8_id, utf8b_utf8, graphic_text. eapply sall_impl; [|exact (Encode_chars l H)].
  intros ch Hch. destruct ch as [[] [] [] [] [] [] [] []]; (reflexivity || (vm_compute in Hch; done)).
Qed.
Lemma envelope_wire_decodes a b c : valid_utf8 a = a -> valid_utf8 b = b -> valid_utf8 c = c ->
  let w := mkEnvelopeWire BootstrapEnvelopeVersion a b c in
  decodeCanonicalJSONV2 ["version"; "senderEphemeralPublicKey"; "nonce"; "ciphertext"] dec_envelope_wire envelope_wire_tree
    (mkEnvelopeWire 0 "" "" "") (wire true (envelope_wire_tree w)) = Some w.
Proof.
  intros Ha Hb Hc w. unfold decodeCanonicalJSONV2. rewrite decode_wire by (by vm_compute).
  assert (roundtrip_json (envelope_wire_tree w) = envelope_wire_tree w) as ->.
  { cbn -[valid_utf8]. by rewrite Ha, Hb, Hc. }
  cbn [mbind option_bind]. change (knownFields _ (envelope_wire_tree w)) with true. cbn [negb].
  assert (dec_envelope_wire (envelope_wire_tree w) (mkEnvelopeWire 0 "" "" "") = Some w) as ->.
  { transitivity (Some (mkEnvelopeWire BootstrapEnvelopeVersion (valid_utf8 a) (valid_utf8 b) (valid_utf8 c))); [reflexivity|]. by rewrite Ha, Hb, Hc. }
  cbn [mbind option_bind]. by rewrite String.eqb_refl.
Qed.
Lemma base64_range l lo hi : Forall is_byte l -> (0 <= lo <= blen l)%Z -> (blen l <= hi)%Z -> l <> [] ->
  decodeCanonicalBase64RangeV2 (EncodeToString l) lo hi = Some l.
Proof.
  intros Hb Hlo Hhi Hne. unfold decodeCanonicalBase64RangeV2. rewrite (proj2 (Z.ltb_ge _ _)), (proj2 (Z.ltb_ge _ _)) by lia.
  assert ((EncodeToString l =? "") = false) as -> by (apply String.eqb_neq; by destruct l as [|? [|? [|? ?]]]).
  cbn [orb]. rewrite Decode_Encode_b64 by done. cbn [mbind option_bind].
  rewrite (proj2 (Z.leb_le _ _)), (proj2 (Z.leb_le _ _)), String.eqb_refl by lia. done.
Qed.

Section agreeing.
Context (PublicKey : list Z -> list Z) (ECDH : list Z -> list Z -> option (list Z)).
(** What X25519 promises: public keys are 32 bytes and never of low order, and both sides
    compute the same secret. *)
Record key_agreement : Prop := mkKeyAgreement {
  public_bytes : forall a, length a = 32 -> length (PublicKey a) = 32 /\ Forall is_byte (PublicKey a);
  shared_defined : forall a b, length a = 32 -> length b = 32 -> is_Some (ECDH a (PublicKey b));
  shared_same : forall a b, length a = 32 -> length b = 32 -> ECDH a (PublicKey b) = ECDH b (PublicKey a) }.
Hypothesis agree : key_agreement.

Lemma public_valid a : length a = 32 -> validX25519PublicKeyV2 ECDH (PublicKey a) = true.
Proof using agree.
  intros Ha. unfold validX25519PublicKeyV2. rewrite (proj1 (public_bytes agree a Ha)). apply bool_decide_eq_true_2.
  by apply (shared_defined agree).
Qed.
Lemma envelope_roundtrip_v2 sender nonce ct text : length sender = 32 -> Forall is_byte nonce -> Forall is_byte ct ->
  marshalBootstrapEnvelopeV2 (PublicKey sender) nonce ct = Ok text -> (slen text <= bootstrapMaxWireBytesV2)%Z ->
  parseBootstrapEnvelopeV2 ECDH text = Some (mkParsedEnvelope (PublicKey sender) nonce ct).
Proof using agree.
  intros Hs Hn Hc H Hmax. destruct (public_bytes agree sender Hs) as [Hpl Hpb]. apply bind_Ok in H as ([]&Hok&H). apply Ok_inj in H as <-.
  unfold ensure in Hok. destruct (_ && _) eqn:E in Hok; [|done].
  apply andb_true_iff in E as [[[_ Hnl%Nat.eqb_eq]%andb_true_iff Hlo%Z.leb_le]%andb_true_iff Hhi%Z.leb_le].
  unfold parseBootstrapEnvelopeV2. rewrite (proj2 (Z.ltb_ge _ _)) by done. cbn [orb].
  match goal with |- context [?t =? ""] => assert ((t =? "") = false) as -> by done end. cbn [orb].
  rewrite envelope_wire_decodes by (by apply b64_utf8). cbn [mbind option_bind EWVersion EWSender EWNonce EWCiphertext].
  rewrite Z.eqb_refl. cbn [negb]. unfold decodeCanonicalBase64V2.
  assert (forall l n, length l = n -> blen l = Z.of_nat n) as Hbl by (by intros l n <-).
  rewrite (base64_range (PublicKey sender)); [|done|rewrite (Hbl _ _ Hpl); lia|rewrite (Hbl _ _ Hpl); lia|by intros E; rewrite E in Hpl].
  cbn [mbind option_bind]. rewrite (public_valid sender Hs). cbn [negb].
  rewrite (base64_range nonce); [|done|rewrite (Hbl _ _ Hnl); unfold bootstrapNonceBytes; lia|rewrite (Hbl _ _ Hnl); unfold bootstrapNonceBytes; lia|by intros E; rewrite E in Hnl].
  cbn [mbind option_bind]. rewrite (base64_range ct); [done|done|split; [done|exact Hlo]|done|by intros ->].
Qed.
Lemma hkdf_bytes secret salt info : length (hkdf_Key secret salt info) = 32 /\ Forall is_byte (hkdf_Key secret salt info).
Proof using. unfold hkdf_Key. unfold hmac_sha256 at 1 3. cbv zeta. split; apply Sum256_bytes. Qed.

Lemma Seal_Open_bootstrap recipient binding g sender nonce text :
  length sender = 32 -> Forall is_byte nonce -> grant_typed g -> usable_private recipient = true ->
  sealBootstrapWithEntropy PublicKey ECDH (mkRecipientKey BootstrapRecipientKeyVersion (PublicKey recipient)) binding g (Some sender) (Some nonce) = Ok text ->
  OpenBootstrap ECDH recipient binding text = Ok g.
Proof using agree.
  intros Hs Hn Hg Hr H. pose proof Hr as [Hrl%Nat.eqb_eq _]%andb_true_iff. unfold sealBootstrapWithEntropy in H.
  apply bind_Ok in H as ([]&Hv&H). apply bind_Ok in H as (aad&Haad&H). cbn [granted_or mbind result_bind] in H.
  unfold ensure in Hv. destruct (_ && _) eqn:E in Hv; [|done]. apply andb_true_iff in E as [_ Hbind].
  unfold sealBootstrapWithEphemeral in H. apply bind_Ok in H as ([]&Hok&H). apply bind_Ok in H as (shared&Hsh&H). cbv zeta in H.
  apply bind_Ok in H as (plain&Hpl&H). apply bind_Ok in H as ([]&_&H). apply bind_Ok in H as (text'&Henv&H). apply bind_Ok in H as ([]&Hmax&H).
  apply Ok_inj in H as ->. cbn [RKKey] in Hsh. destruct (plaintext_roundtrip _ _ Hg Hpl) as [Hdec Hpb].
  destruct (hkdf_bytes shared aad bootstrapHKDFInfo) as [Hkl Hkb].
  unfold ensure in Hmax. destruct (_ <=? _)%Z eqn:E in Hmax; [|done]. apply Z.leb_le in E.
  unfold OpenBootstrap. rewrite Hr. cbn [ensure mbind result_bind]. rewrite Haad. cbn [mbind result_bind].
  erewrite envelope_roundtrip_v2; [|exact Hs|exact Hn| |exact Henv|exact E]; [|by apply Seal_byte].
  cbn [granted_or mbind result_bind senderEphemeralPublicKey env_nonce env_ciphertext].
  rewrite (shared_same agree recipient sender Hrl Hs), Hsh. cbn [mbind result_bind]. rewrite Open_Seal by done. cbn [granted_or mbind result_bind].
  unfold decodeBootstrapGrantPlaintext in Hdec. apply bind_Ok in Hdec as ([]&Hlen&Hdec). rewrite Hlen. cbn [mbind result_bind].
  unfold decodeBootstrapGrantPlaintext. rewrite Hlen. cbn [mbind result_bind]. rewrite Hdec. cbn [mbind result_bind]. by rewrite Hbind.
Qed.
End agreeing.
