(* ===== verification/Enrollment.v ===== *)
(** * Enrollment (enrollment/token.go, url.go, primary.go, bootstrap_accept.go, configuration/sqlite_primary_grant.go)

    A token is minted and redeemed; redeeming it issues a grant in one transaction on the
    primary's tables, and the node stores what the grant seals. The parsers of URLs,
    addresses and PEM and the checks of X.509 are parameters; what the service draws (time,
    identifiers, secrets, nonces) is an argument. *)

From S2P Require Import Prelude Transfer Publisher GoStrings StrFacts Json JsonFacts JsonText JsonRead RProxy Timestamp GoTime Model Identity Topology Sha256 AesGcm Kek SecretBox Snapshot SnapshotText Jobs Store Revisions Credentials NodeSyncStore Installation InstallationStore ClusterKeys PrimaryStore Publication Canonical Bootstrap.
From stdpp Require Import options.

(** ** The origin of a primary (url.go) *)
Definition MaxPrimaryURLLength : Z := 2048.
Definition MaxPrimaryHostLength : Z := 253.
(** What [url.Parse] gives; [net.ParseIP] gives the canonical text and whether it is an IPv4 address. *)
Record URL := mkURL {
  Scheme : string; Opaque : string; UHost : string; UHasUser : bool; RawQuery : string; ForceQuery : bool; Fragment : string;
  RawFragment : string; UPath : string; RawPath : string }.
Definition canonicalPrimaryPort (raw : string) : option Z :=
  if negb (sall is_digit raw) then None else
  port ← ParseUint raw 16; if (port =? 0)%Z then None else Some port.
Definition allDecimalLabels (labels : list string) : bool := forallb (sall is_digit) labels.
Definition label_char (c : ascii) : bool := is_lower c || is_digit c || ascii_eqb c "-".
Definition valid_label (label : string) : bool :=
  negb (label =? "") && (slen label <=? 63)%Z && negb (HasPrefix label "-") && negb (HasSuffix label "-") && sall label_char label.
Definition JoinHostPort (host port : string) : string :=
  if ContainsChar host ":" || ContainsChar host "%" then "[" +:+ host +:+ "]:" +:+ port else host +:+ ":" +:+ port.

Section url.
Context (url_Parse : string -> option URL) (ParseIP : string -> option (string * bool)).
Definition canonicalPrimaryHost (raw : string) : option string :=
  if (raw =? "") || negb (TrimSpace raw =? raw) || Contains raw "%" then None else
  match ParseIP raw with
  | Some (text, v4) => if Contains raw ":" && v4 then None else Some text
  | None =>
      let lower := ToLower raw in
      let canonical := if HasSuffix lower "." then take_s (String.length lower - 1) lower else lower in
      if (canonical =? "") || (MaxPrimaryHostLength <? slen canonical)%Z then None else
      let labels := Split "." canonical in
      if (length labels =? 4)%nat && allDecimalLabels labels then None
      else if forallb valid_label labels then Some canonical else None
  end.
Definition CanonicalizePrimaryURL (raw : string) : option string :=
  if (raw =? "") || (MaxPrimaryURLLength <? slen raw)%Z || negb (TrimSpace raw =? raw) then None else
  parsed ← url_Parse raw;
  if negb (foldName (Scheme parsed) =? foldName "https") || negb (Opaque parsed =? "") || (UHost parsed =? "") || UHasUser parsed then None else
  if negb (RawQuery parsed =? "") || ForceQuery parsed || negb (Fragment parsed =? "") || negb (RawFragment parsed =? "") || Contains raw "#"
  then None else
  if negb ((UPath parsed =? "") || (UPath parsed =? "/")) || negb (RawPath parsed =? "") then None else
  '(host, portText) ← SplitHostPort (UHost parsed);
  if (host =? "") || (portText =? "") then None else
  if HasPrefix (UHost parsed) "[" && negb (Contains host ":") then None else
  port ← canonicalPrimaryPort portText;
  host ← canonicalPrimaryHost host;
  Some ("https://" +:+ JoinHostPort host (itoa port) +:+ "/").
End url.

(** ** The CA of a primary (configuration/sqlite_primary_trust.go) *)
Definition primaryTrustMaxPEMBytes : Z := 65536.
Definition primaryTrustMaxCerts : nat := 1.
Record pem_block := mkBlock { BType : string; BHasHeaders : bool; BDER : string }.
Section trust.
(** The next block and what follows it; an unexpired CA certificate; the PEM text of a certificate. *)
Context (pem_Decode : string -> option (pem_block * string)) (usable_CA : string -> bool) (pem_Certificate : string -> string).
(** Every block that is decoded takes at least a byte. *)
Fixpoint normalize_certificates (fuel : nat) (rest : string) (ders : list string) : option (list string) :=
  if TrimSpace rest =? "" then Some ders else
  match fuel with
  | O => None
  | S fuel =>
      '(block, remaining) ← pem_Decode rest;
      if negb (BType block =? "CERTIFICATE") || BHasHeaders block || (length ders =? primaryTrustMaxCerts)%nat then None
      else if negb (usable_CA (BDER block)) then None
      else normalize_certificates fuel remaining (ders ++ [BDER block])
  end.
Definition NormalizePrimaryTrustCA (input : string) : option (string * string) :=
  let trimmed := TrimSpace input in
  if (trimmed =? "") || (primaryTrustMaxPEMBytes <? slen trimmed)%Z then None else
  ders ← normalize_certificates (String.length trimmed) trimmed [];
  first ← head ders;
  Some (Join (map pem_Certificate ders) "", sha256_hex first).
End trust.

(** ** Token texts (token.go) *)
Definition Minute : Z := 60 * 10 ^ 9.
Definition DefaultTokenTTL : Z := 15 * Minute.
Definition MinTokenTTL : Z := 5 * Minute.
Definition MaxTokenTTL : Z := 60 * Minute.
Definition TokenHashVersion : string := EnrollmentTokenHashVersion.
Definition tokenSelectorLen : nat := 16.
Definition tokenSecretLen : nat := 32.
Definition tokenHashDomain : string := "proxycore/enrollment-token/".
Definition TokenPrefixV1 : string := "pcenr1".
Definition TokenPrefixV2 : string := "pcenr2".
Definition MaxTokenV2PayloadBytes : Z := 4096.
Definition MaxTokenV2Bytes : Z := slen TokenPrefixV2 + 1 + (MaxTokenV2PayloadBytes * 4 + 2) / 3 + 1.
Definition tokenV2Version : Z := 2.
Inductive enrollment_error : Type :=
| ErrOwnerRequired | ErrInvalidTokenTTL | ErrEnrollmentDenied | ErrTokenStore (e : primary_error) | ErrTokenEntropy | errTokenV2Material.
#[global] Instance enrollment_error_eq_dec : EqDecision enrollment_error. Proof. solve_decision. Defined.
#[global] Instance enrollment_store_failure : StoreFailure enrollment_error := fun _ => ErrEnrollmentDenied.
Abbreviation enrolled := (result enrollment_error).
Record TokenClaims := mkClaims { TCVersion : Z; TCSelector : string; TCSecret : list Z; TCPrimaryURL : string; TCCAPEM : string }.
Record tokenV2Payload := mkPayload { PVersion : Z; PSelector : string; PSecret : string; PPrimaryURL : string; PCAPEM : string }.

Definition hashSecret (secret : list Z) : string := sha256_hex (tokenHashDomain +:+ string_of secret).
Definition validTokenSelector (selector : string) : bool :=
  match hex_decode selector with
  | Some decoded => (length decoded =? tokenSelectorLen)%nat && (hex_encode decoded =? selector)
  | None => false
  end.
Definition LegacyWire (c : TokenClaims) : string := TokenPrefixV1 +:+ "_" +:+ TCSelector c +:+ "_" +:+ EncodeToString (TCSecret c).
Definition parseSelectorAndSecret (rest : string) : option (string * list Z) :=
  '(selectorText, secretText) ← cut_first "_" rest;
  secret ← DecodeString secretText;
  if (length secret =? tokenSecretLen)%nat && validTokenSelector selectorText then Some (selectorText, secret) else None.
Definition payload_tree (p : tokenV2Payload) : json :=
  JObj [("v", JNum (PVersion p)); ("selector", JStr (PSelector p)); ("secret", JStr (PSecret p)); ("primaryUrl", JStr (PPrimaryURL p));
        ("caPem", JStr (PCAPEM p))].
Definition dec_payload : decoder tokenV2Payload := dec_struct (fun m cur =>
  version ← member m "v" dec_int64 (PVersion cur);
  selector ← member m "selector" dec_string (PSelector cur);
  secret ← member m "secret" dec_string (PSecret cur);
  url ← member m "primaryUrl" dec_string (PPrimaryURL cur);
  ca ← member m "caPem" dec_string (PCAPEM cur);
  Some (mkPayload version selector secret url ca)).

Section tokens.
Context (canonical_url : string -> option string) (normalized_ca : string -> option (string * string)).
Definition parseTokenV2 (rest : string) : option TokenClaims :=
  if (MaxTokenV2Bytes <? slen rest)%Z then None else
  raw ← DecodeString rest;
  if (length raw =? 0)%nat || (MaxTokenV2PayloadBytes <? blen raw)%Z then None else
  v ← json_decode (string_of raw);
  if negb (knownFields ["v"; "selector"; "secret"; "primaryUrl"; "caPem"] v) then None else
  payload ← dec_payload v (mkPayload 0 "" "" "" "");
  if negb (PVersion payload =? tokenV2Version)%Z || negb (validTokenSelector (PSelector payload)) then None else
  secret ← DecodeString (PSecret payload);
  if negb (length secret =? tokenSecretLen)%nat then None else
  canonicalURL ← canonical_url (PPrimaryURL payload);
  if negb (canonicalURL =? PPrimaryURL payload) then None else
  '(normalized, _) ← normalized_ca (PCAPEM payload);
  if negb (normalized =? PCAPEM payload) then None else
  Some (mkClaims 2 (PSelector payload) secret (PPrimaryURL payload) (PCAPEM payload)).
Definition ParseTokenClaims (value : string) : option TokenClaims :=
  '(prefix, rest) ← cut_first "_" value;
  if rest =? "" then None
  else if prefix =? TokenPrefixV1 then '(selector, secret) ← parseSelectorAndSecret rest; Some (mkClaims 1 selector secret "" "")
  else if prefix =? TokenPrefixV2 then parseTokenV2 rest else None.
Definition IsTokenCredential (value : string) : bool := bool_decide (is_Some (ParseTokenClaims value)).
Definition parseToken (value : string) : option (string * list Z) := c ← ParseTokenClaims value; Some (TCSelector c, TCSecret c).
Definition EncodeTokenV2 (selector : string) (secret : list Z) (primaryURL caPEM : string) : enrolled string :=
  ensure (validTokenSelector selector && (length secret =? tokenSecretLen)%nat) errTokenV2Material;;
  match canonical_url primaryURL, normalized_ca caPEM with
  | Some canonicalURL, Some (normalized, _) =>
      ensure (canonicalURL =? primaryURL) errTokenV2Material;;
      let raw := bytes_of (wire true (payload_tree (mkPayload tokenV2Version selector (EncodeToString secret) primaryURL normalized))) in
      ensure (blen raw <=? MaxTokenV2PayloadBytes)%Z errTokenV2Material;;
      mret (TokenPrefixV2 +:+ "_" +:+ EncodeToString raw)
  | _, _ => Err errTokenV2Material
  end.

(** ** The token service *)
(** The identity service around an exchange: what it does first, and whether it takes the
    committed role. Without one nothing is done and every role is taken. *)
Record activation := mkActivation { prepare : primary_tables -> primary_tables * bool; takes_role : TopologyRole -> bool }.
Definition without_identity : activation := mkActivation (fun t => (t, true)) (fun _ => true).
Definition ActivateEnrollment {A} (identity : activation) (refused : enrollment_error) (t : primary_tables)
    (run : primary_tables -> primary_tables * enrolled (TopologyRole * A)) : primary_tables * enrolled A :=
  let '(t, ready) := prepare identity t in
  if negb ready then (t, Err refused) else
  match run t with
  | (t, Err e) => (t, Err e)
  | (t, Ok (role, a)) => (t, if takes_role identity role then Ok a else Err refused)
  end.
Record owner := mkOwnerUser { OwnerID : string; OwnerRole : string; OwnerActive : bool }.
Definition RoleOwner : string := "owner".
Definition is_owner (o : owner) : bool := negb (OwnerID o =? "") && (OwnerRole o =? RoleOwner) && OwnerActive o.
Record CreatedToken := mkCreated { CTID : string; CTToken : string; CTExpiresAt : time }.
Definition time_add (t : time) (d : Z) : time := ((t.1 + (t.2 + d) / Nanos)%Z, ((t.2 + d) mod Nanos)%Z).
Definition in_tokens {A} (r : granted_by A) : enrolled A := match r with Ok a => Ok a | Err e => Err (ErrTokenStore e) end.
(** [clock] is the writer's, [now] the service's; [material] is what the entropy gives. *)
Definition CreateToken (identity : activation) (refused : enrollment_error) (ttl : Z) (material : option (list Z)) (id : string)
    (clock now : time) (t : primary_tables) (o : owner) : primary_tables * enrolled CreatedToken :=
  if negb (is_owner o) then (t, Err ErrOwnerRequired)
  else if (ttl <? MinTokenTTL)%Z || (MaxTokenTTL <? ttl)%Z then (t, Err ErrInvalidTokenTTL) else
  match material with
  | None => (t, Err ErrTokenEntropy)
  | Some material =>
      let selector := hex_encode (take tokenSelectorLen material) in
      let secret := drop tokenSelectorLen material in
      let plaintext := TokenPrefixV1 +:+ "_" +:+ selector +:+ "_" +:+ EncodeToString secret in
      let expiresAt := time_add now ttl in
      ActivateEnrollment identity refused t (fun t =>
        match CreateEnrollmentToken t clock id selector (hashSecret secret) TokenHashVersion (OwnerID o) now expiresAt with
        | (t, Ok role) => (t, Ok (role, mkCreated id plaintext expiresAt))
        | (t, Err e) => (t, Err (ErrTokenStore e))
        end)
  end.
Definition checkToken (clock now : time) (t : primary_tables) (plaintext : string) (consume : bool) : primary_tables * enrolled unit :=
  match parseToken plaintext with
  | None => (t, Err ErrEnrollmentDenied)
  | Some (selector, secret) =>
      match CheckEnrollmentToken t clock selector (hashSecret secret) now consume with
      | (t, Ok _) => (t, Ok tt)
      | (t, Err _) => (t, Err ErrEnrollmentDenied)
      end
  end.
Definition VerifyToken (clock now : time) (t : primary_tables) (plaintext : string) : primary_tables * enrolled unit := checkToken clock now t plaintext false.
Definition ConsumeToken (clock now : time) (t : primary_tables) (plaintext : string) : primary_tables * enrolled unit := checkToken clock now t plaintext true.
Definition RevokeToken (clock now : time) (t : primary_tables) (o : owner) (id : string) : primary_tables * enrolled unit :=
  if negb (is_owner o) then (t, Err ErrOwnerRequired) else if id =? "" then (t, Err ErrEnrollmentDenied)
  else let '(t, r) := RevokeEnrollmentToken t clock id (OwnerID o) now in (t, in_tokens r).
Definition DeleteToken (clock now : time) (t : primary_tables) (o : owner) (id : string) : primary_tables * enrolled unit :=
  if negb (is_owner o) then (t, Err ErrOwnerRequired) else if id =? "" then (t, Err (ErrTokenStore ErrEnrollmentTokenNotFound))
  else let '(t, r) := DeleteEnrollmentToken t clock id (OwnerID o) now in (t, in_tokens r).
End tokens.

(** ** The primary's transaction (configuration/sqlite_primary_grant.go)

    Every failure of the store is the same error, which never carries SQL. *)
Definition grant_store {A} (r : canonical A) : canonical A := match r with Ok a => Ok a | Err _ => Err ErrEnrollmentGrantStore end.
Record EnrollmentTokenRecord := mkTokenRecord {
  TRID : string; TRHash : string; TRHashVersion : string; TRExpiresAt : time; TRConsumedAt : option time; TRConsumedByAttemptID : string;
  TRRevokedAt : option time }.
Record EnrollmentGrantRecord := mkGrantRecord {
  ERAttemptID : string; ERTokenID : string; ERInstallationID : string; ERNodeID : string; ERPrimaryID : string;
  ERPrimaryGeneration : Z; ERVerifiedPreviewDigest : string; ERNodeEphemeralPublicKey : string; ERSealedBootstrapPayload : list Z;
  ERPayloadHash : string; ERCreatedAt : time; ERExpiresAt : time }.
Definition sqliteGrantOptionalTime (key : option string) : canonical (option time) := from_store (sqliteEnqueueTime key).
Definition LockEnrollmentToken (t : primary_tables) (selector : string) : canonical EnrollmentTokenRecord :=
  match token_of t selector with
  | None => Err ErrEnrollmentGrantStore
  | Some r => grant_store (
      expires ← from_store (finite_clock (t_expires r));
      consumed ← sqliteGrantOptionalTime (t_consumed r);
      revoked ← sqliteGrantOptionalTime (t_revoked r);
      mret (mkTokenRecord (t_id r) (t_hash r) (t_version r) expires consumed (default "" (t_by r)) revoked))
  end.
Definition GetEnrollmentGrant (t : primary_tables) (attemptID : string) : canonical EnrollmentGrantRecord :=
  match find_first (fun g => g_attempt g =? attemptID) (enrollment_grants t) with
  | None => Err ErrEnrollmentGrantStore
  | Some g =>
      if (g_generation g <=? 0)%Z then Err ErrEnrollmentGrantStore else
      match StdDecodeString (g_payload g) with
      | None => Err ErrEnrollmentGrantStore
      | Some payload => grant_store (
          created ← from_store (finite_clock (g_created g));
          expires ← from_store (finite_clock (g_expires g));
          mret (mkGrantRecord (g_attempt g) (g_token g) (g_installation g) (g_node g) (g_primary g) (g_generation g)
                  (default "" (g_digest g)) (g_recipient g) payload (g_payload_hash g) created expires))
      end
  end.

(** A transaction's tables, and the node whose credential row was keyed anew. *)
Definition grant_tx : Type := primary_tables * option string.
Definition set_grants (t : primary_tables) (l : list GrantRow) : primary_tables :=
  mkPrimaryTables (topo t) (applied_snapshots t) (enrollment_tokens t) l (node_snapshot_acks t) (secret_rows t) (user_rows t).
Definition credential_row_ok (r : CredentialRow) : bool :=
  uuidPattern (c_id r) && uuidPattern (c_node r) && negb (has_nul (c_hash r)) && negb (has_nul (c_version r))
  && timestamp_column (c_created r) && opt_all timestamp_column (c_revoked r).
Definition CreateNodeCredential (tx : grant_tx) (id node hash version : string) (createdAt : time) : canonical grant_tx :=
  let '(t, rotated) := tx in
  let credentials := node_credentials (topo t) in
  let nodes := enrolled_nodes (topo t) in
  created ← grant_store (from_store (sqliteEnrollmentTokenTime createdAt));
  let row := mkCredentialRow id node hash version created None in
  match (c ← find_first (fun c => (c_node c =? node) && existsb (fun n => (e_node n =? c_node c) && (e_credential n =? c_id c)) nodes) credentials;
         n ← find_first (fun n => (e_node n =? c_node c) && (e_credential n =? c_id c)) nodes; Some (c, n)) with
  | None =>
      ensure (credential_row_ok row && forallb (fun o => negb (c_id o =? id) && negb (c_node o =? node)) credentials) ErrEnrollmentGrantStore;;
      mret (set_nodes t (credentials ++ [row]) nodes, rotated)
  | Some (c, n) =>
      if is_null (e_revoked n) then Err ErrEnrollmentGrantStore else
      let p := fun o => (c_id o =? c_id c) && (c_node o =? node) in
      ensure (forallb (fun o => p o || negb (c_id o =? id)) credentials) ErrEnrollmentGrantStore;;
      l ← grant_store (update_one credential_row_ok p (fun _ => row) credentials);
      mret (set_nodes t l nodes, Some node)
  end.
Definition enrolled_row_ok (r : EnrolledRow) : bool :=
  uuidPattern (e_node r) && uuidPattern (e_installation r) && uuidPattern (e_primary r) && uuidPattern (e_credential r)
  && uuidPattern (e_attempt r) && timestamp_column (e_enrolled r) && opt_all timestamp_column (e_revoked r).
Definition rotated_node (primary credential enrolled attempt : string) (r : EnrolledRow) : EnrolledRow :=
  mkEnrolledRow (e_node r) (e_installation r) primary credential attempt enrolled None None.
Definition CreateEnrolledNode (tx : grant_tx) (node installation primary credential attempt : string) (enrolledAt : time) : canonical grant_tx :=
  let '(t, rotated) := tx in
  let nodes := enrolled_nodes (topo t) in
  enrolled ← grant_store (from_store (sqliteEnrollmentTokenTime enrolledAt));
  match rotated with
  | Some n =>
      ensure (n =? node) ErrEnrollmentGrantStore;;
      let p := fun r => (e_node r =? node) && (e_installation r =? installation) && negb (is_null (e_revoked r)) in
      ensure (forallb (fun o => p o || negb (e_credential o =? credential) && negb (e_attempt o =? attempt)) nodes) ErrEnrollmentGrantStore;;
      l ← grant_store (update_one enrolled_row_ok p (rotated_node primary credential enrolled attempt) nodes);
      mret (set_nodes t (node_credentials (topo t)) l, rotated)
  | None =>
      let row := mkEnrolledRow node installation primary credential attempt enrolled None None in
      ensure (enrolled_row_ok row && existsb (fun c => c_id c =? credential) (node_credentials (topo t))
              && forallb (fun o => negb (e_node o =? node) && negb (e_installation o =? installation) && negb (e_credential o =? credential)
                                   && negb (e_attempt o =? attempt)) nodes) ErrEnrollmentGrantStore;;
      mret (set_nodes t (node_credentials (topo t)) (nodes ++ [row]), rotated)
  end.
Definition grant_row_ok (t : primary_tables) (g : GrantRow) : bool :=
  uuidPattern (g_attempt g) && uuidPattern (g_token g) && uuidPattern (g_installation g) && uuidPattern (g_node g) && uuidPattern (g_primary g)
  && negb (has_nul (g_recipient g)) && negb (has_nul (g_payload g)) && negb (has_nul (g_payload_hash g))
  && opt_all (fun s => negb (has_nul s)) (g_digest g) && timestamp_column (g_created g) && timestamp_column (g_expires g)
  && less_s (g_created g) (g_expires g) && existsb (fun k => t_id k =? g_token g) (enrollment_tokens t)
  && forallb (fun o => negb (g_attempt o =? g_attempt g) && negb (g_token o =? g_token g)) (enrollment_grants t).
Definition CreateEnrollmentGrant (tx : grant_tx) (g : EnrollmentGrantRecord) : canonical grant_tx :=
  let '(t, rotated) := tx in
  ensure (negb (ERPrimaryGeneration g =? 0)%Z && (ERPrimaryGeneration g <=? 2 ^ 63 - 1)%Z && negb (length (ERSealedBootstrapPayload g) =? 0)%nat)
    ErrEnrollmentGrantStore;;
  created ← grant_store (from_store (sqliteEnrollmentTokenTime (ERCreatedAt g)));
  expires ← grant_store (from_store (sqliteEnrollmentTokenTime (ERExpiresAt g)));
  let row := mkGrant (ERAttemptID g) (ERTokenID g) (ERInstallationID g) (ERNodeID g) (ERPrimaryID g) (ERPrimaryGeneration g)
               (Some (ERVerifiedPreviewDigest g)) (ERNodeEphemeralPublicKey g) (StdEncodeToString (ERSealedBootstrapPayload g))
               (ERPayloadHash g) created expires in
  ensure (grant_row_ok t row) ErrEnrollmentGrantStore;;
  mret (set_grants t (enrollment_grants t ++ [row]), rotated).
Definition consume_by (stamp attempt : string) (r : TokenRow) : TokenRow :=
  mkToken (t_id r) (t_selector r) (t_hash r) (t_version r) (t_owner r) (t_created r) (t_expires r) (Some stamp) (t_revoked r) (Some attempt).
Definition open_token (id : string) (r : TokenRow) : bool := (t_id r =? id) && is_null (t_consumed r) && is_null (t_revoked r).
Definition TransitionPrimaryToWithNodes (tx : grant_tx) (stamp : string) (generation : Z) : canonical grant_tx :=
  let '(t, rotated) := tx in
  ensure (negb (generation =? 0)%Z && (generation <=? 2 ^ 63 - 1)%Z) ErrEnrollmentGrantStore;;
  match identity_row (topo t) with
  | Some r =>
      ensure ((i_role r =? TopologyRolePrimary) && (i_leadership r =? generation)%Z && (i_latest r =? generation)%Z) ErrEnrollmentGrantStore;;
      mret (set_topo t (set_identity (topo t) (row_role TopologyRolePrimaryWithNodes stamp r)), rotated)
  | None => Err ErrEnrollmentGrantStore
  end.

Section grants.
Context (uuid_Parse : string -> option uuid) (master : string).
Definition ConsumeEnrollmentToken (tx : grant_tx) (tokenID attemptID : string) (consumedAt : time) : canonical grant_tx :=
  let '(t, rotated) := tx in
  match uuid_Parse tokenID with
  | None => Err ErrEnrollmentGrantStore
  | Some _ =>
      stamp ← grant_store (from_store (sqliteEnrollmentTokenTime consumedAt));
      ensure (uuidPattern attemptID && (length (List.filter (open_token tokenID) (enrollment_tokens t)) =? 1)%nat) ErrEnrollmentGrantStore;;
      mret (update_tokens (open_token tokenID) (consume_by stamp attemptID) t, rotated)
  end.
(** The deferred foreign key of enrolled nodes is checked when the transaction commits. *)
Definition nodes_keyed (t : primary_tables) : bool :=
  forallb (fun n => existsb (fun c => c_id c =? e_credential n) (node_credentials (topo t))) (enrolled_nodes (topo t)).
Definition WithPrimaryGrant {A} (t : primary_tables) (clock : time) (run : string -> primary_tables -> enrolled (primary_tables * A))
    : primary_tables * enrolled A :=
  Write t clock (fun stamp t => '(t, a) ← run stamp t; ensure (nodes_keyed t) ErrEnrollmentDenied;; mret (t, a)).

(** ** Issuing a grant (primary.go) *)
Definition DefaultGrantTTL : Z := 15 * Minute.
Record NodeCredentialMaterial := mkCredentialMaterial { NMID : string; NMSecret : list Z; NMHash : string; NMHashVersion : string }.
(** What the issuer gives this time. *)
Record NodeCredentialIssuer := mkIssuer { IssueNodeCredential : option NodeCredentialMaterial; ValidateNodeCredential : NodeCredentialMaterial -> bool }.
Record PrimaryGrantRequest := mkGrantRequest {
  QEnrollmentToken : string; QAttemptID : string; QTargetInstallationID : string; QTargetNodeID : string;
  QRecipientPublicKey : BootstrapRecipientPublicKey; QPreviewDigest : list Z; QPrimaryInstallationID : string; QGeneration : Z; QGrantTTL : Z }.
Record PrimaryGrantResponse := mkGrantResponse { RSealedBootstrapPayload : string; RPayloadHash : string; RExpiresAt : time }.
Record PrimaryService := mkPrimaryService {
  PSGrantTTL : Z; PSIssuer : option NodeCredentialIssuer; PSIdentity : activation;
  PSSeal : BootstrapRecipientPublicKey -> BootstrapBinding -> BootstrapGrant -> booted string }.

Definition canonicalUUID (value : string) : bool :=
  match uuid_Parse value with Some parsed => negb (parsed =? uuid_Nil) && (parsed =? value) | None => false end.
Definition validPrimaryGrantRequest (q : PrimaryGrantRequest) : bool :=
  negb (QGeneration q =? 0)%Z && (length (QPreviewDigest q) =? 32)%nat
  && forallb canonicalUUID [QAttemptID q; QTargetInstallationID q; QTargetNodeID q; QPrimaryInstallationID q].
Definition validTokenSecret (token : EnrollmentTokenRecord) (hash : string) : bool :=
  negb (TRID token =? "") && (TRHashVersion token =? TokenHashVersion) && (TRHash token =? hash).
Definition validExpectedPrimary (identity : PrimaryIdentityRecord) (q : PrimaryGrantRequest) : bool :=
  (PrInstallationID identity =? QPrimaryInstallationID q) && (PrLeadership identity =? QGeneration q)%Z
  && (PrLeadership identity =? PrLatest identity)%Z && primary_role (PrRole identity).
Definition clusterKeyID (identity : PrimaryIdentityRecord) : string := default "" (PrClusterKeyID identity).
Definition validNodeCredentialMaterial (c : NodeCredentialMaterial) : bool :=
  canonicalUUID (NMID c) && (length (NMSecret c) =? bootstrapCredentialBytes)%nat && negb (NMHashVersion c =? "")
  && (slen (NMHash c) =? 64)%Z && sall isLowerHex (NMHash c).
Definition payload_sum (payload : list Z) : string := sha256_hex (string_of payload).
Definition matchesRetry (g : EnrollmentGrantRecord) (tokenID : string) (q : PrimaryGrantRequest) (identity : PrimaryIdentityRecord)
    (recipientWire : string) (now : time) : bool :=
  (ERAttemptID g =? QAttemptID q) && (ERTokenID g =? tokenID) && (ERInstallationID g =? QTargetInstallationID q) && (ERNodeID g =? QTargetNodeID q)
  && (ERPrimaryID g =? QPrimaryInstallationID q) && (ERPrimaryGeneration g =? QGeneration q)%Z
  && (ERPrimaryID g =? PrInstallationID identity) && (ERPrimaryGeneration g =? PrLeadership identity)%Z
  && (ERNodeEphemeralPublicKey g =? recipientWire) && (ERVerifiedPreviewDigest g =? hex_encode (QPreviewDigest q))
  && time_before now (ERExpiresAt g) && negb (length (ERSealedBootstrapPayload g) =? 0)%nat && negb (ERPayloadHash g =? "")
  && (ERPayloadHash g =? payload_sum (ERSealedBootstrapPayload g)).
Definition responseFromGrant (g : EnrollmentGrantRecord) : PrimaryGrantResponse :=
  mkGrantResponse (string_of (ERSealedBootstrapPayload g)) (ERPayloadHash g) (ERExpiresAt g).
Definition denied {A} (r : canonical A) : enrolled A := match r with Ok a => Ok a | Err _ => Err ErrEnrollmentDenied end.
Definition or_denied {A} (r : option A) : enrolled A := match r with Some a => Ok a | None => Err ErrEnrollmentDenied end.

Definition request_binding (q : PrimaryGrantRequest) : BootstrapBinding :=
  mkBootstrapBinding BootstrapProtocolVersion (QAttemptID q) (QPrimaryInstallationID q) (QTargetInstallationID q) (QTargetNodeID q)
    (QGeneration q) (QPreviewDigest q).
Definition request_metadata (q : PrimaryGrantRequest) (credential key : string) (expires : time) : BootstrapGrantMetadata :=
  mkGrantMetadata BootstrapProtocolVersion credential key (QPrimaryInstallationID q) (QTargetInstallationID q) (QTargetNodeID q)
    (QAttemptID q) (QGeneration q) expires.1.
(** The rows of a new grant, and the role that is committed. *)
Definition store_grant (stamp : string) (t : primary_tables) (token : string) (identity : PrimaryIdentityRecord) (q : PrimaryGrantRequest)
    (recipientWire : string) (credential : NodeCredentialMaterial) (sealed : string) (now expires : time) : canonical (primary_tables * TopologyRole) :=
  tx ← CreateNodeCredential (t, None) (NMID credential) (QTargetNodeID q) (NMHash credential) (NMHashVersion credential) now;
  tx ← CreateEnrolledNode tx (QTargetNodeID q) (QTargetInstallationID q) (QPrimaryInstallationID q) (NMID credential) (QAttemptID q) now;
  tx ← CreateEnrollmentGrant tx (mkGrantRecord (QAttemptID q) token (QTargetInstallationID q) (QTargetNodeID q) (QPrimaryInstallationID q)
         (QGeneration q) (hex_encode (QPreviewDigest q)) recipientWire (bytes_of sealed) (payload_sum (bytes_of sealed)) now expires);
  tx ← ConsumeEnrollmentToken tx token (QAttemptID q) now;
  if PrRole identity =? TopologyRolePrimary then
    tx ← TransitionPrimaryToWithNodes tx stamp (PrLeadership identity); mret (tx.1, TopologyRolePrimaryWithNodes)
  else mret (tx.1, PrRole identity).
Definition issue_new (s : PrimaryService) (e : entropy) (q : PrimaryGrantRequest) (recipientWire stamp : string) (now : time) (ttl : Z)
    (token : EnrollmentTokenRecord) (identity : PrimaryIdentityRecord) (t : primary_tables)
    : enrolled (primary_tables * (TopologyRole * PrimaryGrantResponse)) :=
  match PSIssuer s with
  | None => Err ErrEnrollmentDenied
  | Some issuer =>
      ensure ((TRConsumedByAttemptID token =? "") && time_before now (TRExpiresAt token) && is_null (TRRevokedAt token)) ErrEnrollmentDenied;;
      '(t, material) ← denied (LoadOrCreateClusterKEK uuid_Parse master t stamp e (clusterKeyID identity));
      ensure (length (CopyKeyBytes material) =? bootstrapKEKBytes)%nat ErrEnrollmentDenied;;
      credential ← or_denied (IssueNodeCredential issuer);
      ensure (validNodeCredentialMaterial credential && ValidateNodeCredential issuer credential) ErrEnrollmentDenied;;
      let expires := time_add now ttl in
      ensure (time_before now expires) ErrEnrollmentDenied;;
      grant ← map_err (fun _ => ErrEnrollmentDenied)
                (NewBootstrapGrant (request_metadata q (NMID credential) (MaterialID material) expires) (NMSecret credential) (CopyKeyBytes material));
      sealed ← map_err (fun _ => ErrEnrollmentDenied) (PSSeal s (QRecipientPublicKey q) (request_binding q) grant);
      '(t, role) ← denied (store_grant stamp t (TRID token) identity q recipientWire credential sealed now expires);
      mret (t, (role, mkGrantResponse sealed (payload_sum (bytes_of sealed)) expires))
  end.
Definition exchange (s : PrimaryService) (e : entropy) (q : PrimaryGrantRequest) (selector tokenHash recipientWire : string) (now : time) (ttl : Z)
    (stamp : string) (t : primary_tables) : enrolled (primary_tables * (TopologyRole * PrimaryGrantResponse)) :=
  token ← denied (LockEnrollmentToken t selector);
  ensure (validTokenSecret token tokenHash) ErrEnrollmentDenied;;
  identity ← denied (LockPrimaryIdentity uuid_Parse t);
  ensure (validExpectedPrimary identity q) ErrEnrollmentDenied;;
  match TRConsumedAt token with
  | Some _ =>
      ensure (TRConsumedByAttemptID token =? QAttemptID q) ErrEnrollmentDenied;;
      grant ← denied (GetEnrollmentGrant t (QAttemptID q));
      ensure (matchesRetry grant (TRID token) q identity recipientWire now) ErrEnrollmentDenied;;
      mret (t, (PrRole identity, responseFromGrant grant))
  | None => issue_new s e q recipientWire stamp now ttl token identity t
  end.

Context (ECDH : list Z -> list Z -> option (list Z)).
Context (canonical_url : string -> option string) (normalized_ca : string -> option (string * string)).
Definition IssueGrant (s : PrimaryService) (e : entropy) (clock now : time) (t : primary_tables) (q : PrimaryGrantRequest)
    : primary_tables * enrolled PrimaryGrantResponse :=
  let ttl := if (QGrantTTL q =? 0)%Z then PSGrantTTL s else QGrantTTL q in
  match parseToken canonical_url normalized_ca (QEnrollmentToken q) with
  | None => (t, Err ErrEnrollmentDenied)
  | Some (selector, secret) =>
      if negb (validPrimaryGrantRequest q) || (ttl <=? 0)%Z then (t, Err ErrEnrollmentDenied) else
      match marshalBootstrapRecipientPublicKeyV2 ECDH (QRecipientPublicKey q) with
      | Err _ => (t, Err ErrEnrollmentDenied)
      | Ok recipientWire =>
          ActivateEnrollment (PSIdentity s) ErrEnrollmentDenied t (fun t =>
            WithPrimaryGrant t clock (exchange s e q selector (hashSecret secret) recipientWire now ttl))
      end
  end.
End grants.

(** ** The issuer of the server (cmd/server/node_credential_issuer.go); [drawn] is what is generated *)
Definition nodeCredentialIssuer (uuid_Parse : string -> option uuid) (drawn : granted NodeCredential) : NodeCredentialIssuer :=
  mkIssuer
    (match drawn with
     | Ok c => Some (mkCredentialMaterial (cid c) (default [] (CopyBytes c)) (CredentialHash c) NodeCredentialHashVersion)
     | Err _ => None
     end)
    (fun m => (NMHashVersion m =? NodeCredentialHashVersion)
              && match newNodeCredential uuid_Parse (NMID m) (NMSecret m) with Ok c => CredentialHash c =? NMHash m | Err _ => false end).

(** ** The node stores what it was granted (bootstrap_accept.go) *)
Definition NodeCredentialSecretPurpose : string := "node-credential".
Record AcceptedBootstrap := mkAccepted {
  ACredentialID : string; AClusterKeyID : string; ASourcePrimaryInstallationID : string; ALeadershipGeneration : Z; AExpiresAt : time }.
#[global] Instance bootstrap_store_failure : StoreFailure bootstrap_error := fun _ => ErrBootstrapPersistence.
Definition set_secrets (t : primary_tables) (l : list SecretRow) : primary_tables :=
  mkPrimaryTables (topo t) (applied_snapshots t) (enrollment_tokens t) (enrollment_grants t) (node_snapshot_acks t) l (user_rows t).
Section acceptor.
Context (uuid_Parse : string -> option uuid) (ECDH : list Z -> list Z -> option (list Z)) (master : string).
Definition putCredentialInWrite (iv : list Z) (t : primary_tables) (id : string) (secret : list Z) : booted (primary_tables * unit) :=
  let encoded := EncodeToString secret in
  match find_first (fun r => sr_id r =? id) (secret_rows t) with
  | Some existing =>
      match DecryptSecret (sr_ciphertext existing) master with
      | Ok plaintext => if plaintext =? encoded then Ok (t, tt) else Err ErrBootstrapDenied
      | Err _ => Err ErrBootstrapDenied
      end
  | None =>
      match EncryptSecret iv encoded master with
      | Err _ => Err ErrBootstrapPersistence
      | Ok ciphertext =>
          ensure (uuidPattern id && negb (has_nul ciphertext)) ErrBootstrapPersistence;;
          mret (set_secrets t (secret_rows t ++ [mkSecretRow id NodeCredentialSecretPurpose ciphertext]), tt)
      end
  end.
(** [iv1] and [iv2] are the nonces of the two encryptions. *)
Definition Accept (iv1 iv2 : list Z) (clock now : time) (t : primary_tables) (recipient : list Z) (binding : BootstrapBinding)
    (sealed payloadHash : string) : primary_tables * booted AcceptedBootstrap :=
  if (master =? "") || (sealed =? "") || negb (sha256_hex sealed =? payloadHash) then (t, Err ErrBootstrapDenied) else
  match OpenBootstrap ECDH recipient binding sealed with
  | Err _ => (t, Err ErrBootstrapDenied)
  | Ok grant =>
      let m := GMetadata grant in
      let expiresAt := (GExpiresAtUnix m, 0%Z) in
      if negb (time_before now expiresAt) then (t, Err ErrBootstrapDenied) else
      match uuid_Parse (GCredentialID m), uuid_Parse (GClusterKeyID m) with
      | Some credentialID, Some keyID =>
          if (keyID =? uuid_Nil) || (credentialID =? uuid_Nil) then (t, Err ErrBootstrapDenied) else
          let '(t, r) := Write t clock (fun stamp t =>
            '(x, _) ← map_err (fun _ => ErrBootstrapDenied) (ImportInWrite master stamp iv1 (topo t) keyID (GClusterKEK grant));
            putCredentialInWrite iv2 (set_topo t x) credentialID (GNodeCredential grant)) in
          (t, _ ← r; Ok (mkAccepted credentialID keyID (GSourcePrimary m) (GGeneration m) expiresAt))
      | _, _ => (t, Err ErrBootstrapDenied)
      end
  end.
Definition LoadNodeCredentialSecret (t : primary_tables) (credentialID : string) : booted (list Z) :=
  match uuid_Parse credentialID with
  | None => Err ErrBootstrapDenied
  | Some parsed =>
      if parsed =? uuid_Nil then Err ErrBootstrapDenied else
      match find_first (fun r => (sr_id r =? parsed) && (sr_purpose r =? NodeCredentialSecretPurpose)) (secret_rows t) with
      | None => Err ErrBootstrapDenied
      | Some r =>
          match DecryptSecret (sr_ciphertext r) master with
          | Err _ => Err ErrBootstrapDenied
          | Ok plaintext =>
              match DecodeString plaintext with
              | Some secret => if (length secret =? bootstrapCredentialBytes)%nat then Ok secret else Err ErrBootstrapDenied
              | None => Err ErrBootstrapDenied
              end
          end
      end
  end.
End acceptor.
