(* ===== verification/EnrollmentFacts.v ===== *)
(** * What enrolling a node promises

    A token serves one attempt; a request that is repeated gets the grant it got; what a
    primary seals is what the node stores, and what the node stores opens the primary. *)

From S2P Require Import Prelude Transfer Publisher GoStrings StrFacts Json JsonFacts JsonText JsonRead RProxy Timestamp GoTime Model Identity Topology Sha256 AesGcm Kek SecretBox Snapshot SnapshotText Credentials Jobs Store StoreFacts Revisions NodeSyncStore Installation InstallationStore InstallationStoreFacts ClusterKeys ClusterKeysFacts PrimaryStore Publication Canonical PrimaryFacts PublisherFacts Bootstrap Enrollment.
From stdpp Require Import options.

(** ** base64 with padding *)
Definition std_sextet_ok (v : Z) : bool :=
  bool_decide (std_value (std_char v) = Some v) && negb (ascii_eqb (std_char v) "=") && negb (ascii_eqb (std_char v) CR) && negb (ascii_eqb (std_char v) LF).
Lemma std_sextet v : (0 <= v < 64)%Z -> std_value (std_char v) = Some v /\ ascii_eqb (std_char v) "=" = false
  /\ ascii_eqb (std_char v) CR = false /\ ascii_eqb (std_char v) LF = false.
Proof.
  intros Hv. assert (std_sextet_ok v = true) as H.
  { assert (forallb std_sextet_ok (seqZ 0 64) = true) as Hf by (by vm_compute). apply forallb_Forall in Hf.
    rewrite Forall_forall in Hf. apply Hf, elem_of_seqZ. lia. }
  unfold std_sextet_ok in H. rewrite !andb_true_iff, !negb_true_iff, bool_decide_eq_true in H. tauto.
Qed.
Lemma skip_newlines_app a b : skip_newlines (a +:+ b) = skip_newlines a +:+ skip_newlines b.
Proof. induction a as [|c a IH]; [done|]. change (String c a +:+ b) with (String c (a +:+ b)). cbn [skip_newlines]. rewrite IH. by destruct (_ || _). Qed.
Lemma skip_std_chars l : Forall (fun v => 0 <= v < 64)%Z l -> skip_newlines (std_chars l) = std_chars l.
Proof.
  induction 1 as [|v l Hv _ IH]; [done|]. cbn [std_chars skip_newlines]. destruct (std_sextet v Hv) as (_&_&->&->). by rewrite IH.
Qed.
Lemma StdDecode_Encode l : Forall is_byte l -> StdDecodeString (StdEncodeToString l) = Some l.
Proof.
  intros Hl. unfold StdDecodeString, StdEncodeToString. rewrite skip_newlines_app, skip_std_chars by (by apply sextets_range).
  assert (forall s : string, s = (match (length l mod 3)%nat with 1 => "==" | 2 => "=" | _ => "" end : string) -> skip_newlines s = s) as ->.
  { intros s ->. by destruct (_ mod _) as [|[|[|]]]. }
  2: done.
  induction l as [|a|a b|a b c l IH] using triple_ind; [done|..]; pose proof (sextets_range _ Hl) as Hs; pose proof (decode_sextets _ Hl) as Hd.
  - cbn [sextets std_chars] in *. apply Forall_cons in Hs as [H1 [H2 _]%Forall_cons]. destruct (std_sextet _ H1) as (E1&_), (std_sextet _ H2) as (E2&_).
    cbn -[std_char std_value decode_quads]. by rewrite E1, E2.
  - cbn [sextets std_chars] in *. cbv zeta in *. apply Forall_cons in Hs as [H1 [H2 [H3 _]%Forall_cons]%Forall_cons].
    destruct (std_sextet _ H1) as (E1&_), (std_sextet _ H2) as (E2&_), (std_sextet _ H3) as (E3&E4&_).
    cbn -[std_char std_value decode_quads]. by rewrite E1, E2, E3, E4.
  - apply Forall_cons in Hl as [Ha [Hb [Hc Hl]%Forall_cons]%Forall_cons]. specialize (IH Hl).
    assert ((length (a :: b :: c :: l) mod 3)%nat = (length l mod 3)%nat) as ->.
    { cbn [length]. change (S (S (S (length l)))) with (3 + length l). rewrite Nat.Div0.add_mod. change (3 mod 3) with 0. cbn [plus]. by rewrite Nat.Div0.mod_mod. }
    cbn [sextets std_chars] in *. cbv zeta in *.
    apply Forall_cons in Hs as [H1 [H2 [H3 [H4 _]%Forall_cons]%Forall_cons]%Forall_cons].
    destruct (std_sextet _ H1) as (E1&_), (std_sextet _ H2) as (E2&_), (std_sextet _ H3) as (E3&E4&_), (std_sextet _ H4) as (E5&E6&_).
    cbn [String.append decode_padded]. rewrite E1, E2. cbn [mbind option_bind]. rewrite E4, E3. cbn [mbind option_bind]. rewrite E6, E5. cbn [mbind option_bind].
    cbn [decode_quads] in Hd |- *. rewrite decode_sextets in Hd by done. cbn [mbind option_bind] in Hd |- *.
    match goal with |- context [decode_padded ?s] => change (decode_padded s) with (decode_padded (std_chars (sextets l) +:+ match (length l mod 3)%nat with 1 => "==" | 2 => "=" | _ => "" end)) end.
    rewrite IH. cbn [mbind option_bind app]. exact Hd.
Qed.

(** ** The tables of a grant *)
Section grants.
Context (uuid_Parse : string -> option uuid) (master : string).
Context (ECDH : list Z -> list Z -> option (list Z)) (canonical_url : string -> option string) (normalized_ca : string -> option (string * string)).
Local Abbreviation issue := (IssueGrant uuid_Parse master ECDH canonical_url normalized_ca).

Lemma denied_Ok {A} (r : canonical A) a : denied r = Ok a -> r = Ok a.
Proof using. destruct r; cbn; congruence. Qed.
Lemma grant_store_Ok {A} (r : canonical A) a : grant_store r = Ok a -> r = Ok a.
Proof using. destruct r; cbn; congruence. Qed.
Lemma or_denied_Ok {A} (r : option A) a : or_denied r = Ok a -> r = Some a.
Proof using. destruct r; cbn; congruence. Qed.

Definition grants_kept (t t' : primary_tables) : Prop := enrollment_tokens t' = enrollment_tokens t /\ enrollment_grants t' = enrollment_grants t.
Lemma kek_grants t stamp e key t' m : LoadOrCreateClusterKEK uuid_Parse master t stamp e key = Ok (t', m) -> grants_kept t t'.
Proof using.
  intros H. apply bind_Ok in H as (active&_&H). destruct (LoadOrCreateInWrite _ _ _ _ _ _ _) as [[x m']|]; [|done].
  apply bind_Ok in H as (bound&_&H). destruct (uuid_Parse _); [|done]. destruct (_ || _); [done|]. by injection H as <- _.
Qed.
Lemma CreateNodeCredential_grants tx id node hash version at_ tx' : CreateNodeCredential tx id node hash version at_ = Ok tx' -> grants_kept tx.1 tx'.1.
Proof using.
  destruct tx as [t rotated]. intros H. apply bind_Ok in H as (st&_&H). cbv zeta in H. destruct (_ ≫= _) as [[c n]|].
  - destruct (is_null _); [done|]. apply bind_Ok in H as ([]&_&H). apply bind_Ok in H as (l&_&H). by apply Ok_inj in H as <-.
  - apply bind_Ok in H as ([]&_&H). by apply Ok_inj in H as <-.
Qed.
Lemma CreateEnrolledNode_grants tx node inst prim cred att at_ tx' : CreateEnrolledNode tx node inst prim cred att at_ = Ok tx' -> grants_kept tx.1 tx'.1.
Proof using.
  destruct tx as [t rotated]. intros H. apply bind_Ok in H as (st&_&H). cbv zeta in H. destruct rotated as [k|].
  - apply bind_Ok in H as ([]&_&H). apply bind_Ok in H as ([]&_&H). apply bind_Ok in H as (l&_&H). by apply Ok_inj in H as <-.
  - apply bind_Ok in H as ([]&_&H). by apply Ok_inj in H as <-.
Qed.
(** The row that records what was sealed. *)
Definition issued_row (q : PrimaryGrantRequest) (token wire sealed created expires : string) : GrantRow :=
  mkGrant (QAttemptID q) token (QTargetInstallationID q) (QTargetNodeID q) (QPrimaryInstallationID q) (QGeneration q)
    (Some (hex_encode (QPreviewDigest q))) wire (StdEncodeToString (bytes_of sealed)) (payload_sum (bytes_of sealed)) created expires.
Record granted_rows (t t' : primary_tables) (q : PrimaryGrantRequest) (token wire sealed : string) (now expires : time) : Prop := mkGrantedRows {
  gr_rows : exists created ends, sqliteEnrollmentTokenTime now = Ok created /\ sqliteEnrollmentTokenTime expires = Ok ends
    /\ enrollment_grants t' = enrollment_grants t ++ [issued_row q token wire sealed created ends]
    /\ enrollment_tokens t' = map (fun r => if open_token token r then consume_by created (QAttemptID q) r else r) (enrollment_tokens t);
  gr_fresh : Forall (fun o => g_attempt o <> QAttemptID q /\ g_token o <> token) (enrollment_grants t);
  gr_open : exists r, List.filter (open_token token) (enrollment_tokens t) = [r];
  gr_sealed : length (bytes_of sealed) <> 0 }.
Lemma store_grant_rows stamp t token identity q wire c sealed now expires t' role :
  store_grant uuid_Parse stamp t token identity q wire c sealed now expires = Ok (t', role) -> granted_rows t t' q token wire sealed now expires.
Proof using.
  intros H. apply bind_Ok in H as (x1&[K1 K2]%CreateNodeCredential_grants&H). apply bind_Ok in H as (x2&[K3 K4]%CreateEnrolledNode_grants&H).
  cbn [fst] in K1, K2. rewrite K1 in K3. rewrite K2 in K4.
  apply bind_Ok in H as (x3&Hg&H). apply bind_Ok in H as (x4&Hc&H).
  destruct x2 as [t2 o2]. cbn [fst] in *. apply bind_Ok in Hg as ([]&[_ Hne%negb_true_iff%Nat.eqb_neq]%ensure_Ok%andb_true_iff&Hg). cbn [ERCreatedAt ERExpiresAt] in Hg.
  apply bind_Ok in Hg as (created&Hcr%grant_store_Ok%from_store_Ok&Hg). apply bind_Ok in Hg as (ends&Hex%grant_store_Ok%from_store_Ok&Hg).
  cbv zeta in Hg. apply bind_Ok in Hg as ([]&Hrow%ensure_Ok&Hg). apply Ok_inj in Hg as <-. unfold ConsumeEnrollmentToken in Hc.
  destruct (uuid_Parse token); [|done]. apply bind_Ok in Hc as (st&Hst%grant_store_Ok%from_store_Ok&Hc). apply bind_Ok in Hc as ([]&Hone%ensure_Ok&Hc).
  apply Ok_inj in Hc as <-. assert (st = created) as -> by congruence.
  assert (granted_rows t (update_tokens (open_token token) (consume_by created (QAttemptID q)) (set_grants t2 (enrollment_grants t2 ++
            [issued_row q token wire sealed created ends]))) q token wire sealed now expires) as Hall.
  { split.
    - exists created, ends. cbn [enrollment_grants update_tokens set_tokens set_grants enrollment_tokens]. by rewrite K3, K4.
    - apply andb_true_iff in Hrow as [_ Hf]. cbn [g_attempt g_token ERAttemptID ERTokenID] in Hf. apply forallb_Forall in Hf.
      rewrite <- K4. eapply Forall_impl; [exact Hf|]. cbv beta. intros o [Ha%negb_true_iff%String.eqb_neq Hb%negb_true_iff%String.eqb_neq]%andb_true_iff. done.
    - apply andb_true_iff in Hone as [_ Hone%Nat.eqb_eq]. cbn [set_grants enrollment_tokens] in Hone. rewrite K3 in Hone.
      destruct (List.filter _ _) as [|r [|]]; try done. by exists r.
    - exact Hne. }
  destruct (_ =? _) in H.
  - apply bind_Ok in H as (x5&Ht&H). apply Ok_inj in H as [= <- _]. apply bind_Ok in Ht as ([]&_&Ht).
    destruct (identity_row _); [|done]. apply bind_Ok in Ht as ([]&_&Ht). apply Ok_inj in Ht as <-. destruct Hall as [H1 H2 H3 H4]. by split.
  - apply Ok_inj in H as [= <- _]. exact Hall.
Qed.

(** What a successful exchange found and did. *)
Lemma issue_new_Ok s e q wire stamp now ttl token identity t t' role resp :
  issue_new uuid_Parse master s e q wire stamp now ttl token identity t = Ok (t', (role, resp)) ->
  TRConsumedByAttemptID token = "" /\ TRRevokedAt token = None /\ exists sealed, RSealedBootstrapPayload resp = sealed
    /\ RPayloadHash resp = payload_sum (bytes_of sealed) /\ RExpiresAt resp = time_add now ttl
    /\ exists t1, grants_kept t t1 /\ granted_rows t1 t' q (TRID token) wire sealed now (time_add now ttl).
Proof using.
  unfold issue_new. destruct (PSIssuer s) as [issuer|]; [|done]. intros H. apply bind_Ok in H as ([]&Hok%ensure_Ok&H).
  apply andb_true_iff in Hok as [[H1%String.eqb_eq _]%andb_true_iff H2]. split; [done|]. split; [by destruct (TRRevokedAt token)|].
  apply bind_Ok in H as ([t1 material]&Hk%denied_Ok%kek_grants&H). apply bind_Ok in H as ([]&_&H). apply bind_Ok in H as (c&_&H).
  apply bind_Ok in H as ([]&_&H). cbv zeta in H. apply bind_Ok in H as ([]&_&H). apply bind_Ok in H as (grant&_&H). apply bind_Ok in H as (sealed&_&H).
  apply bind_Ok in H as ([t2 role']&Hs%denied_Ok%store_grant_rows&H). apply Ok_inj in H as [= <- _ <-]. exists sealed. repeat (split; [done|]). by exists t1.
Qed.

(** ** A token and the attempt it serves *)
Definition keeps_grants (i : activation) : Prop := forall t, grants_kept t (prepare i t).1.
Lemma issue_Ok s e clock now t q t' resp : issue s e clock now t q = (t', Ok resp) ->
  exists sel secret wire t1 stamp role, parseToken canonical_url normalized_ca (QEnrollmentToken q) = Some (sel, secret)
    /\ validPrimaryGrantRequest uuid_Parse q = true
    /\ marshalBootstrapRecipientPublicKeyV2 ECDH (QRecipientPublicKey q) = Ok wire /\ t1 = (prepare (PSIdentity s) t).1
    /\ encodeTime clock = Ok stamp /\ nodes_keyed t' = true
    /\ exchange uuid_Parse master s e q sel (hashSecret secret) wire now (if (QGrantTTL q =? 0)%Z then PSGrantTTL s else QGrantTTL q) stamp t1
       = Ok (t', (role, resp)).
Proof using.
  unfold IssueGrant. cbv zeta. destruct (parseToken _ _ _) as [[sel secret]|]; [|done].
  destruct (validPrimaryGrantRequest _ _) eqn:Hv; cbn [negb orb]; [|done]. destruct (_ <=? 0)%Z; [done|].
  destruct (marshalBootstrapRecipientPublicKeyV2 _ _) as [wire|]; [|done]. unfold ActivateEnrollment.
  destruct (prepare _ _) as [t1 ready] eqn:Ep. destruct ready; cbn [negb]; [|done].
  destruct (WithPrimaryGrant _ _ _) as [t2 [[role r]|]] eqn:Ew; [|done]. intros H. assert (t2 = t' /\ r = resp) as [-> ->].
  { destruct (takes_role _ _); [by injection H|done]. }
  apply Write_Ok in Ew as (stamp&Hst&Hx). apply bind_Ok in Hx as ([t3 a]&Hx&H'). apply bind_Ok in H' as ([]&Hk%ensure_Ok&H').
  apply Ok_inj in H' as [= -> ->]. exists sel, secret, wire, t1, stamp, role. by repeat (split; [done|]).
Qed.
Lemma issue_tables s e clock now t q : keeps_grants (PSIdentity s) -> let t' := (issue s e clock now t q).1 in
  grants_kept t t' \/ exists t1 token wire sealed expires, grants_kept t t1 /\ granted_rows t1 t' q token wire sealed now expires.
Proof using.
  intros Hi. cbv zeta. unfold IssueGrant. cbv zeta. destruct (parseToken _ _ _) as [[sel secret]|]; [|by left]. destruct (_ || _); [by left|].
  destruct (marshalBootstrapRecipientPublicKeyV2 _ _) as [wire|]; [|by left]. unfold ActivateEnrollment. specialize (Hi t).
  destruct (prepare _ _) as [t1 ready] eqn:Ep. cbn [fst] in Hi. destruct ready; cbn [negb]; [|by left].
  destruct (WithPrimaryGrant t1 _ _) as [t2 r] eqn:Ew.
  assert (grants_kept t t2 \/ exists t1 token wire sealed expires, grants_kept t t1 /\ granted_rows t1 t2 q token wire sealed now expires) as Hall; [|by destruct r as [[? ?]|]].
  unfold WithPrimaryGrant, Write in Ew. destruct (encodeTime clock) as [stamp|]; [|injection Ew as <- _; by left].
  destruct (exchange _ _ _ _ _ _ _ _ _ _ _ _) as [[t3 [role resp]]|] eqn:Ex; cbn [mbind result_bind] in Ew; [|injection Ew as <- _; by left].
  destruct (nodes_keyed t3); cbn [ensure mbind result_bind mret result_ret] in Ew; [|injection Ew as <- _; by left]. injection Ew as -> _.
  apply bind_Ok in Ex as (token&_&Ex). apply bind_Ok in Ex as ([]&_&Ex). apply bind_Ok in Ex as (identity&_&Ex). apply bind_Ok in Ex as ([]&_&Ex).
  destruct (TRConsumedAt token).
  - apply bind_Ok in Ex as ([]&_&Ex). apply bind_Ok in Ex as (g&_&Ex). apply bind_Ok in Ex as ([]&_&Ex). apply Ok_inj in Ex as [= <- _ _]. by left.
  - apply issue_new_Ok in Ex as (_&_&sealed&_&_&_&t4&[K1 K2]&Hrows). right. exists t4. do 4 eexists. split; [|exact Hrows].
    destruct Hi as [I1 I2]. split; congruence.
Qed.
Lemma locked_token t sel token : LockEnrollmentToken t sel = Ok token -> exists r, r ∈ enrollment_tokens t /\ t_selector r = sel
  /\ TRID token = t_id r /\ TRConsumedByAttemptID token = default "" (t_by r)
  /\ (TRConsumedAt token = None -> t_consumed r = None) /\ (TRRevokedAt token = None -> t_revoked r = None)
  /\ (t_consumed r = None -> TRConsumedAt token = None).
Proof using.
  unfold LockEnrollmentToken. destruct (token_of t sel) as [r|] eqn:E; [|done]. apply find_first_Some in E as (Hin&Hs%String.eqb_eq).
  intros H%grant_store_Ok. apply bind_Ok in H as (ex&_&H). apply bind_Ok in H as (c&Hc%from_store_Ok&H). apply bind_Ok in H as (v&Hv%from_store_Ok&H).
  apply Ok_inj in H as <-. exists r. repeat (split; [done|]). cbn [TRConsumedAt TRRevokedAt]. split; [|split].
  - intros ->. by apply enqueue_null.
  - intros ->. by apply enqueue_null.
  - intros E. rewrite E in Hc. by apply Ok_inj in Hc as <-.
Qed.
(** The grant row answers requests of this shape. *)
Record serves (g : GrantRow) (q : PrimaryGrantRequest) (wire : string) (resp : PrimaryGrantResponse) : Prop := mkServes {
  sv_target : g_installation g = QTargetInstallationID q /\ g_node g = QTargetNodeID q;
  sv_primary : g_primary g = QPrimaryInstallationID q /\ g_generation g = QGeneration q;
  sv_digest : default "" (g_digest g) = hex_encode (QPreviewDigest q);
  sv_recipient : g_recipient g = wire;
  sv_payload : string_of <$> StdDecodeString (g_payload g) = Some (RSealedBootstrapPayload resp);
  sv_hash : g_payload_hash g = RPayloadHash resp }.
Definition redeemed (t : primary_tables) (sel token attempt : string) (g : GrantRow) : Prop :=
  (forall r, r ∈ enrollment_tokens t -> t_selector r = sel -> t_id r = token /\ is_Some (t_consumed r) /\ default "" (t_by r) = attempt)
  /\ (exists r, r ∈ enrollment_tokens t /\ t_selector r = sel)
  /\ find_first (fun g => g_attempt g =? attempt) (enrollment_grants t) = Some g /\ g_token g = token.
Lemma answered_again s e q sel hash wire now ttl stamp t t' role resp token attempt g : redeemed t sel token attempt g ->
  exchange uuid_Parse master s e q sel hash wire now ttl stamp t = Ok (t', (role, resp)) -> t' = t /\ QAttemptID q = attempt /\ serves g q wire resp.
Proof using.
  intros (Hall&_&Hg&_) H. apply bind_Ok in H as (tok&(r&Hin&Hsel&_&Hby&Hnone&_&_)%denied_Ok%locked_token&H). apply bind_Ok in H as ([]&_&H).
  apply bind_Ok in H as (identity&_&H). apply bind_Ok in H as ([]&_&H). destruct (Hall r Hin Hsel) as (_&Hcons&Hatt).
  destruct (TRConsumedAt tok); [|destruct Hcons as [? Hc]; by rewrite Hnone in Hc].
  apply bind_Ok in H as ([]&Hsame%ensure_Ok%String.eqb_eq&H). apply bind_Ok in H as (gr&Hgr%denied_Ok&H). apply bind_Ok in H as ([]&Hm%ensure_Ok&H).
  apply Ok_inj in H as [= <- _ <-]. assert (QAttemptID q = attempt) as Ha by congruence. split; [done|]. split; [done|].
  unfold GetEnrollmentGrant in Hgr. rewrite Ha, Hg in Hgr. destruct (_ <=? 0)%Z; [done|]. destruct (StdDecodeString (g_payload g)) as [payload|] eqn:Ed; [|done].
  apply grant_store_Ok in Hgr. apply bind_Ok in Hgr as (cr&_&Hgr). apply bind_Ok in Hgr as (ex&_&Hgr). apply Ok_inj in Hgr as <-.
  unfold matchesRetry in Hm. cbn [ERInstallationID ERNodeID ERPrimaryID ERPrimaryGeneration ERNodeEphemeralPublicKey ERVerifiedPreviewDigest] in Hm. bsimp.
  by split; rewrite ?Ed.
Qed.

Lemma fresh_find_old (l : list GrantRow) (x : GrantRow) attempt g :
  find_first (fun g => g_attempt g =? attempt) l = Some g -> find_first (fun g => g_attempt g =? attempt) (l ++ [x]) = Some g.
Proof using. intros H. by rewrite find_first_app, H. Qed.
Lemma fresh_find_new (l : list GrantRow) (x : GrantRow) : Forall (fun o => g_attempt o <> g_attempt x) l ->
  find_first (fun g => g_attempt g =? g_attempt x) (l ++ [x]) = Some x.
Proof using.
  intros H. rewrite find_first_app, (proj2 (find_first_None _ l)); [cbn; by rewrite String.eqb_refl|].
  eapply Forall_impl; [exact H|]. intros o Ho. by apply String.eqb_neq.
Qed.
(** What a token's redemption leaves behind. *)
Lemma issue_redeems s e clock now t q t' resp sel secret : selectors_unique t -> keeps_grants (PSIdentity s) ->
  parseToken canonical_url normalized_ca (QEnrollmentToken q) = Some (sel, secret) -> issue s e clock now t q = (t', Ok resp) ->
  exists token g wire, redeemed t' sel token (QAttemptID q) g /\ serves g q wire resp
    /\ marshalBootstrapRecipientPublicKeyV2 ECDH (QRecipientPublicKey q) = Ok wire.
Proof using.
  intros Hu Hk Hparse H. apply issue_Ok in H as (sel'&secret'&wire&t1&stamp&role&Hp&_&Hw&->&_&_&Hx). assert (sel' = sel) as -> by congruence.
  set (t1 := (prepare (PSIdentity s) t).1) in *. destruct (Hk t) as [I1 I2]. fold t1 in I1, I2.
  assert (NoDup (map t_selector (enrollment_tokens t1))) as Hu1 by (rewrite I1; exact Hu).
  pose proof Hx as Hx'. apply bind_Ok in Hx as (tok&Hlock%denied_Ok&Hx). apply locked_token in Hlock as (r&Hin&Hsel&Hid&Hby&Hnone&Hrev&Hcn).
  apply bind_Ok in Hx as ([]&_&Hx). apply bind_Ok in Hx as (identity&_&Hx). apply bind_Ok in Hx as ([]&_&Hx).
  assert (forall o, o ∈ enrollment_tokens t1 -> t_selector o = sel -> o = r) as Hone.
  { intros o Ho Hos. apply (NoDup_map_unique t_selector (enrollment_tokens t1)); [exact Hu1|done|done|congruence]. }
  destruct (TRConsumedAt tok) as [at_|] eqn:Ec.
  - apply bind_Ok in Hx as ([]&Hsame%ensure_Ok%String.eqb_eq&Hx). apply bind_Ok in Hx as (gr&Hgr%denied_Ok&Hx). apply bind_Ok in Hx as ([]&Hm%ensure_Ok&_).
    unfold GetEnrollmentGrant in Hgr. destruct (find_first _ _) as [g|] eqn:Eg; [|done].
    destruct (_ <=? 0)%Z; [done|]. destruct (StdDecodeString _) as [payload|]; [|done]. apply grant_store_Ok in Hgr.
    apply bind_Ok in Hgr as (cr&_&Hgr). apply bind_Ok in Hgr as (ex&_&Hgr). apply Ok_inj in Hgr as <-.
    unfold matchesRetry in Hm. cbn [ERAttemptID ERTokenID] in Hm. rewrite !andb_true_iff in Hm.
    assert (redeemed t1 sel (TRID tok) (QAttemptID q) g) as Hr.
    { split; [|split; [by exists r|]].
      - intros o Ho Hos. rewrite (Hone o Ho Hos). split; [done|]. split; [|congruence].
        destruct (t_consumed r) eqn:E; [by eexists|]. specialize (Hcn eq_refl). congruence.
      - split; [done|]. apply String.eqb_eq. tauto. }
    apply (answered_again _ _ _ _ _ _ _ _ _ _ _ _ _ _ _ _ Hr) in Hx' as (->&_&Hs). by exists (TRID tok), g, wire.
  - apply issue_new_Ok in Hx as (_&Hr&sealed&<-&Hh&_&t2&[K1 K2]&[(created&ends&_&_&Hgs&Hts) Hf (x&Hx)]). specialize (Hnone eq_refl). specialize (Hrev Hr).
    rewrite K1 in *. rewrite K2 in *. exists (TRID tok), (issued_row q (TRID tok) wire (RSealedBootstrapPayload resp) created ends), wire. split; [|split; [|done]].
    + assert (open_token (TRID tok) r = true) as Ho by (unfold open_token; by rewrite Hid, String.eqb_refl, Hnone, Hrev).
      split; [|split].
      * rewrite Hts. intros o (y&->&Hy)%list_elem_of_fmap Hos. assert (t_selector y = sel) as Hys by (revert Hos; by destruct (open_token _ y)).
        rewrite (Hone y Hy Hys), Ho. cbn. by split.
      * rewrite Hts. exists (consume_by created (QAttemptID q) r). split; [|done]. apply list_elem_of_fmap. exists r. by rewrite Ho.
      * rewrite Hgs. split; [|done]. apply (fresh_find_new _ (issued_row _ _ _ _ _ _)). eapply Forall_impl; [exact Hf|]. by intros o [? _].
    + split; try done. cbn [g_payload issued_row]. rewrite StdDecode_Encode by apply bytes_of_byte. cbn. by rewrite string_of_bytes.
Qed.

(** Anything the primary does to its tokens and grants. *)
Inductive enroll_step (t : primary_tables) : primary_tables -> Prop :=
| enroll_create clock id s hash version owner created expires : enroll_step t (CreateEnrollmentToken t clock id s hash version owner created expires).1
| enroll_check clock s hash now consume : enroll_step t (CheckEnrollmentToken t clock s hash now consume).1
| enroll_revoke clock id owner now : enroll_step t (RevokeEnrollmentToken t clock id owner now).1
| enroll_delete clock id owner now : enroll_step t (DeleteEnrollmentToken t clock id owner now).1
| enroll_issue s e clock now q : keeps_grants (PSIdentity s) -> enroll_step t (issue s e clock now t q).1
| enroll_other t' : grants_kept t t' -> enroll_step t t'.
Lemma redeemed_kept t t' sel token attempt g : grants_kept t t' -> redeemed t sel token attempt g -> redeemed t' sel token attempt g.
Proof using. intros [H1 H2]. unfold redeemed. by rewrite H1, H2. Qed.
Lemma redeemed_update t p f sel token attempt g : (forall r, t_selector (f r) = t_selector r /\ t_id (f r) = t_id r) ->
  (forall r, p r = true -> is_Some (t_consumed r) -> is_Some (t_consumed (f r)) /\ t_by (f r) = t_by r) ->
  redeemed t sel token attempt g -> redeemed (update_tokens p f t) sel token attempt g.
Proof using.
  intros Hf Hby (Hall&(r0&Hr0&Hs0)&Hg). split; [|split; [|exact Hg]].
  - intros r (o&->&Ho)%list_elem_of_fmap. specialize (Hall o Ho). destruct (p o) eqn:Ep; [|done]. destruct (Hf o) as [-> ->].
    intros (H1&H2&H3)%Hall. destruct (Hby o Ep H2) as [H4 ->]. done.
  - exists (if p r0 then f r0 else r0). split; [by apply (list_elem_of_fmap_2 (fun r => if p r then f r else r))|]. destruct (p r0); [|done]. by destruct (Hf r0) as [-> _].
Qed.
Lemma redeemed_issue t1 t' q tk wire sealed now expires sel token attempt g : granted_rows t1 t' q tk wire sealed now expires ->
  redeemed t1 sel token attempt g -> redeemed t' sel token attempt g.
Proof using.
  intros [(created&ends&_&_&Hgs&Hts) _ _ _] (Hall&(r0&Hr0&Hs0)&Hg&Htok).
  assert (forall o, o ∈ enrollment_tokens t1 -> t_selector o = sel -> open_token tk o = false) as Hclosed.
  { intros o Ho Hos. destruct (Hall o Ho Hos) as (_&[at_ E]&_). unfold open_token. rewrite E. by rewrite andb_false_r. }
  split; [|split].
  - rewrite Hts. intros r (o&->&Ho)%list_elem_of_fmap Hsel. assert (t_selector o = sel) as Hos by (revert Hsel; by destruct (open_token _ o)).
    rewrite (Hclosed o Ho Hos). by apply Hall.
  - rewrite Hts. exists r0. split; [|done]. apply list_elem_of_fmap. exists r0. by rewrite Hclosed.
  - rewrite Hgs. split; [|done]. by apply fresh_find_old.
Qed.
Lemma redeemed_step t t' sel token attempt g : enroll_step t t' -> redeemed t sel token attempt g -> redeemed t' sel token attempt g.
Proof using.
  intros Hstep Hr. destruct Hstep as [clock id s hash version owner created expires|clock s hash now consume|clock id owner now|clock id owner now|s e clock now q Hk|t' Hk].
  - apply (Write_keeps (fun t => redeemed t sel token attempt g)); [done|]. intros stamp t1 x H.
    apply bind_Ok in H as ([]&_&H). apply bind_Ok in H as (i&_&H). apply bind_Ok in H as (o&_&H). apply bind_Ok in H as (c&_&H).
    apply bind_Ok in H as (ex&_&H). destruct (_ ≫= _) as [[row role]|]; [|done]. apply bind_Ok in H as ([]&Hok%ensure_Ok&H). injection H as <- _.
    destruct Hr as (Hall&(r0&Hr0&Hs0)&Hg). split; [|split; [|exact Hg]].
    + intros r [Hin|[->|Hn%elem_of_nil]%elem_of_cons]%elem_of_app; [by apply Hall| |done]. cbn [t_selector]. intros ->. exfalso.
      unfold token_row_ok in Hok. apply andb_true_iff in Hok as [_ Hok]. apply forallb_Forall in Hok. rewrite Forall_forall in Hok.
      specialize (Hok r0 Hr0). cbn [t_selector t_id] in Hok. rewrite Hs0, String.eqb_refl, andb_false_r in Hok. done.
    + exists r0. split; [|done]. apply elem_of_app. by left.
  - apply (Write_keeps (fun t => redeemed t sel token attempt g)); [done|]. intros stamp t1 x H.
    destruct (token_of t s) as [r|]; [|done]. destruct (DecodeTimestamp _); [|done]. apply bind_Ok in H as (st&_&H).
    destruct (_ || _); [done|]. destruct (negb consume); [by injection H as <- _|]. apply bind_Ok in H as ([]&_&H). injection H as <- _.
    apply redeemed_update; [done| |done]. intros o _ _. by split; [eexists|].
  - apply (Write_keeps (fun t => redeemed t sel token attempt g)); [done|]. intros stamp t1 x H.
    apply bind_Ok in H as (i&_&H). apply bind_Ok in H as (o&_&H). apply bind_Ok in H as (st&_&H). injection H as <- _. by apply redeemed_update.
  - apply (Write_keeps (fun t => redeemed t sel token attempt g)); [done|]. intros stamp t1 x H.
    apply bind_Ok in H as (i&_&H). apply bind_Ok in H as (o&_&H). apply bind_Ok in H as (st&_&H). cbv zeta in H.
    destruct (find_first _ _) as [r|]; [|done]. destruct (DecodeTimestamp _); [|done].
    do 3 (match type of H with (if ?b then _ else _) = _ => destruct b; [done|] end). apply bind_Ok in H as ([]&_&H). injection H as <- _.
    destruct Hr as (Hall&(r0&Hr0&Hs0)&Hg&Htok). split; [|split; [|by split]].
    + intros y Hy. apply Hall. apply list_elem_of_In, filter_In in Hy as [Hy _]. by apply list_elem_of_In.
    + exists r0. split; [|done]. apply list_elem_of_In, filter_In. split; [by apply list_elem_of_In|]. destruct (Hall r0 Hr0 Hs0) as (Hid&_).
      assert (token_granted t (t_id r0) = true) as ->; [|by rewrite andb_false_r]. apply existsb_exists. exists g.
      apply find_first_Some in Hg as [Hg _]. split; [by apply list_elem_of_In|]. apply String.eqb_eq. congruence.
  - destruct (issue_tables s e clock now t q Hk) as [Hkept|(t1&tk&wire&sealed&expires&Hkept&Hrows)]; [by apply (redeemed_kept _ _ _ _ _ _ Hkept)|].
    eapply redeemed_issue; [exact Hrows|]. by apply (redeemed_kept _ _ _ _ _ _ Hkept).
  - by apply (redeemed_kept t).
Qed.

(** C20: A token serves one attempt. Once a grant was issued for it, any later request that presents
    a token with the same selector and is answered, whatever was done to tokens and grants
    meanwhile, is for the same attempt, node, primary, preview and recipient key, gets the
    payload that was sealed then, and issues nothing. *)
Theorem token_serves_one_attempt s e clock now t q t1 resp sel secret t2 s' e' clock' now' q' t3 resp' secret' :
  selectors_unique t -> keeps_grants (PSIdentity s) -> keeps_grants (PSIdentity s') ->
  parseToken canonical_url normalized_ca (QEnrollmentToken q) = Some (sel, secret) ->
  parseToken canonical_url normalized_ca (QEnrollmentToken q') = Some (sel, secret') ->
  issue s e clock now t q = (t1, Ok resp) -> rtc enroll_step t1 t2 -> issue s' e' clock' now' t2 q' = (t3, Ok resp') ->
  RSealedBootstrapPayload resp' = RSealedBootstrapPayload resp /\ RPayloadHash resp' = RPayloadHash resp
  /\ enrollment_tokens t3 = enrollment_tokens t2 /\ enrollment_grants t3 = enrollment_grants t2
  /\ QAttemptID q' = QAttemptID q /\ QTargetInstallationID q' = QTargetInstallationID q /\ QTargetNodeID q' = QTargetNodeID q
  /\ QPrimaryInstallationID q' = QPrimaryInstallationID q /\ QGeneration q' = QGeneration q
  /\ hex_encode (QPreviewDigest q') = hex_encode (QPreviewDigest q)
  /\ marshalBootstrapRecipientPublicKeyV2 ECDH (QRecipientPublicKey q') = marshalBootstrapRecipientPublicKeyV2 ECDH (QRecipientPublicKey q).
Proof using.
  intros Hu Hk Hk' Hp Hp' H Hsteps H'. destruct (issue_redeems _ _ _ _ _ _ _ _ _ _ Hu Hk Hp H) as (token&g&wire&Hr&Hs&Hw).
  assert (redeemed t2 sel token (QAttemptID q) g) as Hr2.
  { clear -Hsteps Hr. induction Hsteps as [|a b c Hab _ IH]; [done|]. by apply IH, (redeemed_step a). }
  apply issue_Ok in H' as (sel'&sec&wire'&t4&stamp&role&Hp2&_&Hw'&->&_&_&Hx). assert (sel' = sel) as -> by congruence.
  apply (redeemed_kept _ _ _ _ _ _ (Hk' t2)) in Hr2. apply (answered_again _ _ _ _ _ _ _ _ _ _ _ _ _ _ _ _ Hr2) in Hx as (->&Ha&Hs').
  destruct (Hk' t2) as [K1 K2]. destruct Hs as [[] [] ? ? ? ?], Hs' as [[] [] ? ? ? ?]. repeat split; congruence.
Qed.
End grants.

(** ** From the grant to the node *)
Lemma loaded_bytes master id r m : row_material master id r = Ok m -> exists k, m = mkMaterial id k /\ length k = 32 /\ Forall is_byte k.
Proof.
  unfold row_material, decrypt. destruct (_ || _); [done|]. destruct (DecryptSecret _ _) as [p|]; [|done].
  intros (_&Hl&->)%NewKeyMaterial_Ok. exists (bytes_of p). split; [done|]. split; [done|]. apply bytes_of_byte.
Qed.
Lemma find_both {A} (p q : A -> bool) l a : find_first p l = Some a -> q a = true -> find_first (fun x => p x && q x) l = Some a.
Proof. induction l as [|b l IH]; [done|]. simpl. destruct (p b); simpl; [|done]. by intros [= ->] ->. Qed.
Lemma find_keyed {A} (key : A -> string) l a id : NoDup (map key l) -> a ∈ l -> key a = id -> find_first (fun x => key x =? id) l = Some a.
Proof.
  intros Hnd Hin Hk. destruct (find_first _ l) as [b|] eqn:E.
  - apply find_first_Some in E as (Hb&Hkb%String.eqb_eq). f_equal. apply (NoDup_map_unique key l); [exact Hnd|done|done|congruence].
  - apply find_first_None in E. rewrite Forall_forall in E. specialize (E a Hin). by rewrite Hk, String.eqb_refl in E.
Qed.

Section enrolling.
Context (uuid_Parse : string -> option uuid) (PublicKey : list Z -> list Z) (ECDH : list Z -> list Z -> option (list Z)).
Context (canonical_url : string -> option string) (normalized_ca : string -> option (string * string)).
Context (master : string) (mkey : list Z).
Hypothesis master_ok : DecodeMasterKey master = Ok mkey.
(** The parser takes the canonical form as it stands, and gives nothing else. *)
Hypothesis parse_canonical : forall s, uuidPattern s = true -> uuid_Parse s = Some s.
Hypothesis parse_again : forall s k, uuid_Parse s = Some k -> uuid_Parse k = Some k.
Hypothesis parse_text : forall s k, uuid_Parse s = Some k -> String.length k = NodeCredentialIDLen /\ utf8b k = true.

Definition key_rows_ok (x : topology_tables) : Prop := NoDup (map k_id (cluster_keys x)) /\ Forall (fun r => uuidPattern (k_id r) = true) (cluster_keys x).
(** This material is what the tables hold under its identifier. *)
Definition key_held (x : topology_tables) (m : KeyMaterial) : Prop :=
  uuid_Parse (MaterialID m) = Some (MaterialID m) /\ length (material_key m) = 32 /\ Forall is_byte (material_key m)
  /\ loadByID master (cluster_keys x) (MaterialID m) = Ok m.
Definition links_kept (x x' : topology_tables) : Prop := node_credentials x' = node_credentials x /\ enrolled_nodes x' = enrolled_nodes x.
Lemma loadOldest_held x m : key_rows_ok x -> loadOldest master uuid_Parse (cluster_keys x) = Some (Ok m) -> key_held x m.
Proof using parse_canonical.
  intros [Hnd Hp] H. unfold loadOldest in H. destruct (oldest_key _) as [r|] eqn:Eo; [|done]. cbn [mbind option_bind] in H. injection H as H.
  unfold oldest_key in Eo. assert (r ∈ cluster_keys x /\ live_key r = true) as [Hin Hlive].
  { assert (r ∈ SliceStable older_key (List.filter live_key (cluster_keys x))) as Hin.
    { destruct (SliceStable _ _); [done|]. injection Eo as ->. by left. }
    rewrite (SliceStable_perm older_key) in Hin. apply list_elem_of_In, filter_In in Hin as [? ?]. split; [by apply list_elem_of_In|done]. }
  rewrite Forall_forall in Hp. rewrite parse_canonical in H by (by apply Hp). destruct (loaded_bytes _ _ _ _ H) as (k&->&Hl&Hb).
  split; [by apply parse_canonical, Hp|]. split; [done|]. split; [done|]. unfold loadByID. cbn [MaterialID].
  by rewrite (find_both _ _ _ r (find_keyed k_id _ r _ Hnd Hin eq_refl) Hlive), H.
Qed.
Lemma kek_held t stamp e key t' m : key_rows_ok (topo t) -> good_entropy e ->
  LoadOrCreateClusterKEK uuid_Parse master t stamp e key = Ok (t', m) -> key_held (topo t') m /\ links_kept (topo t) (topo t').
Proof using master_ok parse_canonical parse_again.
  intros Hrows He H. apply bind_Ok in H as (active&Ha&H). destruct (LoadOrCreateInWrite _ _ _ _ _ _ _) as [[x m0]|] eqn:Ew; [|done].
  assert (key_held x m0 /\ links_kept (topo t) x) as [(Hp&Hl&Hb&Hload) Hlinks].
  { destruct active as [id|].
    - cbn [LoadOrCreateInWrite] in Ew. apply bind_Ok in Ew as (m1&Hm&Ew). injection Ew as <- <-. split; [|by split].
      destruct (key =? ""); [done|]. destruct (uuid_Parse key) as [parsed|] eqn:Ep; [|done]. destruct (parsed =? uuid_Nil); [done|].
      injection Ha as ->. unfold loadByID in Hm. destruct (find_first _ _) as [r|] eqn:Ef; [|done].
      destruct (loaded_bytes _ _ _ _ Hm) as (k&->&Hl&Hb). unfold key_held, loadByID. cbn [MaterialID material_key]. rewrite Ef. eauto.
    - unfold LoadOrCreateInWrite in Ew. destruct (loadOldest _ _ _) as [found|] eqn:Eo.
      + apply bind_Ok in Ew as (m1&->&Ew). injection Ew as <- <-. split; [|by split]. by apply loadOldest_held.
      + apply bind_Ok in Ew as (c&Hc&Ew). destruct (NewKeyCandidate_Ok master e c He Hc) as (id&k&Hm&Hid&Hb&Hl&Hw). rewrite Hm in Ew. cbn [MaterialID] in Ew.
        destruct (_ || _); [done|]. destruct (insert_key _ _ _ _) as [l|] eqn:Ei; [|done]. rewrite CopyKeyBytes_material in Ew by done.
        apply bind_Ok in Ew as (m1&(_&_&->)%NewKeyMaterial_Ok&Ew). injection Ew as <- <-. split; [|by split]. destruct He as (_&Hiv&Hil).
        pose proof (insert_key_Ok _ _ _ _ _ Ei) as (Hpat&_&_).
        assert (insert_imported master stamp (fresh_iv e) id k (cluster_keys (topo t)) = Ok l) as Hins by (unfold insert_imported; by rewrite Hw, Ei).
        split; [by apply parse_canonical|]. split; [done|]. split; [done|]. cbn [MaterialID set_keys cluster_keys].
        exact (proj1 (inserted_reads master mkey master_ok _ _ _ _ _ _ Hb Hl Hiv Hil Hid Hins)). }
  apply bind_Ok in H as (bound&Hbound&H). rewrite Hp in H. destruct (_ || _); [done|]. injection H as <- <-.
  destruct m0 as [id k]. cbn [MaterialID material_key] in *. rewrite CopyKeyBytes_material by done.
  assert (cluster_keys bound = cluster_keys x /\ links_kept x bound) as [Hk Hlb].
  { destruct (negb (key =? "")); [by injection Hbound as <-|]. destruct (identity_row x); [|done]. destruct (is_null _); [|done]. by injection Hbound as <-. }
  split; [unfold key_held; cbn [topo set_topo MaterialID material_key]; by rewrite Hk|]. destruct Hlinks, Hlb. split; cbn [topo set_topo]; congruence.
Qed.

Lemma find_replaced {A} (p k : A -> bool) (f : A -> A) l a : List.filter p l = [a] -> k (f a) = true -> (forall o, o ∈ l -> p o = false -> k o = false) ->
  find_first k (map (fun x => if p x then f x else x) l) = Some (f a).
Proof using.
  intros Hf Hk Hno. induction l as [|b l IH]; [done|]. cbn [List.filter] in Hf. cbn [map find_first]. destruct (p b) eqn:Ep.
  - injection Hf as -> _. by rewrite Hk.
  - rewrite (Hno b) by (done || by left). apply IH; [done|]. intros o Ho. apply Hno. by right.
Qed.
Lemma find_appended {A} (k : A -> bool) l a : forallb (fun o => negb (k o)) l = true -> k a = true -> find_first k (l ++ [a]) = Some a.
Proof using.
  intros Hl Ha. rewrite find_first_app, (proj2 (find_first_None k l)); [cbn; by rewrite Ha|]. apply Forall_forall.
  intros o Ho. rewrite forallb_forall in Hl. by apply negb_true_iff, Hl, list_elem_of_In.
Qed.
Lemma forallb_weaken {A} (p q : A -> bool) l : (forall a, p a = true -> q a = true) -> forallb p l = true -> forallb q l = true.
Proof using. intros H. rewrite !forallb_forall. auto. Qed.
(** The rows of a node that was just enrolled. *)
Record enrolled_rows (x : topology_tables) (id node hash version primary : string) : Prop := mkEnrolledRows {
  er_credential : exists created, find_first (fun c => c_id c =? id) (node_credentials x) = Some (mkCredentialRow id node hash version created None);
  er_node : exists n, find_first (fun n => (e_credential n =? id) && (e_node n =? node)) (enrolled_nodes x) = Some n
    /\ e_revoked n = None /\ e_unlinked n = None /\ e_primary n = primary }.
Lemma credential_created t id node hash version at_ t' rotated : CreateNodeCredential (t, None) id node hash version at_ = Ok (t', rotated) ->
  (exists created, find_first (fun c => c_id c =? id) (node_credentials (topo t')) = Some (mkCredentialRow id node hash version created None))
  /\ cluster_keys (topo t') = cluster_keys (topo t).
Proof using.
  intros H. apply bind_Ok in H as (st&_&H). cbv zeta in H. destruct (_ ≫= _) as [[c n]|].
  - destruct (is_null _); [done|]. apply bind_Ok in H as ([]&Hfree%ensure_Ok&H). apply bind_Ok in H as (l&(->&a&Ha)%grant_store_Ok%update_one_Ok&H).
    apply Ok_inj in H as [= <- _]. split; [|done]. exists st. cbn [topo set_nodes set_topo node_credentials].
    apply (find_replaced _ _ (fun _ => mkCredentialRow id node hash version st None) _ a Ha); [by apply String.eqb_eq|].
    intros o Ho Hp. rewrite forallb_forall in Hfree. specialize (Hfree o (proj1 (list_elem_of_In _ _) Ho)). cbv beta in Hfree. rewrite Hp in Hfree. by apply negb_true_iff in Hfree.
  - apply bind_Ok in H as ([]&Hok%ensure_Ok&H). apply Ok_inj in H as [= <- _]. split; [|done]. exists st. apply andb_true_iff in Hok as [_ Hfree].
    apply find_appended; [|by apply String.eqb_eq]. revert Hfree. apply forallb_weaken. by intros a [? _]%andb_true_iff.
Qed.
Lemma node_created tx node inst prim cred att at_ tx' : CreateEnrolledNode tx node inst prim cred att at_ = Ok tx' ->
  (exists n, find_first (fun n => (e_credential n =? cred) && (e_node n =? node)) (enrolled_nodes (topo tx'.1)) = Some n
     /\ e_revoked n = None /\ e_unlinked n = None /\ e_primary n = prim)
  /\ node_credentials (topo tx'.1) = node_credentials (topo tx.1) /\ cluster_keys (topo tx'.1) = cluster_keys (topo tx.1).
Proof using.
  destruct tx as [t rotated]. intros H. apply bind_Ok in H as (st&_&H). cbv zeta in H. destruct rotated as [k|].
  - apply bind_Ok in H as ([]&_&H). apply bind_Ok in H as ([]&Hfree%ensure_Ok&H). apply bind_Ok in H as (l&(->&a&Ha)%grant_store_Ok%update_one_Ok&H).
    apply Ok_inj in H as <-. split; [|done]. exists (rotated_node prim cred st att a). split; [|done]. cbn [fst topo set_nodes set_topo enrolled_nodes].
    pose proof (filter_one _ _ _ Ha) as [_ Hp]. rewrite !andb_true_iff in Hp. destruct Hp as [[Hn _] _].
    apply (find_replaced _ _ _ _ a Ha); [cbn; by rewrite String.eqb_refl, Hn|]. intros o Ho Hpo.
    rewrite forallb_forall in Hfree. specialize (Hfree o (proj1 (list_elem_of_In _ _) Ho)). cbv beta in Hfree. rewrite Hpo in Hfree.
    apply andb_true_iff in Hfree as [Hc%negb_true_iff _]. by rewrite Hc.
  - apply bind_Ok in H as ([]&Hok%ensure_Ok&H). apply Ok_inj in H as <-. split; [|done].
    exists (mkEnrolledRow node inst prim cred att st None None). split; [|done]. apply andb_true_iff in Hok as [_ Hfree].
    apply find_appended; [|cbn; by rewrite !String.eqb_refl]. revert Hfree. apply forallb_weaken. intros o Ho. rewrite !andb_true_iff in Ho.
    destruct Ho as [[[_ _] Hc%negb_true_iff] _]. by rewrite Hc.
Qed.
Lemma store_grant_links stamp t token identity q wire c sealed now expires t' role :
  store_grant uuid_Parse stamp t token identity q wire c sealed now expires = Ok (t', role) ->
  enrolled_rows (topo t') (NMID c) (QTargetNodeID q) (NMHash c) (NMHashVersion c) (QPrimaryInstallationID q)
  /\ cluster_keys (topo t') = cluster_keys (topo t).
Proof using.
  intros H. apply bind_Ok in H as ([t1 o1]&(Hc&Hk1)%credential_created&H). apply bind_Ok in H as (x2&(Hn&Hl2&Hk2)%node_created&H).
  apply bind_Ok in H as (x3&Hg&H). apply bind_Ok in H as (x4&Hco&H). cbn [fst] in *.
  assert (topo x3.1 = topo x2.1) as E3.
  { destruct x2 as [t2 o2]. apply bind_Ok in Hg as ([]&_&Hg). apply bind_Ok in Hg as (created&_&Hg). apply bind_Ok in Hg as (ends&_&Hg).
    cbv zeta in Hg. apply bind_Ok in Hg as ([]&_&Hg). by apply Ok_inj in Hg as <-. }
  assert (topo x4.1 = topo x3.1) as E4.
  { destruct x3 as [t3 o3]. unfold ConsumeEnrollmentToken in Hco. destruct (uuid_Parse token); [|done]. apply bind_Ok in Hco as (st&_&Hco).
    apply bind_Ok in Hco as ([]&_&Hco). by apply Ok_inj in Hco as <-. }
  assert (links_kept (topo x4.1) (topo t') /\ cluster_keys (topo t') = cluster_keys (topo x4.1)) as [[L1 L2] K].
  { destruct (_ =? _) in H; [|by apply Ok_inj in H as [= <- _]]. apply bind_Ok in H as (x5&Ht&H). apply Ok_inj in H as [= <- _].
    destruct x4 as [t4 o4]. apply bind_Ok in Ht as ([]&_&Ht). destruct (identity_row _); [|done]. apply bind_Ok in Ht as ([]&_&Ht). by apply Ok_inj in Ht as <-. }
  split; [|congruence]. split.
  - rewrite L1, E4, E3, Hl2. exact Hc.
  - rewrite L2, E4, E3. exact Hn.
Qed.

(** ** What a fresh grant leaves on the primary *)
Record fresh_grant (s : PrimaryService) (issuer : NodeCredentialIssuer) (q : PrimaryGrantRequest) (resp : PrimaryGrantResponse) (t' : primary_tables)
    (m : KeyMaterial) (credential : NodeCredentialMaterial) (grant : BootstrapGrant) : Prop := mkFreshGrant {
  fg_issued : IssueNodeCredential issuer = Some credential /\ validNodeCredentialMaterial uuid_Parse credential = true;
  fg_grant : NewBootstrapGrant (request_metadata q (NMID credential) (MaterialID m) (RExpiresAt resp)) (NMSecret credential) (material_key m) = Ok grant;
  fg_sealed : PSSeal s (QRecipientPublicKey q) (request_binding q) grant = Ok (RSealedBootstrapPayload resp);
  fg_hash : RPayloadHash resp = sha256_hex (RSealedBootstrapPayload resp);
  fg_key : key_held (topo t') m;
  fg_rows : enrolled_rows (topo t') (NMID credential) (QTargetNodeID q) (NMHash credential) (NMHashVersion credential) (QPrimaryInstallationID q) }.
Lemma issue_fresh s issuer e clock now t q t' resp : PSIssuer s = Some issuer -> keeps_grants (PSIdentity s) -> good_entropy e ->
  key_rows_ok (topo (prepare (PSIdentity s) t).1) ->
  IssueGrant uuid_Parse master ECDH canonical_url normalized_ca s e clock now t q = (t', Ok resp) -> enrollment_grants t' <> enrollment_grants t ->
  exists m credential grant, fresh_grant s issuer q resp t' m credential grant.
Proof using master_ok parse_canonical parse_again.
  intros Hi Hk He Hrows H Hfresh. apply issue_Ok in H as (sel&secret&wire&t1&stamp&role&_&_&_&->&_&_&Hx).
  destruct (Hk t) as [_ Kg]. apply bind_Ok in Hx as (tok&_&Hx). apply bind_Ok in Hx as ([]&_&Hx). apply bind_Ok in Hx as (identity&_&Hx).
  apply bind_Ok in Hx as ([]&_&Hx). destruct (TRConsumedAt tok).
  { apply bind_Ok in Hx as ([]&_&Hx). apply bind_Ok in Hx as (g&_&Hx). apply bind_Ok in Hx as ([]&_&Hx). by apply Ok_inj in Hx as [= <- _ _]. }
  unfold issue_new in Hx. rewrite Hi in Hx. apply bind_Ok in Hx as ([]&_&Hx). apply bind_Ok in Hx as ([t2 m]&Hm%denied_Ok&Hx).
  destruct (kek_held _ _ _ _ _ _ Hrows He Hm) as [Hheld _]. apply bind_Ok in Hx as ([]&_&Hx).
  apply bind_Ok in Hx as (c&Hc%or_denied_Ok&Hx). apply bind_Ok in Hx as ([]&Hv%ensure_Ok&Hx). apply andb_true_iff in Hv as [Hv _].
  cbv zeta in Hx. apply bind_Ok in Hx as ([]&_&Hx). apply bind_Ok in Hx as (grant&Hg&Hx). apply bind_Ok in Hx as (sealed&Hs&Hx).
  apply bind_Ok in Hx as ([t3 role']&(Her&Hck)%denied_Ok%store_grant_links&Hx). apply Ok_inj in Hx as [= <- _ <-].
  exists m, c, grant. destruct Hheld as (Hp&Hl&Hb&Hload). destruct m as [id k]. cbn [MaterialID material_key] in *.
  rewrite CopyKeyBytes_material in Hg by done. split; cbn [RExpiresAt RSealedBootstrapPayload RPayloadHash]; try done.
  - unfold map_err in Hg. destruct (NewBootstrapGrant _ _ _); [|done]. by injection Hg as ->.
  - unfold map_err in Hs. destruct (PSSeal _ _ _ _); [|done]. by injection Hs as ->.
  - unfold payload_sum. by rewrite string_of_bytes.
  - unfold key_held. cbn [MaterialID material_key]. by rewrite Hck.
Qed.
Lemma enrolled_authenticates t c node primary : credential_ok uuid_Parse c -> canonicalCredentialID uuid_Parse node = Some node ->
  enrolled_rows (topo t) (cid c) node (CredentialHash c) NodeCredentialHashVersion primary ->
  exists record, sqlitePublicationCredential t (cid c) = Some record /\ PCPrimaryID record = primary
    /\ authenticateSnapshotCredential uuid_Parse (BearerCopy c) record = Some (mkPrincipal node (cid c)).
Proof using.
  intros Hc Hnode [(created&Ec) (n&En&Hr&Hu&Hp)]. unfold sqlitePublicationCredential. rewrite Ec. cbn [mbind option_bind c_id c_node c_revoked c_hash c_version]. rewrite En.
  cbn [mbind option_bind]. rewrite Hr, Hu. cbn. eexists. split; [done|]. split; [done|]. unfold authenticateSnapshotCredential.
  cbn [PCRevokedAt PCNodeRevokedAt PCID PCNodeID PCHash PCHashVersion fmap option_fmap option_map].
  pose proof (proj2 (credential_roundtrip uuid_Parse c (BearerCopy c) Hc) eq_refl) as Hparse. destruct Hc as (Hl&Hb&Hid&Hg).
  rewrite (proj2 (Authenticate_iff uuid_Parse _ _ (mkPrincipal node (cid c)))); [done|]. exists c. cbn [CRID CRNodeID CRHash CRHashVersion CRRevokedAt PNodeID PCredentialID].
  repeat (split; [done|]). apply stored_hash. unfold intact. by rewrite Hl.
Qed.

(** ** What the node stores *)
Lemma Accept_Ok node_master iv1 iv2 clock now t private binding sealed hash t' accepted grant credentialID keyID :
  Accept uuid_Parse ECDH node_master iv1 iv2 clock now t private binding sealed hash = (t', Ok accepted) ->
  OpenBootstrap ECDH private binding sealed = Ok grant ->
  uuid_Parse (GCredentialID (GMetadata grant)) = Some credentialID -> uuid_Parse (GClusterKeyID (GMetadata grant)) = Some keyID ->
  accepted = mkAccepted credentialID keyID (GSourcePrimary (GMetadata grant)) (GGeneration (GMetadata grant)) (GExpiresAtUnix (GMetadata grant), 0%Z)
  /\ credentialID <> uuid_Nil /\ exists stamp x, ImportInWrite node_master stamp iv1 (topo t) keyID (GClusterKEK grant) = Ok (x, tt)
    /\ putCredentialInWrite node_master iv2 (set_topo t x) credentialID (GNodeCredential grant) = Ok (t', tt).
Proof using.
  intros H Hopen Hc Hk. unfold Accept in H. destruct (_ || _); [done|]. rewrite Hopen in H. cbv zeta in H. destruct (negb _); [done|].
  rewrite Hc, Hk in H. destruct (_ || _) eqn:En; [done|]. apply orb_false_iff in En as [_ En%String.eqb_neq].
  destruct (Write _ _ _) as [t2 r] eqn:Ew. injection H as -> Hr. destruct r as [[]|]; [|done]. injection Hr as <-.
  split; [done|]. split; [done|]. apply Write_Ok in Ew as (stamp&_&Hx). apply bind_Ok in Hx as ([x []]&Hi&Hx). exists stamp, x. split; [|exact Hx].
  unfold map_err in Hi. destruct (ImportInWrite _ _ _ _ _ _) as [[y []]|]; [|done]. by injection Hi as ->.
Qed.
Lemma put_reads node_master nkey iv t id secret t' : DecodeMasterKey node_master = Ok nkey -> Forall is_byte iv -> length iv = 12 ->
  Forall is_byte secret -> length secret = bootstrapCredentialBytes -> uuid_Parse id = Some id -> id <> uuid_Nil ->
  (forall r, r ∈ secret_rows t -> sr_id r = id -> sr_purpose r = NodeCredentialSecretPurpose) ->
  putCredentialInWrite node_master iv t id secret = Ok (t', tt) ->
  LoadNodeCredentialSecret uuid_Parse node_master t' id = Ok secret /\ topo t' = topo t.
Proof using.
  intros Hm Hiv Hil Hb Hl Hid Hnil Hpurpose H. unfold LoadNodeCredentialSecret. rewrite Hid. apply String.eqb_neq in Hnil. rewrite Hnil.
  unfold putCredentialInWrite in H. cbv zeta in H. destruct (find_first _ _) as [r|] eqn:Ef.
  - destruct (DecryptSecret _ _) as [p|] eqn:Ed; [|done]. destruct (String.eqb_spec p (EncodeToString secret)) as [->|]; [|done]. injection H as <-.
    split; [|done]. pose proof (find_first_Some _ _ _ Ef) as (Hin&Hrid%String.eqb_eq). specialize (Hpurpose r Hin Hrid).
    rewrite (find_both _ (fun r => sr_purpose r =? NodeCredentialSecretPurpose) _ _ Ef) by (by apply String.eqb_eq).
    rewrite Ed, Decode_Encode_b64, Hl by done. done.
  - destruct (Encrypt_Decrypt node_master nkey iv (EncodeToString secret) Hm Hiv Hil) as (text&Ht&Hd). rewrite Ht in H.
    apply bind_Ok in H as ([]&_&H). injection H as <-. split; [|done]. cbn [secret_rows set_secrets]. rewrite find_first_app.
    apply find_first_None in Ef. rewrite (proj2 (find_first_None _ (secret_rows t))).
    2: { eapply Forall_impl; [exact Ef|]. cbv beta. by intros o ->. }
    cbn. rewrite String.eqb_refl. cbn. rewrite Hd. destruct (String.eqb_spec (EncodeToString secret) "") as [E|]; [by destruct secret as [|? [|? [|? ?]]]|].
    rewrite Decode_Encode_b64, Hl by done. done.
Qed.

Hypothesis agree : key_agreement PublicKey ECDH.
(** C19: A fresh grant, end to end. What the primary sealed opens with the node's private key;
    when the node accepts it, its own store holds exactly the credential that was issued and the
    primary's cluster key, under their identifiers, and the bearer it can then present is
    authenticated at the primary as the node that asked. *)
Theorem enrollment_end_to_end s e clock now t q t1 resp c sender nonce private :
  PSIssuer s = Some (nodeCredentialIssuer uuid_Parse (Ok c)) -> credential_ok uuid_Parse c ->
  (forall r b g, PSSeal s r b g = sealBootstrapWithEntropy PublicKey ECDH r b g (Some sender) (Some nonce)) ->
  length sender = 32 -> Forall is_byte nonce -> usable_private private = true ->
  QRecipientPublicKey q = mkRecipientKey BootstrapRecipientKeyVersion (PublicKey private) ->
  keeps_grants (PSIdentity s) -> good_entropy e -> key_rows_ok (topo (prepare (PSIdentity s) t).1) ->
  (0 <= QGeneration q < 2 ^ 64)%Z -> ((RExpiresAt resp).1 < 2 ^ 63)%Z ->
  IssueGrant uuid_Parse master ECDH canonical_url normalized_ca s e clock now t q = (t1, Ok resp) -> enrollment_grants t1 <> enrollment_grants t ->
  exists m, key_held (topo t1) m
  /\ (exists record, sqlitePublicationCredential t1 (cid c) = Some record /\ PCPrimaryID record = QPrimaryInstallationID q
        /\ authenticateSnapshotCredential uuid_Parse (BearerCopy c) record = Some (mkPrincipal (QTargetNodeID q) (cid c)))
  /\ RPayloadHash resp = sha256_hex (RSealedBootstrapPayload resp)
  /\ (exists grant, OpenBootstrap ECDH private (request_binding q) (RSealedBootstrapPayload resp) = Ok grant
        /\ GNodeCredential grant = secret c /\ GClusterKEK grant = material_key m)
  /\ forall node_master nkey iv1 iv2 clock' now' tn tn' accepted, DecodeMasterKey node_master = Ok nkey ->
       NoDup (map k_id (cluster_keys (topo tn))) -> Forall is_byte iv1 -> length iv1 = 12 -> Forall is_byte iv2 -> length iv2 = 12 ->
       (forall r, r ∈ secret_rows tn -> sr_id r = cid c -> sr_purpose r = NodeCredentialSecretPurpose) ->
       Accept uuid_Parse ECDH node_master iv1 iv2 clock' now' tn private (request_binding q) (RSealedBootstrapPayload resp) (RPayloadHash resp) = (tn', Ok accepted) ->
       accepted = mkAccepted (cid c) (MaterialID m) (QPrimaryInstallationID q) (QGeneration q) ((RExpiresAt resp).1, 0%Z)
       /\ LoadActiveInWrite node_master (topo tn') (AClusterKeyID accepted) = Ok m
       /\ LoadNodeCredentialSecret uuid_Parse node_master tn' (ACredentialID accepted) = Ok (secret c).
Proof using All.
  intros Hi Hc Hseal Hsl Hnb Hpriv Hq Hk He Hrows Hgen Hexp H Hfresh. pose proof Hc as (Hcl&Hcb&Hcid&_).
  pose proof H as (sel&sec&wire&t2&stamp&role&_&Hvalid&_)%issue_Ok.
  destruct (issue_fresh _ _ _ _ _ _ _ _ _ Hi Hk He Hrows H Hfresh) as (m&cr&grant&[[Hcr Hv] Hg Hs Hh Hkey Her]).
  cbn in Hcr. injection Hcr as <-. cbn [NMID NMSecret NMHash NMHashVersion] in *.
  assert (intact c = true) as Hint by (unfold intact; by rewrite Hcl). unfold CopyBytes in Hg. rewrite Hint in Hg. cbn [default] in Hg.
  destruct Hkey as (Hp&Hml&Hmb&Hload). unfold NewBootstrapGrant in Hg. apply bind_Ok in Hg as ([]&_&Hg). apply Ok_inj in Hg as Hgrant.
  assert (OpenBootstrap ECDH private (request_binding q) (RSealedBootstrapPayload resp) = Ok grant) as Hopen.
  { rewrite Hq, Hseal in Hs. eapply Seal_Open_bootstrap; [exact agree|exact Hsl|exact Hnb| |exact Hpriv|exact Hs]. rewrite <- Hgrant. by split. }
  exists m. split; [by split|]. split; [|split; [exact Hh|split; [exists grant; split; [exact Hopen|by rewrite <- Hgrant]|]]].
  { apply enrolled_authenticates; [done| |done]. unfold validPrimaryGrantRequest in Hvalid. rewrite !andb_true_iff in Hvalid. destruct Hvalid as [_ Hids].
    cbn [forallb] in Hids. rewrite !andb_true_iff in Hids. destruct Hids as (_&_&Hn&_). unfold canonicalUUID in Hn.
    destruct (uuid_Parse (QTargetNodeID q)) as [k|] eqn:Ek; [|done]. apply andb_true_iff in Hn as [Hn1%negb_true_iff ->%String.eqb_eq].
    destruct (parse_text _ _ Ek) as [Hl36 Hutf]. unfold canonicalCredentialID. rewrite Hl36, Hutf, Ek. cbn. by rewrite Hn1, String.eqb_refl. }
  intros node_master nkey iv1 iv2 clock' now' tn tn' accepted Hnm Hnd Hb1 Hl1 Hb2 Hl2 Hpurp Hacc.
  assert (uuid_Parse (cid c) = Some (cid c)) as Hpc.
  { unfold canonicalCredentialID in Hcid. destruct (_ || _); [done|]. destruct (uuid_Parse (cid c)) as [k|]; [|done]. cbn [mbind option_bind] in Hcid.
    destruct (_ || _) eqn:E; [done|]. exact Hcid. }
  destruct (Accept_Ok _ _ _ _ _ _ _ _ _ _ _ _ grant (cid c) (MaterialID m) Hacc Hopen) as (->&Hnil&st&x&Himp&Hput); [by rewrite <- Hgrant..|].
  rewrite <- Hgrant in Himp, Hput. cbn [GClusterKEK GNodeCredential] in *.
  destruct (imported_key_loads node_master nkey Hnm _ _ _ _ _ _ Hnd Hmb Hb1 Hl1 Himp) as (Hloads&_&_).
  destruct (put_reads node_master nkey iv2 (set_topo tn x) (cid c) (secret c) tn' Hnm Hb2 Hl2 Hcb Hcl Hpc Hnil Hpurp Hput) as [Hsecret Htopo].
  split; [by rewrite <- Hgrant|]. cbn [AClusterKeyID ACredentialID]. split; [|exact Hsecret]. rewrite Htopo. destruct m. exact Hloads.
Qed.

(** ** Asking again *)
Lemma issue_asked s e clock now t q t' resp : IssueGrant uuid_Parse master ECDH canonical_url normalized_ca s e clock now t q = (t', Ok resp) ->
  ((if (QGrantTTL q =? 0)%Z then PSGrantTTL s else QGrantTTL q) <=? 0)%Z = false.
Proof using.
  unfold IssueGrant. cbv zeta. destruct (parseToken _ _ _) as [[sel secret]|]; [|done]. destruct (negb _); cbn [orb]; [done|]. by destruct (_ <=? 0)%Z.
Qed.
Lemma issue_again s e clock now t q sel secret wire stamp role resp :
  parseToken canonical_url normalized_ca (QEnrollmentToken q) = Some (sel, secret) -> validPrimaryGrantRequest uuid_Parse q = true ->
  ((if (QGrantTTL q =? 0)%Z then PSGrantTTL s else QGrantTTL q) <=? 0)%Z = false ->
  marshalBootstrapRecipientPublicKeyV2 ECDH (QRecipientPublicKey q) = Ok wire -> prepare (PSIdentity s) t = (t, true) -> encodeTime clock = Ok stamp ->
  nodes_keyed t = true -> takes_role (PSIdentity s) role = true ->
  exchange uuid_Parse master s e q sel (hashSecret secret) wire now (if (QGrantTTL q =? 0)%Z then PSGrantTTL s else QGrantTTL q) stamp t = Ok (t, (role, resp)) ->
  IssueGrant uuid_Parse master ECDH canonical_url normalized_ca s e clock now t q = (t, Ok resp).
Proof using.
  intros Hp Hv Ht Hw Hi Hs Hn Hr Hx. unfold IssueGrant. cbv zeta. rewrite Hp, Hv, Ht, Hw. cbn [negb orb]. unfold ActivateEnrollment. rewrite Hi. cbn [negb].
  unfold WithPrimaryGrant, Write. rewrite Hs, Hx. cbn [mbind result_bind]. rewrite Hn. cbn [ensure mbind result_bind mret result_ret]. by rewrite Hr.
Qed.
Lemma finite_some k at_ : finite_clock k = Ok at_ -> sqliteEnqueueTime (Some k) = Ok (Some at_).
Proof using. unfold finite_clock. intros ([a|]&Ha&H)%bind_Ok; [|done]. by injection H as <-. Qed.
(** The identity row before and after a grant. *)
Definition still_primary (i i' : PrimaryIdentityRecord) : Prop :=
  PrInstallationID i' = PrInstallationID i /\ PrLeadership i' = PrLeadership i /\ PrLatest i' = PrLatest i /\ primary_role (PrRole i') = true.
Lemma kek_identity t stamp e key t' m : LoadOrCreateClusterKEK uuid_Parse master t stamp e key = Ok (t', m) ->
  exists k, identity_row (topo t') = k /\ (k = identity_row (topo t)
    \/ exists r id, identity_row (topo t) = Some r /\ uuid_Parse id = Some (MaterialID m) /\ k = Some (row_key (Some id) stamp r)).
Proof using.
  intros H. eexists. split; [done|]. apply bind_Ok in H as (active&Ha&H). destruct (LoadOrCreateInWrite _ _ _ _ _ _ _) as [[x m0]|] eqn:Ew; [|done].
  assert (identity_row x = identity_row (topo t)) as Hx.
  { unfold LoadOrCreateInWrite in Ew. destruct active; [by apply bind_Ok in Ew as (?&_&[= <- _])|].
    destruct (loadOldest _ _ _); [by apply bind_Ok in Ew as (?&_&[= <- _])|]. apply bind_Ok in Ew as (c&_&Ew). cbv zeta in Ew. destruct (_ || _); [done|].
    destruct (insert_key _ _ _ _); [|done]. by apply bind_Ok in Ew as (?&_&[= <- _]). }
  apply bind_Ok in H as (bound&Hb&H). destruct (uuid_Parse (MaterialID m0)) as [id|] eqn:Eid; [|done]. destruct (_ || _); [done|]. injection H as <- <-.
  cbn [topo set_topo MaterialID]. destruct (negb (key =? "")); [injection Hb as <-; by left|]. destruct (identity_row x) as [r|] eqn:Er; [|done].
  destruct (is_null _); [|done]. injection Hb as <-. right. exists r, (MaterialID m0). by rewrite <- Hx.
Qed.
Lemma store_grant_identity stamp t token identity q wire c sealed now expires t' role :
  store_grant uuid_Parse stamp t token identity q wire c sealed now expires = Ok (t', role) ->
  (PrRole identity <> TopologyRolePrimary /\ identity_row (topo t') = identity_row (topo t))
  \/ exists r, identity_row (topo t) = Some r /\ identity_row (topo t') = Some (row_role TopologyRolePrimaryWithNodes stamp r).
Proof using.
  intros H. apply bind_Ok in H as ([t1 o1]&H1&H). apply bind_Ok in H as (x2&H2&H). apply bind_Ok in H as (x3&H3&H). apply bind_Ok in H as (x4&H4&H).
  assert (identity_row (topo t1) = identity_row (topo t)) as E1.
  { apply bind_Ok in H1 as (st&_&H1). cbv zeta in H1. destruct (_ ≫= _) as [[? n]|]; [destruct (is_null _); [done|]; apply bind_Ok in H1 as ([]&_&H1); apply bind_Ok in H1 as (l&_&H1)|apply bind_Ok in H1 as ([]&_&H1)]; by apply Ok_inj in H1 as [= <- _]. }
  assert (identity_row (topo x2.1) = identity_row (topo t1)) as E2.
  { apply bind_Ok in H2 as (st&_&H2). cbv zeta in H2. destruct o1 as [k|]; [apply bind_Ok in H2 as ([]&_&H2); apply bind_Ok in H2 as ([]&_&H2); apply bind_Ok in H2 as (l&_&H2)|apply bind_Ok in H2 as ([]&_&H2)]; by apply Ok_inj in H2 as <-. }
  assert (topo x3.1 = topo x2.1) as E3.
  { destruct x2 as [t2 o2]. apply bind_Ok in H3 as ([]&_&H3). apply bind_Ok in H3 as (created&_&H3). apply bind_Ok in H3 as (ends&_&H3).
    cbv zeta in H3. apply bind_Ok in H3 as ([]&_&H3). by apply Ok_inj in H3 as <-. }
  assert (topo x4.1 = topo x3.1) as E4.
  { destruct x3 as [t3 o3]. unfold ConsumeEnrollmentToken in H4. destruct (uuid_Parse token); [|done]. apply bind_Ok in H4 as (st&_&H4).
    apply bind_Ok in H4 as ([]&_&H4). by apply Ok_inj in H4 as <-. }
  rewrite <- E1, <- E2, <- E3, <- E4. destruct (String.eqb_spec (PrRole identity) TopologyRolePrimary).
  - right. apply bind_Ok in H as (x5&Ht&H). apply Ok_inj in H as [= <- _]. destruct x4 as [t4 o4]. cbn [fst] in *. apply bind_Ok in Ht as ([]&_&Ht).
    destruct (identity_row (topo t4)) as [r|]; [|done]. apply bind_Ok in Ht as ([]&_&Ht). apply Ok_inj in Ht as <-. by exists r.
  - left. apply Ok_inj in H as [= <- _]. by split.
Qed.
Lemma locked_again t t' i : LockPrimaryIdentity uuid_Parse t = Ok i -> primary_role (PrRole i) = true ->
  (exists r k role at_, identity_row (topo t) = Some r /\ (k = i_key r \/ exists id m, uuid_Parse id = Some m /\ k = Some id)
     /\ (role = i_role r \/ role = TopologyRolePrimaryWithNodes)
     /\ identity_row (topo t') = Some (mkIdentityRow (i_installation r) (i_node r) role (i_leadership r) (i_latest r) k at_)) ->
  exists i', LockPrimaryIdentity uuid_Parse t' = Ok i' /\ still_primary i i'.
Proof using.
  intros H Hrole (r&k&role&at_&Er&Hk&Hr&Er'). unfold LockPrimaryIdentity in *. rewrite Er in H. rewrite Er'. cbn [i_leadership i_latest i_key i_installation i_node i_role].
  destruct (_ || _); [done|].
  assert (PrInstallationID i = i_installation r /\ PrLeadership i = i_leadership r /\ PrLatest i = i_latest r /\ PrRole i = i_role r
    /\ (forall text, i_key r = Some text -> is_Some (uuid_Parse text))) as (E1&E2&E3&E4&E5).
  { destruct (i_key r) as [text|]; [destruct (uuid_Parse text) as [key|] eqn:Ek; [|done]|]; injection H as <-; repeat (split; [done|]); [|done].
    intros x [= <-]. by eexists. }
  assert (primary_role role = true) as Hrole' by (destruct Hr as [->| ->]; [by rewrite <- E4|done]).
  destruct k as [text|].
  - assert (is_Some (uuid_Parse text)) as [key ->].
    { destruct Hk as [Hk|(id&m&Hid&[= ->])]; [by apply E5|by eexists]. }
    eexists. split; [done|]. by split.
  - eexists. split; [done|]. by split.
Qed.
Lemma locked_expected t i q : LockPrimaryIdentity uuid_Parse t = Ok i -> validExpectedPrimary i q = true ->
  (0 < QGeneration q)%Z /\ primary_role (PrRole i) = true.
Proof using.
  intros H Hv. unfold validExpectedPrimary in Hv. rewrite !andb_true_iff in Hv. destruct Hv as [[[_ <-%Z.eqb_eq] _] Hr]. split; [|done].
  unfold LockPrimaryIdentity in H. destruct (identity_row _) as [r|]; [|done]. destruct (_ || _) eqn:E; [done|]. apply orb_false_iff in E as [E%Z.leb_gt _].
  destruct (i_key r) as [text|]; [destruct (uuid_Parse text); [|done]|]; by injection H as <-.
Qed.
Lemma row_identity (r : IdentityRow) : r = mkIdentityRow (i_installation r) (i_node r) (i_role r) (i_leadership r) (i_latest r) (i_key r) (i_updated r).
Proof using. by destruct r. Qed.
Lemma issued_identity t t1 t' i stamp e key m token identity q wire c sealed now expires role : LockPrimaryIdentity uuid_Parse t = Ok i ->
  primary_role (PrRole i) = true -> LoadOrCreateClusterKEK uuid_Parse master t stamp e key = Ok (t1, m) ->
  store_grant uuid_Parse stamp t1 token identity q wire c sealed now expires = Ok (t', role) ->
  exists i', LockPrimaryIdentity uuid_Parse t' = Ok i' /\ still_primary i i'.
Proof using.
  intros Hl Hr (k&Hk&Hkek)%kek_identity Hs%store_grant_identity. apply (locked_again t); [done|done|]. unfold LockPrimaryIdentity in Hl.
  destruct (identity_row (topo t)) as [r|]; [|done]. clear Hl. rewrite Hk in Hs. destruct Hkek as [->|(r'&id&[= <-]&Hid&->)], Hs as [[_ ->]|(r1&[= <-]&->)].
  - exists r, (i_key r), (i_role r), (i_updated r). rewrite <- row_identity. repeat split; by left.
  - exists r, (i_key r), TopologyRolePrimaryWithNodes, stamp. repeat split; [by left|by right].
  - exists r, (Some id), (i_role r), stamp. repeat split; [by right; eauto|by left].
  - exists r, (Some id), TopologyRolePrimaryWithNodes, stamp. repeat split; [by right; eauto|by right].
Qed.
(** The row of a redeemed token, read again. *)
Lemma token_reread t t' sel token q created now : LockEnrollmentToken t sel = Ok token -> TRConsumedAt token = None -> TRRevokedAt token = None ->
  finite_clock created = Ok now ->
  enrollment_tokens t' = map (fun r => if open_token (TRID token) r then consume_by created (QAttemptID q) r else r) (enrollment_tokens t) ->
  exists token', LockEnrollmentToken t' sel = Ok token' /\ TRID token' = TRID token /\ TRHash token' = TRHash token
    /\ TRHashVersion token' = TRHashVersion token /\ TRConsumedAt token' = Some now /\ TRConsumedByAttemptID token' = QAttemptID q.
Proof using.
  intros H Hc Hv Hnow Ht. pose proof H as (r&_&_&Hid&_&Hcn&Hvn&_)%locked_token. specialize (Hcn Hc). specialize (Hvn Hv).
  unfold LockEnrollmentToken, token_of in H. destruct (find_first _ (enrollment_tokens t)) as [r0|] eqn:Ef; [|done].
  apply grant_store_Ok in H. apply bind_Ok in H as (ex&Hex%from_store_Ok&H). apply bind_Ok in H as (co&Hco%from_store_Ok&H).
  apply bind_Ok in H as (rv&Hrv%from_store_Ok&H). apply Ok_inj in H as <-. cbn [TRID TRConsumedAt TRRevokedAt TRHash TRHashVersion] in *. subst co rv.
  apply enqueue_null in Hco as Eco, Hrv as Erv.
  assert (open_token (t_id r0) r0 = true) as Ho by (unfold open_token; by rewrite String.eqb_refl, Eco, Erv).
  unfold LockEnrollmentToken, token_of. rewrite Ht, find_first_map, (find_first_ext _ (fun r => t_selector r =? sel)), Ef.
  2: { intros x. by destruct (open_token _ x). }
  cbn [fmap option_fmap option_map]. rewrite Ho. cbn [consume_by t_expires t_consumed t_revoked t_id t_hash t_version t_by].
  rewrite Hex, Erv. unfold sqliteGrantOptionalTime. rewrite (finite_some _ _ Hnow). cbn. eexists. split; [done|]. by cbn.
Qed.
Lemma grant_reread t t' q token wire sealed now expires : granted_rows t t' q token wire sealed now expires -> (0 < QGeneration q)%Z ->
  clocked now -> clocked expires ->
  GetEnrollmentGrant t' (QAttemptID q) = Ok (mkGrantRecord (QAttemptID q) token (QTargetInstallationID q) (QTargetNodeID q) (QPrimaryInstallationID q)
    (QGeneration q) (hex_encode (QPreviewDigest q)) wire (bytes_of sealed) (payload_sum (bytes_of sealed)) now expires).
Proof using.
  intros [(created&ends&Hcr&Hen&Hgs&_) Hf _ _] Hgen Hn He. unfold GetEnrollmentGrant. rewrite Hgs.
  rewrite (fresh_find_new _ (issued_row q token wire sealed created ends)) by (eapply Forall_impl; [exact Hf|]; by intros o [? _]).
  cbn [g_generation g_payload issued_row]. rewrite (proj2 (Z.leb_gt _ _) Hgen), StdDecode_Encode by apply bytes_of_byte.
  unfold grant_store, issued_row. cbn [g_created g_expires]. by rewrite (clocked_roundtrip now created Hn Hcr), (clocked_roundtrip expires ends He Hen).
Qed.

(** C21: A repeated request is answered. When a grant was issued and its response was lost, the same
    request asked again before the grant expires gets the same response, and changes nothing:
    no second credential, key, row or token use. *)
Theorem repeated_request_is_answered s e e' clock clock' stamp' now now' t q t1 resp :
  (forall role, primary_role role = true -> takes_role (PSIdentity s) role = true) -> prepare (PSIdentity s) t1 = (t1, true) ->
  clocked now -> clocked (RExpiresAt resp) ->
  IssueGrant uuid_Parse master ECDH canonical_url normalized_ca s e clock now t q = (t1, Ok resp) ->
  enrollment_grants t1 <> enrollment_grants (prepare (PSIdentity s) t).1 ->
  encodeTime clock' = Ok stamp' -> time_before now' (RExpiresAt resp) = true ->
  IssueGrant uuid_Parse master ECDH canonical_url normalized_ca s e' clock' now' t1 q = (t1, Ok resp).
Proof using.
  intros Htakes Hprep Hnow Hexp H Hfresh Hclock Hbefore. pose proof (issue_asked _ _ _ _ _ _ _ _ H) as Httl.
  apply issue_Ok in H as (sel&secret&wire&t0&stamp&role&Hp&Hvalid&Hw&->&_&Hkeyed&Hx). set (t0 := (prepare (PSIdentity s) t).1) in *.
  apply bind_Ok in Hx as (token&Hlock%denied_Ok&Hx). apply bind_Ok in Hx as ([]&Hsec%ensure_Ok&Hx). apply bind_Ok in Hx as (i&Hid%denied_Ok&Hx).
  apply bind_Ok in Hx as ([]&Hexpected%ensure_Ok&Hx). destruct (TRConsumedAt token) eqn:Hcons.
  { apply bind_Ok in Hx as ([]&_&Hx). apply bind_Ok in Hx as (g&_&Hx). apply bind_Ok in Hx as ([]&_&Hx). by apply Ok_inj in Hx as [= <- _ _]. }
  pose proof Hx as Hx1. apply issue_new_Ok in Hx1 as (_&Hrev&sealed&<-&Hsum&Hends&t2&[K1 _]&Hrows). rewrite <- Hends in Hrows.
  destruct (locked_expected _ _ _ Hid Hexpected) as [Hgen Hrole].
  assert (exists i', LockPrimaryIdentity uuid_Parse t1 = Ok i' /\ still_primary i i') as (i'&Hid'&E1&E2&E3&Hrole').
  { unfold issue_new in Hx. destruct (PSIssuer s); [|done]. apply bind_Ok in Hx as ([]&_&Hx). apply bind_Ok in Hx as ([t3 m]&Hk%denied_Ok&Hx).
    apply bind_Ok in Hx as ([]&_&Hx). apply bind_Ok in Hx as (c&_&Hx). apply bind_Ok in Hx as ([]&_&Hx). cbv zeta in Hx. apply bind_Ok in Hx as ([]&_&Hx).
    apply bind_Ok in Hx as (g&_&Hx). apply bind_Ok in Hx as (sl&_&Hx). apply bind_Ok in Hx as ([t4 r4]&Hs%denied_Ok&Hx). apply Ok_inj in Hx as [= -> _ _].
    by eapply issued_identity. }
  pose proof (grant_reread _ _ _ _ _ _ _ _ Hrows Hgen Hnow Hexp) as Hgrant. destruct Hrows as [(created&ends&Hcr&_&_&Hts) _ _ Hne]. rewrite K1 in Hts.
  destruct (token_reread _ _ _ _ _ _ _ Hlock Hcons Hrev (clocked_roundtrip _ _ Hnow Hcr) Hts) as (token'&Hlock'&T1&T2&T3&T4&T5).
  apply (issue_again s e' clock' now' t1 q sel secret wire stamp' (PrRole i')); auto. unfold exchange. rewrite Hlock'. cbn [denied mbind result_bind].
  assert (validTokenSecret token' (hashSecret secret) = true) as -> by (unfold validTokenSecret in *; by rewrite T1, T2, T3). cbn [ensure mbind result_bind].
  rewrite Hid'. cbn [denied mbind result_bind].
  assert (validExpectedPrimary i' q = true) as Hexpected'.
  { unfold validExpectedPrimary in *. rewrite E1, E2, E3, Hrole'. rewrite Hrole in Hexpected. exact Hexpected. }
  rewrite Hexpected', T4, T5, String.eqb_refl. cbn [ensure mbind result_bind]. rewrite Hgrant. cbn [denied mbind result_bind].
  assert (matchesRetry (mkGrantRecord (QAttemptID q) (TRID token) (QTargetInstallationID q) (QTargetNodeID q) (QPrimaryInstallationID q) (QGeneration q)
    (hex_encode (QPreviewDigest q)) wire (bytes_of (RSealedBootstrapPayload resp)) (payload_sum (bytes_of (RSealedBootstrapPayload resp))) now (RExpiresAt resp))
    (TRID token') q i' wire now' = true) as ->.
  { unfold matchesRetry. cbn [ERAttemptID ERTokenID ERInstallationID ERNodeID ERPrimaryID ERPrimaryGeneration ERNodeEphemeralPublicKey ERVerifiedPreviewDigest
      ERExpiresAt ERSealedBootstrapPayload ERPayloadHash]. unfold validExpectedPrimary in Hexpected'. rewrite !andb_true_iff in Hexpected'.
    destruct Hexpected' as [[[X1%String.eqb_eq X2%Z.eqb_eq] _] _]. rewrite T1, X1, X2, !String.eqb_refl, !Z.eqb_refl, Hbefore, (proj2 (Nat.eqb_neq _ _) Hne).
    cbn [andb negb]. rewrite andb_true_r. by apply negb_true_iff. }
  cbn [ensure mbind result_bind mret result_ret]. unfold responseFromGrant. cbn [ERSealedBootstrapPayload ERPayloadHash ERExpiresAt]. rewrite string_of_bytes, <- Hsum.
  by destruct resp.
Qed.
End enrolling.

(** ** A minted token *)
Section tokens.
Context (canonical_url : string -> option string) (normalized_ca : string -> option (string * string)).
Lemma cut_first_app c a b : sall (fun x => negb (ascii_eqb x c)) a = true -> cut_first c (a +:+ char c +:+ b) = Some (a, b).
Proof using.
  induction a as [|x a IH]; intros H.
  - cbn. by rewrite ascii_eqb_refl.
  - cbn [sall] in H. apply andb_true_iff in H as [Hx%negb_true_iff Ha]. change (String x a +:+ char c +:+ b) with (String x (a +:+ char c +:+ b)).
    cbn [cut_first]. by rewrite Hx, (IH Ha).
Qed.
Lemma hex_plain l : Forall is_byte l -> sall (fun x => negb (ascii_eqb x "_")) (hex_encode l) = true.
Proof using.
  intros Hl. eapply sall_impl; [|exact (proj2 (hex_encode_ok l Hl))]. intros x Hx. destruct x as [[] [] [] [] [] [] [] []]; (reflexivity || (vm_compute in Hx; done)).
Qed.
Lemma parse_minted selector secret : Forall is_byte selector -> length selector = tokenSelectorLen -> Forall is_byte secret -> length secret = tokenSecretLen ->
  parseToken canonical_url normalized_ca (TokenPrefixV1 +:+ "_" +:+ hex_encode selector +:+ "_" +:+ EncodeToString secret) = Some (hex_encode selector, secret).
Proof using.
  intros Hs Hsl Hb Hl. unfold parseToken, ParseTokenClaims. change ("_" +:+ ?x) with (char "_" +:+ x). rewrite cut_first_app by done. cbn [mbind option_bind].
  assert (forall x, (hex_encode selector +:+ x =? "") = false) as ->.
  { intros x. apply String.eqb_neq. intros E. pose proof (f_equal String.length E) as El. rewrite length_app_s, (proj1 (hex_encode_ok _ Hs)), Hsl in El. discriminate. }
  rewrite String.eqb_refl. unfold parseSelectorAndSecret. rewrite cut_first_app by (by apply hex_plain). cbn [mbind option_bind].
  rewrite Decode_Encode_b64 by done. cbn [mbind option_bind]. rewrite Hl. cbn [Nat.eqb].
  unfold validTokenSelector. rewrite hex_decode_encode, Hsl, String.eqb_refl by done. done.
Qed.
Lemma sooner_clock a b ka : clocked a -> finite_clock ka = Ok b -> time_before a b = true -> forall k, sqliteEnrollmentTokenTime a = Ok k -> less_s k ka = true.
Proof using.
  intros Ha Hb Hlt k Hk. pose proof (clocked_roundtrip _ _ Ha Hk) as Ha'. apply clock_key in Ha', Hb. apply Encode_Decode in Ha' as [Ta Ea], Hb as [Tb Eb].
  pose proof (Encode_order _ _ _ _ Ta Tb Ea Eb) as Hc. unfold less_s. rewrite Hc. cbn [ts_compare]. unfold time_before in Hlt.
  apply orb_true_iff in Hlt as [Hlt%Z.ltb_lt|[Heq%Z.eqb_eq Hlt%Z.ltb_lt]%andb_true_iff].
  - by rewrite (proj2 (Z.compare_lt_iff _ _) Hlt).
  - by rewrite Heq, Z.compare_refl, (proj2 (Z.compare_lt_iff _ _) Hlt).
Qed.
Lemma check_opens t clock stamp sel hash now kn r ends : encodeTime clock = Ok stamp -> token_of t sel = Some r -> finite_clock (t_expires r) = Ok ends ->
  sqliteEnrollmentTokenTime now = Ok kn -> less_s kn (t_expires r) = true -> t_version r = EnrollmentTokenHashVersion -> t_hash r = hash ->
  t_consumed r = None -> t_revoked r = None ->
  CheckEnrollmentToken t clock sel hash now false = (t, Ok tt)
  /\ (List.filter (fun o => (t_id o =? t_id r) && is_null (t_consumed o)) (enrollment_tokens t) = [r] ->
      (CheckEnrollmentToken t clock sel hash now true).2 = Ok tt).
Proof using.
  intros Hs Ht Hf Hk Hl Hv Hh Hc Hr. unfold CheckEnrollmentToken, Write. rewrite Hs, Ht, (clock_key _ _ Hf), Hk. cbn [in_store mbind result_bind].
  rewrite Hv, Hh, Hl, Hc, Hr, !String.eqb_refl. cbn. split; [done|]. intros Hone. cbn in Hone. by rewrite Hone.
Qed.

(** C22: A minted token opens. Whatever bytes were drawn, the text the owner is given parses back to
    its selector and secret (an underscore in the secret notwithstanding), and until it expires
    it is verified at the tables it was minted into, and redeems there. *)
Theorem minted_token_opens identity refused ttl material id clock now t o t' created :
  CreateToken identity refused ttl (Some material) id clock now t o = (t', Ok created) -> length material = tokenSelectorLen + tokenSecretLen ->
  Forall is_byte material -> clocked (CTExpiresAt created) ->
  parseToken canonical_url normalized_ca (CTToken created) = Some (hex_encode (take tokenSelectorLen material), drop tokenSelectorLen material)
  /\ forall clock' stamp' now', encodeTime clock' = Ok stamp' -> clocked now' -> time_before now' (CTExpiresAt created) = true ->
       VerifyToken canonical_url normalized_ca clock' now' t' (CTToken created) = (t', Ok tt)
       /\ (ConsumeToken canonical_url normalized_ca clock' now' t' (CTToken created)).2 = Ok tt.
Proof using.
  intros H Hl Hb Hexp. unfold CreateToken in H. destruct (negb _); [done|]. destruct (_ || _); [done|]. cbv zeta in H. unfold ActivateEnrollment in H.
  destruct (prepare identity t) as [t0 ready]. destruct (negb ready); [done|]. destruct (CreateEnrollmentToken _ _ _ _ _ _ _ _ _) as [t2 r] eqn:Ec.
  destruct r as [role|]; [|done]. destruct (takes_role _ _); [|done]. injection H as -> <-. change (CTExpiresAt _) with (time_add now ttl) in *.
  set (selector := take tokenSelectorLen material) in *. set (secret := drop tokenSelectorLen material) in *.
  assert (Forall is_byte selector /\ Forall is_byte secret /\ length selector = tokenSelectorLen /\ length secret = tokenSecretLen) as (Hs&Hx&Hsl&Hxl).
  { subst selector secret. rewrite length_take, length_drop, Hl. split; [by apply Forall_take|]. split; [by apply Forall_drop|]. by split. }
  pose proof (parse_minted _ _ Hs Hsl Hx Hxl) as Hparse. match goal with |- context [CTToken ?c] => set (text := CTToken c) in * end.
  change (parseToken canonical_url normalized_ca text = Some (hex_encode selector, secret)) in Hparse. clearbody text. split; [exact Hparse|].
  intros clock' stamp' now' Hclock Hnow Hlt.
  apply Write_Ok in Ec as (st&_&Hc). apply bind_Ok in Hc as ([]&_&Hc). apply bind_Ok in Hc as (cid'&_&Hc). apply bind_Ok in Hc as (oid&_&Hc).
  apply bind_Ok in Hc as (cr&_&Hc). apply bind_Ok in Hc as (ends&Hends&Hc). destruct (_ ≫= _) as [[row role']|]; [|done].
  apply bind_Ok in Hc as ([]&Hok%ensure_Ok&Hc). apply Ok_inj in Hc as [= <- _].
  set (k := mkToken cid' (hex_encode selector) (hashSecret secret) TokenHashVersion oid cr ends None None None).
  assert (finite_clock ends = Ok (time_add now ttl)) as Hfin.
  { apply clocked_roundtrip; [done|]. unfold in_store in Hends. destruct (sqliteEnrollmentTokenTime _); [|done]. by injection Hends as ->. }
  unfold token_row_ok in Hok. apply andb_true_iff in Hok as [_ Hfree]. cbn [t_id t_selector enrollment_tokens set_topo] in Hfree.
  set (t1 := set_topo t0 _) in *.
  assert (token_of (set_tokens t1 (enrollment_tokens t0 ++ [k])) (hex_encode selector) = Some k) as Htok.
  { apply find_appended; [|by apply String.eqb_eq]. revert Hfree. apply forallb_weaken. by intros a [_ ?]%andb_true_iff. }
  destruct Hnow as (kn&Hkn). pose proof (finite_clock_encode _ _ Hkn) as Hen.
  assert (less_s kn ends = true) as Hless by (by apply (sooner_clock now' (time_add now ttl) ends (ex_intro _ kn Hkn))).
  assert (List.filter (fun o0 => (t_id o0 =? cid') && is_null (t_consumed o0)) (enrollment_tokens t0 ++ [k]) = [k]) as Hone.
  { rewrite List.filter_app. cbn [List.filter k t_id t_consumed is_null]. rewrite String.eqb_refl. cbn [andb].
    assert (List.filter (fun o0 => (t_id o0 =? cid') && is_null (t_consumed o0)) (enrollment_tokens t0) = []) as ->; [|done].
    clear -Hfree. induction (enrollment_tokens t0) as [|a l IH]; [done|]. cbn [forallb] in Hfree. apply andb_true_iff in Hfree as [Ha Hl].
    apply andb_true_iff in Ha as [Ha%negb_true_iff _]. cbn [List.filter]. rewrite Ha. by apply IH. }
  destruct (check_opens _ _ _ _ (hashSecret secret) _ _ _ _ Hclock Htok Hfin Hen Hless eq_refl eq_refl eq_refl eq_refl) as [Hcheck Hredeem]. specialize (Hredeem Hone).
  unfold VerifyToken, ConsumeToken, checkToken. rewrite Hparse, Hcheck. split; [done|]. by destruct (CheckEnrollmentToken _ _ _ _ _ true) as [? []].
Qed.
Hypothesis normalized_again : forall a b d, normalized_ca a = Some (b, d) -> exists d', normalized_ca b = Some (b, d').
Lemma payload_decodes a b c d : forallb utf8b [a; b; c; d] = true -> let p := mkPayload tokenV2Version a b c d in
  json_decode (wire true (payload_tree p)) = Some (payload_tree p) /\ dec_payload (payload_tree p) (mkPayload 0 "" "" "" "") = Some p.
Proof using.
  cbn [forallb]. rewrite !andb_true_iff. intros (H1&H2&H3&H4&_). assert (forall s, utf8b s = true -> valid_utf8 s = s) as Hv by (intros s Hs; by apply valid_utf8_id, utf8b_utf8).
  cbv zeta. split.
  - rewrite decode_wire by done. f_equal. unfold payload_tree. cbn -[valid_utf8]. by rewrite !Hv.
  - transitivity (Some (mkPayload tokenV2Version (valid_utf8 a) (valid_utf8 b) (valid_utf8 c) (valid_utf8 d))); [reflexivity|by rewrite !Hv].
Qed.
Lemma hex_utf8 l : Forall is_byte l -> utf8b (hex_encode l) = true.
Proof using. intros Hl. apply graphic_text. eapply sall_impl; [exact lower_graphic|]. by apply hex_encode_ok. Qed.
Lemma b64_graphic l : Forall is_byte l -> utf8b (EncodeToString l) = true.
Proof using.
  intros H. apply graphic_text. eapply sall_impl; [|exact (Encode_chars l H)].
  intros ch Hch. destruct ch as [[] [] [] [] [] [] [] []]; (reflexivity || (vm_compute in Hch; done)).
Qed.

(** A token that names its primary reads back. What [EncodeTokenV2] writes for a selector, a
    secret, an origin and a CA parses to the same selector, secret and origin and to the
    normalised CA, within the sizes the parser allows. *)
Theorem token_v2_roundtrip selector secret url ca text : Forall is_byte selector -> Forall is_byte secret -> utf8b url = true ->
  (forall b d, normalized_ca ca = Some (b, d) -> utf8b b = true) ->
  EncodeTokenV2 canonical_url normalized_ca (hex_encode selector) secret url ca = Ok text ->
  exists normalized fingerprint, normalized_ca ca = Some (normalized, fingerprint)
    /\ ParseTokenClaims canonical_url normalized_ca text = Some (mkClaims 2 (hex_encode selector) secret url normalized).
Proof using normalized_again.
  intros Hs Hb Hurl Hca H. unfold EncodeTokenV2 in H. apply bind_Ok in H as ([]&[Hsel Hl]%ensure_Ok%andb_true_iff&H).
  destruct (canonical_url url) as [curl|] eqn:Eu; [|done]. destruct (normalized_ca ca) as [[norm fp]|] eqn:En; [|done].
  apply bind_Ok in H as ([]&->%ensure_Ok%String.eqb_eq&H). cbv zeta in H. apply bind_Ok in H as ([]&Hmax%ensure_Ok&H). apply Ok_inj in H as <-.
  exists norm, fp. split; [done|]. specialize (Hca _ _ eq_refl). destruct (normalized_again _ _ _ En) as [fp' En'].
  destruct (payload_decodes (hex_encode selector) (EncodeToString secret) url norm) as [Hdec Hpay].
  { cbn [forallb]. by rewrite (hex_utf8 _ Hs), (b64_graphic _ Hb), Hurl, Hca. }
  set (p := mkPayload _ _ _ _ _) in *. set (raw := bytes_of (wire true (payload_tree p))) in *.
  unfold ParseTokenClaims. change ("_" +:+ ?x) with (char "_" +:+ x). rewrite cut_first_app by done. cbn [mbind option_bind].
  assert (raw <> []) as Hne by (by unfold raw, payload_tree; cbn).
  assert ((EncodeToString raw =? "") = false) as -> by (apply String.eqb_neq; by rewrite EncodeToString_empty).
  change (TokenPrefixV2 =? TokenPrefixV1) with false. rewrite String.eqb_refl. unfold parseTokenV2.
  assert ((MaxTokenV2Bytes <? slen (EncodeToString raw))%Z = false) as ->.
  { apply Z.ltb_ge. apply Z.leb_le in Hmax. unfold blen, MaxTokenV2PayloadBytes in Hmax. change MaxTokenV2Bytes with 5470%Z. unfold slen.
    rewrite length_b64, Nat2Z.inj_div. transitivity ((4096 * 4 + 2) / 3)%Z; [|done]. apply Z.div_le_mono; lia. }
  rewrite Decode_Encode_b64 by apply bytes_of_byte. cbn [mbind option_bind].
  assert ((length raw =? 0)%nat || (MaxTokenV2PayloadBytes <? blen raw)%Z = false) as ->.
  { apply orb_false_iff. split; [by apply Nat.eqb_neq; intros E%nil_length_inv|]. apply Z.ltb_ge. by apply Z.leb_le. }
  unfold raw at 1. rewrite string_of_bytes, Hdec. cbn [mbind option_bind]. change (knownFields _ (payload_tree p)) with true. cbn [negb]. rewrite Hpay.
  cbn [mbind option_bind p PVersion PSelector PSecret PPrimaryURL PCAPEM]. rewrite Z.eqb_refl, Hsel. cbn [negb orb].
  rewrite Decode_Encode_b64 by done. cbn [mbind option_bind]. rewrite Hl. cbn [negb]. rewrite Eu. cbn [mbind option_bind]. rewrite String.eqb_refl. cbn [negb].
  rewrite En'. cbn [mbind option_bind]. by rewrite String.eqb_refl.
Qed.
End tokens.
