(* ===== verification/WorkerFacts.v ===== *)
(** * Facts about candidates and their secrets

    Written files stay under the candidate's directory; a rendered candidate lies
    in its root; the secret files are complete, or rendering fails closed. *)

From S2P Require Import Prelude GoStrings StrFacts Json JsonText Model Proxy Dns RProxy Nginx Coredns Jobs Store Scrub Candidate Render.
From stdpp Require Import options.

(** ** Components of a path *)
Definition kept (part : string) : bool := negb ((part =? "") || (part =? ".")).
Definition components (p : string) : list string := List.filter kept (Split "/" p).
Definition no_dotdot (p : string) : Prop := ".." ∉ Split "/" p.

Lemma Contains_dotdot p : Contains p ".." = false -> no_dotdot p.
Proof.
  intros H Hin. assert (Contains p ".." = true); [|congruence]. apply Contains_spec. clear H.
  apply list_elem_of_split in Hin as (l1&l2&H). rewrite <- (Join_Split "/" p), H. clear H.
  induction l1 as [|w l1 IH]; cbn [app].
  - destruct l2 as [|v l2]; [by exists "", ""|]. exists "", (char "/" +:+ Join (v :: l2) (char "/")). by rewrite Join_cons.
  - destruct IH as (a&b&IH). rewrite Join_cons by (by destruct l1). rewrite IH.
    exists (w +:+ char "/" +:+ a), b. by rewrite !app_assoc_s.
Qed.
Lemma components_app a b : components (a +:+ "/" +:+ b) = components a ++ components b.
Proof. unfold components. change ("/" +:+ b) with (String "/" b). by rewrite Split_app, List.filter_app. Qed.
Lemma no_dotdot_app a b : no_dotdot a -> no_dotdot b -> no_dotdot (a +:+ "/" +:+ b).
Proof. unfold no_dotdot. change ("/" +:+ b) with (String "/" b). rewrite Split_app. set_solver. Qed.

(** Without [..], cleaning keeps the components. *)
Lemma clean_parts_kept rooted l acc : ".." ∉ l -> foldl (clean_step rooted) acc l = rev (List.filter kept l) ++ acc.
Proof.
  revert acc. induction l as [|x l IH]; intros acc Hl; [done|]. apply not_elem_of_cons in Hl as [Hx Hl]. cbn [foldl List.filter].
  rewrite IH by done. unfold clean_step, kept. destruct ((x =? "") || (x =? ".")); [done|].
  destruct (String.eqb_spec x ".."); [congruence|]. cbn [negb rev]. by rewrite <- app_assoc.
Qed.
Lemma Clean_body p : no_dotdot p -> rev (clean_parts p) = components p.
Proof. intros H. unfold clean_parts. rewrite clean_parts_kept by done. by rewrite app_nil_r, rev_involutive. Qed.
Lemma components_free p : Forall (free_of "/") (components p).
Proof. unfold components. apply Forall_forall. intros x [Hx _]%list_elem_of_In%filter_In.
  pose proof (Split_free "/" p) as H. rewrite Forall_forall in H. apply H. by apply list_elem_of_In. Qed.
Lemma components_kept p : List.filter kept (components p) = components p.
Proof.
  unfold components. induction (Split "/" p) as [|x l IH]; [done|]. cbn. destruct (kept x) eqn:E; [|done]. cbn. by rewrite E, IH.
Qed.
Lemma components_Join l : Forall (free_of "/") l -> List.filter kept l = l -> components (Join l "/") = l.
Proof.
  intros Hf Hk. destruct l as [|w l]; [done|]. unfold components. by rewrite (Split_Join "/").
Qed.
Lemma components_Clean p : no_dotdot p -> components (Clean p) = components p.
Proof.
  intros H. unfold Clean. rewrite Clean_body by done.
  assert (components (Join (components p) "/") = components p) as Hj by (apply components_Join; [apply components_free|apply components_kept]).
  destruct (HasPrefix p "/").
  - change ("/" +:+ Join (components p) "/") with ("" +:+ "/" +:+ Join (components p) "/"). by rewrite components_app, Hj.
  - destruct (String.eqb_spec (Join (components p) "/") "") as [E|E]; [|done]. rewrite E in Hj. by rewrite <- Hj.
Qed.
Lemma components_dotdot p : no_dotdot p -> ".." ∉ components p.
Proof. unfold components. intros H [Hin _]%list_elem_of_In%filter_In. by apply H, list_elem_of_In. Qed.

Lemma path_Join_components a b : a <> "" -> no_dotdot a -> no_dotdot b ->
  components (path_Join a b) = components a ++ components b /\ ".." ∉ components (path_Join a b).
Proof.
  intros Ha Hna Hnb. unfold path_Join. destruct (String.eqb_spec a ""); [done|]. destruct (String.eqb_spec b "") as [-> |].
  - rewrite components_Clean by done. cbn. rewrite app_nil_r. split; [done|]. by apply components_dotdot.
  - rewrite components_Clean by (by apply no_dotdot_app). rewrite components_app. split; [done|].
    rewrite <- components_app. by apply components_dotdot, no_dotdot_app.
Qed.

(** Every file a candidate writes is one of its files, and its path is the
    candidate's directory followed by the file's relative path, with no component
    that climbs out; the candidate's directory is itself inside the root. *)
Theorem writeCandidate_contained c root files ops p d : CFiles c = Some files -> writeCandidate c root = Ok ops ->
  WriteFile p d ∈ ops ->
  exists name, name ∈ map fst files /\ components p = components (CandidatePath c) ++ components name
    /\ ".." ∉ components p
    /\ exists below, components (CandidatePath c) = components (TrimRightChar root "/") ++ below.
Proof.
  intros Hf Hw Hin. unfold writeCandidate in Hw. rewrite Hf in Hw.
  apply bind_Ok in Hw as (u&Hroot&Hw). apply ensure_Ok in Hroot. apply bind_Ok in Hw as (u'&Hnames&Hw).
  apply ensure_Ok in Hnames. apply (proj1 (ret_Ok _ _)) in Hw. subst ops.
  unfold inside_root in Hroot. apply andb_true_iff in Hroot as [[below Hp]%HasPrefix_spec Hdd%negb_true_iff].
  apply elem_of_cons in Hin as [Hin|Hin]; [done|]. apply list_elem_of_In, in_concat in Hin as (l&Hl&Hin).
  apply in_map_iff in Hl as (name&<-&Hname). assert (name ∈ map fst files) as Hname'.
  { unfold SortStrings in Hname. apply list_elem_of_In in Hname. by apply elem_of_SliceStable in Hname. }
  cbn in Hin. destruct Hin as [Hin|[Hin|[]]]; [done|]. injection Hin as <- _.
  assert (no_dotdot name) as Hnd.
  { rewrite forallb_Forall, Forall_forall in Hnames. apply list_elem_of_fmap in Hname' as (f&->&Hff).
    specialize (Hnames f Hff). unfold valid_name in Hnames. rewrite !andb_true_iff, !negb_true_iff in Hnames.
    destruct_and!. by apply Contains_dotdot. }
  assert (CandidatePath c <> "") as Hne by (rewrite Hp; by destruct (TrimRightChar root "/")).
  destruct (path_Join_components (CandidatePath c) name Hne (Contains_dotdot _ Hdd) Hnd) as [H1 H2].
  exists name. split_and!; [done..|]. exists (components below). by rewrite Hp, app_assoc_s, components_app.
Qed.

(** ** Secret files *)
Section secrets.
Context {reader : SecretReader}.

Definition crt_path (id : string) : string := "certs/" +:+ id +:+ ".crt".
Definition key_path (id : string) : string := "certs/" +:+ id +:+ ".key".

Lemma BasicAuthFiles_complete records files : BasicAuthFiles records = Ok files ->
  forall r b, r ∈ records -> basicAuth_of r = Some b -> is_Some (files !! basic_auth_path (secret_of b)).
Proof.
  intros Hf. cut (Forall (fun r => forall b, basicAuth_of r = Some b -> is_Some (files !! basic_auth_path (secret_of b))) records).
  { rewrite Forall_forall. eauto. }
  revert Hf. unfold BasicAuthFiles. apply foldlM_inv with (I := fun done files =>
    Forall (fun r => forall b, basicAuth_of r = Some b -> is_Some (files !! basic_auth_path (secret_of b))) done); [constructor|].
  intros done r s1 s2 Hdone Hs. unfold basic_auth_step in Hs. destruct (basicAuth_of r) as [b0|] eqn:Hb.
  - apply bind_Ok in Hs as (h&_&Hs). apply bind_Ok in Hs as (u&_&Hs). apply bind_Ok in Hs as (line&_&Hs).
    apply (proj1 (ret_Ok _ _)) in Hs. subst s2. apply Forall_app_2.
    + eapply Forall_impl; [exact Hdone|]. intros x Hx b Hxb. apply lookup_insert_is_Some. destruct (decide (basic_auth_path (secret_of b0) = basic_auth_path (secret_of b))); [by left|right; split; [done|by apply Hx]].
    + repeat constructor. intros b Hrb. assert (b = b0) as -> by congruence. rewrite lookup_insert_eq. by eexists.
  - apply (proj1 (ret_Ok _ _)) in Hs. subst s2. apply Forall_app_2; [done|]. repeat constructor. intros b Hrb. congruence.
Qed.

Lemma needed_spec records : NoDup (needed records)
  /\ forall id, id ∈ needed records <-> exists r, r ∈ records /\ needs_certificate r = true /\ certificate_of r = id.
Proof.
  unfold needed. cut (forall acc, NoDup acc -> NoDup (foldl needed_step acc records)
    /\ forall id, id ∈ foldl needed_step acc records <-> id ∈ acc \/ exists r, r ∈ records /\ needs_certificate r = true /\ certificate_of r = id).
  { intros Hc. destruct (Hc [] ltac:(constructor)) as [H1 H2]. split; [done|]. intros id. rewrite H2. set_solver. }
  induction records as [|r records IH]; intros acc Hacc; cbn [foldl].
  - split; [done|]. set_solver.
  - unfold needed_step at 2 4. destruct (needs_certificate r) eqn:Hr; cbn [andb].
    + destruct (contains acc (certificate_of r)) eqn:Hc; cbn [negb].
      * destruct (IH acc Hacc) as [H1 H2]. split; [done|]. intros id. rewrite H2. apply contains_elem in Hc.
        split; [intros [|(x&?&?&?)]; [by left|right; exists x; set_solver]|].
        intros [|(x&[-> |Hx]%elem_of_cons&?&<-)]; [by left..|right; by exists x].
      * apply contains_false in Hc. destruct (IH (acc ++ [certificate_of r])) as [H1 H2].
        { apply NoDup_app. split_and!; [done|set_solver|apply NoDup_singleton]. }
        split; [done|]. intros id. rewrite H2, elem_of_app, elem_of_cons, elem_of_nil.
        split; [intros [[|[-> |[]]]|(x&?&?&?)]; [by left|right; exists r; set_solver|right; exists x; set_solver]|].
        intros [|(x&[-> |Hx]%elem_of_cons&?&<-)]; [by left; left|left; right; by left|right; by exists x].
    + destruct (IH acc Hacc) as [H1 H2]. split; [done|]. intros id. rewrite H2.
      split; [intros [|(x&?&?&?)]; [by left|right; exists x; set_solver]|].
      intros [|(x&[-> |Hx]%elem_of_cons&?&?)]; [by left|congruence|right; by exists x].
Qed.

Lemma crt_key_neq i j : crt_path i <> key_path j.
Proof.
  unfold crt_path, key_path. intros H%app_inj_l. apply (f_equal srev) in H. revert H.
  change ".crt" with (".cr" +:+ char "t"). change ".key" with (".ke" +:+ char "y").
  rewrite <- !app_assoc_s, !srev_snoc. by intros [=].
Qed.
Lemma crt_path_inj i j : crt_path i = crt_path j -> i = j.
Proof. unfold crt_path. intros H%app_inj_l. by apply app_inj_r in H. Qed.
Lemma key_path_inj i j : key_path i = key_path j -> i = j.
Proof. unfold key_path. intros H%app_inj_l. by apply app_inj_r in H. Qed.

Definition certificate_written (certificates : list CertificateStatus) (files : gmap string string) (id : string) : Prop :=
  exists cert key, cert ∈ certificates /\ CID cert = id /\ secret_get (SecretID cert) = Ok key /\ key <> ""
  /\ CertificatePEM cert <> ""
  /\ files !! crt_path id = Some (ensureTrailingNewline (CertificatePEM cert))
  /\ files !! key_path id = Some (ensureTrailingNewline key).
Lemma CertificateFiles_complete records certificates files : CertificateFiles records certificates = Ok files ->
  forall r, r ∈ records -> needs_certificate r = true -> certificate_written certificates files (certificate_of r).
Proof.
  intros Hf. destruct (needed_spec records) as [Hnd Hneeded].
  cut (Forall (certificate_written certificates files) (needed records)).
  { rewrite Forall_forall. intros Hall r Hr Hn. apply Hall, Hneeded. eauto. }
  revert Hnd Hf. unfold CertificateFiles. generalize (needed records). intros ids.
  enough (forall done acc, Forall (certificate_written certificates acc) done -> NoDup (done ++ ids) ->
    foldlM (certificate_step certificates) acc ids = Ok files -> Forall (certificate_written certificates files) (done ++ ids)) as Hen
    by (intros Hnd; by apply (Hen [])).
  induction ids as [|id ids IH]; intros done acc Hdone Hnd Hf; [injection Hf as <-; by rewrite app_nil_r|].
  apply bind_Ok in Hf as (acc'&Hs&Hf). rewrite cons_middle, app_assoc. apply (IH _ acc'); [|by rewrite <- app_assoc|done].
  apply NoDup_app in Hnd as (_&Hdisj&_). assert (id ∉ done) as Hid by set_solver.
  unfold certificate_step in Hs. destruct (find_first _ _) as [cert|] eqn:Ec; [|done].
  apply find_first_Some in Ec as [Hcert Hcid%String.eqb_eq].
  apply bind_Ok in Hs as (u1&Hpem%ensure_Ok&Hs). apply bind_Ok in Hs as (u2&_&Hs). apply bind_Ok in Hs as (key&Hkey&Hs).
  apply bind_Ok in Hs as (u3&Hk%ensure_Ok&Hs). apply (proj1 (ret_Ok _ _)) in Hs. subst acc'.
  fold (crt_path id). fold (key_path id). apply negb_true_iff, String.eqb_neq in Hpem, Hk.
  apply Forall_app_2.
  - rewrite Forall_forall in Hdone |- *. intros j Hj. destruct (Hdone j Hj) as (cj&kj&H1&H2&H3&H4&H5&H6&H7).
    assert (id <> j) as Hne by (intros ->; done). exists cj, kj. split_and!; try done.
    + rewrite !lookup_insert_ne; [done|intros E; by apply crt_path_inj in E|intros E; symmetry in E; by apply crt_key_neq in E].
    + rewrite !lookup_insert_ne; [done|intros E; by apply crt_key_neq in E|intros E; by apply key_path_inj in E].
  - repeat constructor. exists cert, key. split_and!; try done.
    + rewrite lookup_insert_ne; [by rewrite lookup_insert_eq|intros E; symmetry in E; by apply crt_key_neq in E].
    + by rewrite lookup_insert_eq.
Qed.
End secrets.

(** Rendering either refuses or provides every secret the records need. With a
    store, every Basic Auth record has its password file, and every enabled,
    proxied TLS record naming a certificate has that certificate's chain and its
    stored key; without one, no record asks for either. *)
Theorem secretFiles_complete options records certificates files : secretFiles options records certificates = Ok files ->
  match OSecrets options with
  | Some secrets => forall r, r ∈ records ->
      (forall b, basicAuth_of r = Some b -> is_Some (files !! basic_auth_path (secret_of b)))
      /\ (needs_certificate r = true -> certificate_written (reader := secrets) certificates files (certificate_of r))
  | None => (files = ∅) /\ Forall (fun r => truthy (mget (proxy_map r) "basicAuth") = false
      /\ (Proxied r = true -> truthy (mget (proxy_map r) "tlsEnabled") = false)) records
  end.
Proof.
  unfold secretFiles. destruct (OSecrets options) as [secrets|]; intros H.
  - apply bind_Ok in H as (basic&Hb&H). apply bind_Ok in H as (certs&Hc&H). apply (proj1 (ret_Ok _ _)) in H. subst files.
    unfold lift_text in Hb, Hc. destruct (BasicAuthFiles _) as [b'|] eqn:Eb; [|done]. destruct (CertificateFiles _ _) as [c'|] eqn:Ec; [|done].
    injection Hb as ->. injection Hc as ->. intros r Hr. split.
    + intros b Hrb. apply lookup_union_is_Some. right. by eapply BasicAuthFiles_complete.
    + intros Hn. destruct (CertificateFiles_complete _ _ _ Ec r Hr Hn) as (cert&key&H1&H2&H3&H4&H5&H6&H7).
      exists cert, key. split_and!; try done; by apply lookup_union_Some_l.
  - apply bind_Ok in H as (u&H1%ensure_Ok&H). apply bind_Ok in H as (u'&H2%ensure_Ok&H). apply (proj1 (ret_Ok _ _)) in H. subst files.
    split; [done|]. rewrite forallb_Forall in H1, H2. rewrite Forall_forall in *. intros r Hr.
    specialize (H1 r Hr). specialize (H2 r Hr). apply negb_true_iff in H1, H2. split; [done|]. intros Hp. by rewrite Hp in H2.
Qed.

(** ** Rendered candidates *)
Lemma free_no_dotdot s : free_of "." s -> Contains s ".." = false.
Proof.
  intros H. destruct (Contains s "..") eqn:E; [|done]. apply Contains_spec in E as (a&b&->).
  apply free_of_app in H as [_ [H _]%free_of_app]. change ".." with (String "." ".") in H. apply free_of_cons in H as [H _]. done.
Qed.
Definition rendered_in (root : string) (job : Job) (service : Service) (c : Candidate) : Prop :=
  CService c = service /\ is_Some (Candidate.CFiles c) /\ revisionIDPattern (RevisionID job) = true
  /\ CandidatePath c = TrimRightChar root "/" +:+ "/" +:+ RevisionID job +:+ "/" +:+ service.
Lemma dotdot_app a b : Contains a ".." = false -> Contains b ".." = false -> Contains (a +:+ "/" +:+ b) ".." = false.
Proof.
  intros Ha Hb. induction a as [|x a IH]; [done|]. cbn [Contains] in Ha. apply orb_false_iff in Ha as [Hp Ha].
  change (String x a +:+ "/" +:+ b) with (String x (a +:+ "/" +:+ b)). cbn [Contains]. apply orb_false_iff. split; [|auto].
  revert Hp. cbn [HasPrefix]. destruct (ascii_eqb "." x); [|done]. destruct a as [|y a]; [done|].
  cbn [String.append HasPrefix]. destruct (ascii_eqb "." y); [by destruct a|done].
Qed.
Lemma TrimRight_dotdot p s : Contains s ".." = false -> Contains (TrimRight p s) ".." = false.
Proof.
  induction s as [|s x IH] using string_snoc_ind; [done|]. intros H. rewrite TrimRight_snoc. destruct (p x); [|done].
  apply IH. destruct (Contains s "..") eqn:E; [|done]. apply Contains_spec in E as (a&b&->).
  assert (Contains ((a +:+ ".." +:+ b) +:+ char x) ".." = true); [|congruence]. apply Contains_spec.
  exists a, (b +:+ char x). by rewrite !app_assoc_s.
Qed.

Lemma revision_free rev : revisionIDPattern rev = true -> Contains rev ".." = false.
Proof.
  unfold revisionIDPattern. intros [_ H]%andb_true_iff. by apply free_no_dotdot, (sall_free_of (fun c => is_alnum c || one_of "_-" c) "." rev).
Qed.
Lemma rendered_inside root job service c : service ∈ [ServiceCoreDNS; ServiceNginx] -> Contains root ".." = false ->
  rendered_in root job service c -> inside_root root (CandidatePath c) = true.
Proof.
  intros Hs Hroot (_&_&Hrev&->). unfold inside_root. apply andb_true_iff. split.
  - apply HasPrefix_spec. exists (RevisionID job +:+ "/" +:+ service). by rewrite app_assoc_s.
  - apply negb_true_iff, dotdot_app; [by apply TrimRight_dotdot|]. apply dotdot_app; [by apply revision_free|].
    rewrite !elem_of_cons, elem_of_nil in Hs. by destruct_or?; subst.
Qed.

Definition services_of (target : Target) : list Service :=
  if target =? TargetCoreDNS then [ServiceCoreDNS] else if target =? TargetNginx then [ServiceNginx]
  else if target =? TargetCombined then [ServiceCoreDNS; ServiceNginx] else [].
Definition root_of (options : Options) : string := if OCandidateRoot options =? "" then DefaultCandidateRoot else OCandidateRoot options.

Lemma coredns_rendered Sprint order desired zones pool root job c :
  coredns Sprint order desired zones pool root job = Ok c -> rendered_in root job ServiceCoreDNS c.
Proof.
  unfold coredns, candidatePath. intros (r&_&H)%bind_Ok. apply bind_Ok in H as (p&Hp&H). apply (proj1 (ret_Ok _ _)) in H. subst c.
  apply bind_Ok in Hp as (u&Hrev%ensure_Ok&Hp). apply (proj1 (ret_Ok _ _)) in Hp. subst p. by split_and!.
Qed.
Lemma nginx_rendered desired records root job options c :
  nginx desired records root job options = Ok c -> rendered_in root job ServiceNginx c.
Proof.
  unfold nginx, candidatePath. intros (p&Hp&H)%bind_Ok. apply bind_Ok in H as (s&_&H). apply bind_Ok in H as (r&_&H).
  apply (proj1 (ret_Ok _ _)) in H. subst c.
  apply bind_Ok in Hp as (u&Hrev%ensure_Ok&Hp). apply (proj1 (ret_Ok _ _)) in Hp. subst p. by split_and!.
Qed.

(** What is rendered for a job: the services of its target, CoreDNS before nginx,
    each in its own directory of the revision under the root; and those
    directories pass the check the orchestrator makes before writing. *)
Theorem Candidates_spec Sprint order desired job options cs : Candidates Sprint order desired job options = Ok cs ->
  map CService cs = services_of (JTarget job) /\ cs <> []
  /\ Forall (fun c => rendered_in (root_of options) job (CService c) c) cs
  /\ (Contains (root_of options) ".." = false -> Forall (fun c => inside_root (root_of options) (CandidatePath c) = true) cs).
Proof.
  intros H. assert (Forall (fun c => CService c ∈ [ServiceCoreDNS; ServiceNginx]
    /\ rendered_in (root_of options) job (CService c) c) cs /\ map CService cs = services_of (JTarget job) /\ cs <> []) as (Hall&Hm&Hne).
  { unfold Candidates in H. fold (root_of options) in H. destruct (DefaultPool _) as [pool|]; [|done]. cbv zeta in H. unfold services_of.
    assert (forall service c, service ∈ [ServiceCoreDNS; ServiceNginx] -> rendered_in (root_of options) job service c ->
      CService c ∈ [ServiceCoreDNS; ServiceNginx] /\ rendered_in (root_of options) job (CService c) c) as Hin.
    { intros service c Hs Hc. pose proof Hc as (E&_). by rewrite E. }
    repeat (destruct (_ =? _)).
    - apply bind_Ok in H as (c&Hc%coredns_rendered&H). apply (proj1 (ret_Ok _ _)) in H. subst cs.
      split_and!; [constructor; [eapply Hin; [|exact Hc]; set_solver|constructor]|destruct Hc as [E _]; by cbn; rewrite E|done].
    - apply bind_Ok in H as (c&Hc%nginx_rendered&H). apply (proj1 (ret_Ok _ _)) in H. subst cs.
      split_and!; [constructor; [eapply Hin; [|exact Hc]; set_solver|constructor]|destruct Hc as [E _]; by cbn; rewrite E|done].
    - apply bind_Ok in H as (c&Hc%coredns_rendered&H). apply bind_Ok in H as (n&Hn%nginx_rendered&H).
      apply (proj1 (ret_Ok _ _)) in H. subst cs. split_and!; [|destruct Hc as [E _], Hn as [E' _]; by cbn; rewrite E, E'|done].
      constructor; [eapply Hin; [|exact Hc]; set_solver|constructor; [eapply Hin; [|exact Hn]; set_solver|constructor]].
    - done. }
  split_and!; [done..| |].
  - eapply Forall_impl; [exact Hall|]. by intros c [_ ?].
  - intros Hroot. eapply Forall_impl; [exact Hall|]. intros c [Hs Hc]. by eapply rendered_inside.
Qed.
