(* ===== verification/Apply.v ===== *)
(** * The apply orchestrator (worker/apply/apply.go)

    One job driven through render, stage, validate, promote, reload and health.
    The state is the database, the history of what the run did, and the fields of
    [applyRun]; the history is what the environment's answers may depend on: the
    clock, the identifiers, the filesystem, the control server, the renderer, and
    the writes other processes make between two store calls. *)

From S2P Require Import Prelude GoStrings StrFacts Json JsonText Model Jobs Store Scrub RProxy Candidate Control Revisions.
From stdpp Require Import options.

Inductive event : Type :=
| EvLog (message : string)
| EvClock
| EvRender
| EvFile (op : fs_op)
| EvControl (request : Request) (answer : result string Response)
| EvUpdate (id : string) (status : option Status) (accepted : bool)
| EvMark (revision : string) (accepted : bool)
| EvEnqueue (revision : string) (accepted : bool).
Definition history := list event.

Inductive apply_error : Type :=
| EText (message : string)
| EStore (e : store_error)
| ETransition (e : ValidationError).
Inductive outcome (A : Type) : Type := Ret (a : A) | Throw (e : apply_error) | Panic.
Arguments Ret {A}. Arguments Throw {A}. Arguments Panic {A}.

Record state := mkState {
  s_db : database; s_history : history;
  r_job : Job; r_promoted : list Candidate; r_step : string; r_service : string }.
Definition M (A : Type) : Type := state -> state * outcome A.
#[global] Instance M_ret : MRet M := fun A a s => (s, Ret a).
#[global] Instance M_bind : MBind M := fun A B f m s =>
  match m s with (s', Ret a) => f a s' | (s', Throw e) => (s', Throw e) | (s', Panic) => (s', Panic) end.
Definition throw {A} (e : apply_error) : M A := fun s => (s, Throw e).
Definition panic {A} : M A := fun s => (s, Panic).
(** The error as a value: Go's [a, err := m]. *)
Definition try_ {A} (m : M A) : M (A + apply_error) := fun s =>
  match m s with (s', Ret a) => (s', Ret (inl a)) | (s', Throw e) => (s', Ret (inr e)) | (s', Panic) => (s', Panic) end.
Definition emit (e : event) : M unit := fun s =>
  (mkState (s_db s) (s_history s ++ [e]) (r_job s) (r_promoted s) (r_step s) (r_service s), Ret tt).
Definition set_db (db : database) : M unit := fun s =>
  (mkState db (s_history s) (r_job s) (r_promoted s) (r_step s) (r_service s), Ret tt).
Definition set_job (job : Job) : M unit := fun s =>
  (mkState (s_db s) (s_history s) job (r_promoted s) (r_step s) (r_service s), Ret tt).
Definition set_step (step : string) : M unit := fun s =>
  (mkState (s_db s) (s_history s) (r_job s) (r_promoted s) step (r_service s), Ret tt).
Definition set_service (service : string) : M unit := fun s =>
  (mkState (s_db s) (s_history s) (r_job s) (r_promoted s) (r_step s) service, Ret tt).
Definition add_promoted (c : Candidate) : M unit := fun s =>
  (mkState (s_db s) (s_history s) (r_job s) (r_promoted s ++ [c]) (r_step s) (r_service s), Ret tt).
Definition get : M state := fun s => (s, Ret s).
Fixpoint for_each {A} (l : list A) (body : A -> M unit) : M unit :=
  match l with [] => mret tt | a :: l => body a;; for_each l body end.

Definition orDefault (value fallback : string) : string := if value =? "" then fallback else value.

Definition with_status (p : JobPatch) (s : Status) : JobPatch :=
  mkPatch (Some s) (PValidation p) (PApply p) (PHealth p) (PError p) (PClaimed p) (PStarted p) (PFinished p).
Definition with_failure (p : JobPatch) (message : string) (at_ : time) : JobPatch :=
  mkPatch (PStatus p) (PValidation p) (PApply p) (PHealth p) (Set_ message) (PClaimed p) (PStarted p) (Set_ at_).
Definition patch_validation (out : string) : JobPatch := mkPatch None (Set_ out) Keep Keep Keep Keep Keep Keep.
Definition patch_health (out : string) : JobPatch := mkPatch None Keep Keep (Set_ out) Keep Keep Keep Keep.
Definition patch_rolled_back (health : Nullable string) (message : string) (at_ : time) : JobPatch :=
  mkPatch None Keep Keep health (Set_ message) Keep Keep (Set_ at_).
Definition patch_applied (apply health : string) (at_ : time) : JobPatch :=
  mkPatch None Keep (Set_ apply) (Set_ health) Keep Keep Keep (Set_ at_).

(** [store.Job{}] *)
Definition zero_job : Job :=
  mkJob "" "" None "" "" "" None None None None None None None "" zero_time None None None None None None None.

(** [map[string]json.RawMessage]; an absent output is omitted. *)
Definition setOutput (outputs : rawmap) (service : Service) (output : option string) : rawmap :=
  match output with Some t => raw_set outputs service t | None => outputs end.

Definition safe_char (c : ascii) : bool := is_alnum c || one_of "_-" c.
Definition safeLogID (value : string) : string :=
  if (1 <=? slen value)%Z && (slen value <=? 80)%Z && sall safe_char value then value else "[redacted]".

Section orchestrator.
Context (now : history -> time) (new_uuid : history -> string).
Context (fs : history -> fs_op -> option string).
Context (control : history -> Request -> result string Response).
Context (render : history -> string -> Job -> result string (list Candidate)).
Context (others : history -> database -> database).
Context (store_text : store_error -> string).
Context (float_text : string -> option string).
Context (CandidateRoot : string).

Definition error_text (e : apply_error) : string :=
  match e with EText m => m | EStore e => store_text e | ETransition e => Message e end.
Definition errorMessage (e : apply_error) : string := orDefault (error_text e) "Apply failed".

Definition clock : M time := s ← get; let t := now (s_history s) in emit EvClock;; mret t.
Definition logf (message : string) : M unit := emit (EvLog message).
Definition file_op (op : fs_op) : M unit :=
  s ← get; let r := fs (s_history s) op in
  emit (EvFile op);; match r with None => mret tt | Some message => throw (EText message) end.
Definition Execute (request : Request) : M Response :=
  s ← get; let r := control (s_history s) request in
  emit (EvControl request r);; match r with Ok response => mret response | Err message => throw (EText message) end.
Definition request (c : Candidate) (job : Job) (operation : Operation) : M Response :=
  s ← get;
  Execute (mkRequest (new_uuid (s_history s)) operation (CService c) (RevisionID job) (CChecksum c) (CandidatePath c)).
(** A store call sees what the other writers did before it. *)
Definition store_call {A} (op : database -> time -> database * stored A) (ev : bool -> event) : M A :=
  s ← get;
  let '(db, r) := op (others (s_history s) (s_db s)) (now (s_history s)) in
  set_db db;;
  match r with
  | Ok a => emit (ev true);; mret a
  | Err e => emit (ev false);; throw (EStore e)
  end.
Definition Jobs_Update (id : string) (patch : JobPatch) : M Job :=
  store_call (fun db now => Store.Update db now id patch) (EvUpdate id (PStatus patch)).
Definition must_marshal (text : option string) : M string := match text with Some t => mret t | None => panic end.

Definition setStatus (job : Job) (status : Status) (patch : JobPatch) : M Job :=
  match Transition (JStatus job) status with
  | Err e => throw (ETransition e)
  | Ok next => Jobs_Update (JobID job) (with_status patch next)
  end.
Definition scrub (message : string) : string := scrubMessage float_text message.
Definition fail_ (job : Job) (message : string) (patch : JobPatch) : M Job :=
  at_ ← clock; setStatus job Failed (with_failure patch (scrub message) at_).

(** Every promoted candidate is asked to roll back, last first. *)
Definition rollback_one (job : Job) (succeeded : bool) (c : Candidate) : M bool :=
  r ← try_ (request c job OperationRollback);
  if match r with inl response => ROK response | inr _ => false end then mret succeeded
  else
    logf ("worker rollback failed job=" +:+ safeLogID (JobID job) +:+ " revision=" +:+ safeLogID (RevisionID job)
      +:+ " correlation=" +:+ safeLogID (CorrelationID job) +:+ " service=" +:+ CService c);;
    mret false.
Fixpoint rollback_loop (job : Job) (succeeded : bool) (l : list Candidate) : M bool :=
  match l with [] => mret succeeded | c :: l => ok ← rollback_one job succeeded c; rollback_loop job ok l end.
Definition rollback (candidates : list Candidate) (job : Job) : M bool := rollback_loop job true (rev candidates).

Definition logFailure (outcome_ : string) : M unit :=
  s ← get;
  logf ("worker apply " +:+ outcome_ +:+ " job=" +:+ safeLogID (JobID (r_job s)) +:+ " revision=" +:+ safeLogID (RevisionID (r_job s))
    +:+ " correlation=" +:+ safeLogID (CorrelationID (r_job s)) +:+ " step=" +:+ r_step s +:+ " service=" +:+ r_service s).

(** The drift check decodes the output into a struct of one field of type any. *)
Definition hasNginxDrift (response : Response) : bool :=
  match ROutput response with
  | None => false
  | Some text =>
      match json_Unmarshal text with
      | Some (JObj m) =>
          let matching := List.filter (fun f => foldName f.1 =? foldName "status") m in
          match mapM (fun f => decode_numbers float_text f.2) matching with
          | Some l => bool_decide (last l = Some (JStr "drift"))
          | None => false
          end
      | _ => false
      end
  end.

(** ** One attempt *)
Definition write_candidate (c : Candidate) : M unit :=
  match writeCandidate c (orDefault CandidateRoot DefaultCandidateRoot) with
  | Err message => throw (EText message)
  | Ok ops => for_each ops file_op
  end.
Definition staged_output (c : Candidate) (output : option string) : option string :=
  match output with
  | None => Some ("{" +:+ json_plain "service" +:+ ":" +:+ json_plain (CService c) +:+ "}")
  | Some t =>
      t' ← json_Compact t;
      Some ("{" +:+ json_plain "service" +:+ ":" +:+ json_plain (CService c) +:+ "," +:+ json_plain "output" +:+ ":" +:+ t' +:+ "}")
  end.
(** Write, stage and validate each candidate: the outputs, or the failed job. *)
Fixpoint stage_loop (l : list Candidate) (validationOutput : rawmap) : M (rawmap + Job) :=
  match l with
  | [] => mret (inl validationOutput)
  | c :: l =>
      set_service (CService c);;
      set_step "write_candidate";;
      write_candidate c;;
      set_step "stage";;
      s ← get;
      staged ← request c (r_job s) OperationStage;
      if negb (ROK staged) then
        logFailure "failed";;
        out ← must_marshal (staged_output c (ROutput staged));
        job ← fail_ (r_job s) (orDefault (RError staged) "Candidate staging failed") (patch_validation out);
        mret (inr job)
      else
        set_step "validate";;
        validation ← request c (r_job s) OperationValidate;
        let validationOutput := setOutput validationOutput (CService c) (ROutput validation) in
        if negb (ROK validation) then
          logFailure "failed";;
          out ← must_marshal (marshal_raw validationOutput);
          job ← fail_ (r_job s) (orDefault (RError validation) "Candidate validation failed") (patch_validation out);
          mret (inr job)
        else stage_loop l validationOutput
  end.
Fixpoint promote_loop (l : list Candidate) (applyOutput : rawmap) : M rawmap :=
  match l with
  | [] => mret applyOutput
  | c :: l =>
      set_service (CService c);;
      set_step "promote";;
      s ← get;
      promoted ← request c (r_job s) OperationPromote;
      (if ROK promoted then mret tt else throw (EText (orDefault (RError promoted) "Candidate promotion failed")));;
      add_promoted c;;
      promote_loop l (setOutput applyOutput (CService c) (ROutput promoted))
  end.
(** Reload and check each candidate: the outputs, or the job rolled back or failed. *)
Definition unhealthy (job : Job) (health : Response) (healthOutput : rawmap) : M Job :=
  logFailure "failed";;
  s ← get;
  undone ← rollback (r_promoted s) job;
  if undone : bool then
    out ← must_marshal (marshal_raw healthOutput);
    at_ ← clock;
    setStatus job RolledBack
      (patch_rolled_back (Set_ out) (scrub (orDefault (RError health) "Post-reload health failed; rolled back")) at_)
  else
    out ← must_marshal (marshal_raw healthOutput);
    fail_ job (orDefault (RError health) "Post-reload health failed" +:+ "; rollback failed") (patch_health out).
Fixpoint health_loop (l : list Candidate) (healthOutput : rawmap) : M (rawmap + Job) :=
  match l with
  | [] => mret (inl healthOutput)
  | c :: l =>
      set_service (CService c);;
      set_step "reload";;
      s ← get;
      reload ← request c (r_job s) OperationReload;
      (if ROK reload then mret tt else throw (EText (orDefault (RError reload) "Service reload failed")));;
      set_step "health";;
      health ← request c (r_job s) OperationHealth;
      let healthOutput := setOutput healthOutput (CService c) (ROutput health) in
      if negb (ROK health) || hasNginxDrift health then
        job ← unhealthy (r_job s) health healthOutput; mret (inr job)
      else health_loop l healthOutput
  end.
Definition mark_applied : M unit :=
  s ← get;
  at_ ← clock;
  _ ← store_call (fun db now => MarkApplied db now (RevisionID (r_job s)) at_) (EvMark (RevisionID (r_job s)));
  mret tt.

(** [r.job, err = m]: on an error the field becomes the zero job. *)
Definition assign_job (m : M Job) : M Job :=
  r ← try_ m;
  match r with inl job => set_job job;; mret job | inr e => set_job zero_job;; throw e end.

Definition execute (snapshot : string) : M Job :=
  s ← get;
  desired ← must_marshal (DesiredSnapshot snapshot);
  emit EvRender;;
  match render (s_history s) desired (r_job s) with
  | Err message => throw (EText message)
  | Ok [] => throw (EText "No candidates were rendered")
  | Ok candidates =>
      staged ← stage_loop candidates [];
      match staged with
      | inr job => mret job
      | inl validationOutput =>
          set_step "set_applying";;
          out ← must_marshal (marshal_raw validationOutput);
          job ← assign_job (setStatus (r_job s) Applying (patch_validation out));
          applyOutput ← promote_loop candidates [];
          healthy ← health_loop candidates [];
          match healthy with
          | inr job => mret job
          | inl healthOutput =>
              set_step "mark_applied";;
              mark_applied;;
              apply ← must_marshal (marshal_raw applyOutput);
              health ← must_marshal (marshal_raw healthOutput);
              at_ ← clock;
              setStatus job Applied (patch_applied apply health at_)
          end
      end
  end.

(** ** Apply *)
Definition lookup (jobID : string) : M (option Job) :=
  s ← get;
  let db := others (s_history s) (s_db s) in
  set_db db;;
  match Store.Get db jobID with Ok o => mret o | Err e => throw (EStore e) end.
Definition claim (jobID : string) (job : Job) : M Job :=
  if JStatus job =? Queued then setStatus job Validating empty_patch
  else if JStatus job =? Validating then mret job
  else throw (EText ("Job " +:+ jobID +:+ " is not queued")).
(** What a failed attempt becomes. *)
Definition recover (e : apply_error) : M Job :=
  logFailure "failed";;
  s ← get;
  undone ← (match r_promoted s with [] => mret false | _ => rollback (r_promoted s) (r_job s) end);
  if undone : bool then
    at_ ← clock;
    setStatus (r_job s) RolledBack (patch_rolled_back Keep (scrub (errorMessage e)) at_)
  else fail_ (r_job s) (errorMessage e) empty_patch.
Definition start_run (job : Job) : M unit := fun s =>
  (mkState (s_db s) (s_history s) job [] "render" "none", Ret tt).
Definition Apply (jobID snapshot : string) : M Job :=
  found ← try_ (lookup jobID);
  match found with
  | inr e => logf ("worker apply failed job=" +:+ safeLogID jobID +:+ " revision=unavailable step=lookup service=none");; throw e
  | inl None => logf ("worker apply failed job=" +:+ safeLogID jobID +:+ " revision=unavailable step=lookup service=none");;
      throw (EText ("Job not found: " +:+ jobID))
  | inl (Some job) =>
      claimed ← try_ (claim jobID job);
      match claimed with
      | inr e =>
          (* a failed update has overwritten the local job with the zero job *)
          let job := if JStatus job =? Queued then zero_job else job in
          logf ("worker apply failed job=" +:+ safeLogID (JobID job) +:+ " revision=" +:+ safeLogID (RevisionID job)
            +:+ " correlation=" +:+ safeLogID (CorrelationID job) +:+ " step=claim service=none");; throw e
      | inl job =>
          start_run job;;
          result ← try_ (execute snapshot);
          match result with inl job => mret job | inr e => recover e end
      end
  end.

(** ** Reconciliation *)
Definition reconcile_input (revision : Revision) (at_ : time) : EnqueueInput :=
  mkEnqueue (RID revision) None TargetNginx Validating "" None None None None None None None
    ("reconcile-nginx:" +:+ RID revision) None None None None (Some at_) (Some at_) None.
(** [random] is what the random source supplies for the job's identifier. *)
Definition ReconcileApplied (random : list Z) (revision : Revision) : M (option Job) :=
  match AppliedAt revision with
  | None => mret None
  | Some _ =>
      s ← get;
      probe ← Execute (mkRequest (new_uuid (s_history s)) OperationHealth ServiceNginx (RID revision) (RChecksum revision)
                (Clean (orDefault CandidateRoot DefaultCandidateRoot +:+ "/" +:+ RID revision +:+ "/nginx")));
      if negb (ROK probe) || negb (hasNginxDrift probe) then mret None else
      at_ ← clock;
      repair ← store_call (fun db now => EnqueueIfNotActive db now random (reconcile_input revision at_)) (EvEnqueue (RID revision));
      match repair with
      | None => mret None
      | Some job => result ← Apply (JobID job) (RSnapshot revision); mret (Some result)
      end
  end.
End orchestrator.
