(* ===== verification/ApplyFacts.v ===== *)
(** * Facts about the apply orchestrator

    The control requests of a run follow one protocol, whatever the control
    server, the filesystem, the clock and the other writers answer; the status a
    run ends in says how far it went. *)

From S2P Require Import Prelude GoStrings StrFacts Json JsonText Model Jobs Store StoreFacts Scrub RProxy Candidate Control Revisions Apply.
From stdpp Require Import options.

(** ** Running a program *)
Lemma bind_run {A B} (m : M A) (f : A -> M B) s s' r : (a ← m; f a) s = (s', r) ->
  (exists s1 a, m s = (s1, Ret a) /\ f a s1 = (s', r))
  \/ (exists e, m s = (s', Throw e) /\ r = Throw e) \/ (m s = (s', Panic) /\ r = Panic).
Proof.
  unfold mbind, M_bind. destruct (m s) as [s1 [a|e|]]; intros H; [left; eauto|right; left|right; right];
    injection H as <- <-; eauto.
Qed.
Lemma try_run {A} (m : M A) s s' r : try_ m s = (s', r) ->
  (exists a, m s = (s', Ret a) /\ r = Ret (inl a)) \/ (exists e, m s = (s', Throw e) /\ r = Ret (inr e))
  \/ (m s = (s', Panic) /\ r = Panic).
Proof. unfold try_. destruct (m s) as [s1 [a|e|]]; intros H; injection H as <- <-; eauto 6. Qed.

(** ** What a history did: the control requests and the marked revisions *)
Inductive act : Type :=
| Ask (operation : Operation) (service : Service) (path : string) (ok : bool)
| Marked (revision : string) (accepted : bool).
Definition ask (op : Operation) (ok : bool) (c : Candidate) : act := Ask op (CService c) (CandidatePath c) ok.
Definition answered_ok (r : result string Response) : bool := match r with Ok response => ROK response | Err _ => false end.
Definition request_of (e : event) : list act :=
  match e with
  | EvControl rq r => [Ask (ROperation rq) (RService rq) (RqPath rq) (answered_ok r)]
  | EvMark revision accepted => [Marked revision accepted]
  | _ => []
  end.
Definition requests (s : state) : list act := concat (map request_of (s_history s)).

(** ** Weakest preconditions *)
Definition wp {A} (m : M A) (Q : state -> outcome A -> Prop) (s : state) : Prop := Q (m s).1 (m s).2.
Lemma wp_elim {A} (m : M A) Q s s' r : m s = (s', r) -> wp m Q s -> Q s' r.
Proof. unfold wp. by intros ->. Qed.
Lemma wp_ret {A} (a : A) (Q : state -> outcome A -> Prop) s : Q s (Ret a) -> wp (mret a) Q s.
Proof. done. Qed.
Lemma wp_throw {A} e (Q : state -> outcome A -> Prop) s : Q s (Throw e) -> wp (throw e) Q s.
Proof. done. Qed.
Lemma wp_bind {A B} (m : M A) (f : A -> M B) Q s :
  wp m (fun s' r => match r with Ret a => wp (f a) Q s' | Throw e => Q s' (Throw e) | Panic => Q s' Panic end) s ->
  wp (a ← m; f a) Q s.
Proof. unfold wp, mbind, M_bind. by destruct (m s) as [s1 []]. Qed.
Lemma wp_try {A} (m : M A) (Q : state -> outcome (A + apply_error) -> Prop) s :
  wp m (fun s' r => match r with Ret a => Q s' (Ret (inl a)) | Throw e => Q s' (Ret (inr e)) | Panic => Q s' Panic end) s ->
  wp (try_ m) Q s.
Proof. unfold wp, try_. by destruct (m s) as [s1 []]. Qed.
Lemma wp_mono {A} (m : M A) (Q Q' : state -> outcome A -> Prop) s : wp m Q s -> (forall s' r, Q s' r -> Q' s' r) -> wp m Q' s.
Proof. unfold wp. auto. Qed.
Lemma wp_skip {A} (k : M A) Q s : wp k Q s -> wp (mret tt;; k) Q s.
Proof. done. Qed.
Lemma wp_add_promoted {A} c (k : M A) Q s :
  wp k Q (mkState (s_db s) (s_history s) (r_job s) (r_promoted s ++ [c]) (r_step s) (r_service s)) ->
  wp (add_promoted c;; k) Q s.
Proof. done. Qed.
Lemma wp_set_job {A} job (k : M A) Q s :
  wp k Q (mkState (s_db s) (s_history s) job (r_promoted s) (r_step s) (r_service s)) -> wp (set_job job;; k) Q s.
Proof. done. Qed.
Lemma wp_throw_bind {A B} e (k : A -> M B) (Q : state -> outcome B -> Prop) s : Q s (Throw e) -> wp (a ← throw e; k a) Q s.
Proof. done. Qed.
Lemma wp_get {A} (f : state -> M A) Q s : wp (f s) Q s -> wp (s ← get; f s) Q s.
Proof. done. Qed.

(** The part of the state the protocol speaks of. *)
Definition same (s s' : state) : Prop := requests s' = requests s /\ r_promoted s' = r_promoted s /\ r_job s' = r_job s.

#[global] Instance same_trans : Transitive same.
Proof. intros s1 s2 s3 (H1&H2&H3) (K1&K2&K3). unfold same. by rewrite K1, K2, K3. Qed.

(** A part of a run that asks control nothing and keeps the run's fields. *)
Definition quiet {A} (m : M A) : Prop := forall s s' r, m s = (s', r) -> same s s'.
(** A part that cannot fail. *)
Definition total {A} (m : M A) : Prop := forall s, exists s' a, m s = (s', Ret a).

Create HintDb quiet discriminated.
Lemma quiet_ret {A} (a : A) : quiet (mret a).
Proof. by intros s s' r [= <- <-]. Qed.
Lemma quiet_throw {A} e : quiet (throw (A := A) e).
Proof. by intros s s' r [= <- <-]. Qed.
Lemma quiet_panic {A} : quiet (panic (A := A)).
Proof. by intros s s' r [= <- <-]. Qed.
Lemma quiet_bind {A B} (m : M A) (f : A -> M B) : quiet m -> (forall a, quiet (f a)) -> quiet (a ← m; f a).
Proof.
  intros Hm Hf s s' r [(s1&a&H1&H2)|[(e&H1&_)|[H1 _]]]%bind_run; [|by eapply Hm..].
  etransitivity; [by eapply Hm|by eapply Hf].
Qed.
Lemma quiet_try {A} (m : M A) : quiet m -> quiet (try_ m).
Proof. intros Hm s s' r [(?&H&_)|[(?&H&_)|[H _]]]%try_run; by eapply Hm. Qed.
Lemma quiet_for_each {A} (l : list A) body : (forall a, quiet (body a)) -> quiet (for_each l body).
Proof. intros Hb. induction l as [|a l IH]; [apply quiet_ret|]. by apply quiet_bind. Qed.
Lemma requests_app s e : concat (map request_of (s_history s ++ [e])) = requests s ++ request_of e.
Proof. unfold requests. rewrite map_app, concat_app. cbn. by rewrite app_nil_r. Qed.
Lemma quiet_emit e : request_of e = [] -> quiet (emit e).
Proof. intros He s s' r [= <- <-]. split_and!; [|done..]. unfold requests at 1. cbn [s_history]. by rewrite requests_app, He, app_nil_r. Qed.
Lemma quiet_set_db db : quiet (set_db db).
Proof. by intros s s' r [= <- <-]. Qed.
Lemma quiet_set_step t : quiet (set_step t).
Proof. by intros s s' r [= <- <-]. Qed.
Lemma quiet_set_service t : quiet (set_service t).
Proof. by intros s s' r [= <- <-]. Qed.
Lemma quiet_get : quiet get.
Proof. by intros s s' r [= <- <-]. Qed.
Lemma wp_quiet {A} (m : M A) Q s : quiet m -> (forall s' r, same s s' -> Q s' r) -> wp m Q s.
Proof. intros Hm H. unfold wp. destruct (m s) as [s' r] eqn:E. apply H. by eapply Hm. Qed.
Lemma wp_quiet_bind {A B} (m : M A) (f : A -> M B) Q s : quiet m ->
  (forall s' a, same s s' -> wp (f a) Q s') -> (forall s', same s s' -> (forall e, Q s' (Throw e)) /\ Q s' Panic) ->
  wp (a ← m; f a) Q s.
Proof.
  intros Hm Hf He. apply wp_bind, wp_quiet; [done|]. intros s' [a|e|] H; [by apply Hf|by apply He..].
Qed.
Lemma wp_total_bind {A B} (m : M A) (f : A -> M B) Q s : quiet m -> total m ->
  (forall s' a, same s s' -> wp (f a) Q s') -> wp (a ← m; f a) Q s.
Proof.
  intros Hm Ht Hf. apply wp_bind. unfold wp. destruct (Ht s) as (s'&a&E). rewrite E. cbn. apply Hf. by eapply Hm.
Qed.
Lemma total_bind {A B} (m : M A) (f : A -> M B) : total m -> (forall a, total (f a)) -> total (a ← m; f a).
Proof.
  intros Hm Hf s. destruct (Hm s) as (s1&a&E). destruct (Hf a s1) as (s2&b&E2). exists s2, b.
  unfold mbind, M_bind. by rewrite E.
Qed.
Lemma total_prim {A} (f : state -> state) (a : state -> A) : total (fun s => (f s, Ret (a s))).
Proof. intros s. by eexists _, _. Qed.
#[export] Hint Resolve total_bind : quiet.
#[export] Hint Extern 1 (total (emit _)) => eapply total_prim : quiet.
#[export] Hint Extern 1 (total (mret _)) => eapply total_prim : quiet.
#[export] Hint Extern 1 (total get) => eapply total_prim : quiet.
#[export] Hint Extern 1 (total (set_db _)) => eapply total_prim : quiet.
#[export] Hint Extern 1 (total (set_step _)) => eapply total_prim : quiet.
#[export] Hint Extern 1 (total (set_service _)) => eapply total_prim : quiet.
#[export] Hint Resolve quiet_ret quiet_throw quiet_panic quiet_bind quiet_try quiet_for_each quiet_set_db quiet_set_step
  quiet_set_service quiet_get : quiet.
#[export] Hint Extern 1 (quiet (emit _)) => apply quiet_emit; reflexivity : quiet.
#[export] Hint Extern 2 (quiet (match ?x with _ => _ end)) => destruct x : quiet.
#[export] Hint Extern 2 (quiet (let '(_, _) := ?x in _)) => destruct x : quiet.

Lemma Update_status db t id patch db' job st : Store.Update db t id patch = (db', Ok job) -> PStatus patch = Some st ->
  JStatus job = st.
Proof.
  intros H Hst. unfold Update in H. destruct (patch_assignments patch) as [a|] eqn:Ea; [|done].
  destruct (no_assignments a); [done|]. apply Write_Ok in H as (_&_&H).
  apply bind_Ok in H as (u&_&H). apply bind_Ok in H as ([rows changed]&Hup&H).
  apply update_rows_Ok in Hup as (_&_&Hch). destruct changed as [|x ch]; [done|].
  apply bind_Ok in H as (j&Hj&H). apply (proj1 (ret_Ok _ _)) in H. injection H as _ <-.
  apply scanJob_fields in Hj as (_&_&->&_). assert (x ∈ map (assign a) (List.filter (fun r => j_id r =? id) (apply_jobs db))) as Hx
    by (rewrite <- Hch; set_solver).
  apply list_elem_of_fmap in Hx as (r&->&_). assert (as_status a = PStatus patch) as Has by (unfold patch_assignments in Ea; by inv_res).
  cbn. by rewrite Has, Hst.
Qed.

(** ** The protocol *)
Definition staged (l : list Candidate) : list act :=
  concat (map (fun c => [ask OperationStage true c; ask OperationValidate true c]) l).
Definition promotes (l : list Candidate) : list act := map (ask OperationPromote true) l.
Definition checked (l : list Candidate) : list act :=
  concat (map (fun c => [ask OperationReload true c; ask OperationHealth true c]) l).
Definition undo (promoted : list Candidate) (oks : list bool) : list act :=
  zip_with (fun c ok => ask OperationRollback ok c) (rev promoted) oks.
(** Where staging [c] can stop: before it is asked, refused, or found invalid. *)
Definition stage_stop (c : Candidate) (bad : list act) : Prop :=
  bad = [] \/ bad = [ask OperationStage false c] \/ bad = [ask OperationStage true c; ask OperationValidate false c].
Definition stopped_staging (l : list Candidate) (X : list act) : Prop :=
  exists pre c post bad, l = pre ++ c :: post /\ X = staged pre ++ bad /\ stage_stop c bad.
(** A round of rollbacks over everything promoted. *)
Definition undo_round (promoted : list Candidate) (U : list act) : Prop :=
  exists oks, length oks = length promoted /\ U = undo promoted oks.
(** Where the checks can stop: a reload refused, or a service not healthy, then
    at most one round of rollbacks. *)
Definition stopped_checking (l promoted : list Candidate) (X : list act) : Prop :=
  exists pre c post bad U, l = pre ++ c :: post /\ X = checked pre ++ bad ++ U
  /\ ((bad = [ask OperationReload false c] /\ U = [])
      \/ (exists b, bad = [ask OperationReload true c; ask OperationHealth b c]) /\ (U = [] \/ undo_round promoted U)).
(** A service was not healthy and the promoted candidates were rolled back. *)
Definition unhealthy_undone (l promoted : list Candidate) (X : list act) (status : Status) : Prop :=
  exists pre c post b oks, l = pre ++ c :: post /\ length oks = length promoted
  /\ X = checked pre ++ [ask OperationReload true c; ask OperationHealth b c] ++ undo promoted oks
  /\ status = (if forallb id oks then RolledBack else Failed).
(** Where an attempt can stop, with what it has promoted by then. *)
Inductive stopped (cs : list Candidate) : list Candidate -> list act -> Prop :=
| stop_staging X : stopped_staging cs X -> stopped cs [] X
| stop_staged : stopped cs [] (staged cs)
| stop_promoting pre c post : cs = pre ++ c :: post -> stopped cs pre (staged cs ++ promotes pre ++ [ask OperationPromote false c])
| stop_checking X : stopped_checking cs cs X -> stopped cs cs (staged cs ++ promotes cs ++ X)
| stop_checked : stopped cs cs (staged cs ++ promotes cs ++ checked cs)
| stop_marking revision ok : stopped cs cs (staged cs ++ promotes cs ++ checked cs ++ [Marked revision ok]).
(** What a run did, and the status it ends in. *)
Inductive protocol (cs : list Candidate) : list act -> Status -> Prop :=
| run_applied revision : cs <> [] -> protocol cs (staged cs ++ promotes cs ++ checked cs ++ [Marked revision true]) Applied
| run_unhealthy X status : unhealthy_undone cs cs X status -> protocol cs (staged cs ++ promotes cs ++ X) status
| run_unpromoted X : stopped cs [] X -> protocol cs X Failed
| run_recovered P X oks : stopped cs P X -> P <> [] -> length oks = length P ->
    protocol cs (X ++ undo P oks) (if forallb id oks then RolledBack else Failed).
Lemma staged_cons c l : staged (c :: l) = [ask OperationStage true c; ask OperationValidate true c] ++ staged l.
Proof. done. Qed.
Lemma checked_cons c l : checked (c :: l) = [ask OperationReload true c; ask OperationHealth true c] ++ checked l.
Proof. done. Qed.
Lemma stopped_here c l bad : stage_stop c bad -> stopped_staging (c :: l) bad.
Proof. intros H. by exists [], c, l, bad. Qed.
Lemma stopped_later c l X : stopped_staging l X ->
  stopped_staging (c :: l) ([ask OperationStage true c; ask OperationValidate true c] ++ X).
Proof. intros (pre&d&post&bad&->&->&H). exists (c :: pre), d, post, bad. by rewrite staged_cons, <- app_assoc. Qed.
Lemma checking_later c l P X : stopped_checking l P X ->
  stopped_checking (c :: l) P ([ask OperationReload true c; ask OperationHealth true c] ++ X).
Proof. intros (pre&d&post&bad&U&->&->&H). exists (c :: pre), d, post, bad, U. by rewrite checked_cons, <- app_assoc. Qed.
Lemma undone_later c l P X st : unhealthy_undone l P X st ->
  unhealthy_undone (c :: l) P ([ask OperationReload true c; ask OperationHealth true c] ++ X) st.
Proof. intros (pre&d&post&b&oks&->&Hl&->&H). exists (c :: pre), d, post, b, oks. by rewrite checked_cons, <- app_assoc. Qed.

Section facts.
Context (now : history -> time) (new_uuid : history -> string).
Context (fs : history -> fs_op -> option string).
Context (control : history -> Request -> result string Response).
Context (render : history -> string -> Job -> result string (list Candidate)).
Context (others : history -> database -> database).
Context (store_text : store_error -> string).
Context (float_text : string -> option string).
Context (CandidateRoot : string).

Lemma quiet_store_call {A} (op : database -> time -> database * stored A) ev :
  (forall b, request_of (ev b) = []) -> quiet (store_call now others op ev).
Proof.
  intros He. unfold store_call. apply quiet_bind; [auto with quiet|]. intros s. destruct (op _ _) as [db [a|e]];
    apply quiet_bind; auto with quiet; intros _; apply quiet_bind; auto with quiet; by apply quiet_emit.
Qed.
Lemma quiet_setStatus job status patch : quiet (setStatus now others job status patch).
Proof. unfold setStatus. destruct (Transition _ _); [by apply quiet_store_call|apply quiet_throw]. Qed.
Lemma quiet_clock : quiet (clock now).
Proof. unfold clock. auto with quiet. Qed.
Lemma quiet_must_marshal t : quiet (must_marshal t).
Proof. unfold must_marshal. auto with quiet. Qed.
Lemma quiet_fail job message patch : quiet (fail_ now others float_text job message patch).
Proof. unfold fail_. eauto using quiet_bind, quiet_clock, quiet_setStatus with quiet. Qed.
Lemma quiet_logf t : quiet (logf t).
Proof. by apply quiet_emit. Qed.
Lemma quiet_logFailure t : quiet (logFailure t).
Proof. unfold logFailure. eauto using quiet_bind, quiet_logf with quiet. Qed.
Lemma quiet_write_candidate c : quiet (write_candidate fs CandidateRoot c).
Proof.
  unfold write_candidate. destruct (writeCandidate _ _) as [ops|]; [|apply quiet_throw].
  apply quiet_for_each. intros op. unfold file_op. apply quiet_bind; [apply quiet_get|]. intros s.
  apply quiet_bind; [by apply quiet_emit|]. intros _. destruct (fs _ _); auto with quiet.
Qed.
Hint Resolve quiet_setStatus quiet_clock quiet_must_marshal quiet_fail quiet_logf quiet_logFailure
  quiet_write_candidate : quiet.

Lemma total_logf t : total (logf t).
Proof. apply total_prim. Qed.
Lemma total_logFailure t : total (logFailure t).
Proof. intros s. eexists _, _. reflexivity. Qed.
Lemma total_clock : total (clock now).
Proof. intros s. do 2 eexists. cbv [clock get emit mbind M_bind mret M_ret]. reflexivity. Qed.
Hint Resolve total_logf total_logFailure total_clock : quiet.

(** ** One request *)
Lemma request_run c job op s s' r : request new_uuid control c job op s = (s', r) ->
  r_promoted s' = r_promoted s /\ r_job s' = r_job s /\
  exists ok, requests s' = requests s ++ [ask op ok c]
  /\ match r with Ret response => ok = ROK response | Throw e => (ok = false) | Panic => False end.
Proof.
  unfold request, Execute. intros [(s1&a&[= <- <-]&H)|[(e&[=]&_)|[[=] _]]]%bind_run.
  apply bind_run in H as [(s2&a&[= <- <-]&H)|[(e&[=]&_)|[[=] _]]].
  apply bind_run in H as [(s3&u&[= <- <-]&H)|[(e&[=]&_)|[[=] _]]].
  set (rq := mkRequest _ _ _ _ _ _) in *. destruct (control (s_history s) rq) as [response|e] eqn:E; injection H as <- <-;
    cbn; (split; [done|]); (split; [done|]); eexists; (split; [|reflexivity]); unfold requests at 1; cbn [s_history];
    by rewrite requests_app.
Qed.

(** ** Rolling back *)
Lemma rollback_one_run job ok0 c s s' r : rollback_one new_uuid control job ok0 c s = (s', r) ->
  r_promoted s' = r_promoted s /\ r_job s' = r_job s /\
  exists ok, requests s' = requests s ++ [ask OperationRollback ok c] /\ r = Ret (ok0 && ok).
Proof.
  unfold rollback_one. intros [(s1&a&H1&H)|[(e&H1&_)|[H1 _]]]%bind_run;
    apply try_run in H1 as [(x&H1&Ha)|[(x&H1&Ha)|[H1 Ha]]]; try discriminate;
    apply request_run in H1 as (Hp&Hj&ok&Hr&Hok); [| |done].
  - injection Ha as ->. subst ok. destruct (ROK x).
    + injection H as <- <-. split_and!; [done..|]. eexists. split; [done|]. by rewrite andb_true_r.
    + apply bind_run in H as [(s2&u&H2&H)|[(e&H2&_)|[H2 _]]]; [|discriminate H2..].
      destruct (quiet_logf _ _ _ _ H2) as (Eq&Ep&Ej). injection H as <- <-. rewrite Eq, Ep, Ej.
      split_and!; [done..|]. eexists. split; [done|]. by rewrite andb_false_r.
  - injection Ha as ->. subst ok.
    apply bind_run in H as [(s2&u&H2&H)|[(e&H2&_)|[H2 _]]]; [|discriminate H2..].
    destruct (quiet_logf _ _ _ _ H2) as (Eq&Ep&Ej). injection H as <- <-. rewrite Eq, Ep, Ej.
    split_and!; [done..|]. eexists. split; [done|]. by rewrite andb_false_r.
Qed.
Lemma rollback_loop_run job l : forall ok0 s s' r, rollback_loop new_uuid control job ok0 l s = (s', r) ->
  r_promoted s' = r_promoted s /\ r_job s' = r_job s /\
  exists oks, length oks = length l /\ requests s' = requests s ++ zip_with (fun c ok => ask OperationRollback ok c) l oks
    /\ r = Ret (ok0 && forallb id oks).
Proof.
  induction l as [|c l IH]; intros ok0 s s' r.
  - intros [= <- <-]. split_and!; [done..|]. exists []. by rewrite app_nil_r, andb_true_r.
  - cbn [rollback_loop]. intros [(s1&a&H1&H)|[(e&H1&_)|[H1 _]]]%bind_run;
      apply rollback_one_run in H1 as (Hp&Hj&ok&Hr&Ha); try discriminate.
    injection Ha as ->. apply IH in H as (Hp'&Hj'&oks&Hl&Hr'&->). rewrite Hp', Hj', Hr', Hr.
    split_and!; [done..|]. exists (ok :: oks). cbn. rewrite <- app_assoc, <- andb_assoc. split; [by f_equal|done].
Qed.
Lemma rollback_run l job s s' r : rollback new_uuid control l job s = (s', r) ->
  r_promoted s' = r_promoted s /\ r_job s' = r_job s /\
  exists oks, length oks = length l /\ requests s' = requests s ++ undo l oks /\ r = Ret (forallb id oks).
Proof. intros H. apply rollback_loop_run in H as (?&?&oks&Hl&?&->). split_and!; try done. exists oks. by rewrite length_rev in Hl. Qed.

Lemma wp_request c job op Q s :
  (forall s' response, r_promoted s' = r_promoted s -> r_job s' = r_job s ->
     requests s' = requests s ++ [ask op (ROK response) c] -> Q s' (Ret response)) ->
  (forall s' e, r_promoted s' = r_promoted s -> r_job s' = r_job s ->
     requests s' = requests s ++ [ask op false c] -> Q s' (Throw e)) ->
  wp (request new_uuid control c job op) Q s.
Proof.
  intros H1 H2. unfold wp. destruct (request _ _ _ _ _ s) as [s' r] eqn:E.
  apply request_run in E as (Hp&Hj&ok&Hr&Hok). destruct r; [apply H1|apply H2|done]; by try rewrite <- Hok.
Qed.

(** A status that is set is the status of the job returned. *)
Lemma wp_setStatus job status patch Q s :
  (forall s' job', same s s' -> JStatus job' = status -> Q s' (Ret job')) ->
  (forall s' e, same s s' -> Q s' (Throw e)) -> wp (setStatus now others job status patch) Q s.
Proof.
  intros H1 H2. pose proof (quiet_setStatus job status patch) as Hq. unfold wp.
  destruct (setStatus _ _ _ _ _ s) as [s' r] eqn:E. pose proof (Hq _ _ _ E) as Hs. unfold setStatus in E.
  destruct (Transition _ _) as [next|] eqn:Et; [|by injection E as <- <-; apply H2].
  apply job_transition_Ok in Et as [-> _]. unfold Jobs_Update, store_call in E.
  apply bind_run in E as [(s1&a&[= <- <-]&E)|[(e&[=]&_)|[[=] _]]].
  destruct (Update _ _ _ _) as [db [job'|e]] eqn:Eu.
  - assert (JStatus job' = status) as Hj by (by eapply Update_status).
    apply bind_run in E as [(s2&a&[= <- <-]&E)|[(e&[=]&_)|[[=] _]]].
    apply bind_run in E as [(s3&a'&[= <- <-]&E)|[(e&[=]&_)|[[=] _]]].
    injection E as <- <-. by apply H1.
  - apply bind_run in E as [(s2&a&[= <- <-]&E)|[(e'&[=]&_)|[[=] _]]].
    apply bind_run in E as [(s3&a'&[= <- <-]&E)|[(e'&[=]&_)|[[=] _]]].
    injection E as <- <-. by apply H2.
Qed.
Lemma wp_fail job message patch Q s :
  (forall s' job', same s s' -> JStatus job' = Failed -> Q s' (Ret job')) ->
  (forall s' e, same s s' -> Q s' (Throw e)) -> wp (fail_ now others float_text job message patch) Q s.
Proof.
  intros H1 H2. unfold fail_. apply wp_total_bind; auto with quiet. intros s1 t Hs.
  apply wp_setStatus; intros; [apply H1|apply H2]; try done; by etransitivity.
Qed.

(** ** Staging *)
Definition stage_post (l : list Candidate) (s s' : state) (r : outcome (rawmap + Job)) : Prop :=
  r_promoted s' = r_promoted s /\ r_job s' = r_job s /\ exists X, requests s' = requests s ++ X /\
  match r with
  | Ret (inl _) => X = staged l
  | Ret (inr job) => stopped_staging l X /\ JStatus job = Failed
  | _ => stopped_staging l X
  end.
(** A state reached from [s] after the acts [X]. *)
Definition after (s : state) (X : list act) (s' : state) : Prop :=
  r_promoted s' = r_promoted s /\ r_job s' = r_job s /\ requests s' = requests s ++ X.
Lemma after_refl s : after s [] s.
Proof. unfold after. by rewrite app_nil_r. Qed.
Lemma after_same s X s1 s2 : after s X s1 -> same s1 s2 -> after s X s2.
Proof. intros (H1&H2&H3) (K1&K2&K3). unfold after. by rewrite K1, K2, K3. Qed.
Lemma after_asked s X s1 s2 a : after s X s1 -> r_promoted s2 = r_promoted s1 -> r_job s2 = r_job s1 ->
  requests s2 = requests s1 ++ [a] -> after s (X ++ [a]) s2.
Proof. intros (H1&H2&H3) K1 K2 K3. unfold after. by rewrite K1, K2, K3, H3, app_assoc. Qed.
Hint Resolve after_refl after_same after_asked : quiet.

Lemma stage_post_stop l s X s' (r : outcome (rawmap + Job)) : after s X s' -> stopped_staging l X ->
  match r with Ret (inl _) => False | Ret (inr job) => JStatus job = Failed | _ => True end -> stage_post l s s' r.
Proof. intros (H1&H2&H3) HX Hr. split_and!; [done..|]. exists X. split; [done|]. by destruct r as [[]| |]. Qed.
Lemma failed_stage l s X s1 job message patch out : after s X s1 -> stopped_staging l X ->
  wp (o ← must_marshal out; j ← fail_ now others float_text job message (patch o); mret (inr j)) (stage_post l s) s1.
Proof.
  intros Ha HX. apply wp_quiet_bind; [auto with quiet| |].
  - intros s2 o Hs. apply wp_bind, wp_fail.
    + intros s3 j Hs' Hj. apply wp_ret. eapply stage_post_stop; eauto using after_same with quiet.
    + intros s3 e Hs'. eapply stage_post_stop; eauto using after_same with quiet.
  - intros s2 Hs. split; intros; eapply stage_post_stop; eauto using after_same.
Qed.
Lemma stage_loop_run l : forall out s,
  wp (stage_loop now new_uuid fs control others float_text CandidateRoot l out) (stage_post l s) s.
Proof.
  induction l as [|c l IH]; intros out s; [split_and!; [done..|]; exists []; by rewrite app_nil_r|].
  cbn [stage_loop]. apply wp_total_bind; auto with quiet. intros s1 _ H1. apply wp_total_bind; auto with quiet. intros s2 _ H2.
  pose proof (after_same _ _ _ _ (after_same _ _ _ _ (after_refl s) H1) H2) as Ha.
  apply wp_quiet_bind; [auto with quiet| |intros s3 H3; split; intros; (eapply stage_post_stop; [by eapply after_same| |done]);
    apply stopped_here; by left].
  intros s3 _ H3. apply wp_total_bind; auto with quiet. intros s4 _ H4. apply wp_get.
  pose proof (after_same _ _ _ _ (after_same _ _ _ _ Ha H3) H4) as Ha4.
  apply wp_bind, wp_request.
  2: { intros s5 e Hp Hj Hr. eapply stage_post_stop; [by eapply after_asked| |done]. apply stopped_here. right; by left. }
  intros s5 st Hp Hj Hr. pose proof (after_asked _ _ _ _ _ Ha4 Hp Hj Hr) as Ha5. clear Hp Hj Hr.
  destruct (ROK st); cbn [negb app] in *.
  2: { apply wp_total_bind; auto with quiet. intros s6 _ H6. eapply failed_stage; [by eapply after_same|].
       apply stopped_here. right; by left. }
  apply wp_total_bind; auto with quiet. intros s6 _ H6. pose proof (after_same _ _ _ _ Ha5 H6) as Ha6.
  apply wp_bind, wp_request.
  2: { intros s7 e Hp Hj Hr. eapply stage_post_stop; [by eapply after_asked| |done]. apply stopped_here. right; by right. }
  intros s7 v Hp Hj Hr. pose proof (after_asked _ _ _ _ _ Ha6 Hp Hj Hr) as Ha7. clear Hp Hj Hr.
  destruct (ROK v); cbn [negb app] in *.
  2: { apply wp_total_bind; auto with quiet. intros s8 _ H8. eapply failed_stage; [by eapply after_same|].
       apply stopped_here. right; by right. }
  eapply wp_mono; [apply IH|]. intros s8 r (Hp&Hj&X&Hr&HX). destruct Ha7 as (Hp7&Hj7&Hr7).
  split_and!; [by rewrite Hp|by rewrite Hj|]. eexists. rewrite Hr, Hr7, <- app_assoc. split; [done|].
  destruct r as [[o|job]| |]; [by rewrite HX|destruct HX; split; [by apply stopped_later|done]|by apply stopped_later..].
Qed.

(** ** Promotion *)
Lemma promote_loop_run l : forall out s,
  wp (promote_loop new_uuid control l out) (fun s' r => r_job s' = r_job s /\ exists pre X,
    r_promoted s' = r_promoted s ++ pre /\ requests s' = requests s ++ X /\
    match r with
    | Ret _ => pre = l /\ X = promotes l
    | Throw _ => exists c post, l = pre ++ c :: post /\ X = promotes pre ++ [ask OperationPromote false c]
    | Panic => False
    end) s.
Proof.
  induction l as [|c l IH]; intros out s.
  - split; [done|]. exists [], []. by rewrite !app_nil_r.
  - cbn [promote_loop]. apply wp_total_bind; auto with quiet. intros s1 _ H1. apply wp_total_bind; auto with quiet.
    intros s2 _ H2. apply wp_get. pose proof (after_same _ _ _ _ (after_same _ _ _ _ (after_refl s) H1) H2) as Ha.
    apply wp_bind, wp_request.
    + intros s3 p Hp Hj Hr. destruct (after_asked _ _ _ _ _ Ha Hp Hj Hr) as (Hp3&Hj3&Hr3). clear Hp Hj Hr.
      destruct (ROK p); cbn [app] in Hr3.
      * apply wp_skip, wp_add_promoted. eapply wp_mono; [apply IH|]. cbn [r_job r_promoted]. intros s4 r (Hj&pre&X&Hp&Hr&HX).
        split; [by rewrite Hj|]. exists (c :: pre), (ask OperationPromote true c :: X).
        split; [rewrite Hp; cbn [r_promoted]; by rewrite Hp3, <- app_assoc|].
        split; [rewrite Hr; change (requests _) with (requests s3) at 1; by rewrite Hr3, <- app_assoc|].
        destruct r as [o|e|]; [by destruct HX as [-> ->]| |done]. destruct HX as (d&post&->&->). by exists d, post.
      * apply wp_throw_bind. split; [done|]. exists [], [ask OperationPromote false c]. split; [by rewrite app_nil_r|].
        split; [done|]. by exists c, l.
    + intros s3 e Hp Hj Hr. destruct (after_asked _ _ _ _ _ Ha Hp Hj Hr) as (Hp3&Hj3&Hr3).
      split; [done|]. exists [], [ask OperationPromote false c]. split; [by rewrite app_nil_r|]. split; [done|]. by exists c, l.
Qed.

(** ** Health *)
Lemma wp_rollback l job Q s :
  (forall s' oks, after s (undo l oks) s' -> length oks = length l -> Q s' (Ret (forallb id oks))) ->
  wp (rollback new_uuid control l job) Q s.
Proof.
  intros H. unfold wp. destruct (rollback _ _ _ _ s) as [s' r] eqn:E.
  apply rollback_run in E as (Hp&Hj&oks&Hl&Hr&->). by apply H.
Qed.
Lemma after_app s X s1 Y s2 : after s X s1 -> after s1 Y s2 -> after s (X ++ Y) s2.
Proof. intros (H1&H2&H3) (K1&K2&K3). unfold after. by rewrite K1, K2, K3, H1, H2, H3, app_assoc. Qed.

Definition unhealthy_post (P : list Candidate) (s s' : state) (r : outcome Job) : Prop :=
  exists U, after s U s' /\ (U = [] \/ undo_round P U) /\
  match r with
  | Ret job => exists oks, length oks = length P /\ U = undo P oks /\ JStatus job = (if forallb id oks then RolledBack else Failed)
  | _ => True
  end.
Lemma unhealthy_run job health out s :
  wp (unhealthy now new_uuid control others float_text job health out) (unhealthy_post (r_promoted s) s) s.
Proof.
  unfold unhealthy. apply wp_total_bind; auto with quiet. intros s1 _ H1. apply wp_get.
  pose proof H1 as (_&Hp&_). rewrite Hp. apply wp_bind, wp_rollback. intros s2 oks H2 Hl.
  pose proof (after_same _ _ _ _ (after_refl s) H1) as H1'. pose proof (after_app _ _ _ _ _ H1' H2) as Ha. cbn [app] in Ha.
  assert (forall s' (r : outcome Job), same s2 s' ->
    match r with Ret job => JStatus job = (if forallb id oks then RolledBack else Failed) | _ => True end ->
    unhealthy_post (r_promoted s) s s' r) as Hstop.
  { intros s' r Hs Hr. exists (undo (r_promoted s) oks). split; [by eapply after_same|]. split; [right; by exists oks|].
    destruct r; [by exists oks|done..]. }
  destruct (forallb id oks).
  - apply wp_quiet_bind; auto with quiet. intros s3 o H3. apply wp_total_bind; auto with quiet. intros s4 t H4.
    apply wp_setStatus; intros; apply Hstop; try done; etransitivity; eauto; by etransitivity.
  - apply wp_quiet_bind; auto with quiet. intros s3 o H3.
    apply wp_fail; intros; apply Hstop; try done; by etransitivity.
Qed.
Definition health_post (l : list Candidate) (s s' : state) (r : outcome (rawmap + Job)) : Prop :=
  exists X, after s X s' /\
  match r with
  | Ret (inl _) => X = checked l
  | Ret (inr job) => unhealthy_undone l (r_promoted s) X (JStatus job)
  | _ => stopped_checking l (r_promoted s) X
  end.
Lemma health_loop_run l : forall out s,
  wp (health_loop now new_uuid control others float_text l out) (health_post l s) s.
Proof.
  induction l as [|c l IH]; intros out s; [by exists []; split; [apply after_refl|]|].
  cbn [health_loop]. apply wp_total_bind; auto with quiet. intros s1 _ H1. apply wp_total_bind; auto with quiet.
  intros s2 _ H2. apply wp_get. pose proof (after_same _ _ _ _ (after_same _ _ _ _ (after_refl s) H1) H2) as Ha.
  assert (forall s' X (r : outcome (rawmap + Job)), after s X s' -> X = [ask OperationReload false c] ->
    match r with Ret _ => False | _ => True end -> health_post (c :: l) s s' r) as Hstop.
  { intros s' X r HX -> Hr. exists [ask OperationReload false c]. split; [done|].
    destruct r; [done|..]; exists [], c, l, [ask OperationReload false c], []; split_and!; try done; by left. }
  apply wp_bind, wp_request; [|intros; eapply Hstop; [by eapply after_asked|done..]].
  intros s3 rl Hp Hj Hr. pose proof (after_asked _ _ _ _ _ Ha Hp Hj Hr) as Ha3. clear Hp Hj Hr.
  destruct (ROK rl); cbn [app] in Ha3; [apply wp_skip|apply wp_throw_bind; by eapply Hstop].
  apply wp_total_bind; auto with quiet. intros s4 _ H4. pose proof (after_same _ _ _ _ Ha3 H4) as Ha4.
  apply wp_bind, wp_request.
  2: { intros s5 e Hp Hj Hr. exists [ask OperationReload true c; ask OperationHealth false c].
       split; [by apply (after_asked _ _ _ _ _ Ha4)|].
       exists [], c, l, [ask OperationReload true c; ask OperationHealth false c], []. split_and!; try done.
       right. split; [by exists false|by left]. }
  intros s5 h Hp Hj Hr. pose proof (after_asked _ _ _ _ _ Ha4 Hp Hj Hr) as Ha5. clear Hp Hj Hr. cbn [app] in Ha5.
  destruct (negb (ROK h) || hasNginxDrift float_text h) eqn:Eh.
  - apply wp_bind. eapply wp_mono; [apply unhealthy_run|]. destruct Ha5 as (Hp5&Hj5&Hr5). rewrite Hp5.
    intros s6 r (U&HU&Hor&Hr). pose proof (after_app s _ s5 _ s6 (conj Hp5 (conj Hj5 Hr5)) HU) as Ha6.
    assert (stopped_checking (c :: l) (r_promoted s) ([ask OperationReload true c; ask OperationHealth (ROK h) c] ++ U)) as Hs.
    { exists [], c, l, [ask OperationReload true c; ask OperationHealth (ROK h) c], U. split_and!; try done. right. by eauto. }
    destruct r as [job| |]; [|by eexists..]. apply wp_ret. eexists. split; [exact Ha6|].
    destruct Hr as (oks&Hl&->&Hst). by exists [], c, l, (ROK h), oks.
  - apply orb_false_iff in Eh as [Hok%negb_false_iff _]. rewrite Hok in Ha5.
    eapply wp_mono; [apply IH|]. intros s6 r (X&HX&Hr). exists ([ask OperationReload true c; ask OperationHealth true c] ++ X).
    split; [by eapply after_app|]. destruct Ha5 as (Hp5&_&_). rewrite Hp5 in Hr.
    destruct r as [[o|job]| |]; [by rewrite Hr|by apply undone_later|by apply checking_later..].
Qed.

(** ** One attempt *)
Definition execute_post (s s' : state) (r : outcome Job) : Prop := exists cs X, requests s' = requests s ++ X /\
  match r with
  | Ret job => protocol cs X (JStatus job)
  | _ => stopped cs (r_promoted s') X
  end.
Lemma execute_post_stop s X s' cs (r : outcome Job) : requests s' = requests s ++ X ->
  match r with Ret _ => False | _ => stopped cs (r_promoted s') X end -> execute_post s s' r.
Proof. intros H Hr. exists cs, X. split; [done|]. by destruct r. Qed.

Lemma wp_assign_setStatus job status patch (Q : state -> outcome Job -> Prop) s :
  (forall s' job', requests s' = requests s -> r_promoted s' = r_promoted s -> Q s' (Ret job')) ->
  (forall s' e, requests s' = requests s -> r_promoted s' = r_promoted s -> Q s' (Throw e)) ->
  wp (assign_job (setStatus now others job status patch)) Q s.
Proof.
  intros H1 H2. unfold assign_job. apply wp_bind, wp_try, wp_setStatus.
  - intros s1 j (Hr&Hp&_) _. apply wp_set_job, wp_ret. by apply H1.
  - intros s1 e (Hr&Hp&_). apply wp_set_job, wp_throw. by apply H2.
Qed.
Lemma wp_store_call {A} (op : database -> time -> database * stored A) ev Q s :
  (forall s' a, r_promoted s' = r_promoted s -> requests s' = requests s ++ request_of (ev true) -> Q s' (Ret a)) ->
  (forall s' e, r_promoted s' = r_promoted s -> requests s' = requests s ++ request_of (ev false) -> Q s' (Throw e)) ->
  wp (store_call now others op ev) Q s.
Proof.
  intros H1 H2. unfold store_call. apply wp_get. destruct (op _ _) as [db [a|e]];
    cbv [wp mbind M_bind set_db emit mret M_ret throw fst snd];
    [apply H1|apply H2]; try done; unfold requests at 1; cbn [s_history]; apply requests_app.
Qed.
Lemma mark_applied_run s : wp (mark_applied now others) (fun s' r => r_promoted s' = r_promoted s /\
  match r with
  | Ret _ => exists revision, requests s' = requests s ++ [Marked revision true]
  | _ => requests s' = requests s \/ exists revision, requests s' = requests s ++ [Marked revision false]
  end) s.
Proof.
  unfold mark_applied. apply wp_get. apply wp_total_bind; auto with quiet. intros s1 t (Hr1&Hp1&Hj1).
  apply wp_bind, wp_store_call; intros s2 a Hp2 Hr2; rewrite Hp1, Hr1 in *.
  - apply wp_ret. split; [done|]. by eexists.
  - split; [done|]. right. by eexists.
Qed.

(** From the promotion on. *)
Lemma finish_run cs vout job0 s0 s1 : cs <> [] -> requests s1 = requests s0 ++ staged cs -> r_promoted s1 = [] ->
  wp (set_step "set_applying";;
      out ← must_marshal (marshal_raw vout);
      job ← assign_job (setStatus now others job0 Applying (patch_validation out));
      applyOutput ← promote_loop new_uuid control cs [];
      healthy ← health_loop now new_uuid control others float_text cs [];
      match healthy with
      | inr job => mret job
      | inl healthOutput =>
          set_step "mark_applied";;
          mark_applied now others;;
          apply ← must_marshal (marshal_raw applyOutput);
          health ← must_marshal (marshal_raw healthOutput);
          at_ ← clock now;
          setStatus now others job Applied (patch_applied apply health at_)
      end) (execute_post s0) s1.
Proof.
  intros Hcs HX HP.
  assert (forall s' (r : outcome Job), requests s' = requests s1 -> r_promoted s' = r_promoted s1 ->
    match r with Ret _ => False | _ => True end -> execute_post s0 s' r) as Hstop.
  { intros s' r H1 H2 Hr. eapply (execute_post_stop _ (staged cs) _ cs); [by rewrite H1|].
    rewrite H2, HP. destruct r; [done|apply stop_staged..]. }
  apply wp_total_bind; auto with quiet. intros s2 _ (Hr2&Hp2&_).
  apply wp_quiet_bind; [auto with quiet| |intros s' (Hr3&Hp3&_); split; intros; apply Hstop; (done || congruence)].
  intros s3 out (Hr3&Hp3&_). apply wp_bind, wp_assign_setStatus; [|intros; apply Hstop; (done || congruence)].
  intros s4 job Hr4 Hp4. assert (requests s4 = requests s0 ++ staged cs) as Hr4' by congruence.
  assert (r_promoted s4 = []) as Hp4' by congruence. clear Hstop Hr2 Hp2 Hr3 Hp3 Hr4 Hp4.
  apply wp_bind. eapply wp_mono; [apply promote_loop_run|]. intros s5 [ao|e|] (_&pre&X&Hp5&Hr5&H5); [| |done].
  2: { destruct H5 as (c&post&->&->). rewrite Hp4' in Hp5. cbn [app] in Hp5.
       eapply (execute_post_stop _ _ _ (pre ++ c :: post)); [by rewrite Hr5, Hr4', <- app_assoc|].
       rewrite Hp5. by eapply stop_promoting. }
  destruct H5 as [-> ->]. rewrite Hp4' in Hp5. cbn [app] in Hp5. rewrite Hr4', <- app_assoc in Hr5.
  apply wp_bind. eapply wp_mono; [apply health_loop_run|]. intros s6 r6 (X&(Hp6&_&Hr6)&H6).
  rewrite Hp5 in Hp6, H6. rewrite Hr5, <- app_assoc, <- app_assoc in Hr6.
  destruct r6 as [[ho|j]| |].
  2: { apply wp_ret. exists cs, (staged cs ++ promotes cs ++ X). split; [done|]. by apply run_unhealthy. }
  2,3: eapply (execute_post_stop _ _ _ cs); [exact Hr6|]; rewrite Hp6; by apply stop_checking.
  subst X. apply wp_total_bind; auto with quiet. intros s7 _ (Hr7&Hp7&_). apply wp_bind.
  eapply wp_mono; [apply mark_applied_run|]. intros s8 r8 (Hp8&H8).
  assert (r_promoted s8 = cs) as Hp8' by congruence. rewrite Hr7, Hr6 in H8.
  destruct r8 as [u| |].
  2,3: destruct H8 as [H8|[revision H8]];
    [eapply (execute_post_stop _ _ _ cs); [exact H8|rewrite Hp8'; apply stop_checked]
    |eapply (execute_post_stop _ _ _ cs); [rewrite H8, <- !app_assoc; done|rewrite Hp8'; apply stop_marking]].
  destruct H8 as [revision H8]. rewrite <- !app_assoc in H8.
  assert (forall s' (r : outcome Job), same s8 s' -> match r with Ret j => JStatus j = Applied | _ => True end ->
    execute_post s0 s' r) as Hend.
  { intros s' r (Hr&Hp&_) Hj. exists cs, (staged cs ++ promotes cs ++ checked cs ++ [Marked revision true]).
    split; [by rewrite Hr|]. rewrite Hp, Hp8'. destruct r; [rewrite Hj; by apply run_applied|apply stop_marking..]. }
  apply wp_quiet_bind; [auto with quiet| |intros; split; intros; by apply Hend]. intros s9 a9 H9.
  apply wp_quiet_bind; [auto with quiet| |intros; split; intros; apply Hend; try done; by etransitivity]. intros s10 a10 H10.
  apply wp_total_bind; auto with quiet. intros s11 t H11.
  apply wp_setStatus; intros; apply Hend; try done; repeat (etransitivity; [eassumption|]); done.
Qed.

Lemma execute_run snapshot s : r_promoted s = [] ->
  wp (execute now new_uuid fs control render others float_text CandidateRoot snapshot) (execute_post s) s.
Proof.
  intros HP.
  assert (forall s' (r : outcome Job), same s s' -> match r with Ret _ => False | _ => True end -> execute_post s s' r) as Hstop.
  { intros s' r (H1&H2&_) Hr. eapply (execute_post_stop _ [] _ []); [by rewrite app_nil_r|].
    rewrite H2, HP. destruct r; [done|apply (stop_staged [])..]. }
  unfold execute. apply wp_get.
  apply wp_quiet_bind; [auto with quiet| |intros; split; intros; by apply Hstop]. intros s1 desired H1.
  apply wp_total_bind; auto with quiet. intros s2 _ H2. assert (same s s2) as H12 by (by etransitivity).
  destruct (render _ _ _) as [[|c cs]|message]; [apply wp_throw; by apply Hstop| |apply wp_throw; by apply Hstop].
  destruct H12 as (Hr2&Hp2&_). apply wp_bind. eapply wp_mono; [apply stage_loop_run|].
  intros s3 r3 (Hp3&_&X&Hr3&H3). rewrite Hr2 in Hr3. rewrite HP in Hp2. rewrite Hp2 in Hp3.
  destruct r3 as [[vout|job]| |].
  - subst X. by apply finish_run.
  - destruct H3 as [H3 Hst]. apply wp_ret. exists (c :: cs), X. split; [done|]. rewrite Hst. by apply run_unpromoted, stop_staging.
  - eapply (execute_post_stop _ _ _ (c :: cs)); [done|]. rewrite Hp3. by apply stop_staging.
  - eapply (execute_post_stop _ _ _ (c :: cs)); [done|]. rewrite Hp3. by apply stop_staging.
Qed.

(** ** The whole run *)
(** What was done, whatever the run returned: an attempt, then maybe rollbacks. *)
Definition run_post (s s' : state) (r : outcome Job) : Prop := exists cs X, requests s' = requests s ++ X /\
  match r with
  | Ret job => protocol cs X (JStatus job)
  | _ => exists P Y U, X = Y ++ U /\ stopped cs P Y /\ (U = [] \/ undo_round P U)
  end.
Lemma recover_run e s0 s cs X : requests s = requests s0 ++ X -> stopped cs (r_promoted s) X ->
  wp (recover now new_uuid control others store_text float_text e) (run_post s0) s.
Proof.
  intros HX Hst. unfold recover. apply wp_total_bind; auto with quiet. intros s1 _ (Hr1&Hp1&Hj1). apply wp_get.
  rewrite Hp1. destruct (r_promoted s) as [|c P] eqn:EP.
  - apply wp_bind, wp_ret. cbv iota.
    assert (forall s' (r : outcome Job), same s1 s' -> match r with Ret j => JStatus j = Failed | _ => True end -> run_post s0 s' r) as Hend.
    { intros s' r (Hr&_&_) Hj. exists cs, X. split; [by rewrite Hr, Hr1|]. destruct r; [rewrite Hj; by apply run_unpromoted|..];
      exists [], X, []; rewrite app_nil_r; split_and!; try done; by left. }
    apply wp_fail; intros; by apply Hend.
  - assert (forall s' (r : outcome Job) oks, length oks = length (c :: P) -> requests s' = requests s1 ++ undo (c :: P) oks ->
      match r with Ret j => JStatus j = (if forallb id oks then RolledBack else Failed) | _ => True end -> run_post s0 s' r) as Hend.
    { intros s' r oks Hl Hr Hj. exists cs, (X ++ undo (c :: P) oks). split; [by rewrite Hr, Hr1, HX, app_assoc|].
      destruct r; [rewrite Hj; by apply run_recovered|..];
      exists (c :: P), X, (undo (c :: P) oks); split_and!; try done; right; by exists oks. }
    apply wp_bind, wp_rollback. intros s2 oks (Hp2&Hj2&Hr2) Hl. pose proof (fun s' r => Hend s' r oks Hl) as Hend'.
    assert (forall s', same s2 s' -> requests s' = requests s1 ++ undo (c :: P) oks) as Hs
      by (intros s' (Hr&_); by rewrite Hr, Hr2).
    destruct (forallb id oks).
    + apply wp_total_bind; auto with quiet. intros s3 t H3.
      apply wp_setStatus; intros; apply Hend'; try done; apply Hs; by etransitivity.
    + apply wp_fail; intros; apply Hend'; try done; by apply Hs.
Qed.

Lemma run_post_nothing s s' (r : outcome Job) : requests s' = requests s -> match r with Ret _ => False | _ => True end -> run_post s s' r.
Proof.
  intros H Hr. exists [], []. split; [by rewrite app_nil_r|]. destruct r; [done|..];
    exists [], [], []; split_and!; try done; solve [apply (stop_staged [])|by left].
Qed.
Lemma Apply_run jobID snapshot s :
  wp (Apply now new_uuid fs control render others store_text float_text CandidateRoot jobID snapshot) (run_post s) s.
Proof.
  unfold Apply. assert (quiet (lookup others jobID)) as Hl.
  { unfold lookup. apply quiet_bind; [auto with quiet|]. intros t. apply quiet_bind; [auto with quiet|]. intros _.
    destruct (Store.Get _ _); auto with quiet. }
  apply wp_quiet_bind; [auto with quiet| |intros s' (H&_); split; intros; by apply run_post_nothing].
  intros s1 found (H1&_). destruct found as [[job|]|e].
  2,3: (apply wp_total_bind; auto with quiet; intros s2 _ (H2&_); apply wp_throw, run_post_nothing; [by rewrite H2|done]).
  assert (quiet (claim now others jobID job)) as Hc by (unfold claim; destruct (_ =? _); [|destruct (_ =? _)]; auto with quiet).
  apply wp_quiet_bind; [auto with quiet| |intros s' (H&_); split; intros; apply run_post_nothing; (done || congruence)].
  intros s2 [claimed|e] (H2&_).
  2: (apply wp_total_bind; auto with quiet; intros s3 _ (H3&_); apply wp_throw, run_post_nothing; [by rewrite H3, H2|done]).
  apply wp_bind. unfold wp at 1. cbn [start_run fst snd]. apply wp_bind, wp_try. eapply wp_mono; [by apply execute_run|].
  intros s3 r (cs&X&H3&Hr). change (requests _) with (requests s2) in H3 at 2. rewrite H2, H1 in H3.
  destruct r as [j|e|].
  - apply wp_ret. by exists cs, X.
  - by eapply recover_run.
  - exists cs, X. split; [done|]. exists (r_promoted s3), X, []. rewrite app_nil_r. split_and!; try done. by left.
Qed.
End facts.

(** ** Reading the protocol *)
Definition is_promote (a : act) : bool := match a with Ask op _ _ _ => op =? OperationPromote | Marked _ _ => false end.
Definition promoted_ok (a : act) : bool := match a with Ask op _ _ ok => (op =? OperationPromote) && ok | Marked _ _ => false end.
Definition no_promote (X : list act) : Prop := Forall (fun a => is_promote a = false) X.

Lemma no_promote_app X Y : no_promote (X ++ Y) <-> no_promote X /\ no_promote Y.
Proof. apply Forall_app. Qed.
Lemma no_promote_concat {A} (f : A -> list act) l : (forall c, no_promote (f c)) -> no_promote (concat (map f l)).
Proof. intros H. induction l as [|c l IH]; [constructor|]. cbn. by apply no_promote_app. Qed.
Lemma no_promote_staged l : no_promote (staged l).
Proof. apply no_promote_concat. intros c. by repeat constructor. Qed.
Lemma no_promote_checked l : no_promote (checked l).
Proof. apply no_promote_concat. intros c. by repeat constructor. Qed.
Lemma no_promote_undo P oks : no_promote (undo P oks).
Proof. unfold undo. revert oks. induction (rev P) as [|c l IH]; intros [|ok oks]; constructor; try done. apply IH. Qed.
Lemma no_promote_round P U : undo_round P U -> no_promote U.
Proof. intros (oks&_&->). apply no_promote_undo. Qed.
Lemma no_promote_stopped_staging l X : stopped_staging l X -> no_promote X.
Proof.
  intros (pre&c&post&bad&_&->&Hb). apply no_promote_app. split; [apply no_promote_staged|].
  unfold no_promote. destruct Hb as [-> |[-> | ->]]; by repeat constructor.
Qed.
Lemma no_promote_stopped_checking l P X : stopped_checking l P X -> no_promote X.
Proof.
  intros (pre&c&post&bad&U&_&->&H). rewrite !no_promote_app. split; [apply no_promote_checked|].
  unfold no_promote. destruct H as [[-> ->]|[[b ->] [-> |HU]]];
    (split; [by repeat constructor|]); [by repeat constructor..|by apply (no_promote_round P)].
Qed.

Lemma split_after (A B pre post : list act) a : A ++ B = pre ++ a :: post -> no_promote A -> is_promote a = true ->
  exists rest, pre = A ++ rest.
Proof.
  revert pre. induction A as [|x A IH]; intros pre H HA Ha; [by exists pre|].
  apply Forall_cons in HA as [Hx HA]. destruct pre as [|y pre].
  - cbn in H. injection H as -> _. congruence.
  - cbn in H. injection H as -> H. apply IH in H as [rest ->]; [|done..]. by exists rest.
Qed.
Lemma split_none (X pre post : list act) a : no_promote X -> X = pre ++ a :: post -> is_promote a = true -> False.
Proof. intros HX -> Ha. apply no_promote_app in HX as [_ HX]. apply Forall_cons in HX as [Hx _]. congruence. Qed.

Lemma stopped_shape cs P X : stopped cs P X -> no_promote X \/ exists B, X = staged cs ++ B.
Proof.
  intros [Y H| |pre c post _|Y _| |v ok]; [left; by eapply no_promote_stopped_staging|right; eauto..].
  exists []. by rewrite app_nil_r.
Qed.
Lemma protocol_shape cs X st : protocol cs X st -> no_promote X \/ exists B, X = staged cs ++ B.
Proof.
  intros [v _|Y st' _|Y H|P Y oks H _ _]; [right; eauto|right; eauto|by eapply stopped_shape|].
  apply stopped_shape in H as [H|[B ->]]; [left; apply no_promote_app; split; [done|apply no_promote_undo]|right].
  exists (B ++ undo P oks). by rewrite app_assoc.
Qed.

(** The accepted promotions are those of the promoted candidates. *)
Lemma filter_none (f : act -> bool) X : Forall (fun a => f a = false) X -> List.filter f X = [].
Proof. induction 1 as [|a X Ha _ IH]; [done|]. cbn. by rewrite Ha. Qed.
Lemma filter_no_promote X : no_promote X -> List.filter promoted_ok X = [].
Proof.
  intros H. apply filter_none. eapply Forall_impl; [exact H|]. intros [op ? ? ok|]; [|done]. cbn. by intros ->.
Qed.
Lemma filter_promotes P : List.filter promoted_ok (promotes P) = promotes P.
Proof. induction P as [|c P IH]; [done|]. cbn. by f_equal. Qed.
Lemma filter_after cs P Y : no_promote Y -> List.filter promoted_ok (staged cs ++ promotes P ++ Y) = promotes P.
Proof.
  intros HY. rewrite !List.filter_app, (filter_no_promote (staged cs)), (filter_no_promote Y), filter_promotes, app_nil_r;
    [done|done|apply no_promote_staged].
Qed.
Lemma stopped_promoted cs P X : stopped cs P X -> List.filter promoted_ok X = promotes P.
Proof.
  intros [Y H| |pre c post _|Y H| |v ok].
  - by eapply filter_no_promote, no_promote_stopped_staging.
  - apply filter_no_promote, no_promote_staged.
  - rewrite !List.filter_app, (filter_no_promote (staged cs)), filter_promotes; [|apply no_promote_staged]. by rewrite app_nil_r.
  - by eapply filter_after, no_promote_stopped_checking.
  - apply filter_after, no_promote_checked.
  - apply filter_after. apply no_promote_app. split; [apply no_promote_checked|by repeat constructor].
Qed.

(** ** The properties *)
Section claims.
Context (now : history -> time) (new_uuid : history -> string).
Context (fs : history -> fs_op -> option string).
Context (control : history -> Request -> result string Response).
Context (render : history -> string -> Job -> result string (list Candidate)).
Context (others : history -> database -> database).
Context (store_text : store_error -> string).
Context (float_text : string -> option string).
Context (CandidateRoot jobID snapshot : string) (s s' : state) (r : outcome Job).
Context (Hrun : Apply now new_uuid fs control render others store_text float_text CandidateRoot jobID snapshot s = (s', r)).

Lemma run_facts : run_post s s' r.
Proof using Hrun. eapply (wp_elim _ (run_post s)); [exact Hrun|apply Apply_run]. Qed.

(** C1: Whatever control, the filesystem, the renderer, the clock and the other
    writers answer, a run that returns a job did what the protocol says for the
    status it returns: staged and validated every candidate before promoting
    any, promoted in order, reloaded and checked in order, rolled back in
    reverse order. *)
Theorem Apply_protocol job : r = Ret job -> exists cs X, requests s' = requests s ++ X /\ protocol cs X (JStatus job).
Proof using Hrun. pose proof run_facts as H. clear Hrun. intros ->. apply H. Qed.

(** A run that returns a job leaves it in a terminal status. *)
Theorem Apply_terminal job : r = Ret job -> IsTerminal (JStatus job) = true.
Proof using Hrun.
  pose proof run_facts as Hf. clear Hrun. intros ->. destruct Hf as (cs&X&_&[v _|Y st (?&?&?&?&oks&_&_&_&->)|Y _|P Y oks _ _ _]); try done; by destruct (forallb id oks).
Qed.



(** C4: A job ends rolled back only when something was promoted and the run's last
    requests rolled back everything promoted, last first, all accepted. *)
Theorem rolled_back_is_undone job : r = Ret job -> JStatus job = RolledBack ->
  exists X P, P <> [] /\ requests s' = requests s ++ X ++ map (ask OperationRollback true) (rev P)
    /\ List.filter promoted_ok X = promotes P.
Proof using Hrun.
  assert (forall (P : list Candidate) oks, length oks = length P -> forallb id oks = true ->
    undo P oks = map (ask OperationRollback true) (rev P)) as Hundo.
  { intros P oks Hl Hok. unfold undo. rewrite <- (length_rev P) in Hl. revert oks Hl Hok.
    induction (rev P) as [|c l IH]; intros [|[] oks]; cbn; try done. intros [= Hl] Hok. f_equal; auto. }
  pose proof run_facts as Hf. clear Hrun. intros -> Hst. destruct Hf as (cs&X&HX&H). revert Hst HX.
  destruct H as [v Hcs|Y st (pre&c&post&b&oks&->&Hl&->&->)|Y _|P Y oks Hs HP Hl]; intros Hst HX; try done;
    (destruct (forallb id oks) eqn:Hok; [|done]); rewrite (Hundo _ _ Hl Hok) in HX.
  - set (cs := pre ++ c :: post) in *.
    exists (staged cs ++ promotes cs ++ checked pre ++ [ask OperationReload true c; ask OperationHealth b c]), cs.
    split; [by destruct pre|]. split; [by rewrite HX, <- !app_assoc|]. apply filter_after, no_promote_app.
    split; [apply no_promote_checked|by repeat constructor].
  - exists Y, P. split; [done|]. split; [by rewrite HX|]. by eapply stopped_promoted.
Qed.
End claims.

(** ** A concrete run *)
Definition test_revision : string := "0a0b0c0d-0000-4000-8000-000000000001".
Definition test_job : string := "0a0b0c0d-0000-4000-8000-000000000002".
Definition test_time : time := (1700000000, 0)%Z.
Definition test_stamp : string := "109223372038554775808.000000000".
Definition test_db : database := mkDatabase
  [mkJobRow test_job test_revision "corr" test_stamp TargetCombined Queued "ordinary" None None None None None None None
     None None None None None None None None]
  [mkRevisionRow test_revision 1 "sum" "{}" None test_stamp None "ordinary" None None None None None None None] [] None.
Definition test_candidate (service : Service) : Candidate :=
  mkCandidate service (DefaultCandidateRoot +:+ "/" +:+ test_revision +:+ "/" +:+ service) "sum" (Some [("conf/a", "x")]).
(** A control server that refuses the [op] requests of a service. *)
Definition test_control (op : Operation) (service : Service) (_ : history) (rq : Request) : result string Response :=
  Ok (mkResponse (RequestID rq) (negb ((ROperation rq =? op) && (RService rq =? service))) (ROperation rq) (Some "{}") "").
Definition test_render (_ : history) (_ : string) (_ : Job) : result string (list Candidate) :=
  Ok [test_candidate ServiceCoreDNS; test_candidate ServiceNginx].
Definition test_state : state := mkState test_db [] zero_job [] "" "".
Abbreviation test_run op service :=
  (Apply (fun _ => test_time) (fun _ => "req") (fun _ _ => None) (test_control op service) test_render (fun _ db => db)
    (fun _ => "store error") Some "" test_job "{}" test_state).
Definition returned (r : outcome Job) : Job := match r with Ret job => job | _ => zero_job end.
Example test_statuses :
  map (fun '(op, service) => match (test_run op service).2 with Ret job => JStatus job | _ => "none" end)
    [("", ""); (OperationValidate, ServiceNginx); (OperationPromote, ServiceNginx); (OperationPromote, ServiceCoreDNS);
     (OperationHealth, ServiceCoreDNS)]
  = [Applied; Failed; RolledBack; Failed; RolledBack].
Proof. by vm_compute. Qed.

Lemma run_eq (p : state * outcome Job) : match snd p with Ret _ => true | _ => false end = true ->
  p = (fst p, Ret (returned (snd p))).
Proof. destruct p as [s [| |]]; [done|by intros..]. Qed.
Lemma test_returns op service : (op, service) ∈ [("", ""); (OperationValidate, ServiceNginx); (OperationPromote, ServiceNginx);
    (OperationHealth, ServiceNginx)] ->
  test_run op service = (fst (test_run op service), Ret (returned (snd (test_run op service)))).
Proof.
  intros H. apply run_eq. rewrite !elem_of_cons, elem_of_nil in H.
  destruct_or?; try done; injection H as -> ->; vm_compute; reflexivity.
Qed.

Lemma Apply_protocol_witness : let '(s', r) := test_run OperationPromote ServiceNginx in
  exists cs X, requests s' = requests test_state ++ X /\ protocol cs X (JStatus (returned r)).
Proof.
  pose proof (test_returns OperationPromote ServiceNginx ltac:(set_solver)) as E.
  rewrite (surjective_pairing (test_run _ _)).
  exact (Apply_protocol _ _ _ _ _ _ _ _ _ _ _ _ _ _ E _ eq_refl).
Defined.
Lemma Apply_terminal_witness : IsTerminal (JStatus (returned (snd (test_run OperationValidate ServiceNginx)))) = true.
Proof.
  pose proof (test_returns OperationValidate ServiceNginx ltac:(set_solver)) as E.
  exact (Apply_terminal _ _ _ _ _ _ _ _ _ _ _ _ _ _ E _ eq_refl).
Defined.
Lemma test_applied : JStatus (returned (snd (test_run "" ""))) = Applied.
Proof. vm_compute. reflexivity. Qed.
Lemma test_rolled_back : JStatus (returned (snd (test_run OperationHealth ServiceNginx))) = RolledBack.
Proof. vm_compute. reflexivity. Qed.
Lemma rolled_back_is_undone_witness : let s' := fst (test_run OperationHealth ServiceNginx) in
  exists X P, P <> [] /\ requests s' = requests test_state ++ X ++ map (ask OperationRollback true) (rev P)
      /\ List.filter promoted_ok X = promotes P.
Proof.
  pose proof (test_returns OperationHealth ServiceNginx ltac:(set_solver)) as E.
  exact (rolled_back_is_undone _ _ _ _ _ _ _ _ _ _ _ _ _ _ E _ eq_refl test_rolled_back).
Defined.

(** When the store refuses to move the job to applying, the run has overwritten
    its job with the zero job: the failure is not recorded, nothing is stored, and
    the error returned is the transition of a job without status, not the store's. *)
Theorem set_applying_failure_is_lost now new_uuid control others store_text float_text (m : M Job) e s s1 s2 r :
  assign_job m s = (s1, Throw e) -> r_promoted s1 = [] ->
  recover now new_uuid control others store_text float_text e s1 = (s2, r) ->
  r = Throw (ETransition (mkValidationError "Invalid job transition:  -> failed" "JOB_TRANSITION")) /\ s_db s2 = s_db s1.
Proof.
  unfold assign_job. intros Ha HP H.
  assert (r_job s1 = zero_job) as HJ.
  { unfold mbind, M_bind in Ha. destruct (try_ m s) as [s0 [[j|e0]|e0|]] eqn:Et; try discriminate Ha; [by injection Ha as <- <-|].
    apply try_run in Et as [(?&_&[=])|[(?&_&[=])|[_ [=]]]]. }
  revert H. unfold recover, fail_. destruct s1 as [db h j p st sv]. cbn in HJ, HP. subst j p.
  cbv [mbind M_bind get logFailure logf emit mret M_ret clock]. cbn [r_promoted r_job s_db s_history r_step r_service].
  unfold setStatus. change (Transition (JStatus zero_job) Failed) with
    (Err (A := Status) (mkValidationError "Invalid job transition:  -> failed" "JOB_TRANSITION")). by intros [= <- <-].
Qed.
