(* ===== verification/Witnesses.v ===== *)
(** * Concrete inputs

    Each property with hypotheses, applied where they hold. *)

From S2P Require Import Prelude GoStrings GoTime StrFacts Json JsonFacts JsonText Timestamp Topology Identity Model Proxy ProxyFacts Dns DnsFacts.
From S2P Require Import RProxy Nginx Coredns RenderFacts AesGcm Kek Snapshot Transfer SnapshotFacts Jobs Store StoreFacts Scrub ScrubFacts.
From S2P Require Import Candidate Control Revisions Render WorkerFacts Apply ApplyFacts.
From stdpp Require Import options.

(** ** The job store *)
Lemma ok_pair {A} (p : database * stored A) : is_ok (snd p) = true -> exists db a, p = (db, Ok a).
Proof. destruct p as [db [a|e]]; [eauto|done]. Qed.
Definition second_job : string := "0a0b0c0d-0000-4000-8000-000000000003".
Definition job_row (id : string) (status : Status) (claimed : option string) : JobRow :=
  mkJobRow id test_revision "corr" test_stamp TargetCombined status "ordinary" None None None None None None None
    None None claimed None None None None None.
Definition stale_stamp : string := "109223372036854775809.000000000".
Definition two_jobs : database :=
  mkDatabase [job_row test_job Queued None; job_row second_job Queued None] (config_revisions test_db) [] None.
Definition busy_jobs : database :=
  mkDatabase [job_row test_job Applying (Some stale_stamp); job_row second_job Applied (Some stale_stamp)] (config_revisions test_db) [] None.
Lemma two_jobs_ok : db_ok two_jobs.
Proof. split_and!; [by repeat constructor..|]. by apply (bool_decide_unpack _), I. Qed.
Lemma busy_jobs_ok : db_ok busy_jobs.
Proof. split_and!; [by repeat constructor..|]. by apply (bool_decide_unpack _), I. Qed.

Lemma claim_step : exists db1, store_step two_jobs db1.
Proof.
  destruct (ok_pair (ClaimNext two_jobs test_time "") ltac:(vm_compute; reflexivity)) as (db1&o&E).
  exists db1. by eapply step_claim.
Qed.
Lemma applied_is_final_witness : exists db', rtc store_step busy_jobs db'
  /\ exists r, r ∈ apply_jobs db' /\ j_id r = second_job /\ j_status r = Applied.
Proof.
  destruct (ok_pair (RecoverStale busy_jobs test_time 60000) ltac:(vm_compute; reflexivity)) as (db1&n&E).
  assert (rtc store_step busy_jobs db1) as Hs by (by eapply rtc_once, step_recover).
  exists db1. split; [exact Hs|]. apply (applied_is_final busy_jobs); [exact Hs|apply busy_jobs_ok|].
  exists (job_row second_job Applied (Some stale_stamp)). split_and!; [apply list_elem_of_In; right; left; reflexivity|reflexivity|reflexivity].
Defined.
Lemma ClaimNext_spec_witness : exists db' o, ClaimNext two_jobs test_time "" = (db', Ok o)
  /\ exists stamp, encodeTime test_time = Ok stamp.
Proof.
  destruct (ok_pair (ClaimNext two_jobs test_time "") ltac:(vm_compute; reflexivity)) as (db'&o&E).
  exists db', o. split; [exact E|]. destruct (ClaimNext_spec _ _ _ _ _ E two_jobs_ok) as (stamp&H&_). by exists stamp.
Defined.
Definition claim1 := Eval vm_compute in ClaimNext two_jobs test_time "".
Definition claim2 := Eval vm_compute in ClaimNext (fst claim1) test_time TargetCombined.
Definition claimed_job (r : stored (option Job)) : Job := match r with Ok (Some job) => job | _ => zero_job end.
Lemma claims_are_exclusive_witness : JobID (claimed_job (snd claim1)) <> JobID (claimed_job (snd claim2)).
Proof.
  apply (claims_are_exclusive two_jobs test_time test_time "" TargetCombined (fst claim1) (fst claim2)).
  - apply two_jobs_ok.
  - vm_compute. reflexivity.
  - vm_compute. reflexivity.
Defined.
Lemma RecoverStale_spec_witness : exists db' n, RecoverStale busy_jobs test_time 60000 = (db', Ok n)
  /\ exists lost, Forall (fun r => lost r = true <-> lost_lease (UnixMilli test_time - 60000) r) (apply_jobs busy_jobs)
  /\ db' = with_jobs busy_jobs (map (fun r => if lost r then requeue_row r else r) (apply_jobs busy_jobs))
  /\ n = Z.of_nat (length (List.filter lost (apply_jobs busy_jobs))).
Proof.
  destruct (ok_pair (RecoverStale busy_jobs test_time 60000) ltac:(vm_compute; reflexivity)) as (db'&n&E).
  exists db', n. split; [exact E|]. apply (RecoverStale_spec _ test_time 60000); [vm_compute; split; congruence|apply busy_jobs_ok|exact E].
Defined.
Definition to_validating : JobPatch := mkPatch (Some Validating) Keep Keep (Set_ "{}") Keep Keep Keep Keep.
Lemma Update_spec_witness : exists db' job, Update two_jobs test_time second_job to_validating = (db', Ok job)
  /\ JStatus job = Validating.
Proof.
  destruct (ok_pair (Update two_jobs test_time second_job to_validating) ltac:(vm_compute; reflexivity)) as (db'&job&E).
  exists db', job. split; [exact E|]. destruct (Update_spec _ _ _ _ _ _ two_jobs_ok E) as (r&a&_&_&_&_&_&_&H). exact H.
Defined.
Definition test_input : EnqueueInput :=
  mkEnqueue test_revision None TargetNginx "" "" None None None None None None None "corr" None None None None None None None.
Definition idle_jobs : database := mkDatabase [job_row test_job Applied None] (config_revisions test_db) [] None.
Definition test_random : list Z := repeat 7%Z 16.
Lemma EnqueueIfNotActive_guard_witness :
  (exists db' o, EnqueueIfNotActive two_jobs test_time test_random test_input = (db', Ok o)
     /\ match o with None => db' = two_jobs | Some _ => True end)
  /\ exists db' o, EnqueueIfNotActive idle_jobs test_time test_random test_input = (db', Ok o)
     /\ match o with None => Exists (fun r => active r = true) (apply_jobs idle_jobs)
        | Some job => Forall (fun r => active r = false) (apply_jobs idle_jobs) end.
Proof.
  split.
  - destruct (ok_pair (EnqueueIfNotActive two_jobs test_time test_random test_input) ltac:(vm_compute; reflexivity)) as (db'&o&E).
    exists db', o. split; [exact E|]. pose proof (EnqueueIfNotActive_guard _ _ _ _ _ _ E) as H. destruct o; [done|by destruct H].
  - destruct (ok_pair (EnqueueIfNotActive idle_jobs test_time test_random test_input) ltac:(vm_compute; reflexivity)) as (db'&o&E).
    exists db', o. split; [exact E|]. pose proof (EnqueueIfNotActive_guard _ _ _ _ _ _ E) as H. destruct o; by destruct H.
Defined.

(** ** Revisions *)
Lemma MarkApplied_spec_witness : exists db' v, MarkApplied test_db test_time test_revision test_time = (db', Ok v)
  /\ apply_jobs db' = apply_jobs test_db.
Proof.
  destruct (ok_pair (MarkApplied test_db test_time test_revision test_time) ltac:(vm_compute; reflexivity)) as (db'&v&E).
  exists db', v. split; [exact E|]. destruct (MarkApplied_spec _ _ _ _ _ _ E) as [(key&stamp&r&_&_&_&_&_&H&_) _]. exact H.
Defined.
Definition applied_db : database := Eval vm_compute in fst (MarkApplied idle_jobs test_time test_revision test_time).
Lemma LatestApplied_spec_witness : exists v, LatestApplied applied_db = Ok (Some v) /\ is_Some (AppliedAt v).
Proof.
  eexists. split; [vm_compute; reflexivity|].
  match goal with |- is_Some (AppliedAt ?v) => exact (proj1 (LatestApplied_spec applied_db (Some v) eq_refl)) end.
Defined.

(** ** DNS *)
Definition record_in (name : string) : DNSRecord :=
  mkRecord "r1" name "A" (JStr "192.0.2.1") 60 true None false None.
Definition zone_options : RecordSetOptions := mkRecordSetOptions "example.com" None None.
Lemma validateRecordSet_iff_witness : record_set_spec [record_in "WWW"] zone_options [record_in "www.example.com"].
Proof. apply (validateRecordSet_iff (fun g => g)); [reflexivity|vm_compute; reflexivity]. Defined.
Lemma validateRecordSet_order_witness :
  validateRecordSet (@rev _) [record_in "WWW"] zone_options = Ok [record_in "www.example.com"].
Proof.
  apply (validateRecordSet_order (fun g => g)); [reflexivity|intros g; symmetry; apply Permutation_rev|vm_compute; reflexivity].
Defined.
Lemma validateRecordSet_idempotent_witness :
  validateRecordSet (fun g => g) [record_in "www.example.com"] zone_options = Ok [record_in "www.example.com"].
Proof.
  apply (validateRecordSet_idempotent _ [record_in "WWW"]); [reflexivity|vm_compute; reflexivity|].
  repeat constructor; vm_compute; congruence.
Defined.

(** ** JSON and snapshots *)
Definition tree1 : json := JObj [("b", JNum 1); ("a", JStr "x")].
Definition tree2 : json := JObj [("a", JStr "x"); ("b", JNum 1)].
Lemma writeStable_iff_equiv_witness : json_equiv tree1 tree2.
Proof. apply writeStable_iff_equiv; [vm_compute; reflexivity..|]. vm_compute. reflexivity. Defined.

Definition node_id : string := "11111111-2222-4333-8444-555555555555".
Definition unsigned_envelope : Envelope :=
  mkEnvelope (mkTransient 1 1 node_id 1 1%Z) (mkNodeLocal (mkIngress "192.0.2.1" "") node_id TopologyRolePrimary 1 None)
    (mkReplicated (JObj [("zones", JArr [])]) (Some []) (Some [])) "" HashVersionCurrent.
Definition signed (e : Envelope) : Envelope :=
  mkEnvelope (Transient e) (NodeLocal e) (Replicated e) (match ExpectedHash e with Ok h => h | Err _ => "" end) (HashVersion e).
Definition envelope1 : Envelope := Eval vm_compute in signed unsigned_envelope.
Definition node_input : ImporterInput := mkImporterInput node_id node_id (mkIngress "" "fd00::1") 0 "".
Lemma envelope1_verifies : VerifyHash envelope1 = Ok tt.
Proof. vm_compute. reflexivity. Qed.
Lemma envelope1_ok e : Transient e = Transient envelope1 -> Replicated e = Replicated envelope1 -> NodeID (NodeLocal e) = node_id ->
  Role (NodeLocal e) = TopologyRolePrimary -> classification_ok e.
Proof. intros Ht Hr Hn Hrole. unfold classification_ok. rewrite Ht, Hr, Hn, Hrole. repeat split; done. Qed.
Lemma hash_covers_replicated_only_witness : ExpectedHash (rewritten envelope1 node_input) = ExpectedHash envelope1.
Proof. apply hash_covers_replicated_only; [reflexivity|reflexivity|by apply envelope1_ok|by apply envelope1_ok]. Defined.
Lemma verified_hash_binds_witness :
  json_equiv (hashed_value (Replicated envelope1) 3) (hashed_value (Replicated (rewritten envelope1 node_input)) 3).
Proof.
  apply (verified_hash_binds envelope1 (rewritten envelope1 node_input));
    [vm_compute; reflexivity|vm_compute; reflexivity|exact envelope1_verifies|vm_compute; reflexivity|reflexivity|reflexivity|].
  intros t t' Ht Ht' _. change (Replicated (rewritten envelope1 node_input)) with (Replicated envelope1) in Ht'.
  change (HashVersion (rewritten envelope1 node_input)) with (HashVersion envelope1) in Ht'. congruence.
Defined.
#[global] Instance working_ports : ImportPorts := {|
  SaveStandaloneArchive := fun _ => Ok tt; CreateApplyJobFromSnapshot := fun _ _ => Ok test_job |}.
Lemma Import_calls_witness : exists calls r, Import 5%Z test_revision envelope1 node_input = (calls, r)
  /\ (calls <> [] -> VerifyHash (rewritten envelope1 node_input) = Ok tt).
Proof.
  eexists _, _. split; [apply surjective_pairing|].
  exact (proj1 (Import_calls working_ports 5%Z test_revision envelope1 node_input _ _ (surjective_pairing _))).
Defined.
Lemma Import_keeps_hash_witness : exists env' archive,
  Import 5%Z test_revision envelope1 node_input
    = ([CallSaveArchive archive; CallCreateApplyJob "import" (Marshal env')], Ok (env', mkImporterResult test_revision test_job))
  /\ ContentHash env' = ContentHash envelope1.
Proof.
  pose proof (Import_keeps_hash working_ports 5%Z test_revision envelope1 node_input test_job envelope1_verifies
    eq_refl (fun _ => eq_refl) (fun _ => eq_refl)) as (env'&archive&H1&_&H2&_). exists env', archive. split; [exact H1|exact H2].
Defined.

(** ** Keys *)
Definition raw_key : list Z := repeat 1%Z 32.
Definition nonce : list Z := repeat 9%Z 12.
Lemma raw_key_bytes : Forall is_byte raw_key /\ Forall is_byte nonce.
Proof. split; repeat constructor; vm_compute; congruence. Qed.
Lemma kek_roundtrip_witness : exists env, Wrap (mkKEK raw_key) nonce "hunter2" = Ok env
  /\ Unwrap (mkKEK raw_key) env = Ok "hunter2" /\ IsKEKEnvelope env = true.
Proof. apply (kek_roundtrip raw_key); [apply raw_key_bytes|reflexivity|apply raw_key_bytes|reflexivity]. Defined.
Definition one_secret : PlainSecret := mkPlain test_job "tls" "PEM" nonce.
Definition owner1 : ReplicatedOwner := mkOwner test_job "root" "scrypt$x" "owner".
Definition exporter1 : Exporter := mkExporter (Ok (JObj [])) (Ok [one_secret]) (Ok [owner1]).
Definition export_input : ExporterInput :=
  mkExporterInput node_id node_id TopologyRolePrimary (mkIngress "" "") 1 (Some (mkKEK raw_key)) None.
Lemma Export_validates_witness : exists env, Export exporter1 5%Z export_input = Ok env
  /\ Validator_Validate (NewValidator (Some (mkKEK raw_key))) initial_accept env = mkValidationResult true []
  /\ Forall2 (wrapped (mkKEK raw_key)) [one_secret] (secrets_of (Replicated env)).
Proof.
  apply (Export_validates exporter1 5%Z export_input raw_key (mkKEK raw_key) (JObj []) [one_secret] [owner1]);
    try reflexivity; try (vm_compute; congruence).
  - apply raw_key_bytes.
  - constructor; [|constructor]. split_and!; [vm_compute; congruence..|apply raw_key_bytes|reflexivity].
  - constructor; [|constructor]. split_and!; try (vm_compute; congruence). by left.
Defined.

(** ** Time and roles *)
Lemma timestamp_order_witness : exists ka kb, EncodeTimestamp (FiniteTimestamp (-1) 5) = Ok (Some ka)
  /\ EncodeTimestamp (FiniteTimestamp 0 4) = Ok (Some kb) /\ Compare ka kb = Lt.
Proof.
  eexists _, _. split; [vm_compute; reflexivity|]. split; [vm_compute; reflexivity|].
  apply (timestamp_order (FiniteTimestamp (-1) 5) (FiniteTimestamp 0 4)); [cbn; lia|cbn; lia|vm_compute; reflexivity..].
Defined.
Lemma topology_reachable_witness :
  exists g', rtc topology_step {| t_role := TopologyRoleStandalone; t_gen := 3 |} {| t_role := TopologyRolePrimary; t_gen := g' |}.
Proof. apply topology_reachable; [reflexivity|reflexivity|]. right. discriminate. Defined.
Lemma same_role_regression_witness : Topology.Transition (mkTransition TopologyRolePrimary TopologyRolePrimary 5 4) = Ok tt.
Proof. apply same_role_regression. reflexivity. Defined.

(** ** Proxies and rendering *)
Definition a_rule (kind pattern : string) : pathRule := mkPathRule kind pattern (mkAction "proxy" 0 None "").
Lemma ordered_locations_spec_witness :
  StronglySorted location_order (ordered_locations [a_rule "prefix" "/a"; a_rule "exact" "/b"; a_rule "prefix" "/a/b"]).
Proof.
  apply ordered_locations_spec; repeat constructor; (by left) || (by right) || (vm_compute; congruence).
Defined.
Definition proxied_record : DNSRecord := mkRecord "r1" "www.example.com" "A" (JStr "198.51.100.7") 60 true None true None.
Lemma proxied_record_hides_value_witness (Sprint := fun _ : json => "") :
  record_lines Sprint "example.com" (mkIngress "192.0.2.1" "") proxied_record
  = record_lines Sprint "example.com" (mkIngress "192.0.2.1" "")
      (mkRecord "r1" "www.example.com" "A" (JStr "203.0.113.9") 60 true None true None).
Proof. exact (proj1 (proxied_record_hides_value Sprint "example.com" (mkIngress "192.0.2.1" "") proxied_record (JStr "203.0.113.9") eq_refl)). Defined.
Definition a_stream (port : Z) : StreamRoute := mkStream "s1" true "tcp" "0.0.0.0" port (mkUpstream "10.0.0.5" 22 "tcp").
Lemma validateStreamRoutes_iff_witness :
  Forall stream_good [a_stream 22; a_stream 23] /\ NoDup (map listener [a_stream 22; a_stream 23]).
Proof. apply validateStreamRoutes_iff; [repeat constructor; vm_compute; reflexivity|vm_compute; reflexivity]. Defined.
Definition a_proxy : gomap :=
  [("origin", JObj [("ip", JStr "10.0.0.5"); ("port", JNum 8080); ("protocol", JStr "http")]); ("tlsEnabled", JBool false)].
Lemma validateProxySettings_safe_witness : proxy_safe a_proxy.
Proof. apply (validateProxySettings_safe a_proxy a_proxy). vm_compute. reflexivity. Defined.

(** ** Candidates *)
Definition candidate_files : list (string * string) := [("conf/a", "x")].
Lemma writeCandidate_contained_witness : exists ops, writeCandidate (test_candidate ServiceNginx) DefaultCandidateRoot = Ok ops
  /\ forall p d, WriteFile p d ∈ ops -> ".." ∉ components p.
Proof.
  eexists. split; [vm_compute; reflexivity|]. intros p d Hin.
  destruct (writeCandidate_contained (test_candidate ServiceNginx) DefaultCandidateRoot candidate_files _ p d eq_refl eq_refl Hin)
    as (name&_&_&H&_). exact H.
Defined.
Definition tls_record : DNSRecord :=
  mkRecord "r1" "www.example.com" "A" (JStr "198.51.100.7") 60 true None true
    (Some [("tlsEnabled", JBool true); ("certificateId", JStr "c1");
           ("basicAuth", JObj [("username", JStr "bob"); ("passwordSecretId", JStr "p1")])]).
Definition test_certificate : CertificateStatus :=
  mkCertificate "c1" ["www.example.com"] "le" "http-01" "production" "issued" None None "k1" "PEM" "".
Definition test_reader : SecretReader := fun id => if id =? "p1" then Ok "{SHA}abc" else Ok "KEY".
Definition render_options (secrets : option SecretReader) : Options := mkOptions "" (mkHttp3 false false false) secrets "".
Lemma secretFiles_complete_witness : exists files, secretFiles (render_options (Some test_reader)) [tls_record] [test_certificate] = Ok files
  /\ certificate_written (reader := test_reader) [test_certificate] files "c1".
Proof.
  destruct (secretFiles (render_options (Some test_reader)) [tls_record] [test_certificate]) as [files|] eqn:E;
    [|vm_compute in E; discriminate E].
  exists files. split; [reflexivity|].
  exact (proj2 (secretFiles_complete _ _ _ _ E tls_record ltac:(by left)) eq_refl).
Defined.
Definition test_configuration : ConfigurationSnapshot :=
  mkConfiguration (mkSettings (mkIngress "192.0.2.1" "") (Some (mkPool "p" [mkEndpoint "9.9.9.9" 53])) [] 7 50)
    [mkZone "z" "example.com" true [record_in "www"]] [] [].
Definition combined_job : Job := mkJob test_job test_revision None TargetCombined Validating "ordinary" None None None None None None None
  "corr" test_time None None None None None None None.
Lemma Candidates_spec_witness : exists cs, Candidates (fun _ => "") (fun g => g) test_configuration combined_job (render_options None) = Ok cs
  /\ map CService cs = [ServiceCoreDNS; ServiceNginx].
Proof.
  destruct (Candidates (fun _ => "") (fun g => g) test_configuration combined_job (render_options None)) as [cs|] eqn:E;
    [|vm_compute in E; discriminate E].
  exists cs. split; [reflexivity|]. exact (proj1 (Candidates_spec _ _ _ _ _ _ E)).
Defined.

(** ** Messages and lost failures *)
Lemma scrub_inline_hides_witness : scrub_inline ("PassWord" +:+ " = " +:+ "hunter2 rest") = "PassWord = [REDACTED] rest".
Proof.
  etransitivity; [apply (scrub_inline_hides "Pass" "Word" "" " " "=" " " "hunter2" " rest")|vm_compute; reflexivity];
    try reflexivity; try (apply elem_of_cons; by left).
  repeat split; vm_compute; congruence.
Defined.
Definition refused_run : M Job := assign_job (throw (EStore ErrConstraint)).
Lemma set_applying_failure_is_lost_witness : exists s1 s2 r,
  refused_run test_state = (s1, Throw (EStore ErrConstraint))
  /\ recover (fun _ => test_time) (fun _ => "req") (test_control "" "") (fun _ db => db) (fun _ => "store error") Some
       (EStore ErrConstraint) s1 = (s2, r)
  /\ r = Throw (ETransition (mkValidationError "Invalid job transition:  -> failed" "JOB_TRANSITION")).
Proof.
  eexists _, _, _. split; [reflexivity|]. split; [apply surjective_pairing|].
  eapply (set_applying_failure_is_lost _ _ _ _ _ _ (throw (EStore ErrConstraint)) _ test_state);
    [reflexivity|reflexivity|apply surjective_pairing].
Defined.
