(* ===== verification/SyncWitnesses.v ===== *)
(** * Concrete inputs for the properties of the replication path

    One signed envelope, one credential and one healthy environment of the node's
    loop, on which the properties with hypotheses are applied. *)

From S2P Require Import Prelude Effects Sha256 AesGcm Kek SecretBox Jobs Installation InstallationStore ClusterKeys ClusterKeysFacts PrimaryStore Publication Acknowledgement Canonical PrimaryFacts Publisher Producer PublisherFacts Bootstrap Enrollment EnrollmentFacts GoStrings StrFacts Json JsonFacts Timestamp GoTime Identity Topology GoNet Model Snapshot Transfer JsonText RProxy Store JsonRead SnapshotText SnapshotTrip Credentials SnapshotClient SnapshotClientFacts NodeSync NodeSyncFacts NodeSyncStore NodeSyncStoreFacts Witnesses.
From stdpp Require Import options.

(** ** Stored documents *)
Definition document : json := JObj [("zones", JArr [JStr "a"; JNum 7; JNull]); ("enabled", JBool true)].
Lemma stable_text_roundtrip_witness : exists w, json_Unmarshal (StableStringify document) = Some w
  /\ StableStringify w = StableStringify document.
Proof.
  destruct (stable_text_roundtrip document ltac:(vm_compute; reflexivity) ltac:(apply Z.leb_le; vm_compute; reflexivity))
    as (w&H&_&H2&_).
  exists w. split; [exact H|exact H2].
Defined.

(** ** The envelope on the wire *)
Definition read_uuid (s : string) : option uuid := Some s.
Definition read_float (s : string) : option string := Some s.

(** ** A credential *)
Definition credential1 : NodeCredential := mkCredential node_id (replicate 32 7%Z).
Lemma credential_roundtrip_witness : ParseNodeCredential read_uuid (BearerCopy credential1) = Ok credential1.
Proof.
  apply (credential_roundtrip read_uuid credential1 (BearerCopy credential1)); [|reflexivity].
  split; [reflexivity|]. split; [|split; vm_compute; reflexivity].
  apply Forall_replicate. unfold AesGcm.is_byte. lia.
Defined.

(** ** The unlink signal *)
Definition quoted (s : string) : string := String DQ (s +:+ String DQ "").
Definition unlinked_body : body := mkBody ("{" +:+ quoted "code" +:+ ": " +:+ quoted "NODE_UNLINKED" +:+ "}") false.

(** ** A healthy node *)
Definition fresh_state : NodeSyncState := mkSyncState (mkBinding "https://primary:8443/" node_id node_id) zero_progress.
Definition offer : SnapshotFetchResult := mkFetch false (Marshal envelope1) (ContentHash envelope1) 5%Z.
Definition steady : delays := NewNodeSyncer 0 0.
Definition loaded (h : list sync_event) : load_result := Loaded fresh_state.
Definition healthy_once : sync (result sync_error unit) :=
  RunOnce read_uuid read_float steady (fun _ => false) (fun _ => TopologyRoleNode) loaded
    (fun _ _ => SaveOk) (fun _ _ _ => Ok offer) (fun _ _ => true) (Some (fun _ _ _ _ => Ok tt)) (fun _ => false) (fun _ => 9%Z)
    (fun _ d => d) true.
Lemma healthy_cycle_converges_witness : from healthy_once [] (fun X r => r = Ok tt).
Proof.
  eapply from_mono.
  - apply (healthy_cycle_converges read_uuid read_float steady (fun _ => false) (fun _ => TopologyRoleNode) loaded
      (fun _ _ => SaveOk) (fun _ _ _ => Ok offer) (fun _ _ => true) (Some (fun _ _ _ _ => Ok tt)) (fun _ => false) (fun _ => 9%Z)
      (fun _ d => d) true envelope1 fresh_state []); [|reflexivity|reflexivity].
    constructor; try reflexivity.
    + intros h s after. exists offer. split; [reflexivity|]. split; [reflexivity|]. split; [vm_compute; reflexivity|].
      split; [right; reflexivity|vm_compute; congruence].
    + split; [exact envelope1_verifies|vm_compute; congruence].
    + intros ack H. injection H as <-. reflexivity.
  - intros X r [H _]. exact H.
Defined.
Definition healthy_loop : nat -> sync unit :=
  Run read_uuid read_float steady (fun _ => false) (fun _ => TopologyRoleNode) loaded
    (fun _ _ => SaveOk) (fun _ _ _ => Ok offer) (fun _ _ => true) (Some (fun _ _ _ _ => Ok tt)) (fun _ => false) (fun _ => 9%Z)
    (fun _ d => d) true (fun _ _ => true).

(** ** A bound node and its tables *)
Definition no_tables : sync_tables := mkTables [] [] (mkDatabase [] [] [] None).
Definition binding1 : NodeSyncBinding := mkBinding "https://primary:8443/" node_id node_id.
Definition clock1 : time := (1767323045, 5)%Z.
Definition bound_tables : sync_tables := Eval vm_compute in
  (BindNodeSync read_uuid no_tables clock1 node_id binding1 "h0" 1767323045000000000%Z).1.
Lemma sync_store_refines_witness :
  state_of bound_tables = Some (mkSyncState binding1 (bound_progress "h0" 1767323045000000000%Z)).
Proof.
  assert (call_ok (CallBind binding1 "h0" 1767323045000000000%Z)) as Hok by (split; [reflexivity|split; vm_compute; congruence]).
  destruct (sync_store_refines read_uuid no_tables clock1 node_id (CallBind binding1 "h0" 1767323045000000000%Z) Hok) as [H _].
  exact (proj1 (H bound_tables ltac:(vm_compute; reflexivity))).
Defined.
(** The primary answers that the node was unlinked: the first cycle records it, and the
    two that follow ask nothing. *)
Definition unlinked_run : list sync_event := Eval vm_compute in
  (NodeLoop bound_tables (fun _ => clock1) (fun _ => node_id) read_uuid read_float steady (fun _ => false) (fun _ => TopologyRoleNode)
     (fun _ _ _ => Err (Sentinel ErrSnapshotClientUnlinked)) (fun _ _ => true) None (fun _ => false) (fun _ => 1767323045000000000%Z)
     (fun _ d => d) true (fun _ _ => true) 3 []).1.
Example unlinked_run_events :
  map (fun ev => match ev with EvFetch _ _ => "fetch" | EvSave q SaveOk => if Unlinked q then "unlinked saved" else "saved"
       | EvLoad (Loaded s) => if Unlinked (progress s) then "unlinked loaded" else "loaded" | EvSleep _ _ => "sleep" | _ => "" end) unlinked_run
  = [""; ""; "loaded"; "fetch"; ""; ""; "unlinked saved"; ""; ""; ""; "sleep";
     ""; ""; "unlinked loaded"; ""; ""; ""; ""; "sleep"; ""; ""; "unlinked loaded"; ""; ""; ""; ""; "sleep"].
Proof. reflexivity. Qed.

(** ** A primary with one applied job and one linked node

    The job is produced, the node pulls and acknowledges the snapshot, the token is
    redeemed, the node is unlinked and pulls again. *)
Definition read_text (s : string) : option string := if s =? "" then None else Some s.
Definition primary_id : string := "0a0a0a0a-0a0a-4a0a-8a0a-0a0a0a0a0a0a".
Definition primary_node : string := "0b0b0b0b-0b0b-4b0b-8b0b-0b0b0b0b0b0b".
Definition job_id : string := "0c0c0c0c-0c0c-4c0c-8c0c-0c0c0c0c0c0c".
Definition master1 : string := StdEncodeToString (repeat 0%Z 32).
Definition nonce1 : list Z := repeat 1%Z 12.
Definition at_second (n : Z) : time := (1700000000 + n, 0)%Z.
Definition clock_text (n : Z) : string := match encodeTime (at_second n) with Ok s => s | Err _ => "" end.
Definition primary_key : KeyRow := Eval vm_compute in
  match NewKeyCandidate master1 (mkEntropy (Some (repeat 7%Z 32)) (Some primary_id) nonce1) with
  | Ok c => mkKeyRow primary_id ClusterKeyPurpose (candidate_wrapped c) ClusterKeyWrappingVersion (clock_text 0) None
  | Err _ => mkKeyRow "" "" "" 0 "" None
  end.
Definition primary_row : IdentityRow := mkIdentityRow primary_id primary_node TopologyRolePrimaryWithNodes 3 3 (Some primary_id) (clock_text 0).
Definition applied_job : JobRow :=
  mkJobRow job_id primary_id "correlation" (clock_text 10) TargetCombined Applied "ordinary" None None None None None None None None None
    (Some (clock_text 11)) (Some (clock_text 12)) (Some (clock_text 20)) None None None.
Definition applied_revision : RevisionRow :=
  mkRevisionRow primary_id 4 "sum" "{}" None (clock_text 9) (Some (clock_text 20)) "ordinary" None None None None None None None.
Definition credential_row : CredentialRow :=
  mkCredentialRow (cid credential1) node_id (CredentialHash credential1) NodeCredentialHashVersion (clock_text 5) None.
Definition node_row : EnrolledRow := mkEnrolledRow node_id node_id primary_id (cid credential1) primary_node (clock_text 5) None None.
Definition token_row : TokenRow :=
  mkToken primary_id "selector" "hash" EnrollmentTokenHashVersion primary_node (clock_text 0) (clock_text 1000) None None None.
Definition primary0 : primary_tables :=
  mkPrimaryTables
    (mkTopologyTables (Some primary_row) [credential_row] [node_row] [primary_key] []
      (mkTables [] [] (mkDatabase [applied_job] [applied_revision] [primary_node] None)))
    [] [token_row] [mkGrant primary_node primary_id node_id node_id primary_id 3 None "" "" "" (clock_text 5) (clock_text 900)] [] [] [].
Definition draw1 : drawn := mkDrawn (at_second 30) primary_node (1700000030 * Nanos)%Z (fun _ => nonce1) (mkEntropy None None nonce1).
Lemma primary0_keys : primary_keys primary0.
Proof. split; [apply NoDup_singleton|apply NoDup_singleton|apply NoDup_nil_2|apply NoDup_nil_2]. Qed.
Lemma at_second_clocked n k : finite_clock k = Ok (at_second n) -> clocked (at_second n).
Proof. intros H. by exists k. Qed.
Lemma read_text_nonempty s k : read_text s = Some k -> k <> "".
Proof. unfold read_text. destruct (String.eqb_spec s "") as [_|H]; [done|]. by intros [= <-]. Qed.

Definition redeemed : primary_tables := (CheckEnrollmentToken primary0 (at_second 30) "selector" "hash" (at_second 30) true).1.

Definition published : primary_tables := Eval vm_compute in
  (Produce read_text read_text read_text initial_accept master1 draw1 primary0 job_id).1.
Lemma published_eq : Produce read_text read_text read_text initial_accept master1 draw1 primary0 job_id = (published, Ok tt).
Proof. vm_compute. reflexivity. Qed.
Lemma newest_apply_is_published_witness : exists a, a ∈ applied_snapshots published
  /\ LatestPublishedContentHash read_text published (at_second 31) = Ok (Some (p_hash a)).
Proof.
  destruct (newest_apply_is_published read_text read_text read_text initial_accept master1 read_text_nonempty
    draw1 primary0 published applied_job (clock_text 20) (at_second 31) (clock_text 31)) as (a&_&[_ [Hn _]]&_&_&_&_&_&Hl).
  - exact primary0_keys.
  - vm_compute. reflexivity.
  - vm_compute. reflexivity.
  - left.
  - reflexivity.
  - intros x Hx. by apply elem_of_nil in Hx.
  - exact published_eq.
  - vm_compute. reflexivity.
  - exists a. split; [by apply newest_row_Some in Hn as [Hn _]|exact Hl].
Defined.

Definition published_row : AppliedRow := Eval vm_compute in
  match applied_snapshots published with a :: _ => a | [] => mkApplied "" "" 0 0 0 "" None None "" None None "" None end.
Definition rewrite1 : CanonicalSnapshotWrite :=
  mkCanonicalWrite job_id (default "" (p_body published_row)) primary_id 3 1 1 (p_hash published_row) primary_id job_id (at_second 20).
Lemma published_keys : primary_keys published.
Proof. split; apply NoDup_singleton. Qed.
Definition republished : primary_tables := Eval vm_compute in
  match PublishCanonicalSnapshot read_text primary0 rewrite1 with Ok t => t | Err _ => primary0 end.

Definition ack1 : SnapshotAcknowledgement := mkAcknowledgement node_id (p_hash published_row) 1 1 primary_id 3 (at_second 20) (at_second 40).
Definition acknowledged : primary_tables := Eval vm_compute in (RecordSnapshotAcknowledgement read_text master1 published (at_second 41) ack1).1.

(** The node's request over TLS, to the primary by its name. *)
Definition no_address (s : string) : option (list Z) := None.
Definition primary_certificate (host : string) : bool := host =? "primary.test".
Definition pull1 : publication_call :=
  mkCall EnrollmentSnapshotPublicationPath "" false "" "GET" "primary.test:443" (Some (mkTLS true VersionTLS13 "primary.test"))
    ("Bearer " +:+ BearerCopy credential1).
Definition primary_identity : Identity := mkIdentity primary_id primary_node TopologyRolePrimaryWithNodes 3 3 (Some primary_id) (at_second 0) false.
Definition answered (t : primary_tables) (n : Z) : response * option string :=
  ServeHTTP read_text read_text read_text initial_accept no_address String.eqb 0
    (Some (ReadSnapshotPublication read_text read_text read_text initial_accept master1 t (at_second n)))
    (Some primary_certificate) (Some primary_identity) (Some primary_identity) pull1.
Lemma credential1_ok : credential_ok read_text credential1.
Proof.
  split; [reflexivity|]. split; [apply Forall_replicate; unfold AesGcm.is_byte; lia|]. split; vm_compute; reflexivity.
Qed.
Lemma credential1_linked : linked read_text published credential1 credential_row node_row.
Proof. split; [vm_compute; reflexivity|vm_compute; reflexivity|apply NoDup_singleton|done|vm_compute; reflexivity|done]. Qed.
Lemma served_is_newest_applied_witness : exists a, publishes published a /\ p_body a = Some (RBody (answered published 31).1).
Proof.
  destruct (served_is_newest_applied read_text read_text read_text initial_accept master1 no_address String.eqb published (at_second 31) 0
    (Some primary_certificate) (Some primary_identity) (Some primary_identity) pull1 (answered published 31).1 (answered published 31).2)
    as (a&c&cr&n&Hp&_&_&_&_&_&_&H).
  - apply NoDup_singleton.
  - apply surjective_pairing.
  - left. vm_compute. reflexivity.
  - exists a. split; [exact Hp|]. apply H. vm_compute. reflexivity.
Defined.

Definition severed : primary_tables := Eval vm_compute in (UnlinkEnrolledNode published (at_second 50) node_id (at_second 49)).1.
Lemma severed_eq : UnlinkEnrolledNode published (at_second 50) node_id (at_second 49) = (severed, Ok (at_second 49)).
Proof. vm_compute. reflexivity. Qed.
Lemma unlink_reaches_node_witness : exists res, answered severed 51 = (res, None) /\ PublisherFacts.told_unlinked 1048576 true res.
Proof.
  apply (unlink_reaches_node read_text read_text read_text initial_accept master1 no_address String.eqb published (at_second 50) (at_second 49)
    node_id severed (at_second 49) credential1 credential_row node_row (at_second 51) (clock_text 51) 0 primary_certificate
    primary_identity primary_identity "" pull1 1048576 true).
  - exact credential1_ok.
  - exact credential1_linked.
  - vm_compute. reflexivity.
  - exact severed_eq.
  - split; [split; [reflexivity|split; reflexivity]|vm_compute; reflexivity..].
  - vm_compute. reflexivity.
  - by eexists.
  - vm_compute. reflexivity.
  - vm_compute. congruence.
  - vm_compute. reflexivity.
Defined.
Lemma unlink_signal_is_authentic_witness : exists n, n ∈ enrolled_nodes (topo severed) /\ is_Some (e_unlinked n).
Proof.
  destruct (unlink_signal_is_authentic read_text read_text read_text initial_accept master1 no_address String.eqb severed (at_second 51) 0
    (Some primary_certificate) (Some primary_identity) (Some primary_identity) pull1 (answered severed 51).1 (answered severed 51).2 1048576 true)
    as (c&cr&n&_&_&_&_&Hn&_&_&Hu).
  - apply surjective_pairing.
  - vm_compute. reflexivity.
  - exists n. split; [exact Hn|exact Hu].
Defined.

(** ** A node enrols at a primary

    A toy key agreement with the laws of X25519; one token, one request, its repetition
    and the node that accepts. *)
Lemma uuid_graphic i s : hex_outside_hyphens i s = true -> (forall k, k < String.length s -> hyphen_at (i + k) = true -> char_at s k "-" = true) ->
  sall graphic s = true.
Proof.
  revert i. induction s as [|c s IH]; [done|]. intros i. cbn [hex_outside_hyphens sall String.length]. intros [Hc Hs]%andb_true_iff Hy.
  rewrite (IH (S i) Hs), andb_true_r.
  - apply orb_true_iff in Hc as [Hh|Hc]; [|by apply lower_graphic].
    specialize (Hy 0 ltac:(lia)). rewrite Nat.add_0_r in Hy. specialize (Hy Hh). unfold char_at in Hy. cbn in Hy. by apply ascii_eqb_eq in Hy as ->.
  - intros k Hk Hh. specialize (Hy (S k) ltac:(lia)). rewrite Nat.add_succ_r in Hy. exact (Hy Hh).
Qed.
Lemma uuid_utf8 s : uuidPattern s = true -> utf8b s = true.
Proof.
  unfold uuidPattern. rewrite !andb_true_iff. intros [[Hl [[[H1 H2] H3] H4]] Hs]. apply (graphic_text s), (uuid_graphic 0); [done|].
  intros k _ Hh. cbn [plus] in Hh. unfold hyphen_at in Hh. rewrite !orb_true_iff, !Nat.eqb_eq in Hh. destruct Hh as [[[->| ->]| ->]| ->]; done.
Qed.
Definition parse_uuid (s : string) : option uuid := if uuidPattern s then Some s else None.
Lemma parse_uuid_canonical s : uuidPattern s = true -> parse_uuid s = Some s.
Proof. unfold parse_uuid. by intros ->. Qed.
Lemma parse_uuid_again s k : parse_uuid s = Some k -> parse_uuid k = Some k.
Proof. unfold parse_uuid. destruct (uuidPattern s) eqn:E; [|done]. intros [= <-]. by rewrite E. Qed.
Lemma parse_uuid_text s k : parse_uuid s = Some k -> String.length k = NodeCredentialIDLen /\ utf8b k = true.
Proof.
  unfold parse_uuid. destruct (uuidPattern s) eqn:E; [|done]. intros [= <-]. split; [|by apply uuid_utf8].
  unfold uuidPattern in E. rewrite !andb_true_iff in E. by apply Nat.eqb_eq, E.
Qed.
Definition toy_public (a : list Z) : list Z := Sum256 (string_of a).
Definition toy_agree (a p : list Z) : option (list Z) := Some (zip_with Z.lxor (toy_public a) p).
Lemma toy_agreement : key_agreement toy_public toy_agree.
Proof.
  split.
  - intros a _. split; apply Sum256_bytes.
  - intros a b _ _. by eexists.
  - intros a b _ _. unfold toy_agree. f_equal. generalize (toy_public a), (toy_public b). intros x. induction x as [|c x IH]; intros [|d y]; [done..|].
    cbn. by rewrite Z.lxor_comm, IH.
Qed.
Lemma repeat_bytes n b : (0 <= b < 256)%Z -> Forall AesGcm.is_byte (repeat b n).
Proof. intros Hb. induction n; constructor; [exact Hb|done]. Qed.
Definition no_url (s : string) : option string := None.
Definition no_ca (s : string) : option (string * string) := None.
Definition enroll_selector : list Z := repeat 10%Z 16.
Definition enroll_secret : list Z := repeat 11%Z 32.
Definition enroll_text : string := TokenPrefixV1 +:+ "_" +:+ hex_encode enroll_selector +:+ "_" +:+ EncodeToString enroll_secret.
Definition enroll_token_row : TokenRow :=
  mkToken job_id (hex_encode enroll_selector) (hashSecret enroll_secret) TokenHashVersion primary_node (clock_text 0) (clock_text 1000) None None None.
Definition enroll_primary : primary_tables :=
  mkPrimaryTables
    (mkTopologyTables (Some (mkIdentityRow primary_id primary_node TopologyRolePrimary 3 3 (Some primary_id) (clock_text 0))) [] [] [primary_key] []
      (mkTables [] [] (mkDatabase [] [] [primary_node] None)))
    [] [enroll_token_row] [] [] [] [].
Definition node_private : list Z := repeat 5%Z 32.
Definition enroll_request : PrimaryGrantRequest :=
  mkGrantRequest enroll_text "0d0d0d0d-0d0d-4d0d-8d0d-0d0d0d0d0d0d" node_id node_id (mkRecipientKey BootstrapRecipientKeyVersion (toy_public node_private))
    (repeat 9%Z 32) primary_id 3 0.
Definition enroll_service : PrimaryService :=
  mkPrimaryService DefaultGrantTTL (Some (nodeCredentialIssuer parse_uuid (Ok credential1))) without_identity
    (fun r b g => sealBootstrapWithEntropy toy_public toy_agree r b g (Some (repeat 3%Z 32)) (Some nonce1)).
Local Abbreviation enroll_issue t n :=
  (IssueGrant parse_uuid master1 toy_agree no_url no_ca enroll_service (mkEntropy None None nonce1) (at_second n) (at_second n) t enroll_request).
Definition enroll_tables : primary_tables := Eval vm_compute in (enroll_issue enroll_primary 100).1.
Definition enroll_response : PrimaryGrantResponse := Eval vm_compute in
  match (enroll_issue enroll_primary 100).2 with Ok r => r | Err _ => mkGrantResponse "" "" (0, 0)%Z end.
Lemma enroll_issued : enroll_issue enroll_primary 100 = (enroll_tables, Ok enroll_response).
Proof. vm_compute. reflexivity. Qed.
Lemma enroll_repeated : enroll_issue enroll_tables 200 = (enroll_tables, Ok enroll_response).
Proof. vm_compute. reflexivity. Qed.
Lemma token_serves_one_attempt_witness : enroll_issue enroll_tables 200 = (enroll_tables, Ok enroll_response)
  /\ RPayloadHash enroll_response = RPayloadHash enroll_response /\ enrollment_grants enroll_tables = enrollment_grants enroll_tables.
Proof.
  split; [exact enroll_repeated|].
  destruct (token_serves_one_attempt parse_uuid master1 toy_agree no_url no_ca enroll_service (mkEntropy None None nonce1) (at_second 100) (at_second 100)
    enroll_primary enroll_request enroll_tables enroll_response (hex_encode enroll_selector) enroll_secret enroll_tables enroll_service
    (mkEntropy None None nonce1) (at_second 200) (at_second 200) enroll_request enroll_tables enroll_response enroll_secret)
    as (_&H2&_&H4&_).
  - apply NoDup_singleton.
  - by split.
  - by split.
  - vm_compute. reflexivity.
  - vm_compute. reflexivity.
  - exact enroll_issued.
  - apply rtc_refl.
  - exact enroll_repeated.
  - by split.
Defined.

Definition empty_node : primary_tables :=
  mkPrimaryTables (mkTopologyTables None [] [] [] [] (mkTables [] [] (mkDatabase [] [] [] None))) [] [] [] [] [] [].
Local Abbreviation node_accept :=
  (Accept parse_uuid toy_agree master1 nonce1 nonce1 (at_second 110) (at_second 110) empty_node node_private (request_binding enroll_request)
    (RSealedBootstrapPayload enroll_response) (RPayloadHash enroll_response)).
Definition node_tables : primary_tables := Eval vm_compute in node_accept.1.
Definition node_accepted : AcceptedBootstrap := Eval vm_compute in
  match node_accept.2 with Ok a => a | Err _ => mkAccepted "" "" "" 0 (0, 0)%Z end.
Lemma node_accepts : node_accept = (node_tables, Ok node_accepted).
Proof. vm_compute. reflexivity. Qed.
Lemma parse_uuid_credential : credential_ok parse_uuid credential1.
Proof.
  split; [reflexivity|]. split; [apply Forall_replicate; unfold AesGcm.is_byte; lia|]. split; vm_compute; reflexivity.
Qed.
Lemma enrollment_end_to_end_witness : exists m, LoadActiveInWrite master1 (topo node_tables) (AClusterKeyID node_accepted) = Ok m
  /\ LoadNodeCredentialSecret parse_uuid master1 node_tables (ACredentialID node_accepted) = Ok (secret credential1).
Proof.
  destruct (enrollment_end_to_end parse_uuid toy_public toy_agree no_url no_ca master1 (repeat 0%Z 32) eq_refl parse_uuid_canonical parse_uuid_again
    parse_uuid_text toy_agreement enroll_service (mkEntropy None None nonce1) (at_second 100) (at_second 100) enroll_primary enroll_request
    enroll_tables enroll_response credential1 (repeat 3%Z 32) nonce1 node_private) as (m&_&_&_&_&Hnode).
  - reflexivity.
  - exact parse_uuid_credential.
  - reflexivity.
  - reflexivity.
  - apply repeat_bytes. lia.
  - vm_compute. reflexivity.
  - reflexivity.
  - by split.
  - split; [done|]. split; [apply repeat_bytes; lia|reflexivity].
  - split; [apply NoDup_singleton|]. apply Forall_singleton. vm_compute. reflexivity.
  - cbn. lia.
  - vm_compute. reflexivity.
  - exact enroll_issued.
  - vm_compute. congruence.
  - exists m. destruct (Hnode master1 (repeat 0%Z 32) nonce1 nonce1 (at_second 110) (at_second 110) empty_node node_tables node_accepted) as (_&H).
    + reflexivity.
    + apply NoDup_nil_2.
    + apply repeat_bytes. lia.
    + reflexivity.
    + apply repeat_bytes. lia.
    + reflexivity.
    + intros r Hr. by apply elem_of_nil in Hr.
    + exact node_accepts.
    + exact H.
Defined.
Lemma repeated_request_is_answered_witness : enroll_issue enroll_tables 300 = (enroll_tables, Ok enroll_response).
Proof.
  apply (repeated_request_is_answered parse_uuid toy_agree no_url no_ca master1 enroll_service (mkEntropy None None nonce1)
    (mkEntropy None None nonce1) (at_second 100) (at_second 300) (clock_text 300) (at_second 100) (at_second 300) enroll_primary enroll_request
    enroll_tables enroll_response).
  - done.
  - reflexivity.
  - apply (at_second_clocked 100 (clock_text 100)). vm_compute. reflexivity.
  - apply (at_second_clocked 1000 (clock_text 1000)). vm_compute. reflexivity.
  - exact enroll_issued.
  - vm_compute. congruence.
  - vm_compute. reflexivity.
  - vm_compute. reflexivity.
Defined.

(** The owner mints a token: its secret's text has underscores in it. *)
Definition mint_material : list Z := repeat 10%Z 16 ++ repeat 255%Z 32.
Definition mint_empty : primary_tables := set_tokens enroll_primary [].
Definition mint_created : CreatedToken := Eval vm_compute in
  match (CreateToken without_identity ErrEnrollmentDenied DefaultTokenTTL (Some mint_material) node_id (at_second 60) (at_second 60)
    mint_empty (mkOwnerUser primary_node RoleOwner true)).2 with Ok c => c | Err _ => mkCreated "" "" (0, 0)%Z end.
Definition mint_after : primary_tables := Eval vm_compute in
  (CreateToken without_identity ErrEnrollmentDenied DefaultTokenTTL (Some mint_material) node_id (at_second 60) (at_second 60)
    mint_empty (mkOwnerUser primary_node RoleOwner true)).1.
Lemma minted_token_opens_witness : VerifyToken no_url no_ca (at_second 70) (at_second 70) mint_after (CTToken mint_created) = (mint_after, Ok tt)
  /\ (ConsumeToken no_url no_ca (at_second 70) (at_second 70) mint_after (CTToken mint_created)).2 = Ok tt.
Proof.
  destruct (minted_token_opens no_url no_ca without_identity ErrEnrollmentDenied DefaultTokenTTL mint_material node_id (at_second 60) (at_second 60)
    mint_empty (mkOwnerUser primary_node RoleOwner true) mint_after mint_created) as [_ H].
  - vm_compute. reflexivity.
  - reflexivity.
  - apply Forall_app. split; apply repeat_bytes; lia.
  - apply (at_second_clocked 960 (clock_text 960)). vm_compute. reflexivity.
  - apply (H (at_second 70) (clock_text 70) (at_second 70)).
    + vm_compute. reflexivity.
    + apply (at_second_clocked 70 (clock_text 70)). vm_compute. reflexivity.
    + vm_compute. reflexivity.
Defined.
(** One origin and one CA, as their parsers would give them. *)
Definition one_url (s : string) : option string := if s =? "https://primary.test:443/" then Some s else None.
Definition one_ca (s : string) : option (string * string) := if s =? "PEM" then Some (s, "fingerprint") else None.
Definition token_v2 : string := Eval vm_compute in
  match EncodeTokenV2 one_url one_ca (hex_encode enroll_selector) enroll_secret "https://primary.test:443/" "PEM" with Ok s => s | Err _ => "" end.
Lemma token_v2_roundtrip_witness :
  ParseTokenClaims one_url one_ca token_v2 = Some (mkClaims 2 (hex_encode enroll_selector) enroll_secret "https://primary.test:443/" "PEM").
Proof.
  destruct (token_v2_roundtrip one_url one_ca) with (selector := enroll_selector) (secret := enroll_secret) (url := "https://primary.test:443/")
    (ca := "PEM") (text := token_v2) as (normalized&fingerprint&Hn&H).
  - intros a b d. unfold one_ca. destruct (a =? "PEM") eqn:E; [|done]. intros [= <- <-]. exists "fingerprint". by rewrite E.
  - apply repeat_bytes. lia.
  - apply repeat_bytes. lia.
  - vm_compute. reflexivity.
  - intros b d [= <- _]. vm_compute. reflexivity.
  - vm_compute. reflexivity.
  - injection Hn as <- _. exact H.
Defined.
